(* ===== verification/_CoqProject ===== *)
-Q . S2P
Prelude.v
GoStrings.v
Sha256.v
Json.v
Decoded.v
Text.v
Words.v
Os.v
AtomicFile.v
Indent.v
FsLogic.v
XrayConfig.v
XrayTypes.v
XrayRuntime.v
XraySteps.v
XrayPrune.v
XrayInv.v
XrayRecover.v
XrayApply.v
XrayAdmit.v
XrayTheorems.v
Bolt.v
Events.v
EventSpool.v
SpoolProofs.v
SpoolTheorems.v
Uploader.v
Controller.v
Manifest.v
UpdateTypes.v
Dirs.v
Release.v
XrayUpdate.v
UpdateSteps.v
UpdatePrune.v
UpdateInv.v
UpdateRecover.v
UpdateStart.v
UpdateBuild.v
UpdateApply.v
UpdateAdmit.v
UpdateEntry.v
Frames.v
FrameConfig.v
FrameUpdate.v
UpdateTheorems.v
Net.v
Regexp.v
Fields.v
AccessLine.v
Access.v
AccessProofs.v
AccessHistory.v
AccessTheorems.v
Route.v
XrayStats.v
XrayStatsProofs.v
BundleExec.v
AgentUpdate.v
AgentUpdateProofs.v
AgentUpdateTheorems.v
ReleaseTool.v
Identity.v
Config.v
ConfigProofs.v
Protocol.v
Client.v
ClientTheorems.v
Status.v
StatusTheorems.v
FrameAgent.v
Main.v
Agent.v
StartOrder.v
Installation.v
