(* ===== verification/Prelude.v ===== *)
(** * xui-agent: a verification library

    xui-agent runs beside a proxy server, Xray.  It keeps a session with a
    central panel, executes the panel's commands - validate a configuration,
    apply one, update the Xray binary, update the agent itself - and uploads
    telemetry.  Most of the code exists to survive failures: every change of
    state is recorded before it is made, made by renaming, confirmed
    afterwards, and undone by the next start when the process dies in between.
    This library models the Go sources under src/ as executable definitions
    and proves what they promise, with every system call allowed to fail and
    every process allowed to be killed before any system call.

    ** The program's parts and where they are modelled

    What the packages of the Go library do for the code:
    - GoStrings, Text, Words: strings, strconv, encoding/hex, unicode/utf8,
      path/filepath (Unix rules); Sha256; Json, Indent and Decoded:
      encoding/json on texts, as the code uses it; Net: net and net/netip;
      Regexp: regular expressions.
    - Os: the file tree below the state directory, system calls with faults
      ([Env]), the state monad [io]; Dirs: whole directories; AtomicFile:
      replacing files and links, and the rules of it; FsLogic and Frames: the
      two program logics ([fwp] and [wp] for what a program establishes,
      [steps] and [within] for what it leaves alone).
    - Bolt: bbolt as an interface with laws, and an instance in memory.

    The components, each with its data, operations, invariant and theorems:
    - internal/xrayconfig, internal/xraybinary: XrayConfig.
    - internal/xrayruntime/manager.go: XrayTypes (data, JSON), XrayRuntime
      (operations); XraySteps, XrayPrune, XrayInv, XrayRecover, XrayApply,
      XrayAdmit (proofs, phase by phase), XrayTheorems.
    - internal/xrayruntime/controller.go and process.go: Controller.
    - internal/release: Release.  internal/xrayupdate: Manifest (manifest.go),
      UpdateTypes (data), XrayUpdate (operations), BundleExec (running a
      candidate); UpdateSteps, UpdatePrune, UpdateInv, UpdateRecover,
      UpdateStart, UpdateBuild, UpdateApply, UpdateAdmit, UpdateEntry (proofs),
      UpdateTheorems.
    - internal/update and deploy/xui-agent-launcher: AgentUpdate,
      AgentUpdateProofs, AgentUpdateTheorems.  cmd/xui-agent-release:
      ReleaseTool.
    - internal/eventspool and protocol/v1/events.go: Events, EventSpool,
      SpoolProofs, SpoolTheorems.  internal/telemetry: Uploader; Fields,
      AccessLine, Access, AccessProofs, AccessHistory, AccessTheorems
      (access.go); Route (route.go); XrayStats, XrayStatsProofs (xray.go and
      the heartbeat events of runtime.go).
    - internal/identity: Identity.  internal/config: Config, ConfigProofs.
    - internal/status: Status, StatusTheorems.  protocol/v1/types.go: Protocol.
    - internal/agent: Client, ClientTheorems.  cmd/xui-agent: Main.
    - The whole: FrameConfig, FrameUpdate, FrameAgent (what each component
      leaves alone; UpdateTheorems uses the first two), Agent (the life of an
      installation), StartOrder, Installation (example runs).

    The components meet through interfaces: [Runner], [Controller] and
    [BundleRunner] with their laws (what the managers ask of processes),
    [Collector] with [CollectorLaws] (what the client asks of the status
    collector, discharged by [agent_collector_laws]), [Bolt] with [BoltLaws]
    (discharged by [mem_bolt]), and parameters for libraries: [Zip], [Tar],
    [UrlParser], [Zones], [Spawn], [Machine].  A Go function keeps its name; a
    method's receiver is the first argument; a function with several results
    returns a tuple or a [result].  State kept in memory is a record that is
    passed along; state on disk is the tree of the world.

    ** What the theorems show

    - The three stores.  [XrayInv.safe], [UpdateInv.safe] and
      [AgentUpdateProofs.safe] hold at every point of every run: a store is
      settled, or has an update on record whose way back is intact
      ([agent_safe], [update_safe], [agent_update_safe]); and they hold
      together through whatever an installation goes through
      ([agent_life_safe]).
    - Recovery.  Once nothing fails any more, the next recovery settles a store
      ([agent_recovers], [update_recovers], [agent_launcher_restores],
      [unhealthy_update_undone]); undoing an update of the Xray binary restarts
      Xray, so [update_recovers] also asks that the configuration store has
      nothing pending.  The start of the agent settles both stores of the agent
      ([agent_start_recovers]), except in the situation of [start_blocked],
      where both have something pending, which a run of the agent reaches
      (findings).
    - Outcomes.  What a reported success, failure or rollback means for the
      tree and for the running process ([Apply_success], [Apply_rolled_back],
      [update_installed], [update_rolled_back], [Recover_outcome],
      [update_recover_outcome], [agent_update_installed]).
    - The session.  Commands are refused without a trace when they should be,
      carried out at most once, and a restart is acknowledged first
      ([executeCommand_refuses], [agent_update_once], [restart_acknowledged]);
      the waits are bounded ([control_waits_bounded]).
    - Telemetry.  The spool refines a queue ([spool_delivers]); nothing leaves
      it unconfirmed ([upload_confirmed]) and a panel that answers empties it
      ([upload_drains]); every line of the access log gives its event once, as
      long as the log is rotated at the end of a line and not before the
      collector has come to the file ([access_exactly_once],
      [access_completes]); the webhook and the counters
      are exact ([handle_exact], [collectTraffic_exact]).
    - Formats and checks.  Exact characterisations ([Validate_exact],
      [extractRelease_exact], [certificate_pinned],
      [readBoundedAccessLine_spec], [download_exact]) and round trips: a
      configuration that was written is loaded field by field
      ([config_roundtrip]), and agents accept a published release exactly when
      they accept its version ([createManifest_accepted]; the release tool
      publishes versions that they refuse, a finding).
    - Reports.  What a heartbeat says is so ([heartbeat_truthful]).

    ** How the operating system is modelled

    - A tree is a finite map from paths to files (content, mode, modification
      time), directories and symbolic links.  Paths are relative to the state
      directory; ./ names in a temporary file's path stay as CreateTemp makes
      them.  Other users, disks that fill up halfway and lost sectors are not
      modelled: a call that fails has no effect, except where a file is written
      in pieces, which are calls of their own.  Sync is a call that may fail;
      that a rename survives a power cut is not distinguished from surviving a
      kill.  The umask and the modification of the time of a directory are not
      modelled.  Lookups follow a symbolic link in the last component of a
      path; the one path that leads through a link to a directory, that of the
      managed Xray executable, is walked ([Controller.walk]) or resolved by a
      parameter ([Machine]).
    - [Env] gives, for every system call, whether it fails or the process is
      killed before it, the time and the random number: theorems hold for all
      of them.  [calm] says that nothing fails from some point on.  [ClockOk]
      is a clock after 1970 that fits in 63 bits of nanoseconds.  Errors the
      environment injects are never ErrNotExist.
    - Crashes are those of processes.  Operations of one manager are not
      interleaved: the code holds its mutex for each of them.  Other processes
      - the launcher, the supervisor, Xray, an operator - act between two
      operations ([life], [agent_step], [update_step]).  The event workers run
      beside the session in the code; they share with it the spool only, whose
      operations are transactions, so they are verified on their own.
    - Restarting Xray is the work of another process, the supervisor.  The
      theorems of the managers take its success as the law of [Controller]: a
      restart that is reported as successful has Xray running with the current
      configuration and the current binary.  What the agent's own
      [ProcessController] sees of that is [RestartProcess_stable] (one new
      process of the active executable, stable over the period), and what the
      supervised process starts is [prepareProcess_applied].
    - Integers are mathematical where the code cannot leave the range, and wrap
      around explicitly where it can ([u64_sub], [wrap_i64], [int64_of_u64]).
      An int has 64 bits.  The limit of a download is a mathematical integer
      too: it would wrap only at the largest int64, and the callers pass small
      constants.

    ** Bounds and fuel

    Recursion that is not structural has fuel that suffices by construction:
    the JSON scanner takes one more than the length of its text, path
    cleaning and MkdirAll the number of components, the search for a free
    temporary name one more than the number of nodes, links are followed 40
    times, as Linux does, and the matcher recurses on the expression and the
    text.  The loops of the code that wait for something - the session, the
    attempts of the control loop, the polls of the controller, the turns of the
    uploader - run over a script of what the other side does, of any length;
    a script that ends before the loop does gives no result to speak of, or an
    error of the connection, and the liveness theorems say how long a script
    has to be ([upload_drains], [access_completes]).

    ** What is not modelled, and why

    - Contexts and timeouts: their effect is an error of the call they cut
      short, and what follows is modelled.  Logging, flags, signals, the removal
      of the token from the environment, and the words for network errors
      (controlFailureReason) with the URL of the websocket.
    - The networking of net/http and the websocket: answers are parameters or
      scripts.  gzip, tar, zip, net/url, bbolt, statfs, /proc and child
      processes are parameters, with laws where something is relied on.
    - encoding/json: the depth limit, and the texts of the library's errors.
      The texts of errors of system calls inside file replacement are
      abbreviated, as the code wraps them but nobody reads them.
    - telemetry/runtime.go starts the workers as goroutines and ends them
      together; only the events it emits itself are modelled.  The collector's
      pass over the access log is not interleaved with writes of Xray to the
      file during one read.
    - Two restrictions of the update theorems: a release is not called
      .xray-version, the name of a file beside the versions (hypothesis
      [net_ok]); and what lies in the download directory are files (hypothesis
      of the liveness theorems only).
    - ToLower maps ASCII letters in GoStrings, where the code lowers digests,
      versions and field names; Fields has the rest for host names. *)

From stdpp Require Import base gmap strings list fin_maps pretty sorting.
From Stdlib Require Import ZArith NArith.

#[global] Set Default Goal Selector "!".

(** ** Go error values

    An [error] keeps its text, the sentinels that [errors.Is] finds in its
    chain, and the [code]/[recoveryStatus] pair that [errors.As] finds when the
    chain holds an [applyError] or an [updateError]. *)

Inductive sentinel : Set :=
  | SNotExist        (* os.ErrNotExist *)
  | SFull            (* eventspool.ErrFull *)
  | SCorrupt         (* xrayupdate.errAppliedStateCorrupt *)
  | SProcessDone     (* os.ErrProcessDone *)
  | SRestart         (* update.ErrRestartRequired *)
  | SPermission      (* os.ErrPermission *)
  | SNoProcess       (* syscall.ESRCH *)
  | SNotPermitted.   (* syscall.EPERM *)

#[export] Instance sentinel_eq_dec : EqDecision sentinel.
Proof. solve_decision. Defined.

Record error : Set := MkError {
  err_text : string;
  err_is : list sentinel;
  err_class : option (string * string)
}.

(** errors.New *)
Definition errorsNew (s : string) : error := MkError s [] None.

(** fmt.Errorf("prefix%w", err): the chain of [err] is kept. *)
Definition errorW (prefix : string) (e : error) : error :=
  MkError (prefix +:+ err_text e) (err_is e) (err_class e).

(** errors.Is *)
Definition errorsIs (e : error) (s : sentinel) : bool := bool_decide (s ∈ err_is e).

(** A Go pair [(T, error)] of which one half is meaningful. *)
Inductive result (A : Type) : Type :=
  | Ok (a : A)
  | Err (e : error).
Arguments Ok {A} _.
Arguments Err {A} _.

Definition is_ok {A} (r : result A) : bool :=
  match r with Ok _ => true | Err _ => false end.

Definition rbind {A B} (r : result A) (k : A -> result B) : result B :=
  match r with Ok a => k a | Err e => Err e end.

(** [err != nil] reduced to a guard of the pure validators. *)
Definition guard_err (b : bool) (msg : string) : result unit :=
  if b then Err (errorsNew msg) else Ok tt.

Declare Scope go_scope.
Delimit Scope go_scope with go.
Notation "'let?' x ':=' m 'in' k" := (rbind m (fun x => k))
  (at level 200, x pattern, m at level 100, k at level 200) : go_scope.
#[global] Open Scope go_scope.

Lemma is_ok_Ok {A} (r : result A) : is_ok r = true <-> exists a, r = Ok a.
Proof. destruct r; naive_solver. Qed.

Lemma rbind_Ok {A B} (r : result A) (k : A -> result B) b :
  rbind r k = Ok b <-> exists a, r = Ok a /\ k a = Ok b.
Proof. destruct r; naive_solver. Qed.

Lemma guard_err_Ok b msg u : guard_err b msg = Ok u <-> b = false.
Proof. destruct b, u; simpl; naive_solver. Qed.

(** Errors that no caller mistakes for a sentinel. *)
Definition quiet {A} (r : result A) : Prop :=
  match r with Ok _ => True | Err e => err_is e = [] end.

Lemma quiet_rbind {A B} (r : result A) (k : A -> result B) :
  quiet r -> (forall a, quiet (k a)) -> quiet (rbind r k).
Proof. destruct r; simpl; auto. Qed.

Lemma quiet_guard b msg : quiet (guard_err b msg).
Proof. by destruct b. Qed.

Lemma quiet_Is {A} (r : result A) e s : quiet r -> r = Err e -> errorsIs e s = false.
Proof. intros Hq ->. unfold errorsIs. simpl in Hq. by rewrite Hq. Qed.

(** ** Machine words

    A Go uint64 is an [N] below 2^64, an int64 a [Z]; every addition of the
    code is written with its wrap-around. *)

Definition two64 : N := 18446744073709551616%N.
Definition u64_add (a b : N) : N := ((a + b) mod two64)%N.
Definition u64_sub (a b : N) : N := ((a + two64 - b) mod two64)%N.
Definition u64_of_len (n : nat) : N := N.of_nat n.

(** int64(x) of a uint64 x, and uint64(x) of an int64 x *)
Definition int64_of_u64 (n : N) : Z :=
  if (n <? 9223372036854775808)%N then Z.of_N n else (Z.of_N n - Z.of_N two64)%Z.
Definition u64_of_int64 (z : Z) : N := Z.to_N (z mod Z.of_N two64).

Definition is_u64 (n : N) : Prop := (n < two64)%N.
Definition is_i64 (z : Z) : Prop :=
  (-9223372036854775808 <= z < 9223372036854775808)%Z.

#[export] Instance is_u64_dec n : Decision (is_u64 n).
Proof. unfold is_u64. apply _. Defined.
#[export] Instance is_i64_dec z : Decision (is_i64 z).
Proof. unfold is_i64. apply _. Defined.

Lemma u64_add_small a b : (a + b < two64)%N -> u64_add a b = (a + b)%N.
Proof. intros. unfold u64_add. by apply N.mod_small. Qed.

Lemma u64_add_lt a b : (u64_add a b < two64)%N.
Proof. unfold u64_add. apply N.mod_lt. done. Qed.

Lemma u64_sub_small a b : is_u64 a -> (b <= a)%N -> u64_sub a b = (a - b)%N.
Proof.
  unfold u64_sub, is_u64. intros.
  replace (a + two64 - b)%N with ((a - b) + 1 * two64)%N by lia.
  rewrite N.Div0.mod_add. apply N.mod_small. lia.
Qed.

Lemma int64_u64_roundtrip z : is_i64 z -> int64_of_u64 (u64_of_int64 z) = z.
Proof.
  unfold is_i64, int64_of_u64, u64_of_int64. intros Hz.
  destruct (decide (0 <= z)%Z) as [Hp|Hn].
  - rewrite Z.mod_small by (unfold two64; lia).
    destruct (N.ltb_spec (Z.to_N z) 9223372036854775808); lia.
  - assert (z mod Z.of_N two64 = z + Z.of_N two64)%Z as ->.
    { rewrite <- (Z.mod_add z 1) by done. rewrite Z.mod_small; unfold two64; lia. }
    destruct (N.ltb_spec (Z.to_N (z + Z.of_N two64)) 9223372036854775808);
      unfold two64 in *; lia.
Qed.

(** ** Automation *)

Create HintDb go.
#[export] Hint Rewrite @rbind_Ok @guard_err_Ok : go.

(** Split every boolean test and every option/result match in sight. *)
Ltac go_case :=
  match goal with
  | |- context [if ?b then _ else _] => destruct b eqn:?
  | H : context [if ?b then _ else _] |- _ => destruct b eqn:?
  | |- context [match ?x with _ => _ end] => destruct x eqn:?
  | H : context [match ?x with _ => _ end] |- _ => destruct x eqn:?
  end.

Ltac go_cases := repeat (go_case; simplify_eq/=).

(** An equation whose left side is evaluated by the virtual machine. *)
Ltac by_evaluation := lazymatch goal with |- _ = ?r => vm_cast_no_check (eq_refl r) end.
