(* ===== verification/GoStrings.v ===== *)
(** * The Go string library the sources use: bytes, strings, strconv,
    encoding/hex, unicode/utf8 and path/filepath (Unix rules).

    A Go string is a sequence of bytes, modelled by [string] (a list of 8-bit
    [ascii]).  Everything is executable; the lemmas are those the components
    share.  [ToLower] maps ASCII letters only. *)

From stdpp Require Import base strings list pretty sorting.
From Stdlib Require Import ZArith NArith Ascii.
From S2P Require Import Prelude.

(** ** Bytes *)

Definition code (c : ascii) : N := N_of_ascii c.

Definition char_in (lo hi : N) (c : ascii) : bool :=
  ((lo <=? code c) && (code c <=? hi))%N.

Definition is_digit (c : ascii) : bool := char_in 48 57 c.
Definition is_lower (c : ascii) : bool := char_in 97 122 c.
Definition is_upper (c : ascii) : bool := char_in 65 90 c.

Definition chr (n : N) : ascii := ascii_of_N n.

Lemma code_chr n : (n < 256)%N -> code (chr n) = n.
Proof. apply N_ascii_embedding. Qed.

Lemma chr_code c : chr (code c) = c.
Proof. apply ascii_N_embedding. Qed.

Lemma code_lt c : (code c < 256)%N.
Proof. apply N_ascii_bounded. Qed.

(** ** Strings as byte sequences *)

Definition slen (s : string) : N := N.of_nat (String.length s).

Fixpoint stake (n : nat) (s : string) : string :=
  match n, s with
  | S n', String c r => String c (stake n' r)
  | _, _ => ""
  end.

Fixpoint sdrop (n : nat) (s : string) : string :=
  match n, s with
  | S n', String _ r => sdrop n' r
  | _, _ => s
  end.

Fixpoint smap (f : ascii -> ascii) (s : string) : string :=
  match s with
  | "" => ""
  | String c r => String (f c) (smap f r)
  end.

Fixpoint sforall (p : ascii -> bool) (s : string) : bool :=
  match s with
  | "" => true
  | String c r => p c && sforall p r
  end.

(** strings.Contains with a one-byte pattern *)
Definition contains_char (c : ascii) (s : string) : bool :=
  negb (sforall (fun a => negb (bool_decide (a = c))) s).

Lemma app_String a s t : String a s +:+ t = String a (s +:+ t).
Proof. done. Qed.
Lemma app_Empty t : "" +:+ t = t.
Proof. done. Qed.

Lemma sapp_nil_r s : s +:+ "" = s.
Proof. induction s; [done|]. by rewrite app_String, IHs. Qed.

Lemma sapp_assoc s t u : (s +:+ t) +:+ u = s +:+ (t +:+ u).
Proof. induction s; [done|]. by rewrite !app_String, IHs. Qed.

Lemma slength_app s t :
  String.length (s +:+ t) = (String.length s + String.length t)%nat.
Proof. induction s; [done|]. rewrite app_String. simpl. by rewrite IHs. Qed.

Lemma slen_app s t : slen (s +:+ t) = (slen s + slen t)%N.
Proof. unfold slen. rewrite slength_app. lia. Qed.

Lemma stake_app s t : stake (String.length s) (s +:+ t) = s.
Proof. induction s; [by destruct t|]. rewrite app_String. simpl. by rewrite IHs. Qed.

Lemma sdrop_app s t : sdrop (String.length s) (s +:+ t) = t.
Proof. induction s; [by destruct t|]. by rewrite app_String. Qed.

Lemma stake_length n s : (String.length (stake n s) <= n)%nat.
Proof. revert s; induction n; intros [|c s]; simpl; try lia. specialize (IHn s). lia. Qed.

Lemma sforall_app p s t : sforall p (s +:+ t) = sforall p s && sforall p t.
Proof. induction s; [done|]. rewrite app_String. simpl. by rewrite IHs, andb_assoc. Qed.

Lemma sforall_impl (p q : ascii -> bool) s :
  (forall c, p c = true -> q c = true) -> sforall p s = true -> sforall q s = true.
Proof.
  intros Hpq. induction s; simpl; [done|].
  rewrite !andb_true_iff. naive_solver.
Qed.

Lemma smap_length f s : String.length (smap f s) = String.length s.
Proof. induction s; simpl; congruence. Qed.

Lemma sapp_inj_l s t u : s +:+ t = s +:+ u -> t = u.
Proof. induction s; [done|]. rewrite !app_String. naive_solver. Qed.

Lemma sapp_inj_len s s' t u :
  String.length s = String.length s' -> s +:+ t = s' +:+ u -> s = s' /\ t = u.
Proof.
  revert s'; induction s; intros [|c' s']; simpl; try done.
  rewrite !app_String. intros Hl H. injection H as -> H. injection Hl as Hl.
  destruct (IHs _ Hl H) as [-> ->]. done.
Qed.

(** strings.HasPrefix, TrimPrefix, HasSuffix, TrimSuffix *)
Fixpoint HasPrefix (s p : string) {struct p} : bool :=
  match p, s with
  | "", _ => true
  | String a p', String b s' => bool_decide (a = b) && HasPrefix s' p'
  | _, "" => false
  end.

Definition TrimPrefix (s p : string) : string :=
  if HasPrefix s p then sdrop (String.length p) s else s.

Definition HasSuffix (s x : string) : bool :=
  let k := (String.length s - String.length x)%nat in
  bool_decide (String.length x <= String.length s)%nat && bool_decide (sdrop k s = x).

Definition TrimSuffix (s x : string) : string :=
  if HasSuffix s x then stake (String.length s - String.length x) s else s.

Lemma HasPrefix_app p s : HasPrefix (p +:+ s) p = true.
Proof.
  induction p as [|a p IH]; [by destruct s|]. rewrite app_String. simpl.
  by rewrite bool_decide_true, IH.
Qed.

Lemma HasPrefix_inv s p : HasPrefix s p = true -> exists r, s = p +:+ r.
Proof.
  revert s; induction p as [|a p IH]; intros [|b s]; simpl; try done; try by eauto.
  rewrite andb_true_iff, bool_decide_eq_true. intros [-> H].
  destruct (IH _ H) as [r ->]. by exists r.
Qed.

Lemma TrimPrefix_app p s : TrimPrefix (p +:+ s) p = s.
Proof. unfold TrimPrefix. by rewrite HasPrefix_app, sdrop_app. Qed.

Lemma HasSuffix_app s x : HasSuffix (s +:+ x) x = true.
Proof.
  unfold HasSuffix. rewrite slength_app, Nat.add_sub, sdrop_app.
  rewrite bool_decide_true by lia. by rewrite bool_decide_true.
Qed.

Lemma TrimSuffix_app s x : TrimSuffix (s +:+ x) x = s.
Proof.
  unfold TrimSuffix. by rewrite HasSuffix_app, slength_app, Nat.add_sub, stake_app.
Qed.

(** strings.Split with a one-byte separator; strings.Join *)
Fixpoint Split (s : string) (c : ascii) : list string :=
  match s with
  | "" => [""]
  | String a r =>
      if bool_decide (a = c) then "" :: Split r c
      else match Split r c with
           | h :: t => String a h :: t
           | [] => [String a ""]
           end
  end.

Definition sconcat (sep : string) (l : list string) : string := String.concat sep l.

Definition no_char (c : ascii) (s : string) : Prop := contains_char c s = false.

Lemma no_char_cons c a s : no_char c (String a s) <-> a <> c /\ no_char c s.
Proof.
  unfold no_char, contains_char. simpl.
  rewrite !negb_false_iff, andb_true_iff, negb_true_iff, bool_decide_eq_false. done.
Qed.

Lemma no_char_sforall (p : ascii -> bool) c s :
  p c = false -> sforall p s = true -> no_char c s.
Proof.
  intros Hc. induction s as [|a s IH]; [done|]. simpl.
  rewrite andb_true_iff, no_char_cons. intros [Ha Hs].
  split; [intros ->; congruence|auto].
Qed.

Lemma no_char_app c s t : no_char c (s +:+ t) <-> no_char c s /\ no_char c t.
Proof.
  unfold no_char, contains_char. rewrite sforall_app.
  rewrite !negb_false_iff, andb_true_iff. done.
Qed.

Lemma Split_no_char c s : no_char c s -> Split s c = [s].
Proof.
  induction s as [|a s IH]; [done|]. rewrite no_char_cons. intros [Ha Hs]. simpl.
  by rewrite bool_decide_false, IH.
Qed.

Lemma Split_app c s t : no_char c s -> Split (s +:+ String c t) c = s :: Split t c.
Proof.
  induction s as [|a s IH]; intros Hs.
  - simpl. by rewrite bool_decide_true.
  - apply no_char_cons in Hs as [Ha Hs]. rewrite app_String. simpl.
    by rewrite bool_decide_false, IH.
Qed.

Lemma Split_length c s : Split s c <> [].
Proof. destruct s; simpl; [done|]. case_bool_decide; [done|]. by destruct (Split s c). Qed.

(** The first field of a split is a prefix of the string. *)
Lemma Split_head c s h t : Split s c = h :: t -> exists r, s = h +:+ r.
Proof.
  revert h t; induction s as [|a s IH]; simpl; intros h t.
  - intros [= <- <-]. by exists "".
  - case_bool_decide.
    + intros [= <- <-]. by eexists.
    + destruct (Split s c) as [|h' t'] eqn:E; intros [= <- <-].
      * by exists s.
      * destruct (IH h' t' eq_refl) as [r ->]. by exists r.
Qed.

(** ** strconv: decimal numbers *)

Definition digit_val (c : ascii) : N := (code c - 48)%N.

Fixpoint dec_value (acc : N) (s : string) : option N :=
  match s with
  | "" => Some acc
  | String c r => if is_digit c then dec_value (10 * acc + digit_val c)%N r else None
  end.

(** strconv.ParseUint(s, 10, bits) *)
Definition ParseUint (s : string) (bits : N) : option N :=
  match s with
  | "" => None
  | _ => match dec_value 0 s with
         | Some n => if (n <? 2 ^ bits)%N then Some n else None
         | None => None
         end
  end.

(** strconv.ParseInt(s, 10, 64); strconv.Atoi accepts the same texts *)
Definition ParseInt (s : string) : option Z :=
  match s with
  | String "-" r =>
      match ParseUint r 64 with
      | Some n => if (n <=? 9223372036854775808)%N then Some (- Z.of_N n)%Z else None
      | None => None
      end
  | _ =>
      let r := match s with String "+" r => r | _ => s end in
      match ParseUint r 64 with
      | Some n => if (n <? 9223372036854775808)%N then Some (Z.of_N n) else None
      | None => None
      end
  end.

(** strconv.FormatUint(n, 10) and strconv.FormatInt(z, 10) *)
Definition FormatUint (n : N) : string := pretty n.
Definition FormatInt (z : Z) : string := pretty z.

(** fmt's %020d of a uint64 *)
Fixpoint zeros (n : nat) : string :=
  match n with O => "" | S n' => String "0" (zeros n') end.
Definition pad20 (n : N) : string :=
  zeros (20 - String.length (FormatUint n)) +:+ FormatUint n.

Lemma pretty_N_char_digit x :
  (x < 10)%N -> is_digit (pretty_N_char x) = true /\ digit_val (pretty_N_char x) = x.
Proof.
  intros Hx.
  assert (x = 0 \/ x = 1 \/ x = 2 \/ x = 3 \/ x = 4 \/ x = 5 \/ x = 6 \/ x = 7
          \/ x = 8 \/ x = 9)%N as Hc by lia.
  by repeat destruct Hc as [->|Hc]; subst.
Qed.

Lemma dec_value_go x s : dec_value 0 (pretty_N_go x s) = dec_value x s.
Proof.
  revert s. induction (N.lt_wf_0 x) as [x _ IH]; intros s.
  destruct (decide (x = 0)%N) as [->|Hx]; [done|].
  rewrite pretty_N_go_step by lia. rewrite IH by (apply N.div_lt; lia). simpl.
  destruct (pretty_N_char_digit (x mod 10)) as [-> ->]; [apply N.mod_lt; lia|].
  f_equal. rewrite (N.div_mod x 10) at 3 by done. lia.
Qed.

Lemma dec_value_pretty n : dec_value 0 (FormatUint n) = Some n.
Proof.
  unfold FormatUint, pretty, pretty_N. case_decide as H; [by subst|].
  by rewrite dec_value_go.
Qed.

Lemma dec_value_zeros k s : dec_value 0 (zeros k +:+ s) = dec_value 0 s.
Proof.
  induction k as [|k IH]; [done|].
  change (zeros (S k)) with (String "0" (zeros k)). by rewrite app_String.
Qed.

Lemma dec_value_digits acc s n : dec_value acc s = Some n -> sforall is_digit s = true.
Proof.
  revert acc; induction s as [|c s IH]; intros acc; simpl; [done|].
  destruct (is_digit c); [|done]. apply IH.
Qed.

Lemma FormatUint_digits n : sforall is_digit (FormatUint n) = true.
Proof. eapply dec_value_digits, dec_value_pretty. Qed.

Lemma FormatUint_nonempty n : FormatUint n <> "".
Proof.
  unfold FormatUint, pretty, pretty_N. case_decide; [done|]. intros Hn.
  assert (dec_value 0 (pretty_N_go n "") = Some 0%N) as E by by rewrite Hn.
  rewrite dec_value_go in E. simpl in E. congruence.
Qed.

Lemma ParseUint_unfold s bits :
  s <> "" ->
  ParseUint s bits = match dec_value 0 s with
                     | Some n => if (n <? 2 ^ bits)%N then Some n else None
                     | None => None
                     end.
Proof. by destruct s. Qed.

Lemma ParseUint_FormatUint n bits :
  (n < 2 ^ bits)%N -> ParseUint (FormatUint n) bits = Some n.
Proof.
  intros Hn. rewrite ParseUint_unfold by apply FormatUint_nonempty.
  rewrite dec_value_pretty. destruct (N.ltb_spec n (2 ^ bits)); [done|lia].
Qed.

Lemma ParseUint_pad20 n :
  (n < 2 ^ 64)%N -> ParseUint (pad20 n) 64 = Some n.
Proof.
  intros Hn. unfold pad20. rewrite ParseUint_unfold.
  - rewrite dec_value_zeros, dec_value_pretty.
    destruct (N.ltb_spec n (2 ^ 64)); [done|lia].
  - intros H. apply (f_equal String.length) in H. rewrite slength_app in H. simpl in H.
    destruct (FormatUint n) eqn:E; [by apply FormatUint_nonempty in E|simpl in H; lia].
Qed.

Lemma ParseInt_FormatInt z : is_i64 z -> ParseInt (FormatInt z) = Some z.
Proof.
  unfold is_i64, FormatInt. intros Hz. destruct z as [|p|p]; [done| |].
  - assert (pretty (Z.pos p) = FormatUint (N.pos p)) as -> by done.
    unfold ParseInt. pose proof (FormatUint_digits (N.pos p)) as Hd.
    pose proof (ParseUint_FormatUint (N.pos p) 64) as HP.
    destruct (FormatUint (N.pos p)) as [|c r] eqn:E; [by apply FormatUint_nonempty in E|].
    simpl in Hd. apply andb_true_iff in Hd as [Hd _].
    assert (c <> "-"%char /\ c <> "+"%char) as [H1 H2].
    { split; intros ->; by vm_compute in Hd. }
    destruct c as [[] [] [] [] [] [] [] []]; try done;
      rewrite HP by lia; destruct (N.ltb_spec (N.pos p) 9223372036854775808); done || lia.
  - assert (pretty (Z.neg p) = String "-" (FormatUint (N.pos p))) as -> by done.
    unfold ParseInt. rewrite ParseUint_FormatUint by lia.
    destruct (N.leb_spec (N.pos p) 9223372036854775808); [done|lia].
Qed.

Lemma pretty_N_go_length k x s :
  (x < 10 ^ N.of_nat k)%N -> (String.length (pretty_N_go x s) <= k + String.length s)%nat.
Proof.
  revert x s. induction k as [|k IH]; intros x s Hx.
  - assert (x = 0)%N as -> by (simpl in Hx; lia). done.
  - destruct (decide (x = 0)%N) as [->|H0]; [simpl; rewrite pretty_N_go_0; lia|].
    rewrite pretty_N_go_step by lia.
    etrans; [apply IH|simpl; lia].
    apply N.Div0.div_lt_upper_bound. rewrite Nat2N.inj_succ, N.pow_succ_r' in Hx. lia.
Qed.

Lemma FormatUint_length n : (n < 2 ^ 64)%N -> (String.length (FormatUint n) <= 20)%nat.
Proof.
  intros Hn. unfold FormatUint, pretty, pretty_N. case_decide; [simpl; lia|].
  etrans; [apply (pretty_N_go_length 20)|simpl; lia].
  eapply N.lt_trans; [exact Hn|]. reflexivity.
Qed.

Lemma FormatInt_length z : is_i64 z -> (String.length (FormatInt z) <= 21)%nat.
Proof.
  unfold is_i64. intros Hz. destruct z as [|p|p].
  - change (FormatInt 0) with "0". simpl. lia.
  - pose proof (FormatUint_length (N.pos p)). change (FormatInt (Z.pos p)) with (FormatUint (N.pos p)). lia.
  - pose proof (FormatUint_length (N.pos p)).
    change (FormatInt (Z.neg p)) with (String "-" (FormatUint (N.pos p))).
    cbn [String.length]. lia.
Qed.

Lemma zeros_length k : String.length (zeros k) = k.
Proof. induction k; simpl; congruence. Qed.

Lemma pad20_length n : (n < 2 ^ 64)%N -> String.length (pad20 n) = 20%nat.
Proof.
  intros Hn. unfold pad20. rewrite slength_app, zeros_length.
  pose proof (FormatUint_length n Hn). lia.
Qed.

Lemma pad20_digits n : sforall is_digit (pad20 n) = true.
Proof.
  unfold pad20. rewrite sforall_app, FormatUint_digits, andb_true_r.
  generalize (20 - String.length (FormatUint n))%nat. intros k. by induction k.
Qed.

(** ** strings.ToLower (ASCII letters), encoding/hex *)

Definition lower_char (c : ascii) : ascii := if is_upper c then chr (code c + 32) else c.
Definition ToLower (s : string) : string := smap lower_char s.

Definition hex_digit (n : N) : ascii := chr (if (n <? 10)%N then 48 + n else 87 + n)%N.

Definition from_hex (c : ascii) : option N :=
  if is_digit c then Some (code c - 48)%N
  else if char_in 97 102 c then Some (code c - 87)%N
  else if char_in 65 70 c then Some (code c - 55)%N
  else None.

Fixpoint EncodeToString (s : string) : string :=
  match s with
  | "" => ""
  | String c r =>
      String (hex_digit (code c / 16)) (String (hex_digit (code c mod 16)) (EncodeToString r))
  end.

Fixpoint DecodeString (s : string) : option string :=
  match s with
  | "" => Some ""
  | String a (String b r) =>
      match from_hex a, from_hex b, DecodeString r with
      | Some x, Some y, Some t => Some (String (chr (16 * x + y)) t)
      | _, _, _ => None
      end
  | _ => None
  end.

Definition is_lower_hex (c : ascii) : bool := is_digit c || char_in 97 102 c.
Definition is_hex (c : ascii) : bool := is_lower_hex c || char_in 65 70 c.

Lemma EncodeToString_length s : String.length (EncodeToString s) = (2 * String.length s)%nat.
Proof. induction s; simpl; [done|]. rewrite IHs. lia. Qed.

Lemma hex_byte_lower c :
  is_lower_hex (hex_digit (code c / 16)) = true /\ is_lower_hex (hex_digit (code c mod 16)) = true.
Proof. by destruct c as [[] [] [] [] [] [] [] []]. Qed.

Lemma EncodeToString_lower_hex s : sforall is_lower_hex (EncodeToString s) = true.
Proof. induction s; simpl; [done|]. destruct (hex_byte_lower a) as [-> ->]. done. Qed.

Lemma hex_byte_roundtrip c :
  from_hex (hex_digit (code c / 16)) = Some (code c / 16)%N /\
  from_hex (hex_digit (code c mod 16)) = Some (code c mod 16)%N /\
  chr (16 * (code c / 16) + code c mod 16) = c.
Proof. by destruct c as [[] [] [] [] [] [] [] []]. Qed.

Lemma DecodeString_EncodeToString s : DecodeString (EncodeToString s) = Some s.
Proof.
  induction s; simpl; [done|].
  destruct (hex_byte_roundtrip a) as (-> & -> & H). by rewrite IHs, H.
Qed.

Lemma from_hex_lower c x :
  lower_char c = c -> from_hex c = Some x -> (x < 16)%N /\ hex_digit x = c.
Proof.
  destruct c as [[] [] [] [] [] [] [] []]; vm_compute; intros; simplify_eq; done.
Qed.

Lemma byte_of_nibbles x y :
  (x < 16)%N -> (y < 16)%N ->
  (code (chr (16 * x + y)) / 16 = x /\ code (chr (16 * x + y)) mod 16 = y)%N.
Proof.
  intros Hx Hy. rewrite code_chr by lia. split.
  - rewrite N.mul_comm, N.div_add_l by done. rewrite N.div_small by done. lia.
  - rewrite N.mul_comm, N.add_comm, N.Div0.mod_add. by apply N.mod_small.
Qed.

(** A lower-case hex text is the encoding of what it decodes to. *)
Lemma EncodeToString_DecodeString s r :
  ToLower s = s -> DecodeString s = Some r -> EncodeToString r = s.
Proof.
  remember (String.length s) as n eqn:Hn. assert (String.length s <= n)%nat as Hle by lia.
  clear Hn. revert s r Hle.
  induction n as [|n IH]; intros [|a [|b s]] r Hle; simpl in *; intros HL HD;
    simplify_eq; try done; try lia.
  injection HL as Ha Hb HL.
  destruct (from_hex a) as [x|] eqn:Ea; [|done].
  destruct (from_hex b) as [y|] eqn:Eb; [|done].
  destruct (DecodeString s) as [t|] eqn:Es; simplify_eq.
  destruct (from_hex_lower _ _ Ha Ea) as [Hx Hxa], (from_hex_lower _ _ Hb Eb) as [Hy Hyb].
  destruct (byte_of_nibbles x y Hx Hy) as [Hq Hr].
  simpl. rewrite Hq, Hr, Hxa, Hyb. f_equal. f_equal.
  apply IH; [lia|exact HL|done].
Qed.

Lemma DecodeString_length s r :
  DecodeString s = Some r -> String.length s = (2 * String.length r)%nat.
Proof.
  remember (String.length s) as n eqn:Hn.
  revert s r Hn. induction (lt_wf n) as [n _ IH]. intros [|a [|b s]] r Hn; simpl in *; try done.
  - by intros [= <-].
  - destruct (from_hex a), (from_hex b), (DecodeString s) eqn:E; intros; simplify_eq/=.
    rewrite (IH (String.length s)) with (s := s) (r := s0); [lia|lia|done|done].
Qed.

Lemma lower_char_idem c : lower_char (lower_char c) = lower_char c.
Proof. by destruct c as [[] [] [] [] [] [] [] []]. Qed.

Lemma ToLower_idem s : ToLower (ToLower s) = ToLower s.
Proof. unfold ToLower. induction s; simpl; [done|]. by rewrite lower_char_idem, IHs. Qed.

Lemma ToLower_length s : String.length (ToLower s) = String.length s.
Proof. apply smap_length. Qed.

Lemma ToLower_lower_hex s : sforall is_lower_hex s = true -> ToLower s = s.
Proof.
  unfold ToLower. induction s as [|c s IH]; simpl; [done|].
  rewrite andb_true_iff. intros [Hc Hs]. rewrite IH by done. f_equal.
  destruct c as [[] [] [] [] [] [] [] []]; vm_compute in Hc; done.
Qed.

(** ** unicode/utf8: the runes of a string, each with its bytes

    An invalid byte is the rune U+FFFD of width one, as in a Go [range]. *)

Definition rune_error : N := 65533%N.

Definition cont (c : ascii) : bool := char_in 128 191 c.
Definition cbits (c : ascii) : N := (code c - 128)%N.

Fixpoint runes (s : string) : list (N * string) :=
  match s with
  | "" => []
  | String a r =>
      if (code a <? 128)%N then (code a, String a "") :: runes r
      else
        match r with
        | String b r1 =>
            if char_in 194 223 a && cont b then
              (((code a - 192) * 64 + cbits b)%N, String a (String b "")) :: runes r1
            else
              match r1 with
              | String c r2 =>
                  let lo := if (code a =? 224)%N then 160%N else 128%N in
                  let hi := if (code a =? 237)%N then 159%N else 191%N in
                  if char_in 224 239 a && char_in lo hi b && cont c then
                    (((code a - 224) * 4096 + cbits b * 64 + cbits c)%N,
                     String a (String b (String c ""))) :: runes r2
                  else
                    match r2 with
                    | String d r3 =>
                        let lo := if (code a =? 240)%N then 144%N else 128%N in
                        let hi := if (code a =? 244)%N then 143%N else 191%N in
                        if char_in 240 244 a && char_in lo hi b && cont c && cont d then
                          (((code a - 240) * 262144 + cbits b * 4096 + cbits c * 64 + cbits d)%N,
                           String a (String b (String c (String d "")))) :: runes r3
                        else (rune_error, String a "") :: runes r
                    | _ => (rune_error, String a "") :: runes r
                    end
              | _ => (rune_error, String a "") :: runes r
              end
        | _ => (rune_error, String a "") :: runes r
        end
  end.

Definition of_runes (l : list (N * string)) : string :=
  foldr (fun r s => snd r +:+ s) "" l.

(** utf8.ValidString: a width-one chunk is a valid rune only when it is ASCII *)
Definition ValidString (s : string) : bool :=
  forallb (fun '(r, b) => negb ((r =? rune_error)%N && bool_decide (String.length b = 1%nat))) (runes s).

Definition is_ascii (s : string) : bool := sforall (fun c => (code c <? 128)%N) s.

Lemma runes_ascii_cons a r :
  (code a <? 128)%N = true -> runes (String a r) = (code a, String a "") :: runes r.
Proof. simpl. by intros ->. Qed.

(** unicode.IsSpace and unicode.IsControl *)
Definition IsSpace (r : N) : bool :=
  ((9 <=? r) && (r <=? 13) || (r =? 32) || (r =? 133) || (r =? 160) || (r =? 5760)
   || (8192 <=? r) && (r <=? 8202) || (r =? 8232) || (r =? 8233) || (r =? 8239)
   || (r =? 8287) || (r =? 12288))%N.
Definition IsControl (r : N) : bool := ((r <=? 31) || (127 <=? r) && (r <=? 159))%N.

Fixpoint drop_spaces (l : list (N * string)) : list (N * string) :=
  match l with
  | r :: l' => if IsSpace (fst r) then drop_spaces l' else l
  | [] => []
  end.

(** strings.TrimSpace *)
Definition TrimSpace (s : string) : string :=
  of_runes (rev (drop_spaces (rev (drop_spaces (runes s))))).

(** strings.Trim(s, cutset) for an ASCII cutset *)
Fixpoint drop_set (cut : ascii -> bool) (s : string) : string :=
  match s with
  | String c r => if cut c then drop_set cut r else s
  | "" => ""
  end.
Fixpoint srev_onto (s acc : string) : string :=
  match s with "" => acc | String c r => srev_onto r (String c acc) end.
Definition srev (s : string) : string := srev_onto s "".
Definition TrimSet (cut : ascii -> bool) (s : string) : string :=
  srev (drop_set cut (srev (drop_set cut s))).

Definition plain_char (c : ascii) : bool := (code c <? 128)%N && negb (IsSpace (code c)).

Lemma runes_plain s :
  sforall plain_char s = true ->
  runes s = (fun c => (code c, String c "")) <$> String.list_ascii_of_string s.
Proof.
  induction s as [|c s IH]; [done|].
  cbn [sforall]. unfold plain_char. rewrite !andb_true_iff. intros [[Hc _] Hs].
  rewrite runes_ascii_cons by done. simpl. by rewrite IH.
Qed.

Lemma of_runes_plain l :
  of_runes ((fun c => (code c, String c "")) <$> l) = String.string_of_list_ascii l.
Proof. unfold of_runes. induction l as [|c l IH]; [done|]. simpl. by rewrite <- IH. Qed.

Lemma drop_spaces_plain l :
  Forall (fun c => plain_char c = true) l ->
  drop_spaces ((fun c => (code c, String c "")) <$> l)
  = (fun c => (code c, String c "")) <$> l.
Proof.
  destruct 1 as [|c l Hc Hl]; simpl; [done|].
  unfold plain_char in Hc. apply andb_true_iff in Hc as [_ Hc].
  apply negb_true_iff in Hc. by rewrite Hc.
Qed.

Lemma sforall_Forall (p : ascii -> bool) s :
  sforall p s = true <-> Forall (fun c => p c = true) (String.list_ascii_of_string s).
Proof.
  induction s as [|c s IH]; simpl; [by split; [constructor|]|].
  rewrite andb_true_iff, Forall_cons, IH. done.
Qed.

(** strings.TrimSpace leaves a text without spaces alone. *)
Lemma TrimSpace_plain s : sforall plain_char s = true -> TrimSpace s = s.
Proof.
  intros Hs. unfold TrimSpace. rewrite runes_plain by done.
  apply sforall_Forall in Hs. rewrite drop_spaces_plain by done.
  rewrite <- map_rev. rewrite drop_spaces_plain by by apply Forall_rev.
  rewrite <- map_rev, rev_involutive, of_runes_plain.
  apply String.string_of_list_ascii_of_string.
Qed.

Lemma lower_hex_plain c : is_lower_hex c = true -> plain_char c = true.
Proof. destruct c as [[] [] [] [] [] [] [] []]; vm_compute; done. Qed.

Lemma TrimSpace_lower_hex s : sforall is_lower_hex s = true -> TrimSpace s = s.
Proof. intros. apply TrimSpace_plain. eapply sforall_impl; [apply lower_hex_plain|done]. Qed.

(** ** path/filepath on Unix *)

Definition slash : ascii := "/"%char.

Definition IsAbs (p : string) : bool := HasPrefix p "/".

(** One path component against the stack of kept components (last first). *)
Definition clean_step (rooted : bool) (stack : list string) (comp : string) : list string :=
  if bool_decide (comp = "") || bool_decide (comp = ".") then stack
  else if bool_decide (comp = "..") then
    match stack with
    | top :: rest => if bool_decide (top = "..") then ".." :: stack else rest
    | [] => if rooted then [] else [".."]
    end
  else comp :: stack.

Definition Clean (p : string) : string :=
  if bool_decide (p = "") then "."
  else
    let rooted := IsAbs p in
    let body := sconcat "/" (rev (foldl (clean_step rooted) [] (Split p slash))) in
    if rooted then "/" +:+ body
    else if bool_decide (body = "") then "." else body.

Definition Base (p : string) : string :=
  if bool_decide (p = "") then "."
  else match filter (fun c => c <> "") (rev (Split p slash)) with
       | c :: _ => c
       | [] => "/"
       end.

(** filepath.Join(a, b) *)
Definition Join (a b : string) : string :=
  if bool_decide (a = "") then (if bool_decide (b = "") then "" else Clean b)
  else if bool_decide (b = "") then Clean a
  else Clean (a +:+ "/" +:+ b).

(** filepath.Dir: what precedes the last separator, cleaned. *)
Definition Dir (p : string) : string :=
  match rev (Split p slash) with
  | _ :: r => Clean (match r with
                     | [] => ""
                     | _ => sconcat "/" (rev r) +:+ "/"
                     end)
  | [] => "."
  end.

(** A name that denotes one entry of a directory. *)
Definition entry_name (n : string) : Prop :=
  no_char slash n /\ n <> "" /\ n <> "." /\ n <> "..".

Lemma clean_step_entry b st n : entry_name n -> clean_step b st n = n :: st.
Proof.
  intros (_ & H1 & H2 & H3). unfold clean_step. by rewrite !bool_decide_false.
Qed.

(** The one-level relative paths [d/n] the managers use. *)
Lemma Clean_two d n : entry_name d -> entry_name n ->
  Clean (d +:+ String slash n) = d +:+ String slash n.
Proof.
  intros Hd Hn. pose proof Hd as (Hds & Hd1 & _). pose proof Hn as (Hns & _).
  unfold Clean. rewrite bool_decide_false by (destruct d; done).
  assert (IsAbs (d +:+ String slash n) = false) as ->.
  { destruct d as [|c d]; [done|]. rewrite app_String. unfold IsAbs. simpl.
    apply no_char_cons in Hds as [Hc _]. by rewrite bool_decide_false. }
  rewrite Split_app, Split_no_char by done. simpl.
  rewrite !clean_step_entry by done. simpl.
  unfold sconcat. simpl. rewrite bool_decide_false; [done|]. by destruct d.
Qed.

Lemma Join_entry d n : entry_name d -> entry_name n -> Join d n = d +:+ String slash n.
Proof.
  intros Hd Hn. unfold Join. rewrite !bool_decide_false; [by apply Clean_two| |].
  - apply Hn.
  - apply Hd.
Qed.

Lemma Base_two d n : no_char slash d -> entry_name n -> Base (d +:+ String slash n) = n.
Proof.
  intros Hd (Hns & Hn1 & _). unfold Base. rewrite bool_decide_false by (destruct d; done).
  rewrite Split_app, Split_no_char by done.
  change (rev [d; n]) with [n; d]. by rewrite filter_cons_True.
Qed.

Lemma IsAbs_entry d s : entry_name d -> IsAbs (d +:+ s) = false.
Proof.
  intros (Hds & Hd1 & _). destruct d as [|c d]; [done|].
  apply no_char_cons in Hds as [Hc _]. unfold IsAbs. rewrite app_String. simpl.
  by rewrite bool_decide_false.
Qed.

Lemma Dir_two d n : entry_name d -> no_char slash n -> Dir (d +:+ String slash n) = d.
Proof.
  intros Hd Hn. pose proof Hd as (Hds & Hd1 & _). unfold Dir.
  rewrite Split_app, Split_no_char by done.
  change (match rev [d; n] with
          | _ :: r => Clean match r with [] => "" | _ => sconcat "/" (rev r) +:+ "/" end
          | [] => "." end) with (Clean (d +:+ String slash "")).
  unfold Clean. rewrite bool_decide_false by by destruct d.
  rewrite IsAbs_entry, Split_app by done. simpl.
  rewrite (clean_step_entry _ _ d) by done. simpl.
  by rewrite bool_decide_false.
Qed.

Lemma Split_last c p n : no_char c n -> Split (p +:+ String c n) c = Split p c ++ [n].
Proof.
  intros Hn. induction p as [|a p IH]; simpl.
  - rewrite bool_decide_true by done. by rewrite Split_no_char.
  - rewrite IH. case_bool_decide; [done|]. destruct (Split p c) eqn:E; [|done].
    by apply Split_length in E.
Qed.

Lemma sconcat_Split c p : sconcat (String c "") (Split p c) = p.
Proof.
  induction p as [|a p IH]; [done|]. simpl. case_bool_decide as E.
  - subst. destruct (Split p c) eqn:Es; [by apply Split_length in Es|].
    unfold sconcat in *. simpl. simpl in IH. by rewrite IH.
  - destruct (Split p c) as [|h t] eqn:Es; [by apply Split_length in Es|].
    unfold sconcat in *. destruct t; simpl in *; by rewrite <- IH.
Qed.

Lemma Dir_app p n : no_char slash n -> Dir (p +:+ String slash n) = Clean (p +:+ "/").
Proof.
  intros Hn. unfold Dir. rewrite Split_last, rev_app_distr by done. simpl.
  destruct (rev (Split p slash)) as [|x l] eqn:E.
  - apply (f_equal (@rev _)) in E. rewrite rev_involutive in E. by apply Split_length in E.
  - rewrite <- E, rev_involutive. by rewrite (sconcat_Split slash).
Qed.

Lemma FormatUint_no_slash n : no_char slash (FormatUint n).
Proof. eapply no_char_sforall; [|apply FormatUint_digits]. done. Qed.

Lemma FormatInt_no_slash z : no_char slash (FormatInt z).
Proof. destruct z; [done|apply FormatUint_no_slash|]. apply no_char_cons. split; [done|apply FormatUint_no_slash]. Qed.

Example Clean_ex1 : Clean "versions/../x//y/." = "x/y". Proof. reflexivity. Qed.
Example Clean_ex2 : Clean "/../a" = "/a". Proof. reflexivity. Qed.
Example Clean_ex3 : Clean "../../a/.." = "../..". Proof. reflexivity. Qed.
Example Base_ex : Base "versions/a//" = "a". Proof. reflexivity. Qed.
Example Dir_ex : Dir "current.json" = ".". Proof. reflexivity. Qed.
Example TrimSpace_ex : TrimSpace "  a b
 " = "a b". Proof. reflexivity. Qed.
Example pad20_ex : pad20 42 = "00000000000000000042". Proof. reflexivity. Qed.
