(* ===== verification/Sha256.v ===== *)
(** * crypto/sha256 (FIPS 180-4), executable on byte strings

    The sources only call [sha256.Sum256] and the incremental hasher, whose
    digest of the concatenated writes is [Sum256] of the concatenation.  The
    development relies on the length of the digest and on nothing else. *)

From stdpp Require Import base strings list.
From Stdlib Require Import NArith Ascii.
From S2P Require Import Prelude GoStrings.

Module Sha256.
Local Open Scope N_scope.

Definition two32 : N := 4294967296.
Definition add32 (a b : N) : N := (a + b) mod two32.
Definition rotr (n x : N) : N :=
  N.lor (N.shiftr x n) ((N.shiftl x (32 - n)) mod two32).
Definition not32 (x : N) : N := two32 - 1 - x.

Definition ch (x y z : N) : N := N.lxor (N.land x y) (N.land (not32 x) z).
Definition maj (x y z : N) : N :=
  N.lxor (N.lxor (N.land x y) (N.land x z)) (N.land y z).
Definition bsig0 (x : N) : N := N.lxor (N.lxor (rotr 2 x) (rotr 13 x)) (rotr 22 x).
Definition bsig1 (x : N) : N := N.lxor (N.lxor (rotr 6 x) (rotr 11 x)) (rotr 25 x).
Definition ssig0 (x : N) : N := N.lxor (N.lxor (rotr 7 x) (rotr 18 x)) (N.shiftr x 3).
Definition ssig1 (x : N) : N := N.lxor (N.lxor (rotr 17 x) (rotr 19 x)) (N.shiftr x 10).

(** The constants: 32 bits of the fractional parts of the cube roots (for the
    rounds) and square roots (for the initial state) of the first primes. *)
Fixpoint is_prime_from (fuel : nat) (d n : N) : bool :=
  match fuel with
  | O => true
  | S f => if n <? d * d then true
           else if n mod d =? 0 then false else is_prime_from f (d + 1) n
  end.

Fixpoint primes_from (fuel : nat) (n : N) : list N :=
  match fuel with
  | O => []
  | S f => if is_prime_from 400 2 n then n :: primes_from f (n + 1) else primes_from f (n + 1)
  end.

(** The largest r below [acc + 2 ^ bits] with r^3 <= n. *)
Fixpoint cbrt_bits (bits : nat) (acc n : N) : N :=
  match bits with
  | O => acc
  | S b => let r := acc + 2 ^ N.of_nat b in
           if r * r * r <=? n then cbrt_bits b r n else cbrt_bits b acc n
  end.

Definition primes : list N := Eval vm_compute in primes_from 310 2.

Definition K : list N :=
  Eval vm_compute in (fun p => cbrt_bits 40 0 (p * 2 ^ 96) mod two32) <$> primes.

Definition square_words : list N :=
  Eval vm_compute in (fun p => N.sqrt (p * 2 ^ 64) mod two32) <$> take 8 primes.

Record hstate : Set := HS { ha : N; hb : N; hc : N; hd_ : N; he : N; hf : N; hg : N; hh : N }.

Definition H0 : hstate :=
  match square_words with
  | [a; b; c; d; e; f; g; h] => HS a b c d e f g h
  | _ => HS 0 0 0 0 0 0 0 0
  end.

(** The next word of the schedule, from the sixteen before it. *)
Definition next_w (win : list N) : N :=
  add32 (add32 (ssig1 (nth 14 win 0)) (nth 9 win 0))
        (add32 (ssig0 (nth 1 win 0)) (nth 0 win 0)).

Definition round (s : hstate) (k w : N) : hstate :=
  let t1 := add32 (add32 (add32 (hh s) (bsig1 (he s))) (ch (he s) (hf s) (hg s))) (add32 k w) in
  let t2 := add32 (bsig0 (ha s)) (maj (ha s) (hb s) (hc s)) in
  HS (add32 t1 t2) (ha s) (hb s) (hc s) (add32 (hd_ s) t1) (he s) (hf s) (hg s).

Fixpoint rounds (ks win : list N) (s : hstate) : hstate :=
  match ks with
  | [] => s
  | k :: ks' => rounds ks' (tl win ++ [next_w win]) (round s k (hd 0 win))
  end.

Definition compress (s : hstate) (block : list N) : hstate :=
  let r := rounds K block s in
  HS (add32 (ha s) (ha r)) (add32 (hb s) (hb r)) (add32 (hc s) (hc r)) (add32 (hd_ s) (hd_ r))
     (add32 (he s) (he r)) (add32 (hf s) (hf r)) (add32 (hg s) (hg r)) (add32 (hh s) (hh r)).

(** Big-endian words of a byte list. *)
Fixpoint words (l : list N) : list N :=
  match l with
  | a :: b :: c :: d :: l' => (a * 16777216 + b * 65536 + c * 256 + d) :: words l'
  | _ => []
  end.

Definition be32 (w : N) : list N :=
  [N.shiftr w 24 mod 256; N.shiftr w 16 mod 256; N.shiftr w 8 mod 256; w mod 256].

Definition pad (m : list N) : list N :=
  let len := N.of_nat (length m) in
  let bits := (8 * len) mod 18446744073709551616 in
  m ++ [128] ++ repeat 0 (N.to_nat ((119 - len mod 64) mod 64))
    ++ be32 (N.shiftr bits 32) ++ be32 (bits mod two32).

Fixpoint blocks (fuel : nat) (ws : list N) (s : hstate) : hstate :=
  match fuel, ws with
  | S n, _ :: _ => blocks n (drop 16 ws) (compress s (take 16 ws))
  | _, _ => s
  end.

Definition digest_words (s : hstate) : list N :=
  [ha s; hb s; hc s; hd_ s; he s; hf s; hg s; hh s].

Definition to_bytes (s : string) : list N := code <$> String.list_ascii_of_string s.
Definition of_bytes (l : list N) : string := String.string_of_list_ascii (chr <$> l).

Definition Sum256 (msg : string) : string :=
  let p := words (pad (to_bytes msg)) in
  of_bytes (concat (be32 <$> digest_words (blocks (length p) p H0))).

Lemma of_bytes_length l : String.length (of_bytes l) = length l.
Proof. unfold of_bytes. induction l as [|b l IH]; [done|]. simpl. by f_equal. Qed.

Lemma Sum256_length msg : String.length (Sum256 msg) = 32%nat.
Proof. unfold Sum256. rewrite of_bytes_length. done. Qed.
End Sha256.

Definition sha256_Size : N := 32%N.

(** hex.EncodeToString(sha256.Sum256(raw)) *)
Definition sha256_hex (raw : string) : string := EncodeToString (Sha256.Sum256 raw).

Lemma sha256_hex_length raw : String.length (sha256_hex raw) = 64%nat.
Proof. unfold sha256_hex. by rewrite EncodeToString_length, Sha256.Sum256_length. Qed.

Lemma sha256_hex_slen raw : slen (sha256_hex raw) = 64%N.
Proof. unfold slen. by rewrite sha256_hex_length. Qed.

Lemma sha256_hex_lower raw : sforall is_lower_hex (sha256_hex raw) = true.
Proof. apply EncodeToString_lower_hex. Qed.

#[global] Arguments Sha256.Sum256 : simpl never.
#[global] Arguments sha256_hex : simpl never.

Example sha256_abc :
  sha256_hex "abc" = "ba7816bf8f01cfea414140de5dae2223b00361a396177a9cb410ff61f20015ad".
Proof. vm_compute. reflexivity. Qed.
Example sha256_empty :
  sha256_hex "" = "e3b0c44298fc1c149afbf4c8996fb92427ae41e4649b934ca495991b7852b855".
Proof. vm_compute. reflexivity. Qed.
Example sha256_two_blocks :
  sha256_hex "abcdbcdecdefdefgefghfghighijhijkijkljklmklmnlmnomnopnopq"
  = "248d6a61d20638b8e5c026930c3e6039a33ce45964ff2167f6ecedd419db06c1".
Proof. vm_compute. reflexivity. Qed.

#[global] Opaque Sha256.Sum256.
