(* ===== verification/Json.v ===== *)
(** * encoding/json as the sources use it

    Marshal writes compact text in field order; Decode reads a text into a
    struct field by field.  Decoding works on the raw text of each member, as
    Go does for [json.RawMessage], so that the bytes a digest is taken of are
    the bytes received.  Not modelled: the depth limit of 10000 and the texts of
    the library's own error messages. *)

From stdpp Require Import base strings list pretty.
From Stdlib Require Import ZArith NArith Ascii.
From S2P Require Import Prelude GoStrings.

Definition dq : ascii := Eval compute in chr 34.
Definition bs : ascii := Eval compute in chr 92.
Definition nl : string := Eval compute in String (chr 10) "".

Definition eqc (a b : ascii) : bool := (code a =? code b)%N.

Lemma eqc_refl a : eqc a a = true.
Proof. apply N.eqb_refl. Qed.

(** ** Scanning one value *)

Definition is_ws (c : ascii) : bool :=
  ((code c =? 32) || (code c =? 9) || (code c =? 10) || (code c =? 13))%N.

Fixpoint skip_ws (s : string) : string :=
  match s with
  | String c r => if is_ws c then skip_ws r else s
  | "" => ""
  end.

Definition simple_escape (e : ascii) : option N :=
  if eqc e dq then Some 34%N
  else if eqc e bs then Some 92%N
  else if eqc e "/" then Some 47%N
  else if eqc e "b" then Some 8%N
  else if eqc e "f" then Some 12%N
  else if eqc e "n" then Some 10%N
  else if eqc e "r" then Some 13%N
  else if eqc e "t" then Some 9%N
  else None.

Definition hex4 (a b c d : ascii) : option N :=
  match from_hex a, from_hex b, from_hex c, from_hex d with
  | Some x, Some y, Some z, Some w => Some (4096 * x + 256 * y + 16 * z + w)%N
  | _, _, _, _ => None
  end.

(** The text after the closing quote of a string whose opening quote was read. *)
Fixpoint scan_str (s : string) : option string :=
  match s with
  | "" => None
  | String c r =>
      if eqc c dq then Some r
      else if eqc c bs then
        match r with
        | String e r' =>
            match simple_escape e with
            | Some _ => scan_str r'
            | None =>
                if eqc e "u" then
                  match r' with
                  | String x (String y (String z (String w r''))) =>
                      match hex4 x y z w with Some _ => scan_str r'' | None => None end
                  | _ => None
                  end
                else None
            end
        | "" => None
        end
      else if (code c <? 32)%N then None
      else scan_str r
  end.

Fixpoint skip_digits (s : string) : string :=
  match s with
  | String c r => if is_digit c then skip_digits r else s
  | "" => ""
  end.

Definition digits1 (s : string) : option string :=
  match s with
  | String c r => if is_digit c then Some (skip_digits r) else None
  | "" => None
  end.

Definition scan_exp (s : string) : option string :=
  match s with
  | String e r =>
      if eqc e "e" || eqc e "E" then
        match r with
        | String g r' => if eqc g "+" || eqc g "-" then digits1 r' else digits1 r
        | "" => None
        end
      else Some s
  | "" => Some s
  end.

Definition scan_frac (s : string) : option string :=
  match s with
  | String c r =>
      if eqc c "." then match digits1 r with Some r' => scan_exp r' | None => None end
      else scan_exp s
  | "" => Some s
  end.

Definition scan_nat (s : string) : option string :=
  match s with
  | String c r =>
      if eqc c "0" then scan_frac r
      else if is_digit c then scan_frac (skip_digits r)
      else None
  | "" => None
  end.

Definition scan_number (s : string) : option string :=
  match s with
  | String c r => if eqc c "-" then scan_nat r else scan_nat s
  | "" => None
  end.

Definition expect (w s : string) : option string :=
  if HasPrefix s w then Some (sdrop (String.length w) s) else None.

(** [scan_value fuel s]: the text after the value that starts at [s]. *)
Fixpoint scan_value (fuel : nat) (s : string) : option string :=
  match fuel, s with
  | S f, String c r =>
      if eqc c dq then scan_str r
      else if eqc c "{" then
        match skip_ws r with
        | String d r' => if eqc d "}" then Some r' else scan_members f (String d r')
        | "" => None
        end
      else if eqc c "[" then
        match skip_ws r with
        | String d r' => if eqc d "]" then Some r' else scan_elems f (String d r')
        | "" => None
        end
      else if eqc c "t" then expect "true" s
      else if eqc c "f" then expect "false" s
      else if eqc c "n" then expect "null" s
      else scan_number s
  | _, _ => None
  end
with scan_members (fuel : nat) (s : string) : option string :=
  match fuel, s with
  | S f, String c r =>
      if eqc c dq then
        match scan_str r with
        | Some r1 =>
            match skip_ws r1 with
            | String k r2 =>
                if eqc k ":" then
                  match scan_value f (skip_ws r2) with
                  | Some r3 =>
                      match skip_ws r3 with
                      | String d r4 =>
                          if eqc d "," then scan_members f (skip_ws r4)
                          else if eqc d "}" then Some r4 else None
                      | "" => None
                      end
                  | None => None
                  end
                else None
            | "" => None
            end
        | None => None
        end
      else None
  | _, _ => None
  end
with scan_elems (fuel : nat) (s : string) : option string :=
  match fuel with
  | S f =>
      match scan_value f s with
      | Some r3 =>
          match skip_ws r3 with
          | String d r4 =>
              if eqc d "," then scan_elems f (skip_ws r4)
              else if eqc d "]" then Some r4 else None
          | "" => None
          end
      | None => None
      end
  | O => None
  end.

(** What precedes [rest] in [s]. *)
Definition slice (s rest : string) : string :=
  stake (String.length s - String.length rest) s.

Definition fuel_for (s : string) : nat := S (String.length s).

(** The raw text of the only value of [s]; [None] when [s] is not one JSON
    value with white space around it.  json.Valid, and the two-Decode idiom
    whose second Decode must report io.EOF. *)
Definition the_value (s : string) : option string :=
  let s1 := skip_ws s in
  match scan_value (fuel_for s1) s1 with
  | Some rest => match skip_ws rest with "" => Some (slice s1 rest) | _ => None end
  | None => None
  end.

Definition Valid (s : string) : bool :=
  match the_value s with Some _ => true | None => false end.

(** ** Strings *)

Definition encode_rune3 (r : N) : string :=
  String (chr (224 + r / 4096))
    (String (chr (128 + (r / 64) mod 64)) (String (chr (128 + r mod 64)) "")).

Definition encode_rune (r : N) : string :=
  if (r <? 128)%N then String (chr r) ""
  else if (r <? 2048)%N then String (chr (192 + r / 64)) (String (chr (128 + r mod 64)) "")
  else if ((55296 <=? r) && (r <? 57344) || (1114112 <=? r))%N then encode_rune3 rune_error
  else if (r <? 65536)%N then encode_rune3 r
  else String (chr (240 + r / 262144))
         (String (chr (128 + (r / 4096) mod 64))
            (String (chr (128 + (r / 64) mod 64)) (String (chr (128 + r mod 64)) ""))).

(** utf16.DecodeRune of a surrogate pair *)
Definition surrogate_pair (r r2 : N) : option N :=
  if ((55296 <=? r) && (r <? 56320) && (56320 <=? r2) && (r2 <? 57344))%N
  then Some ((r - 55296) * 1024 + (r2 - 56320) + 65536)%N else None.

Definition is_surrogate (r : N) : bool := ((55296 <=? r) && (r <? 57344))%N.

(** The bytes of the string whose opening quote was read, up to its closing
    quote; invalid UTF-8 is replaced afterwards by [sanitize]. *)
Fixpoint unquote_body (s : string) : option string :=
  match s with
  | "" => None
  | String c r =>
      if eqc c dq then Some ""
      else if eqc c bs then
        match r with
        | String e r' =>
            match simple_escape e with
            | Some n => String (chr n) <$> unquote_body r'
            | None =>
                if eqc e "u" then
                  match r' with
                  | String x (String y (String z (String w r''))) =>
                      match hex4 x y z w with
                      | Some u =>
                          if is_surrogate u then
                            match r'' with
                            | String b2 (String u2 (String x2 (String y2 (String z2 (String w2 r3))))) =>
                                match (if eqc b2 bs && eqc u2 "u" then hex4 x2 y2 z2 w2 else None) with
                                | Some v =>
                                    match surrogate_pair u v with
                                    | Some p => String.append (encode_rune p) <$> unquote_body r3
                                    | None => String.append (encode_rune rune_error) <$> unquote_body r''
                                    end
                                | None => String.append (encode_rune rune_error) <$> unquote_body r''
                                end
                            | _ => String.append (encode_rune rune_error) <$> unquote_body r''
                            end
                          else String.append (encode_rune u) <$> unquote_body r''
                      | None => None
                      end
                  | _ => None
                  end
                else None
            end
        | "" => None
        end
      else if (code c <? 32)%N then None
      else String c <$> unquote_body r
  end.

Definition sanitize_rune (rb : N * string) : N * string :=
  if ((fst rb =? rune_error)%N && bool_decide (String.length (snd rb) = 1%nat))
  then (rune_error, encode_rune rune_error) else rb.

Definition sanitize (s : string) : string := of_runes (sanitize_rune <$> runes s).

Definition unquote (raw : string) : option string :=
  match raw with
  | String c r => if eqc c dq then sanitize <$> unquote_body r else None
  | "" => None
  end.

(** Marshal's escapes (HTML escaping on, as json.Marshal has it). *)
Definition u00 (c : ascii) : string :=
  String bs (String "u" ("00" +:+ String (hex_digit (code c / 16))
                                   (String (hex_digit (code c mod 16)) ""))).

Definition esc_byte (c : ascii) : string :=
  if eqc c dq || eqc c bs then String bs (String c "")
  else if (code c =? 8)%N then String bs "b"
  else if (code c =? 12)%N then String bs "f"
  else if (code c =? 10)%N then String bs "n"
  else if (code c =? 13)%N then String bs "r"
  else if (code c =? 9)%N then String bs "t"
  else if (code c <? 32)%N || eqc c "<" || eqc c ">" || eqc c "&" then u00 c
  else String c "".

Definition esc_rune (rb : N * string) : string :=
  if (fst rb <? 128)%N then esc_byte (chr (fst rb))
  else if ((fst rb =? rune_error)%N && bool_decide (String.length (snd rb) = 1%nat))
  then String bs "ufffd"
  else if (fst rb =? 8232)%N then String bs "u2028"
  else if (fst rb =? 8233)%N then String bs "u2029"
  else snd rb.

Definition escape (s : string) : string :=
  foldr (fun rb acc => esc_rune rb +:+ acc) "" (runes s).

Definition quote (s : string) : string := String dq (escape s +:+ String dq "").

(** ** Objects and arrays by their raw members *)

Fixpoint members_from (fuel : nat) (s : string) : option (list (string * string)) :=
  match fuel, s with
  | S f, String c r =>
      if eqc c dq then
        match scan_str r with
        | Some r1 =>
            match skip_ws r1 with
            | String k r2 =>
                if eqc k ":" then
                  let v := skip_ws r2 in
                  match scan_value (fuel_for v) v with
                  | Some r3 =>
                      match unquote (slice s r1), skip_ws r3 with
                      | Some key, String d r4 =>
                          if eqc d "," then
                            match members_from f (skip_ws r4) with
                            | Some l => Some ((key, slice v r3) :: l)
                            | None => None
                            end
                          else if eqc d "}" then Some [(key, slice v r3)]
                          else None
                      | _, _ => None
                      end
                  | None => None
                  end
                else None
            | "" => None
            end
        | None => None
        end
      else None
  | _, _ => None
  end.

Definition members (raw : string) : option (list (string * string)) :=
  match raw with
  | String c r =>
      if eqc c "{" then
        match skip_ws r with
        | String d r' => if eqc d "}" then Some [] else members_from (fuel_for r) (String d r')
        | "" => None
        end
      else None
  | "" => None
  end.

Fixpoint elements_from (fuel : nat) (s : string) : option (list string) :=
  match fuel with
  | S f =>
      match scan_value (fuel_for s) s with
      | Some r3 =>
          match skip_ws r3 with
          | String d r4 =>
              if eqc d "," then
                match elements_from f (skip_ws r4) with
                | Some l => Some (slice s r3 :: l)
                | None => None
                end
              else if eqc d "]" then Some [slice s r3]
              else None
          | "" => None
          end
      | None => None
      end
  | O => None
  end.

Definition elements (raw : string) : option (list string) :=
  match raw with
  | String c r =>
      if eqc c "[" then
        match skip_ws r with
        | String d r' => if eqc d "]" then Some [] else elements_from (fuel_for r) (String d r')
        | "" => None
        end
      else None
  | "" => None
  end.

Definition member_text (kv : string * string) : string := quote (fst kv) +:+ String ":" (snd kv).
Definition obj (l : list (string * string)) : string :=
  String "{" (sconcat "," (member_text <$> l) +:+ "}").
Definition arr (l : list string) : string := String "[" (sconcat "," l +:+ "]").

(** ** Struct fields

    A field decoder maps the raw text of a value to the value, [None] being a
    type error; JSON null leaves a non-pointer field alone. *)

Definition setter (T : Type) : Type := string -> T -> option T.

Definition is_null (raw : string) : bool := bool_decide (raw = "null").

Definition fld {T A} (dec : string -> option A) (upd : A -> T -> T) : setter T :=
  fun raw t => if is_null raw then Some t
               else match dec raw with Some a => Some (upd a t) | None => None end.

(** A pointer field: null sets nil. *)
Definition ptr {T A} (dec : string -> option A) (upd : option A -> T -> T) : setter T :=
  fun raw t => if is_null raw then Some (upd None t)
               else match dec raw with Some a => Some (upd (Some a) t) | None => None end.

Definition dec_string : string -> option string := unquote.
Definition dec_uint (bits : N) (raw : string) : option N := ParseUint raw bits.
Definition dec_int (raw : string) : option Z :=
  match raw with
  | String "+" _ => None
  | _ => ParseInt raw
  end.
Definition dec_bool (raw : string) : option bool :=
  if bool_decide (raw = "true") then Some true
  else if bool_decide (raw = "false") then Some false else None.

(** A member matches the field of that name, or one equal up to letter case. *)
Fixpoint find_field {T} (fs : list (string * setter T)) (key : string) : option (setter T) :=
  match fs with
  | [] => None
  | (n, f) :: fs' => if bool_decide (n = key) then Some f else find_field fs' key
  end.

Definition field_for {T} (fs : list (string * setter T)) (key : string) : option (setter T) :=
  match find_field fs key with
  | Some f => Some f
  | None => find_field ((fun '(n, f) => (ToLower n, f)) <$> fs) (ToLower key)
  end.

Fixpoint set_members {T} (strict : bool) (fs : list (string * setter T))
    (kvs : list (string * string)) (t : T) : option T :=
  match kvs with
  | [] => Some t
  | (k, raw) :: kvs' =>
      match field_for fs k with
      | Some f => match f raw t with Some t' => set_members strict fs kvs' t' | None => None end
      | None => if strict then None else set_members strict fs kvs' t
      end
  end.

(** Decode the value [raw] into the struct [zero]; [strict] is
    DisallowUnknownFields. *)
Definition decode_obj {T} (strict : bool) (fs : list (string * setter T)) (zero : T)
    (raw : string) : option T :=
  if is_null raw then Some zero
  else match members raw with Some kvs => set_members strict fs kvs zero | None => None end.

Definition decode_text {T} (strict : bool) (fs : list (string * setter T)) (zero : T)
    (s : string) : option T :=
  match the_value s with Some raw => decode_obj strict fs zero raw | None => None end.

(** A slice: null is the nil slice. *)
Definition dec_slice {T} (dec : string -> option T) (raw : string) : option (list T) :=
  if is_null raw then Some [] else elements raw ≫= mapM dec.

(** The first value of a text and what follows it. *)
Definition first_text (s : string) : option (string * string) :=
  let s := skip_ws s in
  match scan_value (fuel_for s) s with
  | Some rest => Some (slice s rest, rest)
  | None => None
  end.

(** ** Round trips *)

Lemma slice_app a b : slice (a +:+ b) b = a.
Proof. unfold slice. by rewrite slength_app, Nat.add_sub, stake_app. Qed.

Lemma ascii_cons c s : is_ascii (String c s) = true <-> (code c < 128)%N /\ is_ascii s = true.
Proof. unfold is_ascii. simpl. by rewrite andb_true_iff, N.ltb_lt. Qed.

Lemma escape_cons c s :
  (code c < 128)%N -> escape (String c s) = esc_byte c +:+ escape s.
Proof.
  intros Hc. unfold escape. rewrite runes_ascii_cons by by apply N.ltb_lt. simpl.
  unfold esc_rune at 1. simpl. rewrite (proj2 (N.ltb_lt _ _)) by done. by rewrite chr_code.
Qed.

Lemma scan_str_esc c x : (code c < 128)%N -> scan_str (esc_byte c +:+ x) = scan_str x.
Proof. destruct c as [[] [] [] [] [] [] [] []]; vm_compute code; intros; try lia; done. Qed.

Lemma unquote_body_esc c x :
  (code c < 128)%N -> unquote_body (esc_byte c +:+ x) = String c <$> unquote_body x.
Proof. destruct c as [[] [] [] [] [] [] [] []]; vm_compute code; intros; try lia; done. Qed.

(** A multi-byte encoding: decoded as one rune whatever follows it. *)
Definition rune_chunk (v : N) (b : string) : Prop :=
  (128 <= v)%N /\ String.length b <> 1%nat /\ sforall (fun c => negb (code c <? 128)%N) b = true /\
  (v = 8232%N -> b = encode_rune3 8232) /\ (v = 8233%N -> b = encode_rune3 8233) /\
  forall x, runes (b +:+ x) = (v, b) :: runes x.

Lemma char_in_spec lo hi c : char_in lo hi c = true <-> (lo <= code c <= hi)%N.
Proof. unfold char_in. rewrite andb_true_iff, !N.leb_le. done. Qed.

Lemma code_eq c n : code c = n -> c = chr n.
Proof. intros <-. by rewrite chr_code. Qed.
Lemma runes_cases s :
  match s with
  | "" => True
  | String a r =>
      ((code a < 128)%N /\ runes s = (code a, String a "") :: runes r) \/
      (exists v b x, rune_chunk v b /\ s = b +:+ x /\ b <> "" /\ runes s = (v, b) :: runes x) \/
      runes s = (rune_error, String a "") :: runes r
  end.
Proof.
  destruct s as [|a r]; [done|]. destruct (code a <? 128)%N eqn:Ea.
  { left. split; [by apply N.ltb_lt|by apply runes_ascii_cons]. }
  right. assert (128 <= code a)%N as Ha by by apply N.ltb_ge.
  destruct r as [|b r1]; [right; simpl; by rewrite Ea|].
  destruct (char_in 194 223 a && cont b) eqn:E2.
  { left. exists ((code a - 192) * 64 + cbits b)%N, (String a (String b "")), r1.
    assert (forall x, runes (String a (String b x)) =
      (((code a - 192) * 64 + cbits b)%N, String a (String b "")) :: runes x) as Hx.
    { intros x. simpl. by rewrite Ea, E2. }
    apply andb_true_iff in E2 as [Ia Ib]. apply char_in_spec in Ia, Ib. unfold cbits in *.
    split; [|by split; [|split; [|apply Hx]]].
    split_and!; [lia|done| |lia|lia|exact Hx].
    simpl. rewrite Ea. by rewrite (proj2 (N.ltb_ge _ _)) by lia. }
  destruct r1 as [|c r2]; [right; simpl; by rewrite Ea, E2|].
  destruct (char_in 224 239 a && char_in (if (code a =? 224)%N then 160 else 128)%N
              (if (code a =? 237)%N then 159 else 191)%N b && cont c) eqn:E3.
  { left. exists ((code a - 224) * 4096 + cbits b * 64 + cbits c)%N, (String a (String b (String c ""))), r2.
    assert (forall x, runes (String a (String b (String c x))) =
      (((code a - 224) * 4096 + cbits b * 64 + cbits c)%N, String a (String b (String c ""))) :: runes x) as Hx.
    { intros x. simpl. by rewrite Ea, E2, E3. }
    rewrite !andb_true_iff in E3. destruct E3 as [[Ia Ib] Ic]. apply char_in_spec in Ia, Ib, Ic.
    assert (128 <= code b <= 191)%N as Ib' by (destruct (code a =? 224)%N, (code a =? 237)%N; lia).
    assert (code a = 224 -> 160 <= code b)%N as Ib2.
    { intros E. rewrite E in Ib. simpl in Ib. lia. }
    clear Ib. unfold cbits in *.
    split; [|by split; [|split; [|apply Hx]]].
    split_and!; [lia|done| | | |exact Hx].
    - simpl. rewrite Ea. by rewrite !(proj2 (N.ltb_ge _ _)) by lia.
    - intros E. rewrite (code_eq a 226), (code_eq b 128), (code_eq c 168) by lia. done.
    - intros E. rewrite (code_eq a 226), (code_eq b 128), (code_eq c 169) by lia. done. }
  destruct r2 as [|d r3]; [right; simpl; by rewrite Ea, E2, E3|].
  destruct (char_in 240 244 a && char_in (if (code a =? 240)%N then 144 else 128)%N
              (if (code a =? 244)%N then 143 else 191)%N b && cont c && cont d) eqn:E4.
  { left. exists ((code a - 240) * 262144 + cbits b * 4096 + cbits c * 64 + cbits d)%N,
      (String a (String b (String c (String d "")))), r3.
    assert (forall x, runes (String a (String b (String c (String d x)))) =
      (((code a - 240) * 262144 + cbits b * 4096 + cbits c * 64 + cbits d)%N,
       String a (String b (String c (String d "")))) :: runes x) as Hx.
    { intros x. simpl. by rewrite Ea, E2, E3, E4. }
    rewrite !andb_true_iff in E4. destruct E4 as [[[Ia Ib] Ic] Id]. apply char_in_spec in Ia, Ib, Ic, Id.
    assert (128 <= code b <= 191)%N as Ib' by (destruct (code a =? 240)%N, (code a =? 244)%N; lia).
    assert (code a = 240 -> 144 <= code b)%N as Ib2.
    { intros E. rewrite E in Ib. simpl in Ib. lia. }
    clear Ib. unfold cbits in *.
    split; [|by split; [|split; [|apply Hx]]].
    split_and!; [lia|done| |lia|lia|exact Hx].
    simpl. rewrite Ea. by rewrite !(proj2 (N.ltb_ge _ _)) by lia. }
  right. simpl. by rewrite Ea, E2, E3, E4.
Qed.

Lemma rune_ind (P : string -> Prop) :
  P "" ->
  (forall a r, (code a < 128)%N -> runes (String a r) = (code a, String a "") :: runes r ->
     P r -> P (String a r)) ->
  (forall v b x, rune_chunk v b -> P x -> P (b +:+ x)) ->
  (forall a r, runes (String a r) = (rune_error, String a "") :: runes r -> P r -> P (String a r)) ->
  forall s, P s.
Proof.
  intros H0 H1 H2 H3 s. remember (String.length s) as n eqn:Hn. revert s Hn.
  induction (lt_wf n) as [n _ IH]. intros [|a r] ->; [done|].
  destruct (runes_cases (String a r)) as [[Ha Hr]|[(v & b & x & Hb & E & Hne & Hr)|Hr]].
  - apply H1; [done|done|]. eapply IH; [|done]. simpl. lia.
  - rewrite E. apply H2 with v; [done|]. eapply IH; [|done]. rewrite E, slength_app.
    destruct b; [done|]. simpl. lia.
  - apply H3; [done|]. eapply IH; [|done]. simpl. lia.
Qed.

Lemma high_not_special c : (128 <= code c)%N ->
  eqc c dq = false /\ eqc c bs = false /\ (code c <? 32)%N = false.
Proof. destruct c as [[] [] [] [] [] [] [] []]; vm_compute code; intros; try lia; done. Qed.

Lemma scan_str_high b x :
  sforall (fun c => negb (code c <? 128)%N) b = true -> scan_str (b +:+ x) = scan_str x.
Proof.
  induction b as [|c b IH]; [done|]. simpl. rewrite andb_true_iff, negb_true_iff, N.ltb_ge.
  intros [Hc Hb]. destruct (high_not_special c Hc) as (-> & -> & ->). auto.
Qed.

Lemma unquote_body_high b x :
  sforall (fun c => negb (code c <? 128)%N) b = true ->
  unquote_body (b +:+ x) = String.append b <$> unquote_body x.
Proof.
  induction b as [|c b IH].
  - intros _. rewrite app_Empty. destruct (unquote_body x); reflexivity.
  - simpl. rewrite andb_true_iff, negb_true_iff, N.ltb_ge.
    intros [Hc Hb]. destruct (high_not_special c Hc) as (-> & -> & ->).
    rewrite IH by done. destruct (unquote_body x); reflexivity.
Qed.

Lemma unquote_u2028 x :
  unquote_body (String bs "u2028" +:+ x) = String.append (encode_rune3 8232) <$> unquote_body x.
Proof. reflexivity. Qed.

Lemma unquote_u2029 x :
  unquote_body (String bs "u2029" +:+ x) = String.append (encode_rune3 8233) <$> unquote_body x.
Proof. reflexivity. Qed.

Lemma esc_rune_chunk v b : rune_chunk v b ->
  esc_rune (v, b) = if (v =? 8232)%N then String bs "u2028"
                    else if (v =? 8233)%N then String bs "u2029" else b.
Proof.
  intros (Hv & Hl & _). unfold esc_rune. simpl.
  rewrite (proj2 (N.ltb_ge _ _)) by done. by rewrite bool_decide_false, andb_false_r.
Qed.

Lemma escape_chunk v b x : rune_chunk v b -> escape (b +:+ x) = esc_rune (v, b) +:+ escape x.
Proof. intros (_ & _ & _ & _ & _ & Hx). unfold escape. by rewrite Hx. Qed.

Lemma scan_str_quote s rest : scan_str (escape s +:+ String dq rest) = Some rest.
Proof.
  induction s as [|a r Ha _ IH|v b x Hb IH|a r Hr IH] using rune_ind; [done|..].
  - by rewrite escape_cons, sapp_assoc, scan_str_esc.
  - rewrite (escape_chunk _ _ _ Hb), sapp_assoc, esc_rune_chunk by done.
    destruct (v =? 8232)%N; [exact IH|]. destruct (v =? 8233)%N; [exact IH|].
    rewrite scan_str_high; [done|]. by destruct Hb as (_ & _ & ? & _).
  - unfold escape. rewrite Hr. exact IH.
Qed.

Lemma unquote_body_quote s rest :
  ValidString s = true -> unquote_body (escape s +:+ String dq rest) = Some s /\ sanitize s = s.
Proof.
  induction s as [|a r Ha Hr IH|v b x Hb IH|a r Hr IH] using rune_ind; [done|..];
    unfold ValidString; intros Hs.
  - rewrite Hr in Hs. simpl in Hs. apply andb_true_iff in Hs as [_ Hs].
    destruct (IH Hs) as [IH1 IH2]. split.
    + rewrite escape_cons, sapp_assoc, unquote_body_esc by done. by rewrite IH1.
    + unfold sanitize in *. rewrite Hr. cbn [fmap list_fmap of_runes foldr].
      assert (sanitize_rune (code a, String a "") = (code a, String a "")) as ->.
      { unfold sanitize_rune. simpl. destruct (N.eqb_spec (code a) rune_error) as [E|]; [|done].
        rewrite E in Ha. done. }
      unfold of_runes in IH2. cbn [fst snd]. rewrite app_String, app_Empty. by rewrite IH2.
  - pose proof Hb as (Hv & Hl & Hh & H8 & H9 & Hx). rewrite Hx in Hs. simpl in Hs.
    apply andb_true_iff in Hs as [_ Hs]. destruct (IH Hs) as [IH1 IH2]. split.
    + rewrite (escape_chunk _ _ _ Hb), sapp_assoc, esc_rune_chunk by done.
      destruct (N.eqb_spec v 8232) as [E|]; [rewrite (H8 E)|
        destruct (N.eqb_spec v 8233) as [E|]; [rewrite (H9 E)|]].
      * rewrite unquote_u2028, IH1. done.
      * rewrite unquote_u2029, IH1. done.
      *       rewrite unquote_body_high by done. by rewrite IH1.
    + unfold sanitize in *. rewrite Hx. cbn [fmap list_fmap of_runes foldr].
      assert (sanitize_rune (v, b) = (v, b)) as ->.
      { unfold sanitize_rune. simpl. by rewrite bool_decide_false, andb_false_r. }
      unfold of_runes in IH2. cbn [snd]. by rewrite IH2.
  - rewrite Hr in Hs. done.
Qed.

Lemma is_ascii_ValidString s : is_ascii s = true -> ValidString s = true.
Proof.
  unfold ValidString. induction s as [|c s IH]; [done|]. rewrite ascii_cons. intros [Hc Hs].
  rewrite runes_ascii_cons by by apply N.ltb_lt. simpl. rewrite IH by done.
  destruct (N.eqb_spec (code c) rune_error) as [E|]; [|done]. rewrite E in Hc. done.
Qed.

Lemma unquote_quote s : ValidString s = true -> unquote (quote s) = Some s.
Proof.
  intros Hs. unfold unquote, quote. destruct (unquote_body_quote s "" Hs) as [E1 E2].
  rewrite eqc_refl, E1. simpl. by rewrite E2.
Qed.

(** What may follow a value inside a text. *)
Definition delim (rest : string) : Prop :=
  match rest with
  | "" => True
  | String c _ => (eqc c "," || eqc c "}" || eqc c "]" || is_ws c) = true
  end.

(** The text of one JSON value. *)
Definition jv (raw : string) : Prop :=
  (exists c r, raw = String c r /\ is_ws c = false) /\
  forall rest f, delim rest -> (String.length raw < f)%nat ->
    scan_value f (raw +:+ rest) = Some rest.

Lemma jv_quote s : jv (quote s).
Proof.
  split; [by exists dq, (escape s +:+ String dq "")|].
  intros rest f _ Hf. destruct f as [|f]; [lia|].
  unfold quote. rewrite app_String, sapp_assoc, app_String, app_Empty. simpl.
  by apply scan_str_quote.
Qed.

Lemma FormatUint_head n :
  FormatUint n = "0" \/
  exists c r, FormatUint n = String c r /\ is_digit c = true /\ eqc c "0" = false /\
              sforall is_digit r = true.
Proof.
  unfold FormatUint, pretty, pretty_N. case_decide as H0; [by left|right].
  assert (forall x s, x <> 0%N -> sforall is_digit s = true ->
    exists c r, pretty_N_go x s = String c r /\ is_digit c = true /\ eqc c "0" = false /\
                sforall is_digit r = true) as Hgo; [|by apply Hgo].
  intros x. induction (N.lt_wf_0 x) as [x _ IH]. intros s Hx Hs.
  rewrite pretty_N_go_step by lia.
  destruct (pretty_N_char_digit (x mod 10)) as [Hd Hv]; [apply N.mod_lt; lia|].
  destruct (decide (x / 10 = 0)%N) as [E|E].
  - rewrite E, pretty_N_go_0. do 2 eexists. split_and!; try done.
    assert (x < 10)%N as Hlt by (apply N.div_small_iff; done).
    rewrite N.mod_small in Hv |- * by done. unfold eqc.
    destruct (N.eqb_spec (code (pretty_N_char x)) (code "0")) as [Ec|]; [|done].
    unfold digit_val in Hv. rewrite Ec in Hv. vm_compute in Hv. congruence.
  - apply IH; [apply N.div_lt; lia|done|]. simpl. by rewrite Hd.
Qed.

Lemma skip_digits_app s rest :
  sforall is_digit s = true -> delim rest -> skip_digits (s +:+ rest) = rest.
Proof.
  induction s as [|c s IH]; intros Hs Hr.
  - rewrite app_Empty. destruct rest as [|c rest]; [done|]. simpl in *.
    destruct c as [[] [] [] [] [] [] [] []]; vm_compute in Hr; done.
  - simpl in Hs. apply andb_true_iff in Hs as [Hc Hs]. rewrite app_String. simpl.
    rewrite Hc. auto.
Qed.

Lemma scan_frac_delim rest : delim rest -> scan_frac rest = Some rest.
Proof.
  destruct rest as [|c rest]; [done|]. intros Hr.
  destruct c as [[] [] [] [] [] [] [] []]; vm_compute in Hr; done.
Qed.

Lemma scan_value_digit f c r :
  is_digit c = true -> scan_value (S f) (String c r) = scan_nat (String c r).
Proof. destruct c as [[] [] [] [] [] [] [] []]; intros Hc; vm_compute in Hc; done. Qed.

Lemma digit_not_ws c : is_digit c = true -> is_ws c = false.
Proof. destruct c as [[] [] [] [] [] [] [] []]; intros Hc; vm_compute in Hc; done. Qed.

Lemma scan_nat_uint n rest : delim rest -> scan_nat (FormatUint n +:+ rest) = Some rest.
Proof.
  intros Hr. destruct (FormatUint_head n) as [-> | (c & r & -> & Hc & H0 & Hds)].
  - change ("0" +:+ rest) with (String "0" rest). simpl. by apply scan_frac_delim.
  - rewrite app_String. simpl. rewrite H0, Hc, skip_digits_app by done.
    by apply scan_frac_delim.
Qed.

Lemma FormatUint_digit_head n : exists c r, FormatUint n = String c r /\ is_digit c = true.
Proof.
  pose proof (FormatUint_digits n) as Hd.
  destruct (FormatUint n) as [|c r] eqn:E; [by apply FormatUint_nonempty in E|].
  simpl in Hd. apply andb_true_iff in Hd as [Hd _]. eauto.
Qed.

Lemma jv_uint n : jv (FormatUint n).
Proof.
  destruct (FormatUint_digit_head n) as (c & r & E & Hc). split.
  - exists c, r. split; [done|]. by apply digit_not_ws.
  - intros rest [|f] Hr Hf; [lia|]. pose proof (scan_nat_uint n rest Hr) as H.
    rewrite E, app_String in *. by rewrite scan_value_digit.
Qed.

Lemma jv_int z : jv (FormatInt z).
Proof.
  destruct z as [|p|p].
  - apply (jv_uint 0).
  - apply (jv_uint (N.pos p)).
  - change (FormatInt (Z.neg p)) with (String "-" (FormatUint (N.pos p))). split.
    + by do 2 eexists.
    + intros rest [|f] Hr Hf; [lia|]. rewrite app_String. simpl. by apply scan_nat_uint.
Qed.

Lemma jv_bool (b : bool) : jv (if b then "true" else "false").
Proof.
  split; [destruct b; by do 2 eexists|].
  intros rest [|f] Hr Hf; [simpl in Hf; lia|]. destruct b; by destruct rest.
Qed.

(** *** Objects *)

Definition member_ok (kv : string * string) : Prop := is_ascii (fst kv) = true /\ jv (snd kv).

Lemma skip_ws_jv raw rest : jv raw -> skip_ws (raw +:+ rest) = raw +:+ rest.
Proof. intros [(c & r & -> & Hc) _]. rewrite app_String. simpl. by rewrite Hc. Qed.

Lemma skip_ws_quote s rest : skip_ws (quote s +:+ rest) = quote s +:+ rest.
Proof. done. Qed.

Lemma skip_ws_colon v : skip_ws (String ":" v) = String ":" v.
Proof. done. Qed.

Lemma quote_app s rest : quote s +:+ rest = String dq (escape s +:+ String dq rest).
Proof. unfold quote. by rewrite app_String, sapp_assoc, app_String, app_Empty. Qed.

Lemma member_text_app kv rest :
  member_text kv +:+ rest = quote (fst kv) +:+ String ":" (snd kv +:+ rest).
Proof. unfold member_text. by rewrite sapp_assoc, app_String. Qed.

Lemma member_length kv : (String.length (snd kv) + 2 < String.length (member_text kv))%nat.
Proof.
  unfold member_text, quote. rewrite app_String. cbn [String.length].
  rewrite !slength_app. cbn [String.length]. lia.
Qed.

(** One member in front of [d :: rest], seen by both loops over members. *)
Lemma scan_member f kv d rest :
  member_ok kv -> delim (String d rest) -> is_ws d = false ->
  (String.length (snd kv) < f)%nat ->
  scan_members (S f) (member_text kv +:+ String d rest)
  = if eqc d "," then scan_members f (skip_ws rest)
    else if eqc d "}" then Some rest else None.
Proof.
  intros [Hk Hv] Hd Hw Hf. rewrite member_text_app, quote_app.
  change (scan_members (S f) (String dq ?x)) with
    (match scan_str x with
     | Some r1 =>
         match skip_ws r1 with
         | String k r2 =>
             if eqc k ":" then
               match scan_value f (skip_ws r2) with
               | Some r3 =>
                   match skip_ws r3 with
                   | String d r4 =>
                       if eqc d "," then scan_members f (skip_ws r4)
                       else if eqc d "}" then Some r4 else None
                   | "" => None
                   end
               | None => None
               end
             else None
         | "" => None
         end
     | None => None
     end).
  rewrite scan_str_quote. rewrite skip_ws_colon, eqc_refl, skip_ws_jv by done.
  destruct Hv as [_ Hv]. rewrite Hv by done. simpl. by rewrite Hw.
Qed.

Lemma members_from_member f kv d rest :
  member_ok kv -> delim (String d rest) -> is_ws d = false ->
  members_from (S f) (member_text kv +:+ String d rest)
  = if eqc d "," then cons kv <$> members_from f (skip_ws rest)
    else if eqc d "}" then Some [kv] else None.
Proof.
  intros [Hk Hv] Hd Hw. rewrite member_text_app.
  set (tl := String ":" (snd kv +:+ String d rest)).
  assert (unquote (slice (quote (fst kv) +:+ tl) tl) = Some (fst kv)) as Hkey.
  { rewrite slice_app. by apply unquote_quote, is_ascii_ValidString. }
  assert (slice (snd kv +:+ String d rest) (String d rest) = snd kv) as Hval
    by apply slice_app.
  assert (scan_value (fuel_for (snd kv +:+ String d rest)) (snd kv +:+ String d rest)
          = Some (String d rest)) as Hsc.
  { apply Hv; [done|]. unfold fuel_for. rewrite slength_app. lia. }
  rewrite quote_app in *. unfold members_from; fold members_from.
  rewrite eqc_refl, scan_str_quote. unfold tl at 1. rewrite skip_ws_colon, eqc_refl.
  rewrite skip_ws_jv by done. rewrite Hsc, Hkey, Hval. simpl. rewrite Hw.
  destruct kv as [k v]. simpl. by destruct (eqc d ","), (members_from f (skip_ws rest)).
Qed.

Definition members_text (l : list (string * string)) : string := sconcat "," (member_text <$> l).

Lemma members_text_cons kv kv' l :
  members_text (kv :: kv' :: l) = member_text kv +:+ String "," (members_text (kv' :: l)).
Proof. done. Qed.

Lemma members_text_quote kv l rest :
  skip_ws (members_text (kv :: l) +:+ rest) = members_text (kv :: l) +:+ rest.
Proof. destruct l; done. Qed.

Lemma scan_members_text l rest f :
  l <> [] -> Forall member_ok l -> (String.length (members_text l) < f)%nat ->
  scan_members f (members_text l +:+ String "}" rest) = Some rest.
Proof.
  revert f. induction l as [|kv [|kv' l] IH]; intros f Hne Hl Hf; [done| |].
  - apply Forall_cons in Hl as [Hkv _]. destruct f as [|f]; [lia|].
    pose proof (member_length kv). change (members_text [kv]) with (member_text kv) in *.
    by rewrite scan_member by (done || lia).
  - apply Forall_cons in Hl as [Hkv Hl]. destruct f as [|f]; [lia|].
    pose proof (member_length kv). rewrite members_text_cons in *.
    rewrite slength_app in Hf. cbn [String.length] in Hf.
    rewrite sapp_assoc, app_String, scan_member by (done || lia). rewrite eqc_refl.
    rewrite members_text_quote. apply IH; [done|done|lia].
Qed.

Lemma members_from_text l rest f :
  l <> [] -> Forall member_ok l -> (String.length (members_text l) < f)%nat ->
  members_from f (members_text l +:+ String "}" rest) = Some l.
Proof.
  revert f. induction l as [|kv [|kv' l] IH]; intros f Hne Hl Hf; [done| |].
  - apply Forall_cons in Hl as [Hkv _]. destruct f as [|f]; [lia|].
    change (members_text [kv]) with (member_text kv) in *.
    by rewrite members_from_member by done.
  - apply Forall_cons in Hl as [Hkv Hl]. destruct f as [|f]; [lia|].
    pose proof (member_length kv). rewrite members_text_cons in *.
    rewrite slength_app in Hf. cbn [String.length] in Hf.
    rewrite sapp_assoc, app_String, members_from_member by done. rewrite eqc_refl.
    rewrite members_text_quote, IH; [done|done|done|lia].
Qed.

Lemma obj_text l : obj l = String "{" (members_text l +:+ "}").
Proof. done. Qed.

Lemma jv_obj l : l <> [] -> Forall member_ok l -> jv (obj l).
Proof.
  intros Hne Hl. split; [by do 2 eexists|].
  intros rest [|f] Hr Hf; [lia|]. rewrite obj_text in *. cbn [String.length] in Hf.
  rewrite slength_app in Hf. cbn [String.length] in Hf.
  rewrite app_String, sapp_assoc, app_String, app_Empty.
  destruct l as [|kv l]; [done|].
  unfold scan_value; fold scan_value; fold scan_members; fold scan_elems.
  cbn [eqc]. rewrite members_text_quote.
  destruct (members_text (kv :: l) +:+ String "}" rest) as [|d r] eqn:E.
  { destruct l; done. }
  assert (eqc d "}" = false) as Hd.
  { destruct l; injection E as <- _; done. }
  simpl. rewrite Hd, <- E. apply scan_members_text; [done|done|lia].
Qed.

Lemma members_obj l : l <> [] -> Forall member_ok l -> members (obj l) = Some l.
Proof.
  intros Hne Hl. rewrite obj_text. destruct l as [|kv l]; [done|].
  unfold members. rewrite eqc_refl, members_text_quote.
  destruct (members_text (kv :: l) +:+ "}") as [|d r] eqn:E.
  { destruct l; done. }
  assert (eqc d "}" = false) as Hd.
  { destruct l; injection E as <- _; done. }
  rewrite Hd, <- E. apply members_from_text; [done|done|].
  unfold fuel_for. rewrite slength_app. lia.
Qed.

Lemma the_value_jv raw : jv raw -> the_value raw = Some raw.
Proof.
  intros Hj. unfold the_value. pose proof (skip_ws_jv raw "" Hj) as Hs.
  rewrite sapp_nil_r in Hs. rewrite Hs. destruct Hj as [_ Hj].
  pose proof (Hj "" (fuel_for raw) I) as Hv. rewrite sapp_nil_r in Hv.
  rewrite Hv by (unfold fuel_for; lia). simpl. f_equal.
  rewrite <- (sapp_nil_r raw) at 1. apply slice_app.
Qed.

Lemma the_value_nl raw : jv raw -> the_value (raw +:+ nl) = Some raw.
Proof.
  intros Hj. unfold the_value. rewrite skip_ws_jv by done. destruct Hj as [_ Hj].
  rewrite Hj; [|done|unfold fuel_for; rewrite slength_app; lia].
  simpl. f_equal. apply slice_app.
Qed.

Lemma decode_obj_obj {T} strict (fs : list (string * setter T)) zero l :
  l <> [] -> Forall member_ok l ->
  decode_obj strict fs zero (obj l) = set_members strict fs l zero.
Proof. intros. unfold decode_obj, is_null. by rewrite bool_decide_false, members_obj. Qed.

Lemma decode_text_obj {T} strict (fs : list (string * setter T)) zero l :
  l <> [] -> Forall member_ok l ->
  decode_text strict fs zero (obj l +:+ nl) = set_members strict fs l zero.
Proof.
  intros. unfold decode_text. rewrite the_value_nl by by apply jv_obj.
  by apply decode_obj_obj.
Qed.

Lemma decode_text_obj' {T} strict (fs : list (string * setter T)) zero l :
  l <> [] -> Forall member_ok l ->
  decode_text strict fs zero (obj l) = set_members strict fs l zero.
Proof.
  intros. unfold decode_text. rewrite the_value_jv by by apply jv_obj.
  by apply decode_obj_obj.
Qed.

Lemma fld_string {T} (upd : string -> T -> T) s t :
  ValidString s = true -> fld dec_string upd (quote s) t = Some (upd s t).
Proof.
  intros Hs. unfold fld, is_null. rewrite bool_decide_false by done.
  unfold dec_string. by rewrite unquote_quote.
Qed.

Lemma fld_uint {T} bits (upd : N -> T -> T) n t :
  (n < 2 ^ bits)%N -> fld (dec_uint bits) upd (FormatUint n) t = Some (upd n t).
Proof.
  intros Hn. unfold fld, is_null. rewrite bool_decide_false.
  - unfold dec_uint. by rewrite ParseUint_FormatUint.
  - destruct (FormatUint_digit_head n) as (c & r & -> & Hc). by intros [= -> _].
Qed.

Lemma FormatInt_head z :
  exists c r, FormatInt z = String c r /\ (is_digit c = true \/ c = "-"%char).
Proof.
  destruct z as [|p|p].
  - exists "0"%char, "". by split; [|left].
  - destruct (FormatUint_digit_head (N.pos p)) as (c & r & E & Hc).
    exists c, r. by split; [|left].
  - exists "-"%char, (FormatUint (N.pos p)). by split; [|right].
Qed.

Lemma fld_int {T} (upd : Z -> T -> T) z t :
  is_i64 z -> fld dec_int upd (FormatInt z) t = Some (upd z t).
Proof.
  intros Hz. pose proof (ParseInt_FormatInt z Hz) as HP.
  destruct (FormatInt_head z) as (c & r & E & Hc). unfold fld, is_null, dec_int.
  rewrite bool_decide_false.
  - rewrite E in *. assert (c <> "+"%char) as Hp by (destruct Hc as [Hc| ->]; [by intros ->|done]).
    destruct c as [[] [] [] [] [] [] [] []]; try done; by rewrite HP.
  - rewrite E. intros [= -> _]. by destruct Hc.
Qed.

Lemma fld_bool {T} (upd : bool -> T -> T) (b : bool) t :
  fld dec_bool upd (if b then "true" else "false") t = Some (upd b t).
Proof. by destruct b. Qed.

Lemma ptr_some {T A} (dec : string -> option A) (upd : option A -> T -> T) raw a t :
  raw <> "null" -> dec raw = Some a -> ptr dec upd raw t = Some (upd (Some a) t).
Proof. intros Hn Hd. unfold ptr, is_null. by rewrite bool_decide_false, Hd. Qed.

(** ** Sizes *)

Lemma esc_byte_length c : (String.length (esc_byte c) <= 6)%nat.
Proof. destruct c as [[] [] [] [] [] [] [] []]; vm_compute; lia. Qed.

Lemma escape_length s : (String.length (escape s) <= 6 * String.length s)%nat.
Proof.
  induction s as [|a r Ha _ IH|v b x Hb IH|a r Hr IH] using rune_ind; [done|..].
  - rewrite escape_cons, slength_app by done. pose proof (esc_byte_length a). simpl. lia.
  - rewrite (escape_chunk _ _ _ Hb), esc_rune_chunk, !slength_app by done.
    pose proof Hb as (_ & _ & _ & H1 & H2 & _).
    destruct (N.eqb_spec v 8232) as [E|]; [rewrite (H1 E); simpl; lia|].
    destruct (N.eqb_spec v 8233) as [E|]; [rewrite (H2 E); simpl; lia|]. lia.
  - unfold escape in *. rewrite Hr. cbn [foldr]. rewrite slength_app.
    change (esc_rune (rune_error, String a "")) with (String bs "ufffd"). simpl. lia.
Qed.

Lemma quote_unfold s : quote s = String dq (escape s +:+ String dq "").
Proof. done. Qed.

Lemma obj_unfold l : obj l = String "{" (sconcat "," (member_text <$> l) +:+ "}").
Proof. done. Qed.

Lemma quote_slen s : (slen (quote s) <= 6 * slen s + 2)%N.
Proof.
  unfold slen, quote. cbn [String.length]. rewrite slength_app. simpl.
  pose proof (escape_length s). lia.
Qed.

Definition members_size (l : list (string * string)) : N :=
  foldr (fun kv n => 6 * slen kv.1 + slen kv.2 + 4 + n)%N 0%N l.

Lemma members_text_slen l : (slen (members_text l) <= members_size l)%N.
Proof.
  assert (forall kv, slen (member_text kv) <= 6 * slen kv.1 + slen kv.2 + 3)%N as Hm.
  { intros kv. unfold member_text. rewrite slen_app. pose proof (quote_slen kv.1).
    unfold slen in *. cbn [String.length]. lia. }
  induction l as [|kv [|kv' l] IH]; [done| |].
  - change (members_text [kv]) with (member_text kv). specialize (Hm kv). simpl. lia.
  - rewrite members_text_cons, slen_app. specialize (Hm kv).
    assert (slen (String "," (members_text (kv' :: l))) = 1 + slen (members_text (kv' :: l)))%N as ->.
    { unfold slen. cbn [String.length]. lia. }
    cbn [members_size foldr] in *. lia.
Qed.

Lemma obj_slen l : (slen (obj l) <= members_size l + 2)%N.
Proof.
  rewrite obj_text. pose proof (members_text_slen l). unfold slen in *.
  cbn [String.length]. rewrite slength_app. simpl. lia.
Qed.

Lemma members_size_app l l' : members_size (l ++ l') = (members_size l + members_size l')%N.
Proof. induction l; simpl; [done|]. rewrite IHl. lia. Qed.

(** An [omitempty] string member. *)
Definition opt_member (k v : string) : list (string * string) :=
  if bool_decide (v = "") then [] else [(k, quote v)].

Lemma opt_member_ok k v : is_ascii k = true -> Forall member_ok (opt_member k v).
Proof.
  intros Hk. unfold opt_member. case_bool_decide; constructor; [|done].
  split; [done|apply jv_quote].
Qed.

Lemma opt_member_size k v : (members_size (opt_member k v) <= 6 * slen k + 6 * slen v + 6)%N.
Proof.
  unfold opt_member. case_bool_decide; simpl; [lia|]. pose proof (quote_slen v). lia.
Qed.

(** *** Arrays, and objects that may be empty *)

Definition elems_text (l : list string) : string := sconcat "," l.

Lemma jv_head raw : jv raw -> exists c r, raw = String c r /\ is_ws c = false /\ eqc c "]" = false.
Proof.
  intros [(c & r & -> & Hw) Hv]. exists c, r. split; [done|]. split; [done|].
  apply not_true_is_false. intros Hc. apply N.eqb_eq in Hc.
  assert (c = "]"%char) as -> by (rewrite <- (chr_code c), Hc; done).
  specialize (Hv "" (fuel_for (String "]" r)) I). rewrite sapp_nil_r in Hv.
  assert (String.length (String "]" r) < fuel_for (String "]" r))%nat as Hl by (unfold fuel_for; lia).
  specialize (Hv Hl). done.
Qed.

Lemma elems_head v l rest : jv v -> skip_ws (elems_text (v :: l) +:+ rest) = elems_text (v :: l) +:+ rest.
Proof.
  intros Hv. destruct l as [|v' l]; [by apply skip_ws_jv|].
  change (elems_text (v :: v' :: l)) with (v +:+ String "," (elems_text (v' :: l))).
  rewrite sapp_assoc. by apply skip_ws_jv.
Qed.

Lemma scan_elems_text l rest f : l <> [] -> Forall jv l -> (S (String.length (elems_text l)) < f)%nat ->
  scan_elems f (elems_text l +:+ String "]" rest) = Some rest.
Proof.
  revert f. induction l as [|v [|v' l] IH]; intros f Hne Hl Hf; [done| |].
  - apply Forall_cons in Hl as [[_ Hv] _]. destruct f as [|f]; [lia|].
    change (elems_text [v]) with v in *.
    assert (scan_value f (v +:+ String "]" rest) = Some (String "]" rest)) as E.
    { apply Hv; [done|]. lia. }
    unfold scan_elems; fold scan_elems; fold scan_value. by rewrite E.
  - apply Forall_cons in Hl as [Hv Hl]. destruct f as [|f]; [lia|].
    change (elems_text (v :: v' :: l)) with (v +:+ String "," (elems_text (v' :: l))) in *.
    rewrite slength_app in Hf. cbn [String.length] in Hf. rewrite sapp_assoc, app_String.
    assert (scan_value f (v +:+ String "," (elems_text (v' :: l) +:+ String "]" rest))
            = Some (String "," (elems_text (v' :: l) +:+ String "]" rest))) as E.
    { apply Hv; [done|lia]. }
    unfold scan_elems; fold scan_elems; fold scan_value. rewrite E.
    change (skip_ws (String "," ?x)) with (String "," x). cbv iota. rewrite eqc_refl.
    rewrite elems_head by by apply Forall_cons in Hl as [? _]. apply IH; [done|done|lia].
Qed.

Lemma jv_arr l : Forall jv l -> jv (arr l).
Proof.
  intros Hl. split; [by do 2 eexists|]. intros rest [|f] Hr Hf; [lia|].
  unfold arr in *. cbn [String.length] in Hf. rewrite slength_app in Hf. cbn [String.length] in Hf.
  rewrite app_String, sapp_assoc, app_String, app_Empty. fold (elems_text l) in *.
  unfold scan_value; fold scan_value; fold scan_members; fold scan_elems.
  destruct l as [|v l]; [done|]. pose proof Hl as [Hv _]%Forall_cons.
  rewrite elems_head by done. pose proof (jv_head v Hv) as (c & r & Ev & Hw & Hc).
  destruct (elems_text (v :: l) +:+ String "]" rest) as [|d x] eqn:E; [subst v; by destruct l|].
  assert (eqc d "]" = false) as Hd by (subst v; destruct l; injection E as <- _; done).
  simpl. rewrite Hd, <- E. apply scan_elems_text; [done|done|lia].
Qed.

Lemma jv_obj_nil : jv (obj []).
Proof.
  split; [by do 2 eexists|]. intros rest [|f] Hr Hf; [simpl in Hf; lia|]. done.
Qed.

Lemma jv_object l : Forall member_ok l -> jv (obj l).
Proof. intros Hl. destruct l; [apply jv_obj_nil|by apply jv_obj]. Qed.

Lemma arr_unfold l : arr l = String "[" (sconcat "," l +:+ "]").
Proof. done. Qed.

Create HintDb json.
#[export] Hint Resolve opt_member_ok : json.
#[export] Hint Resolve jv_quote jv_uint jv_int jv_bool jv_obj : json.
#[export] Hint Rewrite @fld_string @fld_uint @fld_int @fld_bool using (try assumption) : json.

(** One member at a time. *)
Lemma set_member {T} strict (fs : list (string * setter T)) k raw f t t' l :
  field_for fs k = Some f -> f raw t = Some t' ->
  set_members strict fs ((k, raw) :: l) t = set_members strict fs l t'.
Proof. intros Hf Ht. simpl. by rewrite Hf, Ht. Qed.

Lemma set_opt_member {T} strict (fs : list (string * setter T)) k v (upd : string -> T -> T) t l :
  field_for fs k = Some (fld dec_string upd) -> ValidString v = true -> upd "" t = t ->
  set_members strict fs (opt_member k v ++ l) t = set_members strict fs l (upd v t).
Proof.
  intros Hf Hv Hu. unfold opt_member. case_bool_decide as E; simpl; [by rewrite E, Hu|].
  by rewrite Hf, fld_string.
Qed.

(** The members of a struct, text by text. *)
Ltac members_ok :=
  repeat first [apply Forall_app_2 | apply Forall_cons_2 | apply Forall_nil_2
               | apply opt_member_ok; reflexivity];
  try (split; [reflexivity | cbn [snd]; auto with json]).

#[global] Opaque quote obj scan_value members.

(** ** Examples *)
Example Valid_ex1 : Valid "{ }" = true. Proof. reflexivity. Qed.
Example Valid_ex2 : Valid "[1, 2.5e3, {} ] x" = false. Proof. reflexivity. Qed.
Example Valid_ex3 : Valid "01" = false. Proof. reflexivity. Qed.
