(* ===== verification/Decoded.v ===== *)
(** * What decoded values satisfy

    A text that was decoded is valid UTF-8 whatever the bytes were; a number is
    within its width; and an invariant that every field's setter keeps holds of
    the decoded struct. *)

From stdpp Require Import base strings list.
From Stdlib Require Import ZArith NArith Ascii.
From S2P Require Import Prelude.
From S2P Require Import GoStrings.
From S2P Require Import Json.

(** ** Texts *)

Lemma encode_error x : runes (encode_rune rune_error +:+ x) = (rune_error, encode_rune rune_error) :: runes x.
Proof. reflexivity. Qed.

Lemma sanitize_valid s : ValidString (sanitize s) = true.
Proof.
  unfold sanitize, ValidString.
  induction s as [|a r Ha Hr IH|v b x Hb IH|a r Hr IH] using rune_ind; [done|..].
  - rewrite Hr. cbn [fmap list_fmap of_runes foldr].
    assert (code a <> rune_error) as Hne by (intros E; rewrite E in Ha; done).
    assert (sanitize_rune (code a, String a "") = (code a, String a "")) as ->.
    { unfold sanitize_rune. cbn [fst snd]. by rewrite (proj2 (N.eqb_neq _ _) Hne). }
    cbn [snd].
    change (String a "" +:+ ?y) with (String a y).
    rewrite runes_ascii_cons by by apply N.ltb_lt. cbn [forallb]. rewrite (proj2 (N.eqb_neq _ _) Hne). exact IH.
  - pose proof Hb as (Hv & Hl & _ & _ & _ & Hx). rewrite Hx. cbn [fmap list_fmap of_runes foldr].
    assert (sanitize_rune (v, b) = (v, b)) as -> by (unfold sanitize_rune; cbn [fst snd]; by rewrite bool_decide_false, andb_false_r).
    cbn [fst snd]. rewrite Hx. cbn [forallb]. rewrite bool_decide_false, andb_false_r by done. exact IH.
  - rewrite Hr. cbn [fmap list_fmap of_runes foldr].
    change (sanitize_rune (rune_error, String a "")) with (rune_error, encode_rune rune_error). cbn [snd].
    rewrite encode_error. cbn [forallb]. exact IH.
Qed.

Lemma unquote_valid raw s : unquote raw = Some s -> ValidString s = true.
Proof.
  unfold unquote. destruct raw as [|c r]; [done|]. destruct (eqc c dq); [|done].
  destruct (unquote_body r); [|done]. intros [= <-]. apply sanitize_valid.
Qed.

(** ** Numbers *)

Lemma ParseUint_bound s bits n : ParseUint s bits = Some n -> (n < 2 ^ bits)%N.
Proof.
  destruct s as [|c s]; [done|]. rewrite ParseUint_unfold by done. destruct (dec_value 0 _) as [m|]; [|done].
  destruct (N.ltb_spec m (2 ^ bits)); [|done]. by intros [= <-].
Qed.

Lemma dec_uint_below bits raw n : dec_uint bits raw = Some n -> (n < 2 ^ bits)%N.
Proof. apply ParseUint_bound. Qed.

(** ** Structs *)

Section invariant.
Context {T : Type} (P : T -> Prop).

Definition setter_keeps (f : setter T) : Prop := forall raw t t', P t -> f raw t = Some t' -> P t'.

Lemma find_field_in (fs : list (string * setter T)) k f : find_field fs k = Some f -> f ∈ fs.*2.
Proof. induction fs as [|[n g] fs IH]; [done|]. cbn [find_field]. case_bool_decide; [intros [= ->]; left|right; auto]. Qed.

Lemma field_for_in (fs : list (string * setter T)) k f : field_for fs k = Some f -> f ∈ fs.*2.
Proof.
  unfold field_for. destruct (find_field fs k) as [g|] eqn:E; [intros [= <-]; by eapply find_field_in|].
  intros Hf%find_field_in. rewrite <- list_fmap_compose in Hf.
  assert (snd ∘ (fun '(n, f) => (ToLower n, f)) <$> fs = fs.*2) as <-; [|done].
  apply list_fmap_ext. by intros ? [].
Qed.

Context (fs : list (string * setter T)) (Hfs : Forall setter_keeps fs.*2).

Lemma set_members_keeps strict kvs : forall t t', P t -> set_members strict fs kvs t = Some t' -> P t'.
Proof.
  induction kvs as [|[k raw] kvs IH]; intros t t' Ht; cbn [set_members]; [by intros [= <-]|].
  destruct (field_for fs k) as [f|] eqn:Ef.
  - destruct (f raw t) as [t1|] eqn:E; [|done]. apply IH. apply field_for_in in Ef.
    rewrite Forall_forall in Hfs. by eapply Hfs.
  - destruct strict; [done|by apply IH].
Qed.

Lemma decode_obj_keeps strict zero raw t : P zero -> decode_obj strict fs zero raw = Some t -> P t.
Proof.
  intros Hz. unfold decode_obj. destruct (is_null raw); [by intros [= <-]|]. destruct (members raw); [|done]. by apply set_members_keeps.
Qed.

Lemma decode_text_keeps strict zero s t : P zero -> decode_text strict fs zero s = Some t -> P t.
Proof. intros Hz. unfold decode_text. destruct (the_value s); [|done]. by apply decode_obj_keeps. Qed.
End invariant.

(** A field's setter, from what its decoder promises. *)
Lemma fld_keeps {T V} (P : T -> Prop) (R : V -> Prop) (dec : string -> option V) (upd : V -> T -> T) :
  (forall raw v, dec raw = Some v -> R v) -> (forall v t, R v -> P t -> P (upd v t)) -> setter_keeps P (fld dec upd).
Proof.
  intros Hd Hu raw t t' Ht. unfold fld. destruct (is_null raw); [by intros [= <-]|].
  destruct (dec raw) as [v|] eqn:E; [|done]. intros [= <-]. apply Hu; [by eapply Hd|done].
Qed.

(** One goal per field of a struct. *)
Ltac each_field := repeat apply Forall_cons_2; try apply Forall_nil_2; cbn [snd].
