(* ===== verification/Text.v ===== *)
(** * Trimming and lowering UTF-8 text

    strings.TrimSpace works on runes: cutting whole runes off either end of a
    text leaves the segmentation of the rest alone, so trimming is idempotent
    and commutes with lowering. *)

From stdpp Require Import base gmap strings list.
From Stdlib Require Import ZArith NArith Ascii.
From S2P Require Import Prelude.
From S2P Require Import GoStrings.
From S2P Require Import Json.

Lemma of_runes_cons r l : of_runes (r :: l) = snd r +:+ of_runes l.
Proof. done. Qed.

Lemma of_runes_app l l' : of_runes (l ++ l') = of_runes l +:+ of_runes l'.
Proof. induction l as [|r l IH]; [done|]. cbn [app]. by rewrite !of_runes_cons, IH, sapp_assoc. Qed.

(** The first rune of a text, its bytes and what follows. *)
Lemma runes_head s r l : runes s = r :: l ->
  exists x, s = snd r +:+ x /\ l = runes x /\
    ((exists a, snd r = String a "" /\ r = (code a, String a "") /\ (code a < 128)%N) \/
     rune_chunk (fst r) (snd r) \/
     exists a, r = (rune_error, String a "") /\ (128 <= code a)%N).
Proof.
  destruct s as [|a s]; [done|]. intros E.
  destruct (runes_cases (String a s)) as [[Ha Hr]|[(v & b & x & Hb & Es & Hne & Hr)|Hr]];
    rewrite E in Hr; injection Hr as -> ->.
  - exists s. split_and!; [done|done|left]. by exists a.
  - exists x. split_and!; [done|done|right; left]. done.
  - exists s. split_and!; [done|done|]. destruct (N.ltb_spec (code a) 128) as [Ha|Ha].
    + left. exists a. rewrite runes_ascii_cons in E by by apply N.ltb_lt.
      injection E as E1. split_and!; [done|by rewrite E1|done].
    + right; right. by exists a.
Qed.

Lemma of_runes_runes s : of_runes (runes s) = s.
Proof.
  induction s as [|a r Ha Hr IH|v b x Hb IH|a r Hr IH] using rune_ind; [done|..].
  - rewrite Hr, of_runes_cons, IH. done.
  - destruct Hb as (_ & _ & _ & _ & _ & Hx). by rewrite Hx, of_runes_cons, IH.
  - rewrite Hr, of_runes_cons, IH. done.
Qed.

(** A list of runes that is how its text is read. *)
Definition seg (l : list (N * string)) : Prop := runes (of_runes l) = l.

Lemma seg_tail r l : seg (r :: l) -> seg l.
Proof.
  unfold seg. intros E. destruct (runes_head _ _ _ E) as (x & Ex & El & _).
  rewrite of_runes_cons in Ex. apply sapp_inj_l in Ex. by rewrite Ex.
Qed.

Lemma seg_app l l' : seg (l ++ l') -> seg l'.
Proof. induction l as [|r l IH]; [done|]. intros Hs. apply IH. by eapply seg_tail. Qed.

Lemma rune_prefix r x y l : runes (snd r +:+ (x +:+ y)) = r :: l -> runes (snd r +:+ x) = r :: runes x.
Proof.
  intros E. destruct (runes_head _ _ _ E) as (z & _ & _ & [(a & Ea & Er & Ha)|[Hb|(a & Er & Ha)]]).
  - subst r. simpl. by rewrite (proj2 (N.ltb_lt _ _)) by done.
  - destruct Hb as (_ & _ & _ & _ & _ & Hx). rewrite Hx. by destruct r.
  - subst r. cbn [snd] in *. rewrite app_String, app_Empty in *.
    destruct (runes_cases (String a x)) as [[Ha' _]|[(v & b & x' & Hb & Es & Hne & _)|Hr]]; [lia| |done].
    exfalso. rewrite <- app_String, Es, sapp_assoc in E.
    destruct Hb as (_ & Hl & _ & _ & _ & Hx). rewrite Hx in E. injection E as _ Eb _. by subst b.
Qed.

Lemma seg_init l l' : seg (l ++ l') -> seg l.
Proof.
  induction l as [|r l IH]; [done|]. intros Hs. pose proof (seg_tail _ _ Hs) as Ht.
  unfold seg in *. cbn [app] in Hs. rewrite of_runes_cons, of_runes_app in Hs.
  rewrite of_runes_cons, (rune_prefix r _ _ _ Hs). by rewrite IH.
Qed.

Lemma drop_spaces_suffix l : exists k, l = k ++ drop_spaces l.
Proof.
  induction l as [|r l [k IH]]; [by exists []|]. simpl. destruct (IsSpace (fst r)).
  - exists (r :: k). simpl. by f_equal.
  - by exists [].
Qed.

Lemma drop_spaces_idem l : drop_spaces (drop_spaces l) = drop_spaces l.
Proof.
  induction l as [|r l IH]; [done|]. simpl. destruct (IsSpace (fst r)) eqn:E; [done|].
  simpl. by rewrite E.
Qed.

(** No space rune at either end. *)
Definition trimmed (l : list (N * string)) : Prop :=
  drop_spaces l = l /\ drop_spaces (rev l) = rev l.

Lemma TrimSpace_runes s : exists l, TrimSpace s = of_runes l /\ seg l /\ trimmed l.
Proof.
  unfold TrimSpace. set (l1 := drop_spaces (runes s)).
  assert (seg l1) as Hs1.
  { destruct (drop_spaces_suffix (runes s)) as [k Hk]. apply (seg_app k).
    unfold l1. rewrite <- Hk. unfold seg. by rewrite of_runes_runes. }
  destruct (drop_spaces_suffix (rev l1)) as [k Hk].
  set (l2 := drop_spaces (rev l1)) in *.
  assert (l1 = rev l2 ++ rev k) as E1.
  { rewrite <- rev_app_distr, <- Hk. by rewrite rev_involutive. }
  exists (rev l2). split; [done|]. split; [|split].
  - apply (seg_init _ (rev k)). by rewrite <- E1.
  - assert (drop_spaces l1 = l1) as Hd by apply drop_spaces_idem.
    rewrite E1 in Hd. clear - Hd. destruct (rev l2) as [|r l]; [done|]. cbn [app drop_spaces] in *.
    destruct (IsSpace (fst r)); [|done]. exfalso.
    destruct (drop_spaces_suffix (l ++ rev k)) as [j Hj]. rewrite Hd in Hj.
    apply (f_equal length) in Hj. generalize dependent (l ++ rev k). intros m _ Hj.
    rewrite length_app in Hj. simpl in Hj. lia.
  - rewrite rev_involutive. apply drop_spaces_idem.
Qed.

Lemma TrimSpace_trimmed l : seg l -> trimmed l -> TrimSpace (of_runes l) = of_runes l.
Proof.
  intros Hs [H1 H2]. unfold TrimSpace. rewrite Hs, H1, H2. by rewrite rev_involutive.
Qed.

(** ** Lowering *)

Definition lower_rune (r : N * string) : N * string :=
  if (fst r <? 128)%N then (code (lower_char (chr (fst r))), String (lower_char (chr (fst r))) "") else r.

Lemma lower_high c : (128 <= code c)%N -> lower_char c = c.
Proof. destruct c as [[] [] [] [] [] [] [] []]; vm_compute code; intros; try lia; done. Qed.

Lemma lower_low c : (code c < 128)%N -> (code (lower_char c) < 128)%N /\ IsSpace (code (lower_char c)) = IsSpace (code c).
Proof. destruct c as [[] [] [] [] [] [] [] []]; vm_compute code; intros; try lia; by vm_compute. Qed.

Lemma ToLower_app a b : ToLower (a +:+ b) = ToLower a +:+ ToLower b.
Proof. unfold ToLower. induction a as [|c a IH]; [done|]. rewrite app_String. simpl. by rewrite IH. Qed.

Lemma ToLower_high b : sforall (fun c => negb (code c <? 128)%N) b = true -> ToLower b = b.
Proof.
  unfold ToLower. induction b as [|c b IH]; [done|]. simpl. rewrite andb_true_iff, negb_true_iff, N.ltb_ge.
  intros [Hc Hb]. by rewrite lower_high, IH.
Qed.

Lemma ToLower_prefix_high r b x :
  sforall (fun c => negb (code c <? 128)%N) b = true -> ToLower r = b +:+ x -> exists y, r = b +:+ y.
Proof.
  revert r. induction b as [|c b IH]; intros r Hb Hr; [by exists r|].
  simpl in Hb. apply andb_true_iff in Hb as [Hc Hb]. apply negb_true_iff, N.ltb_ge in Hc.
  destruct r as [|a r]; [done|]. unfold ToLower in *. simpl in Hr. injection Hr as Ha Hr.
  destruct (IH r Hb Hr) as [y ->]. exists y. rewrite app_String. f_equal.
  destruct (N.ltb_spec (code a) 128) as [Hl|Hl].
  - pose proof (lower_low a Hl) as [? _]. rewrite Ha in *. lia.
  - by rewrite lower_high in Ha.
Qed.

Lemma runes_ToLower s : runes (ToLower s) = lower_rune <$> runes s.
Proof.
  induction s as [|a r Ha Hr IH|v b x Hb IH|a r Hr IH] using rune_ind; [done|..].
  - rewrite Hr. cbn [fmap list_fmap]. rewrite <- IH.
    change (ToLower (String a r)) with (String (lower_char a) (ToLower r)).
    destruct (lower_low a Ha) as [Hl _]. rewrite runes_ascii_cons by by apply N.ltb_lt.
    unfold lower_rune. cbn [fst]. by rewrite (proj2 (N.ltb_lt _ _)), chr_code.
  - pose proof Hb as (Hv & _ & Hh & _ & _ & Hx). rewrite Hx, ToLower_app, ToLower_high by done.
    rewrite Hx. cbn [fmap list_fmap]. rewrite IH. unfold lower_rune at 2. cbn [fst].
    by rewrite (proj2 (N.ltb_ge _ _)).
  - rewrite Hr. cbn [fmap list_fmap]. rewrite <- IH.
    assert (128 <= code a)%N as Ha.
    { destruct (N.ltb_spec (code a) 128) as [Ha|Ha]; [|done].
      rewrite runes_ascii_cons in Hr by by apply N.ltb_lt. injection Hr as Hr. rewrite Hr in Ha. done. }
    change (ToLower (String a r)) with (String (lower_char a) (ToLower r)). rewrite lower_high by done.
    change (lower_rune (rune_error, String a "")) with (rune_error, String a "").
    destruct (runes_cases (String a (ToLower r))) as [[Ha' _]|[(v & b & x & Hb & Es & Hne & _)|Hc]]; [lia| |done].
    exfalso. pose proof Hb as (_ & Hl & Hh & _ & _ & Hx). destruct b as [|a' b]; [done|].
    rewrite app_String in Es. injection Es as <- Es. simpl in Hh. apply andb_true_iff in Hh as [_ Hh].
    destruct (ToLower_prefix_high _ _ _ Hh Es) as [y ->].
    rewrite <- app_String, Hx in Hr. injection Hr as _ -> _. done.
Qed.


Lemma lower_rune_space r : IsSpace (fst (lower_rune r)) = IsSpace (fst r).
Proof.
  unfold lower_rune. destruct (N.ltb_spec (fst r) 128) as [Hr|Hr]; [|done]. simpl.
  assert (code (chr (fst r)) = fst r) as E by (apply code_chr; lia).
  pose proof (lower_low (chr (fst r))) as Hl. rewrite E in Hl. by apply Hl.
Qed.

Lemma drop_spaces_lower l : drop_spaces (lower_rune <$> l) = lower_rune <$> drop_spaces l.
Proof.
  induction l as [|r l IH]; [done|]. cbn [fmap list_fmap drop_spaces].
  rewrite lower_rune_space. by destruct (IsSpace (fst r)).
Qed.

(** Normalising a digest twice is normalising it once. *)
Lemma TrimSpace_ToLower s : TrimSpace (ToLower (TrimSpace s)) = ToLower (TrimSpace s).
Proof.
  destruct (TrimSpace_runes s) as (l & -> & Hs & [H1 H2]).
  set (t := ToLower (of_runes l)).
  assert (runes t = lower_rune <$> l) as E by (unfold t; by rewrite runes_ToLower, Hs).
  rewrite <- (of_runes_runes t), E. apply TrimSpace_trimmed.
  - unfold seg. by rewrite <- E, of_runes_runes, E.
  - split; rewrite <- ?map_rev; rewrite drop_spaces_lower; [by rewrite H1|by rewrite H2].
Qed.
