(* ===== verification/Words.v ===== *)
(** * strings.Fields

    The words of a text: what stands between white space. *)

From stdpp Require Import base strings list.
From Stdlib Require Import NArith Ascii.
From S2P Require Import Prelude.
From S2P Require Import GoStrings.

(** strings.Fields *)
Definition push (field : string) (l : list string) : list string := if bool_decide (field = "") then l else field :: l.

Fixpoint fields_of (acc : string) (l : list (N * string)) : list string :=
  match l with
  | [] => push acc []
  | (r, b) :: rest => if IsSpace r then push acc (fields_of "" rest) else fields_of (acc +:+ b) rest
  end.

Definition Fields (s : string) : list string := fields_of "" (runes s).

(** ** The words of a line *)

Definition visible (c : ascii) : bool := (code c <? 128)%N && negb (IsSpace (code c)).

Definition word (f : string) : Prop := f <> "" /\ sforall visible f = true.

Lemma fields_word f : forall acc r, sforall visible f = true -> fields_of acc (runes (f +:+ r)) = fields_of (acc +:+ f) (runes r).
Proof.
  induction f as [|c f IH]; intros acc r Hf; [by rewrite sapp_nil_r|].
  cbn [sforall] in Hf. apply andb_true_iff in Hf as [[Hc Hs]%andb_true_iff Hf]. change (String c f +:+ r) with (String c (f +:+ r)).
  rewrite runes_ascii_cons by done. cbn [fields_of]. rewrite (proj1 (negb_true_iff _) Hs), IH by done.
  change (String c f) with (String c "" +:+ f). by rewrite sapp_assoc.
Qed.

(** Words with a blank before each, and the end of the line. *)
Definition line_of (fields : list string) : string := foldr (fun f rest => " " +:+ f +:+ rest) (String (chr 10) "") fields.

Lemma fields_line fields acc : Forall word fields -> fields_of acc (runes (line_of fields)) = push acc fields.
Proof.
  revert acc. induction fields as [|f fields IH]; intros acc Hf.
  - reflexivity.
  - apply Forall_cons in Hf as [[Hne Hv] Hf]. cbn [line_of foldr]. fold (line_of fields).
    change (" " +:+ f +:+ line_of fields) with (String " " (f +:+ line_of fields)).
    rewrite runes_ascii_cons by done. cbn [fields_of]. change (IsSpace (code " ")) with true. cbn iota.
    rewrite fields_word, IH by done. change ("" +:+ f) with f. unfold push at 2. by rewrite bool_decide_false.
Qed.

Lemma Fields_line fields : Forall word fields -> Fields (line_of fields) = fields.
Proof. intros Hf. unfold Fields. by rewrite fields_line. Qed.
