(* ===== verification/Os.v ===== *)
(** * The operating system under the managers

    - [fs], the tree below the agent's state directory: a finite map from paths
      relative to that directory ("xray-config/current.json") to nodes;
    - [io], a state monad over a [world]; every system call consults the
      environment [Env], which may let it through, make it fail with an error of
      the environment's choosing, or kill the agent before the call takes place
      ([Crash]).  A theorem that quantifies over [Env] covers every pattern of
      I/O failures and every crash point;
    - [wp], the weakest precondition of a program with one postcondition for
      returns and one for crashes, and the rules of the system calls.

    fsync has no effect on what a restarted agent sees: crashes are of the
    process, not of the machine.  Permission checks are not modelled (the agent
    owns its state directory); permission bits are, because the code tests them. *)

From stdpp Require Import base gmap strings list pretty fin_maps sorting.
From Stdlib Require Import ZArith NArith Ascii.
From S2P Require Import Prelude GoStrings.

(** ** File trees *)

Inductive node : Set :=
  | NFile (content : string) (mode : N) (mtime : Z)
  | NDir (mode : N) (mtime : Z)
  | NLink (target : string).

Abbreviation fs := (gmap string node).

Inductive file_kind : Set := KRegular | KDir | KSymlink.

(** os.FileInfo: type, permission bits, size and modification time (ns). *)
Record FileInfo : Set := FI {
  fi_kind : file_kind;
  fi_perm : N;
  fi_size : Z;
  fi_mtime : Z
}.

Definition IsRegular (i : FileInfo) : bool :=
  match fi_kind i with KRegular => true | _ => false end.
Definition IsDir (i : FileInfo) : bool :=
  match fi_kind i with KDir => true | _ => false end.

Definition info_of (n : node) : FileInfo :=
  match n with
  | NFile c m t => FI KRegular m (Z.of_N (slen c)) t
  | NDir m t => FI KDir m 0 t
  | NLink t => FI KSymlink 511 (Z.of_N (slen t)) 0
  end.

Definition errNotExist : error := MkError "file does not exist" [SNotExist] None.
Definition errExist : error := errorsNew "file exists".
Definition errNotDir : error := errorsNew "not a directory".
Definition errIsDir : error := errorsNew "is a directory".
Definition errInvalid : error := errorsNew "invalid argument".
Definition errNotEmpty : error := errorsNew "directory not empty".
Definition errLoop : error := errorsNew "too many levels of symbolic links".

Definition is_dir (f : fs) (d : string) : bool :=
  bool_decide (d = ".") || match f !! d with Some (NDir _ _) => true | _ => false end.

(** The entry names of directory [d]: the tails of the paths one level below. *)
Definition child_of (d p : string) : option string :=
  let pre := d +:+ "/" in
  if HasPrefix p pre then
    let n := sdrop (String.length pre) p in
    if bool_decide (n = "") || contains_char slash n then None else Some n
  else None.

Definition entry_names (f : fs) (d : string) : list string :=
  merge_sort String.le (omap (fun kv => child_of d kv.1) (map_to_list f)).

(** ** Pure file-system operations *)

Definition fs_readlink (f : fs) (p : string) : result string :=
  match f !! p with
  | Some (NLink t) => Ok t
  | Some _ => Err errInvalid
  | None => Err errNotExist
  end.

Definition fs_lstat (f : fs) (p : string) : result FileInfo :=
  match f !! p with
  | Some n => Ok (info_of n)
  | None => Err errNotExist
  end.

(** Follow a symbolic link in the last component, at most [fuel] times. *)
Fixpoint follow (fuel : nat) (f : fs) (p : string) : result node :=
  match f !! p with
  | Some (NLink t) =>
      match fuel with
      | O => Err errLoop
      | S n => follow n f (Join (Dir p) t)
      end
  | Some n => Ok n
  | None => Err errNotExist
  end.

Definition max_links : nat := 40.
#[global] Opaque max_links.

Definition fs_stat (f : fs) (p : string) : result FileInfo :=
  match follow max_links f p with Ok n => Ok (info_of n) | Err e => Err e end.

Definition fs_readfile (f : fs) (p : string) : result string :=
  match follow max_links f p with
  | Ok (NFile c _ _) => Ok c
  | Ok _ => Err errIsDir
  | Err e => Err e
  end.

Definition fs_remove (f : fs) (p : string) : fs * result unit :=
  match f !! p with
  | None => (f, Err errNotExist)
  | Some (NDir _ _) =>
      match entry_names f p with
      | [] => (delete p f, Ok tt)
      | _ => (f, Err errNotEmpty)
      end
  | Some _ => (delete p f, Ok tt)
  end.

(** rename(2) of a file or a link; directories go through [fs_rename_dir]. *)
Definition fs_rename (f : fs) (a b : string) : fs * result unit :=
  match f !! a with
  | None => (f, Err errNotExist)
  | Some (NDir _ _) => (f, Err errInvalid)
  | Some n =>
      match f !! b with
      | Some (NDir _ _) => (f, Err errIsDir)
      | _ => if is_dir f (Dir b) then (<[b := n]> (delete a f), Ok tt) else (f, Err errNotExist)
      end
  end.

Definition fs_symlink (f : fs) (t p : string) : fs * result unit :=
  match f !! p with
  | Some _ => (f, Err errExist)
  | None => if is_dir f (Dir p) then (<[p := NLink t]> f, Ok tt) else (f, Err errNotExist)
  end.

(** mkdir(2) when the directory is missing; an existing directory is success. *)
Definition fs_mkdir (f : fs) (p : string) (mode : N) (t : Z) : fs * result unit :=
  if is_dir f p then (f, Ok tt)
  else match f !! p with
       | Some _ => (f, Err errNotDir)
       | None => if is_dir f (Dir p) then (<[p := NDir mode t]> f, Ok tt) else (f, Err errNotExist)
       end.

Definition fs_chmod (f : fs) (p : string) (mode : N) : fs * result unit :=
  match f !! p with
  | Some (NFile c _ t) => (<[p := NFile c mode t]> f, Ok tt)
  | Some (NDir _ t) => (<[p := NDir mode t]> f, Ok tt)
  | Some (NLink _) => (f, Err errInvalid)
  | None => if bool_decide (p = ".") then (f, Ok tt) else (f, Err errNotExist)
  end.

Definition fs_create (f : fs) (p : string) (mode : N) (t : Z) : fs * result unit :=
  match f !! p with
  | Some _ => (f, Err errExist)
  | None => if is_dir f (Dir p) then (<[p := NFile "" mode t]> f, Ok tt) else (f, Err errNotExist)
  end.

(** Write at the end of an open file. *)
Definition fs_append (f : fs) (p c : string) (t : Z) : fs * result unit :=
  match f !! p with
  | Some (NFile c0 m _) => (<[p := NFile (c0 +:+ c) m t]> f, Ok tt)
  | _ => (f, Err errInvalid)
  end.

(** ** Environments, worlds and programs *)

Inductive fault : Set :=
  | NoFault
  | FailWith (msg : string)
  | Crash.

(** What the environment decides at the n-th system call: a fault, the clock
    (ns since the epoch) and a random number. *)
Class Env : Type := {
  fault_at : nat -> fault;
  time_at : nat -> Z;
  rand_at : nat -> N
}.

(** The supervised Xray process: the configuration target and the executable
    it was started with. *)
Record proc : Set := Proc { run_config : string; run_binary : string }.

Record world : Set := World {
  w_fs : fs;
  w_pc : nat;
  w_run : option proc
}.

Definition tick (w : world) : world := World (w_fs w) (S (w_pc w)) (w_run w).
Definition set_fs (f : fs) (w : world) : world := World f (w_pc w) (w_run w).
Definition set_run (r : option proc) (w : world) : world := World (w_fs w) (w_pc w) r.

Inductive outcome (A : Type) : Type :=
  | Done (a : A)
  | Crashed.
Arguments Done {A} _.
Arguments Crashed {A}.

Definition io (A : Type) : Type := world -> world * outcome A.

Definition ret {A} (a : A) : io A := fun w => (w, Done a).

Definition bind {A B} (m : io A) (k : A -> io B) : io B :=
  fun w => match m w with
           | (w', Done a) => k a w'
           | (w', Crashed) => (w', Crashed)
           end.

(** [if x, err := m; err != nil { h }], then [k x] *)
Definition try {A B} (m : io (result A)) (h : error -> io B) (k : A -> io B) : io B :=
  bind m (fun r => match r with Ok a => k a | Err e => h e end).

Notation "'let!' x ':=' m 'in' k" := (bind m (fun x => k))
  (at level 200, x pattern, m at level 100, k at level 200) : go_scope.
Notation "'try!' x ':=' m 'catch' e '=>' h 'in' k" :=
  (try m (fun e => h) (fun x => k))
  (at level 200, x pattern, e name, m at level 100, h at level 100, k at level 200) : go_scope.

(** [if err != nil { return ..., err }] *)
Notation "'try!' x ':=' m 'in' k" := (try m (fun e => ret (Err e)) (fun x => k))
  (at level 200, x pattern, m at level 100, k at level 200) : go_scope.

(** [defer cleanup]: runs when the body returns, not when the agent dies. *)
Definition defer {A B} (cleanup : io B) (body : io A) : io A :=
  let! r := body in let! _ := cleanup in ret r.

(** A pure result inside a program. *)
Definition lift {A} (r : result A) : io (result A) := ret r.

Fixpoint fs_mkdirall (fuel : nat) (f : fs) (p : string) (mode : N) (t : Z) : fs * result unit :=
  if is_dir f p then (f, Ok tt)
  else match fuel with
       | O => (f, Err errLoop)
       | S n => match fs_mkdirall n f (Dir p) mode t with
                | (f1, Ok _) => fs_mkdir f1 p mode t
                | (f1, Err e) => (f1, Err e)
                end
       end.

(** os.CreateTemp: the first unused name [prefix ++ k] with k at or above the
    random number.  One of [S (size f)] candidates is free. *)
Fixpoint first_free (f : fs) (pre : string) (k : N) (fuel : nat) : option N :=
  match fuel with
  | O => None
  | S n => match f !! (pre +:+ FormatUint k) with
           | None => Some k
           | Some _ => first_free f pre (N.succ k) n
           end
  end.

Definition temp_name (f : fs) (pre : string) (k : N) : option string :=
  match first_free f pre k (S (size f)) with
  | Some k' => Some (pre +:+ FormatUint k')
  | None => None
  end.

Section system_calls.
Context `{Env}.

(** One system call: the environment first, then the effect. *)
Definition sys {A} (op : Z -> N -> fs -> fs * result A) : io (result A) := fun w =>
  match fault_at (w_pc w) with
  | Crash => (tick w, Crashed)
  | FailWith m => (tick w, Done (Err (errorsNew m)))
  | NoFault =>
      match op (time_at (w_pc w)) (rand_at (w_pc w)) (w_fs w) with
      | (f, r) => (set_fs f (tick w), Done r)
      end
  end.

(** A call that only looks. *)
Definition sys_read {A} (op : fs -> result A) : io (result A) :=
  sys (fun _ _ f => (f, op f)).

Definition Readlink (p : string) : io (result string) := sys_read (fun f => fs_readlink f p).
Definition Lstat (p : string) : io (result FileInfo) := sys_read (fun f => fs_lstat f p).
Definition Stat (p : string) : io (result FileInfo) := sys_read (fun f => fs_stat f p).
Definition ReadFile (p : string) : io (result string) := sys_read (fun f => fs_readfile f p).

(** os.ReadDir: the entry names in order; a missing directory is ErrNotExist. *)
Definition ReadDir (p : string) : io (result (list string)) :=
  sys_read (fun f => if is_dir f p then Ok (entry_names f p)
                     else match f !! p with Some _ => Err errNotDir | None => Err errNotExist end).

Definition Remove (p : string) : io (result unit) := sys (fun _ _ f => fs_remove f p).
Definition Rename (a b : string) : io (result unit) := sys (fun _ _ f => fs_rename f a b).
Definition Symlink (t p : string) : io (result unit) := sys (fun _ _ f => fs_symlink f t p).
Definition Chmod (p : string) (m : N) : io (result unit) := sys (fun _ _ f => fs_chmod f p m).
Definition MkdirAll (p : string) (m : N) : io (result unit) :=
  sys (fun t _ f => fs_mkdirall (length (Split p slash)) f p m t).
Definition Write (p c : string) : io (result unit) := sys (fun t _ f => fs_append f p c t).

(** file.Sync and file.Close *)
Definition Sync (p : string) : io (result unit) :=
  sys_read (fun f => match f !! p with Some _ => Ok tt | None => Err errInvalid end).
Definition Close (p : string) : io (result unit) := sys_read (fun _ => Ok tt).

(** os.CreateTemp(directory, prefix ++ "*"), mode 0600 *)
Definition CreateTemp (d prefix : string) : io (result string) :=
  sys (fun t r f =>
    match temp_name f (d +:+ "/" +:+ prefix) r with
    | Some p => match fs_create f p 384 t with
                | (f', Ok _) => (f', Ok p)
                | (f', Err e) => (f', Err e)
                end
    | None => (f, Err errExist)
    end).

(** os.Open(directory) and directory.Sync() *)
Definition OpenDir (p : string) : io (result unit) :=
  sys_read (fun f => if is_dir f p then Ok tt else Err errNotExist).
Definition SyncDir (p : string) : io (result unit) := sys_read (fun _ => Ok tt).

(** time.Now(), in nanoseconds *)
Definition Now : io Z := fun w => (tick w, Done (time_at (w_pc w))).

(** ** Weakest preconditions *)

Definition wp {A} (m : io A) (Q : A -> world -> Prop) (C : world -> Prop) (w : world) : Prop :=
  match m w with
  | (w', Done a) => Q a w'
  | (w', Crashed) => C w'
  end.

Lemma wp_ret {A} (a : A) Q C w : Q a w -> wp (ret a) Q C w.
Proof. done. Qed.

Lemma wp_bind {A B} (m : io A) (k : A -> io B) Q C w :
  wp m (fun a => wp (k a) Q C) C w -> wp (bind m k) Q C w.
Proof. unfold wp, bind. by destruct (m w) as [w' [a|]]. Qed.

Lemma wp_try {A B} (m : io (result A)) (h : error -> io B) (k : A -> io B) Q C w :
  wp m (fun r => match r with Ok a => wp (k a) Q C | Err e => wp (h e) Q C end) C w ->
  wp (try m h k) Q C w.
Proof. intros Hm. apply wp_bind. unfold wp in *. by destruct (m w) as [w' [[a|e]|]]. Qed.

Lemma wp_mono {A} (m : io A) (Q Q' : A -> world -> Prop) (C C' : world -> Prop) w :
  wp m Q C w -> (forall a w', Q a w' -> Q' a w') -> (forall w', C w' -> C' w') -> wp m Q' C' w.
Proof. unfold wp. destruct (m w) as [w' [a|]]; auto. Qed.

Lemma wp_defer {A B} (c : io B) (m : io A) Q C w :
  wp m (fun a => wp c (fun _ => Q a) C) C w -> wp (defer c m) Q C w.
Proof.
  intros Hm. apply wp_bind. eapply wp_mono; [exact Hm| |done].
  intros a w' Hc. by apply wp_bind.
Qed.

(** From now on the environment injects nothing. *)
Definition calm (w : world) : Prop := forall n, (w_pc w <= n)%nat -> fault_at n = NoFault.

(** [after w f w']: a later world with tree [f] and the same Xray process. *)
Definition after (w : world) (f : fs) (w' : world) : Prop :=
  w_fs w' = f /\ w_run w' = w_run w /\ (w_pc w <= w_pc w')%nat.

Lemma calm_after w f w' : after w f w' -> calm w -> calm w'.
Proof. intros (_ & _ & Hpc) Hc n Hn. apply Hc. lia. Qed.

Lemma after_refl w : after w (w_fs w) w.
Proof. done. Qed.

Lemma after_trans w f1 w1 f2 w2 : after w f1 w1 -> after w1 f2 w2 -> after w f2 w2.
Proof. intros (? & ? & ?) (? & ? & ?). split_and!; [done|congruence|lia]. Qed.

(** The rules of a system call, relative to an earlier world [w0]: killed
    before it, failed by the environment (never when calm), or carried out. *)
Lemma wp_sys {A} (op : Z -> N -> fs -> fs * result A) w0 f Q C w :
  after w0 f w ->
  (forall w', ~ calm w0 -> after w0 f w' -> C w') ->
  (forall m w', ~ calm w0 -> after w0 f w' -> Q (Err (errorsNew m)) w') ->
  (forall n r w', after w0 (op (time_at n) r f).1 w' -> Q (op (time_at n) r f).2 w') ->
  wp (sys op) Q C w.
Proof.
  intros Hw HC HF HO. unfold wp, sys.
  assert (fault_at (w_pc w) <> NoFault -> ~ calm w0) as Hn.
  { intros Hf Hc. apply Hf, Hc. apply Hw. }
  destruct Hw as (Hfs & Hrun & Hpc). rewrite Hfs.
  destruct (fault_at (w_pc w)) as [|m|] eqn:E.
  - destruct (op _ _ _) as [g r] eqn:Eo.
    specialize (HO (w_pc w) (rand_at (w_pc w)) (set_fs g (tick w))).
    rewrite Eo in HO. apply HO. split_and!; simpl; [done|done|lia].
  - apply HF; [by apply Hn|]. split_and!; simpl; [done|done|lia].
  - apply HC; [by apply Hn|]. split_and!; simpl; [done|done|lia].
Qed.

Lemma wp_sys_read {A} (op : fs -> result A) w0 f Q C w :
  after w0 f w ->
  (forall w', ~ calm w0 -> after w0 f w' -> C w') ->
  (forall m w', ~ calm w0 -> after w0 f w' -> Q (Err (errorsNew m)) w') ->
  (forall w', after w0 f w' -> Q (op f) w') ->
  wp (sys_read op) Q C w.
Proof. intros. apply (wp_sys _ w0 f); auto. Qed.

Lemma wp_Now w0 f Q C w :
  after w0 f w ->
  (forall w', after w0 f w' -> Q (time_at (w_pc w)) w') -> wp Now Q C w.
Proof. intros (? & ? & ?) HQ. apply HQ. split_and!; simpl; [done|done|lia]. Qed.
End system_calls.

(** The clock is past the first second of 1970 and fits 64-bit nanoseconds. *)
Class ClockOk `{Env} : Prop := clock_ok n : (1000000000 <= time_at n < 9223372036854775808)%Z.

Lemma clock_i64 `{ClockOk} n : is_i64 (time_at n).
Proof. pose proof (clock_ok n). unfold is_i64. lia. Qed.

Lemma clock_unix `{ClockOk} n : is_i64 (time_at n / 1000000000) /\ (0 < time_at n / 1000000000)%Z.
Proof.
  pose proof (clock_ok n). unfold is_i64.
  assert (1 <= time_at n / 1000000000)%Z by (apply Z.div_le_lower_bound; lia).
  assert (time_at n / 1000000000 < 9223372036854775808)%Z by (apply Z.div_lt_upper_bound; lia). lia.
Qed.

(** ** Following links *)

Lemma follow_node fuel (f : fs) p n :
  f !! p = Some n -> (forall t, n <> NLink t) -> follow fuel f p = Ok n.
Proof. intros Hp Hn. destruct fuel; simpl; rewrite Hp; destruct n; try done; by destruct (Hn target). Qed.

Lemma follow_none fuel (f : fs) p : f !! p = None -> follow fuel f p = Err errNotExist.
Proof. intros Hp. destruct fuel; simpl; by rewrite Hp. Qed.

Lemma fs_readfile_file (f : fs) p c m t : f !! p = Some (NFile c m t) -> fs_readfile f p = Ok c.
Proof. intros Hp. unfold fs_readfile. by rewrite (follow_node _ _ _ _ Hp). Qed.

Lemma fs_readfile_none (f : fs) p : f !! p = None -> fs_readfile f p = Err errNotExist.
Proof. intros Hp. unfold fs_readfile. by rewrite follow_none. Qed.

Lemma fs_stat_node (f : fs) p n :
  f !! p = Some n -> (forall t, n <> NLink t) -> fs_stat f p = Ok (info_of n).
Proof. intros Hp Hn. unfold fs_stat. by rewrite (follow_node _ _ _ _ Hp). Qed.

(** ** Temporary names *)

Lemma first_free_None f pre k fuel :
  first_free f pre k fuel = None ->
  forall i, (i < N.of_nat fuel)%N -> is_Some (f !! (pre +:+ FormatUint (k + i))).
Proof.
  revert k; induction fuel as [|n IH]; intros k Hk i Hi; [lia|]. simpl in Hk.
  destruct (f !! (pre +:+ FormatUint k)) eqn:E; [|done].
  destruct (decide (i = 0)%N) as [->|Hi0].
  - rewrite N.add_0_r. by eexists.
  - replace (k + i)%N with (N.succ k + (i - 1))%N by lia. apply IH; [done|lia].
Qed.

Lemma first_free_Some f pre k fuel k' :
  first_free f pre k fuel = Some k' -> f !! (pre +:+ FormatUint k') = None.
Proof.
  revert k; induction fuel as [|n IH]; intros k Hk; simpl in Hk; [done|].
  destruct (f !! (pre +:+ FormatUint k)) eqn:E; [by eapply IH|congruence].
Qed.

(** CreateTemp always finds a name. *)
Lemma temp_name_Some f pre k : exists k', temp_name f pre k = Some (pre +:+ FormatUint k') /\
  f !! (pre +:+ FormatUint k') = None.
Proof.
  unfold temp_name. destruct (first_free f pre k (S (size f))) as [k'|] eqn:E.
  { exists k'. split; [done|]. by eapply first_free_Some. }
  exfalso. pose proof (first_free_None _ _ _ _ E) as Hall.
  set (names := (fun i : nat => pre +:+ FormatUint (k + N.of_nat i)) <$> seq 0 (S (size f))).
  assert (NoDup names) as Hnd.
  { apply NoDup_fmap_2; [|apply NoDup_seq]. intros i j Hij.
    apply sapp_inj_l in Hij. unfold FormatUint in Hij. apply pretty_N_inj in Hij. lia. }
  assert (list_to_set names ⊆ dom f) as Hsub.
  { intros p Hp. apply elem_of_list_to_set, list_elem_of_fmap in Hp as (i & -> & Hi).
    apply elem_of_seq in Hi. apply elem_of_dom. apply Hall. lia. }
  apply subseteq_size in Hsub. rewrite size_list_to_set in Hsub by done.
  unfold names in Hsub. rewrite length_fmap, length_seq, size_dom in Hsub. lia.
Qed.

(** ** A quiet environment, for examples *)

Definition calm_env : Env := {|
  fault_at := fun _ => NoFault;
  time_at := fun n => (1700000000000000000 + Z.of_nat n mod 1000000000)%Z;
  rand_at := fun n => N.of_nat n
|}.

Lemma calm_env_time n :
  (1700000000000000000 <= time_at (Env := calm_env) n < 1700000001000000000)%Z.
Proof. simpl. pose proof (Z.mod_pos_bound (Z.of_nat n) 1000000000). lia. Qed.

Lemma calm_env_clock : ClockOk (H := calm_env).
Proof. intros n. pose proof (calm_env_time n). lia. Qed.

Lemma calm_env_i64 n : is_i64 (time_at (Env := calm_env) n).
Proof. pose proof (calm_env_time n). unfold is_i64. lia. Qed.

Lemma calm_env_calm w : calm (H := calm_env) w.
Proof. done. Qed.

(** Killed at the n-th system call, once. *)
Definition crash_env (n : nat) : Env := {|
  fault_at := fun k => if (k =? n)%nat then Crash else NoFault;
  time_at := time_at (Env := calm_env);
  rand_at := rand_at (Env := calm_env)
|}.

(** The n-th system call fails, once. *)
Definition fail_env (n : nat) : Env := {|
  fault_at := fun k => if (k =? n)%nat then FailWith "no space left on device" else NoFault;
  time_at := time_at (Env := calm_env);
  rand_at := rand_at (Env := calm_env)
|}.

(** The world and the outcome of an execution that was evaluated. *)
Lemma run_done {A} (p : world * outcome A) o : p.2 = o -> p = (p.1, o).
Proof. intros <-. apply surjective_pairing. Qed.
