(* ===== verification/AtomicFile.v ===== *)
(** * Replacing files and links without a torn state

    [replaceFile] is the body the packages' [writeAtomic] functions share
    (CreateTemp, Chmod, Write, Sync, Close, Rename, with the temporary removed
    on return).  Its rule says that whatever fails and wherever the agent dies,
    the destination has either its old node or the complete new one.

    States are compared up to [scratch] paths: temporary files and links, the
    supervisor's pid file and restart marker. *)

From stdpp Require Import base gmap strings list fin_maps.
From Stdlib Require Import ZArith NArith Ascii.
From S2P Require Import Prelude GoStrings Os.

(** ** Scratch paths and the equivalence they induce *)

(** What the process controller may touch. *)
Definition ctl_scratch (p : string) : bool :=
  HasPrefix p "xray-config/.xui-agent-"
  || bool_decide (p = "xray-config/xray.pid") || bool_decide (p = "xray-config/restart").

(** A version under construction, or a path below it: a number follows the
    prefix of its name. *)
Definition version_temp : string := "xray-runtime/versions/.xray-version-".
Definition temp_version (p : string) : bool :=
  HasPrefix p version_temp
  && match Split (sdrop (String.length version_temp) p) slash with
     | number :: _ => sforall is_digit number
     | [] => false
     end.

(** An executable of the agent under construction. *)
Definition temp_binary (p : string) : bool :=
  HasPrefix p "versions/"
  && match Split p slash with
     | [_; _; n] => HasPrefix n ".xui-agent-"
     | _ => false
     end.

(** A temporary file in the state directory itself is named "./...". "../"
    leads out of it. *)
Definition scratch (p : string) : bool :=
  ctl_scratch p
  || existsb (HasPrefix p)
       ["xray-config/versions/.xui-agent-";
        "xray-config/current.json.tmp-"; "xray-config/previous.json.tmp-";
        "xray-runtime/.xray-update-"; "xray-runtime/.downloads";
        "xray-runtime/current.tmp-"; "xray-runtime/previous.tmp-";
        "current.tmp-"; "previous.tmp-"; "current.rollback-"; "./"; "../"]
  || temp_binary p || temp_version p.

Lemma ctl_scratch_scratch p : scratch p = false -> ctl_scratch p = false.
Proof. unfold scratch. rewrite !orb_false_iff. tauto. Qed.

(** Equal outside the paths that satisfy [S]. *)
Definition eq_off (S : string -> bool) (f f' : fs) : Prop :=
  forall p, S p = false -> f !! p = f' !! p.

#[export] Instance fs_equiv : Equiv fs := eq_off scratch.

#[export] Instance eq_off_equivalence S : Equivalence (eq_off S).
Proof.
  split.
  - by intros f p.
  - intros f g Hfg p Hp. symmetry. auto.
  - intros f g h Hfg Hgh p Hp. etrans; [by apply Hfg|by apply Hgh].
Qed.

#[export] Instance fs_equiv_equivalence : Equivalence (≡@{fs}).
Proof. apply eq_off_equivalence. Qed.

Lemma ctl_equiv f f' : eq_off ctl_scratch f f' -> f ≡ f'.
Proof. intros Hf p Hp. apply Hf. by apply ctl_scratch_scratch. Qed.

#[export] Instance insert_fs_proper p n : Proper ((≡) ==> (≡)) (insert (M:=fs) p n).
Proof.
  intros f g Hfg q Hq. rewrite !lookup_insert. case_decide; [done|]. by apply Hfg.
Qed.

#[export] Instance delete_fs_proper p : Proper ((≡) ==> (≡)) (delete (M:=fs) p).
Proof.
  intros f g Hfg q Hq. rewrite !lookup_delete. case_decide; [done|]. by apply Hfg.
Qed.

Lemma fs_equiv_lookup (f g : fs) p : f ≡ g -> scratch p = false -> f !! p = g !! p.
Proof. intros Hfg. apply Hfg. Qed.

Lemma insert_scratch (f : fs) p n : scratch p = true -> <[p := n]> f ≡ f.
Proof. intros Hp q Hq. rewrite lookup_insert_ne; [done|]. intros ->. congruence. Qed.

Lemma delete_scratch (f : fs) p : scratch p = true -> delete p f ≡ f.
Proof. intros Hp q Hq. rewrite lookup_delete_ne; [done|]. intros ->. congruence. Qed.

Lemma is_dir_equiv (f g : fs) d : f ≡ g -> scratch d = false -> is_dir f d = is_dir g d.
Proof. intros Hfg Hd. unfold is_dir. by rewrite (fs_equiv_lookup f g). Qed.

(** Nothing, a file or a link: what rename(2) may replace. *)
Definition plain_file (f : fs) (p : string) : Prop :=
  match f !! p with Some (NDir _ _) => False | _ => True end.

Lemma plain_file_equiv (f g : fs) p : f ≡ g -> scratch p = false -> plain_file f p -> plain_file g p.
Proof. intros Hfg Hp. unfold plain_file. by rewrite (fs_equiv_lookup f g). Qed.

Lemma is_dir_update (f g : fs) p d :
  plain_file f p -> (forall q, q <> p -> g !! q = f !! q) ->
  is_dir f d = true -> is_dir g d = true.
Proof.
  unfold plain_file, is_dir. intros Hp Hg. rewrite !orb_true_iff. intros [?|Hd]; [by left|].
  destruct (decide (d = p)) as [->|Hne]; [|by right; rewrite Hg].
  by destruct (f !! p) as [[]|].
Qed.

Lemma is_dir_insert (f : fs) p n d :
  plain_file f p -> is_dir f d = true -> is_dir (<[p := n]> f) d = true.
Proof. intros. eapply is_dir_update; [done| |done]. intros. by apply lookup_insert_ne. Qed.

Lemma is_dir_delete (f : fs) p d :
  plain_file f p -> is_dir f d = true -> is_dir (delete p f) d = true.
Proof. intros. eapply is_dir_update; [done| |done]. intros. by apply lookup_delete_ne. Qed.

(** ** Later worlds up to scratch *)

Section later.
Context `{Env}.

Definition later (w : world) (f : fs) (w' : world) : Prop :=
  w_fs w' ≡ f /\ w_run w' = w_run w /\ (w_pc w <= w_pc w')%nat.

Lemma after_later w f w' : after w f w' -> later w f w'.
Proof. intros (Hf & ? & ?). split_and!; [by rewrite Hf|done|done]. Qed.

Lemma later_refl w : later w (w_fs w) w.
Proof. by split_and!. Qed.

Lemma later_equiv w f g w' : f ≡ g -> later w f w' -> later w g w'.
Proof. intros Hfg (Hf & ? & ?). split_and!; [by rewrite Hf|done|done]. Qed.

Lemma later_trans w f1 w1 f2 w2 : later w f1 w1 -> later w1 f2 w2 -> later w f2 w2.
Proof. intros (? & ? & ?) (? & ? & ?). split_and!; [done|congruence|lia]. Qed.

Lemma calm_later w f w' : later w f w' -> calm w -> calm w'.
Proof. intros (_ & _ & Hpc) Hc n Hn. apply Hc. lia. Qed.
End later.

(** ** Replacing a file *)

Section replace.
Context `{Env}.

(** os.CreateTemp .. os.Rename with [defer os.Remove(temporaryPath)]; a failed
    step closes the file first.  [fin] is what follows the rename. *)
Definition replaceFile (directory prefix path content : string) (mode : N)
    (fin : io (result unit)) : io (result unit) :=
  try! temporary := CreateTemp directory prefix in
  defer (Remove temporary) (
    try! _ := Chmod temporary mode catch e => (let! _ := Close temporary in ret (Err e)) in
    try! _ := Write temporary content catch e => (let! _ := Close temporary in ret (Err e)) in
    try! _ := Sync temporary catch e => (let! _ := Close temporary in ret (Err e)) in
    try! _ := Close temporary in
    try! _ := Rename temporary path in
    fin).

(** syncDirectory *)
Definition syncDirectory (path : string) : io (result unit) :=
  try! _ := OpenDir path in SyncDir path.

Lemma wp_syncDirectory p w0 f Q C w :
  after w0 f w ->
  (forall w', ~ calm w0 -> after w0 f w' -> C w') ->
  (forall r w', after w0 f w' -> (calm w0 -> is_dir f p = true -> r = Ok tt) -> Q r w') ->
  wp (syncDirectory p) Q C w.
Proof.
  intros Hw HC HQ. apply wp_try, (wp_sys_read _ w0 f); [done|auto|..].
  - intros m w' Hn Hw'. by apply HQ.
  - intros w1 Hw1. destruct (is_dir f p) eqn:Ed.
    + apply (wp_sys_read _ w0 f); [done|auto|..].
      * intros m w' Hn Hw'. by apply HQ.
      * intros w' Hw'. by apply HQ.
    + by apply HQ.
Qed.

(** [fin] looks at [directory] and changes nothing; when [always], it cannot fail. *)
Definition looks_at (always : Prop) (directory : string) (fin : io (result unit)) : Prop :=
  forall w0 f (Q : result unit -> world -> Prop) (C : world -> Prop) w,
    after w0 f w ->
    (forall w', ~ calm w0 -> after w0 f w' -> C w') ->
    (forall r w', after w0 f w' -> (calm w0 -> is_dir f directory = true -> r = Ok tt) ->
       (always -> r = Ok tt) -> Q r w') ->
    wp fin Q C w.

Lemma syncDirectory_looks p : looks_at False p (syncDirectory p).
Proof. intros w0 f Q C w Hw HC HQ. apply (wp_syncDirectory p w0 f); [done|done|]. intros. by apply HQ. Qed.

Lemma ret_looks p : looks_at True p (ret (Ok tt)).
Proof. intros w0 f Q C w Hw _ HQ. by apply HQ. Qed.

Lemma wp_close_err p e w0 f (Q : result unit -> world -> Prop) C w :
  after w0 f w ->
  (~ calm w0 -> forall w', after w0 f w' -> C w') ->
  (forall w', after w0 f w' -> Q (Err e) w') ->
  wp (let! _ := Close p in ret (Err e)) Q C w.
Proof.
  intros Hw HC HQ. apply wp_bind, (wp_sys_read _ w0 f); [done|auto|..].
  - intros m w' Hn Hw'. apply wp_ret. auto.
  - intros w' Hw'. apply wp_ret. auto.
Qed.

Section body.
Context (directory prefix path content : string) (mode : N) (fin : io (result unit)).
Context (w0 : world) (f : fs).
Context (Hdir : is_dir f directory = true) (Hpd : Dir path = directory).
Context (Hplain : plain_file f path) (Hpath : scratch path = false).
Context (always : Prop) (Hfin : looks_at always directory fin).

(** The outcome of the deferred body, the temporary not yet removed. *)
Definition replaced (r : result unit) (w1 : world) : Prop :=
  exists g, after w0 g w1 /\
    ((~ calm w0 /\ (exists e, r = Err e) /\ g ≡ f) \/
     (exists t, g ≡ <[path := NFile content mode (time_at t)]> f /\ (calm w0 -> r = Ok tt))).

Definition maybe_replaced (w1 : world) : Prop :=
  ~ calm w0 /\ exists g, after w0 g w1 /\
    (g ≡ f \/ exists t, g ≡ <[path := NFile content mode (time_at t)]> f).

Lemma replaced_err e w1 g : ~ calm w0 -> after w0 g w1 -> g ≡ f -> replaced (Err e) w1.
Proof. intros. exists g. split; [done|left]. by eauto. Qed.

Lemma maybe_old w1 g : ~ calm w0 -> after w0 g w1 -> g ≡ f -> maybe_replaced w1.
Proof. intros. split; [done|]. exists g. by split; [|left]. Qed.

Lemma wp_rename_fin tmp t w :
  scratch tmp = true -> f !! tmp = None ->
  after w0 (<[tmp := NFile content mode (time_at t)]> f) w ->
  wp (try! _ := Rename tmp path in fin) replaced maybe_replaced w.
Proof.
  intros Htmp Hnew Hw. set (g := <[tmp := NFile content mode (time_at t)]> f) in *.
  assert (g ≡ f) as Hg by by apply insert_scratch.
  assert (plain_file f tmp) as Hpt by (unfold plain_file; by rewrite Hnew).
  apply wp_try, (wp_sys _ w0 g); [done|..].
  - intros w1 Hn Hw1. by eapply maybe_old.
  - intros m w' Hn Hw'. apply wp_ret. by eapply replaced_err.
  - intros t1 r1 w1 Hw1. assert (tmp <> path) as Hne by congruence.
    set (h := <[path := NFile content mode (time_at t)]> (delete tmp g)) in *.
    assert (fs_rename g tmp path = (h, Ok tt)) as E.
    { unfold fs_rename, g. rewrite lookup_insert_eq, lookup_insert_ne by done.
      rewrite Hpd, is_dir_insert by done.
      unfold plain_file in Hplain. by destruct (f !! path) as [[]|]. }
    rewrite E in *. simpl in *.
    assert (delete tmp g = f) as Hdel by (unfold g; by rewrite delete_insert_id).
    assert (h ≡ <[path := NFile content mode (time_at t)]> f) as Hh by (unfold h; by rewrite Hdel).
    apply (Hfin w0 h); [done|..].
    + intros w' Hn Hw'. split; [done|]. exists h. split; [done|right]. by exists t.
    + intros r w' Hw' Hr. exists h. split; [done|right]. exists t. split; [done|].
      intros Hc. apply Hr; [done|]. unfold h. rewrite Hdel. by apply is_dir_insert.
Qed.

Lemma wp_fill tmp t w :
  scratch tmp = true -> f !! tmp = None ->
  after w0 (<[tmp := NFile "" 384 (time_at t)]> f) w ->
  wp (try! _ := Chmod tmp mode catch e => (let! _ := Close tmp in ret (Err e)) in
      try! _ := Write tmp content catch e => (let! _ := Close tmp in ret (Err e)) in
      try! _ := Sync tmp catch e => (let! _ := Close tmp in ret (Err e)) in
      try! _ := Close tmp in
      try! _ := Rename tmp path in
      fin) replaced maybe_replaced w.
Proof.
  intros Htmp Hnew Hw.
  assert (forall n, <[tmp := n]> f ≡ f) as Heq by (intros; by apply insert_scratch).
  apply wp_try, (wp_sys _ w0 _ _ _ _ Hw); [intros; by eapply maybe_old| |].
  { intros m w' Hn Hw'. eapply wp_close_err; [done|intros; by eapply maybe_old|].
    intros. by eapply replaced_err. }
  intros t1 r1 w1 Hw1. unfold fs_chmod in *. rewrite lookup_insert_eq in *. simpl in *.
  rewrite insert_insert_eq in Hw1.
  apply wp_try, (wp_sys _ w0 _ _ _ _ Hw1); [intros; by eapply maybe_old| |].
  { intros m w' Hn Hw'. eapply wp_close_err; [done|intros; by eapply maybe_old|].
    intros. by eapply replaced_err. }
  intros t2 r2 w2 Hw2. unfold fs_append in *. rewrite lookup_insert_eq in *. simpl in *.
  rewrite insert_insert_eq, app_Empty in Hw2.
  apply wp_try, (wp_sys_read _ w0 _ _ _ _ Hw2); [intros; by eapply maybe_old| |].
  { intros m w' Hn Hw'. eapply wp_close_err; [done|intros; by eapply maybe_old|].
    intros. by eapply replaced_err. }
  intros w3 Hw3. rewrite lookup_insert_eq.
  apply wp_try, (wp_sys_read _ w0 _ _ _ _ Hw3); [intros; by eapply maybe_old| |].
  { intros m w' Hn Hw'. apply wp_ret. by eapply replaced_err. }
  intros w4 Hw4. by eapply wp_rename_fin.
Qed.

(** os.Remove of a scratch path never matters. *)
Lemma wp_remove_scratch tmp g (Q : result unit -> world -> Prop) C w :
  scratch tmp = true -> after w0 g w ->
  (forall w', ~ calm w0 -> later w0 g w' -> C w') ->
  (forall r w', later w0 g w' -> Q r w') ->
  wp (Remove tmp) Q C w.
Proof.
  intros Htmp Hw HC HQ. apply (wp_sys _ w0 g); [done|..].
  - intros w' Hn Hw'. apply HC; [done|]. by apply after_later.
  - intros m w' _ Hw'. apply HQ. by apply after_later.
  - intros _ _ w' Hw'. apply HQ.
    apply (later_equiv _ (fs_remove g tmp).1); [|by apply after_later].
    unfold fs_remove. destruct (g !! tmp) as [[]|]; simpl; try done.
    1,3: by apply delete_scratch.
    destruct (entry_names g tmp); simpl; [by apply delete_scratch|done].
Qed.
End body.

(** Whatever happens, [path] keeps its node or has the complete new one. *)
Lemma wp_replaceFile always directory prefix path content mode fin w0 f (Q : result unit -> world -> Prop) C w :
  after w0 f w ->
  is_dir f directory = true -> Dir path = directory ->
  plain_file f path -> scratch path = false ->
  (forall k, scratch (directory +:+ "/" +:+ prefix +:+ FormatUint k) = true /\
             Dir (directory +:+ "/" +:+ prefix +:+ FormatUint k) = directory) ->
  looks_at always directory fin ->
  (forall w', ~ calm w0 -> later w0 f w' -> C w') ->
  (forall t w', ~ calm w0 -> later w0 (<[path := NFile content mode (time_at t)]> f) w' -> C w') ->
  (forall e w', ~ calm w0 -> later w0 f w' -> Q (Err e) w') ->
  (forall t r w', later w0 (<[path := NFile content mode (time_at t)]> f) w' ->
     (calm w0 -> r = Ok tt) -> Q r w') ->
  wp (replaceFile directory prefix path content mode fin) Q C w.
Proof.
  intros Hw Hdir Hpd Hplain Hpath Htmp Hfin HC1 HC2 HE HQ.
  apply wp_try, (wp_sys _ w0 f); [done|..].
  { intros w' Hn Hw'. apply HC1; [done|]. by apply after_later. }
  { intros m w' Hn Hw'. apply wp_ret. apply HE; [done|]. by apply after_later. }
  intros t r w1 Hw1.
  destruct (temp_name_Some f (directory +:+ "/" +:+ prefix) r) as (k & E & Hnew).
  assert ((directory +:+ "/" +:+ prefix) +:+ FormatUint k
          = directory +:+ "/" +:+ prefix +:+ FormatUint k) as Ha by (by rewrite !sapp_assoc).
  rewrite E in Hw1 |- *. rewrite Ha in Hnew, Hw1 |- *.
  destruct (Htmp k) as [Hs Hd]. set (tmp := directory +:+ "/" +:+ prefix +:+ FormatUint k) in *.
  assert (fs_create f tmp 384 (time_at t) = (<[tmp := NFile "" 384 (time_at t)]> f, Ok tt)) as Ec.
  { unfold fs_create. by rewrite Hnew, Hd, Hdir. }
  rewrite Ec in Hw1 |- *. simpl in *.
  apply wp_defer. eapply wp_mono; [by eapply wp_fill| |].
  - intros r1 w2 (g & Hg & Hcase). eapply wp_remove_scratch; [done|done|..].
    + intros w' Hn Hl. destruct Hcase as [(_ & _ & Hgf)|(t' & Hgf & _)].
      * apply HC1; [done|]. by eapply later_equiv.
      * eapply HC2; [done|]. by eapply later_equiv.
    + intros _ w' Hl. destruct Hcase as [(Hn & [e ->] & Hgf)|(t' & Hgf & Hr)].
      * apply HE; [done|]. by eapply later_equiv.
      * eapply HQ; [|done]. by eapply later_equiv.
  - intros w' (Hn & g & Hg & [Hgf|[t' Hgf]]).
    + apply HC1; [done|]. eapply later_equiv; [done|]. by apply after_later.
    + eapply HC2; [done|]. eapply later_equiv; [done|]. by apply after_later.
Qed.

(** ** Replacing a symbolic link *)

(** os.Symlink under a time-stamped name, os.Rename, [defer os.Remove]. *)
Definition replaceLink (target path : string) (fin : io (result unit)) : io (result unit) :=
  let! t := Now in
  let temporary := path +:+ ".tmp-" +:+ FormatInt t in
  try! _ := Symlink target temporary in
  defer (Remove temporary) (
    try! _ := Rename temporary path in
    fin).

(** No stale temporary link carries a time stamp still to come. *)
Definition link_fresh (w0 : world) (path : string) (f : fs) : Prop :=
  forall n, (w_pc w0 <= n)%nat -> f !! (path +:+ ".tmp-" +:+ FormatInt (time_at n)) = None.

Lemma wp_replaceLink always target path directory fin w0 f (Q : result unit -> world -> Prop) C w :
  after w0 f w ->
  is_dir f directory = true -> Dir path = directory ->
  plain_file f path -> scratch path = false ->
  (forall z, scratch (path +:+ ".tmp-" +:+ FormatInt z) = true /\
             Dir (path +:+ ".tmp-" +:+ FormatInt z) = directory) ->
  looks_at always directory fin ->
  (forall w', ~ calm w0 -> later w0 f w' -> C w') ->
  (forall w', ~ calm w0 -> later w0 (<[path := NLink target]> f) w' -> C w') ->
  (forall e w', ~ (calm w0 /\ link_fresh w0 path f) -> later w0 f w' -> Q (Err e) w') ->
  (forall r w', after w0 (<[path := NLink target]> f) w' -> (calm w0 -> r = Ok tt) ->
     (always -> r = Ok tt) -> Q r w') ->
  wp (replaceLink target path fin) Q C w.
Proof.
  intros Hw Hdir Hpd Hplain Hpath Htmp Hfin HC1 HC2 HE HQ.
  apply wp_bind, (wp_Now w0 f); [done|]. intros w1 Hw1.
  set (tmp := path +:+ ".tmp-" +:+ FormatInt (time_at (w_pc w))).
  destruct (Htmp (time_at (w_pc w))) as [Hs Hd]. fold tmp in Hs, Hd.
  assert (tmp <> path) as Hne by congruence.
  apply wp_try, (wp_sys _ w0 f); [done|..].
  { intros w' Hn Hw'. apply HC1; [done|]. by apply after_later. }
  { intros m w' Hn Hw'. apply wp_ret. apply HE; [naive_solver|]. by apply after_later. }
  intros _ _ w2 Hw2. unfold fs_symlink in *. rewrite Hd, Hdir in Hw2 |- *.
  destruct (f !! tmp) as [n|] eqn:Et; simpl in *.
  { apply wp_ret, HE; [|by apply after_later]. intros [_ Hfr].
    unfold tmp in Et. rewrite Hfr in Et; [done|]. apply Hw. }
  assert (<[tmp := NLink target]> f ≡ f) as Hg by by apply insert_scratch.
  apply wp_defer, wp_try, (wp_sys _ w0 _ _ _ _ Hw2).
  { intros w' Hn Hw'. apply HC1; [done|]. eapply later_equiv; [done|]. by apply after_later. }
  { intros m w' Hn Hw'. apply wp_ret. eapply wp_remove_scratch; [done|done|..].
    - intros w3 _ Hw3. apply HC1; [done|]. by eapply later_equiv.
    - intros _ w3 Hw3. apply HE; [naive_solver|]. by eapply later_equiv. }
  intros _ _ w3 Hw3. set (h := <[path := NLink target]> f).
  assert (fs_rename (<[tmp := NLink target]> f) tmp path = (h, Ok tt)) as E.
  { unfold fs_rename. rewrite lookup_insert_eq, lookup_insert_ne by done.
    rewrite Hpd, is_dir_insert by (done || unfold plain_file; by rewrite Et).
    rewrite delete_insert_id by done. unfold plain_file in Hplain.
    by destruct (f !! path) as [[]|]. }
  rewrite E in *. simpl in *. apply (Hfin w0 h); [done|..].
  - intros w' Hn Hw'. apply HC2; [done|]. by apply after_later.
  - intros r w' Hw' Hr Hal.
    assert (forall w4, after w0 h w4 -> Q r w4) as HQ'.
    { intros w4 Hw4. apply HQ; [done| |done]. intros Hc. apply Hr; [done|]. by apply is_dir_insert. }
    apply (wp_sys _ w0 h); [done|..].
    + intros w4 Hn Hw4. apply HC2; [done|]. by apply after_later.
    + intros m w4 _ Hw4. by apply HQ'.
    + intros _ _ w4 Hw4. apply HQ'. unfold fs_remove in Hw4. unfold h in Hw4.
      by rewrite lookup_insert_ne, Et in Hw4.
Qed.

(** ** Removing a file that may be absent *)

Definition removeThen (path : string) (fin : io (result unit)) : io (result unit) :=
  let! r := Remove path in
  match r with
  | Ok _ => fin
  | Err e => if errorsIs e SNotExist then fin else ret (Err e)
  end.

Lemma wp_removeThen always path directory fin w0 f (Q : result unit -> world -> Prop) C w :
  after w0 f w ->
  is_dir f directory = true -> plain_file f path -> looks_at always directory fin ->
  (forall w', ~ calm w0 -> later w0 f w' -> C w') ->
  (forall w', ~ calm w0 -> later w0 (delete path f) w' -> C w') ->
  (forall e w', ~ calm w0 -> later w0 f w' -> Q (Err e) w') ->
  (forall r w', after w0 (delete path f) w' -> (calm w0 -> r = Ok tt) -> Q r w') ->
  wp (removeThen path fin) Q C w.
Proof.
  intros Hw Hdir Hplain Hfin HC1 HC2 HE HQ.
  apply wp_bind, (wp_sys _ w0 f); [done|..].
  { intros w' Hn Hw'. apply HC1; [done|]. by apply after_later. }
  { intros m w' Hn Hw'. apply HE; [done|]. by apply after_later. }
  intros _ _ w1 Hw1.
  assert (exists r, fs_remove f path = (delete path f, r) /\
            (r = Ok tt \/ r = Err errNotExist)) as (r & E & Hr).
  { unfold fs_remove. unfold plain_file in Hplain. destruct (f !! path) as [[]|] eqn:E; try done.
    - eexists. split; [done|by left].
    - eexists. split; [done|by left].
    - eexists. rewrite delete_id by done. split; [done|by right]. }
  rewrite E in *. simpl in *.
  assert (wp fin Q C w1) as Hwp.
  { apply (Hfin w0 (delete path f)); [done|..].
    - intros w' Hn Hw'. apply HC2; [done|]. by apply after_later.
    - intros r' w' Hw' Hr' _. apply HQ; [done|]. intros Hc. apply Hr'; [done|].
      by apply is_dir_delete. }
  by destruct Hr as [-> | ->].
Qed.
End replace.

(** ** Continuing from a world known up to scratch *)

Lemma later_after `{Env} w f w' : later w f w' -> exists g, g ≡ f /\ after w g w'.
Proof. intros (? & ? & ?). exists (w_fs w'). by split_and!. Qed.

(** ** Directories *)

(** Not a file and not a link: where os.MkdirAll succeeds. *)
Definition dir_or_none (f : fs) (p : string) : Prop :=
  match f !! p with Some (NDir _ _) | None => True | _ => False end.

Lemma dir_or_none_mkdir (f : fs) p m t : dir_or_none (<[p := NDir m t]> f) p.
Proof. unfold dir_or_none. by rewrite lookup_insert_eq. Qed.

(** One directory: made or already there. *)
Definition dir_step (p : string) (f g : fs) : Prop :=
  g = f \/ exists m t, g = <[p := NDir m t]> f.

Lemma dir_step_or_none p f g : dir_or_none f p -> dir_step p f g -> dir_or_none g p.
Proof. intros Hd [->|(m & t & ->)]; [done|apply dir_or_none_mkdir]. Qed.

Section directories.
Context `{Env}.

Lemma mkdirall_one (f : fs) p m t fuel :
  p <> "." -> dir_or_none f p -> is_dir f (Dir p) = true ->
  exists g, fs_mkdirall (S fuel) f p m t = (g, Ok tt) /\ dir_step p f g /\ is_dir g p = true.
Proof.
  intros Hp Hn Hd. simpl. destruct (is_dir f p) eqn:E.
  { exists f. split; [done|]. split; [by left|done]. }
  assert (fs_mkdirall fuel f (Dir p) m t = (f, Ok tt)) as ->.
  { destruct fuel; simpl; by rewrite Hd. }
  unfold fs_mkdir. rewrite E, Hd. unfold dir_or_none in Hn. unfold is_dir in E.
  destruct (f !! p) as [[]|]; try done.
  - by rewrite orb_true_r in E.
  - exists (<[p := NDir m t]> f). split; [done|]. split; [right; by do 2 eexists|].
    unfold is_dir. by rewrite lookup_insert_eq, orb_true_r.
Qed.

Lemma wp_MkdirAll p m w0 f (Q : result unit -> world -> Prop) C w :
  after w0 f w ->
  p <> "." -> dir_or_none f p -> is_dir f (Dir p) = true ->
  (forall w', ~ calm w0 -> after w0 f w' -> C w') ->
  (forall e w', ~ calm w0 -> after w0 f w' -> errorsIs e SNotExist = false -> Q (Err e) w') ->
  (forall g w', after w0 g w' -> dir_step p f g -> is_dir g p = true -> Q (Ok tt) w') ->
  wp (MkdirAll p m) Q C w.
Proof.
  intros Hw Hp Hn Hd HC HE HQ. apply (wp_sys _ w0 f); [done|done|..].
  - intros msg w' Hc Hw'. by apply HE.
  - intros t _ w' Hw'. pose proof (Split_length slash p) as Hl.
    destruct (length (Split p slash)) as [|fuel] eqn:El.
    { by destruct (Split p slash). }
    destruct (mkdirall_one f p m (time_at t) fuel Hp Hn Hd) as (g & E & Hs & Hg).
    rewrite E in *. by eapply HQ.
Qed.

Lemma wp_MkdirAll_dir p m w0 f (Q : result unit -> world -> Prop) C w :
  after w0 f w -> is_dir f p = true ->
  (forall w', ~ calm w0 -> after w0 f w' -> C w') ->
  (forall e w', ~ calm w0 -> after w0 f w' -> errorsIs e SNotExist = false -> Q (Err e) w') ->
  (forall w', after w0 f w' -> Q (Ok tt) w') ->
  wp (MkdirAll p m) Q C w.
Proof.
  intros Hw Hd HC HE HQ. apply (wp_sys _ w0 f); [done|done|..].
  - intros msg w' Hc Hw'. by apply HE.
  - intros t _ w' Hw'.
    assert (fs_mkdirall (length (Split p slash)) f p m (time_at t) = (f, Ok tt)) as E.
    { destruct (length (Split p slash)); simpl; by rewrite Hd. }
    rewrite E in *. by apply HQ.
Qed.

Lemma wp_Chmod_dir p m w0 f (Q : result unit -> world -> Prop) C w :
  after w0 f w -> p <> "." -> is_dir f p = true ->
  (forall w', ~ calm w0 -> after w0 f w' -> C w') ->
  (forall e w', ~ calm w0 -> after w0 f w' -> errorsIs e SNotExist = false -> Q (Err e) w') ->
  (forall g w', after w0 g w' -> dir_step p f g -> is_dir g p = true -> Q (Ok tt) w') ->
  wp (Chmod p m) Q C w.
Proof.
  intros Hw Hp Hd HC HE HQ. apply (wp_sys _ w0 f); [done|done|..].
  - intros msg w' Hc Hw'. by apply HE.
  - intros _ _ w' Hw'. unfold fs_chmod in *. unfold is_dir in Hd.
    rewrite bool_decide_false in Hd by done.
    destruct (f !! p) as [[| m0 t0 |]|] eqn:E; try done.
    apply (HQ (<[p := NDir m t0]> f)); [done|right; by do 2 eexists|].
    unfold is_dir. by rewrite lookup_insert_eq, orb_true_r.
Qed.
End directories.

(** ** A file replaced inside its own directory *)

Section replace_in.
Context `{Env}.
Context (directory prefix : string).
Context (Hclean : Clean (directory +:+ "/") = directory) (Hprefix : no_char slash prefix).
Context (Htemp : forall x, scratch (directory +:+ "/" +:+ prefix +:+ x) = true).
Context (Hdscratch : scratch directory = false).

Lemma wp_replaceFile_in always name content mode fin w0 f (Q : result unit -> world -> Prop) C w :
  let path := directory +:+ "/" +:+ name in
  after w0 f w ->
  is_dir f directory = true -> no_char slash name ->
  plain_file f path -> scratch path = false ->
  looks_at always directory fin ->
  (forall g w', ~ calm w0 -> after w0 g w' ->
     (g ≡ f \/ exists t, g ≡ <[path := NFile content mode (time_at t)]> f) -> C w') ->
  (forall r g w', after w0 g w' ->
     (~ calm w0 /\ (exists e, r = Err e) /\ g ≡ f) \/
     (exists t, g ≡ <[path := NFile content mode (time_at t)]> f /\ (calm w0 -> r = Ok tt)) ->
     Q r w') ->
  wp (replaceFile directory prefix path content mode fin) Q C w.
Proof.
  intros path Hw Hd Hname Hplain Hs Hfin HC HQ.
  apply (wp_replaceFile always _ _ _ _ _ _ w0 f); try done.
  - unfold path. change (directory +:+ "/" +:+ name) with (directory +:+ String slash name).
    by rewrite Dir_app.
  - intros k. split; [apply Htemp|].
    change (directory +:+ "/" +:+ ?x) with (directory +:+ String slash x).
    rewrite Dir_app; [done|]. apply no_char_app. split; [done|apply FormatUint_no_slash].
  - intros w' Hn (g & Hg & Ha)%later_after. eapply HC; [done|done|by left].
  - intros t w' Hn (g & Hg & Ha)%later_after. eapply HC; [done|done|right; by exists t].
  - intros e w' Hn (g & Hg & Ha)%later_after. eapply HQ; [done|left; by eauto].
  - intros t r w' (g & Hg & Ha)%later_after Hr. eapply HQ; [done|right; by exists t].
Qed.
End replace_in.
