(* ===== verification/Indent.v ===== *)
(** * json.MarshalIndent

    [Indent] lays an object out over several lines, two spaces per level; the
    decoder reads the same members from it as from the compact text. *)

From stdpp Require Import base strings list.
From Stdlib Require Import NArith Ascii.
From S2P Require Import Prelude.
From S2P Require Import GoStrings.
From S2P Require Import Json.

#[local] Transparent quote obj scan_value members.

Fixpoint spaces (n : nat) : string := match n with O => "" | S m => "  " +:+ spaces m end.

(** A line break and the indentation of a level. *)
Definition line_start (level : nat) : string := nl +:+ spaces level.

Definition item_text (kv : string * string) : string := quote kv.1 +:+ ": " +:+ kv.2.

(** The object at a level; the values are already laid out one level deeper. *)
Definition obj_indent (level : nat) (l : list (string * string)) : string :=
  match l with
  | [] => "{}"
  | _ => "{" +:+ line_start (S level) +:+ sconcat ("," +:+ line_start (S level)) (item_text <$> l)
         +:+ line_start level +:+ "}"
  end.

Definition blank_text (w : string) : bool := sforall is_ws w.

Lemma skip_ws_app w s : blank_text w = true -> skip_ws (w +:+ s) = skip_ws s.
Proof.
  unfold blank_text. induction w as [|c w IH]; [done|]. rewrite app_String. simpl.
  intros [-> Hw]%andb_true_iff. by apply IH.
Qed.

Lemma spaces_blank n : blank_text (spaces n) = true.
Proof. induction n as [|n IH]; [done|]. unfold blank_text in *. by simpl. Qed.

Lemma line_start_blank n : blank_text (line_start n) = true.
Proof. unfold line_start, nl. unfold blank_text. rewrite app_String, app_Empty. simpl. apply spaces_blank. Qed.

Lemma item_text_app kv rest : item_text kv +:+ rest = quote kv.1 +:+ String ":" (String " " (kv.2 +:+ rest)).
Proof. unfold item_text. by rewrite sapp_assoc. Qed.

Lemma item_length kv : (String.length kv.2 + 2 < String.length (item_text kv))%nat.
Proof.
  unfold item_text. rewrite !slength_app. rewrite quote_unfold. cbn [String.length]. rewrite slength_app. cbn [String.length]. lia.
Qed.

Lemma skip_ws_item kv rest : skip_ws (item_text kv +:+ rest) = item_text kv +:+ rest.
Proof. by rewrite item_text_app, quote_app. Qed.

Lemma skip_ws_value v rest : jv v -> skip_ws (String " " (v +:+ rest)) = v +:+ rest.
Proof. intros Hv. change (skip_ws (String " " (v +:+ rest))) with (skip_ws (v +:+ rest)). by apply skip_ws_jv. Qed.

(** One member in front of [x], seen by both loops over members. *)
Lemma scan_item f kv x d rest : member_ok kv -> delim x -> skip_ws x = String d rest ->
  (String.length kv.2 < f)%nat ->
  scan_members (S f) (item_text kv +:+ x)
  = if eqc d "," then scan_members f (skip_ws rest) else if eqc d "}" then Some rest else None.
Proof.
  intros [Hk Hv] Hd Hx Hf. rewrite item_text_app, quote_app.
  change (scan_members (S f) (String dq ?x)) with
    (match scan_str x with
     | Some r1 =>
         match skip_ws r1 with
         | String k r2 =>
             if eqc k ":" then
               match scan_value f (skip_ws r2) with
               | Some r3 =>
                   match skip_ws r3 with
                   | String d r4 =>
                       if eqc d "," then scan_members f (skip_ws r4)
                       else if eqc d "}" then Some r4 else None
                   | "" => None
                   end
               | None => None
               end
             else None
         | "" => None
         end
     | None => None
     end).
  rewrite scan_str_quote, skip_ws_colon, eqc_refl, skip_ws_value by done.
  destruct Hv as [_ Hv]. rewrite Hv by done. by rewrite Hx.
Qed.

Lemma members_from_item f kv x d rest : member_ok kv -> delim x -> skip_ws x = String d rest ->
  members_from (S f) (item_text kv +:+ x)
  = if eqc d "," then cons kv <$> members_from f (skip_ws rest) else if eqc d "}" then Some [kv] else None.
Proof.
  intros [Hk Hv] Hd Hx. rewrite item_text_app.
  set (tl := String ":" (String " " (kv.2 +:+ x))).
  assert (unquote (slice (quote kv.1 +:+ tl) tl) = Some kv.1) as Hkey.
  { rewrite slice_app. by apply unquote_quote, is_ascii_ValidString. }
  assert (scan_value (fuel_for (kv.2 +:+ x)) (kv.2 +:+ x) = Some x) as Hsc.
  { apply Hv; [done|]. unfold fuel_for. rewrite slength_app. lia. }
  rewrite quote_app in *. unfold members_from; fold members_from.
  rewrite eqc_refl, scan_str_quote. unfold tl at 1. rewrite skip_ws_colon, eqc_refl.
  rewrite skip_ws_value by done. rewrite Hsc, Hkey, slice_app, Hx.
  destruct kv as [k v]. by destruct (eqc d ","), (members_from f (skip_ws rest)).
Qed.

Section layout.
Context (level : nat).
Local Notation pad := (line_start (S level)).

Definition items_text (l : list (string * string)) : string := sconcat ("," +:+ pad) (item_text <$> l).

(** What follows the last member. *)
Definition closing (rest : string) : string := line_start level +:+ String "}" rest.

Lemma closing_skip rest : skip_ws (closing rest) = String "}" rest.
Proof. unfold closing. by rewrite skip_ws_app by apply line_start_blank. Qed.

Lemma closing_delim rest : delim (closing rest).
Proof. done. Qed.

Lemma items_text_cons kv kv' l : items_text (kv :: kv' :: l) = item_text kv +:+ String "," (pad +:+ items_text (kv' :: l)).
Proof. done. Qed.

Lemma items_skip kv l rest : skip_ws (items_text (kv :: l) +:+ rest) = items_text (kv :: l) +:+ rest.
Proof.
  destruct l as [|kv' l]; [apply skip_ws_item|]. rewrite items_text_cons, sapp_assoc. apply skip_ws_item.
Qed.

Lemma comma_skip kv l rest :
  skip_ws (String "," ((pad +:+ items_text (kv :: l)) +:+ rest)) = String "," ((pad +:+ items_text (kv :: l)) +:+ rest).
Proof. done. Qed.

Lemma pad_skip kv l rest : skip_ws ((pad +:+ items_text (kv :: l)) +:+ rest) = items_text (kv :: l) +:+ rest.
Proof. rewrite sapp_assoc, skip_ws_app by apply line_start_blank. apply items_skip. Qed.

Lemma scan_items l rest f : l <> [] -> Forall member_ok l -> (String.length (items_text l) < f)%nat ->
  scan_members f (items_text l +:+ closing rest) = Some rest.
Proof.
  revert f. induction l as [|kv [|kv' l] IH]; intros f Hne Hl Hf; [done| |]; (destruct f as [|f]; [lia|]);
    pose proof (item_length kv); apply Forall_cons in Hl as [Hkv Hl].
  - change (items_text [kv]) with (item_text kv) in *.
    by rewrite (scan_item f kv _ "}" rest) by (done || lia || apply closing_skip).
  - rewrite items_text_cons in *. rewrite slength_app in Hf. cbn [String.length] in Hf. rewrite slength_app in Hf.
    rewrite sapp_assoc, app_String, (scan_item f kv _ "," _ Hkv) by (try lia; done).
    rewrite eqc_refl, pad_skip. apply IH; [done|done|lia].
Qed.

Lemma members_from_items l rest f : l <> [] -> Forall member_ok l -> (String.length (items_text l) < f)%nat ->
  members_from f (items_text l +:+ closing rest) = Some l.
Proof.
  revert f. induction l as [|kv [|kv' l] IH]; intros f Hne Hl Hf; [done| |]; (destruct f as [|f]; [lia|]);
    pose proof (item_length kv); apply Forall_cons in Hl as [Hkv Hl].
  - change (items_text [kv]) with (item_text kv) in *.
    by rewrite (members_from_item f kv _ "}" rest) by (done || apply closing_skip).
  - rewrite items_text_cons in *. rewrite slength_app in Hf. cbn [String.length] in Hf. rewrite slength_app in Hf.
    rewrite sapp_assoc, app_String, (members_from_item f kv _ "," _ Hkv) by done.
    rewrite eqc_refl, pad_skip. rewrite IH; [done|done|done|lia].
Qed.

Lemma obj_indent_text kv l : obj_indent level (kv :: l) = String "{" (pad +:+ items_text (kv :: l) +:+ closing "").
Proof. unfold obj_indent, closing. by rewrite app_String, app_Empty. Qed.

Lemma open_items kv l rest : exists d r,
  skip_ws (pad +:+ items_text (kv :: l) +:+ rest) = String d r /\ eqc d "}" = false /\
  String d r = items_text (kv :: l) +:+ rest.
Proof.
  rewrite skip_ws_app, items_skip by apply line_start_blank.
  assert (exists x, items_text (kv :: l) +:+ rest = String dq x) as [x Hx].
  { destruct l as [|kv' l].
    - change (items_text [kv]) with (item_text kv). rewrite item_text_app, quote_app. by eexists.
    - rewrite items_text_cons, sapp_assoc, item_text_app, quote_app. by eexists. }
  exists dq, x. by rewrite Hx.
Qed.

Lemma jv_obj_indent l : Forall member_ok l -> jv (obj_indent level l).
Proof.
  intros Hl. destruct l as [|kv l]; [apply jv_obj_nil|].
  rewrite obj_indent_text. split; [by do 2 eexists|].
  intros rest [|f] Hr Hf; [lia|]. cbn [String.length] in Hf. rewrite !slength_app in Hf.
  rewrite app_String, !sapp_assoc. unfold closing at 1. rewrite sapp_assoc, app_String, app_Empty.
  change (line_start level +:+ String "}" rest) with (closing rest).
  unfold scan_value; fold scan_value; fold scan_members; fold scan_elems.
  destruct (open_items kv l (closing rest)) as (d & r & E & Hd & E').
  cbn [eqc]. rewrite E. simpl. rewrite Hd, E'. apply scan_items; [done|done|lia].
Qed.

Lemma members_obj_indent l : Forall member_ok l -> members (obj_indent level l) = Some l.
Proof.
  intros Hl. destruct l as [|kv l]; [done|]. rewrite obj_indent_text. unfold members. rewrite eqc_refl.
  destruct (open_items kv l (closing "")) as (d & r & E & Hd & E'). rewrite E, Hd, E'.
  apply members_from_items; [done|done|]. unfold fuel_for. rewrite !slength_app. lia.
Qed.
End layout.

Lemma decode_obj_indent {T} strict (fs : list (string * setter T)) zero level l : Forall member_ok l ->
  decode_obj strict fs zero (obj_indent level l) = set_members strict fs l zero.
Proof.
  intros Hl. unfold decode_obj, is_null. rewrite members_obj_indent by done.
  rewrite bool_decide_false; [done|]. destruct l; [done|by rewrite obj_indent_text].
Qed.

(** What a file of indented JSON decodes to. *)
Lemma decode_text_indent {T} strict (fs : list (string * setter T)) zero l : Forall member_ok l ->
  decode_text strict fs zero (obj_indent 0 l +:+ nl) = set_members strict fs l zero.
Proof.
  intros Hl. unfold decode_text. rewrite the_value_nl by by apply jv_obj_indent. by apply decode_obj_indent.
Qed.

(** ** Arrays *)

(** The array at a level; the values are already laid out one level deeper. *)
Definition arr_indent (level : nat) (l : list string) : string :=
  match l with
  | [] => "[]"
  | _ => "[" +:+ line_start (S level) +:+ sconcat ("," +:+ line_start (S level)) l +:+ line_start level +:+ "]"
  end.

(** The end of an array. *)
Definition ending (level : nat) (rest : string) : string := line_start level +:+ String "]" rest.

Lemma ending_skip level rest : skip_ws (ending level rest) = String "]" rest.
Proof. unfold ending. by rewrite skip_ws_app by apply line_start_blank. Qed.

Lemma arr_indent_one level v : arr_indent level [v] = String "[" (line_start (S level) +:+ (v +:+ ending level "")).
Proof. unfold arr_indent, ending. by rewrite app_String, app_Empty. Qed.

(** The start of a value after blanks. *)
Lemma open_value level v rest : jv v -> exists d r,
  skip_ws (line_start (S level) +:+ (v +:+ rest)) = String d r /\ eqc d "]" = false /\ String d r = v +:+ rest.
Proof.
  intros Hv. destruct (jv_head v Hv) as (c & r & -> & Hw & Hc). exists c, (r +:+ rest).
  rewrite skip_ws_app by apply line_start_blank. split; [|by split]. rewrite app_String. simpl. by rewrite Hw.
Qed.

Lemma jv_arr_indent level v : jv v -> jv (arr_indent level [v]).
Proof.
  intros Hv. rewrite arr_indent_one. split; [by do 2 eexists|]. intros rest [|f] Hr Hf; [lia|].
  cbn [String.length] in Hf. rewrite !slength_app in Hf. rewrite app_String, !sapp_assoc.
  assert (ending level "" +:+ rest = ending level rest) as -> by (unfold ending; by rewrite sapp_assoc).
  unfold scan_value; fold scan_value; fold scan_members; fold scan_elems.
  destruct (open_value level v (ending level rest) Hv) as (d & r & E & Hd & E'). cbn [eqc]. rewrite E. simpl. rewrite Hd, E'.
  destruct f as [|f]; [lia|]. unfold scan_elems; fold scan_elems; fold scan_value.
  assert (String.length (ending level "") <> 0%nat) as Hlen by (unfold ending; by rewrite slength_app).
  rewrite (proj2 Hv) by (done || lia). by rewrite ending_skip.
Qed.

Lemma elements_arr_indent level v : jv v -> elements (arr_indent level [v]) = Some [v].
Proof.
  intros Hv. rewrite arr_indent_one. unfold elements. rewrite eqc_refl.
  destruct (open_value level v (ending level "") Hv) as (d & r & E & Hd & E'). rewrite E, Hd, E'.
  unfold fuel_for at 1. cbn [elements_from]. destruct Hv as [_ Hv]. rewrite Hv by (done || (unfold fuel_for; rewrite slength_app; lia)).
  rewrite ending_skip, slice_app. done.
Qed.

Lemma dec_slice_indent {T} (dec : string -> option T) level v : jv v -> dec_slice dec (arr_indent level [v]) = mapM dec [v].
Proof.
  intros Hv. unfold dec_slice, is_null. rewrite elements_arr_indent by done. rewrite bool_decide_false; [done|]. by rewrite arr_indent_one.
Qed.

Example indent_ex : obj_indent 0 [("a", "1"); ("b", obj_indent 1 [("c", "2")])]
  = "{" +:+ nl +:+ "  " +:+ quote "a" +:+ ": 1," +:+ nl +:+ "  " +:+ quote "b" +:+ ": {" +:+ nl +:+ "    " +:+ quote "c" +:+ ": 2"
    +:+ nl +:+ "  }" +:+ nl +:+ "}".
Proof. vm_compute. reflexivity. Qed.
