(* ===== verification/FsLogic.v ===== *)
(** * Programs as transformers of the file tree

    [fwp w0 m Q C f]: started on tree [f] at or after world [w0], [m] returns in
    a tree that satisfies [Q], or is killed in one that satisfies [C].  When
    the environment injects nothing from [w0] on ([calm w0]), only the last
    branch of each rule is taken.  The Xray process plays no part here. *)

From stdpp Require Import base gmap strings list fin_maps.
From Stdlib Require Import ZArith NArith Ascii.
From S2P Require Import Prelude.
From S2P Require Import GoStrings.
From S2P Require Import Os.
From S2P Require Import AtomicFile.

Section fwp.
Context `{Env} (w0 : world).

Definition fwp {A} (m : io A) (Q : A -> fs -> Prop) (C : fs -> Prop) (f : fs) : Prop :=
  forall w, w_fs w = f -> (w_pc w0 <= w_pc w)%nat ->
    wp m (fun a w' => Q a (w_fs w') /\ (w_pc w0 <= w_pc w')%nat) (fun w' => C (w_fs w')) w.

Lemma fwp_ret {A} (a : A) (Q : A -> fs -> Prop) C f : Q a f -> fwp (ret a) Q C f.
Proof. intros HQ w <- Hpc. by apply wp_ret. Qed.

Lemma fwp_bind {A B} (m : io A) (k : A -> io B) Q C f :
  fwp m (fun a => fwp (k a) Q C) C f -> fwp (bind m k) Q C f.
Proof.
  intros Hm w Hf Hpc. apply wp_bind. eapply wp_mono; [by apply Hm| |done].
  intros a w' [Hk Hpc']. by apply Hk.
Qed.

Lemma fwp_try {A B} (m : io (result A)) (h : error -> io B) (k : A -> io B) Q C f :
  fwp m (fun r => match r with Ok a => fwp (k a) Q C | Err e => fwp (h e) Q C end) C f -> fwp (try m h k) Q C f.
Proof.
  intros Hm. apply fwp_bind. intros w Hf Hpc. eapply wp_mono; [by apply Hm| |done].
  by intros [a|e] w' [Hk Hpc'].
Qed.

Lemma fwp_mono {A} (m : io A) (Q Q' : A -> fs -> Prop) (C C' : fs -> Prop) f :
  fwp m Q C f -> (forall a g, Q a g -> Q' a g) -> (forall g, C g -> C' g) -> fwp m Q' C' f.
Proof.
  intros Hm HQ HC w Hf Hpc. eapply wp_mono; [by apply Hm|..]; [|by auto].
  intros a w' [Ha Hpc']. split; [by apply HQ|done].
Qed.

Lemma fwp_defer {A B} (c : io B) (m : io A) Q C f :
  fwp m (fun a => fwp c (fun _ => Q a) C) C f -> fwp (defer c m) Q C f.
Proof.
  intros Hm. apply fwp_bind. eapply fwp_mono; [exact Hm| |done].
  intros a g Hc. apply fwp_bind. eapply fwp_mono; [exact Hc| |done]. intros b g' Hq. by apply fwp_ret.
Qed.

Lemma fwp_sys {A} (op : Z -> N -> fs -> fs * result A) (Q : result A -> fs -> Prop) C f :
  (~ calm w0 -> C f /\ forall m, Q (Err (errorsNew m)) f) ->
  (forall n r, Q (op (time_at n) r f).2 (op (time_at n) r f).1) ->
  fwp (sys op) Q C f.
Proof.
  intros HX HQ w Hf Hpc.
  assert (~ calm w -> ~ calm w0) as Hn.
  { intros Hw Hc. apply Hw. intros n Hle. apply Hc. lia. }
  apply (wp_sys op w (w_fs w)); [apply after_refl|..].
  - intros w' Hc (-> & _ & _). subst f. by apply HX, Hn.
  - intros m w' Hc (-> & _ & Hle). subst f. split; [by apply HX, Hn|lia].
  - intros n r w' (-> & _ & Hle). subst f. split; [apply HQ|lia].
Qed.

Lemma fwp_read {A} (op : fs -> result A) (Q : result A -> fs -> Prop) C f :
  (~ calm w0 -> C f /\ forall m, Q (Err (errorsNew m)) f) -> Q (op f) f -> fwp (sys_read op) Q C f.
Proof. intros HX HQ. by apply fwp_sys. Qed.

Lemma fwp_Now (Q : Z -> fs -> Prop) C f : (forall n, Q (time_at n) f) -> fwp Now Q C f.
Proof. intros HQ w <- Hpc. unfold wp, Now. simpl. split; [apply HQ|lia]. Qed.

(** From the rules of AtomicFile, whose conclusions are up to scratch paths. *)
Lemma fwp_replaceFile always directory prefix path content mode fin (Q : result unit -> fs -> Prop) C f :
  is_dir f directory = true -> Dir path = directory -> plain_file f path -> scratch path = false ->
  (forall k, scratch (directory +:+ "/" +:+ prefix +:+ FormatUint k) = true /\
             Dir (directory +:+ "/" +:+ prefix +:+ FormatUint k) = directory) ->
  looks_at always directory fin ->
  (forall g, ~ calm w0 -> g ≡ f -> C g /\ forall e, Q (Err e) g) ->
  (forall g t, ~ calm w0 -> g ≡ <[path := NFile content mode (time_at t)]> f -> C g /\ forall e, Q (Err e) g) ->
  (forall g t, g ≡ <[path := NFile content mode (time_at t)]> f -> Q (Ok tt) g) ->
  fwp (replaceFile directory prefix path content mode fin) Q C f.
Proof.
  intros Hd Hpd Hpl Hs Htmp Hfin HX1 HX2 HQ w Hf Hpc.
  assert (~ calm w -> ~ calm w0) as Hn.
  { intros Hw Hc. apply Hw. intros n Hle. apply Hc. lia. }
  apply (wp_replaceFile always _ _ _ _ _ _ w f); try (exact Hd || exact Hpd || exact Hpl || exact Hs || exact Htmp || exact Hfin).
  - split; [done|]. by split.
  - intros w' Hc (Hg & _ & _). by apply (HX1 (w_fs w')); [apply Hn|].
  - intros t w' Hc (Hg & _ & _). by eapply (HX2 (w_fs w')); [apply Hn|].
  - intros e w' Hc (Hg & _ & Hle). split; [by apply (HX1 (w_fs w')); [apply Hn|]|lia].
  - intros t r w' (Hg & _ & Hle) Hr. split; [|lia]. destruct r as [[]|e]; [by eapply HQ|].
    eapply (HX2 (w_fs w')); [|exact Hg]. apply Hn. intros Hc. by specialize (Hr Hc).
Qed.

Lemma fwp_replaceLink always target path directory fin (Q : result unit -> fs -> Prop) C f :
  is_dir f directory = true -> Dir path = directory -> plain_file f path -> scratch path = false ->
  (forall z, scratch (path +:+ ".tmp-" +:+ FormatInt z) = true /\ Dir (path +:+ ".tmp-" +:+ FormatInt z) = directory) ->
  looks_at always directory fin ->
  (forall g, ~ calm w0 -> g ≡ f -> C g) ->
  (forall g, ~ calm w0 -> g ≡ <[path := NLink target]> f -> C g) ->
  (forall g e, g ≡ f -> Q (Err e) g) ->
  (forall g r, g ≡ <[path := NLink target]> f -> (always -> r = Ok tt) -> Q r g) ->
  fwp (replaceLink target path fin) Q C f.
Proof.
  intros Hd Hpd Hpl Hs Htmp Hfin HC1 HC2 HE HQ w Hf Hpc.
  assert (~ calm w -> ~ calm w0) as Hn.
  { intros Hw Hc. apply Hw. intros n Hle. apply Hc. lia. }
  apply (wp_replaceLink always target path directory fin w f); try (exact Hd || exact Hpd || exact Hpl || exact Hs || exact Htmp || exact Hfin).
  - split; [done|]. by split.
  - intros w' Hc (Hg & _ & _). by apply HC1; [apply Hn|].
  - intros w' Hc (Hg & _ & _). by apply HC2; [apply Hn|].
  - intros e w' _ (Hg & _ & Hle). split; [by apply HE|lia].
  - intros r w' (Hg & _ & Hle) _ Hal. split; [|lia]. apply HQ; [by rewrite Hg|done].
Qed.

Lemma fwp_syncDirectory p (Q : result unit -> fs -> Prop) C f :
  (~ calm w0 -> C f) -> (forall r, (calm w0 -> is_dir f p = true -> r = Ok tt) -> Q r f) ->
  fwp (syncDirectory p) Q C f.
Proof.
  intros HC HQ w Hf Hpc.
  assert (~ calm w -> ~ calm w0) as Hn.
  { intros Hw Hc. apply Hw. intros n Hle. apply Hc. lia. }
  apply (wp_syncDirectory p w f); [by split_and!|..].
  - intros w' Hc (-> & _ & _). by apply HC, Hn.
  - intros r w' (-> & _ & Hle) Hr. split; [|lia]. apply HQ. intros Hc Hd. apply Hr; [|done].
    intros n Hle'. apply Hc. lia.
Qed.

(** os.Remove of a scratch path, whatever it answers *)
Lemma fwp_remove_scratch tmp (Q : result unit -> fs -> Prop) C f :
  scratch tmp = true -> (forall g, ~ calm w0 -> g ≡ f -> C g) -> (forall g r, g ≡ f -> Q r g) ->
  fwp (Remove tmp) Q C f.
Proof.
  intros Hs HC HQ. apply fwp_sys.
  - intros Hc. split; [by apply HC|]. intros m. by apply HQ.
  - intros _ _. apply HQ. unfold fs_remove. destruct (f !! tmp) as [[]|]; simpl; try done.
    1,3: by apply delete_scratch. destruct (entry_names f tmp); simpl; [by apply delete_scratch|done].
Qed.
End fwp.

(** What an execution says. *)
Lemma fwp_run `{Env} {A} (m : io A) (Q : A -> fs -> Prop) C w : fwp w m Q C (w_fs w) ->
  match m w with (w', Done a) => Q a (w_fs w') | (w', Crashed) => C (w_fs w') end.
Proof.
  intros Hm. specialize (Hm w eq_refl (le_n _)). unfold wp in Hm. destruct (m w) as [w' [a|]]; [apply Hm|done].
Qed.
