(* ===== verification/XrayConfig.v ===== *)
(** * Validation of received Xray configurations (internal/xrayconfig, internal/xraybinary)

    [Validate] accepts a numbered configuration once: it checks the digest, has
    the Xray binary test the candidate, and records the verdict in
    validation.json, so that a repeated command is answered from the record and
    an older one is refused. *)

From stdpp Require Import base gmap strings list fin_maps.
From Stdlib Require Import ZArith NArith Ascii.
From S2P Require Import Prelude GoStrings Sha256 Json Os AtomicFile.

(** ** xraybinary: which executable is active *)

Definition ManagedPath : string := "xray-runtime/current/xray".

Section active_path.
Context `{Env}.

Definition existsOrUnknown (path : string) : io bool :=
  let! r := Lstat path in
  ret (match r with Ok _ => true | Err e => negb (errorsIs e SNotExist) end).

Definition ActivePath (bootstrapPath : string) : io string :=
  let! linked := existsOrUnknown "xray-runtime/current" in
  if linked then ret ManagedPath
  else let! applied := existsOrUnknown "xray-runtime/applied.json" in
       if applied then ret ManagedPath else ret bootstrapPath.
End active_path.

(** ** Requests and recorded results *)

Definition MaxConfigBytes : N := 4194304.
Definition maxErrorBytes : N := 2048.
Definition StatusValidated : string := "validated".
Definition StatusFailed : string := "validation_failed".

Record Request : Set := MkRequest {
  ConfigVersion : N;
  ConfigDigest : string;
  Config : string
}.

Record Result : Set := MkResult {
  rs_version : N;
  rs_digest : string;
  rs_status : string;
  rs_error : string;
  rs_at : Z
}.

#[export] Instance Request_eq : EqDecision Request.
Proof. solve_decision. Defined.
#[export] Instance Result_eq : EqDecision Result.
Proof. solve_decision. Defined.

Definition Success (r : Result) : bool := bool_decide (rs_status r = StatusValidated).

Definition cleanError (message : string) : string :=
  let m := TrimSpace message in
  if (maxErrorBytes <? slen m)%N then stake (N.to_nat maxErrorBytes) m else m.

Definition validateRequest (r : Request) : result unit :=
  let? _ := guard_err (ConfigVersion r =? 0)%N "config version must be greater than zero" in
  let? _ := guard_err ((slen (Config r) =? 0)%N || (MaxConfigBytes <? slen (Config r))%N)
              "config must be between 1 and 4194304 bytes" in
  let? _ := guard_err (negb (Valid (Config r))) "config is not valid JSON" in
  match DecodeString (ConfigDigest r) with
  | None => Err (errorsNew "config digest must be a SHA-256 hex digest")
  | Some decoded =>
      let? _ := guard_err (negb (slen decoded =? sha256_Size)%N)
                  "config digest must be a SHA-256 hex digest" in
      guard_err (negb (bool_decide (Sha256.Sum256 (Config r) = decoded)))
        "config digest does not match the received config"
  end.

(** ** validation.json *)

Definition zero_Result : Result := MkResult 0 "" "" "" 0.

Definition result_fields : list (string * setter Result) :=
  [("configVersion", fld (dec_uint 64) (fun v r => MkResult v (rs_digest r) (rs_status r) (rs_error r) (rs_at r)));
   ("configDigest", fld dec_string (fun v r => MkResult (rs_version r) v (rs_status r) (rs_error r) (rs_at r)));
   ("status", fld dec_string (fun v r => MkResult (rs_version r) (rs_digest r) v (rs_error r) (rs_at r)));
   ("error", fld dec_string (fun v r => MkResult (rs_version r) (rs_digest r) (rs_status r) v (rs_at r)));
   ("validatedAt", fld dec_int (fun v r => MkResult (rs_version r) (rs_digest r) (rs_status r) (rs_error r) v))].

Definition result_members (r : Result) : list (string * string) :=
  [("configVersion", FormatUint (rs_version r)); ("configDigest", quote (rs_digest r));
   ("status", quote (rs_status r))]
  ++ opt_member "error" (rs_error r) ++ [("validatedAt", FormatInt (rs_at r))].

Definition encode_Result (r : Result) : string := obj (result_members r) +:+ nl.

Definition parse_Result (raw : string) : result Result :=
  match decode_text true result_fields zero_Result raw with
  | None => Err (errorsNew "invalid JSON")
  | Some r =>
      if (rs_version r =? 0)%N || bool_decide (rs_digest r = "")
         || negb (bool_decide (rs_status r = StatusValidated) || bool_decide (rs_status r = StatusFailed))
      then Err (errorsNew "invalid config validation state") else Ok r
  end.

(** ** The runner and the manager *)

(** [Runner]: have a binary test a configuration file. *)
Class Runner : Type := runner_Validate : string -> string -> io (result unit).

(** Testing a configuration starts a process that writes no state of ours. *)
Class RunnerLaws `{Env} `{Runner} : Prop := runner_spec b p w :
  match runner_Validate b p w with
  | (w', Done _) => after w (w_fs w) w'
  | (w', Crashed) => after w (w_fs w) w' /\ ~ calm w
  end.

(** What the operating system reports of the child of [ExecRunner]: past its
    deadline, exited well, or failed with a message. *)
Inductive exec_status : Set := ExecDeadline | ExecOk | ExecFailed (message : string).

(** [ExecRunner.Validate], the child process given as [exec binary args dir]. *)
Definition ExecRunner (exec : string -> list string -> string -> io exec_status) : Runner :=
  fun binaryPath configPath =>
    let! s := exec binaryPath ["run"; "-test"; "-config"; configPath] (Dir binaryPath) in
    ret (match s with
         | ExecDeadline => Err (errorsNew "xray config validation timed out")
         | ExecOk => Ok tt
         | ExecFailed m => Err (errorsNew ("xray config validation failed: " +:+ cleanError m))
         end).

(** [Manager]: the configured binary and, when managed, the bootstrap path
    that [ActivePath] falls back to. *)
Record Manager : Set := MkManager { binaryPath : string; resolver : option string }.

Definition NewManager (path : string) : Manager := MkManager (TrimSpace path) None.
Definition NewManagedManager (path : string) : Manager := MkManager (TrimSpace path) (Some path).

Definition Enabled (m : Manager) : bool := negb (bool_decide (binaryPath m = "")).

Definition directory : string := "xray-config".
Definition candidatePath : string := "xray-config/candidate.json".
Definition validationPath : string := "xray-config/validation.json".

Section manager.
Context `{Env} `{Runner}.

Definition writeAtomic (path content : string) (mode : N) : io (result unit) :=
  replaceFile (Dir path) ".xui-agent-" path content mode (syncDirectory (Dir path)).

Definition loadResult : io (result Result) :=
  try! raw := ReadFile validationPath in lift (parse_Result raw).

Definition saveResult (r : Result) : io (result unit) :=
  writeAtomic validationPath (encode_Result r) 384.

(** The record decides a repeated or outdated request. *)
Definition admit_previous (request : Request) (previous : Result) : option (result Result) :=
  if (ConfigVersion request <? rs_version previous)%N then
    Some (Err (errorsNew ("config version " +:+ FormatUint (ConfigVersion request)
      +:+ " is older than local version " +:+ FormatUint (rs_version previous))))
  else if (ConfigVersion request =? rs_version previous)%N
          && negb (bool_decide (ConfigDigest request = rs_digest previous)) then
    Some (Err (errorsNew ("config version " +:+ FormatUint (ConfigVersion request)
      +:+ " has a different digest")))
  else if (ConfigVersion request =? rs_version previous)%N then Some (Ok previous)
  else None.

(** From os.MkdirAll to the end of [Validate]. *)
Definition validate_candidate (m : Manager) (request : Request) : io (result Result) :=
  try! _ := MkdirAll directory 448 catch e => ret (Err (errorW "create xray config state directory: " e)) in
  try! _ := Chmod directory 448 catch e => ret (Err (errorW "secure xray config state directory: " e)) in
  try! _ := writeAtomic candidatePath (Config request) 384
    catch e => ret (Err (errorW "write candidate xray config: " e)) in
  let! now := Now in
  let! path := (match resolver m with Some bootstrap => ActivePath bootstrap | None => ret (binaryPath m) end) in
  let! checked := runner_Validate path candidatePath in
  let r := match checked with
           | Ok _ => MkResult (ConfigVersion request) (ConfigDigest request) StatusValidated "" (now / 1000000000)
           | Err e => MkResult (ConfigVersion request) (ConfigDigest request) StatusFailed
                        (cleanError (err_text e)) (now / 1000000000)
           end in
  try! _ := saveResult r catch e => ret (Err (errorW "persist config validation state: " e)) in
  ret (Ok r).

Definition normalize (request : Request) : Request :=
  MkRequest (ConfigVersion request) (ToLower (TrimSpace (ConfigDigest request))) (Config request).

Definition Validate (m : Manager) (request : Request) : io (result Result) :=
  if negb (Enabled m) then ret (Err (errorsNew "xray binary path is not configured"))
  else
    let request := normalize request in
    match validateRequest request with
    | Err e => ret (Err e)
    | Ok _ =>
        let! loaded := loadResult in
        match loaded with
        | Ok previous =>
            match admit_previous request previous with
            | Some answer => ret answer
            | None => validate_candidate m request
            end
        | Err e =>
            if errorsIs e SNotExist then validate_candidate m request
            else ret (Err (errorW "load config validation state: " e))
        end
    end.
End manager.

(** ** Requests *)

Section theorems.
Context `{Env} `{RU : !Runner} `{!RunnerLaws}.

Lemma wp_runner b p w0 f (Q : result unit -> world -> Prop) C w :
  after w0 f w ->
  (forall w', ~ calm w0 -> after w0 f w' -> C w') ->
  (forall r w', after w0 f w' -> Q r w') ->
  wp (runner_Validate b p) Q C w.
Proof.
  intros Hw HC HQ. unfold wp. pose proof (runner_spec b p w) as Hr.
  pose proof Hw as [Hf _]. destruct (runner_Validate b p w) as [w' [r|]].
  - rewrite Hf in Hr. apply HQ. by eapply after_trans.
  - destruct Hr as [Ha Hn]. rewrite Hf in Ha. apply HC; [|by eapply after_trans].
    intros Hc. apply Hn. by eapply calm_after.
Qed.

Lemma wp_exists p w0 f (Q : bool -> world -> Prop) C w :
  after w0 f w ->
  (forall w', ~ calm w0 -> after w0 f w' -> C w') ->
  (forall b w', after w0 f w' -> (calm w0 -> b = bool_decide (is_Some (f !! p))) -> Q b w') ->
  wp (existsOrUnknown p) Q C w.
Proof.
  intros Hw HC HQ. apply wp_bind, (wp_sys_read _ w0 f); [done|auto|..].
  - intros m w' Hn Hw'. by apply wp_ret, HQ.
  - intros w' Hw'. apply wp_ret, HQ; [done|]. intros _. unfold fs_lstat.
    by destruct (f !! p).
Qed.

Lemma wp_ActivePath b w0 f (Q : string -> world -> Prop) C w :
  after w0 f w ->
  (forall w', ~ calm w0 -> after w0 f w' -> C w') ->
  (forall p w', after w0 f w' ->
     (calm w0 -> p = if bool_decide (is_Some (f !! "xray-runtime/current"))
                        || bool_decide (is_Some (f !! "xray-runtime/applied.json"))
                     then ManagedPath else b) -> Q p w') ->
  wp (ActivePath b) Q C w.
Proof.
  intros Hw HC HQ. apply wp_bind, (wp_exists _ w0 f); [done|done|].
  intros [] w1 Hw1 H1.
  { apply wp_ret, HQ; [done|]. intros Hc. by rewrite <- H1. }
  apply wp_bind, (wp_exists _ w0 f); [done|done|]. intros b2 w2 Hw2 H2.
  destruct b2; apply wp_ret, HQ; try done; intros Hc; by rewrite <- H1, <- H2 by done.
Qed.

(** ** What one validation leaves behind *)

(** The directory can be made and no directory is in the way of the files. *)
Definition shape (f : fs) : Prop :=
  dir_or_none f directory /\ plain_file f candidatePath /\ plain_file f validationPath.

(** One change of the store: the directory made, or a file of ours written. *)
Definition vstep (f g : fs) : Prop :=
  g ≡ f \/ dir_step directory f g \/
  exists q c n, q ∈ [candidatePath; validationPath] /\ g ≡ <[q := NFile c 384 (time_at n)]> f.

Lemma shape_equiv f g : f ≡ g -> shape f -> shape g.
Proof.
  intros Hfg (Hd & Hc & Hv). split_and!.
  - unfold dir_or_none in *. by rewrite <- (Hfg directory eq_refl).
  - by apply (plain_file_equiv f g).
  - by apply (plain_file_equiv f g).
Qed.

Lemma vstep_shape f g : shape f -> vstep f g -> shape g.
Proof.
  intros Hs [Hg|[Hg|(q & c & n & Hq & Hg)]].
  - by eapply shape_equiv.
  - destruct Hs as (Hd & Hc & Hv). split_and!; [by eapply dir_step_or_none|..];
      (destruct Hg as [->|(m & t & ->)]; [done|unfold plain_file; by rewrite lookup_insert_ne]).
  - apply (shape_equiv (<[q := NFile c 384 (time_at n)]> f)); [done|].
    destruct Hs as (Hd & Hc & Hv). unfold shape, dir_or_none, plain_file in *.
    rewrite !lookup_insert. set_unfold in Hq. destruct Hq as [-> |[-> |[]]];
      repeat case_decide; done.
Qed.

Lemma vsteps_shape f g : rtc vstep f g -> shape f -> shape g.
Proof. induction 1 as [|f g h Hs _ IH]; [done|]. intros Hf. by eapply IH, vstep_shape. Qed.

Lemma vstep_is_dir f g d : scratch d = false -> shape f -> vstep f g ->
  is_dir f d = true -> is_dir g d = true.
Proof.
  intros Hd (_ & Hc & Hv) [Hg|[[->|(m & t & ->)]|(q & c & n & Hq & Hg)]] Hi; [|done|..].
  - by rewrite (is_dir_equiv g f).
  - unfold is_dir in *. rewrite orb_true_iff in *. destruct Hi as [?|Hi]; [by left|right].
    rewrite lookup_insert. by case_decide.
  - rewrite (is_dir_equiv _ _ _ Hg Hd). apply is_dir_insert; [|done].
    set_unfold in Hq. by destruct Hq as [-> |[-> |[]]].
Qed.

Definition verdict (req : Request) (r : Result) : Prop :=
  rs_version r = ConfigVersion req /\ rs_digest r = ConfigDigest req /\
  ((rs_status r = StatusValidated /\ rs_error r = "") \/
   (rs_status r = StatusFailed /\ exists e, rs_error r = cleanError e)) /\
  exists n, rs_at r = (time_at n / 1000000000)%Z.

Definition recorded (g : fs) (r : Result) : Prop :=
  exists t, g !! validationPath = Some (NFile (encode_Result r) 384 t).

Lemma wp_writeConfig name content w0 f (Q : result unit -> world -> Prop) C w :
  let path := directory +:+ "/" +:+ name in
  after w0 f w ->
  is_dir f directory = true -> no_char slash name ->
  Dir path = directory -> plain_file f path -> scratch path = false ->
  path ∈ [candidatePath; validationPath] ->
  (forall g w', ~ calm w0 -> after w0 g w' -> vstep f g -> C w') ->
  (forall e g w', ~ calm w0 -> after w0 g w' -> vstep f g -> Q (Err e) w') ->
  (forall g t w', after w0 g w' -> g ≡ <[path := NFile content 384 (time_at t)]> f -> Q (Ok tt) w') ->
  wp (writeAtomic path content 384) Q C w.
Proof.
  intros path Hw Hd Hname Hdir Hp Hs Hin HC HE HQ. unfold writeAtomic. rewrite Hdir.
  apply (wp_replaceFile_in directory ".xui-agent-") with (always := False) (w0 := w0) (f := f); try done.
  - apply syncDirectory_looks.
  - intros g w' Hn Hg Hcase. apply (HC g); [done|done|].
    destruct Hcase as [?|[t ?]]; [by left|right; right; by exists path, content, t].
  - intros r g w' Hg [(Hn & [e ->] & Hgf)|(t & Hgf & Hr)].
    + eapply HE; [done|done|by left].
    + destruct r as [[]|e]; [by eapply HQ|].
      eapply HE; [|done|right; right; by exists path, content, t].
      intros Hc. by specialize (Hr Hc).
Qed.

Lemma wp_resolve m w0 f (Q : string -> world -> Prop) C w :
  after w0 f w ->
  (forall w', ~ calm w0 -> after w0 f w' -> C w') ->
  (forall p w', after w0 f w' -> Q p w') ->
  wp (match resolver m with Some b => ActivePath b | None => ret (binaryPath m) end) Q C w.
Proof.
  intros Hw HC HQ. destruct (resolver m); [|by apply wp_ret, HQ].
  apply (wp_ActivePath _ w0 f); [done|done|auto].
Qed.

Lemma wp_test m req w0 f (Q : result Result -> world -> Prop) C w :
  after w0 f w ->
  is_dir f directory = true -> shape f ->
  (forall g w', ~ calm w0 -> after w0 g w' -> rtc vstep f g -> C w') ->
  (forall e g w', ~ calm w0 -> after w0 g w' -> rtc vstep f g -> Q (Err e) w') ->
  (forall r g w', after w0 g w' -> rtc vstep f g -> recorded g r -> verdict req r ->
     Q (Ok r) w') ->
  wp (let! now := Now in
      let! path := (match resolver m with Some b => ActivePath b | None => ret (binaryPath m) end) in
      let! checked := runner_Validate path candidatePath in
      let r := match checked with
               | Ok _ => MkResult (ConfigVersion req) (ConfigDigest req) StatusValidated "" (now / 1000000000)
               | Err e => MkResult (ConfigVersion req) (ConfigDigest req) StatusFailed
                            (cleanError (err_text e)) (now / 1000000000)
               end in
      try! _ := saveResult r catch e => ret (Err (errorW "persist config validation state: " e)) in
      ret (Ok r)) Q C w.
Proof.
  intros Hw Hd Hp HC HE HQ.
  apply wp_bind, (wp_Now w0 f); [done|]. intros w1 Hw1.
  apply wp_bind, (wp_resolve m w0 f); [done|..].
  { intros w' Hn Hw'. by eapply HC. }
  intros path w2 Hw2. apply wp_bind, (wp_runner _ _ w0 f); [done|..].
  { intros w' Hn Hw'. by eapply HC. }
  intros checked w3 Hw3.
  set (r := match checked with Ok _ => _ | Err e => _ end).
  apply wp_try. unfold saveResult.
  apply (wp_writeConfig "validation.json" _ w0 f); try done; [apply Hp|set_solver|..].
  - intros g w' Hn Hg Hch. eapply HC; [done|done|by apply rtc_once].
  - intros e g w' Hn Hg Hch. eapply wp_ret, HE; [done|done|by apply rtc_once].
  - intros g t w' Hg Hgf. apply wp_ret. apply (HQ _ g); [done|..].
    + apply rtc_once. right; right. exists validationPath, (encode_Result r), t.
      split; [set_solver|done].
    + exists (time_at t). rewrite (Hgf validationPath eq_refl). apply lookup_insert_eq.
    + subst r. unfold verdict. destruct checked; simpl; split_and!; eauto.
Qed.

(** Whatever the environment does, a candidate run touches its own files
    only, and what it returns is what it recorded. *)
Lemma wp_validate_candidate m req w0 f (Q : result Result -> world -> Prop) C w :
  after w0 f w -> shape f ->
  (forall g w', ~ calm w0 -> after w0 g w' -> rtc vstep f g -> C w') ->
  (forall e g w', ~ calm w0 -> after w0 g w' -> rtc vstep f g -> Q (Err e) w') ->
  (forall r g w', after w0 g w' -> rtc vstep f g -> recorded g r -> verdict req r ->
     Q (Ok r) w') ->
  wp (validate_candidate m req) Q C w.
Proof.
  intros Hw Hs HC HE HQ. pose proof Hs as (Hdn & _).
  apply wp_try, (wp_MkdirAll _ _ w0 f); try done.
  { intros w' Hn Hw'. by eapply HC. }
  { intros e w' Hn Hw' _. by eapply wp_ret, HE. }
  intros g1 w1 Hw1 Hs1 Hd1.
  assert (rtc vstep f g1) as Hc1 by (apply rtc_once; right; by left).
  apply wp_try, (wp_Chmod_dir _ _ w0 g1); try done.
  { intros w' Hn Hw'. by eapply HC. }
  { intros e w' Hn Hw' _. by eapply wp_ret, HE. }
  intros g2 w2 Hw2 Hs2 Hd2.
  assert (rtc vstep f g2) as Hc2 by (eapply rtc_r; [done|]; right; by left).
  pose proof (vsteps_shape _ _ Hc2 Hs) as Hsh2.
  apply wp_try, (wp_writeConfig "candidate.json" _ w0 g2); try done; [apply Hsh2|set_solver|..].
  { intros g w' Hn Hg Hch. eapply HC; [done|done|by eapply rtc_r]. }
  { intros e g w' Hn Hg Hch. eapply wp_ret, HE; [done|done|by eapply rtc_r]. }
  intros g3 t w3 Hw3 Hg3.
  assert (vstep g2 g3) as Hst3.
  { right; right. exists candidatePath, (Config req), t. split; [set_solver|done]. }
  assert (rtc vstep f g3) as Hc3 by by eapply rtc_r.
  eapply (wp_test m req w0 g3); try done.
  - by eapply vstep_is_dir.
  - by eapply vsteps_shape.
  - intros g w' Hn Hg Hch. eapply HC; [done|done|by etrans].
  - intros e g w' Hn Hg Hch. eapply HE; [done|done|by etrans].
  - intros r g w' Hg Hch Hr Hv. eapply HQ; try done. by etrans.
Qed.

(** ** The decision before any candidate is written *)

(** What validation.json holds. *)
Definition stored (f : fs) : result Result := rbind (fs_readfile f validationPath) parse_Result.

Definition decision (m : Manager) (req : Request) (f : fs) : option (result Result) :=
  if negb (Enabled m) then Some (Err (errorsNew "xray binary path is not configured"))
  else match validateRequest (normalize req) with
       | Err e => Some (Err e)
       | Ok _ => match stored f with
                 | Ok previous => admit_previous (normalize req) previous
                 | Err e => if errorsIs e SNotExist then None
                            else Some (Err (errorW "load config validation state: " e))
                 end
       end.

Lemma wp_Validate m req w0 f (Q : result Result -> world -> Prop) C w :
  after w0 f w -> shape f ->
  (forall g w', ~ calm w0 -> after w0 g w' -> rtc vstep f g -> C w') ->
  (forall e g w', ~ calm w0 -> after w0 g w' -> rtc vstep f g -> Q (Err e) w') ->
  (forall a w', after w0 f w' -> decision m req f = Some a -> Q a w') ->
  (forall r g w', after w0 g w' -> rtc vstep f g -> decision m req f = None ->
     recorded g r -> verdict (normalize req) r -> Q (Ok r) w') ->
  wp (Validate m req) Q C w.
Proof.
  intros Hw Hs HC HE HA HQ. unfold Validate, decision in *.
  destruct (Enabled m); [|by apply wp_ret, HA]. simpl in *.
  destruct (validateRequest (normalize req)); [|by apply wp_ret, HA].
  apply wp_bind, wp_try, (wp_sys_read _ w0 f); [done|..].
  { intros w' Hn Hw'. by eapply HC. }
  { intros msg w' Hn Hw'. apply wp_ret. by eapply wp_ret, HE. }
  intros w1 Hw1. unfold stored in *.
  destruct (fs_readfile f validationPath) as [raw|e]; simpl in *; apply wp_ret.
  - destruct (parse_Result raw) as [previous|e].
    + destruct (admit_previous _ previous) as [answer|]; [by apply wp_ret, HA|].
      apply (wp_validate_candidate _ _ w0 f); eauto.
    + destruct (errorsIs e SNotExist); [|by apply wp_ret, HA].
      apply (wp_validate_candidate _ _ w0 f); eauto.
  - destruct (errorsIs e SNotExist); [|by apply wp_ret, HA].
    apply (wp_validate_candidate _ _ w0 f); eauto.
Qed.

Lemma recorded_stored g r :
  recorded g r -> parse_Result (encode_Result r) = Ok r -> stored g = Ok r.
Proof.
  intros [t Hg] Hr. unfold stored. by rewrite (fs_readfile_file _ _ _ _ _ Hg).
Qed.
End theorems.

(** ** Requests that are accepted *)

Lemma DecodeString_sha256 d raw :
  ToLower d = d ->
  (DecodeString d = Some (Sha256.Sum256 raw) <-> d = sha256_hex raw).
Proof.
  intros Hd. split.
  - intros HD. symmetry. by apply EncodeToString_DecodeString.
  - intros ->. apply DecodeString_EncodeToString.
Qed.

Lemma sum256_slen raw : slen (Sha256.Sum256 raw) = sha256_Size.
Proof. unfold slen. by rewrite Sha256.Sum256_length. Qed.

Lemma validateRequest_iff r :
  ToLower (ConfigDigest r) = ConfigDigest r ->
  (validateRequest r = Ok tt <->
   (0 < ConfigVersion r)%N /\ (0 < slen (Config r) <= MaxConfigBytes)%N /\
   Valid (Config r) = true /\ ConfigDigest r = sha256_hex (Config r)).
Proof.
  intros Hd. unfold validateRequest. rewrite <- (DecodeString_sha256 _ _ Hd).
  destruct (N.eqb_spec (ConfigVersion r) 0) as [Hv|Hv]; simpl; [split; [done|lia]|].
  destruct (N.eqb_spec (slen (Config r)) 0) as [Hl|Hl]; simpl; [split; [done|lia]|].
  destruct (N.ltb_spec MaxConfigBytes (slen (Config r))) as [Hm|Hm]; simpl; [split; [done|lia]|].
  destruct (Valid (Config r)); simpl; [|split; [done|by intros (_ & _ & ? & _)]].
  destruct (DecodeString (ConfigDigest r)) as [d|]; [|split; [done|by intros (_ & _ & _ & ?)]].
  destruct (N.eqb_spec (slen d) sha256_Size) as [Hs|Hs]; simpl.
  - case_bool_decide as Hb; simpl; [|split; [done|intros (_ & _ & _ & ?); congruence]].
    subst d. split; [|done]. intros _. split_and!; try done; lia.
  - split; [done|]. intros (_ & _ & _ & [= ->]). by rewrite sum256_slen in Hs.
Qed.

(** ** validation.json round trip *)

Lemma verdict_members_ok r : Forall member_ok (result_members r).
Proof.
  unfold result_members. members_ok.
Qed.

Lemma parse_encode_Result r :
  is_u64 (rs_version r) -> rs_version r <> 0%N -> rs_digest r <> "" ->
  ValidString (rs_digest r) = true -> ValidString (rs_error r) = true ->
  rs_status r = StatusValidated \/ rs_status r = StatusFailed -> is_i64 (rs_at r) ->
  parse_Result (encode_Result r) = Ok r.
Proof.
  intros Hv Hv0 Hd0 Hd He Hs Ha. unfold parse_Result, encode_Result.
  rewrite decode_text_obj by (done || apply verdict_members_ok).
  assert (ValidString (rs_status r) = true) as Hsv by (by destruct Hs as [-> | ->]).
  destruct r as [v d s e a]; simpl in *. unfold result_members, opt_member; simpl.
  unfold field_for. destruct (bool_decide_reflect (e = "")) as [->|Hne]; simpl.
  all: repeat (rewrite fld_uint || rewrite fld_string || rewrite fld_int); try done; simpl.
  all: rewrite (proj2 (N.eqb_neq _ _)), bool_decide_false by done; simpl.
  all: by destruct Hs as [-> | ->].
Qed.

(** ** Properties *)

Lemma ToLower_normalize req : ToLower (ConfigDigest (normalize req)) = ConfigDigest (normalize req).
Proof. apply ToLower_idem. Qed.

(** A request passes the checks exactly when it has a version, carries 1 to
    [MaxConfigBytes] bytes of valid JSON, and its digest, trimmed and lowered,
    is the SHA-256 of those bytes in lower-case hex. *)
Theorem validateRequest_accepts req :
  validateRequest (normalize req) = Ok tt <->
  (0 < ConfigVersion req)%N /\ (0 < slen (Config req) <= MaxConfigBytes)%N /\
  Valid (Config req) = true /\
  ToLower (TrimSpace (ConfigDigest req)) = sha256_hex (Config req).
Proof. apply validateRequest_iff, ToLower_normalize. Qed.

(** A request for the configuration text [c] as version [v]. *)
Definition request_of (v : N) (c : string) : Request := MkRequest v (sha256_hex c) c.

Section properties.
Context `{Env} `{RU : !Runner} `{!RunnerLaws}.

Lemma decision_answer m req f r :
  decision m req f = Some (Ok r) ->
  validateRequest (normalize req) = Ok tt /\ stored f = Ok r /\
  rs_version r = ConfigVersion req /\ rs_digest r = ConfigDigest (normalize req).
Proof.
  unfold decision. destruct (negb (Enabled m)); [done|].
  destruct (validateRequest (normalize req)) as [[]|e]; [|done].
  destruct (stored f) as [p|e]; [|by destruct (errorsIs e SNotExist)].
  unfold admit_previous. destruct (_ <? _)%N; [done|].
  destruct (N.eqb_spec (ConfigVersion (normalize req)) (rs_version p)) as [Hv|]; [|done].
  case_bool_decide as Hd; simpl; [|done]. by intros [= <-].
Qed.

Lemma verdict_parses req r :
  is_u64 (ConfigVersion req) -> validateRequest (normalize req) = Ok tt ->
  verdict (normalize req) r -> ValidString (rs_error r) = true ->
  (forall n, is_i64 (time_at n)) ->
  parse_Result (encode_Result r) = Ok r.
Proof.
  intros Hu Hok (Hv & Hd & Hs & n & Ha) He Ht.
  apply validateRequest_iff in Hok as (Hv0 & _ & _ & Hdig); [|apply ToLower_normalize].
  pose proof (sha256_hex_length (Config (normalize req))) as Hlen.
  apply parse_encode_Result; [by rewrite Hv|rewrite Hv; simpl in *; lia|..].
  - rewrite Hd, Hdig. intros E. by rewrite E in Hlen.
  - rewrite Hd, Hdig. apply is_ascii_ValidString.
    eapply sforall_impl; [|apply sha256_hex_lower]. intros c.
    by destruct c as [[] [] [] [] [] [] [] []].
  - done.
  - destruct Hs as [[-> _]|[-> _]]; [by left|by right].
  - rewrite Ha. specialize (Ht n). unfold is_i64 in *.
    split; [apply Z.div_le_lower_bound; lia|apply Z.div_lt_upper_bound; lia].
Qed.

(** Whatever fails and however the runner answers, the verdict that
    [Validate] returns is for the request's own version and digest, the digest
    is that of the configuration received, and the verdict is what
    validation.json holds afterwards. *)
Theorem Validate_recorded m req w :
  shape (w_fs w) -> is_u64 (ConfigVersion req) -> (forall n, is_i64 (time_at n)) ->
  match Validate m req w with
  | (w', Done (Ok r)) =>
      ValidString (rs_error r) = true ->
      stored (w_fs w') = Ok r /\ rs_version r = ConfigVersion req /\
      rs_digest r = sha256_hex (Config req)
  | _ => True
  end.
Proof.
  intros Hs Hu Ht.
  assert (wp (Validate m req) (fun a w' => forall r, a = Ok r -> ValidString (rs_error r) = true ->
      stored (w_fs w') = Ok r /\ rs_version r = ConfigVersion req /\
      rs_digest r = sha256_hex (Config req)) (fun _ => True) w) as Hwp.
  { apply (wp_Validate _ _ w (w_fs w)); try done.
    - intros a w' [Hw' _] Ha r -> _. apply decision_answer in Ha as (Hok & Hst & Hv & Hd).
      apply validateRequest_accepts in Hok as (_ & _ & _ & Hdig).
      rewrite Hw', Hd. simpl. by rewrite Hdig.
    - intros r g w' [Hg _] _ Hdec Hr Hverd r' [= <-] He.
      assert (validateRequest (normalize req) = Ok tt) as Hok.
      { unfold decision in Hdec. destruct (negb (Enabled m)); [done|].
        by destruct (validateRequest (normalize req)) as [[]|]. }
      rewrite Hg. split.
      + apply recorded_stored; [done|]. by eapply verdict_parses.
      + apply validateRequest_accepts in Hok as (_ & _ & _ & Hdig).
        destruct Hverd as (-> & -> & _). simpl. by rewrite Hdig. }
  unfold wp in Hwp. destruct (Validate m req w) as [w' [[r|]|]]; [|done|done].
  intros He. by apply Hwp.
Qed.

(** Once a verdict is recorded, no request makes [Validate] answer for an
    older version, and a request for the recorded version gets the recorded
    verdict back, whatever fails in between. *)
Theorem Validate_monotone m req previous w :
  shape (w_fs w) -> stored (w_fs w) = Ok previous ->
  match Validate m req w with
  | (w', Done (Ok r)) =>
      (rs_version previous <= rs_version r)%N /\
      (rs_version r = rs_version previous -> r = previous /\ w_fs w' = w_fs w)
  | _ => True
  end.
Proof.
  intros Hs Hp.
  assert (wp (Validate m req) (fun a w' => forall r, a = Ok r ->
      (rs_version previous <= rs_version r)%N /\
      (rs_version r = rs_version previous -> r = previous /\ w_fs w' = w_fs w))
      (fun _ => True) w) as Hwp.
  { apply (wp_Validate _ _ w (w_fs w)); try done.
    - intros a w' [Hw' _] Ha r ->. apply decision_answer in Ha as (_ & Hst & _).
      rewrite Hp in Hst. injection Hst as <-. done.
    - intros r g w' [Hg _] _ Hdec Hr Hverd r' [= <-].
      assert (rs_version previous < ConfigVersion req)%N as Hlt.
      { unfold decision in Hdec. destruct (negb (Enabled m)); [done|].
        destruct (validateRequest (normalize req)); [|done]. rewrite Hp in Hdec.
        unfold admit_previous in Hdec. simpl in Hdec.
        destruct (N.ltb_spec (ConfigVersion req) (rs_version previous)); [done|].
        destruct (N.eqb_spec (ConfigVersion req) (rs_version previous)); [|lia].
        by case_bool_decide. }
      destruct Hverd as (Hv & _). simpl in Hv. lia. }
  unfold wp in Hwp. destruct (Validate m req w) as [w' [[r|]|]]; [|done|done].
  by apply Hwp.
Qed.

(** When nothing fails, a well-formed request newer than the recorded one
    is answered with a verdict, which is recorded. *)
Theorem Validate_total m req w :
  calm w -> shape (w_fs w) -> Enabled m = true ->
  validateRequest (normalize req) = Ok tt ->
  match stored (w_fs w) with
  | Ok previous => (rs_version previous < ConfigVersion req)%N
  | Err e => errorsIs e SNotExist = true
  end ->
  exists w' r, Validate m req w = (w', Done (Ok r)) /\ recorded (w_fs w') r /\
    verdict (normalize req) r.
Proof.
  intros Hc Hs Hen Hok Hst.
  assert (decision m req (w_fs w) = None) as Hdec.
  { unfold decision. rewrite Hen, Hok. simpl. destruct (stored (w_fs w)) as [p|e].
    - unfold admit_previous. simpl. destruct (N.ltb_spec (ConfigVersion req) (rs_version p)); [lia|].
      destruct (N.eqb_spec (ConfigVersion req) (rs_version p)); [lia|done].
    - by rewrite Hst. }
  assert (wp (Validate m req) (fun a w' => exists r, a = Ok r /\ recorded (w_fs w') r /\
    verdict (normalize req) r) (fun _ => False) w) as Hwp.
  { apply (wp_Validate _ _ w (w_fs w)); try done.
    - intros a w' _ Ha. congruence.
    - intros r g w' [Hg _] _ _ Hr Hv. exists r. by rewrite Hg. }
  unfold wp in Hwp. destruct (Validate m req w) as [w' [a|]]; [|done].
  destruct Hwp as (r & -> & ?). by exists w', r.
Qed.
End properties.

(** ** Witnesses: a quiet environment, a runner that accepts everything *)

Definition ok_runner : Runner := fun _ _ => ret (Ok tt).

Lemma ok_runner_laws (E : Env) : RunnerLaws (H := E) (H0 := ok_runner).
Proof. intros b p w. apply after_refl. Qed.

Definition ex_config : string := "[]".
Definition ex_manager : Manager := NewManager "/usr/bin/xray".
Definition ex_world : world := World (<["xray-config" := NDir 448 0]> ∅) 0 None.
Definition ex_record : Result := MkResult 6 (sha256_hex ex_config) StatusValidated "" 1700000000.
Definition ex_world2 : world :=
  World (<[validationPath := NFile (encode_Result ex_record) 384 0]> (w_fs ex_world)) 0 None.

Lemma Validate_recorded_witness :
  shape (w_fs ex_world) /\
  match Validate (H := calm_env) (H0 := ok_runner) ex_manager (request_of 7 ex_config) ex_world with
  | (w', Done (Ok r)) =>
      ValidString (rs_error r) = true ->
      stored (w_fs w') = Ok r /\ rs_version r = 7%N /\ rs_digest r = sha256_hex ex_config
  | _ => True
  end.
Proof.
  assert (shape (w_fs ex_world)) as Hs by (by vm_compute). split; [done|].
  apply (@Validate_recorded calm_env ok_runner (ok_runner_laws calm_env)
    ex_manager (request_of 7 ex_config) ex_world); [done|by vm_compute|apply calm_env_i64].
Defined.

Lemma Validate_monotone_witness :
  stored (w_fs ex_world2) = Ok ex_record /\
  match Validate (H := calm_env) (H0 := ok_runner) ex_manager (request_of 6 ex_config) ex_world2 with
  | (w', Done (Ok r)) =>
      (rs_version ex_record <= rs_version r)%N /\
      (rs_version r = rs_version ex_record -> r = ex_record /\ w_fs w' = w_fs ex_world2)
  | _ => True
  end.
Proof.
  assert (shape (w_fs ex_world2)) as Hs by (by vm_compute).
  assert (stored (w_fs ex_world2) = Ok ex_record) as Hst by (vm_compute; reflexivity).
  pose proof (@Validate_monotone calm_env ok_runner (ok_runner_laws calm_env)
    ex_manager (request_of 6 ex_config) ex_record ex_world2 Hs Hst) as Hm.
  split; [exact Hst|exact Hm].
Defined.

Lemma Validate_total_witness :
  exists w' r, Validate (H := calm_env) (H0 := ok_runner) ex_manager (request_of 7 ex_config) ex_world2
    = (w', Done (Ok r)) /\ recorded (w_fs w') r /\
      verdict (H := calm_env) (normalize (request_of 7 ex_config)) r.
Proof.
  apply (@Validate_total calm_env ok_runner (ok_runner_laws calm_env)
    ex_manager (request_of 7 ex_config) ex_world2).
  - apply calm_env_calm.
  - by vm_compute.
  - vm_compute. reflexivity.
  - vm_compute. reflexivity.
  - vm_compute. reflexivity.
Defined.
