(* ===== verification/XrayTypes.v ===== *)
(** * State of the Xray configuration runtime (internal/xrayruntime, data)

    The values the manager keeps in applied.json, apply-pending.json and
    apply-failed.json with their JSON codecs, the names of the immutable
    configuration versions and the checks on them. *)

From stdpp Require Import base gmap strings list fin_maps.
From Stdlib Require Import ZArith NArith Ascii.
From S2P Require Import Prelude GoStrings Sha256 Json.

(** ** Constants *)

Definition StatusApplied : string := "applied".
Definition StatusApplyFailed : string := "apply_failed".

Definition ErrorCodeValidationFailed : string := "validation_failed".
Definition ErrorCodePreparationFailed : string := "preparation_failed".
Definition ErrorCodeActivationFailed : string := "activation_failed".
Definition ErrorCodePersistenceFailed : string := "persistence_failed".
Definition ErrorCodeRecoveryFailed : string := "recovery_failed".
Definition ErrorCodeUnclassified : string := "unclassified".

Definition RecoveryStatusNotRequired : string := "not_required".
Definition RecoveryStatusRolledBack : string := "rolled_back".
Definition RecoveryStatusFailed : string := "failed".
Definition RecoveryStatusUnknown : string := "unknown".

Definition maxStateBytes : N := 65536.
Definition retainedVersions : nat := 5.

(** ** State records *)

Record Request : Set := MkRequest {
  rq_version : N;
  rq_digest : string;
  rq_config : string
}.

Record Result : Set := MkResult {
  r_version : N;
  r_digest : string;
  r_status : string;
  r_error : string;
  r_code : string;
  r_recovery : string;
  r_at : Z;
  r_rolled : bool
}.

Record AppliedState : Set := MkApplied {
  a_version : N;
  a_digest : string;
  a_target : string;
  a_at : Z
}.

Record pendingState : Set := MkPending {
  p_target : string;
  p_prev : string;
  p_prev_applied : option AppliedState;
  p_version : N;
  p_digest : string;
  p_started : Z
}.

#[export] Instance AppliedState_eq : EqDecision AppliedState.
Proof. solve_decision. Defined.
#[export] Instance pendingState_eq : EqDecision pendingState.
Proof. solve_decision. Defined.
#[export] Instance Result_eq : EqDecision Result.
Proof. solve_decision. Defined.

Definition Success (r : Result) : bool := bool_decide (r_status r = StatusApplied).

(** ** Version names *)

Definition validateTarget (target : string) : result unit :=
  let? _ := guard_err (bool_decide (target = "") || IsAbs target
                       || negb (bool_decide (Clean target = target)))
              "Xray config target is invalid" in
  guard_err (negb (HasPrefix target "versions/")
             || contains_char slash (TrimPrefix target "versions/"))
    "Xray config target is outside the versions directory".

(** configTargetMetadata: the version and digest a target is named after. *)
Definition configTargetMetadata (target : string) : result (N * string) :=
  let? _ := validateTarget target in
  let name := TrimSuffix (Base target) ".json" in
  match Split name "-" with
  | p0 :: p1 :: _ =>
      if negb (bool_decide (String.length p0 = 20%nat))
         || negb (bool_decide (slen p1 = (sha256_Size * 2)%N))
      then Err (errorsNew "Xray config target name has no valid metadata")
      else match ParseUint p0 64 with
           | None => Err (errorsNew "Xray config target name has no valid version")
           | Some version =>
               if (version =? 0)%N then Err (errorsNew "Xray config target name has no valid version")
               else match DecodeString p1 with
                    | None => Err (errorsNew "Xray config target name has no valid digest")
                    | Some _ => Ok (version, ToLower p1)
                    end
           end
  | _ => Err (errorsNew "Xray config target name has no valid metadata")
  end.

Definition configTargetDigest (target : string) : result string :=
  let? m := configTargetMetadata target in Ok m.2.

(** The names [installVersion] and [writeRepairVersion] give. *)
Definition version_target (version : N) (digest : string) : string :=
  "versions/" +:+ pad20 version +:+ "-" +:+ digest +:+ ".json".
Definition repair_target (version : N) (digest : string) (nano : Z) : string :=
  "versions/" +:+ pad20 version +:+ "-" +:+ digest +:+ "-repair-" +:+ FormatInt nano +:+ ".json".

Definition mustDecodeDigest (value : string) : string :=
  match DecodeString value with Some raw => raw | None => "" end.

Definition validateAppliedState (a : AppliedState) : result unit :=
  let? _ := guard_err ((a_version a =? 0)%N
                       || negb (bool_decide (slen (a_digest a) = (sha256_Size * 2)%N))
                       || bool_decide (a_at a <= 0)%Z)
              "applied Xray config state is incomplete" in
  match DecodeString (a_digest a) with
  | None => Err (errorsNew "applied Xray config digest is invalid")
  | Some _ => validateTarget (a_target a)
  end.

(** ** JSON *)

Definition zero_applied : AppliedState := MkApplied 0 "" "" 0.

Definition applied_fields : list (string * setter AppliedState) :=
  [("configVersion", fld (dec_uint 64) (fun v a => MkApplied v (a_digest a) (a_target a) (a_at a)));
   ("configDigest", fld dec_string (fun v a => MkApplied (a_version a) v (a_target a) (a_at a)));
   ("target", fld dec_string (fun v a => MkApplied (a_version a) (a_digest a) v (a_at a)));
   ("appliedAt", fld dec_int (fun v a => MkApplied (a_version a) (a_digest a) (a_target a) v))].

Definition applied_members (a : AppliedState) : list (string * string) :=
  [("configVersion", FormatUint (a_version a)); ("configDigest", quote (a_digest a));
   ("target", quote (a_target a)); ("appliedAt", FormatInt (a_at a))].

Definition encode_applied (a : AppliedState) : string := obj (applied_members a) +:+ nl.

Definition zero_pending : pendingState := MkPending "" "" None 0 "" 0.

Definition pending_fields : list (string * setter pendingState) :=
  [("commandTarget", fld dec_string (fun v p => MkPending v (p_prev p) (p_prev_applied p) (p_version p) (p_digest p) (p_started p)));
   ("previousTarget", fld dec_string (fun v p => MkPending (p_target p) v (p_prev_applied p) (p_version p) (p_digest p) (p_started p)));
   ("previousApplied", ptr (decode_obj true applied_fields zero_applied)
      (fun v p => MkPending (p_target p) (p_prev p) v (p_version p) (p_digest p) (p_started p)));
   ("configVersion", fld (dec_uint 64) (fun v p => MkPending (p_target p) (p_prev p) (p_prev_applied p) v (p_digest p) (p_started p)));
   ("configDigest", fld dec_string (fun v p => MkPending (p_target p) (p_prev p) (p_prev_applied p) (p_version p) v (p_started p)));
   ("startedAt", fld dec_int (fun v p => MkPending (p_target p) (p_prev p) (p_prev_applied p) (p_version p) (p_digest p) v))].

Definition prev_applied_member (o : option AppliedState) : list (string * string) :=
  match o with Some a => [("previousApplied", obj (applied_members a))] | None => [] end.

Definition pending_members (p : pendingState) : list (string * string) :=
  [("commandTarget", quote (p_target p))]
  ++ opt_member "previousTarget" (p_prev p)
  ++ prev_applied_member (p_prev_applied p)
  ++ [("configVersion", FormatUint (p_version p)); ("configDigest", quote (p_digest p));
      ("startedAt", FormatInt (p_started p))].

Definition encode_pending (p : pendingState) : string := obj (pending_members p) +:+ nl.

Definition zero_result : Result := MkResult 0 "" "" "" "" "" 0 false.

Definition result_fields : list (string * setter Result) :=
  [("configVersion", fld (dec_uint 64) (fun v r => MkResult v (r_digest r) (r_status r) (r_error r) (r_code r) (r_recovery r) (r_at r) (r_rolled r)));
   ("configDigest", fld dec_string (fun v r => MkResult (r_version r) v (r_status r) (r_error r) (r_code r) (r_recovery r) (r_at r) (r_rolled r)));
   ("status", fld dec_string (fun v r => MkResult (r_version r) (r_digest r) v (r_error r) (r_code r) (r_recovery r) (r_at r) (r_rolled r)));
   ("error", fld dec_string (fun v r => MkResult (r_version r) (r_digest r) (r_status r) v (r_code r) (r_recovery r) (r_at r) (r_rolled r)));
   ("errorCode", fld dec_string (fun v r => MkResult (r_version r) (r_digest r) (r_status r) (r_error r) v (r_recovery r) (r_at r) (r_rolled r)));
   ("recoveryStatus", fld dec_string (fun v r => MkResult (r_version r) (r_digest r) (r_status r) (r_error r) (r_code r) v (r_at r) (r_rolled r)));
   ("appliedAt", fld dec_int (fun v r => MkResult (r_version r) (r_digest r) (r_status r) (r_error r) (r_code r) (r_recovery r) v (r_rolled r)));
   ("rolledBack", fld dec_bool (fun v r => MkResult (r_version r) (r_digest r) (r_status r) (r_error r) (r_code r) (r_recovery r) (r_at r) v))].

Definition result_members (r : Result) : list (string * string) :=
  [("configVersion", FormatUint (r_version r)); ("configDigest", quote (r_digest r));
   ("status", quote (r_status r))]
  ++ opt_member "error" (r_error r) ++ opt_member "errorCode" (r_code r)
  ++ opt_member "recoveryStatus" (r_recovery r)
  ++ (if bool_decide (r_at r = 0)%Z then [] else [("appliedAt", FormatInt (r_at r))])
  ++ (if r_rolled r then [("rolledBack", "true")] else []).

Definition encode_result (r : Result) : string := obj (result_members r) +:+ nl.

(** readJSONFile, after the file was read *)
Definition parse_json {T} (fields : list (string * setter T)) (zero : T) (raw : string) : result T :=
  let? _ := guard_err ((slen raw =? 0)%N || (maxStateBytes <? slen raw)%N)
              "Xray config state has an invalid size" in
  match decode_text true fields zero raw with
  | Some x => Ok x
  | None => Err (errorsNew "Xray config state is not valid")
  end.

Definition parse_applied (raw : string) : result AppliedState :=
  let? a := parse_json applied_fields zero_applied raw in
  let? _ := validateAppliedState a in Ok a.

(** The checks of loadPending. *)
Definition validatePending (p : pendingState) : result unit :=
  let? _ := guard_err ((p_version p =? 0)%N
                       || negb (bool_decide (slen (p_digest p) = (sha256_Size * 2)%N))
                       || bool_decide (p_started p <= 0)%Z)
              "pending Xray config state is incomplete" in
  let? _ := validateTarget (p_target p) in
  let? m := configTargetMetadata (p_target p) in
  let? _ := guard_err (negb (bool_decide (m.1 = p_version p)) || negb (bool_decide (m.2 = p_digest p)))
              "pending Xray config metadata differs from its immutable target" in
  let? _ := (if bool_decide (p_prev p = "") then Ok tt else validateTarget (p_prev p)) in
  match p_prev_applied p with
  | None => Ok tt
  | Some a =>
      let? _ := guard_err (bool_decide (p_prev p = "") || negb (bool_decide (a_target a = p_prev p)))
                  "pending Xray config rollback state does not match its target" in
      match validateAppliedState a with
      | Ok _ => Ok tt
      | Err _ => Err (errorsNew "pending Xray config rollback state is invalid")
      end
  end.

Definition parse_pending (raw : string) : result pendingState :=
  let? p := parse_json pending_fields zero_pending raw in
  let? _ := validatePending p in Ok p.

(** LoadFailureState, after the file was read *)
Definition parse_failed (raw : string) : result Result :=
  let? r := parse_json result_fields zero_result raw in
  let? _ := guard_err (negb (bool_decide (r_status r = StatusApplyFailed)) || (r_version r =? 0)%N
                       || negb (bool_decide (slen (r_digest r) = (sha256_Size * 2)%N)))
              "failed Xray config state is incomplete" in
  let code := if bool_decide (r_code r = "") then ErrorCodeUnclassified else r_code r in
  let recovery := if bool_decide (r_recovery r = "") then
                    (if r_rolled r then RecoveryStatusRolledBack else RecoveryStatusUnknown)
                  else r_recovery r in
  Ok (MkResult (r_version r) (r_digest r) (r_status r) (r_error r) code recovery (r_at r) (r_rolled r)).

Definition resultFromApplied (a : AppliedState) : Result :=
  MkResult (a_version a) (a_digest a) StatusApplied "" "" "" (a_at a) false.

Definition cleanError (message : string) : string :=
  let m := TrimSpace message in
  if (2048 <? slen m)%N then stake 2048 m else m.

(** newApplyError and ErrorDetails *)
Definition newApplyError (code recoveryStatus : string) (e : error) : error :=
  MkError (err_text e) (err_is e) (Some (code, recoveryStatus)).

Definition ErrorDetails (e : error) : string * string :=
  match err_class e with
  | Some d => d
  | None => (ErrorCodeUnclassified, RecoveryStatusUnknown)
  end.

(** ** Targets *)

Lemma HasPrefix_length_app p n : HasPrefix (p +:+ n) p = true.
Proof. apply HasPrefix_app. Qed.

Lemma no_char_contains c s : no_char c s <-> contains_char c s = false.
Proof. done. Qed.

Lemma entry_versions : entry_name "versions".
Proof. by split_and!. Qed.

Lemma validateTarget_ok target :
  validateTarget target = Ok tt <-> exists n, entry_name n /\ target = "versions/" +:+ n.
Proof.
  split.
  - unfold validateTarget. intros H. apply rbind_Ok in H as ([] & H1 & H2).
    apply guard_err_Ok in H1, H2. rewrite !orb_false_iff, !negb_false_iff, !bool_decide_eq_true,
      bool_decide_eq_false in *. destruct H1 as [[H0 Ha] Hc], H2 as [Hp Hs].
    apply HasPrefix_inv in Hp as [n ->]. rewrite TrimPrefix_app in Hs.
    exists n. split; [|done]. split_and!; [done|intros ->..]; vm_compute in Hc; congruence.
  - intros (n & Hn & ->). unfold validateTarget.
    change ("versions/" +:+ n) with ("versions" +:+ String slash n).
    rewrite Clean_two by (done || apply entry_versions).
    rewrite bool_decide_false, IsAbs_entry, bool_decide_true by
      (done || apply entry_versions). cbn [orb negb guard_err rbind].
    change ("versions" +:+ String slash n) with ("versions/" +:+ n).
    by rewrite HasPrefix_app, TrimPrefix_app, (proj1 Hn).
Qed.

Lemma validateTarget_entry target : validateTarget target = Ok tt ->
  exists n, entry_name n /\ target = "versions/" +:+ n.
Proof. apply validateTarget_ok. Qed.

Lemma Join_target d target :
  entry_name d -> validateTarget target = Ok tt -> Join d target = d +:+ "/" +:+ target.
Proof.
  intros Hd (n & Hn & ->)%validateTarget_entry. pose proof Hd as (Hds & Hd1 & _).
  unfold Join. rewrite !bool_decide_false by done.
  unfold Clean. rewrite bool_decide_false by (destruct d; done).
  rewrite IsAbs_entry by done.
  change (d +:+ "/" +:+ "versions/" +:+ n) with (d +:+ String slash ("versions" +:+ String slash n)).
  rewrite Split_app, Split_app, Split_no_char by (done || apply Hn). simpl.
  rewrite (clean_step_entry _ _ d) by done. rewrite (clean_step_entry _ _ "versions") by apply entry_versions.
  rewrite (clean_step_entry _ _ n) by done. simpl. unfold sconcat. simpl.
  rewrite bool_decide_false; [done|]. by destruct d.
Qed.

Lemma is_digit_no_dash s : sforall is_digit s = true -> no_char "-" s.
Proof. by apply no_char_sforall. Qed.

Lemma is_lower_hex_no c s : is_lower_hex c = false -> sforall is_lower_hex s = true -> no_char c s.
Proof. apply no_char_sforall. Qed.

(** A 64-digit lower-case hex digest. *)
Definition digest_ok (d : string) : Prop := slen d = 64%N /\ sforall is_lower_hex d = true.

Lemma sha256_hex_digest raw : digest_ok (sha256_hex raw).
Proof. split; [apply sha256_hex_slen|apply sha256_hex_lower]. Qed.

Lemma from_hex_is_hex c : is_hex c = true -> is_Some (from_hex c).
Proof. destruct c as [[] [] [] [] [] [] [] []]; vm_compute; by eauto. Qed.

Lemma DecodeString_even n s :
  String.length s = (2 * n)%nat -> sforall is_hex s = true -> is_Some (DecodeString s).
Proof.
  revert s. induction n as [|n IH]; intros [|a [|b s]] Hl Hs; try (simpl in Hl; lia).
  - by eexists.
  - cbn [sforall] in Hs. rewrite !andb_true_iff in Hs. destruct Hs as (Ha & Hb & Hs).
    destruct (from_hex_is_hex a Ha) as [x Hx], (from_hex_is_hex b Hb) as [y Hy].
    destruct (IH s) as [t Ht]; [simpl in Hl; lia|done|].
    cbn [DecodeString]. rewrite Hx, Hy, Ht. by eexists.
Qed.

Lemma digest_ok_decodes d : digest_ok d -> is_Some (DecodeString d).
Proof.
  intros [Hl Hd]. apply (DecodeString_even 32); [unfold slen in Hl; lia|].
  eapply sforall_impl; [|done]. intros c Hc. unfold is_hex. by rewrite Hc.
Qed.

Lemma metadata_of_name v d rest :
  (0 < v < two64)%N -> digest_ok d -> rest = "" \/ (exists r, rest = String "-" r) ->
  no_char slash rest ->
  configTargetMetadata ("versions/" +:+ pad20 v +:+ "-" +:+ d +:+ rest +:+ ".json") = Ok (v, d).
Proof.
  intros Hv Hd Hrest Hns. pose proof (digest_ok_decodes d Hd) as [x Hx]. destruct Hd as [Hl Hd].
  pose proof (pad20_digits v) as Hpd.
  set (n := pad20 v +:+ "-" +:+ d +:+ rest +:+ ".json").
  assert (entry_name n) as Hn.
  { assert (String.length n > 4)%nat as Hlen.
    { unfold n. rewrite slength_app, pad20_length by (unfold two64 in *; lia). lia. }
    split_and!; [|intros E; rewrite E in Hlen; simpl in Hlen; lia..].
    unfold n. rewrite !no_char_app. split_and!; try done.
    - eapply no_char_sforall; [|exact Hpd]. done.
    - eapply is_lower_hex_no; [|exact Hd]. done. }
  unfold configTargetMetadata.
  assert (validateTarget ("versions/" +:+ n) = Ok tt) as -> by (apply validateTarget_ok; by eauto).
  cbn [rbind]. change ("versions/" +:+ n) with ("versions" +:+ String slash n).
  rewrite Base_two by done.
  assert (TrimSuffix n ".json" = pad20 v +:+ String "-" (d +:+ rest)) as ->.
  { assert (n = (pad20 v +:+ "-" +:+ (d +:+ rest)) +:+ ".json") as ->
      by (unfold n; by rewrite !sapp_assoc).
    by rewrite TrimSuffix_app. }
  rewrite Split_app by by apply is_digit_no_dash.
  assert (exists l, Split (d +:+ rest) "-" = d :: l) as [l ->].
  { assert (no_char "-" d) by (eapply is_lower_hex_no; [|exact Hd]; done).
    destruct Hrest as [->|[r ->]].
    - rewrite sapp_nil_r, Split_no_char by done. by eexists.
    - rewrite Split_app by done. by eexists. }
  rewrite pad20_length by (unfold two64 in *; lia). rewrite Hl.
  rewrite ParseUint_pad20 by (unfold two64 in *; lia).
  destruct (N.eqb_spec v 0); [lia|]. cbn. rewrite Hx. by rewrite ToLower_lower_hex.
Qed.

Lemma metadata_version v d : (0 < v < two64)%N -> digest_ok d ->
  configTargetMetadata (version_target v d) = Ok (v, d).
Proof. intros. apply (metadata_of_name v d ""); [done|done|by left|done]. Qed.

Lemma metadata_repair v d z : (0 < v < two64)%N -> digest_ok d ->
  configTargetMetadata (repair_target v d z) = Ok (v, d).
Proof.
  intros. pose proof (metadata_of_name v d ("-repair-" +:+ FormatInt z)) as Hm.
  unfold repair_target. rewrite sapp_assoc in Hm. apply Hm; [done|done|right|].
  - by eexists.
  - apply no_char_app. split; [done|apply FormatInt_no_slash].
Qed.

Lemma metadata_target t m : configTargetMetadata t = Ok m -> validateTarget t = Ok tt.
Proof.
  unfold configTargetMetadata. intros ([] & Ht & _)%rbind_Ok. done.
Qed.

Lemma from_hex_ascii c x : from_hex c = Some x -> (code c <? 128)%N = true.
Proof. destruct c as [[] [] [] [] [] [] [] []]; vm_compute; intros; simplify_eq; done. Qed.

Lemma DecodeString_ascii s r : DecodeString s = Some r -> is_ascii s = true.
Proof.
  remember (String.length s) as n eqn:Hn. revert s r Hn.
  induction (lt_wf n) as [n _ IH]. intros [|a [|b s]] r -> Hr; [done|done|].
  cbn [DecodeString] in Hr.
  destruct (from_hex a) eqn:Ea; [|done]. destruct (from_hex b) eqn:Eb; [|done].
  destruct (DecodeString s) eqn:Es; [|done]. unfold is_ascii in *. cbn [sforall].
  rewrite (from_hex_ascii _ _ Ea), (from_hex_ascii _ _ Eb).
  eapply IH; [|done|done]. simpl. lia.
Qed.

Lemma from_hex_lower_char c : from_hex (lower_char c) = from_hex c.
Proof. by destruct c as [[] [] [] [] [] [] [] []]. Qed.

Lemma DecodeString_ToLower s : DecodeString (ToLower s) = DecodeString s.
Proof.
  remember (String.length s) as n eqn:Hn. revert s Hn.
  induction (lt_wf n) as [n _ IH]. intros [|a [|b s]] ->; [done|done|].
  unfold ToLower in *. cbn [smap DecodeString]. rewrite !from_hex_lower_char.
  rewrite (IH (String.length s)); [done|simpl; lia|done].
Qed.

(** What the metadata of a name says is well formed. *)
Lemma metadata_facts t v d : configTargetMetadata t = Ok (v, d) ->
  (0 < v < two64)%N /\ slen d = 64%N /\ is_Some (DecodeString d).
Proof.
  unfold configTargetMetadata. intros ([] & _ & Hm)%rbind_Ok.
  destruct (Split _ _) as [|p0 [|p1 l]]; try done.
  destruct (negb _ || negb _) eqn:E; [done|].
  rewrite orb_false_iff, !negb_false_iff, !bool_decide_eq_true in E. destruct E as [_ Hl].
  destruct (ParseUint p0 64) as [n|] eqn:En; [|done].
  destruct (N.eqb_spec n 0); [done|]. destruct (DecodeString p1) as [x|] eqn:Ex; [|done].
  injection Hm as <- <-. split_and!; [lia| | |].
  - destruct p0; [done|]. rewrite ParseUint_unfold in En by done.
    destruct (dec_value 0 _) as [k|]; [|done]. destruct (N.ltb_spec k (2 ^ 64)); [|done].
    injection En as <-. done.
  - unfold slen in *. by rewrite ToLower_length.
  - rewrite DecodeString_ToLower, Ex. by eexists.
Qed.

(** ** Codec round trips *)

(** What the codecs keep: values of their widths, texts of valid UTF-8, and
    targets short enough for the size limit on state files. *)
Definition text_ok (s : string) : Prop := ValidString s = true /\ (slen s <= 255)%N.

Definition applied_ok (a : AppliedState) : Prop :=
  is_u64 (a_version a) /\ is_i64 (a_at a) /\ text_ok (a_target a) /\
  validateAppliedState a = Ok tt.

Lemma applied_digest a : validateAppliedState a = Ok tt ->
  slen (a_digest a) = 64%N /\ is_ascii (a_digest a) = true /\ (0 < a_at a)%Z /\ a_version a <> 0%N /\
  validateTarget (a_target a) = Ok tt.
Proof.
  unfold validateAppliedState. intros ([] & H1 & H2)%rbind_Ok. apply guard_err_Ok in H1.
  rewrite !orb_false_iff, N.eqb_neq, negb_false_iff, bool_decide_eq_true, bool_decide_eq_false in H1.
  destruct H1 as [[? Hl] ?]. destruct (DecodeString (a_digest a)) eqn:E; [|done].
  split_and!; [done|by eapply DecodeString_ascii|lia|done|done].
Qed.

Lemma uint_slen n : is_u64 n -> (slen (FormatUint n) <= 20)%N.
Proof. intros Hn. pose proof (FormatUint_length n Hn). unfold slen. lia. Qed.

Lemma int_slen z : is_i64 z -> (slen (FormatInt z) <= 21)%N.
Proof. intros Hz. pose proof (FormatInt_length z Hz). unfold slen. lia. Qed.

Lemma applied_members_ok a : Forall member_ok (applied_members a).
Proof. unfold applied_members. members_ok. Qed.

#[export] Hint Resolve applied_members_ok : json.

Lemma set_applied a :
  is_u64 (a_version a) -> is_i64 (a_at a) ->
  ValidString (a_digest a) = true -> ValidString (a_target a) = true ->
  set_members true applied_fields (applied_members a) zero_applied = Some a.
Proof.
  intros. unfold applied_members, set_members, field_for. simpl.
  repeat (rewrite fld_uint || rewrite fld_string || rewrite fld_int); try done. by destruct a.
Qed.

Lemma applied_size a : applied_ok a -> (members_size (applied_members a) <= 2500)%N.
Proof.
  intros (Hv & Hz & (_ & Ht) & Ha). apply applied_digest in Ha as (Hd & _).
  pose proof (uint_slen _ Hv). pose proof (int_slen _ Hz).
  pose proof (quote_slen (a_digest a)). pose proof (quote_slen (a_target a)).
  unfold applied_members. cbn [members_size foldr fst snd].
  change (slen "configVersion") with 13%N. change (slen "configDigest") with 12%N.
  change (slen "target") with 6%N. change (slen "appliedAt") with 9%N. lia.
Qed.

Lemma parse_json_obj {T} (fields : list (string * setter T)) zero l x :
  l <> [] -> Forall member_ok l -> (members_size l <= 60000)%N ->
  set_members true fields l zero = Some x ->
  parse_json fields zero (obj l +:+ nl) = Ok x.
Proof.
  intros Hne Hl Hs Hx. unfold parse_json.
  assert (0 < slen (obj l +:+ nl) <= maxStateBytes)%N as Hsz.
  { pose proof (obj_slen l). rewrite slen_app. change (slen nl) with 1%N. unfold maxStateBytes. lia. }
  destruct (N.eqb_spec (slen (obj l +:+ nl)) 0); [lia|].
  destruct (N.ltb_spec maxStateBytes (slen (obj l +:+ nl))); [lia|]. cbn [orb guard_err rbind].
  rewrite decode_text_obj by done. by rewrite Hx.
Qed.

Lemma parse_encode_applied a : applied_ok a -> parse_applied (encode_applied a) = Ok a.
Proof.
  intros Hok. pose proof Hok as (Hv & Hz & (Ht & _) & Ha).
  pose proof (applied_digest a Ha) as (_ & Hd & _).
  unfold parse_applied, encode_applied. rewrite (parse_json_obj _ _ _ a).
  - cbn [rbind]. by rewrite Ha.
  - done.
  - apply applied_members_ok.
  - pose proof (applied_size a Hok). lia.
  - apply set_applied; try done. by apply is_ascii_ValidString.
Qed.

Definition pending_ok (p : pendingState) : Prop :=
  is_u64 (p_version p) /\ is_i64 (p_started p) /\ text_ok (p_target p) /\ text_ok (p_prev p) /\
  validatePending p = Ok tt /\
  match p_prev_applied p with Some a => applied_ok a | None => True end.

Lemma pending_digest p : validatePending p = Ok tt ->
  slen (p_digest p) = 64%N /\ configTargetMetadata (p_target p) = Ok (p_version p, p_digest p).
Proof.
  unfold validatePending. intros ([] & H1 & H2)%rbind_Ok. apply guard_err_Ok in H1.
  rewrite !orb_false_iff, N.eqb_neq, negb_false_iff, bool_decide_eq_true, bool_decide_eq_false in H1.
  apply rbind_Ok in H2 as ([] & _ & H2). apply rbind_Ok in H2 as ([v d] & Hm & H2).
  apply rbind_Ok in H2 as ([] & H3 & _). apply guard_err_Ok in H3.
  rewrite orb_false_iff, !negb_false_iff, !bool_decide_eq_true in H3. simpl in H3.
  destruct H3 as [-> ->]. split; [apply H1|done].
Qed.

Lemma pending_members_ok p : Forall member_ok (pending_members p).
Proof.
  unfold pending_members. members_ok.
  destruct (p_prev_applied p); simpl; members_ok.
Qed.

Lemma dec_applied a :
  is_u64 (a_version a) -> is_i64 (a_at a) ->
  ValidString (a_digest a) = true -> ValidString (a_target a) = true ->
  decode_obj true applied_fields zero_applied (obj (applied_members a)) = Some a.
Proof. intros. rewrite decode_obj_obj by (done || apply applied_members_ok). by apply set_applied. Qed.

Lemma set_pending p : pending_ok p ->
  set_members true pending_fields (pending_members p) zero_pending = Some p.
Proof.
  intros (Hv & Hz & (Ht & _) & (Hp & _) & Hval & Ha).
  pose proof (pending_digest p Hval) as [_ Hd].
  apply metadata_facts in Hd as (_ & _ & x & Hd).
  apply DecodeString_ascii, is_ascii_ValidString in Hd.
  destruct p as [t pv pa v d z]; simpl in *. unfold pending_members, opt_member; simpl.
  destruct (bool_decide_reflect (pv = "")) as [->|Hne]; destruct pa as [a|]; simpl;
    unfold field_for; simpl;
    repeat first [rewrite fld_uint by done | rewrite fld_string by done | rewrite fld_int by done]; simpl.
  all: try done.
  all: destruct Ha as (? & ? & [? _] & Hav); pose proof (applied_digest a Hav) as (_ & Had & _);
    apply is_ascii_ValidString in Had; unfold field_for; simpl;
    rewrite (ptr_some _ _ _ a) by (done || by apply dec_applied); simpl;
    unfold field_for; simpl;
    repeat first [rewrite fld_uint by done | rewrite fld_string by done | rewrite fld_int by done]; done.
Qed.

Lemma pending_size p : pending_ok p -> (members_size (pending_members p) <= 8000)%N.
Proof.
  intros (Hv & Hz & (_ & Ht) & (_ & Hp) & Hval & Ha).
  pose proof (pending_digest p Hval) as [Hd _].
  pose proof (uint_slen _ Hv). pose proof (int_slen _ Hz).
  pose proof (quote_slen (p_digest p)). pose proof (quote_slen (p_target p)).
  pose proof (opt_member_size "previousTarget" (p_prev p)) as Ho.
  unfold pending_members. rewrite !members_size_app.
  assert (members_size (prev_applied_member (p_prev_applied p)) <= 2600)%N as Hm.
  { destruct (p_prev_applied p) as [a|]; simpl; [|lia].
    pose proof (applied_size a Ha). pose proof (obj_slen (applied_members a)).
    change (slen "previousApplied") with 15%N. lia. }
  change (slen "previousTarget") with 14%N in Ho.
  cbn [members_size foldr fst snd] in *.
  change (slen "configVersion") with 13%N. change (slen "configDigest") with 12%N.
  change (slen "commandTarget") with 13%N. change (slen "startedAt") with 9%N. lia.
Qed.

Lemma parse_encode_pending p : pending_ok p -> parse_pending (encode_pending p) = Ok p.
Proof.
  intros Hok. pose proof Hok as (_ & _ & _ & _ & Hval & _).
  unfold parse_pending, encode_pending. rewrite (parse_json_obj _ _ _ p).
  - cbn [rbind]. by rewrite Hval.
  - done.
  - apply pending_members_ok.
  - pose proof (pending_size p Hok). lia.
  - by apply set_pending.
Qed.

(** ** apply-failed.json *)

Definition failed_ok (r : Result) : Prop :=
  is_u64 (r_version r) /\ r_version r <> 0%N /\ is_i64 (r_at r) /\
  r_status r = StatusApplyFailed /\ slen (r_digest r) = 64%N /\ ValidString (r_digest r) = true /\
  ValidString (r_error r) = true /\ (slen (r_error r) <= 2048)%N /\
  text_ok (r_code r) /\ r_code r <> "" /\ text_ok (r_recovery r) /\ r_recovery r <> "".

Lemma result_members_ok r : Forall member_ok (result_members r).
Proof.
  unfold result_members. members_ok.
  - case_bool_decide; members_ok.
  - destruct (r_rolled r); members_ok.
    apply (jv_bool true).
Qed.

Lemma set_result r : failed_ok r ->
  set_members true result_fields (result_members r) zero_result = Some r.
Proof.
  intros (Hv & _ & Hz & Hs & _ & Hd & He & _ & (Hc & _) & Hc0 & (Hr & _) & Hr0).
  assert (ValidString (r_status r) = true) as Hsv by by rewrite Hs.
  unfold result_members. cbn [app].
  erewrite set_member by (reflexivity || by apply fld_uint).
  do 2 erewrite set_member by (reflexivity || by apply fld_string).
  do 3 erewrite set_opt_member by (reflexivity || done).
  destruct r as [v d st e c rc z b]. simpl in *.
  destruct (bool_decide_reflect (z = 0%Z)) as [->|Hz0]; cbn [app].
  - by destruct b.
  - erewrite set_member by (reflexivity || by apply fld_int). by destruct b.
Qed.

Lemma result_size r : failed_ok r -> (members_size (result_members r) <= 20000)%N.
Proof.
  intros (Hv & _ & Hz & Hs & Hd & _ & _ & He & (_ & Hc) & _ & (_ & Hr) & _).
  pose proof (uint_slen _ Hv). pose proof (int_slen _ Hz). pose proof (quote_slen (r_digest r)).
  pose proof (opt_member_size "error" (r_error r)) as Ho1.
  pose proof (opt_member_size "errorCode" (r_code r)) as Ho2.
  pose proof (opt_member_size "recoveryStatus" (r_recovery r)) as Ho3.
  assert (slen (quote (r_status r)) <= 100)%N as Ho4 by (rewrite Hs; pose proof (quote_slen StatusApplyFailed) as Hq;
    change (slen StatusApplyFailed) with 12%N in Hq; lia).
  unfold result_members. rewrite !members_size_app.
  assert (members_size (if r_rolled r then [("rolledBack", "true")] else []) <= 100)%N as Ho5
    by (destruct (r_rolled r); vm_compute; discriminate).
  assert (members_size (if bool_decide (r_at r = 0)%Z then [] else [("appliedAt", FormatInt (r_at r))]) <= 100)%N as Ho6.
  { case_bool_decide; simpl; [lia|]. change (slen "appliedAt") with 9%N. lia. }
  change (slen "error") with 5%N in Ho1. change (slen "errorCode") with 9%N in Ho2.
  change (slen "recoveryStatus") with 14%N in Ho3.
  cbn [members_size foldr fst snd] in *.
  change (slen "configVersion") with 13%N. change (slen "configDigest") with 12%N.
  change (slen "status") with 6%N. lia.
Qed.

Lemma parse_encode_failed r : failed_ok r -> parse_failed (encode_result r) = Ok r.
Proof.
  intros Hok. pose proof Hok as (_ & Hv & _ & Hs & Hd & _ & _ & _ & _ & Hc & _ & Hr).
  unfold parse_failed, encode_result. rewrite (parse_json_obj _ _ _ r).
  - cbn [rbind]. destruct r as [v d st e c rc z b]; simpl in *. subst st.
    rewrite Hd, (proj2 (N.eqb_neq _ _) Hv), (bool_decide_false (c = "")),
      (bool_decide_false (rc = "")) by done. done.
  - done.
  - apply result_members_ok.
  - pose proof (result_size r Hok). lia.
  - by apply set_result.
Qed.

(** ** No check passes for a missing file *)

Ltac quiet_tac :=
  repeat first [exact I | reflexivity | apply quiet_guard | apply quiet_rbind; [|intros ?] | case_match; simpl].

Lemma quiet_validateTarget t : quiet (validateTarget t).
Proof. unfold validateTarget. quiet_tac. Qed.

Lemma quiet_validateApplied a : quiet (validateAppliedState a).
Proof. unfold validateAppliedState, validateTarget. quiet_tac. Qed.

Lemma quiet_metadata t : quiet (configTargetMetadata t).
Proof. unfold configTargetMetadata, validateTarget. quiet_tac. Qed.

Lemma quiet_parse_json {T} (fields : list (string * setter T)) zero raw : quiet (parse_json fields zero raw).
Proof. unfold parse_json. quiet_tac. Qed.

Lemma quiet_parse_applied raw : quiet (parse_applied raw).
Proof.
  apply quiet_rbind; [apply quiet_parse_json|intros a].
  apply quiet_rbind; [apply quiet_validateApplied|done].
Qed.

Lemma quiet_validatePending p : quiet (validatePending p).
Proof.
  unfold validatePending. apply quiet_rbind; [apply quiet_guard|intros _].
  apply quiet_rbind; [apply quiet_validateTarget|intros _].
  apply quiet_rbind; [apply quiet_metadata|intros m].
  apply quiet_rbind; [apply quiet_guard|intros _].
  apply quiet_rbind; [case_bool_decide; [done|apply quiet_validateTarget]|intros _].
  destruct (p_prev_applied p) as [a|]; [|done].
  apply quiet_rbind; [apply quiet_guard|intros _]. by destruct (validateAppliedState a).
Qed.

Lemma quiet_parse_pending raw : quiet (parse_pending raw).
Proof.
  apply quiet_rbind; [apply quiet_parse_json|intros p].
  apply quiet_rbind; [apply quiet_validatePending|done].
Qed.
