(* ===== verification/XrayRuntime.v ===== *)
(** * The Xray configuration runtime (internal/xrayruntime/manager.go)

    [Apply] installs a validated configuration as an immutable version, records
    the intention in apply-pending.json, switches the current link, restarts
    Xray and records the outcome; [Recover] finishes or undoes an apply that the
    agent did not survive.  The store is the directory xray-config under the
    agent's state directory. *)

From stdpp Require Import base gmap strings list fin_maps sorting.
From Stdlib Require Import ZArith NArith Ascii.
From S2P Require Import Prelude.
From S2P Require Import GoStrings.
From S2P Require Import Sha256.
From S2P Require Import Os.
From S2P Require Import AtomicFile.
From S2P Require Import XrayConfig.
From S2P Require Import XrayTypes.

(** ** Paths *)

Definition directory : string := "xray-config".
Definition versionsDirectory : string := "xray-config/versions".
Definition currentPath : string := "xray-config/current.json".
Definition previousPath : string := "xray-config/previous.json".
Definition appliedPath : string := "xray-config/applied.json".
Definition pendingPath : string := "xray-config/apply-pending.json".
Definition failedPath : string := "xray-config/apply-failed.json".

Definition configFileMode : N := 384.
Definition stateDirectoryMode : N := 448.

(** ** The process controller *)

Class Controller : Type := {
  RestartAndWait : io (result unit);
  StopAndWait : io (result unit);
  Preflight : option (io (result unit))
}.

Section manager.
Context `{Env} `{Runner} `{Controller}.

(** ** Files *)

Definition removeAndSync (path : string) : io (result unit) :=
let finish :=
  let! s := Stat (Dir path) in
  match s with
  | Err e => if errorsIs e SNotExist then ret (Ok tt) else syncDirectory (Dir path)
  | Ok _ => syncDirectory (Dir path)
  end in
removeThen path finish.

Definition atomicSymlink (target path : string) : io (result unit) :=
match validateTarget target with
| Err e => ret (Err e)
| Ok _ => replaceLink target path (ret (Ok tt))
end.

Definition writeAtomic (path content : string) (mode : N) : io (result unit) :=
try! _ := MkdirAll (Dir path) stateDirectoryMode in
replaceFile (Dir path) ".xui-agent-runtime-" path content mode (syncDirectory (Dir path)).

(** persistState, the value already marshalled *)
Definition persistState (path content : string) (mode : N) : io (result unit) :=
writeAtomic path content mode.

Definition ensureDirectory : io (result unit) :=
try! _ := MkdirAll directory stateDirectoryMode
  catch e => ret (Err (errorW "create Xray runtime directory: " e)) in
try! _ := Chmod directory stateDirectoryMode
  catch e => ret (Err (errorW "secure Xray runtime directory: " e)) in
ret (Ok tt).

(** ** Reading the state *)

Definition loadApplied : io (result AppliedState) :=
try! raw := ReadFile appliedPath in ret (parse_applied raw).

Definition loadPending : io (result pendingState) :=
try! raw := ReadFile pendingPath in ret (parse_pending raw).

Definition linkTarget (path : string) : io (result string) :=
try! target := Readlink path in
ret (let? _ := validateTarget target in Ok target).

Definition currentTarget : io (result string) := linkTarget currentPath.
Definition previousTarget : io (result string) := linkTarget previousPath.

Definition verifyConfigTarget (target expectedDigest : string) : io (result unit) :=
match validateTarget target with
| Err e => ret (Err e)
| Ok _ =>
    let path := Join directory target in
    try! raw := ReadFile path catch e => ret (Err (errorW "read Xray config target: " e)) in
    try! info := Lstat path catch e => ret (Err (errorW "inspect Xray config target: " e)) in
    ret (let? _ := guard_err (negb (IsRegular info) || negb (fi_perm info =? configFileMode)%N)
                     "Xray config target has unsafe permissions or file type" in
         guard_err (negb (bool_decide (sha256_hex raw = expectedDigest)))
           "Xray config target digest does not match expected state")
end.

Definition verifyAppliedTarget (a : AppliedState) : io (result unit) :=
match (let? _ := validateAppliedState a in
       let? m := configTargetMetadata (a_target a) in
       guard_err (negb (bool_decide (m.1 = a_version a)) || negb (bool_decide (m.2 = a_digest a)))
         "applied Xray config metadata differs from its immutable target") with
| Err e => ret (Err e)
| Ok _ => verifyConfigTarget (a_target a) (a_digest a)
end.

Definition verifyApplied (a : AppliedState) : io (result unit) :=
try! current := currentTarget catch e => ret (Err (errorW "read applied Xray config target: " e)) in
if bool_decide (current = a_target a) then verifyAppliedTarget a
else ret (Err (errorsNew "current Xray config target differs from applied state")).

Definition appliedStateForTarget (target : string) : io (result AppliedState) :=
match configTargetMetadata target with
| Err e => ret (Err e)
| Ok (version, digest) =>
    try! _ := verifyConfigTarget target digest in
    try! info := Stat (Join directory target) in
    let at_ := (fi_mtime info / 1000000000)%Z in
    ret (Ok (MkApplied version digest target (if bool_decide (at_ <= 0)%Z then 1%Z else at_)))
end.

Definition rollbackAppliedState (p : pendingState) : io (result AppliedState) :=
match p_prev_applied p with
| Some a =>
    if negb (bool_decide (a_target a = p_prev p)) then
      ret (Err (errorsNew "previous applied Xray config target does not match pending rollback target"))
    else try! _ := verifyAppliedTarget a in ret (Ok a)
| None => appliedStateForTarget (p_prev p)
end.

Definition confirmApplied (a : AppliedState) : io (result unit) :=
let! loaded := loadPending in
match loaded with
| Ok p =>
    if negb (bool_decide (p_target p = a_target a)) || negb (bool_decide (p_version p = a_version a))
       || negb (bool_decide (p_digest p = a_digest a))
    then ret (Err (errorsNew "pending Xray config does not match applied state"))
    else try! _ := removeAndSync pendingPath in removeAndSync failedPath
| Err e => if errorsIs e SNotExist then removeAndSync failedPath else ret (Err e)
end.

Definition Current : io (result AppliedState) :=
try! a := loadApplied in
try! _ := verifyApplied a in
ret (Ok a).

Definition LoadFailureState : io (result Result) :=
try! raw := ReadFile failedPath in ret (parse_failed raw).

(** ** Garbage collection of versions *)

(** The target a link protects, if the link exists. *)
Definition protect_link (path : string) : io (result (list string)) :=
let! r := Readlink path in
ret (match r with
     | Ok target => let? _ := validateTarget target in Ok [target]
     | Err e => if errorsIs e SNotExist then Ok [] else Err e
     end).

Definition protectedTargets : io (result (list string)) :=
try! current := protect_link currentPath in
try! previous := protect_link previousPath in
let! loaded := loadApplied in
match (match loaded with
       | Ok a => Ok [a_target a]
       | Err e => if errorsIs e SNotExist then Ok [] else Err e
       end) with
| Err e => ret (Err e)
| Ok applied =>
    let! loaded := loadPending in
    ret (match loaded with
         | Ok p => Ok (current ++ previous ++ applied ++ p_target p ::
                       (if bool_decide (p_prev p = "") then [] else [p_prev p]))
         | Err e => if errorsIs e SNotExist then Ok (current ++ previous ++ applied) else Err e
         end)
end.

(** A versionFile: name and modification time. *)
Fixpoint versionFiles (names : list string) : io (result (list (string * Z))) :=
match names with
| [] => ret (Ok [])
| name :: rest =>
    match configTargetDigest (Join "versions" name) with
    | Err _ => versionFiles rest
    | Ok _ =>
        try! info := Lstat (Join versionsDirectory name) in
        try! l := versionFiles rest in
        ret (Ok (if IsRegular info then (name, fi_mtime info) :: l else l))
    end
end.

(** The order of sort.Slice: newest first, then by name, the greater first. *)
Definition newer (a b : string * Z) : Prop :=
(b.2 < a.2)%Z \/ (a.2 = b.2 /\ String.le b.1 a.1).
#[local] Instance newer_dec : RelDecision newer.
Proof. intros a b. unfold newer. apply _. Defined.

Definition removable (protected : list string) (index : nat) (name : string) : bool :=
negb (bool_decide (index < retainedVersions)%nat)
&& negb (bool_decide (Join "versions" name ∈ protected)).

Fixpoint removeVersions (protected : list string) (index : nat) (versions : list (string * Z))
  (removed : bool) : io (result bool) :=
match versions with
| [] => ret (Ok removed)
| v :: rest =>
    if removable protected index v.1 then
      try! _ := Remove (Join versionsDirectory v.1) in
      removeVersions protected (S index) rest true
    else removeVersions protected (S index) rest removed
end.

Definition pruneVersions : io (result unit) :=
let! entries := ReadDir versionsDirectory in
match entries with
| Err e => if errorsIs e SNotExist then ret (Ok tt) else ret (Err e)
| Ok names =>
    try! protected := protectedTargets in
    try! versions := versionFiles names in
    try! removed := removeVersions protected 0 (merge_sort newer versions) false in
    if removed then syncDirectory versionsDirectory else ret (Ok tt)
end.

(** ** Installing a version *)

Definition writeRepairVersion (r : Request) : io (result string) :=
let! now := Now in
let target := repair_target (rq_version r) (rq_digest r) now in
try! _ := writeAtomic (Join directory target) (rq_config r) configFileMode
  catch e => ret (Err (errorW "write repaired Xray config: " e)) in
ret (Ok target).

Definition installVersion (r : Request) (repair : bool) : io (result string) :=
try! _ := MkdirAll versionsDirectory stateDirectoryMode
  catch e => ret (Err (errorW "create Xray config versions directory: " e)) in
try! _ := Chmod versionsDirectory stateDirectoryMode
  catch e => ret (Err (errorW "secure Xray config versions directory: " e)) in
let target := Join "versions" (pad20 (rq_version r) +:+ "-" +:+ rq_digest r +:+ ".json") in
let path := Join directory target in
let! content := ReadFile path in
match content with
| Ok raw =>
    try! info := Lstat path in
    let contentMatches := bool_decide (Sha256.Sum256 raw = mustDecodeDigest (rq_digest r))
                          && bool_decide (raw = rq_config r) in
    let permissionsMatch := IsRegular info && (fi_perm info =? configFileMode)%N in
    if contentMatches && permissionsMatch then ret (Ok target)
    else if negb repair then
      (if negb contentMatches
       then ret (Err (errorsNew "existing Xray config version content does not match"))
       else ret (Err (errorsNew "existing Xray config version has unsafe permissions")))
    else writeRepairVersion r
| Err e =>
    if negb (errorsIs e SNotExist) then ret (Err e)
    else if repair then writeRepairVersion r
    else try! _ := writeAtomic path (rq_config r) configFileMode
           catch e => ret (Err (errorW "write versioned Xray config: " e)) in
         ret (Ok target)
end.

(** ** Rollback *)

(** Back to no configuration: the first apply failed. *)
Definition rollbackInitial : io (result unit) :=
try! _ := removeAndSync currentPath
  catch e => ret (Err (errorW "remove failed initial Xray config: " e)) in
try! _ := removeAndSync appliedPath
  catch e => ret (Err (errorW "remove failed initial Xray config state: " e)) in
StopAndWait.

(** Back to the previous version. *)
Definition rollbackPrevious (p : pendingState) : io (result unit) :=
try! previousApplied := rollbackAppliedState p
  catch e => ret (Err (errorW "invalid rollback target: " e)) in
try! _ := atomicSymlink (p_prev p) currentPath
  catch e => ret (Err (errorW "restore previous Xray config: " e)) in
try! _ := persistState appliedPath (encode_applied previousApplied) configFileMode
  catch e => ret (Err (errorW "restore previous Xray config state: " e)) in
try! _ := syncDirectory directory in
RestartAndWait.

Definition failed_result (p : pendingState) (failure errorCode recovery : string) (rolled : bool) : Result :=
MkResult (p_version p) (p_digest p) StatusApplyFailed failure errorCode recovery 0 rolled.

Definition rollback (p : pendingState) (failure errorCode : string) : io (result unit) :=
try! _ := (if bool_decide (p_prev p = "") then rollbackInitial else rollbackPrevious p) in
try! _ := persistState failedPath
     (encode_result (failed_result p (cleanError failure) errorCode RecoveryStatusRolledBack true))
     configFileMode in
removeAndSync pendingPath.

Definition rollbackResult (p : pendingState) (failure errorCode : string) : io (result Result) :=
let! r := rollback p failure errorCode in
match r with
| Err e =>
    let combined := cleanError (failure +:+ "; rollback failed: " +:+ err_text e) in
    let! persisted := persistState failedPath
         (encode_result (failed_result p combined errorCode RecoveryStatusFailed false)) configFileMode in
    let combined := match persisted with
                    | Ok _ => combined
                    | Err e => cleanError (combined +:+ "; persist recovery failure: " +:+ err_text e)
                    end in
    ret (Err (newApplyError ErrorCodeRecoveryFailed RecoveryStatusFailed (errorsNew combined)))
| Ok _ => ret (Ok (failed_result p failure errorCode RecoveryStatusRolledBack true))
end.

(** ** Apply *)

Definition prepError (e : error) : result Result :=
  Err (newApplyError ErrorCodePreparationFailed RecoveryStatusNotRequired e).
Definition persistError (e : error) : result Result :=
  Err (newApplyError ErrorCodePersistenceFailed RecoveryStatusNotRequired e).

(** What the applied state says about a request: an answer, or the version to
    fall back to and whether this apply repairs the applied one. *)
Inductive admission : Type :=
  | Answer (r : result Result)
  | Proceed (repair : bool) (previousTarget : string) (previousApplied : option AppliedState).

(** The request repeats the applied version. *)
Definition confirmSame (a : AppliedState) : io admission :=
  let! verified := verifyApplied a in
  match verified with
  | Err _ => ret (Proceed true "" None)
  | Ok _ =>
      try! _ := confirmApplied a
        catch e => ret (Answer (persistError (errorW "confirm applied Xray config state: " e))) in
      try! _ := pruneVersions
        catch e => ret (Answer (persistError (errorW "garbage collect Xray config versions: " e))) in
      ret (Answer (Ok (resultFromApplied a)))
  end.

Definition admitApplied (r : Request) : io admission :=
  let! loaded := loadApplied in
  match loaded with
  | Ok a =>
      if (rq_version r <? a_version a)%N then
        ret (Answer (prepError (errorsNew ("config version " +:+ FormatUint (rq_version r)
          +:+ " is older than applied version " +:+ FormatUint (a_version a)))))
      else if (rq_version r =? a_version a)%N && negb (bool_decide (rq_digest r = a_digest a)) then
        ret (Answer (prepError (errorsNew ("applied config version " +:+ FormatUint (rq_version r)
          +:+ " has a different digest"))))
      else if (rq_version r =? a_version a)%N then confirmSame a
      else
        try! _ := verifyConfigTarget (a_target a) (a_digest a)
          catch e => ret (Answer (prepError (errorW "verify rollback Xray config: " e))) in
        ret (Proceed false (a_target a) (Some a))
  | Err e =>
      if negb (errorsIs e SNotExist) then
        ret (Answer (prepError (errorW "load applied Xray config state: " e)))
      else
        let! current := Lstat currentPath in
        match current with
        | Ok _ => ret (Answer (prepError (errorsNew "current Xray config exists without applied state")))
        | Err e => if errorsIs e SNotExist then ret (Proceed false "" None)
                   else ret (Answer (prepError (errorW "inspect untracked current Xray config: " e)))
        end
  end.

(** The rollback version of a repair: what the previous link names. *)
Definition repairTarget : io (result (string * option AppliedState)) :=
  let! previous := previousTarget in
  match previous with
  | Err e => if errorsIs e SNotExist then ret (Ok ("", None))
             else ret (Err (errorW "read repair rollback Xray config target: " e))
  | Ok target =>
      match configTargetDigest target with
      | Err e => ret (Err (errorW "read repair rollback Xray config digest: " e))
      | Ok digest =>
          try! _ := verifyConfigTarget target digest
            catch e => ret (Err (errorW "verify repair rollback Xray config: " e)) in
          try! a := appliedStateForTarget target
            catch e => ret (Err (errorW "read repair rollback Xray config state: " e)) in
          ret (Ok (target, Some a))
      end
  end.

(** No other apply is pending; old versions are collected. *)
Definition checkPending : io (result unit) :=
  let! loaded := loadPending in
  match loaded with
  | Ok _ => ret (Err (newApplyError ErrorCodePreparationFailed RecoveryStatusUnknown
                        (errorsNew "another Xray config apply is pending")))
  | Err e =>
      if negb (errorsIs e SNotExist) then
        ret (Err (newApplyError ErrorCodePreparationFailed RecoveryStatusUnknown
                    (errorW "load pending Xray config before apply: " e)))
      else
        try! _ := pruneVersions
          catch e => ret (Err (newApplyError ErrorCodePreparationFailed RecoveryStatusNotRequired
                                 (errorW "garbage collect Xray config versions: " e))) in
        ret (Ok tt)
  end.

(** From the preflight check to the collection of old versions. *)
Definition checkReady : io (result unit) :=
  try! _ := (match Preflight with Some check => check | None => ret (Ok tt) end)
    catch e => ret (Err (newApplyError ErrorCodePreparationFailed RecoveryStatusNotRequired
                           (errorW "preflight managed Xray process: " e))) in
  checkPending.

(** The link could not be switched: withdraw the intention. *)
Definition withdraw (e : error) : io (result Result) :=
  let failure := "switch current Xray config: " +:+ err_text e in
  let! cleared := removeAndSync pendingPath in
  ret (Err (match cleared with
            | Ok _ => newApplyError ErrorCodePreparationFailed RecoveryStatusNotRequired
                        (errorsNew (cleanError failure))
            | Err c => newApplyError ErrorCodePreparationFailed RecoveryStatusUnknown
                         (errorsNew (cleanError (failure +:+ "; clear pending state: " +:+ err_text c)))
            end)).

(** The new version runs: record it and forget the intention. *)
Definition recordApplied (p : pendingState) : io (result Result) :=
  let! now := Now in
  let next := MkApplied (p_version p) (p_digest p) (p_target p) (now / 1000000000) in
  try! _ := persistState appliedPath (encode_applied next) configFileMode
    catch e => rollbackResult p (cleanError ("persist applied Xray config: " +:+ err_text e))
                 ErrorCodePersistenceFailed in
  try! _ := removeAndSync pendingPath
    catch e => ret (Err (newApplyError ErrorCodePersistenceFailed RecoveryStatusUnknown
                           (errorW "confirm applied Xray config: " e))) in
  try! _ := removeAndSync failedPath
    catch e => ret (Err (newApplyError ErrorCodePersistenceFailed RecoveryStatusUnknown
                           (errorW "clear failed Xray config state: " e))) in
  try! _ := pruneVersions
    catch e => ret (persistError (errorW "garbage collect Xray config versions: " e)) in
  ret (Ok (resultFromApplied next)).

(** With the intention recorded: switch, restart, record. *)
Definition activate (p : pendingState) : io (result Result) :=
  try! _ := atomicSymlink (p_target p) currentPath catch e => withdraw e in
  try! _ := syncDirectory directory
    catch e => rollbackResult p (cleanError ("sync current Xray config: " +:+ err_text e))
                 ErrorCodePersistenceFailed in
  try! _ := RestartAndWait
    catch e => rollbackResult p (cleanError ("activate Xray config: " +:+ err_text e))
                 ErrorCodeActivationFailed in
  try! _ := (if bool_decide (p_prev p = "") then ret (Ok tt) else atomicSymlink (p_prev p) previousPath)
    catch e => rollbackResult p (cleanError ("record previous Xray config: " +:+ err_text e))
                 ErrorCodePersistenceFailed in
  recordApplied p.

Definition commit (r : Request) (repair : bool) (previousTarget : string)
    (previousApplied : option AppliedState) : io (result Result) :=
  try! target := installVersion r repair catch e => ret (prepError e) in
  let! now := Now in
  let p := MkPending target previousTarget previousApplied (rq_version r) (rq_digest r)
             (now / 1000000000) in
  try! _ := persistState pendingPath (encode_pending p) configFileMode
    catch e => ret (prepError (errorW "persist pending Xray config: " e)) in
  activate p.

(** [Apply] once the configuration was validated. *)
Definition applyValidated (r : Request) : io (result Result) :=
  try! _ := ensureDirectory catch e => ret (prepError e) in
  let! admitted := admitApplied r in
  match admitted with
  | Answer a => ret a
  | Proceed repair target applied =>
      try! prior := (if repair then repairTarget else ret (Ok (target, applied)))
        catch e => ret (prepError e) in
      try! _ := checkReady in
      commit r repair prior.1 prior.2
  end.

Definition normalize (r : Request) : Request :=
  MkRequest (rq_version r) (ToLower (TrimSpace (rq_digest r))) (rq_config r).

Definition validation_request (r : Request) : XrayConfig.Request :=
  XrayConfig.MkRequest (rq_version r) (rq_digest r) (rq_config r).

Definition validationFailed (v : XrayConfig.Result) : Result :=
  MkResult (rs_version v) (rs_digest v) StatusApplyFailed (rs_error v) ErrorCodeValidationFailed
    RecoveryStatusNotRequired 0 false.

Definition Apply (m : Manager) (r : Request) : io (result Result) :=
  if negb (Enabled m) then
    ret (prepError (errorsNew "managed Xray runtime is not configured"))
  else
    let r := normalize r in
    try! validated := XrayConfig.Validate m (validation_request r)
      catch e => ret (Err (newApplyError ErrorCodeValidationFailed RecoveryStatusNotRequired e)) in
    if negb (XrayConfig.Success validated) then ret (Ok (validationFailed validated))
    else applyValidated r.

(** ** Recover *)

Definition Recover (m : Manager) : io (result unit) :=
  if negb (Enabled m) then ret (Ok tt)
  else
    let! loaded := loadPending in
    match loaded with
    | Err e => if errorsIs e SNotExist then ret (Ok tt)
               else ret (Err (errorW "load pending Xray config: " e))
    | Ok p =>
        let undo :=
          let! r := rollbackResult p "unconfirmed Xray config was rolled back after agent restart"
                      ErrorCodePreparationFailed in
          ret (match r with Ok _ => Ok tt | Err e => Err e end) in
        let! applied := loadApplied in
        match applied with
        | Ok a =>
            if bool_decide (a_target a = p_target p) && (a_version a =? p_version p)%N
               && bool_decide (a_digest a = p_digest p)
            then let! verified := verifyApplied a in
                 match verified with
                 | Ok _ => confirmApplied a
                 | Err _ => undo
                 end
            else undo
        | Err e =>
            if errorsIs e SNotExist then undo
            else ret (Err (errorW "load applied Xray config during recovery: " e))
        end
    end.
End manager.
