(* ===== verification/XraySteps.v ===== *)
(** * The steps of the Xray configuration runtime

    [layout], what the store looks like to every operation of XrayRuntime, and
    the rules of the operations that change one path of it. *)

From stdpp Require Import base gmap strings list fin_maps sorting.
From Stdlib Require Import ZArith NArith Ascii.
From S2P Require Import Prelude.
From S2P Require Import GoStrings.
From S2P Require Import Sha256.
From S2P Require Import Os.
From S2P Require Import AtomicFile.
From S2P Require Import XrayConfig.
From S2P Require Import XrayTypes.
From S2P Require Import XrayRuntime.

(** ** The layout of the store *)

Definition version_path (n : string) : string := versionsDirectory +:+ "/" +:+ n.

(** The paths that hold a file or nothing. *)
Definition files : list string :=
  [appliedPath; pendingPath; failedPath; candidatePath; validationPath].

Lemma files_own p : p ∈ currentPath :: previousPath :: files ->
  scratch p = false /\ p <> directory /\ p <> versionsDirectory.
Proof.
  revert p. apply Forall_forall. unfold files. repeat (apply Forall_cons_2; [by split_and!|]).
  apply Forall_nil_2.
Qed.

Definition no_link (f : fs) (p : string) : Prop := forall t, f !! p <> Some (NLink t).

(** No directory among the versions; modification times of 64 bits. *)
Definition entry_ok (o : option node) : Prop :=
  match o with
  | Some (NDir _ _) => False
  | Some (NFile _ _ t) => is_i64 t
  | _ => True
  end.

Record layout (f : fs) : Prop := Layout {
  lay_dir : dir_or_none f directory;
  lay_versions : dir_or_none f versionsDirectory;
  lay_plain : Forall (plain_file f) (currentPath :: previousPath :: files);
  lay_entries : forall n, scratch (version_path n) = false -> entry_ok (f !! version_path n);
  lay_files : no_link f appliedPath /\ no_link f pendingPath;
  lay_previous : forall t, f !! previousPath = Some (NLink t) ->
    text_ok t /\ validateTarget t = Ok tt
}.

Lemma layout_equiv (f g : fs) : f ≡ g -> layout f -> layout g.
Proof.
  intros Hfg [H1 H2 H3 H4 [H5 H6] H7].
  split; unfold dir_or_none, plain_file, no_link in *.
  - rewrite <- (fs_equiv_lookup _ _ directory Hfg eq_refl). done.
  - by rewrite <- (fs_equiv_lookup _ _ versionsDirectory Hfg eq_refl).
  - rewrite Forall_forall in *. intros p Hp. apply (plain_file_equiv f g); [done|by apply files_own|].
    by apply H3.
  - intros n Hn. rewrite <- (fs_equiv_lookup _ _ (version_path n) Hfg Hn). by apply H4.
  - split; intros t.
    + by rewrite <- (fs_equiv_lookup _ _ appliedPath Hfg eq_refl).
    + by rewrite <- (fs_equiv_lookup _ _ pendingPath Hfg eq_refl).
  - intros t. rewrite <- (fs_equiv_lookup _ _ previousPath Hfg eq_refl). apply H7.
Qed.

#[export] Instance layout_proper : Proper ((≡) ==> iff) layout.
Proof. intros f g Hfg. split; apply layout_equiv; [done|by symmetry]. Qed.

Lemma layout_plain f p : layout f -> p ∈ currentPath :: previousPath :: files -> plain_file f p.
Proof. intros [_ _ Hp _ _ _] Hin. rewrite Forall_forall in Hp. by apply Hp. Qed.

Lemma layout_update f p n :
  layout f ->
  p <> directory -> p <> versionsDirectory ->
  (forall m t, n <> NDir m t) ->
  (p = appliedPath \/ p = pendingPath -> forall t, n <> NLink t) ->
  (forall t, p = previousPath -> n = NLink t -> text_ok t /\ validateTarget t = Ok tt) ->
  entry_ok (Some n) ->
  layout (<[p := n]> f).
Proof.
  intros [H1 H2 H3 H4 [H5 H6] H7] Hp1 Hp2 Hn Hl Ht He.
  assert (forall q, plain_file f q -> plain_file (<[p := n]> f) q) as Hpl.
  { intros q Hq. unfold plain_file in *. rewrite lookup_insert. case_decide; [|done].
    destruct n; [done| |done]. by destruct (Hn mode mtime). }
  split.
  - unfold dir_or_none in *. by rewrite lookup_insert_ne.
  - unfold dir_or_none in *. by rewrite lookup_insert_ne.
  - eapply Forall_impl; [exact H3|]. apply Hpl.
  - intros q Hq. rewrite lookup_insert. case_decide; [done|by apply H4].
  - split; intros t; rewrite lookup_insert; case_decide as E; try done;
      intros [= ->]; eapply Hl; eauto.
  - intros t. rewrite lookup_insert. case_decide as E; [|by apply H7].
    intros [= ->]. by apply Ht.
Qed.

Lemma layout_delete f p : layout f -> p <> directory -> p <> versionsDirectory -> layout (delete p f).
Proof.
  intros [H1 H2 H3 H4 [H5 H6] H7] Hp1 Hp2.
  assert (forall q, plain_file f q -> plain_file (delete p f) q) as Hpl.
  { intros q Hq. unfold plain_file in *. rewrite lookup_delete. by case_decide. }
  split.
  - unfold dir_or_none in *. by rewrite lookup_delete_ne.
  - unfold dir_or_none in *. by rewrite lookup_delete_ne.
  - eapply Forall_impl; [exact H3|]. apply Hpl.
  - intros q Hq. rewrite lookup_delete. case_decide; [done|by apply H4].
  - split; intros t; rewrite lookup_delete; by case_decide.
  - intros t. rewrite lookup_delete. case_decide; [done|]. apply H7.
Qed.

Lemma layout_file f p c m t :
  layout f -> p <> directory -> p <> versionsDirectory -> is_i64 t -> layout (<[p := NFile c m t]> f).
Proof. intros. by apply layout_update. Qed.

Lemma layout_mkdir f p g :
  layout f -> p = directory \/ p = versionsDirectory -> dir_step p f g -> layout g.
Proof.
  intros [H1 H2 H3 H4 [H5 H6] H7] Hp [->|(m & t & ->)]; [done|].
  assert (forall q, q <> directory -> q <> versionsDirectory -> (<[p := NDir m t]> f) !! q = f !! q) as Hq.
  { intros q Hq1 Hq2. rewrite lookup_insert_ne; [done|]. by destruct Hp as [-> | ->]. }
  split; unfold dir_or_none, plain_file, no_link in *.
  - rewrite lookup_insert. by case_decide.
  - rewrite lookup_insert. by case_decide.
  - rewrite Forall_forall in *. intros q Hin. pose proof (files_own q Hin) as (_ & ? & ?).
    rewrite Hq by done. by apply H3.
  - intros n Hn. rewrite Hq; [by apply H4|..]; destruct n; done.
  - by rewrite !Hq.
  - intros t'. rewrite Hq by done. apply H7.
Qed.

(** ** One path at a time *)

Section steps.
Context `{Env} `{Controller}.

Lemma no_slash_Dir d n : Clean (d +:+ "/") = d -> no_char slash n -> Dir (d +:+ "/" +:+ n) = d.
Proof. intros Hd Hn. change (d +:+ "/" +:+ n) with (d +:+ String slash n). by rewrite Dir_app. Qed.

(** The directories the manager writes into. *)
Definition home (d : string) : Prop := d = directory \/ d = versionsDirectory.

Lemma home_clean d : home d -> Clean (d +:+ "/") = d.
Proof. by intros [-> | ->]. Qed.

Lemma home_scratch d x : home d -> scratch (d +:+ "/" +:+ ".xui-agent-runtime-" +:+ x) = true.
Proof. by intros [-> | ->]. Qed.

(** Write [path]: on any failure the node of [path] is the old or the new one. *)
Lemma wp_writeAtomic d n content mode w0 f (Q : result unit -> world -> Prop) C w :
  let path := d +:+ "/" +:+ n in
  after w0 f w -> home d -> is_dir f d = true -> no_char slash n ->
  plain_file f path -> scratch path = false ->
  (forall g w', ~ calm w0 -> after w0 g w' ->
     (g ≡ f \/ exists t, g ≡ <[path := NFile content mode (time_at t)]> f) -> C w' /\ forall e, Q (Err e) w') ->
  (forall g t w', after w0 g w' -> g ≡ <[path := NFile content mode (time_at t)]> f -> Q (Ok tt) w') ->
  wp (writeAtomic path content mode) Q C w.
Proof.
  intros path Hw Hh Hd Hn Hp Hs HX HQ. unfold writeAtomic, path.
  rewrite no_slash_Dir by (done || by apply home_clean). fold path.
  assert (forall w', ~ calm w0 -> after w0 f w' -> C w' /\ forall e, Q (Err e) w') as HX0.
  { intros w' Hc Hw'. by apply (HX f); [| |left]. }
  apply wp_try, (wp_MkdirAll_dir _ _ w0 f); [done|done|..].
  - intros w' Hc Hw'. by apply HX0.
  - intros e w' Hc Hw' _. apply wp_ret. by apply HX0.
  - intros w1 Hw1.
    apply (wp_replaceFile_in d ".xui-agent-runtime-") with (always := False) (w0 := w0) (f := f); try done.
    + by apply home_clean.
    + intros x. by apply home_scratch.
    + apply syncDirectory_looks.
    + intros g w' Hc Hg Hcase. by apply (HX g).
    + intros r g w' Hg [(Hc & [e ->] & Hgf)|(t & Hgf & Hr)].
      * apply (HX g); [done|done|by left].
      * destruct r as [[]|e]; [by eapply HQ|].
        apply (HX g); [|done|right; by exists t]. intros Hc. by specialize (Hr Hc).
Qed.

(** Remove [path], present or not. *)
Lemma wp_removeAndSync n w0 f (Q : result unit -> world -> Prop) C w :
  let path := directory +:+ "/" +:+ n in
  after w0 f w -> is_dir f directory = true -> no_char slash n -> plain_file f path ->
  (forall g w', ~ calm w0 -> after w0 g w' -> (g ≡ f \/ g ≡ delete path f) ->
     C w' /\ forall e, Q (Err e) w') ->
  (forall w', after w0 (delete path f) w' -> Q (Ok tt) w') ->
  wp (removeAndSync path) Q C w.
Proof.
  intros path Hw Hd Hn Hp HX HQ. unfold removeAndSync, path.
  rewrite no_slash_Dir by (done || reflexivity). fold path.
  apply (wp_removeThen False _ directory _ w0 f); try done.
  - intros w1 g Q' C' w' Hw' HC' HQ'. apply wp_bind, (wp_sys_read _ w1 g); [done|auto|..].
    + intros m w2 Hc Hw2. simpl. apply (wp_syncDirectory _ w1 g); [done|done|].
      intros r w3 Hw3 _. apply HQ'; [done|by intros|done].
    + intros w2 Hw2.
      assert (wp (syncDirectory directory) Q' C' w2) as Hsync.
      { apply (wp_syncDirectory _ w1 g); [done|done|]. intros r w3 Hw3 Hr. by apply HQ'. }
      destruct (fs_stat g directory) as [i|e] eqn:E; [done|].
      destruct (errorsIs e SNotExist); [|done]. by apply wp_ret, HQ'.
  - intros w' Hc (g & Hg & Ha)%later_after. apply (HX g); [done|done|by left].
  - intros w' Hc (g & Hg & Ha)%later_after. apply (HX g); [done|done|by right].
  - intros e w' Hc (g & Hg & Ha)%later_after. apply (HX g); [done|done|by left].
  - intros r w' Hw' Hr. destruct r as [[]|e]; [by apply HQ|].
    apply (HX (delete path f)); [|done|by right]. intros Hc. by specialize (Hr Hc).
Qed.

(** Point the link [path] at [target]. *)
Lemma wp_atomicSymlink target path w0 f (Q : result unit -> world -> Prop) C w :
  after w0 f w -> validateTarget target = Ok tt ->
  path = currentPath \/ path = previousPath ->
  is_dir f directory = true -> plain_file f path ->
  (forall g w', ~ calm w0 -> after w0 g w' -> (g ≡ f \/ g ≡ <[path := NLink target]> f) -> C w') ->
  (forall e g w', ~ (calm w0 /\ link_fresh w0 path f) -> after w0 g w' -> g ≡ f -> Q (Err e) w') ->
  (forall g w', after w0 g w' -> g ≡ <[path := NLink target]> f -> Q (Ok tt) w') ->
  wp (atomicSymlink target path) Q C w.
Proof.
  intros Hw Ht Hpath Hd Hp HC HE HQ. unfold atomicSymlink. rewrite Ht.
  apply (wp_replaceLink True _ _ directory _ w0 f); try done.
  - by destruct Hpath as [-> | ->].
  - by destruct Hpath as [-> | ->].
  - intros z. destruct Hpath as [-> | ->]; (split; [reflexivity|]).
    + change (currentPath +:+ ".tmp-" +:+ FormatInt z) with (directory +:+ String slash ("current.json.tmp-" +:+ FormatInt z)).
      rewrite Dir_app; [done|]. apply no_char_app. split; [done|apply FormatInt_no_slash].
    + change (previousPath +:+ ".tmp-" +:+ FormatInt z) with (directory +:+ String slash ("previous.json.tmp-" +:+ FormatInt z)).
      rewrite Dir_app; [done|]. apply no_char_app. split; [done|apply FormatInt_no_slash].
  - apply ret_looks.
  - intros w' Hc (g & Hg & Ha)%later_after. apply (HC g); [done|done|by left].
  - intros w' Hc (g & Hg & Ha)%later_after. apply (HC g); [done|done|by right].
  - intros e w' Hc (g & Hg & Ha)%later_after. by apply (HE e g).
  - intros r w' Ha _ Hr. rewrite Hr by done. by eapply HQ.
Qed.
End steps.

(** ** Programs that only read *)

Section reads.
Context `{Env}.

(** [m] returns [spec] of the tree, or an injected error. *)
Definition reads {A} (m : io (result A)) (spec : fs -> result A) : Prop :=
  forall w0 f (Q : result A -> world -> Prop) (C : world -> Prop) w,
    after w0 f w ->
    (forall w', ~ calm w0 -> after w0 f w' ->
       C w' /\ forall e, errorsIs e SNotExist = false -> Q (Err e) w') ->
    (forall w', after w0 f w' -> Q (spec f) w') ->
    wp m Q C w.

Lemma reads_sys {A} (op : fs -> result A) : reads (sys_read op) op.
Proof.
  intros w0 f Q C w Hw HX HQ. apply (wp_sys_read _ w0 f); [done|..|done].
  - intros w' Hc Hw'. by apply HX.
  - intros m w' Hc Hw'. by apply HX.
Qed.

Lemma reads_ret {A} (r : result A) : reads (ret r) (fun _ => r).
Proof. intros w0 f Q C w Hw _ HQ. by apply HQ. Qed.

Definition keeps_is (g : error -> error) : Prop := forall e s, errorsIs (g e) s = errorsIs e s.

Lemma keeps_is_id : keeps_is (fun e => e).
Proof. done. Qed.
Lemma keeps_is_W p : keeps_is (errorW p).
Proof. done. Qed.

Lemma reads_try {A B} (m : io (result A)) g (k : A -> io (result B)) s t :
  keeps_is g -> reads m s -> (forall a, reads (k a) (t a)) ->
  reads (try m (fun e => ret (Err (g e))) k)
    (fun f => match s f with Ok a => t a f | Err e => Err (g e) end).
Proof.
  intros Hg Hm Hk w0 f Q C w Hw HX HQ. apply wp_try, (Hm w0 f); [done|..].
  - intros w' Hc Hw'. split; [by apply HX|]. intros e He. apply wp_ret, HX; [done|done|].
    by rewrite Hg.
  - intros w' Hw'. destruct (s f) as [a|e]; [by eapply Hk|by apply wp_ret, HQ].
Qed.

Definition s_parsed {T} (path : string) (parse : string -> result T) (f : fs) : result T :=
  match fs_readfile f path with Ok raw => parse raw | Err e => Err e end.

Definition s_applied : fs -> result AppliedState := s_parsed appliedPath parse_applied.
Definition s_pending : fs -> result pendingState := s_parsed pendingPath parse_pending.

Definition s_link (path : string) (f : fs) : result string :=
  match fs_readlink f path with
  | Ok target => let? _ := validateTarget target in Ok target
  | Err e => Err e
  end.

Lemma reads_loadApplied : reads loadApplied s_applied.
Proof. apply (reads_try _ (fun e => e)); [done|apply reads_sys|intros; apply reads_ret]. Qed.

Lemma reads_loadPending : reads loadPending s_pending.
Proof. apply (reads_try _ (fun e => e)); [done|apply reads_sys|intros; apply reads_ret]. Qed.

Lemma reads_link p : reads (linkTarget p) (s_link p).
Proof.
  apply (reads_try _ (fun e => e) _ (fun f => fs_readlink f p)); [done|apply reads_sys|].
  intros a. apply reads_ret.
Qed.

(** What [verifyConfigTarget] answers. *)
Definition s_verify (target digest : string) (f : fs) : result unit :=
  match validateTarget target with
  | Err e => Err e
  | Ok _ =>
      match fs_readfile f (Join directory target) with
      | Err e => Err (errorW "read Xray config target: " e)
      | Ok raw =>
          match fs_lstat f (Join directory target) with
          | Err e => Err (errorW "inspect Xray config target: " e)
          | Ok info =>
              let? _ := guard_err (negb (IsRegular info) || negb (fi_perm info =? configFileMode)%N)
                          "Xray config target has unsafe permissions or file type" in
              guard_err (negb (bool_decide (sha256_hex raw = digest)))
                "Xray config target digest does not match expected state"
          end
      end
  end.

Lemma reads_verify target digest : reads (verifyConfigTarget target digest) (s_verify target digest).
Proof.
  unfold verifyConfigTarget, s_verify. destruct (validateTarget target); [|apply reads_ret].
  apply (reads_try _ (errorW _) _ (fun f => fs_readfile f (Join directory target)));
    [done|apply reads_sys|intros raw].
  apply (reads_try _ (errorW _) _ (fun f => fs_lstat f (Join directory target)));
    [done|apply reads_sys|intros info]. apply reads_ret.
Qed.

(** The pure half of [verifyAppliedTarget]. *)
Definition applied_names (a : AppliedState) : result unit :=
  let? _ := validateAppliedState a in
  let? m := configTargetMetadata (a_target a) in
  guard_err (negb (bool_decide (m.1 = a_version a)) || negb (bool_decide (m.2 = a_digest a)))
    "applied Xray config metadata differs from its immutable target".

Definition s_verifyTarget (a : AppliedState) (f : fs) : result unit :=
  match applied_names a with
  | Err e => Err e
  | Ok _ => s_verify (a_target a) (a_digest a) f
  end.

Lemma reads_verifyAppliedTarget a : reads (verifyAppliedTarget a) (s_verifyTarget a).
Proof.
  unfold verifyAppliedTarget, s_verifyTarget. fold (applied_names a).
  destruct (applied_names a); [apply reads_verify|apply reads_ret].
Qed.

Definition s_verifyApplied (a : AppliedState) (f : fs) : result unit :=
  match s_link currentPath f with
  | Err e => Err (errorW "read applied Xray config target: " e)
  | Ok current =>
      if bool_decide (current = a_target a) then s_verifyTarget a f
      else Err (errorsNew "current Xray config target differs from applied state")
  end.

Lemma reads_verifyApplied a : reads (verifyApplied a) (s_verifyApplied a).
Proof.
  apply (reads_try _ (errorW _) _ (s_link currentPath)
    (fun current f => if bool_decide (current = a_target a) then s_verifyTarget a f
      else Err (errorsNew "current Xray config target differs from applied state")));
    [done|apply reads_link|].
  intros c. case_bool_decide; [apply reads_verifyAppliedTarget|apply reads_ret].
Qed.

Definition s_stateFor (target : string) (f : fs) : result AppliedState :=
  match configTargetMetadata target with
  | Err e => Err e
  | Ok (version, digest) =>
      match s_verify target digest f with
      | Err e => Err e
      | Ok _ =>
          match fs_stat f (Join directory target) with
          | Err e => Err e
          | Ok info =>
              let at_ := (fi_mtime info / 1000000000)%Z in
              Ok (MkApplied version digest target (if bool_decide (at_ <= 0)%Z then 1%Z else at_))
          end
      end
  end.

Lemma reads_stateFor target : reads (appliedStateForTarget target) (s_stateFor target).
Proof.
  unfold appliedStateForTarget, s_stateFor.
  destruct (configTargetMetadata target) as [[v d]|e]; [|apply reads_ret].
  apply (reads_try _ (fun e => e) _ (s_verify target d)
    (fun _ f => match fs_stat f (Join directory target) with Err e => Err e | Ok info => _ end));
    [done|apply reads_verify|intros _].
  apply (reads_try _ (fun e => e) _ (fun f => fs_stat f (Join directory target)));
    [done|apply reads_sys|intros info]. apply reads_ret.
Qed.

Definition s_rollback (p : pendingState) (f : fs) : result AppliedState :=
  match p_prev_applied p with
  | Some a =>
      if negb (bool_decide (a_target a = p_prev p)) then
        Err (errorsNew "previous applied Xray config target does not match pending rollback target")
      else match s_verifyTarget a f with Err e => Err e | Ok _ => Ok a end
  | None => s_stateFor (p_prev p) f
  end.

Lemma reads_rollback p : reads (rollbackAppliedState p) (s_rollback p).
Proof.
  unfold rollbackAppliedState, s_rollback. destruct (p_prev_applied p) as [a|].
  - destruct (negb _); [apply reads_ret|].
    apply (reads_try _ (fun e => e) _ (s_verifyTarget a)); [done|apply reads_verifyAppliedTarget|].
    intros _. apply reads_ret.
  - apply reads_stateFor.
Qed.
End reads.

(** ** What the reads establish *)

(** The file of a target: regular, mode 0600, with content of the digest. *)
Definition good (f : fs) (target digest : string) : Prop :=
  exists c t, f !! (directory +:+ "/" +:+ target) = Some (NFile c configFileMode t) /\
    sha256_hex c = digest.

Lemma entry_directory : entry_name directory.
Proof. by split_and!. Qed.

Lemma target_path target : validateTarget target = Ok tt ->
  Join directory target = directory +:+ "/" +:+ target.
Proof. intros. apply Join_target; [apply entry_directory|done]. Qed.

Lemma follow_lstat (f : fs) p c i :
  fs_readfile f p = Ok c -> fs_lstat f p = Ok i -> IsRegular i = true ->
  exists t, f !! p = Some (NFile c (fi_perm i) t) /\ fi_mtime i = t.
Proof.
  unfold fs_lstat. destruct (f !! p) as [n|] eqn:E; [|done]. intros Hr [= <-] Hi.
  destruct n as [c' m t| |]; try done. rewrite (fs_readfile_file _ _ _ _ _ E) in Hr.
  injection Hr as ->. by exists t.
Qed.

Lemma s_verify_ok target digest f :
  s_verify target digest f = Ok tt <-> validateTarget target = Ok tt /\ good f target digest.
Proof.
  unfold s_verify, good. split.
  - destruct (validateTarget target) as [[]|] eqn:Et; [|done]. rewrite target_path by done.
    destruct (fs_readfile f _) as [raw|] eqn:Er; [|done].
    destruct (fs_lstat f _) as [info|] eqn:El; [|done].
    intros ([] & H1 & H2)%rbind_Ok. apply guard_err_Ok in H1, H2.
    rewrite orb_false_iff, !negb_false_iff, N.eqb_eq in H1. destruct H1 as [Hreg Hperm].
    rewrite negb_false_iff, bool_decide_eq_true in H2.
    destruct (follow_lstat _ _ _ _ Er El Hreg) as (t & Ht & _). rewrite Hperm in Ht. by eauto.
  - intros (Et & c & t & Hf & Hd). rewrite Et, target_path by done.
    rewrite (fs_readfile_file _ _ _ _ _ Hf). unfold fs_lstat. rewrite Hf. simpl.
    by rewrite Hd, bool_decide_true.
Qed.

Lemma s_link_ok p f t : s_link p f = Ok t <-> f !! p = Some (NLink t) /\ validateTarget t = Ok tt.
Proof.
  unfold s_link, fs_readlink. split.
  - destruct (f !! p) as [[]|]; try done. simpl.
    intros ([] & Ht & [= <-])%rbind_Ok. done.
  - intros [-> Ht]. simpl. by rewrite Ht.
Qed.

Lemma s_link_NotExist p f e :
  s_link p f = Err e -> errorsIs e SNotExist = true -> f !! p = None.
Proof.
  unfold s_link, fs_readlink. destruct (f !! p) as [[| |t]|]; try done.
  - by intros [= <-].
  - by intros [= <-].
  - simpl. unfold validateTarget, guard_err. repeat case_match; simpl in *; intros; simplify_eq; done.
Qed.

Lemma applied_names_ok a : applied_names a = Ok tt <->
  validateAppliedState a = Ok tt /\ configTargetMetadata (a_target a) = Ok (a_version a, a_digest a).
Proof.
  unfold applied_names. split.
  - intros ([] & H1 & ([v d] & H2 & H3)%rbind_Ok)%rbind_Ok. apply guard_err_Ok in H3. simpl in H3.
    rewrite orb_false_iff, !negb_false_iff, !bool_decide_eq_true in H3. by destruct H3 as [-> ->].
  - intros [-> ->]. simpl. by rewrite !bool_decide_true.
Qed.

(** The applied state names its version and the version's file is intact. *)
Definition sound (f : fs) (a : AppliedState) : Prop :=
  validateAppliedState a = Ok tt /\
  configTargetMetadata (a_target a) = Ok (a_version a, a_digest a) /\
  good f (a_target a) (a_digest a).

Lemma s_verifyTarget_ok a f : s_verifyTarget a f = Ok tt <-> sound f a.
Proof.
  unfold s_verifyTarget, sound. pose proof (applied_names_ok a) as Hn.
  destruct (applied_names a) as [[]|e] eqn:E.
  - destruct (proj1 Hn eq_refl) as [H1 H2]. rewrite s_verify_ok. split; [by intros [_ ?]|].
    intros (_ & _ & ?). split; [|done]. by eapply metadata_target.
  - split; [done|]. intros (H1 & H2 & _). by discriminate (proj2 Hn (conj H1 H2)).
Qed.

Lemma s_verifyApplied_ok a f :
  s_verifyApplied a f = Ok tt <-> f !! currentPath = Some (NLink (a_target a)) /\ sound f a.
Proof.
  unfold s_verifyApplied. rewrite <- s_verifyTarget_ok. split.
  - destruct (s_link currentPath f) as [c|] eqn:E; [|done]. apply s_link_ok in E as [E _].
    case_bool_decide as Hc; [|done]. subst c. done.
  - intros [E Hs]. rewrite (proj2 (s_link_ok currentPath f (a_target a))).
    + by rewrite bool_decide_true.
    + split; [done|]. apply s_verifyTarget_ok in Hs as (_ & Hm & _). by eapply metadata_target.
Qed.

Lemma s_parsed_NotExist {T} path (parse : string -> result T) f e :
  no_link f path -> (forall raw e', parse raw = Err e' -> errorsIs e' SNotExist = false) ->
  s_parsed path parse f = Err e -> errorsIs e SNotExist = true -> f !! path = None.
Proof.
  intros Hl Hp. unfold s_parsed. destruct (f !! path) as [n|] eqn:E; [|done].
  destruct n as [c m t|m t|t]; [| |by destruct (Hl t)].
  - rewrite (fs_readfile_file _ _ _ _ _ E). intros Hpe He. rewrite (Hp _ _ Hpe) in He. done.
  - unfold fs_readfile. rewrite (follow_node _ _ _ _ E) by done. by intros [= <-].
Qed.

Lemma s_parsed_None {T} path (parse : string -> result T) f :
  f !! path = None -> s_parsed path parse f = Err errNotExist.
Proof. intros Hf. unfold s_parsed. by rewrite fs_readfile_none. Qed.

Lemma s_parsed_Ok {T} path (parse : string -> result T) f x :
  no_link f path ->
  (s_parsed path parse f = Ok x <->
   exists raw m t, f !! path = Some (NFile raw m t) /\ parse raw = Ok x).
Proof.
  intros Hl. unfold s_parsed. split.
  - unfold fs_readfile. destruct (f !! path) as [n|] eqn:E.
    + rewrite (follow_node _ _ _ _ E) by (intros t ->; by destruct (Hl t)).
      destruct n; try done. intros Hx. by do 3 eexists.
    + by rewrite follow_none.
  - intros (raw & m & t & E & Hx). by rewrite (fs_readfile_file _ _ _ _ _ E).
Qed.
