(* ===== verification/XrayPrune.v ===== *)
(** * Collecting old configuration versions

    [pruneVersions] removes version files beyond the five newest, except those
    that the links, the applied state or a pending apply name. *)

From stdpp Require Import base gmap strings list fin_maps sorting.
From Stdlib Require Import ZArith NArith Ascii.
From S2P Require Import Prelude.
From S2P Require Import GoStrings.
From S2P Require Import Sha256.
From S2P Require Import Os.
From S2P Require Import AtomicFile.
From S2P Require Import XrayTypes.
From S2P Require Import XrayRuntime.
From S2P Require Import XraySteps.

(** ** Names *)

Lemma Join_versions_entry n :
  no_char slash n -> n <> "" -> validateTarget (Join "versions" n) = Ok tt -> entry_name n.
Proof.
  intros Hs Hn Ht. split_and!; [done|done|intros ->..]; vm_compute in Ht; done.
Qed.

Lemma Join_versions n : entry_name n -> Join "versions" n = "versions/" +:+ n.
Proof. intros Hn. rewrite Join_entry; [done|apply entry_versions|done]. Qed.

Lemma version_path_target n : version_path n = directory +:+ "/" +:+ ("versions/" +:+ n).
Proof. done. Qed.

Lemma Join_versionsDirectory n : entry_name n -> Join versionsDirectory n = version_path n.
Proof.
  intros Hn. rewrite version_path_target, <- target_path.
  - unfold Join. rewrite !bool_decide_false; [done|..]; try done. apply Hn.
  - apply validateTarget_ok. by exists n.
Qed.

Lemma entry_names_entry f d n : n ∈ entry_names f d -> no_char slash n /\ n <> "".
Proof.
  unfold entry_names. rewrite merge_sort_Permutation. intros Hn.
  apply list_elem_of_omap in Hn as ([p v] & _ & Hn). unfold child_of in Hn. simpl in Hn.
  destruct (HasPrefix p _); [|done]. case_bool_decide as E; [done|]. simpl in Hn.
  destruct (contains_char slash _) eqn:Ec; [done|]. by injection Hn as <-.
Qed.

(** ** What is protected *)

Definition protects (f : fs) (P : list string) : Prop :=
  (forall t, f !! currentPath = Some (NLink t) -> t ∈ P) /\
  (forall t, f !! previousPath = Some (NLink t) -> t ∈ P) /\
  (forall a, s_applied f = Ok a -> a_target a ∈ P) /\
  (forall p, s_pending f = Ok p -> p_target p ∈ P /\ (p_prev p <> "" -> p_prev p ∈ P)).

(** From [f] to [g] only unprotected version files went away. *)
Definition pruned (P : list string) (f g : fs) : Prop :=
  forall q, g !! q = f !! q \/
    (g !! q = None /\ exists n c m t, q = version_path n /\ entry_name n /\
       f !! q = Some (NFile c m t) /\ ("versions/" +:+ n) ∉ P).

Lemma pruned_refl P f : pruned P f f.
Proof. intros q. by left. Qed.

Lemma pruned_trans P f g h : pruned P f g -> pruned P g h -> pruned P f h.
Proof.
  intros H1 H2 q. destruct (H1 q) as [E1|[E1 D1]], (H2 q) as [E2|[E2 D2]].
  - left. congruence.
  - right. split; [done|]. by rewrite <- E1.
  - right. split; [congruence|done].
  - by right.
Qed.

Definition collected (f g : fs) : Prop := exists P, protects f P /\ pruned P f g.

(** A protected version keeps its file. *)
Lemma pruned_good P f g t d : pruned P f g -> t ∈ P -> good f t d -> good g t d.
Proof.
  intros Hp Ht (c & m & Hf & Hd). exists c, m. split; [|done].
  destruct (Hp (directory +:+ "/" +:+ t)) as [->|[_ (n & c' & m' & t' & E & _ & _ & Hn)]]; [done|].
  exfalso. apply Hn. rewrite version_path_target in E.
  change (directory +:+ "/" +:+ ?x) with ("xray-config/" +:+ x) in E.
  apply sapp_inj_l in E. by subst t.
Qed.

Lemma pruned_other P f g q : pruned P f g -> (forall n, q <> version_path n) -> g !! q = f !! q.
Proof. intros Hp Hq. destruct (Hp q) as [?|[_ (n & _ & _ & _ & E & _)]]; [done|by destruct (Hq n)]. Qed.

Lemma pruned_is_dir P f g d : pruned P f g -> is_dir f d = true -> is_dir g d = true.
Proof.
  intros Hp. unfold is_dir. rewrite !orb_true_iff. intros [?|Hd]; [by left|right].
  destruct (Hp d) as [->|[_ (n & c & m & t & _ & _ & E & _)]]; [done|]. by rewrite E in Hd.
Qed.

Lemma layout_pruned P f g : pruned P f g -> layout f -> layout g.
Proof.
  intros Hp [H1 H2 H3 H4 [H5 H6] H7].
  assert (forall q, plain_file f q -> plain_file g q) as Hpl.
  { intros q Hq. unfold plain_file in *. destruct (Hp q) as [->|[-> _]]; done. }
  split.
  - unfold dir_or_none in *. destruct (Hp directory) as [->|[-> _]]; done.
  - unfold dir_or_none in *. destruct (Hp versionsDirectory) as [->|[-> _]]; done.
  - eapply Forall_impl; [exact H3|]. apply Hpl.
  - intros n Hn. destruct (Hp (version_path n)) as [->|[-> _]]; [by apply H4|done].
  - split; intros t.
    + destruct (Hp appliedPath) as [->|[-> _]]; [apply H5|done].
    + destruct (Hp pendingPath) as [->|[-> _]]; [apply H6|done].
  - intros t. destruct (Hp previousPath) as [->|[-> _]]; [apply H7|done].
Qed.

Section prune.
Context `{Env}.

(** ** Reading what is protected *)

Lemma reads_bind {A B} (m : io (result A)) (k : result A -> io (result B)) s t :
  reads m s -> (forall r, reads (k r) (t r)) ->
  (forall e, errorsIs e SNotExist = false ->
     exists e', k (Err e) = ret (Err e') /\ errorsIs e' SNotExist = false) ->
  reads (bind m k) (fun f => t (s f) f).
Proof.
  intros Hm Hk He w0 f Q C w Hw HX HQ. apply wp_bind, (Hm w0 f); [done|..].
  - intros w' Hc Hw'. split; [by apply HX|]. intros e Hne.
    destruct (He e Hne) as (e' & -> & Hne'). by apply wp_ret, HX.
  - intros w' Hw'. by eapply Hk.
Qed.

Definition s_protect (path : string) (f : fs) : result (list string) :=
  match fs_readlink f path with
  | Ok target => let? _ := validateTarget target in Ok [target]
  | Err e => if errorsIs e SNotExist then Ok [] else Err e
  end.

Lemma reads_protect p : reads (protect_link p) (s_protect p).
Proof.
  apply (reads_bind (Readlink p)
    (fun r => ret (match r with
       | Ok target => let? _ := validateTarget target in Ok [target]
       | Err e => if errorsIs e SNotExist then Ok [] else Err e
       end)) (fun f => fs_readlink f p)
    (fun r _ => match r with
       | Ok target => let? _ := validateTarget target in Ok [target]
       | Err e => if errorsIs e SNotExist then Ok [] else Err e
       end)); [apply reads_sys|intros r; apply reads_ret|].
  intros e He. exists e. by rewrite He.
Qed.

Definition or_absent {A B} (x : B) (k : A -> result B) (r : result A) : result B :=
  match r with
  | Ok a => k a
  | Err e => if errorsIs e SNotExist then Ok x else Err e
  end.

Definition s_protected (f : fs) : result (list string) :=
  match s_protect currentPath f with
  | Err e => Err e
  | Ok current =>
      match s_protect previousPath f with
      | Err e => Err e
      | Ok previous =>
          match or_absent [] (fun a => Ok [a_target a]) (s_applied f) with
          | Err e => Err e
          | Ok applied =>
              or_absent (current ++ previous ++ applied)
                (fun p => Ok (current ++ previous ++ applied ++ p_target p ::
                              (if bool_decide (p_prev p = "") then [] else [p_prev p])))
                (s_pending f)
          end
      end
  end.

Lemma reads_protected : reads protectedTargets s_protected.
Proof.
  apply (reads_try _ (fun e => e) _ (s_protect currentPath)
    (fun current f => match s_protect previousPath f with Err e => Err e | Ok previous => _ end));
    [done|apply reads_protect|intros current].
  apply (reads_try _ (fun e => e) _ (s_protect previousPath)
    (fun previous f => match or_absent [] (fun a => Ok [a_target a]) (s_applied f) with
                       | Err e => Err e | Ok applied => _ end));
    [done|apply reads_protect|intros previous].
  apply (reads_bind loadApplied _ s_applied
    (fun r f => match or_absent [] (fun a => Ok [a_target a]) r with
                | Err e => Err e | Ok applied => _ end)); [apply reads_loadApplied| |].
  - intros r. fold (or_absent (A := AppliedState) [] (fun a => Ok [a_target a]) r).
    destruct (or_absent [] _ r) as [applied|e]; [|apply reads_ret].
    apply (reads_bind loadPending _ s_pending
      (fun r _ => or_absent (current ++ previous ++ applied) _ r)); [apply reads_loadPending| |].
    + intros r'. apply reads_ret.
    + intros e He. exists e. simpl. by rewrite He.
  - intros e He. exists e. simpl. by rewrite He.
Qed.

Lemma s_protected_protects f P : layout f -> s_protected f = Ok P -> protects f P.
Proof.
  intros _. unfold s_protected.
  destruct (s_protect currentPath f) as [current|] eqn:Ec; [|done].
  destruct (s_protect previousPath f) as [previous|] eqn:Ep; [|done].
  destruct (or_absent [] _ (s_applied f)) as [applied|] eqn:Ea; [|done].
  intros Hp.
  assert (forall p l, s_protect p f = Ok l -> forall t, f !! p = Some (NLink t) -> t ∈ l) as Hl.
  { intros p l Hs t Ht. unfold s_protect, fs_readlink in Hs. rewrite Ht in Hs.
    apply rbind_Ok in Hs as ([] & _ & [= <-]). set_solver. }
  assert (current ++ previous ++ applied ⊆ P) as Hsub.
  { unfold or_absent in Hp. destruct (s_pending f) as [p|e].
    - injection Hp as <-. set_solver.
    - destruct (errorsIs e SNotExist); [|done]. by injection Hp as <-. }
  split_and!.
  - intros t Ht. pose proof (Hl _ _ Ec t Ht). set_solver.
  - intros t Ht. pose proof (Hl _ _ Ep t Ht). set_solver.
  - intros a Ha. rewrite Ha in Ea. simpl in Ea. injection Ea as <-. set_solver.
  - intros p Hpd. rewrite Hpd in Hp. simpl in Hp. injection Hp as <-.
    split; [set_solver|]. intros Hne. rewrite bool_decide_false by done. set_solver.
Qed.

(** ** The version files *)

Fixpoint s_versions (names : list string) (f : fs) : result (list (string * Z)) :=
  match names with
  | [] => Ok []
  | name :: rest =>
      match configTargetDigest (Join "versions" name) with
      | Err _ => s_versions rest f
      | Ok _ =>
          match fs_lstat f (Join versionsDirectory name) with
          | Err e => Err e
          | Ok info =>
              match s_versions rest f with
              | Err e => Err e
              | Ok l => Ok (if IsRegular info then (name, fi_mtime info) :: l else l)
              end
          end
      end
  end.

Lemma reads_versions names : reads (versionFiles names) (s_versions names).
Proof.
  induction names as [|n names IH]; simpl; [apply reads_ret|].
  destruct (configTargetDigest (Join "versions" n)); [|done].
  apply (reads_try _ (fun e => e) _ (fun f => fs_lstat f (Join versionsDirectory n))
    (fun info f => match s_versions names f with Err e => Err e | Ok l => _ end));
    [done|apply reads_sys|intros info].
  apply (reads_try _ (fun e => e) _ (s_versions names)); [done|done|intros l; apply reads_ret].
Qed.

Definition version_file (f : fs) (v : string * Z) : Prop :=
  entry_name v.1 /\ exists c m, f !! version_path v.1 = Some (NFile c m v.2).

Lemma metadata_digest n d : configTargetDigest (Join "versions" n) = Ok d ->
  validateTarget (Join "versions" n) = Ok tt.
Proof. unfold configTargetDigest. intros (m & Hm & _)%rbind_Ok. by eapply metadata_target. Qed.

Lemma s_versions_files names f l :
  Forall (fun n => no_char slash n /\ n <> "") names ->
  s_versions names f = Ok l -> Forall (version_file f) l.
Proof.
  intros Hn. revert l. induction Hn as [|n names [Hs Hne] Hn IH]; simpl; intros l Hl.
  - by injection Hl as <-.
  - destruct (configTargetDigest (Join "versions" n)) as [d|] eqn:Ed; [|by apply IH].
    apply metadata_digest, Join_versions_entry in Ed; [|done|done].
    rewrite Join_versionsDirectory in Hl by done.
    unfold fs_lstat in Hl. destruct (f !! version_path n) as [x|] eqn:Ex; [|done].
    destruct (s_versions names f) as [l'|]; [|done]. injection Hl as <-.
    specialize (IH l' eq_refl). destruct x as [c m t| |]; simpl; try done.
    constructor; [|done]. split; [done|]. simpl. by eauto.
Qed.

(** ** Removing them *)

Definition file_or_gone (f : fs) (v : string * Z) : Prop :=
  entry_name v.1 /\
  (f !! version_path v.1 = None \/ exists c m t, f !! version_path v.1 = Some (NFile c m t)).

Lemma version_file_or_gone f v : version_file f v -> file_or_gone f v.
Proof. intros (? & c & m & ?). split; [done|right; eauto]. Qed.

Lemma pruned_remove P f n idx :
  removable P idx n = true -> file_or_gone f (n, 0%Z) ->
  pruned P f (fs_remove f (version_path n)).1.
Proof.
  intros Hr [Hn Hf]. simpl in *. unfold removable in Hr. apply andb_true_iff in Hr as [_ Hr].
  rewrite negb_true_iff, bool_decide_eq_false, Join_versions in Hr by done.
  unfold fs_remove. destruct Hf as [E|(c & m & t & E)]; rewrite E; simpl; [apply pruned_refl|].
  intros q. rewrite lookup_delete. case_decide as Eq; [|by left].
  right. split; [done|]. subst q. by exists n, c, m, t.
Qed.

Lemma gone_remove f v p : file_or_gone f v -> file_or_gone (fs_remove f p).1 v.
Proof.
  intros [Hn Hf]. split; [done|].
  assert ((fs_remove f p).1 = f \/ (fs_remove f p).1 = delete p f) as [->| ->]; [|done|].
  { unfold fs_remove. destruct (f !! p) as [[]|]; simpl; auto. destruct (entry_names f p); auto. }
  rewrite lookup_delete. case_decide; [by left|done].
Qed.

Lemma wp_removeVersions P idx vs removed w0 f (Q : result bool -> world -> Prop) C w :
  after w0 f w -> Forall (file_or_gone f) vs ->
  (forall g w', ~ calm w0 -> after w0 g w' -> pruned P f g -> C w') ->
  (forall e g w', after w0 g w' -> pruned P f g -> Q (Err e) w') ->
  (forall b g w', after w0 g w' -> pruned P f g -> Q (Ok b) w') ->
  wp (removeVersions P idx vs removed) Q C w.
Proof.
  revert idx removed f w. induction vs as [|v vs IH]; intros idx removed f w Hw Hvs HC HE HQ; simpl.
  { apply wp_ret. eapply HQ; [done|apply pruned_refl]. }
  apply Forall_cons in Hvs as [Hv Hvs].
  destruct (removable P idx v.1) eqn:Er; [|by apply (IH _ _ f)].
  rewrite Join_versionsDirectory by apply Hv.
  pose proof (pruned_remove P f v.1 idx Er) as Hpr.
  assert (pruned P f (fs_remove f (version_path v.1)).1) as Hp1 by (apply Hpr; split; apply Hv).
  apply wp_try, (wp_sys _ w0 f); [done|..].
  - intros w' Hc Hw'. eapply HC; [done|done|apply pruned_refl].
  - intros m w' Hc Hw'. eapply wp_ret, HE; [done|apply pruned_refl].
  - intros _ _ w' Hw'. destruct (fs_remove f (version_path v.1)) as [g [u|e]] eqn:E; simpl in *.
    + apply (IH _ _ g); [done|..].
      * eapply Forall_impl; [exact Hvs|]. intros x Hx.
        pose proof (gone_remove f x (version_path v.1) Hx) as Hg. by rewrite E in Hg.
      * intros h w2 Hc Hw2 Hh. eapply HC; [done|done|by eapply pruned_trans].
      * intros e h w2 Hw2 Hh. eapply HE; [done|by eapply pruned_trans].
      * intros b h w2 Hw2 Hh. eapply HQ; [done|by eapply pruned_trans].
    + apply wp_ret. by eapply HE.
Qed.

(** [pruneVersions]: however it ends, only unprotected versions went away. *)
Lemma wp_pruneVersions w0 f (Q : result unit -> world -> Prop) C w :
  after w0 f w -> layout f ->
  (forall g w', ~ calm w0 -> after w0 g w' -> g = f \/ collected f g -> C w') ->
  (forall e g w', after w0 g w' -> g = f \/ collected f g -> Q (Err e) w') ->
  (forall g w', after w0 g w' -> g = f \/ collected f g -> Q (Ok tt) w') ->
  wp pruneVersions Q C w.
Proof.
  intros Hw Hlay HC HE HQ. unfold pruneVersions.
  apply wp_bind, (wp_sys_read _ w0 f); [done|..].
  { intros w' Hc Hw'. eapply HC; [done|done|by left]. }
  { intros m w' Hc Hw'. simpl. eapply wp_ret, HE; [done|by left]. }
  intros w1 Hw1. destruct (is_dir f versionsDirectory) eqn:Ed.
  2:{ destruct (f !! versionsDirectory); simpl; eapply wp_ret; [eapply HE|eapply HQ]; try done; by left. }
  apply wp_try, (reads_protected w0 f); [done|..].
  { intros w' Hc Hw'. split; [eapply HC; [done|done|by left]|]. intros e _.
    eapply wp_ret, HE; [done|by left]. }
  intros w2 Hw2. destruct (s_protected f) as [P|e] eqn:EP.
  2:{ eapply wp_ret, HE; [done|by left]. }
  apply s_protected_protects in EP; [|done].
  apply wp_try, (reads_versions _ w0 f); [done|..].
  { intros w' Hc Hw'. split; [eapply HC; [done|done|by left]|]. intros e _.
    eapply wp_ret, HE; [done|by left]. }
  intros w3 Hw3. destruct (s_versions _ f) as [vs|e] eqn:Ev.
  2:{ eapply wp_ret, HE; [done|by left]. }
  apply s_versions_files in Ev.
  2:{ apply Forall_forall. intros n. apply entry_names_entry. }
  apply wp_try, (wp_removeVersions P _ _ _ w0 f); [done|..].
  - rewrite Forall_forall in *. intros v Hv. apply version_file_or_gone, Ev.
    by rewrite merge_sort_Permutation in Hv.
  - intros g w' Hc Hg Hp. eapply HC; [done|done|right; by exists P].
  - intros e g w' Hg Hp. eapply wp_ret, HE; [done|right; by exists P].
  - intros b g w' Hg Hp. assert (g = f \/ collected f g) as Hcol by (right; by exists P).
    destruct b; [|by eapply wp_ret, HQ].
    apply (wp_syncDirectory _ w0 g); [done|..].
    + intros w'' Hc Hw''. by eapply HC.
    + intros r w'' Hw'' _. destruct r as [[]|e]; [by eapply HQ|by eapply HE].
Qed.
End prune.
