(* ===== verification/XrayInv.v ===== *)
(** * The invariant of the Xray configuration store

    [stable]: nothing is pending, and either no configuration was ever applied
    or the applied state, the current link and the version file agree.
    [progressing]: an apply is pending and the version to fall back to is
    intact.  Every crash leaves one of the two. *)

From stdpp Require Import base gmap strings list fin_maps sorting.
From Stdlib Require Import ZArith NArith Ascii.
From S2P Require Import Prelude.
From S2P Require Import GoStrings.
From S2P Require Import Sha256.
From S2P Require Import Os.
From S2P Require Import AtomicFile.
From S2P Require Import XrayConfig.
From S2P Require Import XrayTypes.
From S2P Require Import XrayRuntime.
From S2P Require Import XraySteps.
From S2P Require Import XrayPrune.

(** ** States *)

Definition holds {T} (path : string) (parse : string -> result T) (f : fs) (x : T) : Prop :=
  exists raw m t, f !! path = Some (NFile raw m t) /\ parse raw = Ok x.

Definition applied_is (f : fs) (a : AppliedState) : Prop :=
  holds appliedPath parse_applied f a /\ applied_ok a.
Definition pending_is (f : fs) (p : pendingState) : Prop :=
  holds pendingPath parse_pending f p /\ pending_ok p.

Definition consistent (f : fs) (a : AppliedState) : Prop :=
  applied_is f a /\ f !! currentPath = Some (NLink (a_target a)) /\ sound f a.

Definition settled (f : fs) : Prop :=
  (f !! appliedPath = None /\ f !! currentPath = None) \/ exists a, consistent f a.

Definition stable (f : fs) : Prop := layout f /\ f !! pendingPath = None /\ settled f.

(** The version a pending apply falls back to. *)
Definition rollback_ok (f : fs) (p : pendingState) : Prop :=
  p_prev p = "" \/
  ((exists v d, configTargetMetadata (p_prev p) = Ok (v, d) /\ good f (p_prev p) d) /\
   forall a, p_prev_applied p = Some a -> a_target a = p_prev p /\ sound f a).

Definition tracked (f : fs) : Prop := f !! appliedPath = None \/ exists a, applied_is f a.

Definition prog (p : pendingState) (f : fs) : Prop :=
  layout f /\ is_dir f directory = true /\ pending_is f p /\ rollback_ok f p /\ tracked f.

Definition progressing (f : fs) : Prop := exists p, prog p f.

Definition safe (f : fs) : Prop := stable f \/ progressing f.

(** ** Version paths are not scratch *)

Lemma digits_head s n : ParseUint s 64 = Some n -> exists c r, s = String c r /\ is_digit c = true.
Proof.
  destruct s as [|c r]; [done|]. intros Hp. exists c, r. split; [done|].
  rewrite ParseUint_unfold in Hp by done. destruct (dec_value 0 _) as [k|] eqn:E; [|done].
  apply dec_value_digits in E. simpl in E. by apply andb_true_iff in E as [? _].
Qed.

Lemma TrimSuffix_head s x c r : TrimSuffix s x = String c r -> exists r', s = String c r'.
Proof.
  unfold TrimSuffix. destruct (HasSuffix s x); [|intros ->; by eexists].
  destruct s as [|a s]; [by destruct (_ - _)%nat|].
  destruct (_ - _)%nat; [done|]. intros [= -> _]. by eexists.
Qed.

Lemma metadata_scratch t m : configTargetMetadata t = Ok m ->
  scratch (directory +:+ "/" +:+ t) = false.
Proof.
  unfold configTargetMetadata. intros ([] & (n & Hn & ->)%validateTarget_entry & Hm)%rbind_Ok.
  change ("versions/" +:+ n) with ("versions" +:+ String slash n) in Hm.
  rewrite Base_two in Hm by done.
  destruct (Split (TrimSuffix n ".json") "-") as [|p0 [|p1 l]] eqn:Es; try done.
  destruct (negb _ || negb _); [done|].
  destruct (ParseUint p0 64) as [k|] eqn:Ek; [|done].
  apply digits_head in Ek as (c & r & -> & Hc). apply Split_head in Es as [r' Es].
  rewrite app_String in Es. apply TrimSuffix_head in Es as [r'' ->].
  change (directory +:+ "/" +:+ "versions/" +:+ String c r'') with
    ("xray-config/versions/" +:+ String c r'').
  destruct c as [[] [] [] [] [] [] [] []]; try (vm_compute in Hc; discriminate Hc); reflexivity.
Qed.

(** ** What the predicates look at *)

(** The same version files, mode and content included. *)
Definition same_versions (f g : fs) : Prop :=
  forall n, scratch (version_path n) = false -> g !! version_path n = f !! version_path n.

Lemma good_same f g t m d :
  same_versions f g -> configTargetMetadata t = Ok m -> good f t d -> good g t d.
Proof.
  intros Hs Hm (c & z & Hf & Hd). pose proof (metadata_scratch t m Hm) as Hsc.
  apply metadata_target, validateTarget_entry in Hm as (n & Hn & ->).
  rewrite <- version_path_target in *. exists c, z.
  rewrite <- version_path_target, (Hs n Hsc). done.
Qed.

(** The version [t] is still there. *)
Definition keeps (f g : fs) (t : string) : Prop :=
  forall m, configTargetMetadata t = Ok m -> good f t m.2 -> good g t m.2.

Lemma keeps_same f g t : same_versions f g -> keeps f g t.
Proof. intros Hs m Hm. by eapply good_same. Qed.

Lemma sound_keep f g a : keeps f g (a_target a) -> sound f a -> sound g a.
Proof. intros Hk (H1 & H2 & H3). split_and!; [done|done|by apply (Hk _ H2)]. Qed.

Lemma rollback_keep f g p : (p_prev p <> "" -> keeps f g (p_prev p)) ->
  rollback_ok f p -> rollback_ok g p.
Proof.
  intros Hk Hr. destruct (decide (p_prev p = "")) as [E|Hne]; [by left|].
  destruct Hr as [?|[(v & d & Hm & Hg) Ha]]; [by left|right]. split.
  - exists v, d. split; [done|by apply (Hk Hne _ Hm)].
  - intros a E. destruct (Ha a E) as [Et Hsd]. split; [done|]. eapply sound_keep; [|done].
    rewrite Et. by apply Hk.
Qed.

Lemma holds_same {T} path (parse : string -> result T) f g x :
  g !! path = f !! path -> holds path parse f x -> holds path parse g x.
Proof. intros E. unfold holds. by rewrite E. Qed.

Lemma prog_same p f g :
  prog p f -> layout g -> is_dir g directory = true ->
  (p_prev p <> "" -> keeps f g (p_prev p)) ->
  g !! pendingPath = f !! pendingPath ->
  g !! appliedPath = f !! appliedPath \/ tracked g ->
  prog p g.
Proof.
  intros (Hl & Hd & [Hp Hpo] & Hr & Ht) Hlg Hdg Hs Ep Ea. split_and!; try done.
  - split; [by eapply holds_same|done].
  - by eapply rollback_keep.
  - destruct Ea as [Ea|?]; [|done].
    destruct Ht as [Ht|(a & [Ha Hok])]; [left; congruence|right].
    exists a. split; [by eapply holds_same|done].
Qed.

Lemma stable_same f g :
  stable f -> layout g -> (forall a, applied_is f a -> keeps f g (a_target a)) ->
  g !! pendingPath = f !! pendingPath -> g !! appliedPath = f !! appliedPath ->
  g !! currentPath = f !! currentPath -> stable g.
Proof.
  intros (Hl & Hp & Hs) Hlg Hv Ep Ea Ec. split_and!; [done|congruence|].
  destruct Hs as [[? ?]|(a & [Ha Hok] & Hc & Hsd)]; [left; split; congruence|right].
  exists a. split; [|split; [congruence|eapply sound_keep; [|done]; by apply Hv]].
  split; [by eapply holds_same|done].
Qed.

Lemma same_versions_insert (f : fs) p x :
  p ∈ currentPath :: previousPath :: files -> same_versions f (<[p := x]> f).
Proof.
  intros Hp n _. rewrite lookup_insert_ne; [done|]. intros ->.
  revert Hp. unfold files. set_unfold. intros Hp. by repeat destruct Hp as [Hp|Hp]; destruct n.
Qed.

Lemma same_versions_delete (f : fs) p :
  p ∈ currentPath :: previousPath :: files -> same_versions f (delete p f).
Proof.
  intros Hp n _. rewrite lookup_delete_ne; [done|]. intros ->.
  revert Hp. unfold files. set_unfold. intros Hp. by repeat destruct Hp as [Hp|Hp]; destruct n.
Qed.

Lemma same_versions_equiv (f g : fs) : g ≡ f -> same_versions f g.
Proof. intros Hg n Hn. by apply Hg. Qed.

(** ** Up to scratch *)

Lemma prog_equiv p f g : g ≡ f -> prog p f -> prog p g.
Proof.
  intros Hg Hp. pose proof Hp as (Hl & Hd & _). apply (prog_same p f); try done.
  - by rewrite Hg.
  - by rewrite (is_dir_equiv _ _ _ Hg).
  - intros. by apply keeps_same, same_versions_equiv.
  - by apply Hg.
  - left. by apply Hg.
Qed.

Lemma stable_equiv f g : g ≡ f -> stable f -> stable g.
Proof.
  intros Hg Hs. apply (stable_same f); try done.
  - rewrite Hg. apply Hs.
  - intros. by apply keeps_same, same_versions_equiv.
  - by apply Hg.
  - by apply Hg.
  - by apply Hg.
Qed.

Lemma safe_equiv f g : g ≡ f -> safe f -> safe g.
Proof.
  intros Hg [Hs|[p Hp]]; [left; by eapply stable_equiv|right; exists p; by eapply prog_equiv].
Qed.

#[export] Instance stable_proper : Proper ((≡) ==> iff) stable.
Proof. intros f g Hfg. split; apply stable_equiv; [by symmetry|done]. Qed.
#[export] Instance prog_proper p : Proper ((≡) ==> iff) (prog p).
Proof. intros f g Hfg. split; apply prog_equiv; [by symmetry|done]. Qed.
#[export] Instance safe_proper : Proper ((≡) ==> iff) safe.
Proof. intros f g Hfg. split; apply safe_equiv; [by symmetry|done]. Qed.

(** ** The updates of the manager *)

Lemma file_plain f p : layout f -> p ∈ currentPath :: previousPath :: files -> plain_file f p.
Proof. apply layout_plain. Qed.

Lemma managed_file p : p ∈ files -> p ∈ currentPath :: previousPath :: files.
Proof. set_solver. Qed.

Definition owned : list string := currentPath :: previousPath :: files.

Lemma own_paths : [currentPath; previousPath; appliedPath; pendingPath; failedPath] ⊆ owned.
Proof. intros p. unfold owned, files. set_unfold. intuition. Qed.

Lemma own_current : currentPath ∈ owned.
Proof. apply own_paths. set_unfold. auto. Qed.
Lemma own_previous : previousPath ∈ owned.
Proof. apply own_paths. set_unfold. auto. Qed.
Lemma own_applied : appliedPath ∈ owned.
Proof. apply own_paths. set_unfold. auto. Qed.
Lemma own_pending : pendingPath ∈ owned.
Proof. apply own_paths. set_unfold. auto. Qed.
Lemma own_failed : failedPath ∈ owned.
Proof. apply own_paths. set_unfold. auto 10. Qed.

#[export] Hint Resolve own_current own_previous own_applied own_pending own_failed : go.

Ltac paths := first [exact own_current | exact own_previous | exact own_applied
                    | exact own_pending | exact own_failed | unfold files; set_solver].

Lemma is_dir_write f p x : layout f -> p ∈ currentPath :: previousPath :: files ->
  is_dir f directory = true -> is_dir (<[p := x]> f) directory = true.
Proof. intros Hl Hp Hd. apply is_dir_insert; [by apply layout_plain|done]. Qed.

Lemma is_dir_remove f p : layout f -> p ∈ currentPath :: previousPath :: files ->
  is_dir f directory = true -> is_dir (delete p f) directory = true.
Proof. intros Hl Hp Hd. apply is_dir_delete; [by apply layout_plain|done]. Qed.

Lemma prog_file p f q c m t :
  prog p f -> is_i64 t -> q ∈ [failedPath; candidatePath; validationPath] ->
  prog p (<[q := NFile c m t]> f).
Proof.
  intros Hp Ht Hq. pose proof Hp as (Hl & Hd & _).
  assert (q ∈ currentPath :: previousPath :: files) as Hin by (unfold files; set_solver).
  destruct (files_own q Hin) as (_ & Hq1 & Hq2).
  apply (prog_same p f); try done.
  - by apply layout_file.
  - by apply is_dir_write.
  - intros _. by apply keeps_same, same_versions_insert.
  - rewrite lookup_insert_ne; [done|]. intros ->. set_unfold in Hq. naive_solver.
  - left. rewrite lookup_insert_ne; [done|]. intros ->. set_unfold in Hq. naive_solver.
Qed.

Lemma stable_file f q c m t :
  stable f -> is_i64 t -> q ∈ [failedPath; candidatePath; validationPath] ->
  stable (<[q := NFile c m t]> f).
Proof.
  intros Hs Ht Hq. pose proof Hs as (Hl & _).
  assert (q ∈ currentPath :: previousPath :: files) as Hin by (unfold files; set_solver).
  destruct (files_own q Hin) as (_ & Hq1 & Hq2).
  apply (stable_same f); try done.
  - by apply layout_file.
  - intros a _. by apply keeps_same, same_versions_insert.
  - rewrite lookup_insert_ne; [done|]. intros ->. set_unfold in Hq. naive_solver.
  - rewrite lookup_insert_ne; [done|]. intros ->. set_unfold in Hq. naive_solver.
  - rewrite lookup_insert_ne; [done|]. intros ->. set_unfold in Hq. naive_solver.
Qed.

Lemma applied_write f a m t : applied_ok a ->
  applied_is (<[appliedPath := NFile (encode_applied a) m t]> f) a.
Proof.
  intros Ha. split; [|done]. exists (encode_applied a), m, t.
  rewrite lookup_insert_eq. split; [done|by apply parse_encode_applied].
Qed.

Lemma prog_applied p f a m t :
  prog p f -> applied_ok a -> is_i64 t ->
  prog p (<[appliedPath := NFile (encode_applied a) m t]> f).
Proof.
  intros Hp Ha Ht. pose proof Hp as (Hl & Hd & _). apply (prog_same p f); try done.
  - by apply layout_file.
  - apply is_dir_write; [done|paths|done].
  - intros _. apply keeps_same, same_versions_insert. paths.
  - by rewrite lookup_insert_ne.
  - right. right. exists a. by apply applied_write.
Qed.

Lemma prog_no_applied p f : prog p f -> prog p (delete appliedPath f).
Proof.
  intros Hp. pose proof Hp as (Hl & Hd & _). apply (prog_same p f); try done.
  - by apply layout_delete.
  - apply is_dir_remove; [done|paths|done].
  - intros _. apply keeps_same, same_versions_delete. paths.
  - by rewrite lookup_delete_ne.
  - right. left. apply lookup_delete_eq.
Qed.

Lemma prog_link p f q t :
  prog p f -> q = currentPath \/ q = previousPath -> text_ok t -> validateTarget t = Ok tt ->
  prog p (<[q := NLink t]> f).
Proof.
  intros Hp Hq Ht Hv. pose proof Hp as (Hl & Hd & _).
  assert (q ∈ currentPath :: previousPath :: files) as Hin by set_solver.
  destruct (files_own q Hin) as (_ & Hq1 & Hq2). apply (prog_same p f); try done.
  - apply layout_update; try done; [by intros [-> | ->]; destruct Hq|by intros t' _ [= ->]].
  - by apply is_dir_write.
  - intros _. by apply keeps_same, same_versions_insert.
  - by rewrite lookup_insert_ne by (by destruct Hq as [-> | ->]).
  - left. by rewrite lookup_insert_ne by (by destruct Hq as [-> | ->]).
Qed.

Lemma prog_no_current p f : prog p f -> prog p (delete currentPath f).
Proof.
  intros Hp. pose proof Hp as (Hl & Hd & _). apply (prog_same p f); try done.
  - by apply layout_delete.
  - apply is_dir_remove; [done|paths|done].
  - intros _. apply keeps_same, same_versions_delete. paths.
  - by rewrite lookup_delete_ne.
  - left. by rewrite lookup_delete_ne.
Qed.

(** Forgetting the intention, once the store is settled. *)
Lemma prog_done p f : prog p f -> settled f -> stable (delete pendingPath f).
Proof.
  intros (Hl & _) Hs. split_and!; [by apply layout_delete|apply lookup_delete_eq|].
  destruct Hs as [[H1 H2]|(a & [Ha Hok] & Hc & Hsd)]; [left|right; exists a].
  - by rewrite !lookup_delete_ne.
  - split_and!.
    + split; [|done]. by apply (holds_same _ _ f); [rewrite lookup_delete_ne|].
    + by rewrite lookup_delete_ne.
    + eapply sound_keep; [|done]. apply keeps_same, same_versions_delete. paths.
Qed.

Lemma stable_no_pending f : stable f -> stable (delete pendingPath f).
Proof. intros Hs. rewrite delete_id; [done|]. apply Hs. Qed.

Lemma stable_no_failed f : stable f -> stable (delete failedPath f).
Proof.
  intros Hs. pose proof Hs as (Hl & _). apply (stable_same f); try done.
  - by apply layout_delete.
  - intros a _. apply keeps_same, same_versions_delete. paths.
  - by rewrite lookup_delete_ne.
  - by rewrite lookup_delete_ne.
  - by rewrite lookup_delete_ne.
Qed.

(** Recording the intention. *)
Lemma stable_begin f p m t :
  stable f -> is_dir f directory = true -> pending_ok p -> rollback_ok f p -> is_i64 t ->
  prog p (<[pendingPath := NFile (encode_pending p) m t]> f).
Proof.
  intros (Hl & _ & Hs) Hd Hp Hr Ht. split_and!.
  - by apply layout_file.
  - apply is_dir_write; [done|paths|done].
  - split; [|done]. exists (encode_pending p), m, t. rewrite lookup_insert_eq.
    split; [done|by apply parse_encode_pending].
  - eapply rollback_keep; [|done]. intros _. apply keeps_same, same_versions_insert. paths.
  - destruct Hs as [[Ha _]|(a & [Ha Hok] & _)]; [left|right; exists a].
    + by rewrite lookup_insert_ne.
    + split; [|done]. by apply (holds_same _ _ f); [rewrite lookup_insert_ne|].
Qed.

(** Making the directories. *)
Lemma home_lookup p q f g : home p -> dir_step p f g -> q <> directory -> q <> versionsDirectory ->
  g !! q = f !! q.
Proof.
  intros Hp [->|(m & t & ->)] H1 H2; [done|]. rewrite lookup_insert_ne; [done|].
  by destruct Hp as [-> | ->].
Qed.

Lemma stable_mkdir p f g : stable f -> home p -> dir_step p f g -> stable g.
Proof.
  intros Hs Hp Hd. pose proof Hs as (Hl & _). apply (stable_same f); try done.
  - by eapply layout_mkdir.
  - intros a _. apply keeps_same. intros n _. eapply home_lookup; [done|done|by destruct n..].
  - by eapply home_lookup.
  - by eapply home_lookup.
  - by eapply home_lookup.
Qed.

Lemma is_dir_mkdir p f g d : dir_step p f g -> is_dir f d = true -> is_dir g d = true.
Proof.
  intros [->|(m & t & ->)] Hd; [done|]. unfold is_dir in *. rewrite orb_true_iff in *.
  destruct Hd as [?|Hd]; [by left|right]. rewrite lookup_insert. by case_decide.
Qed.

Lemma prog_mkdir p q f g : prog p f -> home q -> dir_step q f g -> prog p g.
Proof.
  intros Hs Hp Hd. pose proof Hs as (Hl & Hdd & _). apply (prog_same p f); try done.
  - by eapply layout_mkdir.
  - by eapply is_dir_mkdir.
  - intros _. apply keeps_same. intros n _. eapply home_lookup; [done|done|by destruct n..].
  - by eapply home_lookup.
  - left. by eapply home_lookup.
Qed.

(** Collecting old versions. *)
Lemma holds_applied f a : layout f -> applied_is f a -> s_applied f = Ok a.
Proof. intros [_ _ _ _ [Hn _] _] [Ha _]. by apply s_parsed_Ok. Qed.

Lemma holds_pending f p : layout f -> pending_is f p -> s_pending f = Ok p.
Proof. intros [_ _ _ _ [_ Hn] _] [Ha _]. by apply s_parsed_Ok. Qed.

Lemma collected_keep P f g t : pruned P f g -> t ∈ P -> keeps f g t.
Proof. intros Hp Ht m _. by eapply pruned_good. Qed.

Ltac not_version := intros n; by destruct n.

Lemma stable_collected f g : stable f -> collected f g -> stable g.
Proof.
  intros Hs (P & (H1 & H2 & H3 & H4) & Hp). pose proof Hs as (Hl & _). apply (stable_same f); try done.
  - by eapply layout_pruned.
  - intros a Ha. eapply collected_keep; [done|]. apply H3. by apply holds_applied.
  - eapply pruned_other; [done|not_version].
  - eapply pruned_other; [done|not_version].
  - eapply pruned_other; [done|not_version].
Qed.

Lemma prog_collected p f g : prog p f -> collected f g -> prog p g.
Proof.
  intros Hs (P & (H1 & H2 & H3 & H4) & Hp). pose proof Hs as (Hl & Hd & Hpd & _).
  apply (prog_same p f); try done.
  - by eapply layout_pruned.
  - by eapply pruned_is_dir.
  - intros Hne. eapply collected_keep; [done|]. by apply (H4 p); [apply holds_pending|].
  - eapply pruned_other; [done|not_version].
  - left. eapply pruned_other; [done|not_version].
Qed.
