(* ===== verification/XrayRecover.v ===== *)
(** * Rollback and recovery keep the invariant

    The process controller as an interface with its laws, then [rollback],
    [rollbackResult], [confirmApplied] and [Recover]: under any failures they end
    in a [safe] store, and without failures [Recover] ends in a [stable] one. *)

From stdpp Require Import base gmap strings list fin_maps sorting.
From Stdlib Require Import ZArith NArith Ascii.
From S2P Require Import Prelude.
From S2P Require Import GoStrings.
From S2P Require Import Sha256.
From S2P Require Import Os.
From S2P Require Import AtomicFile.
From S2P Require Import XrayConfig.
From S2P Require Import XrayTypes.
From S2P Require Import XrayRuntime.
From S2P Require Import XraySteps.
From S2P Require Import XrayPrune.
From S2P Require Import XrayInv.

(** ** The controller's contract *)

(** Later in time, with tree [g]. *)
Definition since (w : world) (g : fs) (w' : world) : Prop :=
  w_fs w' = g /\ (w_pc w <= w_pc w')%nat.

(** The process runs the configuration that the current link names. *)
Definition follows (f : fs) (r : option proc) : Prop :=
  forall t, f !! currentPath = Some (NLink t) -> exists b, r = Some (Proc t b).

Definition ctl_step (w w' : world) : Prop :=
  eq_off ctl_scratch (w_fs w') (w_fs w) /\ (w_pc w <= w_pc w')%nat.

(** The controller touches its own files only; after a successful restart Xray
    runs the current configuration, after a successful stop nothing runs. *)
Class ControllerLaws `{Env} `{Controller} : Prop := {
  restart_law w :
    match RestartAndWait w with
    | (w', Done (Ok _)) => ctl_step w w' /\ follows (w_fs w) (w_run w')
    | (w', Done (Err _)) => ctl_step w w'
    | (w', Crashed) => ctl_step w w' /\ ~ calm w
    end;
  stop_law w :
    match StopAndWait w with
    | (w', Done (Ok _)) => ctl_step w w' /\ w_run w' = None
    | (w', Done (Err _)) => ctl_step w w'
    | (w', Crashed) => ctl_step w w' /\ ~ calm w
    end;
  preflight_law c w : Preflight = Some c ->
    match c w with
    | (w', Done _) => ctl_step w w' /\ w_run w' = w_run w
    | (w', Crashed) => ctl_step w w' /\ ~ calm w
    end
}.

(** Nothing failing, Xray can be restarted and stopped. *)
Definition controller_live `{Env} `{Controller} : Prop :=
  forall w, calm w -> (exists w', RestartAndWait w = (w', Done (Ok tt))) /\
                     (exists w', StopAndWait w = (w', Done (Ok tt))).

Section rules.
Context `{Env} `{Controller} `{!ControllerLaws}.

Lemma since_refl w : since w (w_fs w) w.
Proof. done. Qed.

Lemma since_after w f w' : since w f w' -> after w' f w'.
Proof. intros [<- _]. apply after_refl. Qed.

Lemma after_since w0 f w g w' : since w0 f w -> after w g w' -> since w0 g w'.
Proof. intros [_ ?] (? & _ & ?). split; [done|lia]. Qed.

Lemma since_calm w0 f w : since w0 f w -> ~ calm w -> ~ calm w0.
Proof. intros [_ Hpc] Hn Hc. apply Hn. intros n Hle. apply Hc. lia. Qed.

Lemma calm_since w0 f w : since w0 f w -> calm w0 -> calm w.
Proof. intros [_ Hpc] Hc n Hn. apply Hc. lia. Qed.

Lemma since_step w0 f w w' : since w0 f w -> ctl_step w w' -> exists g, since w0 g w' /\ g ≡ f.
Proof.
  intros [Hf Hpc] [Hg Hpc']. exists (w_fs w'). split; [split; [done|lia]|].
  apply ctl_equiv. by rewrite Hf in Hg.
Qed.

Lemma wp_Restart w0 f (Q : result unit -> world -> Prop) C w :
  since w0 f w ->
  (forall g w', ~ calm w0 -> since w0 g w' -> g ≡ f -> C w') ->
  (forall e g w', ~ (calm w0 /\ controller_live) -> since w0 g w' -> g ≡ f -> Q (Err e) w') ->
  (forall g w', since w0 g w' -> g ≡ f -> follows f (w_run w') -> Q (Ok tt) w') ->
  wp RestartAndWait Q C w.
Proof.
  intros Hw HC HE HQ. unfold wp. pose proof (restart_law w) as Hl.
  destruct (RestartAndWait w) as [w' [[[]|e]|]] eqn:E.
  - destruct Hl as [Hl Hr]. destruct (since_step _ _ _ _ Hw Hl) as (g & Hg & Hgf).
    destruct Hw as [Hw _]. rewrite Hw in Hr. by eapply HQ.
  - destruct (since_step _ _ _ _ Hw Hl) as (g & Hg & Hgf). eapply HE; [|done|done].
    intros [Hc Hlive]. destruct (Hlive w) as [[w2 E2] _]; [by eapply calm_since|congruence].
  - destruct Hl as [Hl Hn]. destruct (since_step _ _ _ _ Hw Hl) as (g & Hg & Hgf).
    eapply HC; [|done|done]. exact (since_calm _ _ _ Hw Hn).
Qed.

Lemma wp_Stop w0 f (Q : result unit -> world -> Prop) C w :
  since w0 f w ->
  (forall g w', ~ calm w0 -> since w0 g w' -> g ≡ f -> C w') ->
  (forall e g w', ~ (calm w0 /\ controller_live) -> since w0 g w' -> g ≡ f -> Q (Err e) w') ->
  (forall g w', since w0 g w' -> g ≡ f -> w_run w' = None -> Q (Ok tt) w') ->
  wp StopAndWait Q C w.
Proof.
  intros Hw HC HE HQ. unfold wp. pose proof (stop_law w) as Hl.
  destruct (StopAndWait w) as [w' [[[]|e]|]] eqn:E.
  - destruct Hl as [Hl Hr]. destruct (since_step _ _ _ _ Hw Hl) as (g & Hg & Hgf). by eapply HQ.
  - destruct (since_step _ _ _ _ Hw Hl) as (g & Hg & Hgf). eapply HE; [|done|done].
    intros [Hc Hlive]. destruct (Hlive w) as [_ [w2 E2]]; [by eapply calm_since|congruence].
  - destruct Hl as [Hl Hn]. destruct (since_step _ _ _ _ Hw Hl) as (g & Hg & Hgf).
    eapply HC; [|done|done]. exact (since_calm _ _ _ Hw Hn).
Qed.

Lemma wp_Preflight c w0 f (Q : result unit -> world -> Prop) C w :
  Preflight = Some c -> since w0 f w ->
  (forall g w', ~ calm w0 -> since w0 g w' -> g ≡ f -> C w') ->
  (forall r g w', since w0 g w' -> g ≡ f -> Q r w') ->
  wp c Q C w.
Proof.
  intros Hp Hw HC HQ. unfold wp. pose proof (preflight_law c w Hp) as Hl.
  destruct (c w) as [w' [r|]].
  - destruct Hl as [Hl _]. destruct (since_step _ _ _ _ Hw Hl) as (g & Hg & Hgf). by eapply HQ.
  - destruct Hl as [Hl Hn]. destruct (since_step _ _ _ _ Hw Hl) as (g & Hg & Hgf).
    eapply HC; [|done|done]. exact (since_calm _ _ _ Hw Hn).
Qed.
End rules.

(** ** The version to fall back to *)

Lemma version_mtime f t m c k z :
  layout f -> configTargetMetadata t = Ok m ->
  f !! (directory +:+ "/" +:+ t) = Some (NFile c k z) -> is_i64 z.
Proof.
  intros Hl Hm Hf. pose proof (metadata_scratch t m Hm) as Hs.
  apply metadata_target, validateTarget_entry in Hm as (n & _ & ->).
  rewrite <- version_path_target in *. pose proof (lay_entries f Hl n Hs) as He. by rewrite Hf in He.
Qed.

Lemma unix_i64 z : is_i64 z -> is_i64 (if bool_decide (z / 1000000000 <= 0)%Z then 1 else z / 1000000000)%Z
  /\ (0 < if bool_decide (z / 1000000000 <= 0)%Z then 1 else z / 1000000000)%Z.
Proof.
  unfold is_i64. intros Hz. case_bool_decide; [lia|].
  assert (z / 1000000000 < 9223372036854775808)%Z by (apply Z.div_lt_upper_bound; lia). lia.
Qed.

Lemma fallback_state f t v d :
  layout f -> text_ok t -> configTargetMetadata t = Ok (v, d) -> good f t d ->
  exists a, s_stateFor t f = Ok a /\ a_target a = t /\ sound f a /\ applied_ok a.
Proof.
  intros Hl Ht Hm Hg. pose proof (metadata_target _ _ Hm) as Hv.
  pose proof (metadata_facts _ _ _ Hm) as (Hv0 & Hd & x & Hx).
  pose proof Hg as (c & z & Hf & _).
  pose proof (version_mtime _ _ _ _ _ _ Hl Hm Hf) as Hz. destruct (unix_i64 z Hz) as [Hz1 Hz2].
  unfold s_stateFor. rewrite Hm, (proj2 (s_verify_ok t d f)) by done.
  rewrite target_path, (fs_stat_node _ _ _ Hf) by done. simpl.
  eexists. split; [reflexivity|]. split; [done|].
  set (a := MkApplied v d t _).
  assert (validateAppliedState a = Ok tt) as Hval.
  { unfold validateAppliedState. simpl. rewrite Hd, Hx.
    rewrite (proj2 (N.eqb_neq v 0)) by lia. rewrite (bool_decide_false (_ <= 0)%Z) by lia. done. }
  split; [by split_and!|]. split_and!; [unfold is_u64; simpl; lia|done|done|done].
Qed.

Lemma rollback_state p f :
  prog p f -> p_prev p <> "" ->
  exists a, s_rollback p f = Ok a /\ a_target a = p_prev p /\ sound f a /\ applied_ok a /\
    forall a0, p_prev_applied p = Some a0 -> a = a0.
Proof.
  intros (Hl & _ & [_ Hok] & Hr & _) Hne.
  destruct Hok as (_ & _ & _ & Htp & _ & Hpa).
  destruct Hr as [?|[(v & d & Hm & Hg) Ha]]; [done|].
  unfold s_rollback. destruct (p_prev_applied p) as [a|].
  - destruct (Ha a eq_refl) as [Et Hs]. exists a. rewrite Et, bool_decide_true by done. simpl.
    rewrite (proj2 (s_verifyTarget_ok a f)) by done. split_and!; try done; try apply Hpa. by intros a0 [= ->].
  - destruct (fallback_state f (p_prev p) v d) as (a & ? & ? & ? & ?); try done. by exists a.
Qed.

(** ** The rules, from any later world *)

Section since_rules.
Context `{Env}.

(** From [w] to [w'] with tree [g], the process untouched. *)
Definition onward (w0 : world) (w : world) (g : fs) (w' : world) : Prop :=
  since w0 g w' /\ w_run w' = w_run w.

Lemma onward_after w0 f w g w' : since w0 f w -> after w g w' -> onward w0 w g w'.
Proof. intros Hw Ha. split; [by eapply after_since|apply Ha]. Qed.

Lemma s_reads {A} (m : io (result A)) s w0 f (Q : result A -> world -> Prop) C w :
  reads m s -> since w0 f w ->
  (forall w', ~ calm w0 -> onward w0 w f w' ->
     C w' /\ forall e, errorsIs e SNotExist = false -> Q (Err e) w') ->
  (forall w', onward w0 w f w' -> Q (s f) w') ->
  wp m Q C w.
Proof.
  intros Hm Hw HX HQ. apply (Hm w f); [by eapply since_after|..].
  - intros w' Hc Hw'. apply HX; [exact (since_calm _ _ _ Hw Hc)|by eapply onward_after].
  - intros w' Hw'. apply HQ. by eapply onward_after.
Qed.

Lemma s_Now w0 f (Q : Z -> world -> Prop) C w :
  since w0 f w ->
  (forall n w', onward w0 w f w' -> Q (time_at n) w') -> wp Now Q C w.
Proof.
  intros Hw HQ. apply (wp_Now w f); [by eapply since_after|].
  intros w' Hw'. apply HQ. by eapply onward_after.
Qed.

Lemma s_write d n content mode w0 f (Q : result unit -> world -> Prop) C w :
  let path := d +:+ "/" +:+ n in
  since w0 f w -> home d -> is_dir f d = true -> no_char slash n ->
  plain_file f path -> scratch path = false ->
  (forall g w', ~ calm w0 -> onward w0 w g w' ->
     (g ≡ f \/ exists t, g ≡ <[path := NFile content mode (time_at t)]> f) ->
     C w' /\ forall e, Q (Err e) w') ->
  (forall g t w', onward w0 w g w' -> g ≡ <[path := NFile content mode (time_at t)]> f -> Q (Ok tt) w') ->
  wp (writeAtomic path content mode) Q C w.
Proof.
  intros path Hw Hh Hd Hn Hp Hs HX HQ.
  apply (wp_writeAtomic d n content mode w f); try done; [by eapply since_after|..].
  - intros g w' Hc Hg Hcase. apply (HX g); [exact (since_calm _ _ _ Hw Hc)|by eapply onward_after|done].
  - intros g t w' Hg Hgf. eapply HQ; [by eapply onward_after|done].
Qed.

Lemma s_remove n w0 f (Q : result unit -> world -> Prop) C w :
  let path := directory +:+ "/" +:+ n in
  since w0 f w -> is_dir f directory = true -> no_char slash n -> plain_file f path ->
  (forall g w', ~ calm w0 -> onward w0 w g w' -> (g ≡ f \/ g ≡ delete path f) ->
     C w' /\ forall e, Q (Err e) w') ->
  (forall w', onward w0 w (delete path f) w' -> Q (Ok tt) w') ->
  wp (removeAndSync path) Q C w.
Proof.
  intros path Hw Hd Hn Hp HX HQ.
  apply (wp_removeAndSync n w f); try done; [by eapply since_after|..].
  - intros g w' Hc Hg Hcase. apply (HX g); [exact (since_calm _ _ _ Hw Hc)|by eapply onward_after|done].
  - intros w' Hw'. apply HQ. by eapply onward_after.
Qed.

Lemma link_fresh_since w0 f w p g : since w0 f w -> link_fresh w0 p g -> link_fresh w p g.
Proof. intros [_ Hpc] Hl n Hn. apply Hl. lia. Qed.

Lemma s_symlink target path w0 f (Q : result unit -> world -> Prop) C w :
  since w0 f w -> validateTarget target = Ok tt ->
  path = currentPath \/ path = previousPath ->
  is_dir f directory = true -> plain_file f path ->
  (forall g w', ~ calm w0 -> onward w0 w g w' -> (g ≡ f \/ g ≡ <[path := NLink target]> f) -> C w') ->
  (forall e g w', ~ (calm w0 /\ link_fresh w0 path f) -> onward w0 w g w' -> g ≡ f -> Q (Err e) w') ->
  (forall g w', onward w0 w g w' -> g ≡ <[path := NLink target]> f -> Q (Ok tt) w') ->
  wp (atomicSymlink target path) Q C w.
Proof.
  intros Hw Ht Hpath Hd Hp HC HE HQ.
  apply (wp_atomicSymlink _ _ w f); try done; [by eapply since_after|..].
  - intros g w' Hc Hg Hcase. apply (HC g); [exact (since_calm _ _ _ Hw Hc)|by eapply onward_after|done].
  - intros e g w' Hc Hg Hgf. apply (HE e g); [|by eapply onward_after|done].
    intros [Hc0 Hf]. apply Hc. split; [by eapply calm_since|by eapply link_fresh_since].
  - intros g w' Hg Hgf. eapply HQ; [by eapply onward_after|done].
Qed.

Lemma s_syncDirectory p w0 f (Q : result unit -> world -> Prop) C w :
  since w0 f w -> is_dir f p = true ->
  (forall w', ~ calm w0 -> onward w0 w f w' -> C w' /\ forall e, Q (Err e) w') ->
  (forall w', onward w0 w f w' -> Q (Ok tt) w') ->
  wp (syncDirectory p) Q C w.
Proof.
  intros Hw Hd HX HQ. apply (wp_syncDirectory _ w f); [by eapply since_after|..].
  - intros w' Hc Hw'. apply HX; [exact (since_calm _ _ _ Hw Hc)|by eapply onward_after].
  - intros [[]|e] w' Hw' Hr; [apply HQ; by eapply onward_after|].
    apply HX; [|by eapply onward_after]. intros Hc. by specialize (Hr (calm_since _ _ _ Hw Hc) Hd).
Qed.
End since_rules.

Lemma onward_since w0 w g w' : onward w0 w g w' -> since w0 g w'.
Proof. by intros [? _]. Qed.
#[export] Hint Resolve onward_since : go.

Section rollback.
Context `{Env} `{Controller} `{!ControllerLaws} `{!ClockOk}.

Lemma prog_dir p f : prog p f -> is_dir f directory = true.
Proof. intros (_ & ? & _). done. Qed.
Lemma prog_layout p f : prog p f -> layout f.
Proof. intros (? & _). done. Qed.
Lemma prog_plain p f q : prog p f -> q ∈ currentPath :: previousPath :: files -> plain_file f q.
Proof. intros Hp. apply layout_plain. by eapply prog_layout. Qed.

Lemma prog_delete_or p f g q :
  prog p f -> q = currentPath \/ q = appliedPath -> g ≡ f \/ g ≡ delete q f -> prog p g.
Proof.
  intros Hp Hq [->| ->]; [done|].
  destruct Hq as [-> | ->]; [by apply prog_no_current|by apply prog_no_applied].
Qed.

Lemma wp_rollbackInitial p w0 f (Q : result unit -> world -> Prop) C w :
  since w0 f w -> prog p f ->
  (forall g w', ~ calm w0 -> since w0 g w' -> prog p g -> C w') ->
  (forall e g w', ~ (calm w0 /\ controller_live) -> since w0 g w' -> prog p g -> Q (Err e) w') ->
  (forall g w', since w0 g w' -> prog p g -> g !! appliedPath = None -> g !! currentPath = None ->
     w_run w' = None -> Q (Ok tt) w') ->
  wp rollbackInitial Q C w.
Proof.
  intros Hw Hp HC HE HQ. unfold rollbackInitial.
  apply wp_try, (s_remove "current.json" w0 f); try done;
    [by eapply prog_dir|apply (prog_plain p f currentPath); [done|paths]|..].
  { intros g w' Hc [Hg _] Hcase. assert (prog p g) by (apply (prog_delete_or p f g currentPath); auto).
    split; [by eapply HC|]. intros e. apply wp_ret. eapply HE; [|done|done]. by intros [? _]. }
  intros w1 [Hw1 _]. set (f1 := delete _ f) in *.
  assert (prog p f1) as Hp1 by by apply prog_no_current.
  apply wp_try, (s_remove "applied.json" w0 f1); try done;
    [by eapply prog_dir|apply (prog_plain p f1 appliedPath); [done|paths]|..].
  { intros g w' Hc [Hg _] Hcase. assert (prog p g) by (apply (prog_delete_or p f1 g appliedPath); auto).
    split; [by eapply HC|]. intros e. apply wp_ret. eapply HE; [|done|done]. by intros [? _]. }
  intros w2 [Hw2 _]. set (f2 := delete _ f1) in *.
  assert (prog p f2) as Hp2 by by apply prog_no_applied.
  apply (wp_Stop w0 f2); [done|..].
  - intros g w' Hc Hg Hgf. eapply HC; [done|done|by rewrite Hgf].
  - intros e g w' Hc Hg Hgf. eapply HE; [done|done|by rewrite Hgf].
  - intros g w' Hg Hgf Hr. eapply HQ; [done|by rewrite Hgf|..|done].
    + rewrite (Hgf appliedPath eq_refl). apply lookup_delete_eq.
    + rewrite (Hgf currentPath eq_refl). unfold f2, f1. rewrite lookup_delete_ne by done.
      apply lookup_delete_eq.
Qed.

Definition runs (a : AppliedState) (w : world) : Prop :=
  exists b, w_run w = Some (Proc (a_target a) b).

Lemma consistent_equiv f g a : g ≡ f -> consistent f a -> consistent g a.
Proof.
  intros Hg ([Ha Hok] & Hc & Hs). split_and!.
  - split; [|done]. eapply holds_same; [|done]. by apply Hg.
  - by rewrite (Hg currentPath eq_refl).
  - eapply sound_keep; [|done]. by apply keeps_same, same_versions_equiv.
Qed.

Lemma wp_rollbackPrevious p w0 f (Q : result unit -> world -> Prop) C w :
  since w0 f w -> prog p f -> p_prev p <> "" ->
  (forall g w', ~ calm w0 -> since w0 g w' -> prog p g -> C w') ->
  (forall e g w', ~ (calm w0 /\ controller_live /\ link_fresh w0 currentPath f) ->
     since w0 g w' -> prog p g -> Q (Err e) w') ->
  (forall a g w', since w0 g w' -> prog p g -> consistent g a -> a_target a = p_prev p ->
     (forall a0, p_prev_applied p = Some a0 -> a = a0) -> runs a w' -> Q (Ok tt) w') ->
  wp (rollbackPrevious p) Q C w.
Proof.
  intros Hw Hp Hne HC HE HQ. unfold rollbackPrevious.
  destruct (rollback_state p f Hp Hne) as (a & Ea & Eat & Hsd & Haok & Heq).
  assert (validateTarget (p_prev p) = Ok tt) as Hvt.
  { rewrite <- Eat. destruct Hsd as (_ & Hm & _). by eapply metadata_target. }
  pose proof Hp as (_ & _ & [_ (_ & _ & _ & Htext & _)] & _).
  apply wp_try, (s_reads _ _ w0 f _ _ _ (reads_rollback p) Hw).
  { intros w' Hc [Hw' _]. split; [by eapply HC|]. intros e _. apply wp_ret.
    eapply HE; [|done|done]. naive_solver. }
  intros w1 [Hw1 _]. rewrite Ea.
  apply wp_try, (s_symlink _ _ w0 f); try done; [by left|by eapply prog_dir|by eapply prog_plain; [|paths]|..].
  { intros g w' Hc [Hg _] Hcase. eapply HC; [done|done|].
    destruct Hcase as [->| ->]; [done|apply prog_link; auto]. }
  { intros e g w' Hc [Hg _] Hgf. apply wp_ret. eapply HE; [naive_solver|done|by rewrite Hgf]. }
  intros f1 w2 [Hw2 _] Hf1.
  assert (prog p f1) as Hp1 by (rewrite Hf1; apply prog_link; auto).
  apply wp_try. unfold persistState.
  apply (s_write directory "applied.json" _ _ w0 f1); try done;
    [by left|by eapply prog_dir|by apply (prog_plain p f1 appliedPath); [|paths]|..].
  { intros g w' Hc [Hg _] Hcase.
    assert (prog p g) as Hpg.
    { destruct Hcase as [->|[t ->]]; [done|]. apply prog_applied; [done|done|apply clock_i64]. }
    split; [by eapply HC|]. intros e. apply wp_ret. eapply HE; [naive_solver|done|done]. }
  intros f2 t w3 [Hw3 _] Hf2.
  assert (prog p f2) as Hp2.
  { rewrite Hf2. apply prog_applied; [done|done|apply clock_i64]. }
  assert (consistent f2 a) as Hcons.
  { eapply consistent_equiv; [exact Hf2|]. split; [by apply applied_write|]. split.
    - rewrite lookup_insert_ne by done. rewrite (Hf1 currentPath eq_refl), Eat.
      apply lookup_insert_eq.
    - eapply sound_keep; [|exact Hsd]. apply keeps_same. intros n Hn.
      rewrite lookup_insert_ne by (by destruct n). rewrite (Hf1 _ Hn).
      rewrite lookup_insert_ne; [done|by destruct n]. }
  apply wp_try, (s_syncDirectory _ w0 f2); [done|by eapply prog_dir|..].
  { intros w' Hc [Hw' _]. split; [by eapply HC|]. intros e. apply wp_ret.
    eapply HE; [naive_solver|done|done]. }
  intros w4 [Hw4 _]. apply (wp_Restart w0 f2); [done|..].
  - intros g w' Hc Hg Hgf. eapply HC; [done|done|by rewrite Hgf].
  - intros e g w' Hc Hg Hgf. eapply HE; [naive_solver|done|by rewrite Hgf].
  - intros g w' Hg Hgf Hr. eapply (HQ a g); [done|by rewrite Hgf|by eapply consistent_equiv|done|done|].
    apply Hr. apply Hcons.
Qed.

(** ** The whole rollback *)

(** Where a rollback leads: nothing applied and nothing running, or the
    previous version applied and running, with the state on record for it. *)
Definition restored (p : pendingState) (g : fs) (w : world) : Prop :=
  (p_prev p = "" /\ g !! appliedPath = None /\ g !! currentPath = None /\ w_run w = None) \/
  (p_prev p <> "" /\ exists a, consistent g a /\ a_target a = p_prev p /\
     (forall a0, p_prev_applied p = Some a0 -> a = a0) /\ runs a w).

Lemma restored_settled p g w : restored p g w -> settled g.
Proof. intros [(_ & ? & ? & _)|(_ & a & ? & _)]; [by left|right; by exists a]. Qed.

Lemma wp_restore p w0 f (Q : result unit -> world -> Prop) C w :
  since w0 f w -> prog p f ->
  (forall g w', ~ calm w0 -> since w0 g w' -> prog p g -> C w') ->
  (forall e g w', ~ (calm w0 /\ controller_live /\ link_fresh w0 currentPath f) ->
     since w0 g w' -> prog p g -> Q (Err e) w') ->
  (forall g w', since w0 g w' -> prog p g -> restored p g w' -> Q (Ok tt) w') ->
  wp (if bool_decide (p_prev p = "") then rollbackInitial else rollbackPrevious p) Q C w.
Proof.
  intros Hw Hp HC HE HQ. case_bool_decide as E.
  - apply (wp_rollbackInitial p w0 f); [done|done|done|..].
    + intros e g w' Hc. apply HE. naive_solver.
    + intros g w' Hg Hpg Ha Hcur Hr. eapply HQ; [done|done|by left].
  - apply (wp_rollbackPrevious p w0 f); [done|done|done|done|done|].
    intros a g w' Hg Hpg Hca Hat Heq Hr. eapply HQ; [done|done|right]. split; [done|by exists a].
Qed.

(** Writing or removing a file of its own keeps what was restored. *)
Lemma restored_other p f g w w' q :
  restored p f w -> w_run w' = w_run w -> q ∈ [failedPath; pendingPath] ->
  (forall r, scratch r = false -> r <> q -> g !! r = f !! r) ->
  restored p g w'.
Proof.
  intros Hr Ew Hq Hg.
  assert (appliedPath <> q /\ currentPath <> q) as [Ne1 Ne2] by (set_unfold in Hq; naive_solver).
  assert (forall n, version_path n <> q) as Ne3 by (intros n; set_unfold in Hq; by destruct Hq as [-> |[-> |[]]]; destruct n).
  destruct Hr as [(E & Ha & Hc & Hn)|(E & a & ([Ha Haok] & Hc & Hs) & Et & Heq & b & Hn)].
  - left. split_and!; [done|by rewrite Hg|by rewrite Hg|congruence].
  - right. split; [done|]. exists a. split_and!; [|done|done|exists b; congruence].
    split_and!.
    + split; [|done]. eapply holds_same; [|done]. by apply Hg.
    + by rewrite Hg.
    + eapply sound_keep; [|done]. apply keeps_same. intros n Hn'. by apply Hg.
Qed.

Lemma safe_file f q c m t :
  safe f -> is_i64 t -> q ∈ [failedPath; candidatePath; validationPath] -> safe (<[q := NFile c m t]> f).
Proof.
  intros [Hs|[p Hp]] Ht Hq; [left; by apply stable_file|right; exists p; by apply prog_file].
Qed.

Lemma safe_layout f : safe f -> layout f.
Proof. intros [[? _]|[p [? _]]]; done. Qed.

Lemma prog_safe p f : prog p f -> safe f.
Proof. intros. right. by exists p. Qed.

Lemma stable_safe f : stable f -> safe f.
Proof. by left. Qed.

Definition failure_recorded (p : pendingState) (failure code : string) (g : fs) : Prop :=
  exists t, g !! failedPath = Some (NFile
    (encode_result (failed_result p (cleanError failure) code RecoveryStatusRolledBack true))
    configFileMode t).

Lemma wp_rollback p failure code w0 f (Q : result unit -> world -> Prop) C w :
  since w0 f w -> prog p f ->
  (forall g w', ~ calm w0 -> since w0 g w' -> safe g -> C w') ->
  (forall e g w', ~ (calm w0 /\ controller_live /\ link_fresh w0 currentPath f) ->
     since w0 g w' -> safe g -> is_dir g directory = true -> Q (Err e) w') ->
  (forall g w', since w0 g w' -> stable g -> restored p g w' -> failure_recorded p failure code g ->
     Q (Ok tt) w') ->
  wp (rollback p failure code) Q C w.
Proof.
  intros Hw Hp HC HE HQ. unfold rollback.
  apply wp_try, (wp_restore p w0 f); [done|done|..].
  { intros g w' Hc Hg Hpg. eapply HC; [done|done|by eapply prog_safe]. }
  { intros e g w' Hc Hg Hpg. eapply wp_ret, HE; [done|done|by eapply prog_safe|by eapply prog_dir]. }
  intros f1 w1 Hw1 Hp1 Hr1. apply wp_try. unfold persistState.
  apply (s_write directory "apply-failed.json" _ _ w0 f1); try done;
    [by left|by eapply prog_dir|by apply (prog_plain p f1 failedPath); [|paths]|..].
  { intros g w' Hc [Hg _] Hcase.
    assert (prog p g) as Hpg.
    { destruct Hcase as [->|[t ->]]; [done|]. apply prog_file; [done|apply clock_i64|set_solver]. }
    split; [eapply HC; [done|done|by eapply prog_safe]|]. intros e. apply wp_ret.
    eapply HE; [naive_solver|done|by eapply prog_safe|by eapply prog_dir]. }
  intros f2 t w2 [Hw2 Er2] Hf2.
  assert (prog p f2) as Hp2 by (rewrite Hf2; apply prog_file; [done|apply clock_i64|set_solver]).
  assert (restored p f2 w2) as Hr2.
  { eapply (restored_other p f1 f2 w1 w2 failedPath); [done|done|set_solver|].
    intros r Hr Hne. rewrite (Hf2 r Hr). by apply lookup_insert_ne. }
  assert (failure_recorded p failure code f2) as Hrec.
  { exists (time_at t). rewrite (Hf2 failedPath eq_refl). apply lookup_insert_eq. }
  pose proof (prog_done p f2 Hp2 (restored_settled _ _ _ Hr2)) as Hs3.
  apply (s_remove "apply-pending.json" w0 f2); try done;
    [by eapply prog_dir|by apply (prog_plain p f2 pendingPath); [|paths]|..].
  { intros g w' Hc [Hg _] Hcase.
    assert (safe g /\ is_dir g directory = true) as [Hsg Hdg].
    { destruct Hcase as [Hgf|Hgf].
      - split; [rewrite Hgf; by eapply prog_safe|]. rewrite (is_dir_equiv _ _ _ Hgf) by done. by eapply prog_dir.
      - split; [rewrite Hgf; by apply stable_safe|]. rewrite (is_dir_equiv _ _ _ Hgf) by done.
        apply is_dir_remove; [by eapply prog_layout|paths|by eapply prog_dir]. }
    split; [by eapply HC|]. intros e. eapply HE; [naive_solver|done|done|done]. }
  intros w3 [Hw3 Er3]. eapply HQ; [done|done|..].
  - eapply (restored_other p f2 _ w2 w3 pendingPath); [done|done|set_solver|].
    intros r Hr Hne. by apply lookup_delete_ne.
  - destruct Hrec as [z Hz]. exists z. by rewrite lookup_delete_ne.
Qed.

Lemma wp_rollbackResult p failure code w0 f (Q : result Result -> world -> Prop) C w :
  since w0 f w -> prog p f ->
  (forall g w', ~ calm w0 -> since w0 g w' -> safe g -> C w') ->
  (forall e g w', ~ (calm w0 /\ controller_live /\ link_fresh w0 currentPath f) ->
     since w0 g w' -> safe g -> ErrorDetails e = (ErrorCodeRecoveryFailed, RecoveryStatusFailed) ->
     Q (Err e) w') ->
  (forall g w', since w0 g w' -> stable g -> restored p g w' -> failure_recorded p failure code g ->
     Q (Ok (failed_result p failure code RecoveryStatusRolledBack true)) w') ->
  wp (rollbackResult p failure code) Q C w.
Proof.
  intros Hw Hp HC HE HQ. apply wp_bind, (wp_rollback p failure code w0 f); [done|done|done| |].
  2:{ intros g w' Hg Hs Hr Hrec. by eapply wp_ret, HQ. }
  intros e g w1 Hn Hg Hs Hd. apply wp_bind. unfold persistState.
  apply (s_write directory "apply-failed.json" _ _ w0 g); try done;
    [by left|by apply (layout_plain g failedPath); [apply safe_layout|paths]|..].
  - intros g' w' Hc [Hg' _] Hcase.
    assert (safe g') as Hs'.
    { destruct Hcase as [->|[t ->]]; [done|]. apply safe_file; [done|apply clock_i64|set_solver]. }
    split; [by eapply HC|]. intros e'. by eapply wp_ret, HE.
  - intros g' t w' [Hg' _] Hgf. eapply wp_ret, HE; [done|done| |done].
    rewrite Hgf. apply safe_file; [done|apply clock_i64|set_solver].
Qed.

(** ** Confirming an applied state *)

Lemma removed_safe f g q :
  stable f -> q = pendingPath \/ q = failedPath -> g ≡ f \/ g ≡ delete q f -> stable g.
Proof.
  intros Hs Hq [->| ->]; [done|]. destruct Hq as [-> | ->];
    [by apply stable_no_pending|by apply stable_no_failed].
Qed.

(** The state is settled on [a]. *)
Definition settled_on (a : AppliedState) (g : fs) : Prop := stable g /\ consistent g a.

Lemma consistent_delete f a q : q ∈ [pendingPath; failedPath] -> consistent f a -> consistent (delete q f) a.
Proof.
  intros Hq ([Ha Hok] & Hc & Hs).
  assert (q <> appliedPath /\ q <> currentPath) as [Ne1 Ne2] by (set_unfold in Hq; naive_solver).
  split_and!.
  - split; [|done]. eapply holds_same; [|done]. by rewrite lookup_delete_ne.
  - by rewrite lookup_delete_ne.
  - eapply sound_keep; [|done]. apply keeps_same, same_versions_delete.
    set_unfold in Hq. destruct Hq as [-> |[-> |[]]]; paths.
Qed.

Lemma wp_removeFailed a w0 f (Q : result unit -> world -> Prop) C w :
  since w0 f w -> settled_on a f -> is_dir f directory = true ->
  (forall g w', ~ calm w0 -> onward w0 w g w' -> settled_on a g -> C w' /\ forall e, Q (Err e) w') ->
  (forall g w', onward w0 w g w' -> settled_on a g -> Q (Ok tt) w') ->
  wp (removeAndSync failedPath) Q C w.
Proof.
  intros Hw [Hs Hc] Hd HX HQ.
  assert (settled_on a (delete failedPath f)) as Hdel.
  { split; [by apply stable_no_failed|]. apply consistent_delete; [set_solver|done]. }
  apply (s_remove "apply-failed.json" w0 f); try done.
  - apply (layout_plain f failedPath); [apply Hs|paths].
  - intros g w' Hn Hg Hcase. apply (HX g); [done|done|].
    destruct Hcase as [Hgf|Hgf]; (split; [rewrite Hgf; done || apply Hdel|]);
      (eapply consistent_equiv; [exact Hgf|]); [done|apply Hdel].
  - intros w' Hw'. by eapply HQ.
Qed.

Definition matches (p : pendingState) (a : AppliedState) : Prop :=
  p_target p = a_target a /\ p_version p = a_version a /\ p_digest p = a_digest a.

Definition confirmable (a : AppliedState) (f : fs) : Prop :=
  stable f \/ exists p, prog p f /\ matches p a.

Lemma wp_confirmApplied a w0 f (Q : result unit -> world -> Prop) C w :
  since w0 f w -> is_dir f directory = true -> consistent f a -> confirmable a f ->
  (forall g w', ~ calm w0 -> onward w0 w g w' -> safe g -> C w' /\ forall e, Q (Err e) w') ->
  (forall g w', onward w0 w g w' -> settled_on a g -> Q (Ok tt) w') ->
  wp (confirmApplied a) Q C w.
Proof.
  intros Hw Hd Hcons Hconf HX HQ.
  assert (safe f) as Hsf by (destruct Hconf as [?|[p [? _]]]; [by left|right; by exists p]).
  unfold confirmApplied. apply wp_bind, (s_reads _ _ w0 f _ _ _ reads_loadPending Hw).
  { intros w' Hc Hw'. split; [by eapply HX|]. intros e He. rewrite He. by eapply wp_ret, HX. }
  intros w1 [Hw1 Er1].
  assert (forall g w2, since w0 g w2 -> w_run w2 = w_run w -> settled_on a g -> is_dir g directory = true ->
    wp (removeAndSync failedPath) Q C w2) as Hfin.
  { intros g w2 Hw2 Er2 Hs Hdg. apply (wp_removeFailed a w0 g); [done|done|done|..].
    - intros g' w' Hc [Hg' Er'] [Hs' _]. eapply HX; [done|split; [done|congruence]|by left].
    - intros g' w' [Hg' Er'] Hs'. eapply HQ; [split; [done|congruence]|done]. }
  destruct Hconf as [Hs|(p & Hp & Ht & Hv & Hdg)].
  - unfold s_pending. rewrite (s_parsed_None _ _ f) by apply Hs. simpl. by apply (Hfin f w1).
  - rewrite (holds_pending f p) by (by eapply prog_layout || apply Hp).
    rewrite Ht, Hv, Hdg, !bool_decide_true by done. simpl.
    assert (settled_on a (delete pendingPath f)) as Hdel.
    { split; [apply (prog_done p); [done|right; by exists a]|].
      apply consistent_delete; [set_solver|done]. }
    apply wp_try, (s_remove "apply-pending.json" w0 f); try done.
    + by apply (prog_plain p f pendingPath); [|paths].
    + intros g w' Hc [Hg Er'] Hcase.
      assert (safe g) as Hsg.
      { destruct Hcase as [->| ->]; [done|left; apply Hdel]. }
      assert (onward w0 w g w') by (split; [done|congruence]).
      split; [by eapply HX|]. intros e. apply wp_ret. by eapply HX.
    + intros w2 [Hw2 Er2]. apply (Hfin (delete pendingPath f)); [done|congruence|done|].
      apply is_dir_remove; [by eapply prog_layout|paths|done].
Qed.

(** ** Recover *)

(** What recovery makes of the store [f]. *)
Definition recovered (f g : fs) (w : world) : Prop :=
  match s_pending f with
  | Ok p => (exists a, settled_on a g /\ matches p a) \/
            (restored p g w /\
             failure_recorded p "unconfirmed Xray config was rolled back after agent restart"
               ErrorCodePreparationFailed g)
  | Err _ => g = f
  end.

Lemma tracked_applied f : layout f -> tracked f ->
  match s_applied f with
  | Ok a => applied_is f a
  | Err e => errorsIs e SNotExist = true
  end.
Proof.
  intros Hl [Ha|[a Ha]].
  - unfold s_applied. by rewrite (s_parsed_None _ _ f).
  - by rewrite (holds_applied f a).
Qed.

Lemma wp_Recover m w0 f (Q : result unit -> world -> Prop) C w :
  since w0 f w -> Enabled m = true -> safe f ->
  (forall g w', ~ calm w0 -> since w0 g w' -> safe g -> C w') ->
  (forall e g w', ~ (calm w0 /\ controller_live /\ link_fresh w0 currentPath f) ->
     since w0 g w' -> safe g -> Q (Err e) w') ->
  (forall g w', since w0 g w' -> stable g -> recovered f g w' -> Q (Ok tt) w') ->
  wp (Recover m) Q C w.
Proof.
  intros Hw Hen Hsafe HC HE HQ. unfold Recover. rewrite Hen. cbn [negb].
  apply wp_bind, (s_reads _ _ w0 f _ _ _ reads_loadPending Hw).
  { intros w' Hc [Hw' _]. split; [by eapply HC|]. intros e He. rewrite He.
    eapply wp_ret, HE; [naive_solver|done|done]. }
  intros w1 [Hw1 _]. destruct Hsafe as [Hs|[p Hp]].
  { unfold recovered in HQ. unfold s_pending in *. rewrite (s_parsed_None _ _ f) in * by apply Hs.
    simpl. by eapply wp_ret, HQ. }
  unfold recovered in HQ. rewrite (holds_pending f p) in * by (by eapply prog_layout || apply Hp).
  set (undo := bind (rollbackResult p _ _) _).
  assert (forall w2, since w0 f w2 -> wp undo Q C w2) as Hundo.
  { intros w2 Hw2. apply wp_bind, (wp_rollbackResult p _ _ w0 f); [done|done|done|..].
    - intros e g w' Hn Hg Hs _. by eapply wp_ret, HE.
    - intros g w' Hg Hs Hr Hrec. eapply wp_ret, HQ; [done|done|by right]. }
  clearbody undo.
  apply wp_bind, (s_reads _ _ w0 f _ _ _ reads_loadApplied Hw1).
  { intros w' Hc [Hw' _]. split; [eapply HC; [done|done|by eapply prog_safe]|]. intros e He. rewrite He.
    eapply wp_ret, HE; [naive_solver|done|by eapply prog_safe]. }
  intros w2 [Hw2 _].
  pose proof (tracked_applied f (prog_layout _ _ Hp)) as Ht.
  destruct (s_applied f) as [a|e]; [|rewrite Ht; [by apply Hundo|apply Hp]].
  destruct (bool_decide (a_target a = p_target p) && (a_version a =? p_version p)%N
            && bool_decide (a_digest a = p_digest p)) eqn:Em; [|by apply Hundo].
  rewrite !andb_true_iff, N.eqb_eq, !bool_decide_eq_true in Em.
  apply wp_bind, (s_reads _ _ w0 f _ _ _ (reads_verifyApplied a) Hw2).
  { intros w' Hc [Hw' _]. split; [eapply HC; [done|done|by eapply prog_safe]|]. intros e _. by apply Hundo. }
  intros w3 [Hw3 _]. destruct (s_verifyApplied a f) as [[]|e] eqn:Ev; [|by apply Hundo].
  apply s_verifyApplied_ok in Ev as [Hcur Hsd].
  apply (wp_confirmApplied a w0 f); [done|by eapply prog_dir| | |..].
  - split; [apply Ht, Hp|done].
  - right. exists p. split; [done|]. unfold matches. naive_solver.
  - intros g w' Hc [Hg _] Hs. split; [by eapply HC|]. intros e. eapply HE; [naive_solver|done|done].
  - intros g w' [Hg _] Hs. eapply HQ; [done|apply Hs|left]. exists a. split; [done|].
    unfold matches. naive_solver.
Qed.
End rollback.
