(* ===== verification/XrayApply.v ===== *)
(** * Apply keeps the invariant

    The phases of [Apply]: admission, readiness, installation of the version,
    activation.  Under any failures each ends in a [safe] store; what a
    successful or a rolled back apply leaves behind is stated exactly. *)

From stdpp Require Import base gmap strings list fin_maps sorting relations.
From Stdlib Require Import ZArith NArith Ascii.
From S2P Require Import Prelude.
From S2P Require Import GoStrings.
From S2P Require Import Sha256.
From S2P Require Import Json.
From S2P Require Import Text.
From S2P Require Import Os.
From S2P Require Import AtomicFile.
From S2P Require Import XrayConfig.
From S2P Require Import XrayTypes.
From S2P Require Import XrayRuntime.
From S2P Require Import XraySteps.
From S2P Require Import XrayPrune.
From S2P Require Import XrayInv.
From S2P Require Import XrayRecover.

(** ** Requests *)

Definition request_ok (r : Request) : Prop :=
  (0 < rq_version r < two64)%N /\ rq_digest r = sha256_hex (rq_config r).

Lemma accepted_request r :
  is_u64 (rq_version r) ->
  validateRequest (XrayConfig.normalize (validation_request (normalize r))) = Ok tt ->
  request_ok (normalize r).
Proof.
  intros Hu Hok. apply validateRequest_iff in Hok as (Hv & _ & _ & Hd); [|apply ToLower_normalize].
  split; [unfold is_u64 in Hu; simpl in *; lia|]. simpl in *.
  by rewrite TrimSpace_ToLower, ToLower_idem in Hd.
Qed.

(** ** The validation step *)

Section validation.
Context `{Env} `{!ClockOk}.

Lemma layout_shape f : layout f -> shape f.
Proof.
  intros Hl. split_and!; [apply Hl|apply (layout_plain f); [done|unfold files; set_solver]..].
Qed.

Lemma safe_vstep f g : safe f -> vstep f g -> safe g.
Proof.
  intros Hs [Hg|[Hg|(q & c & n & Hq & Hg)]].
  - by rewrite Hg.
  - destruct Hs as [Hs|[p Hp]].
    + left. eapply (stable_mkdir directory); [done|by left|done].
    + right. exists p. eapply (prog_mkdir p directory); [done|by left|done].
  - rewrite Hg. apply safe_file; [done|apply clock_i64|]. set_solver.
Qed.

Lemma safe_vsteps f g : rtc vstep f g -> safe f -> safe g.
Proof. induction 1 as [|f g h Hs _ IH]; [done|]. intros Hf. by eapply IH, safe_vstep. Qed.
End validation.

(** ** The version to fall back to *)

Definition prior_ok (f : fs) (pt : string) (pa : option AppliedState) : Prop :=
  (pt = "" /\ pa = None) \/
  (pt <> "" /\ text_ok pt /\ exists a, pa = Some a /\ a_target a = pt /\ sound f a /\ applied_ok a).

(** Collecting old versions spares it. *)
Definition guarded (f : fs) (pt : string) : Prop :=
  pt = "" \/ (exists a, s_applied f = Ok a /\ a_target a = pt) \/ f !! previousPath = Some (NLink pt).

Lemma prior_keep f g pt pa : (pt <> "" -> keeps f g pt) -> prior_ok f pt pa -> prior_ok g pt pa.
Proof.
  intros Hk [[-> ->]|(Hne & Ht & a & -> & Et & Hs & Hok)]; [by left|right].
  split_and!; [done|apply Ht..|]. exists a. split_and!; try done; try apply Hok.
  eapply sound_keep; [|done]. rewrite Et. by apply Hk.
Qed.

Lemma prior_rollback f p :
  prior_ok f (p_prev p) (p_prev_applied p) -> rollback_ok f p.
Proof.
  intros [[E _]|(Hne & Ht & a & Ea & Et & Hs & Hok)]; [by left|right]. split.
  - exists (a_version a), (a_digest a). destruct Hs as (_ & Hm & Hg). by rewrite Et in *.
  - intros a' Ea'. rewrite Ea in Ea'. by injection Ea' as <-.
Qed.

Lemma prior_collected f g pt pa : guarded f pt -> collected f g -> prior_ok f pt pa -> prior_ok g pt pa.
Proof.
  intros Hg (P & (_ & H2 & H3 & _) & Hp). apply prior_keep. intros Hne.
  eapply collected_keep; [done|]. destruct Hg as [?|[(a & Ha & <-)|Hl]]; [done|by apply H3|by apply H2].
Qed.

(** ** Versions on disk *)

Definition installed (f : fs) (t c : string) : Prop :=
  exists z, f !! (directory +:+ "/" +:+ t) = Some (NFile c configFileMode z).

Lemma installed_good f t c : installed f t c -> good f t (sha256_hex c).
Proof. intros [z Hz]. by exists c, z. Qed.

Lemma version_write_keeps f t v d c z t' :
  configTargetMetadata t = Ok (v, d) -> sha256_hex c = d ->
  keeps f (<[directory +:+ "/" +:+ t := NFile c configFileMode z]> f) t'.
Proof.
  intros Hm Hd m Hm' (c' & z' & Hf & Hd').
  destruct (decide (t' = t)) as [->|Hne].
  - rewrite Hm in Hm'. injection Hm' as <-. exists c, z. by rewrite lookup_insert_eq.
  - exists c', z'. rewrite lookup_insert_ne; [done|]. intros E.
    by apply sapp_inj_l, sapp_inj_l in E.
Qed.

Lemma version_path_of t m : configTargetMetadata t = Ok m ->
  exists n, entry_name n /\ directory +:+ "/" +:+ t = version_path n /\ scratch (version_path n) = false.
Proof.
  intros Hm. pose proof (metadata_scratch t m Hm) as Hs.
  apply metadata_target, validateTarget_entry in Hm as (n & Hn & ->).
  exists n. by rewrite version_path_target.
Qed.

Lemma stable_install f t v d c z :
  stable f -> configTargetMetadata t = Ok (v, d) -> sha256_hex c = d -> is_i64 z ->
  stable (<[directory +:+ "/" +:+ t := NFile c configFileMode z]> f).
Proof.
  intros Hs Hm Hd Hz. pose proof Hs as (Hl & _). destruct (version_path_of t _ Hm) as (n & Hn & Ep & Hsc).
  apply (stable_same f); try done.
  - rewrite Ep. apply layout_file; [done|by destruct n..|done].
  - intros a _. by eapply version_write_keeps.
  - rewrite Ep, lookup_insert_ne; [done|by destruct n].
  - rewrite Ep, lookup_insert_ne; [done|by destruct n].
  - rewrite Ep, lookup_insert_ne; [done|by destruct n].
Qed.

Lemma version_target_Join v d :
  (0 < v < two64)%N -> digest_ok d ->
  Join "versions" (pad20 v +:+ "-" +:+ d +:+ ".json") = version_target v d.
Proof.
  intros Hv Hd. pose proof (metadata_version v d Hv Hd) as Hm.
  apply metadata_target, validateTarget_entry in Hm as (n & Hn & En).
  unfold version_target in En. apply (sapp_inj_l "versions/") in En. rewrite En.
  by rewrite Join_versions, <- En.
Qed.

Lemma target_ascii v d rest :
  digest_ok d -> is_ascii rest = true -> is_ascii ("versions/" +:+ pad20 v +:+ "-" +:+ d +:+ rest) = true.
Proof.
  intros [_ Hd] Hr. unfold is_ascii in *. rewrite !sforall_app, Hr, !andb_true_r.
  apply andb_true_iff. split; [done|]. apply andb_true_iff. split.
  - eapply sforall_impl; [|apply pad20_digits]. intros c. by destruct c as [[] [] [] [] [] [] [] []].
  - apply andb_true_iff. split; [done|]. eapply sforall_impl; [|exact Hd].
    intros c. by destruct c as [[] [] [] [] [] [] [] []].
Qed.

Lemma FormatInt_ascii z : is_ascii (FormatInt z) = true.
Proof.
  assert (forall n, is_ascii (FormatUint n) = true) as Hu.
  { intros n. eapply sforall_impl; [|apply FormatUint_digits].
    intros c. by destruct c as [[] [] [] [] [] [] [] []]. }
  destruct z; [done|apply Hu|]. change (FormatInt (Z.neg p)) with (String "-" (FormatUint (N.pos p))).
  apply ascii_cons. split; [done|apply Hu].
Qed.

Lemma version_text v d : (v < two64)%N -> digest_ok d -> text_ok (version_target v d).
Proof.
  intros Hv Hd. split.
  - apply is_ascii_ValidString. by apply target_ascii.
  - destruct Hd as [Hd _]. pose proof (pad20_length v Hv) as Hp. unfold version_target. rewrite !slen_app, Hd.
    assert (slen (pad20 v) = 20%N) as -> by (unfold slen; by rewrite Hp). vm_compute. discriminate.
Qed.

Lemma repair_text v d z : (v < two64)%N -> digest_ok d -> is_i64 z -> text_ok (repair_target v d z).
Proof.
  intros Hv Hd Hz. split.
  - apply is_ascii_ValidString. apply target_ascii; [done|].
    change ("-repair-" +:+ FormatInt z +:+ ".json") with ("-repair-" +:+ (FormatInt z +:+ ".json")).
    unfold is_ascii. rewrite !sforall_app. pose proof (FormatInt_ascii z) as Hf. unfold is_ascii in Hf.
    by rewrite Hf.
  - destruct Hd as [Hd _]. pose proof (pad20_length v Hv) as Hp. pose proof (int_slen z Hz).
    unfold repair_target. rewrite !slen_app, Hd.
    assert (slen (pad20 v) = 20%N) as -> by (unfold slen; by rewrite Hp).
    change (slen "versions/") with 9%N. change (slen "-") with 1%N. change (slen "-repair-") with 8%N.
    change (slen ".json") with 5%N. lia.
Qed.

(** ** Installing a version *)

Section install.
Context `{Env} `{!ClockOk}.

(** [t] names the version of [r] and its file holds the configuration. *)
Definition target_for (r : Request) (t : string) : Prop :=
  configTargetMetadata t = Ok (rq_version r, rq_digest r) /\ text_ok t.

(** What every step of the installation preserves. *)
Definition kept (f g : fs) : Prop :=
  (stable f -> stable g) /\ (forall t, keeps f g t) /\
  (is_dir f directory = true -> is_dir g directory = true).

Lemma kept_refl f : kept f f.
Proof. split_and!; [done|intros t m; done|done]. Qed.

Lemma kept_trans f g h : kept f g -> kept g h -> kept f h.
Proof.
  intros (H1 & H2 & H3) (H4 & H5 & H6). split_and!; [auto| |auto].
  intros t m Hm Hg. by apply (H5 t m Hm), (H2 t m Hm).
Qed.

Lemma kept_equiv f g : g ≡ f -> kept f g.
Proof.
  intros Hg. split_and!.
  - by rewrite Hg.
  - intros t. by apply keeps_same, same_versions_equiv.
  - by rewrite (is_dir_equiv _ _ _ Hg).
Qed.

Lemma kept_mkdir p f g : home p -> dir_step p f g -> kept f g.
Proof.
  intros Hp Hd. split_and!.
  - intros Hs. by eapply stable_mkdir.
  - intros t. apply keeps_same. intros n _. eapply home_lookup; [done|done|by destruct n..].
  - by eapply is_dir_mkdir.
Qed.

Lemma kept_version f t v d c n :
  layout f -> configTargetMetadata t = Ok (v, d) -> sha256_hex c = d ->
  kept f (<[directory +:+ "/" +:+ t := NFile c configFileMode (time_at n)]> f).
Proof.
  intros Hl Hm Hd. split_and!.
  - intros Hs. eapply stable_install; [done|done|done|apply clock_i64].
  - intros t'. by eapply version_write_keeps.
  - destruct (version_path_of t _ Hm) as (n' & Hn & Ep & Hsc). intros Hdir.
    apply is_dir_insert; [|done]. rewrite Ep. pose proof (lay_entries f Hl n' Hsc) as He.
    unfold plain_file. by destruct (f !! version_path n') as [[]|].
Qed.

Lemma request_digest r : request_ok r -> digest_ok (rq_digest r).
Proof. intros [_ ->]. apply sha256_hex_digest. Qed.

Lemma wp_writeVersion r t w0 f (Q : result unit -> world -> Prop) C w :
  since w0 f w -> stable f -> is_dir f versionsDirectory = true ->
  request_ok r -> target_for r t ->
  (forall g w', ~ calm w0 -> onward w0 w g w' -> kept f g -> C w' /\ forall e, Q (Err e) w') ->
  (forall g w', onward w0 w g w' -> kept f g -> installed g t (rq_config r) -> Q (Ok tt) w') ->
  wp (writeAtomic (Join directory t) (rq_config r) configFileMode) Q C w.
Proof.
  intros Hw Hs Hd Hr [Hm Ht] HX HQ.
  pose proof (metadata_target _ _ Hm) as Hv. rewrite target_path by done.
  destruct (version_path_of t _ Hm) as (n & Hn & Ep & Hsc).
  assert (sha256_hex (rq_config r) = rq_digest r) as Hsha by (symmetry; apply Hr).
  assert (forall k, kept f (<[directory +:+ "/" +:+ t := NFile (rq_config r) configFileMode (time_at k)]> f)) as Hk.
  { intros k. eapply kept_version; [apply Hs|done|done]. }
  rewrite Ep in *.
  apply (s_write versionsDirectory n _ _ w0 f); try done; [by right|apply Hn| |..].
  - pose proof (lay_entries f (proj1 Hs) n Hsc) as He. unfold plain_file.
    change (versionsDirectory +:+ "/" +:+ n) with (version_path n).
    by destruct (f !! version_path n) as [[]|].
  - intros g w' Hc Hg Hcase. apply (HX g); [done|done|].
    destruct Hcase as [Hgf|[k Hgf]]; [by apply kept_equiv|].
    eapply kept_trans; [apply (Hk k)|by apply kept_equiv].
  - intros g k w' Hg Hgf. eapply HQ; [done| |].
    + eapply kept_trans; [apply (Hk k)|by apply kept_equiv].
    + exists (time_at k). rewrite Ep, (Hgf _ Hsc). apply lookup_insert_eq.
Qed.

Lemma wp_writeRepair r w0 f (Q : result string -> world -> Prop) C w :
  since w0 f w -> stable f -> is_dir f versionsDirectory = true -> request_ok r ->
  (forall g w', ~ calm w0 -> onward w0 w g w' -> kept f g -> C w' /\ forall e, Q (Err e) w') ->
  (forall t g w', onward w0 w g w' -> kept f g -> target_for r t -> installed g t (rq_config r) ->
     Q (Ok t) w') ->
  wp (writeRepairVersion r) Q C w.
Proof.
  intros Hw Hs Hd Hr HX HQ. pose proof (request_digest r Hr) as Hdg. destruct Hr as [Hv Hdig].
  apply wp_bind, (s_Now w0 f); [done|]. intros n w1 [Hw1 Er1].
  assert (target_for r (repair_target (rq_version r) (rq_digest r) (time_at n))) as Ht.
  { split; [by apply metadata_repair|]. apply repair_text; [lia|done|apply clock_i64]. }
  apply wp_try, (wp_writeVersion r _ w0 f); try done.
  - intros g w' Hc [Hg Er] Hk. assert (onward w0 w g w') by (split; [done|congruence]).
    split; [by eapply HX|]. intros e. apply wp_ret. by eapply HX.
  - intros g w' [Hg Er] Hk Hi. apply wp_ret. eapply HQ; [split; [done|congruence]|done|done|done].
Qed.

Lemma reads_readfile p : reads (ReadFile p) (fun f => fs_readfile f p).
Proof. apply reads_sys. Qed.
Lemma reads_lstat p : reads (Lstat p) (fun f => fs_lstat f p).
Proof. apply reads_sys. Qed.

(** [installVersion]: the version's file holds the configuration. *)
Lemma wp_installVersion r repair w0 f (Q : result string -> world -> Prop) C w :
  since w0 f w -> stable f -> is_dir f directory = true -> request_ok r ->
  (forall g w', ~ calm w0 -> onward w0 w g w' -> kept f g -> C w') ->
  (forall e g w', onward w0 w g w' -> kept f g -> Q (Err e) w') ->
  (forall t g w', onward w0 w g w' -> kept f g -> target_for r t -> installed g t (rq_config r) ->
     Q (Ok t) w') ->
  wp (installVersion r repair) Q C w.
Proof.
  intros Hw Hs Hd Hr HC HE HQ. pose proof (request_digest r Hr) as Hdg.
  pose proof Hs as (Hl & _). pose proof Hr as [Hv Hdig].
  assert (target_for r (version_target (rq_version r) (rq_digest r))) as Ht.
  { split; [by apply metadata_version|apply version_text; [lia|done]]. }
  unfold installVersion. rewrite (version_target_Join _ _ Hv Hdg).
  set (t := version_target _ _) in *.
  apply wp_try, (wp_MkdirAll _ _ w f); [by eapply since_after|done|apply Hl|done|..].
  { intros w' Hc Hw'. eapply HC; [exact (since_calm _ _ _ Hw Hc)|by eapply onward_after|apply kept_refl]. }
  { intros e w' Hc Hw' _. eapply wp_ret, HE; [by eapply onward_after|apply kept_refl]. }
  intros f1 w1 Hw1 Hst1 Hd1. pose proof (onward_after _ _ _ _ _ Hw Hw1) as [Hs1 Er1].
  assert (kept f f1) as Hk1 by (eapply kept_mkdir; [by right|done]).
  apply wp_try, (wp_Chmod_dir _ _ w f1); [done|done|done|..].
  { intros w' Hc Hw'. eapply HC; [exact (since_calm _ _ _ Hw Hc)|by eapply onward_after|done]. }
  { intros e w' Hc Hw' _. eapply wp_ret, HE; [by eapply onward_after|done]. }
  intros f2 w2 Hw2 Hst2 Hd2. pose proof (onward_after _ _ _ _ _ Hw Hw2) as [Hs2 Er2].
  assert (kept f f2) as Hk2 by (eapply kept_trans; [done|]; eapply kept_mkdir; [by right|done]).
  clear Hst1 Hst2 Hk1 Hw1 Hs1 Er1 Hw2.
  pose proof (proj1 Hk2 Hs) as Hst2.
  apply wp_bind, (s_reads _ _ w0 f2 _ _ _ (reads_readfile _) Hs2).
  { intros w' Hc [Hw' Er]. assert (onward w0 w f2 w') by (split; [done|congruence]).
    split; [by eapply HC|]. intros e He. rewrite He. by eapply wp_ret, HE. }
  intros w3 [Hw3 Er3]. assert (onward w0 w f2 w3) as Ho3 by (split; [done|congruence]).
  assert (forall w4, onward w0 w f2 w4 -> wp (writeRepairVersion r) Q C w4) as Hrep.
  { intros w4 [Hw4 Er4]. apply (wp_writeRepair r w0 f2); [done|done|done|done|..].
    - intros g w' Hc [Hg Er] Hk. assert (onward w0 w g w') by (split; [done|congruence]).
      split; [eapply HC|intros e; eapply HE]; try done; by eapply kept_trans.
    - intros t' g w' [Hg Er] Hk Htf Hi.
      eapply HQ; [split; [done|congruence]|by eapply kept_trans|done|done]. }
  destruct (fs_readfile f2 (Join directory t)) as [raw|e] eqn:Eraw.
  - apply wp_try, (s_reads _ _ w0 f2 _ _ _ (reads_lstat _) Hw3).
    { intros w' Hc [Hw' Er]. assert (onward w0 w f2 w') by (split; [done|congruence]).
      split; [by eapply HC|]. intros e He. by eapply wp_ret, HE. }
    intros w4 [Hw4 Er4]. assert (onward w0 w f2 w4) as Ho4 by (split; [done|congruence]).
    destruct (fs_lstat f2 (Join directory t)) as [info|e] eqn:Ei; [|by eapply wp_ret, HE].
    destruct (bool_decide _ && bool_decide (raw = rq_config r)) eqn:Ec.
    + destruct (IsRegular info && (fi_perm info =? configFileMode)%N) eqn:Ep; cbn [andb].
      * apply andb_true_iff in Ec as [_ Ec], Ep as [Ereg Eperm].
        apply bool_decide_eq_true in Ec as ->. apply N.eqb_eq in Eperm.
        destruct (follow_lstat _ _ _ _ Eraw Ei Ereg) as (z & Hz & _). rewrite Eperm in Hz.
        eapply wp_ret, HQ; [done|done|done|]. exists z.
        rewrite target_path in Hz by (eapply metadata_target; apply Ht). done.
      * destruct repair; [by apply Hrep|]. by eapply wp_ret, HE.
    + cbn [andb]. destruct repair; [by apply Hrep|]. by eapply wp_ret, HE.
  - destruct (errorsIs e SNotExist); [|by eapply wp_ret, HE]. cbn [negb].
    destruct repair; [by apply Hrep|].
    apply wp_try, (wp_writeVersion r t w0 f2); try done.
    + intros g w' Hc [Hg Er] Hk. assert (onward w0 w g w') by (split; [done|congruence]).
      split; [eapply HC|intros e'; eapply wp_ret, HE]; try done; by eapply kept_trans.
    + intros g w' [Hg Er] Hk Hi. eapply wp_ret, HQ; [split; [done|congruence]|by eapply kept_trans|done|done].
Qed.
End install.

(** ** Activation *)

Section activate.
Context `{Env} `{Controller} `{!ControllerLaws} `{!ClockOk}.

(** How an apply that got as far as its intention [p] ends. *)
Definition concluded (p : pendingState) (res : result Result) (g : fs) (w : world) : Prop :=
  match res with
  | Err _ => safe g
  | Ok r =>
      (exists a, r = resultFromApplied a /\ settled_on a g /\ matches p a /\ runs a w) \/
      (exists failure code, r = failed_result p failure code RecoveryStatusRolledBack true /\
         stable g /\ restored p g w)
  end.

(** The target the intention names is on disk. *)
Definition ready (p : pendingState) (f : fs) : Prop :=
  prog p f /\ good f (p_target p) (p_digest p).

Lemma wp_rolledBack p failure code w0 f (Q : result Result -> world -> Prop) C w :
  since w0 f w -> prog p f ->
  (forall g w', ~ calm w0 -> since w0 g w' -> safe g -> C w') ->
  (forall r g w', since w0 g w' -> concluded p r g w' -> Q r w') ->
  wp (rollbackResult p failure code) Q C w.
Proof.
  intros Hw Hp HC HQ. apply (wp_rollbackResult p _ _ w0 f); [done|done|done|..].
  - intros e g w' _ Hg Hs _. by eapply HQ.
  - intros g w' Hg Hs Hr _. eapply HQ; [done|]. right. by do 2 eexists.
Qed.

Lemma target_state p f n :
  prog p f -> good f (p_target p) (p_digest p) ->
  let a := MkApplied (p_version p) (p_digest p) (p_target p) (time_at n / 1000000000) in
  applied_ok a /\ sound f a /\ matches p a.
Proof.
  intros (_ & _ & [_ Hok] & _) Hg a. destruct Hok as (Hv & _ & Ht & _ & Hval & _).
  pose proof (pending_digest p Hval) as [Hl Hm].
  pose proof (metadata_facts _ _ _ Hm) as (Hv0 & _ & x & Hx).
  destruct (clock_unix n) as [Hz Hpos].
  assert (validateAppliedState a = Ok tt) as Ha.
  { unfold validateAppliedState. simpl. rewrite Hl, Hx, (proj2 (N.eqb_neq _ 0)) by lia.
    rewrite (bool_decide_false (_ <= 0)%Z) by lia. by eapply metadata_target. }
  split; [|split; [by split_and!|done]]. by split_and!; [| |apply Ht..|].
Qed.

Lemma settled_collected a f g : settled_on a f -> collected f g -> settled_on a g.
Proof.
  intros [Hs ([Ha Hok] & Hc & Hsd)] Hcol. split; [by eapply stable_collected|].
  destruct Hcol as (P & (Hcp & _) & Hp). split_and!.
  - split; [|done]. eapply holds_same; [|done]. eapply pruned_other; [done|not_version].
  - rewrite <- Hc. eapply pruned_other; [done|not_version].
  - eapply sound_keep; [|done]. eapply collected_keep; [done|]. by apply Hcp.
Qed.

Lemma s_prune w0 f (Q : result unit -> world -> Prop) C w :
  since w0 f w -> layout f ->
  (forall g w', ~ calm w0 -> onward w0 w g w' -> g = f \/ collected f g -> C w') ->
  (forall e g w', onward w0 w g w' -> g = f \/ collected f g -> Q (Err e) w') ->
  (forall g w', onward w0 w g w' -> g = f \/ collected f g -> Q (Ok tt) w') ->
  wp pruneVersions Q C w.
Proof.
  intros Hw Hl HC HE HQ. apply (wp_pruneVersions w f); [by eapply since_after|done|..].
  - intros g w' Hc Hg. apply HC; [exact (since_calm _ _ _ Hw Hc)|by eapply onward_after].
  - intros e g w' Hg. apply HE. by eapply onward_after.
  - intros g w' Hg. apply HQ. by eapply onward_after.
Qed.

(** The tail of [recordApplied]: the applied state is on disk. *)
Lemma wp_finish p a w0 f (Q : result Result -> world -> Prop) C w :
  since w0 f w -> prog p f -> consistent f a -> matches p a -> runs a w ->
  (forall g w', ~ calm w0 -> since w0 g w' -> safe g -> C w') ->
  (forall r g w', since w0 g w' -> concluded p r g w' -> Q r w') ->
  wp (try! _ := removeAndSync pendingPath
        catch e => ret (Err (newApplyError ErrorCodePersistenceFailed RecoveryStatusUnknown
                               (errorW "confirm applied Xray config: " e))) in
      try! _ := removeAndSync failedPath
        catch e => ret (Err (newApplyError ErrorCodePersistenceFailed RecoveryStatusUnknown
                               (errorW "clear failed Xray config state: " e))) in
      try! _ := pruneVersions
        catch e => ret (persistError (errorW "garbage collect Xray config versions: " e)) in
      ret (Ok (resultFromApplied a))) Q C w.
Proof.
  intros Hw Hp Hc Hm Hr HC HQ.
  assert (settled_on a (delete pendingPath f)) as Hdel.
  { split; [apply (prog_done p); [done|right; by exists a]|].
    apply consistent_delete; [set_solver|done]. }
  apply wp_try, (s_remove "apply-pending.json" w0 f); try done;
    [by eapply prog_dir|by apply (prog_plain p f pendingPath); [|paths]|..].
  { intros g w' Hn [Hg _] Hcase. assert (safe g) as Hsg.
    { destruct Hcase as [->| ->]; [by eapply prog_safe|left; apply Hdel]. }
    split; [by eapply HC|]. intros e. by eapply wp_ret, HQ. }
  intros w1 [Hw1 Er1].
  apply wp_try, (wp_removeFailed a w0 (delete pendingPath f)); try done.
  { apply is_dir_remove; [by eapply prog_layout|paths|by eapply prog_dir]. }
  { intros g w' Hn [Hg _] [Hs _]. split; [eapply HC; [done|done|by left]|].
    intros e. eapply wp_ret, HQ; [done|by left]. }
  intros g w2 [Hw2 Er2] Hs2.
  assert (forall g', g' = g \/ collected g g' -> settled_on a g') as Hcol.
  { intros g' [->|?]; [done|by eapply settled_collected]. }
  apply wp_try, (s_prune w0 g); [done|apply Hs2|..].
  - intros g' w' Hn [Hg _] Hcase. eapply HC; [done|done|left; by apply Hcol].
  - intros e g' w' [Hg _] Hcase. eapply wp_ret, HQ; [done|left; by apply Hcol].
  - intros g' w' [Hg Er3] Hcase. eapply wp_ret, HQ; [done|]. left. exists a.
    split_and!; [done|by apply Hcol..|done|]. destruct Hr as [b Hb]. exists b. congruence.
Qed.

Lemma wp_recordApplied p w0 f (Q : result Result -> world -> Prop) C w :
  since w0 f w -> ready p f -> f !! currentPath = Some (NLink (p_target p)) ->
  (exists b, w_run w = Some (Proc (p_target p) b)) ->
  (forall g w', ~ calm w0 -> since w0 g w' -> safe g -> C w') ->
  (forall r g w', since w0 g w' -> concluded p r g w' -> Q r w') ->
  wp (recordApplied p) Q C w.
Proof.
  intros Hw [Hp Hg] Hcur Hrun HC HQ. unfold recordApplied.
  apply wp_bind, (s_Now w0 f); [done|]. intros n w1 [Hw1 Er1].
  destruct (target_state p f n Hp Hg) as (Haok & Hsd & Hm). set (a := MkApplied _ _ _ _) in *.
  apply wp_try. unfold persistState.
  apply (s_write directory "applied.json" _ _ w0 f); try done;
    [by left|by eapply prog_dir|by apply (prog_plain p f appliedPath); [|paths]|..].
  { intros g w' Hn [Hg' _] Hcase.
    assert (prog p g) as Hpg.
    { destruct Hcase as [->|[t ->]]; [done|]. apply prog_applied; [done|done|apply clock_i64]. }
    split; [eapply HC; [done|done|by eapply prog_safe]|]. intros e. by eapply wp_rolledBack. }
  intros f2 t w2 [Hw2 Er2] Hf2.
  apply (wp_finish p a w0 f2); try done.
  - rewrite Hf2. apply prog_applied; [done|done|apply clock_i64].
  - eapply consistent_equiv; [exact Hf2|]. split; [by apply applied_write|]. split.
    + by rewrite lookup_insert_ne.
    + eapply sound_keep; [|exact Hsd]. apply keeps_same, same_versions_insert. paths.
  - destruct Hrun as [b Hb]. exists b. simpl. congruence.
Qed.

Lemma wp_withdraw p e0 w0 f (Q : result Result -> world -> Prop) C w :
  since w0 f w -> prog p f -> settled f ->
  (forall g w', ~ calm w0 -> since w0 g w' -> safe g -> C w') ->
  (forall e g w', since w0 g w' -> safe g -> Q (Err e) w') ->
  wp (withdraw e0) Q C w.
Proof.
  intros Hw Hp Hs HC HE. pose proof (prog_done p f Hp Hs) as Hdel.
  apply wp_bind, (s_remove "apply-pending.json" w0 f); try done;
    [by eapply prog_dir|by apply (prog_plain p f pendingPath); [|paths]|..].
  - intros g w' Hn [Hg _] Hcase. assert (safe g) as Hsg.
    { destruct Hcase as [->| ->]; [by eapply prog_safe|by left]. }
    split; [by eapply HC|]. intros e. by eapply wp_ret, HE.
  - intros w' [Hw' _]. eapply wp_ret, HE; [done|by left].
Qed.

Lemma ready_equiv p f g : g ≡ f -> ready p f -> ready p g.
Proof.
  intros Hg [Hp Hgood]. split; [by rewrite Hg|].
  destruct Hp as (_ & _ & [_ Hok] & _). destruct Hok as (_ & _ & _ & _ & Hval & _).
  pose proof (pending_digest p Hval) as [_ Hm].
  by apply (keeps_same _ _ _ (same_versions_equiv _ _ Hg) _ Hm).
Qed.

Lemma ready_target p f : ready p f -> validateTarget (p_target p) = Ok tt /\ text_ok (p_target p).
Proof.
  intros [(_ & _ & [_ Hok] & _) _]. destruct Hok as (_ & _ & Ht & _ & Hval & _).
  pose proof (pending_digest p Hval) as [_ Hm]. split; [by eapply metadata_target|done].
Qed.

Lemma prev_target p f : prog p f -> p_prev p <> "" ->
  validateTarget (p_prev p) = Ok tt /\ text_ok (p_prev p).
Proof.
  intros (_ & _ & [_ Hok] & Hr & _) Hne. destruct Hok as (_ & _ & _ & Ht & _).
  destruct Hr as [?|[(v & d & Hm & _) _]]; [done|]. split; [by eapply metadata_target|done].
Qed.

Lemma ready_link p f q t :
  ready p f -> q = currentPath \/ q = previousPath -> text_ok t -> validateTarget t = Ok tt ->
  ready p (<[q := NLink t]> f).
Proof.
  intros [Hp Hg] Hq Ht Hv. split; [by apply prog_link|].
  destruct Hp as (_ & _ & [_ Hok] & _). destruct Hok as (_ & _ & _ & _ & Hval & _).
  pose proof (pending_digest p Hval) as [_ Hm].
  apply (keeps_same f _ _ (same_versions_insert f q _ ltac:(destruct Hq as [-> | ->]; paths)) _ Hm). done.
Qed.

(** Once Xray runs the new version: the previous link, then the record. *)
Lemma wp_linkPrevious p w0 f (Q : result Result -> world -> Prop) C w :
  since w0 f w -> ready p f -> f !! currentPath = Some (NLink (p_target p)) ->
  (exists b, w_run w = Some (Proc (p_target p) b)) ->
  (forall g w', ~ calm w0 -> since w0 g w' -> safe g -> C w') ->
  (forall r g w', since w0 g w' -> concluded p r g w' -> Q r w') ->
  wp (try! _ := (if bool_decide (p_prev p = "") then ret (Ok tt) else atomicSymlink (p_prev p) previousPath)
        catch e => rollbackResult p (cleanError ("record previous Xray config: " +:+ err_text e))
                     ErrorCodePersistenceFailed in
      recordApplied p) Q C w.
Proof.
  intros Hw Hr Hcur Hrun HC HQ. pose proof Hr as [Hp _]. apply wp_try. case_bool_decide as E.
  { apply wp_ret. by apply (wp_recordApplied p w0 f). }
  destruct (prev_target p f Hp E) as [Hv Ht].
  apply (s_symlink _ _ w0 f); try done; [by right|by eapply prog_dir|by eapply prog_plain; [|paths]|..].
  - intros g w' Hn [Hg _] Hcase. eapply HC; [done|done|]. apply (prog_safe p).
    destruct Hcase as [->| ->]; [done|apply prog_link; auto].
  - intros e g w' _ [Hg _] Hgf. apply (wp_rolledBack p _ _ w0 g); [done|by rewrite Hgf|done|done].
  - intros g w' [Hg Er] Hgf.
    assert (ready p (<[previousPath := NLink (p_prev p)]> f)) as Hr' by (apply ready_link; auto).
    apply (wp_recordApplied p w0 g); [done|by eapply ready_equiv| |by rewrite Er|done|done].
    rewrite (Hgf currentPath eq_refl). by rewrite lookup_insert_ne.
Qed.

Lemma wp_activate p w0 f (Q : result Result -> world -> Prop) C w :
  since w0 f w -> ready p f -> settled f ->
  (forall g w', ~ calm w0 -> since w0 g w' -> safe g -> C w') ->
  (forall r g w', since w0 g w' -> concluded p r g w' -> Q r w') ->
  wp (activate p) Q C w.
Proof.
  intros Hw Hr Hs HC HQ. pose proof Hr as [Hp _]. destruct (ready_target p f Hr) as [Hv Ht].
  apply wp_try, (s_symlink _ _ w0 f); try done; [by left|by eapply prog_dir|by eapply prog_plain; [|paths]|..].
  { intros g w' Hn [Hg _] Hcase. eapply HC; [done|done|]. apply (prog_safe p).
    destruct Hcase as [->| ->]; [done|apply prog_link; auto]. }
  { intros e g w' _ [Hg _] Hgf. apply (wp_withdraw p e w0 g); [done|by rewrite Hgf| |done|].
    - destruct Hs as [[H1' H2']|(a & Ha)]; [left|right; exists a; by eapply consistent_equiv].
      by rewrite (Hgf appliedPath eq_refl), (Hgf currentPath eq_refl).
    - intros e' g' w'' Hg' Hsg. by eapply HQ. }
  intros f1 w1 [Hw1 _] Hf1.
  assert (ready p f1) as Hr1 by (eapply ready_equiv; [exact Hf1|apply ready_link; auto]).
  pose proof Hr1 as [Hp1 _].
  assert (f1 !! currentPath = Some (NLink (p_target p))) as Hcur.
  { rewrite (Hf1 currentPath eq_refl). apply lookup_insert_eq. }
  apply wp_try, (s_syncDirectory _ w0 f1); [done|by eapply prog_dir|..].
  { intros w' Hn [Hw' _]. split; [eapply HC; [done|done|by eapply prog_safe]|].
    intros e. by eapply wp_rolledBack. }
  intros w2 [Hw2 _]. apply wp_try, (wp_Restart w0 f1); [done|..].
  - intros g w' Hn Hg Hgf. eapply HC; [done|done|]. apply (prog_safe p). by rewrite Hgf.
  - intros e g w' _ Hg Hgf. apply (wp_rolledBack p _ _ w0 g); [done|by rewrite Hgf|done|done].
  - intros g w' Hg Hgf Hfol. apply (wp_linkPrevious p w0 g); [done|by eapply ready_equiv| | |done|done].
    + by rewrite (Hgf currentPath eq_refl).
    + by apply Hfol.
Qed.

(** ** Commit *)

Definition committed (r : Request) (pt : string) (pa : option AppliedState) (res : result Result) (g : fs) (w : world) : Prop :=
  match res with
  | Err _ => safe g
  | Ok _ => exists p, p_version p = rq_version r /\ p_digest p = rq_digest r /\ p_prev p = pt /\
              p_prev_applied p = pa /\ concluded p res g w
  end.

Lemma new_pending r t pt pa n f :
  request_ok r -> target_for r t -> prior_ok f pt pa ->
  pending_ok (MkPending t pt pa (rq_version r) (rq_digest r) (time_at n / 1000000000)).
Proof.
  intros Hr [Hm Ht] Hprior. pose proof (request_digest r Hr) as [Hl _]. destruct Hr as [Hv _].
  destruct (clock_unix n) as [Hz Hpos]. pose proof (metadata_target _ _ Hm) as Hvt.
  assert (text_ok pt) as Hpt by (destruct Hprior as [[-> _]|(_ & ? & _)]; [by split|done]).
  assert (match pa with Some a => applied_ok a | None => True end) as Hpa
    by (destruct Hprior as [[_ ->]|(_ & _ & a & -> & _ & _ & ?)]; done).
  split; [unfold is_u64; simpl; lia|]. split; [done|]. split; [done|]. split; [done|]. split; [|done].
  unfold validatePending. simpl. rewrite Hl, Hm, Hvt, (proj2 (N.eqb_neq _ 0)) by lia.
  rewrite (bool_decide_false (_ <= 0)%Z) by lia. simpl. rewrite !bool_decide_true by done. simpl.
  destruct Hprior as [[-> ->]|(Hne & _ & a & -> & Et & (Hval & Hma & _) & _)]; [done|].
  rewrite (bool_decide_false (pt = "")), (bool_decide_true (a_target a = pt)) by done. simpl.
  rewrite <- Et, (metadata_target _ _ Hma), Hval. done.
Qed.

Lemma wp_commit r repair pt pa w0 f (Q : result Result -> world -> Prop) C w :
  since w0 f w -> stable f -> is_dir f directory = true -> request_ok r -> prior_ok f pt pa ->
  (forall g w', ~ calm w0 -> since w0 g w' -> safe g -> C w') ->
  (forall res g w', since w0 g w' -> committed r pt pa res g w' -> Q res w') ->
  wp (commit r repair pt pa) Q C w.
Proof.
  intros Hw Hs Hd Hr Hprior HC HQ. unfold commit.
  apply wp_try, (wp_installVersion r repair w0 f); try done.
  { intros g w' Hn [Hg _] (Hk & _). eapply HC; [done|done|left; by apply Hk]. }
  { intros e g w' [Hg _] (Hk & _). eapply wp_ret, HQ; [done|left; by apply Hk]. }
  intros t g w1 [Hw1 _] (Hk1 & Hk2 & Hk3) Htf Hi. specialize (Hk1 Hs). specialize (Hk3 Hd).
  assert (prior_ok g pt pa) as Hprior' by (eapply prior_keep; [|done]; auto).
  assert (good g t (rq_digest r)) as Hgood.
  { destruct Hr as [_ ->]. by apply installed_good. }
  apply wp_bind, (s_Now w0 g); [done|]. intros n w2 [Hw2 _].
  set (p := MkPending t pt pa _ _ _).
  assert (pending_ok p) as Hpok by by eapply new_pending.
  assert (rollback_ok g p) as Hrb by by apply prior_rollback.
  apply wp_try. unfold persistState.
  apply (s_write directory "apply-pending.json" _ _ w0 g); try done;
    [by left|apply (layout_plain g pendingPath); [apply Hk1|paths]|..].
  { intros g' w' Hn [Hg _] Hcase. assert (safe g') as Hsg.
    { destruct Hcase as [->|[k ->]]; [by left|].
      apply (prog_safe p), stable_begin; [done|done|done|done|apply clock_i64]. }
    split; [by eapply HC|]. intros e. by eapply wp_ret, HQ. }
  intros f2 k w3 [Hw3 _] Hf2.
  assert (same_versions g f2) as Hsv.
  { intros n' Hn'. rewrite (Hf2 _ Hn'). rewrite lookup_insert_ne; [done|by destruct n']. }
  apply (wp_activate p w0 f2); [done|..|done|].
  - split; [rewrite Hf2; apply stable_begin; [done|done|done|done|apply clock_i64]|].
    destruct Htf as [Hm _]. by apply (keeps_same _ _ _ Hsv _ Hm).
  - destruct Hk1 as (_ & _ & [[Ha Hcur]|(a & [Ha Haok] & Hcur & Hsd)]); [left|right; exists a].
    + rewrite (Hf2 appliedPath eq_refl), (Hf2 currentPath eq_refl). by rewrite !lookup_insert_ne.
    + split; [split; [eapply holds_same; [|done]|done]|split].
      * rewrite (Hf2 appliedPath eq_refl). by rewrite lookup_insert_ne.
      * rewrite (Hf2 currentPath eq_refl). by rewrite lookup_insert_ne.
      * eapply sound_keep; [|done]. by apply keeps_same.
  - intros [res|e] g' w' Hg' Hconc; eapply HQ; [done| |done|done].
    exists p. by split_and!.
Qed.
End activate.
