(* ===== verification/XrayAdmit.v ===== *)
(** * Admission of an apply, and Apply as a whole *)

From stdpp Require Import base gmap strings list fin_maps sorting relations.
From Stdlib Require Import ZArith NArith Ascii.
From S2P Require Import Prelude.
From S2P Require Import GoStrings.
From S2P Require Import Sha256.
From S2P Require Import Os.
From S2P Require Import AtomicFile.
From S2P Require Import XrayConfig.
From S2P Require Import XrayTypes.
From S2P Require Import XrayRuntime.
From S2P Require Import XraySteps.
From S2P Require Import XrayPrune.
From S2P Require Import XrayInv.
From S2P Require Import XrayRecover.
From S2P Require Import XrayApply.

Section admission.
Context `{Env} `{Controller} `{!ControllerLaws} `{!ClockOk}.

Lemma safe_equiv_dir f g : g ≡ f -> is_dir f directory = true -> is_dir g directory = true.
Proof. intros Hg. by rewrite (is_dir_equiv _ _ _ Hg). Qed.

Lemma safe_applied f a : safe f -> s_applied f = Ok a -> applied_is f a.
Proof.
  intros Hs Ha. assert (tracked f) as Ht.
  { destruct Hs as [(_ & _ & [[? _]|(b & ? & _)])|(p & _ & _ & _ & _ & ?)]; [by left|right; by exists b|done]. }
  pose proof (tracked_applied f (safe_layout f Hs) Ht) as Hx. by rewrite Ha in Hx.
Qed.

Lemma safe_collected f g : safe f -> g = f \/ collected f g -> safe g.
Proof.
  intros Hs [->|Hc]; [done|]. destruct Hs as [Hs|[p Hp]]; [left; by eapply stable_collected|].
  right. exists p. by eapply prog_collected.
Qed.

Lemma is_dir_collected f g d : g = f \/ collected f g -> is_dir f d = true -> is_dir g d = true.
Proof. intros [->|(P & _ & Hp)]; [done|by eapply pruned_is_dir]. Qed.

Lemma safe_unapplied f e : safe f -> s_applied f = Err e -> f !! appliedPath = None.
Proof.
  intros Hs He. assert (f !! appliedPath = None \/ exists a, applied_is f a) as [Hn|(a & Ha)]; [|done|].
  { destruct Hs as [(_ & _ & [[? _]|(b & ? & _)])|(p & _ & _ & _ & _ & ?)]; [by left|right; by exists b|done]. }
  rewrite (holds_applied f a (safe_layout f Hs) Ha) in He. done.
Qed.

(** What a stable store has applied is sound. *)
Lemma stable_sound f a : stable f -> s_applied f = Ok a -> consistent f a /\ sound f a.
Proof.
  intros (Hl & _ & [[Hn _]|(b & Hb)]) Ha.
  - unfold s_applied in Ha. by rewrite (s_parsed_None _ _ f) in Ha.
  - pose proof Hb as (Hbi & _ & Hs). rewrite (holds_applied f b) in Ha by done.
    injection Ha as <-. done.
Qed.

(** ** A request that repeats the applied version *)

Lemma wp_confirmMismatch a p w0 f (Q : result unit -> world -> Prop) C w :
  since w0 f w -> prog p f -> ~ matches p a ->
  (forall w', ~ calm w0 -> onward w0 w f w' -> C w') ->
  (forall e w', onward w0 w f w' -> Q (Err e) w') ->
  wp (confirmApplied a) Q C w.
Proof.
  intros Hw Hp Hm HC HE. apply wp_bind, (s_reads _ _ w0 f _ _ _ reads_loadPending Hw).
  - intros w' Hc Hw'. split; [by apply HC|]. intros e He. rewrite He. by apply wp_ret, HE.
  - intros w' Hw'. rewrite (holds_pending f p) by (by eapply prog_layout || apply Hp).
    destruct (negb _ || _ || _) eqn:E; [by apply wp_ret, HE|]. exfalso. apply Hm.
    rewrite !orb_false_iff, !negb_false_iff, !bool_decide_eq_true in E. unfold matches. naive_solver.
Qed.

Lemma matches_dec p a : {matches p a} + {~ matches p a}.
Proof. unfold matches. apply (decide (_ /\ _)). Qed.

(** How admission answers. *)
Definition answered (r : Request) (res : result Result) (g : fs) : Prop :=
  match res with
  | Err _ => safe g
  | Ok x => exists a, x = resultFromApplied a /\ settled_on a g /\
              a_version a = rq_version r /\ a_digest a = rq_digest r
  end.

Lemma wp_confirmSame r a w0 f (Q : admission -> world -> Prop) C w :
  since w0 f w -> safe f -> is_dir f directory = true -> s_applied f = Ok a ->
  a_version a = rq_version r -> a_digest a = rq_digest r ->
  (forall g w', ~ calm w0 -> since w0 g w' -> safe g -> C w') ->
  (forall res g w', since w0 g w' -> answered r res g -> Q (Answer res) w') ->
  (forall w', since w0 f w' -> Q (Proceed true "" None) w') ->
  wp (confirmSame a) Q C w.
Proof.
  intros Hw Hs Hd Ha Hv Hdg HC HA HP. unfold confirmSame.
  apply wp_bind, (s_reads _ _ w0 f _ _ _ (reads_verifyApplied a) Hw).
  { intros w' Hc [Hw' _]. split; [by eapply HC|]. intros e _. by apply wp_ret, HP. }
  intros w1 [Hw1 _]. destruct (s_verifyApplied a f) as [[]|e] eqn:Ev; [|by apply wp_ret, HP].
  apply s_verifyApplied_ok in Ev as [Hcur Hsd].
  assert (consistent f a) as Hcons by (split; [by apply safe_applied|done]).
  assert (confirmable a f \/ exists p, prog p f /\ ~ matches p a) as Hconf.
  { destruct Hs as [?|[p Hp]]; [by left; left|].
    destruct (matches_dec p a); [left; right; by exists p|right; by exists p]. }
  apply wp_try. destruct Hconf as [Hconf|(p & Hp & Hm)].
  2:{ apply (wp_confirmMismatch a p w0 f); [done|done|done|..].
      - intros w' Hc [Hw' _]. by eapply HC.
      - intros e w' [Hw' _]. by eapply wp_ret, HA. }
  apply (wp_confirmApplied a w0 f); [done|done|done|done|..].
  { intros g w' Hc [Hg _] Hsg. split; [by eapply HC|]. intros e. by eapply wp_ret, HA. }
  intros g w2 [Hw2 _] Hset.
  apply wp_try, (s_prune w0 g); [done|apply Hset|..].
  - intros g' w' Hc [Hg' _] Hcol. eapply HC; [done|done|]. eapply safe_collected; [|done]. left. apply Hset.
  - intros e g' w' [Hg' _] Hcol. eapply wp_ret, HA; [done|]. eapply safe_collected; [|done]. left. apply Hset.
  - intros g' w' [Hg' _] Hcol. eapply wp_ret, HA; [done|]. exists a.
    split_and!; [done|..|done|done]; destruct Hcol as [->|?]; try apply Hset; by eapply (settled_collected a g).
Qed.

(** ** Admission *)

(** The applied version is not newer than the request. *)
Definition in_order (r : Request) (f : fs) : Prop :=
  forall a, s_applied f = Ok a -> (a_version a <= rq_version r)%N.

(** The request repeats the version that is applied. *)
Definition repeats (r : Request) (f : fs) : Prop :=
  exists a, s_applied f = Ok a /\ a_version a = rq_version r /\ a_digest a = rq_digest r.

(** What an apply that fails goes back to: nothing when nothing was applied, the
    version that was; or, when the applied version is installed again because it
    was damaged, what the previous link names. *)
Definition falls_back (r : Request) (f : fs) (pt : string) (pa : option AppliedState) : Prop :=
  (pt = "" /\ f !! appliedPath = None) \/
  (exists a, s_applied f = Ok a /\ pa = Some a /\ a_target a = pt) \/
  (repeats r f /\ (pt = "" /\ f !! previousPath = None \/ pt <> "" /\ f !! previousPath = Some (NLink pt))).

Definition if_ok {A} (res : result A) (P : Prop) : Prop :=
  match res with Ok _ => P | Err _ => True end.

Definition admitted (r : Request) (f : fs) (adm : admission) : Prop :=
  match adm with
  | Answer _ => False
  | Proceed false pt pa => falls_back r f pt pa /\ (stable f -> prior_ok f pt pa /\ guarded f pt)
  | Proceed true _ _ => repeats r f
  end.

Lemma wp_admitApplied r w0 f (Q : admission -> world -> Prop) C w :
  since w0 f w -> safe f -> is_dir f directory = true ->
  (forall g w', ~ calm w0 -> since w0 g w' -> safe g -> C w') ->
  (forall res g w', since w0 g w' -> answered r res g -> if_ok res (in_order r f) ->
     Q (Answer res) w') ->
  (forall adm w', since w0 f w' -> admitted r f adm -> in_order r f -> Q adm w') ->
  wp (admitApplied r) Q C w.
Proof.
  intros Hw Hs Hd HC HA HP. unfold admitApplied.
  apply wp_bind, (s_reads _ _ w0 f _ _ _ reads_loadApplied Hw).
  { intros w' Hc [Hw' _]. split; [by eapply HC|]. intros e He. rewrite He. by eapply wp_ret, HA. }
  intros w1 [Hw1 _]. destruct (s_applied f) as [a|e] eqn:Ea.
  - destruct (N.ltb_spec (rq_version r) (a_version a)) as [Hlt|Hle]; [by eapply wp_ret, HA|].
    assert (in_order r f) as Hord by (intros a' Ha'; rewrite Ea in Ha'; by injection Ha' as <-).
    destruct (N.eqb_spec (rq_version r) (a_version a)) as [Hv|Hne]; cbn [andb].
    + destruct (bool_decide_reflect (rq_digest r = a_digest a)) as [Hdg|]; cbn [negb]; [|by eapply wp_ret, HA].
      apply (wp_confirmSame r a w0 f); try done.
      * intros res g w' Hg Hans. eapply HA; [done|done|by destruct res].
      * intros w' Hw'. apply HP; [done|by exists a|done].
    + apply wp_try, (s_reads _ _ w0 f _ _ _ (reads_verify (a_target a) (a_digest a)) Hw1).
      { intros w' Hc [Hw' _]. split; [by eapply HC|]. intros e _. by eapply wp_ret, HA. }
      intros w2 [Hw2 _]. destruct (s_verify _ _ f) as [[]|e] eqn:Ev; [|by eapply wp_ret, HA].
      apply wp_ret, HP; [done| |done]. split; [right; left; by exists a|].
      intros Hst. destruct (safe_applied f a Hs Ea) as [Hh Haok].
      split; [|right; left; by exists a]. apply s_verify_ok in Ev as [Hvt _].
      right. split; [by intros E; rewrite E in Hvt|]. split; [apply Haok|].
      exists a. split; [done|]. split; [done|]. split; [|done]. by eapply stable_sound.
  - destruct (errorsIs e SNotExist) eqn:Ee; cbn [negb]; [|by eapply wp_ret, HA].
    apply wp_bind, (s_reads _ _ w0 f _ _ _ (reads_lstat currentPath) Hw1).
    { intros w' Hc [Hw' _]. split; [by eapply HC|]. intros e' He'. rewrite He'. by eapply wp_ret, HA. }
    intros w2 [Hw2 _]. destruct (fs_lstat f currentPath); [by eapply wp_ret, HA|].
    destruct (errorsIs e0 SNotExist); [|by eapply wp_ret, HA].
    apply wp_ret, HP; [done| |by intros a Ha; rewrite Ea in Ha].
    split; [left; split; [done|by eapply safe_unapplied]|]. intros _. split; by left.
Qed.

(** ** The rollback version of a repair *)

Lemma wp_repairTarget r w0 f (Q : result (string * option AppliedState) -> world -> Prop) C w :
  since w0 f w -> layout f -> repeats r f ->
  (forall w', ~ calm w0 -> since w0 f w' -> C w') ->
  (forall e w', since w0 f w' -> Q (Err e) w') ->
  (forall x w', since w0 f w' -> falls_back r f x.1 x.2 -> prior_ok f x.1 x.2 -> guarded f x.1 -> Q (Ok x) w') ->
  wp repairTarget Q C w.
Proof.
  intros Hw Hl Hrep HC HE HQ. unfold repairTarget.
  apply wp_bind, (s_reads _ _ w0 f _ _ _ (reads_link previousPath) Hw).
  { intros w' Hc [Hw' _]. split; [by eapply HC|]. intros e He. rewrite He. by eapply wp_ret, HE. }
  intros w1 [Hw1 _]. destruct (s_link previousPath f) as [t|e] eqn:El.
  2:{ destruct (errorsIs e SNotExist) eqn:Ee; [|by eapply wp_ret, HE]. apply wp_ret, HQ; [done| |by left|by left].
      right; right. split; [done|]. left. split; [done|by eapply s_link_NotExist]. }
  apply s_link_ok in El as [El Hvt]. destruct (lay_previous f Hl t El) as [Htext _].
  destruct (configTargetDigest t) as [d|e] eqn:Ed; [|by eapply wp_ret, HE].
  unfold configTargetDigest in Ed. apply rbind_Ok in Ed as ([v d'] & Hm & [= <-]). simpl.
  apply wp_try, (s_reads _ _ w0 f _ _ _ (reads_verify t d') Hw1).
  { intros w' Hc [Hw' _]. split; [by eapply HC|]. intros e _. by eapply wp_ret, HE. }
  intros w2 [Hw2 _]. destruct (s_verify t d' f) as [[]|e] eqn:Ev; [|by eapply wp_ret, HE].
  apply s_verify_ok in Ev as [_ Hgood].
  apply wp_try, (s_reads _ _ w0 f _ _ _ (reads_stateFor t) Hw2).
  { intros w' Hc [Hw' _]. split; [by eapply HC|]. intros e _. by eapply wp_ret, HE. }
  intros w3 [Hw3 _]. destruct (fallback_state f t v d' Hl Htext Hm Hgood) as (a & -> & Et & Hs & Hok).
  assert (t <> "") as Hne by (intros E; by rewrite E in Hvt).
  apply wp_ret, HQ; [done|by right; right; split; [|right]| |by right; right].
  right. split; [done|]. split; [done|]. by exists a.
Qed.

(** ** Ready to install *)

Lemma wp_checkPending w0 f (Q : result unit -> world -> Prop) C w :
  since w0 f w -> safe f ->
  (forall g w', ~ calm w0 -> since w0 g w' -> safe g -> C w') ->
  (forall e g w', since w0 g w' -> safe g -> Q (Err e) w') ->
  (forall g w', since w0 g w' -> stable f -> g = f \/ collected f g -> Q (Ok tt) w') ->
  wp checkPending Q C w.
Proof.
  intros Hw Hs HC HE HQ. apply wp_bind, (s_reads _ _ w0 f _ _ _ reads_loadPending Hw).
  { intros w' Hc [Hw' _]. split; [by eapply HC|]. intros e He. rewrite He. by eapply wp_ret, HE. }
  intros w1 [Hw1 _]. destruct Hs as [Hs|[p Hp]].
  2:{ rewrite (holds_pending f p) by (by eapply prog_layout || apply Hp).
      eapply wp_ret, HE; [done|by eapply prog_safe]. }
  unfold s_pending. rewrite (s_parsed_None _ _ f) by apply Hs. simpl.
  apply wp_try, (s_prune w0 f); [done|apply Hs|..].
  - intros g w' Hc [Hg _] Hcol. eapply HC; [done|done|]. eapply safe_collected; [|done]. by left.
  - intros e g w' [Hg _] Hcol. eapply wp_ret, HE; [done|]. eapply safe_collected; [|done]. by left.
  - intros g w' [Hg _] Hcol. by eapply wp_ret, HQ.
Qed.

Lemma wp_checkReady w0 f (Q : result unit -> world -> Prop) C w :
  since w0 f w -> safe f ->
  (forall g w', ~ calm w0 -> since w0 g w' -> safe g -> C w') ->
  (forall e g w', since w0 g w' -> safe g -> Q (Err e) w') ->
  (forall f' g w', since w0 g w' -> f' ≡ f -> stable f' -> g = f' \/ collected f' g -> Q (Ok tt) w') ->
  wp checkReady Q C w.
Proof.
  intros Hw Hs HC HE HQ. unfold checkReady.
  assert (forall f' w', since w0 f' w' -> f' ≡ f ->
    wp checkPending Q C w') as Hrest.
  { intros f' w' Hw' Hf. apply (wp_checkPending w0 f'); [done|by rewrite Hf|done|done|].
    intros g w'' Hg Hst Hcol. by eapply HQ. }
  apply wp_try. destruct Preflight as [c|] eqn:Ep; [|by apply wp_ret, (Hrest f)].
  apply (wp_Preflight c w0 f); [done|done|..].
  - intros g w' Hc Hg Hgf. eapply HC; [done|done|by rewrite Hgf].
  - intros [[]|e] g w' Hg Hgf; [by apply (Hrest g)|]. eapply wp_ret, HE; [done|by rewrite Hgf].
Qed.

(** ** Apply, the configuration validated *)

(** What an apply of [r] from the store [f] ends with. *)
Definition applied_outcome (r : Request) (f : fs) (res : result Result) (g : fs) (w : world) : Prop :=
  match res with
  | Err _ => safe g
  | Ok x =>
      (exists a, x = resultFromApplied a /\ settled_on a g /\
         a_version a = rq_version r /\ a_digest a = rq_digest r) \/
      (exists p failure code, x = failed_result p failure code RecoveryStatusRolledBack true /\
         p_version p = rq_version r /\ p_digest p = rq_digest r /\ falls_back r f (p_prev p) (p_prev_applied p) /\ stable g /\ restored p g w)
  end.

Lemma committed_outcome r f pt pa res g w : falls_back r f pt pa -> committed r pt pa res g w -> applied_outcome r f res g w.
Proof.
  intros Hf. destruct res as [x|e]; [|done]. simpl. intros (p & Hv & Hd & Ept & Epa & [(a & -> & Hs & Hm & _)|(fl & code & -> & Hs & Hr)]).
  - left. exists a. destruct Hm as (_ & Hmv & Hmd). split_and!; [done|apply Hs..|congruence|congruence].
  - right. exists p, fl, code. by rewrite Ept, Epa.
Qed.

Lemma answered_outcome r f res g w : answered r res g -> applied_outcome r f res g w.
Proof. destruct res; [by left|done]. Qed.

Lemma prior_equiv f g pt pa : g ≡ f -> prior_ok f pt pa -> prior_ok g pt pa.
Proof. intros Hg. apply prior_keep. intros _. by apply keeps_same, same_versions_equiv. Qed.

Lemma guarded_equiv f g pt : layout f -> g ≡ f -> guarded f pt -> guarded g pt.
Proof.
  intros Hl Hg [?|[(a & Ha & Et)|Hp]]; [by left|right; left|right; right].
  - exists a. split; [|done]. assert (no_link f appliedPath) as Hn by apply Hl.
    unfold s_applied in *. apply s_parsed_Ok in Ha; [|done].
    apply s_parsed_Ok; [intros t; by rewrite (Hg appliedPath eq_refl)|].
    by rewrite (Hg appliedPath eq_refl).
  - by rewrite (Hg previousPath eq_refl).
Qed.

(** From the version to fall back to. *)
Lemma wp_proceed r repair pt pa w0 f (Q : result Result -> world -> Prop) C w :
  since w0 f w -> safe f -> is_dir f directory = true -> request_ok r ->
  falls_back r f pt pa -> (stable f -> prior_ok f pt pa /\ guarded f pt) ->
  (forall g w', ~ calm w0 -> since w0 g w' -> safe g -> C w') ->
  (forall res g w', since w0 g w' -> applied_outcome r f res g w' -> Q res w') ->
  wp (try! _ := checkReady in commit r repair pt pa) Q C w.
Proof.
  intros Hw Hs Hd Hr Hfb Hprior HC HQ.
  apply wp_try, (wp_checkReady w0 f); [done|done|done|..].
  { intros e g w' Hg Hsg. by eapply wp_ret, HQ. }
  intros f' g w' Hg Hf Hst Hcol.
  assert (stable f) as Hstf by by rewrite <- Hf.
  destruct (Hprior Hstf) as [Hp1 Hp2].
  apply (prior_equiv f f') in Hp1; [|done]. apply (guarded_equiv f f') in Hp2; [|apply Hstf|done].
  apply (wp_commit r repair pt pa w0 g); try done.
  - destruct Hcol as [->|Hcol]; [done|exact (stable_collected _ _ Hst Hcol)].
  - eapply is_dir_collected; [done|]. by rewrite (is_dir_equiv _ _ _ Hf).
  - destruct Hcol as [->|Hcol]; [done|exact (prior_collected _ _ _ _ Hp2 Hcol Hp1)].
  - intros res g' w'' Hg' Hcm. eapply HQ; [done|by eapply committed_outcome].
Qed.

Lemma dir_step_previous f g : dir_step directory f g -> g !! previousPath = f !! previousPath.
Proof. intros [->|(m & t & ->)]; [done|by rewrite lookup_insert_ne]. Qed.

Lemma wp_ensureDirectory w0 f (Q : result unit -> world -> Prop) C w :
  since w0 f w -> safe f ->
  (forall g w', ~ calm w0 -> since w0 g w' -> safe g -> C w') ->
  (forall e g w', since w0 g w' -> safe g -> Q (Err e) w') ->
  (forall g w', since w0 g w' -> safe g -> is_dir g directory = true ->
     g !! appliedPath = f !! appliedPath -> g !! previousPath = f !! previousPath -> Q (Ok tt) w') ->
  wp ensureDirectory Q C w.
Proof.
  intros Hw Hs HC HE HQ. unfold ensureDirectory.
  assert (forall f g, safe f -> dir_step directory f g -> safe g) as Hmk.
  { intros f' g Hs' Hd. apply (safe_vstep f'); [done|by right; left]. }
  apply wp_try, (wp_MkdirAll _ _ w f); [by eapply since_after|done|apply (safe_layout f Hs)|done|..].
  { intros w' Hc Hw'. eapply HC; [exact (since_calm _ _ _ Hw Hc)|by eapply after_since|done]. }
  { intros e w' Hc Hw' _. eapply wp_ret, HE; [by eapply after_since|done]. }
  intros f1 w1 Hw1 Hst1 Hd1. assert (safe f1) as Hs1 by by eapply Hmk.
  apply wp_try, (wp_Chmod_dir _ _ w f1); [done|done|done|..].
  { intros w' Hc Hw'. eapply HC; [exact (since_calm _ _ _ Hw Hc)|by eapply after_since|done]. }
  { intros e w' Hc Hw' _. eapply wp_ret, HE; [by eapply after_since|done]. }
  intros f2 w2 Hw2 Hst2 Hd2. eapply wp_ret, HQ; [by eapply after_since|by eapply Hmk|done|..].
  - etrans; eapply (home_lookup directory); try done; by left.
  - etrans; by eapply dir_step_previous.
Qed.

Lemma same_applied f g : layout f -> g !! appliedPath = f !! appliedPath -> s_applied g = s_applied f.
Proof.
  intros [_ _ _ _ [Hn _] _] E. unfold s_applied, s_parsed, fs_readfile.
  destruct (f !! appliedPath) as [x|] eqn:Ef.
  - assert (forall t, x <> NLink t) as Hx by (intros t ->; by destruct (Hn t)).
    by rewrite !(follow_node _ _ _ x).
  - by rewrite !follow_none.
Qed.

Lemma falls_back_same r f g pt pa : layout f -> g !! appliedPath = f !! appliedPath -> g !! previousPath = f !! previousPath ->
  falls_back r g pt pa -> falls_back r f pt pa.
Proof. intros Hl Ea Ep. unfold falls_back, repeats. by rewrite (same_applied f g Hl Ea), Ea, Ep. Qed.

Lemma applied_outcome_same r f f1 res g w : layout f -> f1 !! appliedPath = f !! appliedPath -> f1 !! previousPath = f !! previousPath ->
  applied_outcome r f1 res g w -> applied_outcome r f res g w.
Proof.
  intros Hl Ea Ep. destruct res as [x|e]; [|done]. intros [?|(p & fl & c & K1 & K2 & K3 & K4 & K5)]; [by left|right].
  exists p, fl, c. split; [done|]. split; [done|]. split; [done|]. split; [by eapply falls_back_same|done].
Qed.

Lemma wp_applyValidated r w0 f (Q : result Result -> world -> Prop) C w :
  since w0 f w -> safe f -> request_ok r ->
  (forall g w', ~ calm w0 -> since w0 g w' -> safe g -> C w') ->
  (forall res g w', since w0 g w' -> applied_outcome r f res g w' -> if_ok res (in_order r f) ->
     Q res w') ->
  wp (applyValidated r) Q C w.
Proof.
  intros Hw Hs Hr HC HQ. unfold applyValidated.
  apply wp_try, (wp_ensureDirectory w0 f); [done|done|done|..].
  { intros e g w' Hg Hsg. by eapply wp_ret, HQ. }
  pose proof (safe_layout f Hs) as Hl. clear Hw Hs. intros f1 w1 Hw Hs Hd Ea Epv.
  assert (in_order r f1 -> in_order r f) as Hback.
  { intros Ho a Ha. apply Ho. by rewrite (same_applied f f1). }
  apply wp_bind, (wp_admitApplied r w0 f1); [done|done|done|done|..].
  { intros res g w' Hg Ha Ho. eapply wp_ret, HQ; [done|by apply answered_outcome|].
    destruct res; [by apply Hback|done]. }
  intros [ans|[] pt pa] w2 Hw2 Hadm Ho; simpl in Hadm; [done|..]; apply Hback in Ho;
    assert (forall res g w', since w0 g w' -> applied_outcome r f1 res g w' -> Q res w') as HQ'
      by (intros res g w' Hg Hout; eapply HQ; [done|by apply (applied_outcome_same r f f1)|by destruct res]).
  - apply wp_try, (wp_repairTarget r w0 f1); [done|by apply safe_layout|done|..].
    + intros w' Hc Hw'. by eapply HC.
    + intros e w' Hw'. by eapply wp_ret, HQ'.
    + intros [pt' pa'] w' Hw' Hfb Hp Hg. by apply (wp_proceed r _ _ _ w0 f1).
  - destruct Hadm as [Hfb Hprior]. apply wp_try, wp_ret. by apply (wp_proceed r _ _ _ w0 f1).
Qed.
End admission.
