(* ===== verification/XrayTheorems.v ===== *)
(** * What the Xray configuration runtime guarantees

    The agent as a transition system (applies, recoveries, restarts after a
    crash), the invariant along every run of it, recovery, and the outcomes of
    [Apply]. *)

From stdpp Require Import base gmap strings list fin_maps sorting relations.
From Stdlib Require Import ZArith NArith Ascii.
From S2P Require Import Prelude.
From S2P Require Import GoStrings.
From S2P Require Import Sha256.
From S2P Require Import Os.
From S2P Require Import AtomicFile.
From S2P Require Import XrayConfig.
From S2P Require Import XrayTypes.
From S2P Require Import XrayRuntime.
From S2P Require Import XraySteps.
From S2P Require Import XrayPrune.
From S2P Require Import XrayInv.
From S2P Require Import XrayRecover.
From S2P Require Import XrayApply.
From S2P Require Import XrayAdmit.

Section theorems.
Context `{Env} `{RU : !Runner} `{!RunnerLaws} `{CT : !Controller} `{!ControllerLaws} `{!ClockOk}.

(** ** Apply with its validation *)

Definition apply_outcome (r : Request) (f : fs) (res : result Result) (g : fs) (w : world) : Prop :=
  match res with
  | Err _ => safe g
  | Ok x => (exists v, x = validationFailed v /\ safe g) \/
            applied_outcome (normalize r) f res g w
  end.

Lemma vstep_applied f g : vstep f g -> g !! appliedPath = f !! appliedPath.
Proof.
  intros [Hg|[[->|(m & t & ->)]|(q & c & n & Hq & Hg)]].
  - by apply Hg.
  - done.
  - by rewrite lookup_insert_ne.
  - rewrite (Hg appliedPath eq_refl). rewrite lookup_insert_ne; [done|].
    set_unfold in Hq. by destruct Hq as [-> |[-> |[]]].
Qed.

Lemma vsteps_applied f g : rtc vstep f g -> g !! appliedPath = f !! appliedPath.
Proof. induction 1 as [|f g h Hs _ IH]; [done|]. by rewrite IH, (vstep_applied f g). Qed.

Lemma vstep_previous f g : vstep f g -> g !! previousPath = f !! previousPath.
Proof.
  intros [Hg|[[->|(m & t & ->)]|(q & c & n & Hq & Hg)]].
  - by apply Hg.
  - done.
  - by rewrite lookup_insert_ne.
  - rewrite (Hg previousPath eq_refl). rewrite lookup_insert_ne; [done|].
    set_unfold in Hq. by destruct Hq as [-> |[-> |[]]].
Qed.

Lemma vsteps_previous f g : rtc vstep f g -> g !! previousPath = f !! previousPath.
Proof. induction 1 as [|f g h Hs _ IH]; [done|]. by rewrite IH, (vstep_previous f g). Qed.

Lemma applied_target a : applied_ok a -> a_target a <> "".
Proof. intros (_ & _ & _ & (_ & _ & _ & _ & Ht)%applied_digest) E. by rewrite E in Ht. Qed.

Lemma decision_None m req f : decision m req f = None -> validateRequest (XrayConfig.normalize req) = Ok tt.
Proof.
  unfold decision. destruct (negb (Enabled m)); [done|].
  by destruct (validateRequest (XrayConfig.normalize req)) as [[]|].
Qed.

Lemma wp_Apply m r w0 f (Q : result Result -> world -> Prop) C w :
  since w0 f w -> safe f -> is_u64 (rq_version r) ->
  (forall g w', ~ calm w0 -> since w0 g w' -> safe g -> C w') ->
  (forall res g w', since w0 g w' -> apply_outcome r f res g w' ->
     (forall x, res = Ok x -> Success x = true -> in_order r f) -> Q res w') ->
  wp (Apply m r) Q C w.
Proof.
  intros Hw Hs Hu HC HQ. unfold Apply.
  destruct (Enabled m); cbn [negb]; [|by eapply wp_ret, HQ].
  set (req := validation_request (normalize r)).
  assert (forall v g w', since w0 g w' -> rtc vstep f g ->
    validateRequest (XrayConfig.normalize req) = Ok tt ->
    wp (if negb (XrayConfig.Success v) then ret (Ok (validationFailed v))
        else applyValidated (normalize r)) Q C w') as Hcont.
  { intros v g w' Hg Hsteps Hok. pose proof (safe_vsteps _ _ Hsteps Hs) as Hsg.
    destruct (XrayConfig.Success v); cbn [negb].
    - apply (wp_applyValidated (normalize r) w0 g); [done|done|by apply accepted_request|done|].
      intros res g' w'' Hg' Hout Hord. assert (g !! appliedPath = f !! appliedPath) as Hap by (by apply vsteps_applied).
      apply (applied_outcome_same _ f) in Hout; [|by apply safe_layout|done|by apply vsteps_previous].
      eapply HQ; [done|destruct res; [by right|done]|].
      intros x -> _ a Ha. apply Hord.
      by rewrite (same_applied f g (safe_layout f Hs) Hap).
    - eapply wp_ret, HQ; [done|left; by exists v|]. by intros x [= <-]. }
  assert (forall g, rtc vstep f g -> safe g) as Hsafe by (intros g Hg; by apply (safe_vsteps f g)).
  apply wp_try, (wp_Validate m req w f); [by eapply since_after|by apply layout_shape, safe_layout|..].
  - intros g w' Hc Hg Hsteps. eapply HC; [exact (since_calm _ _ _ Hw Hc)|by eapply after_since|auto].
  - intros e g w' Hc Hg Hsteps. eapply wp_ret, HQ; [by eapply after_since|by apply Hsafe|done].
  - intros [v|e] w' Hg Hdec.
    + apply decision_answer in Hdec as (Hok & _). apply (Hcont v f); [by eapply after_since|done|done].
    + eapply wp_ret, HQ; [by eapply after_since|done|done].
  - intros v g w' Hg Hsteps Hdec _ _. apply decision_None in Hdec.
    apply (Hcont v g); [by eapply after_since|done|done].
Qed.

(** ** The agent as a transition system *)

Inductive agent_step : world -> world -> Prop :=
  | step_apply m r w w' o : is_u64 (rq_version r) -> Apply m r w = (w', o) -> agent_step w w'
  | step_recover m w w' o : Enabled m = true -> Recover m w = (w', o) -> agent_step w w'
  | step_process x w : agent_step w (set_run x w).

Lemma wp_outcome {A} (m : io A) (P : world -> Prop) w w' o :
  wp m (fun _ => P) P w -> m w = (w', o) -> P w'.
Proof. unfold wp. intros Hwp E. rewrite E in Hwp. by destruct o. Qed.

Lemma apply_safe m r w w' o :
  safe (w_fs w) -> is_u64 (rq_version r) -> Apply m r w = (w', o) -> safe (w_fs w').
Proof.
  intros Hs Hu. apply (wp_outcome _ (fun w => safe (w_fs w))).
  apply (wp_Apply m r w (w_fs w)); [apply since_refl|done|done|..].
  - intros g w1 _ [Hg _] Hsg. by rewrite Hg.
  - intros res g w1 [Hg _] Hout _. rewrite Hg. destruct res as [x|e]; [|done].
    destruct Hout as [(v & _ & ?)|[(a & _ & [Hst _] & _)|(p & fl & c & _ & _ & _ & _ & Hst & _)]]; [done|by left..].
Qed.

Lemma recover_safe m w w' o :
  safe (w_fs w) -> Enabled m = true -> Recover m w = (w', o) -> safe (w_fs w').
Proof.
  intros Hs Hen. apply (wp_outcome _ (fun w => safe (w_fs w))).
  apply (wp_Recover m w (w_fs w)); [apply since_refl|done|done|..].
  - intros g w1 _ [Hg _] Hsg. by rewrite Hg.
  - intros e g w1 _ [Hg _] Hsg. by rewrite Hg.
  - intros g w1 [Hg _] Hst _. rewrite Hg. by left.
Qed.

Lemma agent_step_safe w w' : agent_step w w' -> safe (w_fs w) -> safe (w_fs w').
Proof. intros Hst Hs. destruct Hst; [by eapply apply_safe|by eapply recover_safe|done]. Qed.

Lemma agent_steps_safe w w' : rtc agent_step w w' -> safe (w_fs w) -> safe (w_fs w').
Proof. induction 1 as [|w1 w2 w3 Hst _ IH]; [done|]. intros Hs. by eapply IH, agent_step_safe. Qed.

(** C3: no failure of a system call and no crash, in any sequence of applies,
    recoveries and process deaths, takes the store out of the invariant: either
    nothing is pending and the applied state, the current link and the version
    file agree, or an apply is pending and the version it falls back to is
    intact. *)
Theorem agent_safe w w' :
  safe (w_fs w) -> rtc agent_step w w' -> safe (w_fs w').
Proof. intros Hs Hr. by apply (agent_steps_safe w w'). Qed.

(** From any safe store, once nothing fails. *)
Lemma recover_settles m w :
  safe (w_fs w) -> Enabled m = true -> calm w -> controller_live -> link_fresh w currentPath (w_fs w) ->
  exists w', Recover m w = (w', Done (Ok tt)) /\ stable (w_fs w') /\ (w_pc w <= w_pc w')%nat.
Proof.
  intros Hs Hen Hc Hlive Hfr.
  assert (wp (Recover m) (fun r w1 => r = Ok tt /\ stable (w_fs w1) /\ (w_pc w <= w_pc w1)%nat) (fun _ => False) w) as Hwp.
  { apply (wp_Recover m w (w_fs w)); [apply since_refl|done|done|..].
    - intros g w1 Hn. by destruct Hn.
    - intros e g w1 Hn. by destruct Hn.
    - intros g w1 [Hg Hpc] Hst _. by rewrite Hg. }
  unfold wp in Hwp. destruct (Recover m w) as [w' [r|]]; [|done]. destruct Hwp as (-> & Hst & Hpc). by exists w'.
Qed.

(** C4: whatever happened before, once nothing fails any more [Recover] returns
    without error and leaves a settled store with nothing pending. *)
Theorem agent_recovers m w w' :
  safe (w_fs w) -> rtc agent_step w w' ->
  Enabled m = true -> calm w' -> controller_live -> link_fresh w' currentPath (w_fs w') ->
  exists w'', Recover m w' = (w'', Done (Ok tt)) /\ stable (w_fs w'').
Proof.
  intros Hs Hr Hen Hc Hlive Hfr.
  destruct (recover_settles m w') as (w'' & E & Hst & _); [by apply (agent_steps_safe w w')|done..|]. by exists w''.
Qed.

(** C24: when [Recover] finishes a pending apply, either the applied state is the
    one the apply intended, or the previous version is applied and running
    (nothing at all, when there was none) and the failure is on record. *)
Theorem Recover_outcome m w w' p :
  safe (w_fs w) -> Enabled m = true -> s_pending (w_fs w) = Ok p ->
  Recover m w = (w', Done (Ok tt)) ->
  stable (w_fs w') /\
  ((exists a, consistent (w_fs w') a /\ matches p a) \/
   (restored p (w_fs w') w' /\
    failure_recorded p "unconfirmed Xray config was rolled back after agent restart"
      ErrorCodePreparationFailed (w_fs w'))).
Proof.
  intros Hs Hen Hp E.
  assert (wp (Recover m) (fun r w1 => r = Ok tt -> stable (w_fs w1) /\ recovered (w_fs w) (w_fs w1) w1)
            (fun _ => True) w) as Hwp.
  { apply (wp_Recover m w (w_fs w)); [apply since_refl|done|done|done|..].
    - intros e g w1 _ _ _. done.
    - intros g w1 [Hg _] Hst Hr _. by rewrite Hg. }
  unfold wp in Hwp. rewrite E in Hwp. destruct (Hwp eq_refl) as [Hst Hr]. split; [done|].
  unfold recovered in Hr. rewrite Hp in Hr.
  destruct Hr as [(a & [_ Hca] & Hm)|Hr]; [left; by exists a|by right].
Qed.

(** ** Outcomes of Apply *)

(** C10: an apply that reports success leaves the requested version applied: the
    applied state carries the version and the SHA-256 of the configuration
    received, the current link names its file, the file's content has that
    digest, nothing is pending, and the version is not older than what was
    applied before. *)
Theorem Apply_success m r w w' x :
  safe (w_fs w) -> is_u64 (rq_version r) ->
  Apply m r w = (w', Done (Ok x)) -> Success x = true ->
  stable (w_fs w') /\
  (exists a, x = resultFromApplied a /\ consistent (w_fs w') a /\ a_version a = rq_version r /\
     a_digest a = ToLower (TrimSpace (rq_digest r))) /\
  (forall a0, s_applied (w_fs w) = Ok a0 -> (a_version a0 <= rq_version r)%N).
Proof.
  intros Hs Hu E Hsucc.
  assert (wp (Apply m r) (fun res w1 => apply_outcome r (w_fs w) res (w_fs w1) w1 /\
      (forall x, res = Ok x -> Success x = true -> in_order r (w_fs w))) (fun _ => True) w) as Hwp.
  { apply (wp_Apply m r w (w_fs w)); [apply since_refl|done|done|done|].
    intros res g w1 [Hg _] Hout Ho. by rewrite Hg. }
  unfold wp in Hwp. rewrite E in Hwp. destruct Hwp as [Hout Ho].
  specialize (Ho x eq_refl Hsucc).
  destruct Hout as [(v & -> & _)|[(a & -> & [Hst Hc] & Hv & Hd)|(p & fl & c & -> & _)]]; [done| |done].
  split; [done|]. split; [|done]. by exists a.
Qed.

(** C11: an apply that reports a rollback leaves nothing pending and exactly the
    state that was applied before it, its file intact, its link current and Xray
    running it; or, when nothing was applied before, nothing applied, no current
    link and no Xray running. Only an apply that repeats the applied version, to
    repair it, goes back to the version the previous link names instead, and to
    nothing when there is no such link. *)
Theorem Apply_rolled_back m r w w' x :
  safe (w_fs w) -> is_u64 (rq_version r) ->
  Apply m r w = (w', Done (Ok x)) -> r_rolled x = true ->
  stable (w_fs w') /\ r_version x = rq_version r /\ r_status x = StatusApplyFailed /\
  ((w_fs w' !! appliedPath = None /\ w_fs w' !! currentPath = None /\ w_run w' = None /\
      (w_fs w !! appliedPath = None \/ repeats (normalize r) (w_fs w) /\ w_fs w !! previousPath = None)) \/
   exists a, consistent (w_fs w') a /\ runs a w' /\
     (applied_is (w_fs w) a \/ repeats (normalize r) (w_fs w) /\ w_fs w !! previousPath = Some (NLink (a_target a)))).
Proof.
  intros Hs Hu E Hroll.
  assert (wp (Apply m r) (fun res w1 => apply_outcome r (w_fs w) res (w_fs w1) w1) (fun _ => True) w) as Hwp.
  { apply (wp_Apply m r w (w_fs w)); [apply since_refl|done|done|done|].
    intros res g w1 [Hg _] Hout Ho. by rewrite Hg. }
  unfold wp in Hwp. rewrite E in Hwp.
  destruct Hwp as [(v & -> & _)|[(a & -> & _)|(p & fl & c & -> & Hv & Hd & Hfb & Hst & Hr)]]; [done|done|].
  split; [done|]. split; [done|]. split; [done|].
  destruct Hr as [(Ep & Ha & Hc & Hn)|(Ep & a & Hca & Et & Heq & Hrun)], Hfb as [[Eq Hf]|[(a0 & Ha0 & Epa & Et0)|[Hrep Hlink]]].
  - left. split_and!; try done. by left.
  - destruct (safe_applied _ _ Hs Ha0) as [_ Hok]. by destruct (applied_target _ Hok); rewrite Et0.
  - left. split_and!; try done. right. split; [done|]. by destruct Hlink as [[_ ?]|[? _]].
  - done.
  - right. exists a. split; [done|]. split; [done|]. left. rewrite (Heq a0 Epa). by apply safe_applied.
  - right. exists a. split; [done|]. split; [done|]. right. split; [done|]. rewrite Et. by destruct Hlink as [[? _]|[_ ?]].
Qed.
End theorems.

(** ** Witnesses: a fresh store, a controller that starts what is current *)

Definition ex_controller : Controller := {|
  RestartAndWait := fun w => (set_run (match w_fs w !! currentPath with
    | Some (NLink t) => Some (Proc t "/usr/bin/xray") | _ => None end) w, Done (Ok tt));
  StopAndWait := fun w => (set_run None w, Done (Ok tt));
  Preflight := None
|}.

Lemma ctl_step_run x w : ctl_step w (set_run x w).
Proof. by split. Qed.

Lemma ex_controller_laws (E : Env) : ControllerLaws (H := E) (H0 := ex_controller).
Proof.
  split; simpl.
  - intros w. split; [apply ctl_step_run|]. intros t E'. simpl. rewrite E'. by eexists.
  - intros w. split; [apply ctl_step_run|done].
  - done.
Qed.

Lemma ex_safe : safe (w_fs ex_world).
Proof.
  left. split; [|by split; [vm_compute|left; split; vm_compute]].
  split.
  - by vm_compute.
  - by vm_compute.
  - rewrite Forall_forall. intros p Hp. unfold plain_file.
    assert (w_fs ex_world !! p = None) as ->; [|done].
    set_unfold in Hp. unfold files in Hp. set_unfold in Hp. naive_solver.
  - intros n _. simpl. unfold version_path, versionsDirectory. by rewrite lookup_insert_ne.
  - split; intros t; vm_compute; discriminate.
  - intros t. vm_compute. discriminate.
Qed.

Definition ex_request (n : N) : Request := MkRequest n (sha256_hex ex_config) ex_config.

Definition ex_apply (E : Env) (C : Controller) (n : N) (w : world) : world * outcome (result XrayTypes.Result) :=
  @Apply E ok_runner C ex_manager (ex_request n) w.

(** Killed after the switch of the current link. *)
Definition ex_crashed : world := (ex_apply (crash_env 56) ex_controller 7 ex_world).1.

Definition ex_recovered : world :=
  (@Recover (crash_env 56) ex_controller ex_manager ex_crashed).1.

Definition no_stale_link (path : string) (f : fs) : bool :=
  forallb (fun kv => negb (HasPrefix kv.1 (path +:+ ".tmp-"))) (map_to_list f).

Lemma no_stale_link_fresh `{Env} w path f : no_stale_link path f = true -> link_fresh w path f.
Proof.
  intros Hf n _. destruct (f !! _) as [x|] eqn:E; [|done].
  apply elem_of_map_to_list in E. unfold no_stale_link in Hf. rewrite forallb_forall in Hf.
  specialize (Hf _ (proj1 (list_elem_of_In _ _) E)). simpl in Hf.
  by rewrite <- sapp_assoc, HasPrefix_app in Hf.
Qed.

Lemma ex_crashed_steps :
  rtc (agent_step (H := crash_env 56) (RU := ok_runner) (CT := ex_controller)) ex_world ex_crashed.
Proof.
  eapply rtc_once, (step_apply ex_manager (ex_request 7)); [done|].
  unfold ex_crashed, ex_apply. apply surjective_pairing.
Qed.

Lemma agent_safe_witness : safe (w_fs ex_recovered).
Proof.
  apply (@agent_safe (crash_env 56) ok_runner (ok_runner_laws _) ex_controller
    (ex_controller_laws _) calm_env_clock ex_world); [exact ex_safe|].
  eapply rtc_r; [exact ex_crashed_steps|].
  eapply (step_recover ex_manager); [done|]. apply surjective_pairing.
Defined.

Lemma agent_recovers_witness :
  is_Some (w_fs ex_crashed !! pendingPath) /\
  exists w, @Recover (crash_env 56) ex_controller ex_manager ex_crashed
    = (w, Done (Ok tt)) /\ stable (w_fs w).
Proof.
  split; [vm_compute; by eexists|].
  apply (@agent_recovers (crash_env 56) ok_runner (ok_runner_laws _) ex_controller
    (ex_controller_laws _) calm_env_clock ex_manager ex_world).
  - exact ex_safe.
  - exact ex_crashed_steps.
  - done.
  - intros n Hn. assert (w_pc ex_crashed = 57%nat) as E by (vm_compute; reflexivity).
    rewrite E in Hn. unfold fault_at, crash_env. by destruct (Nat.eqb_spec n 56); [lia|].
  - intros w _. split; by eexists.
  - apply no_stale_link_fresh. vm_compute. reflexivity.
Defined.

Lemma ex_crashed_safe : safe (w_fs ex_crashed).
Proof.
  apply (@agent_steps_safe (crash_env 56) ok_runner (ok_runner_laws _) ex_controller
    (ex_controller_laws _) calm_env_clock ex_world); [exact ex_crashed_steps|exact ex_safe].
Qed.

Definition ex_target : string :=
  Eval vm_compute in version_target 7 (sha256_hex ex_config).

Definition ex_digest : string := Eval vm_compute in sha256_hex ex_config.

Definition ex_pending : pendingState :=
  MkPending ex_target "" None 7 ex_digest 1700000000.

Lemma Recover_outcome_witness :
  s_pending (w_fs ex_crashed) = Ok ex_pending /\ stable (w_fs ex_recovered) /\
  ((exists a, consistent (w_fs ex_recovered) a /\ matches ex_pending a) \/
   (restored ex_pending (w_fs ex_recovered) ex_recovered /\
    failure_recorded ex_pending "unconfirmed Xray config was rolled back after agent restart"
      ErrorCodePreparationFailed (w_fs ex_recovered))).
Proof.
  assert (s_pending (w_fs ex_crashed) = Ok ex_pending) as Hp by (vm_compute; reflexivity).
  assert (@Recover (crash_env 56) ex_controller ex_manager ex_crashed
    = (ex_recovered, Done (Ok tt))) as Hr.
  { unfold ex_recovered. apply run_done. vm_compute. reflexivity. }
  split; [exact Hp|].
  exact (@Recover_outcome (crash_env 56) ex_controller (ex_controller_laws _) calm_env_clock
    ex_manager ex_crashed ex_recovered ex_pending ex_crashed_safe eq_refl Hp Hr).
Defined.

Definition ex_applied : world := (ex_apply calm_env ex_controller 7 ex_world).1.
Definition ex_result : XrayTypes.Result :=
  resultFromApplied (MkApplied 7 ex_digest ex_target 1700000000).

Lemma Apply_success_witness :
  stable (w_fs ex_applied) /\
  (exists a, ex_result = resultFromApplied a /\ consistent (w_fs ex_applied) a /\
     a_version a = 7%N /\ a_digest a = ToLower (TrimSpace (sha256_hex ex_config))) /\
  (forall a0, s_applied (w_fs ex_world) = Ok a0 -> (a_version a0 <= 7)%N).
Proof.
  assert (ex_apply calm_env ex_controller 7 ex_world = (ex_applied, Done (Ok ex_result))) as E.
  { unfold ex_applied. apply run_done. vm_compute. reflexivity. }
  exact (@Apply_success calm_env ok_runner (ok_runner_laws _) ex_controller
    (ex_controller_laws _) calm_env_clock ex_manager (ex_request 7) ex_world ex_applied ex_result
    ex_safe eq_refl E eq_refl).
Defined.

(** Version 8 of the same configuration, which Xray refuses to run after 7. *)
Definition picky_controller : Controller := {|
  RestartAndWait := fun w => match w_fs w !! currentPath with
    | Some (NLink t) => if bool_decide (t = ex_target) then (set_run (Some (Proc t "/usr/bin/xray")) w, Done (Ok tt))
                        else (set_run None w, Done (Err (errorsNew "exit status 23")))
    | _ => (set_run None w, Done (Ok tt)) end;
  StopAndWait := fun w => (set_run None w, Done (Ok tt));
  Preflight := None
|}.

Lemma picky_controller_laws (E : Env) : ControllerLaws (H := E) (H0 := picky_controller).
Proof.
  split; simpl.
  - intros w. destruct (w_fs w !! currentPath) as [[| |t]|] eqn:El; try (split; [apply ctl_step_run|intros t; by rewrite El]).
    case_bool_decide; [|apply ctl_step_run]. split; [apply ctl_step_run|]. intros t' [= <-]%(eq_trans (eq_sym El)). by eexists.
  - intros w. split; [apply ctl_step_run|done].
  - done.
Qed.

Definition ex_served : world := Eval vm_compute in (ex_apply calm_env picky_controller 7 ex_world).1.
Definition ex_returned : world := Eval vm_compute in (ex_apply calm_env picky_controller 8 ex_served).1.
Definition ex_return : XrayTypes.Result := Eval vm_compute in
  match (ex_apply calm_env picky_controller 8 ex_served).2 with Done (Ok x) => x | _ => ex_result end.

Lemma ex_served_run : @Apply calm_env ok_runner picky_controller ex_manager (ex_request 7) ex_world = (ex_served, Done (Ok ex_result)).
Proof. by_evaluation. Qed.

Lemma ex_returned_run : @Apply calm_env ok_runner picky_controller ex_manager (ex_request 8) ex_served = (ex_returned, Done (Ok ex_return)).
Proof. by_evaluation. Qed.

Lemma ex_served_safe : safe (w_fs ex_served).
Proof.
  exact (@apply_safe calm_env ok_runner (ok_runner_laws _) picky_controller (picky_controller_laws _) calm_env_clock
    ex_manager (ex_request 7) ex_world ex_served _ ex_safe eq_refl ex_served_run).
Qed.

Lemma Apply_rolled_back_witness :
  stable (w_fs ex_returned) /\ r_version ex_return = 8%N /\ r_status ex_return = StatusApplyFailed /\
  exists a, consistent (w_fs ex_returned) a /\ runs a ex_returned /\ applied_is (w_fs ex_served) a.
Proof.
  destruct (@Apply_rolled_back calm_env ok_runner (ok_runner_laws _) picky_controller
    (picky_controller_laws _) calm_env_clock ex_manager (ex_request 8) ex_served ex_returned ex_return
    ex_served_safe eq_refl ex_returned_run eq_refl) as (Hst & Hv & Hs & Hd).
  split; [exact Hst|]. split; [exact Hv|]. split; [exact Hs|].
  assert (w_run ex_returned <> None) as Hrun by (vm_compute; discriminate).
  assert (~ repeats (normalize (ex_request 8)) (w_fs ex_served)) as Hno.
  { intros (a & Ha & Hver & _). vm_compute in Ha. injection Ha as <-. vm_compute in Hver. discriminate. }
  destruct Hd as [(_ & _ & Hn & _)|(a & Hc & Hr & [Ha|[Hrep _]])]; [by destruct Hrun| |by destruct Hno].
  exists a. split; [exact Hc|]. split; [exact Hr|exact Ha].
Defined.
