(* ===== verification/Bolt.v ===== *)
(** * The key-value store under the event spool (go.etcd.io/bbolt)

    bbolt is a library the sources only call: [Bolt] is its interface as
    internal/eventspool uses it (transactions, buckets, cursors), [BoltLaws] the
    documented behaviour the spool relies on, [mem_bolt] an instance in memory
    that satisfies the laws.  A transaction whose function returns an error, and
    one whose commit fails, is rolled back; a bucket is a finite map whose keys a
    cursor visits in byte order; a cursor stands on a key, and Next moves to the
    least greater one, also after the key was deleted (bbolt 1.4). *)

From stdpp Require Import base gmap strings list fin_maps sorting.
From Stdlib Require Import ZArith NArith Ascii.
From S2P Require Import Prelude.
From S2P Require Import GoStrings.

(** ** The interface *)

Class Bolt : Type := {
  DB : Type;
  Tx : Type;
  Begin : DB -> Tx;
  Commit : DB -> Tx -> DB * result unit;
  CreateBucketIfNotExists : string -> Tx -> Tx * result unit;
  Get : string -> string -> Tx -> string;
  Put : string -> string -> string -> Tx -> Tx * result unit;
  Delete : string -> string -> Tx -> Tx * result unit;
  First : string -> Tx -> option (string * string);
  Next : string -> string -> Tx -> option (string * string);
  CursorDelete : string -> string -> Tx -> Tx * result unit
}.

(** A function run inside a transaction. *)
Definition txm `{Bolt} (A : Type) : Type := Tx -> Tx * result A.

Definition tret `{Bolt} {A} (a : A) : txm A := fun tx => (tx, Ok a).
Definition terr `{Bolt} {A} (e : error) : txm A := fun tx => (tx, Err e).
Definition tbind `{Bolt} {A B} (m : txm A) (k : A -> txm B) : txm B := fun tx =>
  match m tx with
  | (tx', Ok a) => k a tx'
  | (tx', Err e) => (tx', Err e)
  end.
Definition tget `{Bolt} (b k : string) : txm string := fun tx => (tx, Ok (Get b k tx)).

Notation "'let$' x ':=' m 'in' k" := (tbind m (fun x => k))
  (at level 200, x pattern, m at level 100, k at level 200) : go_scope.

(** db.Update and db.View *)
Definition Update `{Bolt} {A} (fn : txm A) (db : DB) : DB * result A :=
  match fn (Begin db) with
  | (tx, Ok a) => match Commit db tx with
                  | (db', Ok _) => (db', Ok a)
                  | (db', Err e) => (db', Err e)
                  end
  | (_, Err e) => (db, Err e)
  end.

Definition View `{Bolt} {A} (fn : txm A) (db : DB) : result A := (fn (Begin db)).2.

(** Lookups of distinct constant keys. *)
Ltac map_at := repeat (rewrite lookup_insert_eq || rewrite lookup_insert_ne by done).

(** ** Byte order *)

Definition slt (a b : string) : bool :=
  match String.compare a b with Lt => true | _ => false end.

(** The entries of a bucket in the order a cursor visits them. *)
Definition keys (m : gmap string string) : list string :=
  merge_sort String.le (elements (dom m)).
Definition entries (m : gmap string string) : list (string * string) :=
  (fun k => (k, default "" (m !! k))) <$> keys m.

Definition after_key (k : string) (l : list (string * string)) : option (string * string) :=
  head (filter (fun kv => slt k kv.1 = true) l).

(** ** The laws *)

Class BoltLaws `{Bolt} : Type := {
  contents : Tx -> gmap string (gmap string string);
  commit_law db tx :
    match Commit db tx with
    | (db', Ok _) => contents (Begin db') = contents tx
    | (db', Err _) => contents (Begin db') = contents (Begin db)
    end;
  create_law b tx :
    match CreateBucketIfNotExists b tx with
    | (tx', Ok _) => contents tx' = match contents tx !! b with
                                    | Some _ => contents tx
                                    | None => <[b := ∅]> (contents tx)
                                    end
    | (_, Err _) => True
    end;
  get_law b k tx m : contents tx !! b = Some m -> Get b k tx = default "" (m !! k);
  put_law b k v tx m : contents tx !! b = Some m ->
    match Put b k v tx with
    | (tx', Ok _) => contents tx' = <[b := <[k := v]> m]> (contents tx)
    | (_, Err _) => True
    end;
  delete_law b k tx m : contents tx !! b = Some m ->
    match Delete b k tx with
    | (tx', Ok _) => contents tx' = <[b := delete k m]> (contents tx)
    | (_, Err _) => True
    end;
  first_law b tx m : contents tx !! b = Some m -> First b tx = head (entries m);
  next_law b k tx m : contents tx !! b = Some m -> Next b k tx = after_key k (entries m);
  cursor_delete_law b k tx m : contents tx !! b = Some m ->
    match CursorDelete b k tx with
    | (tx', Ok _) => contents tx' = <[b := delete k m]> (contents tx)
    | (_, Err _) => True
    end
}.

(** What the database holds between transactions. *)
Definition stored `{BoltLaws} (db : DB) : gmap string (gmap string string) := contents (Begin db).

(** No call fails: a non-empty key, an existing bucket, a healthy disk. *)
Class BoltLive `{BoltLaws} : Prop := {
  commit_live db tx : exists db', Commit db tx = (db', Ok tt);
  put_live b k v tx m : contents tx !! b = Some m -> k <> "" -> exists tx', Put b k v tx = (tx', Ok tt);
  delete_live b k tx m : contents tx !! b = Some m -> exists tx', Delete b k tx = (tx', Ok tt);
  cursor_delete_live b k tx m : contents tx !! b = Some m ->
    exists tx', CursorDelete b k tx = (tx', Ok tt)
}.

(** ** The rules of a transaction *)

Section rules.
Context `{BL : BoltLaws}.

(** [m] run on [tx] ends in [Q] with a value, in [E] with an error. *)
Definition twp {A} (m : txm A) (Q : A -> Tx -> Prop) (E : error -> Prop) (tx : Tx) : Prop :=
match m tx with
| (tx', Ok a) => Q a tx'
| (_, Err e) => E e
end.

Lemma twp_ret {A} (a : A) (Q : A -> Tx -> Prop) E tx : Q a tx -> twp (tret a) Q E tx.
Proof. done. Qed.

Lemma twp_err {A} e (Q : A -> Tx -> Prop) (E : error -> Prop) tx : E e -> twp (terr e) Q E tx.
Proof. done. Qed.

Lemma twp_bind {A B} (m : txm A) (k : A -> txm B) Q E tx :
  twp m (fun a => twp (k a) Q E) E tx -> twp (tbind m k) Q E tx.
Proof. unfold twp, tbind. by destruct (m tx) as [tx' [a|e]]. Qed.

Lemma twp_create b C (Q : unit -> Tx -> Prop) (E : error -> Prop) tx :
  contents tx = C -> (forall e, E e) ->
  (forall tx', contents tx' = match C !! b with Some _ => C | None => <[b := ∅]> C end -> Q tt tx') ->
  twp (CreateBucketIfNotExists b) Q E tx.
Proof.
  intros <- HE HQ. unfold twp. pose proof (create_law b tx) as Hl.
  destruct (CreateBucketIfNotExists b tx) as [tx' [[]|e]]; [by apply HQ|done].
Qed.

Lemma twp_get b k C m (Q : string -> Tx -> Prop) E tx :
  contents tx = C -> C !! b = Some m -> Q (default "" (m !! k)) tx -> twp (tget b k) Q E tx.
Proof. intros <- Hm HQ. unfold twp, tget. by rewrite (get_law b k tx m Hm). Qed.

Lemma twp_put b k v C m (Q : unit -> Tx -> Prop) (E : error -> Prop) tx :
  contents tx = C -> C !! b = Some m ->
  (forall e, (BoltLive -> k = "") -> E e) ->
  (forall tx', contents tx' = <[b := <[k := v]> m]> C -> Q tt tx') ->
  twp (Put b k v) Q E tx.
Proof.
  intros <- Hm HE HQ. unfold twp. pose proof (put_law b k v tx m Hm) as Hl.
  destruct (Put b k v tx) as [tx' [[]|e]] eqn:Ep; [by apply HQ|]. apply HE. intros Hlive.
  destruct (decide (k = "")) as [|Hk]; [done|].
  destruct (put_live b k v tx m Hm Hk) as [tx'' E']. congruence.
Qed.

Lemma twp_delete b k C m (Q : unit -> Tx -> Prop) (E : error -> Prop) tx :
  contents tx = C -> C !! b = Some m ->
  (forall e, ~ BoltLive -> E e) ->
  (forall tx', contents tx' = <[b := delete k m]> C -> Q tt tx') ->
  twp (Delete b k) Q E tx.
Proof.
  intros <- Hm HE HQ. unfold twp. pose proof (delete_law b k tx m Hm) as Hl.
  destruct (Delete b k tx) as [tx' [[]|e]] eqn:Ep; [by apply HQ|]. apply HE. intros Hlive.
  destruct (delete_live b k tx m Hm) as [tx'' E']. congruence.
Qed.

Lemma twp_cursor_delete b k C m (Q : unit -> Tx -> Prop) (E : error -> Prop) tx :
  contents tx = C -> C !! b = Some m ->
  (forall e, ~ BoltLive -> E e) ->
  (forall tx', contents tx' = <[b := delete k m]> C -> Q tt tx') ->
  twp (CursorDelete b k) Q E tx.
Proof.
  intros <- Hm HE HQ. unfold twp. pose proof (cursor_delete_law b k tx m Hm) as Hl.
  destruct (CursorDelete b k tx) as [tx' [[]|e]] eqn:Ep; [by apply HQ|]. apply HE. intros Hlive.
  destruct (cursor_delete_live b k tx m Hm) as [tx'' E']. congruence.
Qed.

(** A transaction: [Q] holds of its value and of what is stored when it
    succeeds, and nothing is changed when it does not. *)
Lemma update_rule {A} (fn : txm A) db (Q : A -> gmap string (gmap string string) -> Prop)
    (E : error -> Prop) :
  (forall e, ~ BoltLive -> E e) ->
  twp fn (fun a tx => Q a (contents tx)) E (Begin db) ->
  match Update fn db with
  | (db', Ok a) => Q a (stored db')
  | (db', Err e) => stored db' = stored db /\ E e
  end.
Proof.
  intros HE Hfn. unfold twp in Hfn. unfold Update, stored.
  destruct (fn (Begin db)) as [tx [a|e]]; [|done].
  pose proof (commit_law db tx) as Hc. destruct (Commit db tx) as [db' [[]|e]] eqn:Ec.
  - by rewrite Hc.
  - split; [done|]. apply HE. intros Hl. destruct (commit_live db tx) as [db'' E']. congruence.
Qed.

Lemma update_keeps {A} (fn : txm A) db (Q : A -> gmap string (gmap string string) -> Prop) :
  twp fn (fun a tx => Q a (contents tx)) (fun _ => True) (Begin db) ->
  match Update fn db with
  | (db', Ok a) => Q a (stored db')
  | (db', Err e) => stored db' = stored db
  end.
Proof.
  intros Hfn. pose proof (update_rule fn db Q (fun _ => True) (fun _ _ => I) Hfn) as Hu.
  destruct (Update fn db) as [db' [a|e]]; [done|apply Hu].
Qed.

Lemma view_rule {A} (fn : txm A) db (Q : A -> Prop) (E : error -> Prop) :
  twp fn (fun a _ => Q a) E (Begin db) ->
  match View fn db with Ok a => Q a | Err e => E e end.
Proof. unfold twp, View. by destruct (fn (Begin db)) as [tx [a|e]]. Qed.
End rules.

(** ** Sorted entries *)

Lemma slt_le a b : slt a b = true <-> String.le a b /\ a <> b.
Proof.
  unfold slt, String.le, String.leb.
  destruct (String.compare a b) eqn:E; split; try done.
  - intros [_ Hn]. by apply String.compare_eq_iff in E.
  - intros _. split; [done|]. intros ->.
    pose proof (String.compare_antisym b b) as Ha. rewrite E in Ha. done.
  - by intros [? _].
Qed.

Lemma slt_trans a b c : slt a b = true -> slt b c = true -> slt a c = true.
Proof.
  rewrite !slt_le. intros [H1 N1] [H2 N2]. split; [by etrans|].
  intros ->. apply N1. by apply (anti_symm String.le).
Qed.

Lemma slt_asym a b : slt a b = true -> slt b a = false.
Proof.
  rewrite slt_le. intros [H1 N1]. apply not_true_is_false. rewrite slt_le. intros [H2 _].
  apply N1. by apply (anti_symm String.le).
Qed.

Definition ascending (l : list (string * string)) : Prop :=
  StronglySorted (fun a b => slt a.1 b.1 = true) l.

Lemma ascending_keys l : ascending l -> NoDup l.*1 /\ StronglySorted String.le l.*1.
Proof.
  induction 1 as [|x l Hl [IHn IHs] Hx]; simpl; [by repeat constructor|].
  rewrite Forall_forall in Hx. split; constructor; try done.
  - intros (y & E & Hy)%list_elem_of_fmap. specialize (Hx y Hy). rewrite slt_le, E in Hx. by destruct Hx.
  - rewrite Forall_forall. intros k (y & -> & Hy)%list_elem_of_fmap.
    specialize (Hx y Hy). rewrite slt_le in Hx. apply Hx.
Qed.

Lemma entries_ascending l : ascending l -> entries (list_to_map l) = l.
Proof.
  intros Hl. destruct (ascending_keys l Hl) as [Hnd Hs].
  assert (keys (list_to_map l) = l.*1) as Hk.
  { unfold keys. apply (Sorted_unique String.le).
    - apply Sorted_merge_sort. apply _.
    - by apply StronglySorted_Sorted.
    - unfold keys. rewrite (merge_sort_Permutation String.le). apply NoDup_Permutation; [apply NoDup_elements|done|].
      intros k. by rewrite elem_of_elements, dom_list_to_map, elem_of_list_to_set. }
  unfold entries. rewrite Hk, <- list_fmap_compose.
  rewrite <- (list_fmap_id l) at 2. apply list_fmap_ext. intros i [k v] Hi. unfold compose. simpl.
  apply list_elem_of_lookup_2, (elem_of_list_to_map_1 (M := gmap string) l k v Hnd) in Hi. by rewrite Hi.
Qed.

Lemma after_key_all k l : Forall (fun kv => slt k kv.1 = true) l -> after_key k l = head l.
Proof.
  intros Hl. unfold after_key. f_equal. induction Hl as [|x l Hx _ IH]; [done|].
  by rewrite filter_cons_True, IH.
Qed.

Lemma after_key_app l1 x l2 : ascending (l1 ++ x :: l2) -> after_key x.1 (l1 ++ x :: l2) = head l2.
Proof.
  unfold after_key. rewrite filter_app, filter_cons_False by (rewrite slt_le; naive_solver).
  intros Hl. replace (filter _ l1) with (@nil (string * string)).
  - simpl. apply after_key_all. apply StronglySorted_app in Hl as (_ & _ & Hl).
    by apply StronglySorted_cons in Hl as [? _].
  - symmetry. apply StronglySorted_app in Hl as (Hlt & _ & _).
    induction l1 as [|y l1 IH]; [done|]. rewrite filter_cons_False.
    + apply IH. intros a b Ha. apply Hlt. set_solver.
    + rewrite (slt_asym y.1 x.1); [done|]. apply Hlt; set_solver.
Qed.

(** ** An instance in memory *)

Definition mem_put (b k v : string) (tx : gmap string (gmap string string)) :
    gmap string (gmap string string) * result unit :=
  match tx !! b with
  | Some m => if bool_decide (k = "") then (tx, Err (errorsNew "key required"))
              else (<[b := <[k := v]> m]> tx, Ok tt)
  | None => (tx, Err (errorsNew "bucket not found"))
  end.

Definition mem_delete (b k : string) (tx : gmap string (gmap string string)) :
    gmap string (gmap string string) * result unit :=
  match tx !! b with
  | Some m => (<[b := delete k m]> tx, Ok tt)
  | None => (tx, Err (errorsNew "bucket not found"))
  end.

Definition mem_bolt : Bolt := {|
  DB := gmap string (gmap string string);
  Tx := gmap string (gmap string string);
  Begin := fun db => db;
  Commit := fun _ tx => (tx, Ok tt);
  CreateBucketIfNotExists := fun b tx =>
    match tx !! b with Some _ => (tx, Ok tt) | None => (<[b := ∅]> tx, Ok tt) end;
  Get := fun b k tx => match tx !! b with Some m => default "" (m !! k) | None => "" end;
  Put := mem_put;
  Delete := mem_delete;
  First := fun b tx => match tx !! b with Some m => head (entries m) | None => None end;
  Next := fun b k tx => match tx !! b with Some m => after_key k (entries m) | None => None end;
  CursorDelete := mem_delete
|}.

Definition mem_bolt_laws : @BoltLaws mem_bolt.
Proof.
  unshelve econstructor; [exact (fun tx => tx)|..].
  all: simpl; unfold mem_put, mem_delete; intros.
  - done.
  - by destruct (tx !! b) eqn:E; simpl.
  - by rewrite H.
  - rewrite H. by case_bool_decide.
  - by rewrite H.
  - by rewrite H.
  - by rewrite H.
  - by rewrite H.
Defined.

Lemma mem_bolt_live : @BoltLive mem_bolt mem_bolt_laws.
Proof.
  split; simpl; unfold mem_put, mem_delete; intros.
  - by eexists.
  - case_match; [|done]. rewrite bool_decide_false by done. by eexists.
  - case_match; [by eexists|done].
  - case_match; [by eexists|done].
Qed.
