(* ===== verification/Events.v ===== *)
(** * Telemetry events (protocol/v1/events.go, the data of internal/eventspool)

    The event records with their JSON codecs, the fixed-width keys under which
    the spool keeps them and the identifiers it gives them. *)

From stdpp Require Import base gmap strings list fin_maps.
From Stdlib Require Import ZArith NArith Ascii.
From S2P Require Import Prelude.
From S2P Require Import GoStrings.
From S2P Require Import Sha256.
From S2P Require Import Json.
From S2P Require Import Bolt.

(** ** Constants *)

Definition EventVersion : string := "1".
Definition EventKindAccess : string := "access".
Definition EventKindRoute : string := "route".
Definition EventKindHeartbeat : string := "heartbeat".
Definition EventKindTrafficSnapshot : string := "traffic_snapshot".
Definition EventKindOnlineSnapshot : string := "online_snapshot".
Definition MaxEventBatchEvents : Z := 500.
Definition MaxEventCompressedBytes : Z := 1048576.
Definition MaxEventExpandedBytes : Z := 4194304.
Definition MaxEventBytes : N := 262144.

(** ** json.RawMessage *)

(** A RawMessage field keeps the text of its value, null included. *)
Definition raw_fld {T} (upd : string -> T -> T) : setter T := fun raw t => Some (upd raw t).

(** What Marshal makes of a RawMessage: no space outside strings, and the
    characters of HTML and the line separators escaped inside them. *)
Fixpoint compact_from (in_string : bool) (s : string) : string :=
  match s with
  | EmptyString => ""
  | String c r =>
      if in_string then
        if eqc c bs then
          match r with
          | String d r' => String c (String d (compact_from true r'))
          | EmptyString => String c ""
          end
        else if eqc c dq then String c (compact_from false r)
        else if eqc c "<" || eqc c ">" || eqc c "&" then u00 c +:+ compact_from true r
        else if (code c =? 226)%N then
          match r with
          | String d (String e r') =>
              if ((code d =? 128) && ((code e =? 168) || (code e =? 169)))%N
              then String bs "u202" +:+ (if (code e =? 168)%N then "8" else "9") +:+ compact_from true r'
              else String c (compact_from true r)
          | _ => String c (compact_from true r)
          end
        else String c (compact_from true r)
      else if is_ws c then compact_from false r
      else String c (compact_from (eqc c dq) r)
  end.

Definition compact (s : string) : string := compact_from false s.

(** *** Texts without anything to compact *)

Lemma chunk_tail v a t : rune_chunk v (String a t) -> sforall cont t = true.
Proof.
  intros (_ & Hl & Hh & _ & _ & Hx). specialize (Hx ""). rewrite sapp_nil_r in Hx.
  simpl in Hh. apply andb_true_iff in Hh as [Ha _]. apply negb_true_iff in Ha.
  destruct t as [|b t]; [done|]. cbn [runes] in Hx. rewrite Ha in Hx.
  destruct (char_in 194 223 a && cont b) eqn:E2.
  { injection Hx as _ <- _. apply andb_true_iff in E2 as [_ E2]. simpl. by rewrite E2. }
  destruct t as [|c t]; [by injection Hx|].
  destruct (char_in 224 239 a && _ && cont c) eqn:E3.
  { injection Hx as _ <- _. apply andb_true_iff in E3 as [[_ E3]%andb_true_iff Ec]. simpl. rewrite Ec.
    assert (cont b = true) as ->; [|done].
    unfold cont. apply char_in_spec in E3. apply char_in_spec. repeat case_match; lia. }
  destruct t as [|d t]; [by injection Hx|].
  destruct (char_in 240 244 a && _ && cont c && cont d) eqn:E4.
  { injection Hx as _ <- _. apply andb_true_iff in E4 as [[[_ E4]%andb_true_iff Ec]%andb_true_iff Ed].
    simpl. rewrite Ec, Ed.
    assert (cont b = true) as ->; [|done].
    unfold cont. apply char_in_spec in E4. apply char_in_spec. repeat case_match; lia. }
  by injection Hx.
Qed.

Lemma compact_high c x : (128 <= code c)%N -> code c <> 226%N ->
  compact_from true (String c x) = String c (compact_from true x).
Proof.
  intros Hc Hn. cbn [compact_from]. 
  assert (forall d, (code d < 128)%N -> eqc c d = false) as Hd by (intros d Hd; apply N.eqb_neq; lia).
  rewrite !Hd by (vm_compute; done). simpl. by rewrite (proj2 (N.eqb_neq _ _)).
Qed.

Lemma compact_cont t x : sforall cont t = true -> compact_from true (t +:+ x) = t +:+ compact_from true x.
Proof.
  induction t as [|c t IH]; intros Ht; [done|]. simpl in Ht. apply andb_true_iff in Ht as [Hc%char_in_spec Ht].
  rewrite !app_String, compact_high by lia. by rewrite IH.
Qed.

Lemma compact_chunk v b x : rune_chunk v b -> v <> 8232%N -> v <> 8233%N ->
  compact_from true (b +:+ x) = b +:+ compact_from true x.
Proof.
  intros Hb H1 H2. destruct b as [|a t]; [done|]. pose proof (chunk_tail _ _ _ Hb) as Ht.
  destruct Hb as (_ & Hl & Hh & _ & _ & Hx). simpl in Hh. apply andb_true_iff in Hh as [Ha%negb_true_iff%N.ltb_ge _].
  rewrite !app_String. rewrite <- (compact_cont t x) by done.
  destruct (N.eq_dec (code a) 226) as [Ea|Hn]; [|by apply compact_high].
  assert (a = chr 226) as -> by by rewrite <- Ea, chr_code.
  assert (forall (u : string) (p q : ascii), t +:+ x = String p (String q u) ->
    ((code p =? 128) && ((code q =? 168) || (code q =? 169)))%N = false) as Hno.
  { intros u p q E. destruct t as [|b [|c t]]; [done|exfalso; by specialize (Hx "")|].
    rewrite !app_String in E. injection E as -> -> _.
    apply not_true_is_false. intros Hpq. apply andb_true_iff in Hpq as [Hp%N.eqb_eq Hq].
    assert (p = chr 128) as -> by by rewrite <- Hp, chr_code.
    specialize (Hx ""). apply orb_true_iff in Hq as [Hq%N.eqb_eq|Hq%N.eqb_eq];
      [assert (q = chr 168) as -> by (by rewrite <- Hq, chr_code)|assert (q = chr 169) as -> by (by rewrite <- Hq, chr_code)];
      rewrite !app_String in Hx; simpl in Hx; injection Hx as Hv; done. }
  cbn [compact_from]. destruct (t +:+ x) as [|p [|q u]] eqn:E; [done..|]. by rewrite (Hno u p q).
Qed.

Lemma compact_escape s rest :
  compact_from true (escape s +:+ String dq rest) = escape s +:+ String dq (compact_from false rest).
Proof.
  induction s as [|a r Ha Hr IH|v b x Hb IH|a r Hr IH] using rune_ind; [done|..].
  - rewrite escape_cons by done. rewrite !sapp_assoc, <- IH. generalize (escape r +:+ String dq rest). intros y.
    clear - Ha. destruct a as [[] [] [] [] [] [] [] []]; vm_compute in Ha; done || reflexivity.
  - rewrite (escape_chunk _ _ _ Hb), !sapp_assoc, <- IH, esc_rune_chunk by done.
    generalize (escape x +:+ String dq rest). intros y.
    destruct (N.eqb_spec v 8232); [done|]. destruct (N.eqb_spec v 8233); [done|]. by apply (compact_chunk v).
  - unfold escape in *. rewrite Hr. cbn [foldr]. rewrite !sapp_assoc, <- IH. done.
Qed.

(** What follows a compact value is compacted on its own. *)
Definition compacted (raw : string) : Prop :=
  forall rest, compact_from false (raw +:+ rest) = raw +:+ compact_from false rest.

Lemma compacted_compact raw : compacted raw -> compact raw = raw.
Proof. intros Hc. unfold compact. rewrite <- (sapp_nil_r raw) at 1. rewrite Hc. apply sapp_nil_r. Qed.

Lemma compacted_app a b : compacted a -> compacted b -> compacted (a +:+ b).
Proof. intros Ha Hb rest. by rewrite !sapp_assoc, Ha, Hb. Qed.

Lemma compacted_quote s : compacted (quote s).
Proof.
  intros rest. rewrite quote_unfold. rewrite !app_String, !sapp_assoc, !app_String, !app_Empty. cbn [compact_from].
  change (is_ws dq) with false. cbv iota. rewrite eqc_refl. by rewrite compact_escape.
Qed.

Lemma compacted_plain raw : sforall (fun c => negb (is_ws c) && negb (eqc c dq)) raw = true -> compacted raw.
Proof.
  induction raw as [|c r IH]; intros Hr rest; [done|]. simpl in Hr.
  apply andb_true_iff in Hr as [[Hw%negb_true_iff Hq%negb_true_iff]%andb_true_iff Hr].
  rewrite !app_String. cbn [compact_from]. by rewrite Hw, Hq, IH.
Qed.

Lemma compacted_uint n : compacted (FormatUint n).
Proof. apply compacted_plain. eapply sforall_impl; [|apply FormatUint_digits]. intros c. by destruct c as [[] [] [] [] [] [] [] []]. Qed.

Lemma compacted_int z : compacted (FormatInt z).
Proof. destruct z; [done|apply compacted_uint|]. apply (compacted_app "-"); [by apply compacted_plain|apply compacted_uint]. Qed.

Lemma compacted_bool (b : bool) : compacted (if b then "true" else "false").
Proof. by destruct b. Qed.

Lemma compacted_obj l : Forall (fun kv => compacted (snd kv)) l -> compacted (obj l).
Proof.
  intros Hl. rewrite obj_unfold. apply (compacted_app "{"); [by apply compacted_plain|].
  apply compacted_app; [|by apply compacted_plain]. induction Hl as [|kv l Hkv Hl IH]; [by apply compacted_plain|].
  assert (compacted (member_text kv)) as Hm.
  { apply compacted_app; [apply compacted_quote|]. by apply (compacted_app ":"); [apply compacted_plain|]. }
  cbn [fmap list_fmap]. unfold sconcat in *. cbn [String.concat]. destruct l as [|kv' l]; [done|].
  apply compacted_app; [done|]. by apply (compacted_app ","); [apply compacted_plain|].
Qed.

Lemma compacted_arr l : Forall compacted l -> compacted (arr l).
Proof.
  intros Hl. rewrite arr_unfold. apply (compacted_app "["); [by apply compacted_plain|].
  apply compacted_app; [|by apply compacted_plain]. induction Hl as [|v l Hv Hl IH]; [by apply compacted_plain|].
  unfold sconcat in *. cbn [String.concat]. destruct l as [|v' l]; [done|].
  apply compacted_app; [done|]. by apply (compacted_app ","); [apply compacted_plain|].
Qed.

(** ** Events *)

Record Event : Set := MkEvent {
  ev_seq : N;
  ev_id : string;
  ev_kind : string;
  ev_at : Z;
  ev_payload : string
}.

#[export] Instance Event_eq : EqDecision Event.
Proof. solve_decision. Defined.

Definition event_fields : list (string * setter Event) :=
  [("sequence", fld (dec_uint 64) (fun v e => MkEvent v (ev_id e) (ev_kind e) (ev_at e) (ev_payload e)));
   ("eventId", fld dec_string (fun v e => MkEvent (ev_seq e) v (ev_kind e) (ev_at e) (ev_payload e)));
   ("kind", fld dec_string (fun v e => MkEvent (ev_seq e) (ev_id e) v (ev_at e) (ev_payload e)));
   ("observedAt", fld dec_int (fun v e => MkEvent (ev_seq e) (ev_id e) (ev_kind e) v (ev_payload e)));
   ("payload", raw_fld (fun v e => MkEvent (ev_seq e) (ev_id e) (ev_kind e) (ev_at e) v))].

Definition event_members (e : Event) : list (string * string) :=
  [("sequence", FormatUint (ev_seq e)); ("eventId", quote (ev_id e)); ("kind", quote (ev_kind e));
   ("observedAt", FormatInt (ev_at e)); ("payload", compact (ev_payload e))].

(** json.Marshal(event): a RawMessage has to be a JSON value. *)
Definition encode_event (e : Event) : result string :=
  if Valid (ev_payload e) then Ok (obj (event_members e))
  else Err (errorsNew "json: error calling MarshalJSON for type json.RawMessage").

Definition zero_event : Event := MkEvent 0 "" "" 0 "".

Definition decode_event (raw : string) : result Event :=
  match decode_text false event_fields zero_event raw with
  | Some e => Ok e
  | None => Err (errorsNew "invalid event")
  end.

Record EventBatch : Set := MkBatch {
  bt_version : string;
  bt_stream : string;
  bt_first : N;
  bt_last : N;
  bt_events : list Event
}.

Record EventBatchAck : Set := MkAck {
  ack_version : string;
  ack_stream : string;
  ack_highest : N
}.

Record EventQueueInfo : Set := MkInfo {
  qi_enabled : bool;
  qi_stream : string;
  qi_pending_events : N;
  qi_pending_bytes : N;
  qi_acked : N;
  qi_oldest : Z;
  qi_received : Z;
  qi_access : Z;
  qi_route : Z;
  qi_traffic : Z;
  qi_online : Z;
  qi_error_at : Z;
  qi_error_code : string;
  qi_dropped_route : N;
  qi_dropped_telemetry : N;
  qi_drop_at : Z
}.

(** ** Checkpoints and counters *)

Record AccessCheckpoint : Set := MkCheckpoint {
  cp_device : N;
  cp_inode : N;
  cp_offset : Z;
  cp_anchor : Z;
  cp_sha : string;
  cp_init : bool
}.

Definition checkpoint_fields : list (string * setter AccessCheckpoint) :=
  [("device", fld (dec_uint 64) (fun v c => MkCheckpoint v (cp_inode c) (cp_offset c) (cp_anchor c) (cp_sha c) (cp_init c)));
   ("inode", fld (dec_uint 64) (fun v c => MkCheckpoint (cp_device c) v (cp_offset c) (cp_anchor c) (cp_sha c) (cp_init c)));
   ("offset", fld dec_int (fun v c => MkCheckpoint (cp_device c) (cp_inode c) v (cp_anchor c) (cp_sha c) (cp_init c)));
   ("anchorOffset", fld dec_int (fun v c => MkCheckpoint (cp_device c) (cp_inode c) (cp_offset c) v (cp_sha c) (cp_init c)));
   ("anchorSha256", fld dec_string (fun v c => MkCheckpoint (cp_device c) (cp_inode c) (cp_offset c) (cp_anchor c) v (cp_init c)));
   ("initialized", fld dec_bool (fun v c => MkCheckpoint (cp_device c) (cp_inode c) (cp_offset c) (cp_anchor c) (cp_sha c) v))].

Definition checkpoint_members (c : AccessCheckpoint) : list (string * string) :=
  [("device", FormatUint (cp_device c)); ("inode", FormatUint (cp_inode c));
   ("offset", FormatInt (cp_offset c)); ("anchorOffset", FormatInt (cp_anchor c));
   ("anchorSha256", quote (cp_sha c)); ("initialized", if cp_init c then "true" else "false")].

Definition encode_checkpoint (c : AccessCheckpoint) : string := obj (checkpoint_members c).

Definition zero_checkpoint : AccessCheckpoint := MkCheckpoint 0 0 0 0 "" false.

Definition decode_checkpoint (raw : string) : result AccessCheckpoint :=
  match decode_text false checkpoint_fields zero_checkpoint raw with
  | Some c => Ok c
  | None => Err (errorsNew "invalid access checkpoint")
  end.

Record TrafficCounter : Set := MkCounter {
  tc_runtime : string;
  tc_up : N;
  tc_down : N;
  tc_epoch : N
}.

Definition counter_fields : list (string * setter TrafficCounter) :=
  [("runtimeId", fld dec_string (fun v c => MkCounter v (tc_up c) (tc_down c) (tc_epoch c)));
   ("upBytes", fld (dec_uint 64) (fun v c => MkCounter (tc_runtime c) v (tc_down c) (tc_epoch c)));
   ("downBytes", fld (dec_uint 64) (fun v c => MkCounter (tc_runtime c) (tc_up c) v (tc_epoch c)));
   ("counterEpoch", fld (dec_uint 64) (fun v c => MkCounter (tc_runtime c) (tc_up c) (tc_down c) v))].

Definition counter_members (c : TrafficCounter) : list (string * string) :=
  [("runtimeId", quote (tc_runtime c)); ("upBytes", FormatUint (tc_up c));
   ("downBytes", FormatUint (tc_down c)); ("counterEpoch", FormatUint (tc_epoch c))].

Definition encode_counter (c : TrafficCounter) : string := obj (counter_members c).

Definition decode_counter (raw : string) : result TrafficCounter :=
  match decode_text false counter_fields (MkCounter "" 0 0 0) raw with
  | Some c => Ok c
  | None => Err (errorsNew "invalid traffic counter")
  end.

(** ** Keys *)

(** The [k] low bytes of [n], the most significant first. *)
Fixpoint big_endian (k : nat) (n : N) : string :=
  match k with
  | O => ""
  | S k' => String (chr (n / 256 ^ N.of_nat k')) (big_endian k' (n mod 256 ^ N.of_nat k'))
  end.

Fixpoint from_big_endian (acc : N) (s : string) : N :=
  match s with
  | EmptyString => acc
  | String c r => from_big_endian (acc * 256 + code c) r
  end.

Definition sequenceKey (sequence : N) : string := big_endian 8 sequence.

Definition readUint64 (value : string) : N :=
  if (slen value =? 8)%N then from_big_endian 0 value else 0%N.

Definition readInt64 (value : string) : Z := int64_of_u64 (readUint64 value).

(** ** Identifiers *)

(** The text that [eventID] hashes: its parts, each closed by a zero byte. *)
Definition zero_byte : string := String (chr 0) "".

Definition id_text (nodeID : Z) (streamID : string) (e : Event) : string :=
  foldr (fun part text => part +:+ zero_byte +:+ text) ""
    ["xui-event-v1"; FormatInt nodeID; streamID; FormatUint (ev_seq e); ev_kind e;
     FormatInt (ev_at e); ev_payload e].

Definition eventID (nodeID : Z) (streamID : string) (e : Event) : string :=
  sha256_hex (id_text nodeID streamID e).

(** ** Keys order as numbers *)

Lemma big_endian_length k n : String.length (big_endian k n) = k.
Proof. revert n. induction k as [|k IH]; intros n; simpl; [done|]. by rewrite IH. Qed.

Lemma digit_bound k n : (n < 256 ^ N.of_nat (S k))%N -> (n / 256 ^ N.of_nat k < 256)%N.
Proof.
  intros Hn. rewrite Nat2N.inj_succ, N.pow_succ_r in Hn by lia. apply N.Div0.div_lt_upper_bound. lia.
Qed.

Lemma from_big_endian_spec k n acc :
  (n < 256 ^ N.of_nat k)%N -> from_big_endian acc (big_endian k n) = (acc * 256 ^ N.of_nat k + n)%N.
Proof.
  revert n acc. induction k as [|k IH]; intros n acc Hn; simpl.
  - change (N.of_nat 0) with 0%N in *. simpl in *. lia.
  - rewrite code_chr by by apply digit_bound.
    rewrite IH by (apply N.mod_lt; apply N.pow_nonzero; lia).
    rewrite Nat2N.inj_succ, N.pow_succ_r by lia.
    pose proof (N.Div0.div_mod n (256 ^ N.of_nat k)) as Hd.
    lia.
Qed.

Lemma compare_parts p qa ra qb rb : (ra < p)%N -> (rb < p)%N ->
  N.compare (p * qa + ra) (p * qb + rb) = match N.compare qa qb with Eq => N.compare ra rb | c => c end.
Proof.
  intros Ha Hb. destruct (N.compare_spec qa qb) as [->|E|E].
  - destruct (N.compare_spec ra rb); [apply N.compare_eq_iff|apply N.compare_lt_iff|apply N.compare_gt_iff]; lia.
  - apply N.compare_lt_iff. assert (p * (qa + 1) <= p * qb)%N by (apply N.mul_le_mono_l; lia). lia.
  - apply N.compare_gt_iff. assert (p * (qb + 1) <= p * qa)%N by (apply N.mul_le_mono_l; lia). lia.
Qed.

Lemma compare_div a b p : (0 < p)%N ->
  N.compare a b = match N.compare (a / p) (b / p) with Eq => N.compare (a mod p) (b mod p) | c => c end.
Proof.
  intros Hp. rewrite <- (compare_parts p); [|apply N.mod_lt; lia..].
  by rewrite <- !N.Div0.div_mod.
Qed.

Lemma big_endian_compare k a b :
  (a < 256 ^ N.of_nat k)%N -> (b < 256 ^ N.of_nat k)%N ->
  String.compare (big_endian k a) (big_endian k b) = N.compare a b.
Proof.
  revert a b. induction k as [|k IH]; intros a b Ha Hb.
  - change (N.of_nat 0) with 0%N in *. simpl in *. assert (a = 0%N) by lia. assert (b = 0%N) by lia. by subst.
  - assert (0 < 256 ^ N.of_nat k)%N as Hp by (apply N.neq_0_lt_0, N.pow_nonzero; lia).
    rewrite (compare_div a b _ Hp). cbn [big_endian String.compare].
    unfold Ascii.compare. change N_of_ascii with code.
    rewrite !code_chr by by apply digit_bound.
    rewrite IH; [done|apply N.mod_lt; lia|apply N.mod_lt; lia].
Qed.

Lemma readUint64_key n : is_u64 n -> readUint64 (sequenceKey n) = n.
Proof.
  intros Hn. unfold readUint64, sequenceKey, slen. rewrite big_endian_length.
  change (N.of_nat 8 =? 8)%N with true. cbv iota. by rewrite from_big_endian_spec.
Qed.

Lemma sequenceKey_slt a b : is_u64 a -> is_u64 b -> slt (sequenceKey a) (sequenceKey b) = (a <? b)%N.
Proof.
  intros Ha Hb. unfold slt, sequenceKey. rewrite big_endian_compare by done.
  unfold N.ltb. by destruct (N.compare a b).
Qed.

Lemma readInt64_key z : is_i64 z -> readInt64 (sequenceKey (u64_of_int64 z)) = z.
Proof.
  intros Hz. unfold readInt64. rewrite readUint64_key.
  - by apply int64_u64_roundtrip.
  - unfold is_u64, u64_of_int64. pose proof (Z.mod_pos_bound z (Z.of_N two64)). unfold two64 in *. lia.
Qed.

(** ** Codecs *)

Definition event_ok (e : Event) : Prop :=
  is_u64 (ev_seq e) /\ is_i64 (ev_at e) /\ ValidString (ev_id e) = true /\
  ValidString (ev_kind e) = true /\ jv (ev_payload e) /\ compact (ev_payload e) = ev_payload e.

Lemma event_members_ok e : event_ok e -> Forall member_ok (event_members e).
Proof.
  intros (_ & _ & _ & _ & Hp & Hc). unfold event_members. rewrite Hc. members_ok.
Qed.

Lemma encode_event_ok e : event_ok e -> encode_event e = Ok (obj (event_members e)).
Proof.
  intros (_ & _ & _ & _ & Hp & _). unfold encode_event, Valid.
  by rewrite (the_value_jv _ Hp).
Qed.

Lemma decode_encode_event e : event_ok e -> decode_event (obj (event_members e)) = Ok e.
Proof.
  intros He. pose proof He as (Hs & Ha & Hi & Hk & _ & Hc). unfold decode_event.
  rewrite decode_text_obj' by (done || by apply event_members_ok).
  unfold event_members, set_members, field_for. simpl.
  repeat (rewrite fld_uint || rewrite fld_string || rewrite fld_int); try done.
  unfold raw_fld. rewrite Hc. by destruct e.
Qed.

Definition checkpoint_ok (c : AccessCheckpoint) : Prop :=
  is_u64 (cp_device c) /\ is_u64 (cp_inode c) /\ is_i64 (cp_offset c) /\ is_i64 (cp_anchor c) /\
  ValidString (cp_sha c) = true.

(** One member decoded by the lemma of its kind, the bound taken from the
    hypothesis on that very value. *)
Ltac its_bound :=
  match goal with
  | H : is_u64 ?n |- (?n < _)%N => exact H
  | H : is_i64 ?z |- is_i64 ?z => exact H
  | H : ValidString ?s = true |- ValidString ?s = true => exact H
  end.
Ltac set_uint := erewrite set_member; [|reflexivity|apply fld_uint; its_bound].
Ltac set_int := erewrite set_member; [|reflexivity|apply fld_int; its_bound].
Ltac set_string := erewrite set_member; [|reflexivity|apply fld_string; its_bound].

Lemma decode_encode_checkpoint c : checkpoint_ok c -> decode_checkpoint (encode_checkpoint c) = Ok c.
Proof.
  intros (? & ? & ? & ? & ?). unfold decode_checkpoint, encode_checkpoint.
  rewrite decode_text_obj'; [|done|unfold checkpoint_members; members_ok].
  unfold checkpoint_members. set_uint. set_uint. set_int.
  set_int. set_string. erewrite set_member; [|reflexivity|apply fld_bool].
  by destruct c.
Qed.

Definition counter_ok (c : TrafficCounter) : Prop :=
  ValidString (tc_runtime c) = true /\ is_u64 (tc_up c) /\ is_u64 (tc_down c) /\ is_u64 (tc_epoch c).

Lemma decode_encode_counter c : counter_ok c -> decode_counter (encode_counter c) = Ok c.
Proof.
  intros (? & ? & ? & ?). unfold decode_counter, encode_counter.
  rewrite decode_text_obj'; [|done|unfold counter_members; members_ok].
  unfold counter_members. set_string. set_uint. set_uint.
  set_uint. by destruct c.
Qed.

(** ** The hashed text determines the event *)

Lemma no_char_inj c s s' r r' : no_char c s -> no_char c s' ->
  s +:+ String c r = s' +:+ String c r' -> s = s' /\ r = r'.
Proof.
  revert s'. induction s as [|a s IH]; intros [|b s'] Hs Hs' E; simpl in *.
  - by injection E as <-.
  - injection E as <- _. apply no_char_cons in Hs' as [? _]. done.
  - injection E as -> _. apply no_char_cons in Hs as [? _]. done.
  - injection E as -> E. apply no_char_cons in Hs as [_ Hs]. apply no_char_cons in Hs' as [_ Hs'].
    by destruct (IH s' Hs Hs' E) as [-> ->].
Qed.

Lemma FormatUint_no_zero n : no_char (chr 0) (FormatUint n).
Proof. apply (no_char_sforall is_digit); [done|apply FormatUint_digits]. Qed.

Lemma FormatInt_no_zero z : no_char (chr 0) (FormatInt z).
Proof.
  destruct z; [done|apply FormatUint_no_zero|].
  apply no_char_cons. split; [done|apply FormatUint_no_zero].
Qed.

Lemma FormatInt_inj a b : is_i64 a -> is_i64 b -> FormatInt a = FormatInt b -> a = b.
Proof.
  intros Ha Hb E. pose proof (ParseInt_FormatInt a Ha) as H. rewrite E, ParseInt_FormatInt in H by done.
  by injection H.
Qed.

Lemma FormatUint_inj a b : is_u64 a -> is_u64 b -> FormatUint a = FormatUint b -> a = b.
Proof.
  intros Ha Hb E. pose proof (ParseUint_FormatUint a 64 Ha) as H. rewrite E, ParseUint_FormatUint in H by done.
  by injection H.
Qed.

Lemma String_tail c c' r r' : String c r = String c' r' -> r = r'.
Proof. by intros [= _ ->]. Qed.

(** No two observations share a hashed text: the parts can be read back. *)
Lemma id_text_inj node node' stream stream' e e' :
  is_i64 node -> is_i64 node' -> is_u64 (ev_seq e) -> is_u64 (ev_seq e') ->
  is_i64 (ev_at e) -> is_i64 (ev_at e') ->
  no_char (chr 0) stream -> no_char (chr 0) stream' ->
  no_char (chr 0) (ev_kind e) -> no_char (chr 0) (ev_kind e') ->
  id_text node stream e = id_text node' stream' e' ->
  node = node' /\ stream = stream' /\ ev_seq e = ev_seq e' /\ ev_kind e = ev_kind e' /\
  ev_at e = ev_at e' /\ ev_payload e = ev_payload e'.
Proof.
  intros Hn Hn' Hq Hq' Ha Ha' Hs Hs' Hk Hk' E. unfold id_text in E. cbn [foldr] in E.
  unfold zero_byte in E. rewrite !app_String, !app_Empty in E.
  do 13 apply String_tail in E.
  apply no_char_inj in E as [->%FormatInt_inj E]; [|done|done|apply FormatInt_no_zero..].
  apply no_char_inj in E as [-> E]; [|done|done].
  apply no_char_inj in E as [->%FormatUint_inj E]; [|done|done|apply FormatUint_no_zero..].
  apply no_char_inj in E as [-> E]; [|done|done].
  apply no_char_inj in E as [->%FormatInt_inj E]; [|done|done|apply FormatInt_no_zero..].
  apply sapp_inj_len in E as [-> _]; [done|].
  apply (f_equal String.length) in E. rewrite !slength_app in E. simpl in E. lia.
Qed.
