(* ===== verification/EventSpool.v ===== *)
(** * The event spool (internal/eventspool/store.go)

    A queue of telemetry events in a bbolt database: [Enqueue] appends under the
    next sequence number, [Batch] reads the oldest events, [Acknowledge] drops
    those the panel has received; access checkpoints and traffic counters are
    stored in the transaction that enqueues the event they belong to. *)

From stdpp Require Import base gmap strings list fin_maps.
From Stdlib Require Import ZArith NArith Ascii.
From S2P Require Import Prelude.
From S2P Require Import GoStrings.
From S2P Require Import Bolt.
From S2P Require Import Events.

Definition defaultMaxBytes : N := 268435456.
Definition defaultMaxEvents : N := 100000.

Definition ErrFull : error := MkError "event spool capacity reached" [SFull] None.

Definition bucketMeta : string := "meta".
Definition bucketEvents : string := "events".
Definition bucketCheckpoints : string := "checkpoints".
Definition bucketCounters : string := "traffic-counters".
Definition keyStreamID : string := "stream-id".
Definition keyNextSequence : string := "next-sequence".
Definition keyAckedSequence : string := "acked-sequence".
Definition keyPendingBytes : string := "pending-bytes".
Definition keyPendingEvents : string := "pending-events".
Definition keyDroppedRoute : string := "dropped-route".
Definition keyDroppedOther : string := "dropped-telemetry".
Definition keyLastDropAt : string := "last-drop-at".
Definition keyLastAckAt : string := "last-ack-at".
Definition keyLastErrorAt : string := "last-error-at".
Definition keyLastErrorCode : string := "last-error-code".
Definition keyLastAccessAt : string := "last-access-at".
Definition keyLastRouteAt : string := "last-route-at".
Definition keyLastTrafficAt : string := "last-traffic-at".
Definition keyLastOnlineAt : string := "last-online-at".

Record Config : Set := MkConfig {
  cfg_path : string;
  cfg_node : Z;
  cfg_maxBytes : N;
  cfg_maxEvents : N
}.

Record Store : Set := MkStore {
  st_node : Z;
  st_maxBytes : N;
  st_maxEvents : N
}.

(** A time.Time is its count of nanoseconds since the Unix epoch. *)
Definition UnixMilli (t : Z) : Z := (t / 1000000)%Z.
Definition IsZero (t : Z) : bool := (t =? -62135596800000000000)%Z.

Section store.
Context `{Bolt}.

(** ** Opening *)

Definition putUint64 (bucket key : string) (value : N) : txm unit := Put bucket key (sequenceKey value).
Definition putInt64 (bucket key : string) (value : Z) : txm unit :=
putUint64 bucket key (u64_of_int64 value).

Definition getUint64 (bucket key : string) : txm N :=
let$ raw := tget bucket key in tret (readUint64 raw).
Definition getInt64 (bucket key : string) : txm Z :=
let$ raw := tget bucket key in tret (readInt64 raw).

(** [random] is what crypto/rand.Read fills 16 bytes with. *)
Definition randomStreamID (random : result string) : result string :=
match random with
| Ok raw => Ok (EncodeToString raw)
| Err e => Err (errorW "generate event stream id: " e)
end.

Definition tlift {A} (r : result A) : txm A := fun tx => (tx, r).

Definition initialize (random : result string) : DB -> DB * result unit :=
Update (
  let$ _ := CreateBucketIfNotExists bucketMeta in
  let$ _ := CreateBucketIfNotExists bucketEvents in
  let$ _ := CreateBucketIfNotExists bucketCheckpoints in
  let$ _ := CreateBucketIfNotExists bucketCounters in
  let$ stream := tget bucketMeta keyStreamID in
  let$ _ := (if (slen stream =? 0)%N
             then let$ streamID := tlift (randomStreamID random) in
                  Put bucketMeta keyStreamID streamID
             else tret tt) in
  let$ nxt := getUint64 bucketMeta keyNextSequence in
  if (nxt =? 0)%N then putUint64 bucketMeta keyNextSequence 1 else tret tt).

(** The checks and defaults of [Open], before any file is touched. *)
Definition openConfig (cfg : Config) : result Store :=
let? _ := guard_err (cfg_node cfg <=? 0)%Z "event spool node id must be positive" in
let? _ := guard_err (negb (IsAbs (cfg_path cfg))) "event spool path must be absolute" in
Ok (MkStore (cfg_node cfg)
      (if (cfg_maxBytes cfg =? 0)%N then defaultMaxBytes else cfg_maxBytes cfg)
      (if (cfg_maxEvents cfg =? 0)%N then defaultMaxEvents else cfg_maxEvents cfg)).

(** [mkdir] and [opened] are the answers of os.MkdirAll and bolt.Open. *)
Definition Open (cfg : Config) (mkdir : result unit) (opened : result DB) (random : result string) :
  result (Store * DB) :=
let? store := openConfig cfg in
match mkdir with
| Err e => Err (errorW "create event spool directory: " e)
| Ok _ =>
    match opened with
    | Err e => Err (errorW "open event spool: " e)
    | Ok db => match initialize random db with
               | (db', Ok _) => Ok (store, db')
               | (_, Err e) => Err e
               end
    end
end.

(** ** Enqueue *)

Definition validKind (kind : string) : bool :=
bool_decide (kind = EventKindAccess) || bool_decide (kind = EventKindRoute)
|| bool_decide (kind = EventKindHeartbeat) || bool_decide (kind = EventKindTrafficSnapshot)
|| bool_decide (kind = EventKindOnlineSnapshot).

Definition kindTimestampKey (kind : string) : option string :=
if bool_decide (kind = EventKindAccess) then Some keyLastAccessAt
else if bool_decide (kind = EventKindRoute) then Some keyLastRouteAt
else if bool_decide (kind = EventKindTrafficSnapshot) then Some keyLastTrafficAt
else if bool_decide (kind = EventKindOnlineSnapshot) then Some keyLastOnlineAt
else None.

(** The event built from the sequence number and the stream read. *)
Definition new_event (s : Store) (sequence : N) (streamID kind : string) (at_ : Z) (payload : string) : Event :=
let event := MkEvent sequence "" kind at_ payload in
MkEvent sequence (eventID (st_node s) streamID event) kind at_ payload.

(** The transaction of [enqueue]. *)
Definition enqueue_tx (s : Store) (kind : string) (at_ : Z) (payload : string)
  (sideEffect : txm unit) : txm Event :=
let$ sequence := getUint64 bucketMeta keyNextSequence in
let$ streamID := tget bucketMeta keyStreamID in
let event := new_event s sequence streamID kind at_ payload in
let$ encoded := tlift (encode_event event) in
if (MaxEventBytes <? slen encoded)%N then terr (errorsNew "event exceeds the size limit")
else
  let$ pendingBytes := getUint64 bucketMeta keyPendingBytes in
  let$ pendingEvents := getUint64 bucketMeta keyPendingEvents in
  if (st_maxBytes s <? u64_add (slen encoded) pendingBytes)%N || (st_maxEvents s <=? pendingEvents)%N
  then terr ErrFull
  else
    let$ _ := Put bucketEvents (sequenceKey sequence) encoded in
    let$ _ := sideEffect in
    let$ _ := putUint64 bucketMeta keyNextSequence (u64_add sequence 1) in
    let$ _ := putUint64 bucketMeta keyPendingBytes (u64_add pendingBytes (slen encoded)) in
    let$ _ := putUint64 bucketMeta keyPendingEvents (u64_add pendingEvents 1) in
    let$ _ := match kindTimestampKey kind with
              | Some key => putInt64 bucketMeta key at_
              | None => tret tt
              end in
    tret event.

(** [payload] is what json.Marshal makes of the payload. *)
Definition enqueue (s : Store) (kind : string) (observedAt : Z) (payload : result string)
  (sideEffect : txm unit) (db : DB) : DB * result Event :=
if negb (validKind kind) then (db, Err (errorsNew ("unsupported event kind " +:+ kind)))
else if IsZero observedAt || (UnixMilli observedAt <=? 0)%Z then
  (db, Err (errorsNew "event observed time is required"))
else match payload with
     | Err e => (db, Err (errorW ("encode " +:+ kind +:+ " event payload: ") e))
     | Ok raw =>
         if (slen raw =? 0)%N || (MaxEventBytes <? slen raw)%N then
           (db, Err (errorsNew "event payload exceeds the size limit"))
         else Update (enqueue_tx s kind (UnixMilli observedAt) raw sideEffect) db
     end.

Definition Enqueue (s : Store) (kind : string) (observedAt : Z) (payload : result string) :
  DB -> DB * result Event :=
enqueue s kind observedAt payload (tret tt).

Definition EnqueueWithCheckpoint (s : Store) (kind : string) (observedAt : Z) (payload : result string)
  (checkpointKey : string) (checkpoint : AccessCheckpoint) : DB -> DB * result Event :=
let raw := encode_checkpoint checkpoint in
enqueue s kind observedAt payload
  (if bool_decide (checkpointKey = "") then terr (errorsNew "access checkpoint key is required")
   else Put bucketCheckpoints checkpointKey raw).

(** The counters, in the order in which the map is ranged over. *)
Fixpoint put_counters (counters : list (string * TrafficCounter)) : txm unit :=
match counters with
| [] => tret tt
| (email, counter) :: rest =>
    let$ _ := Put bucketCounters email (encode_counter counter) in put_counters rest
end.

Definition EnqueueTrafficSnapshot (s : Store) (observedAt : Z) (payload : result string)
  (counters : list (string * TrafficCounter)) : DB -> DB * result Event :=
enqueue s EventKindTrafficSnapshot observedAt payload (put_counters counters).

Definition SetCheckpoint (key : string) (checkpoint : AccessCheckpoint) (db : DB) : DB * result unit :=
if bool_decide (TrimSpace key = "") then (db, Err (errorsNew "access checkpoint key is required"))
else Update (Put bucketCheckpoints key (encode_checkpoint checkpoint)) db.

Definition Checkpoint (key : string) : DB -> result AccessCheckpoint :=
View (let$ raw := tget bucketCheckpoints key in
      if (slen raw =? 0)%N then terr (MkError "file does not exist" [SNotExist] None)
      else tlift (decode_checkpoint raw)).

(** ** Batch *)

Definition tfirst (b : string) : txm (option (string * string)) := fun tx => (tx, Ok (First b tx)).
Definition tnext (b k : string) : txm (option (string * string)) := fun tx => (tx, Ok (Next b k tx)).

(** The loop of [Batch]; [room] is maxEvents - len(batch.Events). *)
Fixpoint collect (room : nat) (maxBytes : Z) (entry : option (string * string)) (total : Z)
  (events : list Event) : txm (list Event) :=
match entry, room with
| Some (key, value), S room' =>
    if (maxBytes <? total + Z.of_N (slen value))%Z && negb (bool_decide (events = [])) then tret events
    else match decode_event value with
         | Err e => terr (errorW ("decode queued event " +:+ FormatUint (readUint64 key) +:+ ": ") e)
         | Ok event =>
             let$ entry' := tnext bucketEvents key in
             collect room' maxBytes entry' (total + Z.of_N (slen value)) (events ++ [event])
         end
| _, _ => tret events
end.

Definition limit (value bound : Z) : Z :=
if (value <=? 0)%Z || (bound <? value)%Z then bound else value.

Definition Batch (maxEvents maxBytes : Z) : DB -> result EventBatch :=
let maxEvents := limit maxEvents MaxEventBatchEvents in
let maxBytes := limit maxBytes MaxEventExpandedBytes in
View (
  let$ streamID := tget bucketMeta keyStreamID in
  let$ entry := tfirst bucketEvents in
  let$ events := collect (Z.to_nat maxEvents) maxBytes entry 0 [] in
  tret (MkBatch EventVersion streamID
          (match events with e :: _ => ev_seq e | [] => 0%N end)
          (match last events with Some e => ev_seq e | None => 0%N end) events)).

(** ** Acknowledge *)

(** The loop of [Acknowledge]: each turn takes one event off the count. *)
Fixpoint discard (sequence : N) (entry : option (string * string)) (pendingBytes : N)
  (pendingEvents : nat) : txm (N * nat) :=
match entry with
| Some (key, value) =>
    if (readUint64 key <=? sequence)%N then
      match pendingEvents with
      | S n =>
          if (pendingBytes <? slen value)%N then
            terr (errorsNew "event spool accounting is inconsistent")
          else
            let$ _ := CursorDelete bucketEvents key in
            let$ entry' := tnext bucketEvents key in
            discard sequence entry' (pendingBytes - slen value) n
      | O => terr (errorsNew "event spool accounting is inconsistent")
      end
    else tret (pendingBytes, pendingEvents)
| None => tret (pendingBytes, pendingEvents)
end.

Definition Acknowledge (streamID : string) (sequence : N) (now : Z) : DB -> DB * result unit :=
Update (
  let$ stream := tget bucketMeta keyStreamID in
  if negb (bool_decide (streamID = stream)) then
    terr (errorsNew "event acknowledgement stream does not match")
  else
    let$ nxt := getUint64 bucketMeta keyNextSequence in
    if (nxt <=? sequence)%N then
      terr (errorsNew "event acknowledgement exceeds the last assigned sequence")
    else
      let$ acked := getUint64 bucketMeta keyAckedSequence in
      if (sequence <? acked)%N then tret tt
      else
        let$ pendingBytes := getUint64 bucketMeta keyPendingBytes in
        let$ pendingEvents := getUint64 bucketMeta keyPendingEvents in
        let$ entry := tfirst bucketEvents in
        let$ pending := discard sequence entry pendingBytes (N.to_nat pendingEvents) in
        let$ _ := putUint64 bucketMeta keyAckedSequence sequence in
        let$ _ := putUint64 bucketMeta keyPendingBytes pending.1 in
        let$ _ := putUint64 bucketMeta keyPendingEvents (N.of_nat pending.2) in
        let$ _ := putInt64 bucketMeta keyLastAckAt (UnixMilli now) in
        Delete bucketMeta keyLastErrorCode).

(** ** Counters of losses and errors *)

Definition RecordDrop (kind : string) (now : Z) : DB -> DB * result unit :=
let key := if bool_decide (kind = EventKindRoute) then keyDroppedRoute else keyDroppedOther in
Update (
  let$ dropped := getUint64 bucketMeta key in
  let$ _ := putUint64 bucketMeta key (u64_add dropped 1) in
  putInt64 bucketMeta keyLastDropAt (UnixMilli now)).

Definition RecordError (code : string) (now : Z) : DB -> DB * result unit :=
let code := TrimSpace code in
let code := if (64 <? slen code)%N then stake 64 code else code in
Update (
  let$ _ := Put bucketMeta keyLastErrorCode code in
  putInt64 bucketMeta keyLastErrorAt (UnixMilli now)).

Definition Info : DB -> result EventQueueInfo :=
View (
  let$ streamID := tget bucketMeta keyStreamID in
  let$ pendingEvents := getUint64 bucketMeta keyPendingEvents in
  let$ pendingBytes := getUint64 bucketMeta keyPendingBytes in
  let$ acked := getUint64 bucketMeta keyAckedSequence in
  let$ received := getInt64 bucketMeta keyLastAckAt in
  let$ errorAt := getInt64 bucketMeta keyLastErrorAt in
  let$ errorCode := tget bucketMeta keyLastErrorCode in
  let$ access := getInt64 bucketMeta keyLastAccessAt in
  let$ route := getInt64 bucketMeta keyLastRouteAt in
  let$ traffic := getInt64 bucketMeta keyLastTrafficAt in
  let$ online := getInt64 bucketMeta keyLastOnlineAt in
  let$ droppedRoute := getUint64 bucketMeta keyDroppedRoute in
  let$ droppedOther := getUint64 bucketMeta keyDroppedOther in
  let$ dropAt := getInt64 bucketMeta keyLastDropAt in
  let$ entry := tfirst bucketEvents in
  let$ oldest := match entry with
                 | Some (_, value) => let$ event := tlift (decode_event value) in tret (ev_at event)
                 | None => tret 0%Z
                 end in
  tret (MkInfo true streamID pendingEvents pendingBytes acked oldest received access route traffic
          online errorAt errorCode droppedRoute droppedOther dropAt)).

Definition TrafficCounterOf (email : string) : DB -> result (option TrafficCounter) :=
View (let$ raw := tget bucketCounters email in
      if (slen raw =? 0)%N then tret None
      else let$ counter := tlift (decode_counter raw) in tret (Some counter)).
End store.
