(* ===== verification/SpoolProofs.v ===== *)
(** * What the event spool guarantees

    [spool] is the queue the database stands for: a stream, the highest
    sequence number acknowledged and the events after it.  [represents] relates
    it to the buckets; every operation of [EventSpool] is shown to carry out
    the corresponding operation on the queue, or to leave it alone. *)

From stdpp Require Import base gmap strings list fin_maps sorting.
From Stdlib Require Import ZArith NArith Ascii.
From S2P Require Import Prelude.
From S2P Require Import GoStrings.
From S2P Require Import Sha256.
From S2P Require Import Json.
From S2P Require Import Bolt.
From S2P Require Import Events.
From S2P Require Import EventSpool.

(** ** The queue *)

Record spool : Set := Spool {
  sp_node : Z;
  sp_stream : string;
  sp_acked : N;
  sp_queue : list Event
}.

Definition encoded (e : Event) : string := obj (event_members e).
Definition bytes (q : list Event) : N := foldr (fun e n => slen (encoded e) + n)%N 0%N q.
Definition count (q : list Event) : N := N.of_nat (length q).
Definition next (sp : spool) : N := (sp_acked sp + 1 + count (sp_queue sp))%N.

(** The events are numbered without a gap, each carries the identifier computed
    from its own contents, and the accounts fit 64 bits. *)
Record spool_ok (sp : spool) : Prop := SpoolOk {
  so_numbered i e : sp_queue sp !! i = Some e -> ev_seq e = (sp_acked sp + 1 + N.of_nat i)%N;
  so_events : Forall (fun e => event_ok e /\ ev_id e = eventID (sp_node sp) (sp_stream sp) e) (sp_queue sp);
  so_next : is_u64 (next sp);
  so_bytes : is_u64 (bytes (sp_queue sp) + MaxEventBytes);
  so_stream : sp_stream sp <> ""
}.

Definition entry_of (e : Event) : string * string := (sequenceKey (ev_seq e), encoded e).

Definition get (k : string) (m : gmap string string) : string := default "" (m !! k).

Record meta_is (sp : spool) (m : gmap string string) : Prop := MetaIs {
  mi_stream : get keyStreamID m = sp_stream sp;
  mi_next : readUint64 (get keyNextSequence m) = next sp;
  mi_acked : readUint64 (get keyAckedSequence m) = sp_acked sp;
  mi_bytes : readUint64 (get keyPendingBytes m) = bytes (sp_queue sp);
  mi_events : readUint64 (get keyPendingEvents m) = count (sp_queue sp)
}.

Record represents (C : gmap string (gmap string string)) (sp : spool) : Prop := Represents {
  re_ok : spool_ok sp;
  re_meta : exists m, C !! bucketMeta = Some m /\ meta_is sp m;
  re_events : C !! bucketEvents = Some (list_to_map (entry_of <$> sp_queue sp));
  re_checkpoints : is_Some (C !! bucketCheckpoints);
  re_counters : is_Some (C !! bucketCounters)
}.

(** *** Its operations *)

Definition append (e : Event) (sp : spool) : spool :=
  Spool (sp_node sp) (sp_stream sp) (sp_acked sp) (sp_queue sp ++ [e]).

Definition confirm (n : N) (sp : spool) : spool :=
  Spool (sp_node sp) (sp_stream sp) n (drop (N.to_nat (n - sp_acked sp)) (sp_queue sp)).

(** ** Basic facts *)

Lemma bytes_app q q' : bytes (q ++ q') = (bytes q + bytes q')%N.
Proof. induction q as [|e q IH]; simpl; [done|]. rewrite IH. lia. Qed.

Lemma count_app q q' : count (q ++ q') = (count q + count q')%N.
Proof. unfold count. rewrite length_app. lia. Qed.

Lemma queue_seq sp i e : spool_ok sp -> sp_queue sp !! i = Some e ->
  ev_seq e = (sp_acked sp + 1 + N.of_nat i)%N /\ is_u64 (ev_seq e) /\ (ev_seq e < next sp)%N.
Proof.
  intros Hok Hi. rewrite (so_numbered _ Hok _ _ Hi). pose proof (so_next _ Hok) as Hn.
  apply lookup_lt_Some in Hi. unfold next, count, is_u64 in *. split_and!; lia.
Qed.

Lemma ascending_numbered (q : list Event) a :
  (forall i e, q !! i = Some e -> ev_seq e = (a + N.of_nat i)%N /\ is_u64 (ev_seq e)) ->
  ascending (entry_of <$> q).
Proof.
  revert a. induction q as [|e q IH]; intros a Hq; simpl; constructor.
  - apply (IH (a + 1)%N). intros i x Hi. destruct (Hq (S i) x Hi) as [E Hx]. split; [lia|done].
  - rewrite Forall_forall. intros kv (x & -> & [i Hi]%list_elem_of_lookup)%list_elem_of_fmap.
    destruct (Hq 0%nat e eq_refl) as [E He]. destruct (Hq (S i) x Hi) as [E' Hx].
    simpl. rewrite sequenceKey_slt by done. apply N.ltb_lt. lia.
Qed.

Lemma queue_ascending sp : spool_ok sp -> ascending (entry_of <$> sp_queue sp).
Proof.
  intros Hok. apply (ascending_numbered _ (sp_acked sp + 1)). intros i e Hi.
  destruct (queue_seq sp i e Hok Hi) as (-> & ? & _). done.
Qed.

Lemma queue_entries sp : spool_ok sp ->
  entries (list_to_map (entry_of <$> sp_queue sp)) = entry_of <$> sp_queue sp.
Proof. intros Hok. by apply entries_ascending, queue_ascending. Qed.

(** ** Reading and writing the accounts *)

Section accounts.
Context `{BL : BoltLaws}.

Lemma twp_getUint64 b k C m (Q : N -> Tx -> Prop) E tx :
  contents tx = C -> C !! b = Some m -> Q (readUint64 (get k m)) tx -> twp (getUint64 b k) Q E tx.
Proof. intros HC Hm HQ. by eapply twp_bind, twp_get. Qed.

Lemma twp_getInt64 b k C m (Q : Z -> Tx -> Prop) E tx :
  contents tx = C -> C !! b = Some m -> Q (readInt64 (get k m)) tx -> twp (getInt64 b k) Q E tx.
Proof. intros HC Hm HQ. by eapply twp_bind, twp_get. Qed.

Lemma twp_getStr b k C m (Q : string -> Tx -> Prop) E tx :
  contents tx = C -> C !! b = Some m -> Q (get k m) tx -> twp (tget b k) Q E tx.
Proof. intros HC Hm HQ. by eapply twp_get. Qed.

Lemma twp_putUint64 b k v C m (Q : unit -> Tx -> Prop) (E : error -> Prop) tx :
  contents tx = C -> C !! b = Some m -> k <> "" ->
  (forall e, ~ BoltLive -> E e) ->
  (forall tx', contents tx' = <[b := <[k := sequenceKey v]> m]> C -> Q tt tx') ->
  twp (putUint64 b k v) Q E tx.
Proof. intros HC Hm Hk HE HQ. eapply twp_put; [done|done| |done]. intros e Hl. apply HE. intros ?. by apply Hk, Hl. Qed.

Lemma twp_tfirst sp (Q : option (string * string) -> Tx -> Prop) E tx :
  represents (contents tx) sp ->
  Q (entry_of <$> head (sp_queue sp)) tx -> twp (tfirst bucketEvents) Q E tx.
Proof.
  intros [Hok _ He _ _] HQ. unfold twp, tfirst. rewrite (first_law _ _ _ He), queue_entries by done.
  by destruct (sp_queue sp).
Qed.
End accounts.

(** ** Enqueue *)

Definition fits (s : Store) (sp : spool) (e : Event) : Prop :=
  (slen (encoded e) <= MaxEventBytes)%N /\
  (slen (encoded e) + bytes (sp_queue sp) <= st_maxBytes s)%N /\
  (count (sp_queue sp) < st_maxEvents s)%N.

Definition store_ok (s : Store) (sp : spool) : Prop :=
  st_node s = sp_node sp /\ is_u64 (st_maxBytes s + MaxEventBytes).

Lemma append_next sp e : next (append e sp) = (next sp + 1)%N.
Proof. unfold next. simpl. rewrite count_app. unfold count. simpl. lia. Qed.

Lemma append_ok s sp e :
  spool_ok sp -> store_ok s sp -> fits s sp e -> is_u64 (next sp + 1) ->
  event_ok e -> ev_seq e = next sp -> ev_id e = eventID (sp_node sp) (sp_stream sp) e ->
  spool_ok (append e sp).
Proof.
  intros Hok [_ Hmax] (_ & Hb & _) Hn He Hs Hid. split.
  - intros i x. simpl. intros Hi. apply lookup_app_Some in Hi as [Hi|[Hl Hi]].
    + by apply (so_numbered _ Hok).
    + apply list_lookup_singleton_Some in Hi as [Hi <-]. rewrite Hs. unfold next, count. lia.
  - simpl. apply Forall_app_2; [apply Hok|]. by apply Forall_singleton.
  - rewrite append_next. done.
  - simpl. rewrite bytes_app. simpl. unfold is_u64 in *. lia.
  - apply Hok.
Qed.

Lemma entries_append sp e : spool_ok sp -> ev_seq e = next sp -> is_u64 (next sp) ->
  <[sequenceKey (next sp) := encoded e]> (list_to_map (entry_of <$> sp_queue sp))
  = (list_to_map (entry_of <$> sp_queue (append e sp)) : gmap string string).
Proof.
  intros Hok Hs Hn. change (sp_queue (append e sp)) with (sp_queue sp ++ [e]). rewrite fmap_app.
  change (entry_of <$> [e]) with [entry_of e].
  assert (entry_of e = (sequenceKey (next sp), encoded e)) as -> by (unfold entry_of; by rewrite Hs).
  rewrite list_to_map_snoc; [done|].
  rewrite list_elem_of_fmap. intros ([k v] & Ek0 & Hkv). cbn [fst] in Ek0.
  apply list_elem_of_fmap in Hkv as (x & E & [i Hi]%list_elem_of_lookup).
  destruct (queue_seq sp i x Hok Hi) as (_ & Hx & Hlt).
  unfold entry_of in E. injection E as Ek _.
  assert (readUint64 (sequenceKey (next sp)) = readUint64 (sequenceKey (ev_seq x))) as Er by congruence.
  rewrite !readUint64_key in Er by done. lia.
Qed.

Section enqueue.
Context `{BL : BoltLaws}.

(** A side effect that changes one of the two other buckets, by [g]. *)
Definition tame (b : string) (g : gmap string string -> gmap string string) (bad : error -> Prop)
  (side : txm unit) : Prop :=
(b = bucketCheckpoints \/ b = bucketCounters) /\
forall tx, is_Some (contents tx !! b) ->
  twp side (fun _ tx' => contents tx' = alter g b (contents tx)) bad tx.

(** The accounts of the spool after four or five writes. *)
Ltac meta_at := unfold get; repeat (rewrite lookup_insert_eq || rewrite lookup_insert_ne by done); simpl.

Lemma meta_append sp e m at_ :
  meta_is sp m -> spool_ok (append e sp) ->
  let m1 := <[keyNextSequence := sequenceKey (u64_add (next sp) 1)]> m in
  let m2 := <[keyPendingBytes := sequenceKey (u64_add (bytes (sp_queue sp)) (slen (encoded e)))]> m1 in
  let m3 := <[keyPendingEvents := sequenceKey (u64_add (count (sp_queue sp)) 1)]> m2 in
  meta_is (append e sp) m3 /\
  forall k, kindTimestampKey (ev_kind e) = Some k -> meta_is (append e sp) (<[k := at_]> m3).
Proof.
  intros [M1 M2 M3 M4 M5] Hok m1 m2 m3.
  pose proof (so_next _ Hok) as Hn. pose proof (so_bytes _ Hok) as Hb.
  rewrite append_next in Hn. unfold is_u64 in Hn, Hb. simpl in Hb. rewrite bytes_app in Hb. simpl in Hb.
  assert (count (sp_queue sp) + 1 < two64)%N as Hc by (unfold next in Hn; lia).
  assert (meta_is (append e sp) m3) as H3.
  { unfold m3, m2, m1. split; rewrite ?append_next; simpl; rewrite ?bytes_app, ?count_app; meta_at.
    - done.
    - by rewrite u64_add_small, readUint64_key.
    - done.
    - rewrite u64_add_small, readUint64_key by (unfold is_u64; lia). simpl. lia.
    - by rewrite u64_add_small, readUint64_key. }
  split; [done|]. intros k Hk. destruct H3 as [N1 N2 N3 N4 N5]. clear - Hk N1 N2 N3 N4 N5.
  assert (k = keyLastAccessAt \/ k = keyLastRouteAt \/ k = keyLastTrafficAt \/ k = keyLastOnlineAt) as Hcases.
  { unfold kindTimestampKey in Hk. repeat case_bool_decide; naive_solver. }
  split; unfold get; destruct Hcases as [-> |[-> |[-> | ->]]]; by rewrite lookup_insert_ne.
Qed.

Lemma represents_append s sp e C C' m3 :
  represents C sp -> store_ok s sp -> fits s sp e -> is_u64 (next sp + 1) ->
  event_ok e -> ev_seq e = next sp -> ev_id e = eventID (sp_node sp) (sp_stream sp) e ->
  meta_is (append e sp) m3 ->
  C' !! bucketMeta = Some m3 ->
  C' !! bucketEvents = Some (<[sequenceKey (next sp) := encoded e]> (list_to_map (entry_of <$> sp_queue sp))) ->
  is_Some (C' !! bucketCheckpoints) -> is_Some (C' !! bucketCounters) ->
  represents C' (append e sp).
Proof.
  intros [Hok _ _ _ _] Hst Hfit Hn He Hs Hid Hm Hm3 Hev Hcp Hct.
  pose proof (append_ok s sp e Hok Hst Hfit Hn He Hs Hid). split; try done.
  - by exists m3.
  - rewrite Hev, entries_append; [done|done|done|]. apply Hok.
Qed.

(** The accounts written after the event and its side effect. *)
Lemma twp_accounts sp e m C at_ (Q : Event -> Tx -> Prop) (E : error -> Prop) tx :
  contents tx = C -> C !! bucketMeta = Some m -> meta_is sp m -> spool_ok (append e sp) ->
  (forall err, ~ BoltLive -> E err) ->
  (forall tx' m', contents tx' = <[bucketMeta := m']> C -> meta_is (append e sp) m' -> Q e tx') ->
  twp (let$ _ := putUint64 bucketMeta keyNextSequence (u64_add (next sp) 1) in
       let$ _ := putUint64 bucketMeta keyPendingBytes (u64_add (bytes (sp_queue sp)) (slen (encoded e))) in
       let$ _ := putUint64 bucketMeta keyPendingEvents (u64_add (count (sp_queue sp)) 1) in
       let$ _ := match kindTimestampKey (ev_kind e) with
                 | Some key => putInt64 bucketMeta key at_
                 | None => tret tt
                 end in
       tret e) Q E tx.
Proof.
  intros HC Hm Hmeta Hok HE HQ.
  destruct (meta_append sp e m (sequenceKey (u64_of_int64 at_)) Hmeta Hok) as [Hm3 Hm4].
  apply twp_bind. eapply twp_putUint64; [exact HC|exact Hm|done|done|]. intros tx3 E3.
  apply twp_bind. eapply twp_putUint64; [exact E3|apply lookup_insert_eq|done|done|]. intros tx4 E4.
  apply twp_bind. eapply twp_putUint64; [exact E4|apply lookup_insert_eq|done|done|]. intros tx5 E5.
  rewrite !insert_insert_eq in E5. apply twp_bind.
  destruct (kindTimestampKey (ev_kind e)) as [k|] eqn:Ek.
  - eapply twp_putUint64; [exact E5|apply lookup_insert_eq| |done|].
    + unfold kindTimestampKey in Ek. repeat case_bool_decide; naive_solver.
    + intros tx6 E6. rewrite insert_insert_eq in E6. apply twp_ret. by eapply HQ, Hm4.
  - apply twp_ret, twp_ret. by eapply HQ.
Qed.

Lemma sequenceKey_nonempty n : sequenceKey n <> "".
Proof. done. Qed.

Lemma alter_lookup (C C' : gmap string (gmap string string)) g b b' :
  C !! b' = C' !! b' -> alter g b C !! b' = alter g b C' !! b'.
Proof.
  intros E. destruct (decide (b = b')) as [->|Hne].
  - by rewrite !lookup_alter_eq, E.
  - by rewrite !lookup_alter_ne.
Qed.

(** The event, the side effect and the accounts. *)
Lemma twp_store s sp e at_ b g bad side (Q : Event -> Tx -> Prop) (E : error -> Prop) tx :
  represents (contents tx) sp -> store_ok s sp -> fits s sp e -> is_u64 (next sp + 1) -> event_ok e ->
  ev_seq e = next sp -> ev_id e = eventID (sp_node sp) (sp_stream sp) e ->
  tame b g bad side ->
  (forall err, bad err \/ ~ BoltLive -> E err) ->
  (forall tx', represents (contents tx') (append e sp) ->
     (forall b', b' = bucketCheckpoints \/ b' = bucketCounters ->
        contents tx' !! b' = alter g b (contents tx) !! b') -> Q e tx') ->
  twp (let$ _ := Put bucketEvents (sequenceKey (next sp)) (encoded e) in
       let$ _ := side in
       let$ _ := putUint64 bucketMeta keyNextSequence (u64_add (next sp) 1) in
       let$ _ := putUint64 bucketMeta keyPendingBytes (u64_add (bytes (sp_queue sp)) (slen (encoded e))) in
       let$ _ := putUint64 bucketMeta keyPendingEvents (u64_add (count (sp_queue sp)) 1) in
       let$ _ := match kindTimestampKey (ev_kind e) with
                 | Some key => putInt64 bucketMeta key at_
                 | None => tret tt
                 end in
       tret e) Q E tx.
Proof.
  intros Hr Hst Hfit Hn He Hseq Hid [Hb Hside] Hbad HQ.
  pose proof Hr as [Hok (m & Hm & Hmeta) Hev Hcp Hct].
  pose proof (append_ok s sp e Hok Hst Hfit Hn He Hseq Hid) as Hoka.
  apply twp_bind. eapply twp_put; [done|exact Hev| |].
  { intros err Hl. apply Hbad. right. intros Hlive. by destruct (sequenceKey_nonempty (next sp) (Hl Hlive)). }
  intros tx1 E1. apply twp_bind.
  assert (forall b', b' <> bucketEvents -> contents tx1 !! b' = contents tx !! b') as H1'.
  { intros b' Hne. by rewrite E1, lookup_insert_ne. }
  assert (is_Some (contents tx1 !! b)) as Hb' by (destruct Hb as [-> | ->]; by rewrite H1').
  specialize (Hside tx1 Hb'). unfold twp in Hside. unfold twp at 1.
  destruct (side tx1) as [tx2 [[]|err]]; [|by auto].
  assert (forall b', b' <> b -> contents tx2 !! b' = contents tx1 !! b') as H2'.
  { intros b' Hne. by rewrite Hside, lookup_alter_ne. }
  eapply (twp_accounts sp e m (contents tx2)); [done| |done|done|by auto|].
  { rewrite H2', H1'; [done|done|by destruct Hb as [-> | ->]]. }
  intros tx' m' E' Hm'. apply HQ.
  - apply (represents_append s sp e (contents tx) _ m'); try done; rewrite E'.
    + apply lookup_insert_eq.
    + rewrite lookup_insert_ne, H2' by (done || by destruct Hb as [-> | ->]).
      by rewrite E1, lookup_insert_eq.
    + rewrite lookup_insert_ne, Hside by done. apply lookup_alter_is_Some. by rewrite H1'.
    + rewrite lookup_insert_ne, Hside by done. apply lookup_alter_is_Some. by rewrite H1'.
  - intros b' Hc. rewrite E', lookup_insert_ne, Hside by (by destruct Hc as [-> | ->]).
    apply alter_lookup, H1'. by destruct Hc as [-> | ->].
Qed.

Lemma twp_enqueue_tx s sp kind at_ payload b g bad side (Q : Event -> Tx -> Prop) (E : error -> Prop) tx :
  let e := new_event s (next sp) (sp_stream sp) kind at_ payload in
  represents (contents tx) sp -> store_ok s sp -> is_u64 (next sp + 1) -> event_ok e ->
  tame b g bad side ->
  (forall err, bad err \/ ~ BoltLive -> E err) ->
  (forall err, ~ fits s sp e -> ((slen (encoded e) <= MaxEventBytes)%N -> err = ErrFull) -> E err) ->
  (forall tx', fits s sp e -> represents (contents tx') (append e sp) ->
     (forall b', b' = bucketCheckpoints \/ b' = bucketCounters ->
        contents tx' !! b' = alter g b (contents tx) !! b') -> Q e tx') ->
  twp (enqueue_tx s kind at_ payload side) Q E tx.
Proof.
  intros e Hr Hst Hn He Hside Hbad Hfull HQ.
  pose proof Hr as [Hok (m & Hm & Hmeta) _ _ _]. pose proof Hmeta as [M1 M2 _ M4 M5].
  apply twp_bind, (twp_getUint64 _ _ (contents tx) m); [done|done|]. rewrite M2.
  apply twp_bind, (twp_getStr _ _ (contents tx) m); [done|done|]. rewrite M1. fold e.
  apply twp_bind. unfold twp at 1, tlift. rewrite encode_event_ok by done.
  change (obj (event_members e)) with (encoded e).
  destruct (N.ltb_spec MaxEventBytes (slen (encoded e))) as [Hbig|Hsize].
  { apply twp_err, Hfull; [|lia]. intros (? & _). lia. }
  apply twp_bind, (twp_getUint64 _ _ (contents tx) m); [done|done|]. rewrite M4.
  apply twp_bind, (twp_getUint64 _ _ (contents tx) m); [done|done|]. rewrite M5.
  pose proof (so_bytes _ Hok) as Hbytes.
  rewrite u64_add_small by (unfold is_u64 in Hbytes; lia).
  destruct (N.ltb_spec (st_maxBytes s) (slen (encoded e) + bytes (sp_queue sp))) as [Hb1|Hb1]; simpl.
  { apply twp_err, Hfull; [|done]. intros (_ & ? & _). lia. }
  destruct (N.leb_spec (st_maxEvents s) (count (sp_queue sp))) as [Hb2|Hb2].
  { apply twp_err, Hfull; [|done]. intros (_ & _ & ?). lia. }
  assert (fits s sp e) as Hfit by done. clear Hfull.
  assert (ev_id e = eventID (sp_node sp) (sp_stream sp) e) as Hid by (destruct Hst as [<- _]; done).
  apply (twp_store s sp e at_ b g bad side); auto.
Qed.

(** What an enqueue of a marshalled payload answers. *)
Definition payload_ok (raw : string) : Prop :=
jv raw /\ compact raw = raw /\ raw <> "" /\ (slen raw <= MaxEventBytes)%N.

Lemma kinds_valid kind : validKind kind = true -> ValidString kind = true.
Proof.
  unfold validKind. rewrite !orb_true_iff, !bool_decide_eq_true.
  by intros [[[[-> | ->]| ->]| ->]| ->].
Qed.

Lemma new_event_ok s sp kind at_ raw :
  is_u64 (next sp) -> validKind kind = true -> is_i64 at_ -> payload_ok raw ->
  event_ok (new_event s (next sp) (sp_stream sp) kind at_ raw).
Proof.
  intros Hn Hk Ha (Hj & Hc & _). unfold event_ok. simpl. split_and!; try done.
  - apply is_ascii_ValidString. eapply sforall_impl; [|apply sha256_hex_lower].
    intros c. by destruct c as [[] [] [] [] [] [] [] []].
  - by apply kinds_valid.
Qed.

(** Every outcome of an enqueue: appended, or rejected with nothing changed. *)
Lemma enqueue_outcome s sp kind observedAt raw b g bad side db :
  let e := new_event s (next sp) (sp_stream sp) kind (UnixMilli observedAt) raw in
  represents (stored db) sp -> store_ok s sp -> is_u64 (next sp + 1) ->
  validKind kind = true -> (0 < UnixMilli observedAt)%Z -> is_i64 (UnixMilli observedAt) ->
  payload_ok raw -> tame b g bad side ->
  match enqueue s kind observedAt (Ok raw) side db with
  | (db', Ok e') => e' = e /\ fits s sp e /\ represents (stored db') (append e sp) /\
      forall b', b' = bucketCheckpoints \/ b' = bucketCounters ->
        stored db' !! b' = alter g b (stored db) !! b'
  | (db', Err err) => stored db' = stored db /\
      (~ BoltLive \/ bad err \/
       ~ fits s sp e /\ ((slen (encoded e) <= MaxEventBytes)%N -> err = ErrFull))
  end.
Proof.
  intros e Hr Hst Hn Hk Ha Hai Hp Hside. unfold enqueue. rewrite Hk. cbn [negb].
  assert (IsZero observedAt || (UnixMilli observedAt <=? 0)%Z = false) as ->.
  { apply orb_false_iff. split; [|by apply Z.leb_gt]. unfold IsZero. apply Z.eqb_neq. intros ->. done. }
  destruct Hp as (Hj & Hc & Hne & Hsz) eqn:Hp'. clear Hp'.
  assert ((slen raw =? 0)%N || (MaxEventBytes <? slen raw)%N = false) as ->.
  { apply orb_false_iff. split; [|by apply N.ltb_ge]. apply N.eqb_neq. by destruct raw. }
  set (Q := fun e' (C : gmap string (gmap string string)) => e' = e /\ fits s sp e /\
    represents C (append e sp) /\
    forall b', b' = bucketCheckpoints \/ b' = bucketCounters -> C !! b' = alter g b (stored db) !! b').
  set (E := fun err => ~ BoltLive \/ bad err \/
       ~ fits s sp e /\ ((slen (encoded e) <= MaxEventBytes)%N -> err = ErrFull)).
  assert (twp (enqueue_tx s kind (UnixMilli observedAt) raw side)
            (fun e' tx => Q e' (contents tx)) E (Begin db)) as Ht.
  { apply (twp_enqueue_tx s sp _ _ _ b g bad); unfold E; try done; try (intros; tauto).
    apply new_event_ok; try done. apply (so_next _ (re_ok _ _ Hr)). }
  pose proof (update_rule _ db Q E (fun err Hl => or_introl Hl) Ht) as Hu.
  by destruct (Update _ db) as [db' [e'|err]]; [|destruct Hu].
Qed.
End enqueue.

(** ** Batch *)

(** The events a batch takes off the front of the queue. *)
Fixpoint taken (room : nat) (maxBytes total : Z) (started : bool) (q : list Event) : list Event :=
  match q, room with
  | e :: q', S room' =>
      if (maxBytes <? total + Z.of_N (slen (encoded e)))%Z && started then []
      else e :: taken room' maxBytes (total + Z.of_N (slen (encoded e))) true q'
  | _, _ => []
  end.

Lemma taken_prefix room maxBytes total started q : taken room maxBytes total started q `prefix_of` q.
Proof.
  revert room total started. induction q as [|e q IH]; intros [|room] total started; simpl;
    try apply prefix_nil.
  destruct (_ && _); [apply prefix_nil|]. apply prefix_cons, IH.
Qed.

Lemma taken_length room maxBytes total started q :
  (length (taken room maxBytes total started q) <= room)%nat.
Proof.
  revert room total started. induction q as [|e q IH]; intros [|room] total started; simpl; try lia.
  destruct (_ && _); simpl; [lia|]. specialize (IH room (total + Z.of_N (slen (encoded e)))%Z true). lia.
Qed.

Lemma taken_bytes room maxBytes total q : (total <= maxBytes)%Z ->
  (total + Z.of_N (bytes (taken room maxBytes total true q)) <= maxBytes)%Z.
Proof.
  revert room total. induction q as [|e q IH]; intros [|room] total Ht; simpl; try lia.
  rewrite andb_true_r. destruct (Z.ltb_spec maxBytes (total + Z.of_N (slen (encoded e)))); simpl; [lia|].
  specialize (IH room (total + Z.of_N (slen (encoded e)))%Z ltac:(lia)). lia.
Qed.

Lemma taken_bound room maxBytes q :
  (length (taken room maxBytes 0 false q) <= 1)%nat \/
  (Z.of_N (bytes (taken room maxBytes 0 false q)) <= maxBytes)%Z.
Proof.
  destruct q as [|e q], room as [|room]; simpl; try (left; lia). rewrite andb_false_r. simpl.
  destruct (Z.leb_spec (Z.of_N (slen (encoded e))) maxBytes) as [Hf|Hf].
  - right. pose proof (taken_bytes room maxBytes (0 + Z.of_N (slen (encoded e))) q). lia.
  - left. destruct q as [|x q], room as [|room]; simpl; try lia.
    rewrite andb_true_r, (proj2 (Z.ltb_lt maxBytes _)) by lia. simpl. lia.
Qed.

(** Where a batch stops, there is no event left, no room, or no space. *)
Lemma taken_maximal room maxBytes total started q e q' :
  q = taken room maxBytes total started q ++ e :: q' ->
  length (taken room maxBytes total started q) = room \/
  (maxBytes < total + Z.of_N (bytes (taken room maxBytes total started q)) + Z.of_N (slen (encoded e)))%Z.
Proof.
  revert room total started. induction q as [|x q IH]; intros [|room] total started E; simpl in *; try done.
  - by left.
  - destruct ((maxBytes <? total + Z.of_N (slen (encoded x)))%Z && started) eqn:Eb; simpl in *.
    + injection E as -> _. apply andb_true_iff in Eb as [Eb _]. apply Z.ltb_lt in Eb. right. lia.
    + injection E as E. destruct (IH _ _ _ E) as [->|]; [by left|right]. lia.
Qed.

Lemma taken_first room maxBytes e q : exists r,
  taken (S room) maxBytes 0 false (e :: q) = e :: r.
Proof. simpl. rewrite andb_false_r. by eexists. Qed.

(** The numbers of the first and the last event of a batch. *)
Lemma front_numbers sp evs rest : spool_ok sp -> sp_queue sp = evs ++ rest -> evs <> [] ->
  match evs with e :: _ => ev_seq e | [] => 0%N end = (sp_acked sp + 1)%N /\
  match last evs with Some e => ev_seq e | None => 0%N end = (sp_acked sp + count evs)%N.
Proof.
  intros Hok Hq Hne.
  assert (forall i x, evs !! i = Some x -> ev_seq x = (sp_acked sp + 1 + N.of_nat i)%N) as Hseq.
  { intros i x Hi. apply (so_numbered _ Hok). rewrite Hq. by apply lookup_app_l_Some. }
  destruct evs as [|e evs]; [done|]. split; [rewrite (Hseq 0%nat e eq_refl); lia|].
  rewrite last_lookup. destruct ((e :: evs) !! Init.Nat.pred (length (e :: evs))) as [x|] eqn:El.
  - rewrite (Hseq _ _ El). unfold count. simpl. lia.
  - apply lookup_ge_None in El. simpl in El. lia.
Qed.

Section batch.
Context `{BL : BoltLaws}.

Lemma twp_tnext sp d e r (Q : option (string * string) -> Tx -> Prop) E tx :
  represents (contents tx) sp -> sp_queue sp = d ++ e :: r ->
  Q (entry_of <$> head r) tx -> twp (tnext bucketEvents (sequenceKey (ev_seq e))) Q E tx.
Proof.
  intros [Hok _ He _ _] Hq HQ. unfold twp, tnext. rewrite (next_law _ _ _ _ He), queue_entries by done.
  pose proof (queue_ascending sp Hok) as Ha. rewrite Hq, fmap_app in Ha |- *. cbn [fmap list_fmap] in *.
  change (sequenceKey (ev_seq e)) with (entry_of e).1. rewrite after_key_app by done.
  by destruct r.
Qed.

Lemma twp_collect sp room maxBytes total d r (Q : list Event -> Tx -> Prop) E tx :
  represents (contents tx) sp -> sp_queue sp = d ++ r ->
  Q (d ++ taken room maxBytes total (negb (bool_decide (d = []))) r) tx ->
  twp (collect room maxBytes (entry_of <$> head r) total d) Q E tx.
Proof.
  intros Hr. revert room total d. induction r as [|e r IH]; intros room total d Hq HQ.
  - destruct room; simpl in *; rewrite app_nil_r in HQ; by apply twp_ret.
  - destruct room as [|room]; simpl in *; [rewrite app_nil_r in HQ; by apply twp_ret|].
    destruct (_ && _) eqn:Eb; [rewrite app_nil_r in HQ; by apply twp_ret|].
    assert (event_ok e) as He.
    { pose proof (so_events _ (re_ok _ _ Hr)) as Hf. rewrite Hq in Hf.
      apply Forall_app in Hf as [_ Hf]. by apply Forall_cons in Hf as [[? _] _]. }
    unfold encoded at 1. rewrite decode_encode_event by done.
    apply twp_bind, (twp_tnext sp d e r); [done|done|].
    apply IH; [by rewrite <- app_assoc|]. rewrite bool_decide_false by by destruct d.
    by rewrite <- app_assoc.
Qed.

Definition batch_of (sp : spool) (maxEvents maxBytes : Z) : list Event :=
taken (Z.to_nat (limit maxEvents MaxEventBatchEvents)) (limit maxBytes MaxEventExpandedBytes) 0 false
  (sp_queue sp).

Lemma Batch_taken sp db maxEvents maxBytes :
  represents (stored db) sp ->
  Batch maxEvents maxBytes db = Ok (MkBatch EventVersion (sp_stream sp)
    (match batch_of sp maxEvents maxBytes with e :: _ => ev_seq e | [] => 0%N end)
    (match last (batch_of sp maxEvents maxBytes) with Some e => ev_seq e | None => 0%N end)
    (batch_of sp maxEvents maxBytes)).
Proof.
  intros Hr. pose proof Hr as [_ (m & Hm & Hmeta) _ _ _].
  assert (forall P, match Batch maxEvents maxBytes db with Ok x => x = P | Err _ => False end ->
    Batch maxEvents maxBytes db = Ok P) as Hm'.
  { intros P. destruct (Batch _ _ _); [by intros ->|done]. }
  apply Hm', view_rule.
  apply twp_bind, (twp_getStr _ _ (stored db) m); [done|done|]. rewrite (mi_stream _ _ Hmeta).
  apply twp_bind, (twp_tfirst sp); [done|].
  by apply twp_bind, (twp_collect sp _ _ _ []).
Qed.
End batch.

(** ** Acknowledge *)

(** A run of events numbered from [a]. *)
Definition numbered (a : N) (q : list Event) : Prop :=
  forall i e, q !! i = Some e -> ev_seq e = (a + N.of_nat i)%N /\ is_u64 (ev_seq e).

Lemma numbered_cons a e q : numbered a (e :: q) -> ev_seq e = a /\ is_u64 a /\ numbered (a + 1) q.
Proof.
  intros Hq. destruct (Hq 0%nat e eq_refl) as [E He]. rewrite N.add_0_r in E. split_and!; [done|congruence|].
  intros i x Hi. destruct (Hq (S i) x Hi) as [Ex Hx]. split; [lia|done].
Qed.

Lemma numbered_queue sp : spool_ok sp -> numbered (sp_acked sp + 1) (sp_queue sp).
Proof. intros Hok i e Hi. destruct (queue_seq sp i e Hok Hi) as (-> & ? & _). done. Qed.

Lemma numbered_entries a q : numbered a q ->
  ascending (entry_of <$> q) /\ entries (list_to_map (entry_of <$> q)) = entry_of <$> q.
Proof. intros Hq. pose proof (ascending_numbered q a Hq). split; [done|by apply entries_ascending]. Qed.

Lemma delete_front a e q : numbered a (e :: q) ->
  delete (sequenceKey (ev_seq e)) (list_to_map (entry_of <$> e :: q))
  = (list_to_map (entry_of <$> q) : gmap string string).
Proof.
  intros Hq. cbn. rewrite delete_insert_eq. apply delete_id.
  apply not_elem_of_list_to_map_1. apply numbered_entries in Hq as [Hq _].
  by apply ascending_keys in Hq as [[Hq _]%NoDup_cons _].
Qed.

Section acknowledge.
Context `{BL : BoltLaws}.

Lemma twp_discard sequence a q C (Q : N * nat -> Tx -> Prop) (E : error -> Prop) tx :
  let q' := drop (N.to_nat (sequence + 1 - a)) q in
  numbered a q -> contents tx = C -> C !! bucketEvents = Some (list_to_map (entry_of <$> q)) ->
  (forall err, ~ BoltLive -> E err) ->
  (forall tx', contents tx' = <[bucketEvents := list_to_map (entry_of <$> q')]> C ->
     Q (bytes q', length q') tx') ->
  twp (discard sequence (entry_of <$> head q) (bytes q) (length q)) Q E tx.
Proof.
  revert a C tx. induction q as [|e q IH]; intros a C tx q' Hq HC He HE HQ; subst q'.
  - apply twp_ret. rewrite drop_nil in HQ. apply HQ. rewrite HC. by rewrite insert_id.
  - pose proof (numbered_cons a e q Hq) as (Ea & Hu & Hq'). cbn [head fmap option_fmap option_map length].
    change (entry_of e) with (sequenceKey (ev_seq e), encoded e). cbn [discard].
    rewrite Ea, readUint64_key by done.
    destruct (N.leb_spec a sequence) as [Hle|Hgt].
    + change (bytes (e :: q)) with (slen (encoded e) + bytes q)%N.
      destruct (N.ltb_spec (slen (encoded e) + bytes q) (slen (encoded e))); [lia|].
      apply twp_bind. eapply twp_cursor_delete; [exact HC|exact He|done|]. intros tx1 E1.
      assert (contents tx1 !! bucketEvents = Some (list_to_map (entry_of <$> q))) as H1'.
      { rewrite E1, lookup_insert_eq. f_equal. rewrite <- Ea. by apply (delete_front a). }
      apply twp_bind. unfold twp at 1, tnext. rewrite (next_law _ _ _ _ H1').
      destruct (numbered_entries _ _ Hq') as [Ha ->].
      rewrite after_key_all.
      2: { destruct (numbered_entries _ _ Hq) as [Hall _]. apply StronglySorted_cons in Hall as [Hall _].
           unfold entry_of in Hall at 1. by rewrite Ea in Hall. }
      replace (head (entry_of <$> q)) with (entry_of <$> head q) by by destruct q.
      replace (slen (encoded e) + bytes q - slen (encoded e))%N with (bytes q) by lia.
      apply (IH (a + 1)%N (contents tx1)); [done|done|done|done|]. intros tx' E'.
      replace (N.to_nat (sequence + 1 - a)) with (S (N.to_nat (sequence + 1 - (a + 1)))) in HQ by lia.
      cbn [drop] in HQ. apply HQ. by rewrite E', E1, insert_insert_eq.
    + apply twp_ret. replace (N.to_nat (sequence + 1 - a)) with 0%nat in HQ by lia. apply HQ.
      rewrite HC. by rewrite insert_id.
Qed.

Lemma confirm_ok n sp : spool_ok sp -> (sp_acked sp <= n < next sp)%N -> spool_ok (confirm n sp).
Proof.
  intros Hok [Hl Hu]. unfold next in Hu. split; simpl.
  - intros i e. rewrite lookup_drop. intros Hi. rewrite (so_numbered _ Hok _ _ Hi). lia.
  - eapply Forall_drop, Hok.
  - unfold next. simpl. unfold count. rewrite length_drop. pose proof (so_next _ Hok) as Hn.
    unfold is_u64, next, count in *. lia.
  - pose proof (so_bytes _ Hok) as Hb. unfold is_u64 in *.
    rewrite <- (take_drop (N.to_nat (n - sp_acked sp)) (sp_queue sp)), bytes_app in Hb. lia.
  - apply Hok.
Qed.

Lemma confirm_next n sp : (sp_acked sp <= n < next sp)%N -> next (confirm n sp) = next sp.
Proof. unfold next. simpl. unfold count. rewrite length_drop. lia. Qed.

Lemma meta_confirm sp m n t :
  meta_is sp m -> spool_ok sp -> (sp_acked sp <= n < next sp)%N ->
  let q := sp_queue (confirm n sp) in
  let m1 := <[keyAckedSequence := sequenceKey n]> m in
  let m2 := <[keyPendingBytes := sequenceKey (bytes q)]> m1 in
  let m3 := <[keyPendingEvents := sequenceKey (N.of_nat (length q))]> m2 in
  let m4 := <[keyLastAckAt := t]> m3 in
  meta_is (confirm n sp) (delete keyLastErrorCode m4).
Proof.
  intros [M1 M2 M3 M4 M5] Hok Hn q m1 m2 m3 m4.
  pose proof (confirm_ok n sp Hok Hn) as [_ _ Hnx Hby _]. pose proof (so_next _ Hok) as Hnx0.
  unfold is_u64 in *. unfold next in Hnx. unfold m4, m3, m2, m1.
  split; rewrite ?confirm_next by done; unfold get; rewrite lookup_delete_ne by done;
    repeat (rewrite lookup_insert_eq || rewrite lookup_insert_ne by done); simpl default.
  - done.
  - done.
  - rewrite readUint64_key; [done|]. unfold is_u64. lia.
  - rewrite readUint64_key; [done|]. unfold is_u64, q. lia.
  - rewrite readUint64_key; [done|]. unfold is_u64, q. unfold count in *. lia.
Qed.

Lemma twp_Acknowledge sp m C n now (Q : unit -> Tx -> Prop) (E : error -> Prop) tx :
  let q := sp_queue (confirm n sp) in
  represents C sp -> contents tx = C -> C !! bucketMeta = Some m -> meta_is sp m ->
  (sp_acked sp <= n < next sp)%N -> (forall err, ~ BoltLive -> E err) ->
  (forall tx', represents (contents tx') (confirm n sp) ->
     (forall b', b' = bucketCheckpoints \/ b' = bucketCounters -> contents tx' !! b' = C !! b') -> Q tt tx') ->
  twp (let$ pending := discard n (entry_of <$> head (sp_queue sp)) (bytes (sp_queue sp))
         (length (sp_queue sp)) in
       let$ _ := putUint64 bucketMeta keyAckedSequence n in
       let$ _ := putUint64 bucketMeta keyPendingBytes pending.1 in
       let$ _ := putUint64 bucketMeta keyPendingEvents (N.of_nat pending.2) in
       let$ _ := putInt64 bucketMeta keyLastAckAt (UnixMilli now) in
       Delete bucketMeta keyLastErrorCode) Q E tx.
Proof.
  intros q [Hok _ Hev Hcp Hct] HC Hm Hmeta Hn HE HQ.
  apply twp_bind, (twp_discard n (sp_acked sp + 1) (sp_queue sp) C);
    [by apply numbered_queue|done|done|done|].
  replace (n + 1 - (sp_acked sp + 1))%N with (n - sp_acked sp)%N by lia. fold q. cbn [fst snd].
  intros tx1 E1. apply twp_bind. eapply twp_putUint64; [exact E1| |done|done|].
  { by rewrite lookup_insert_ne. }
  intros tx2 E2. apply twp_bind. eapply twp_putUint64; [exact E2|apply lookup_insert_eq|done|done|].
  intros tx3 E3. apply twp_bind. eapply twp_putUint64; [exact E3|apply lookup_insert_eq|done|done|].
  intros tx4 E4. apply twp_bind. eapply twp_putUint64; [exact E4|apply lookup_insert_eq|done|done|].
  intros tx5 E5. eapply twp_delete; [exact E5|apply lookup_insert_eq|done|]. intros tx6 E6.
  rewrite !insert_insert_eq in E6.
  apply HQ.
  - split; [by apply confirm_ok|eexists; split; [by rewrite E6, lookup_insert_eq|]|..];
      [by apply meta_confirm|rewrite E6, lookup_insert_ne by done; apply lookup_insert_eq|..];
      by rewrite E6, !lookup_insert_ne.
  - intros b' Hb. rewrite E6, !lookup_insert_ne by (by destruct Hb as [-> | ->]). done.
Qed.

Lemma Acknowledge_outcome sp db stream n now :
  represents (stored db) sp ->
  match Acknowledge stream n now db with
  | (db', Ok _) => stream = sp_stream sp /\ (n < next sp)%N /\
      ((n < sp_acked sp)%N /\ stored db' = stored db \/
       (sp_acked sp <= n)%N /\ represents (stored db') (confirm n sp) /\
       forall b', b' = bucketCheckpoints \/ b' = bucketCounters -> stored db' !! b' = stored db !! b')
  | (db', Err _) => stored db' = stored db /\
      (~ BoltLive \/ stream <> sp_stream sp \/ (next sp <= n)%N)
  end.
Proof.
  intros Hr. pose proof Hr as [Hok (m & Hm & Hmeta) _ _ _]. pose proof Hmeta as [M1 M2 M3 M4 M5].
  set (Q := fun (_ : unit) (C : gmap string (gmap string string)) => stream = sp_stream sp /\ (n < next sp)%N /\
      ((n < sp_acked sp)%N /\ C = stored db \/
       (sp_acked sp <= n)%N /\ represents C (confirm n sp) /\
       forall b', b' = bucketCheckpoints \/ b' = bucketCounters -> C !! b' = stored db !! b')).
  set (E := fun (_ : error) => ~ BoltLive \/ stream <> sp_stream sp \/ (next sp <= n)%N).
  apply (update_rule _ db Q E); [by left|].
  apply twp_bind, (twp_getStr _ _ (stored db) m); [done|done|]. rewrite M1.
  case_bool_decide as Es; cbn [negb]; [|apply twp_err; by right; left].
  apply twp_bind, (twp_getUint64 _ _ (stored db) m); [done|done|]. rewrite M2.
  destruct (N.leb_spec (next sp) n) as [Hge|Hlt]; [apply twp_err; by right; right|].
  apply twp_bind, (twp_getUint64 _ _ (stored db) m); [done|done|]. rewrite M3.
  destruct (N.ltb_spec n (sp_acked sp)) as [Hold|Hnew].
  { apply twp_ret. split_and!; [done|done|by left]. }
  apply twp_bind, (twp_getUint64 _ _ (stored db) m); [done|done|]. rewrite M4.
  apply twp_bind, (twp_getUint64 _ _ (stored db) m); [done|done|]. rewrite M5.
  apply twp_bind, (twp_tfirst sp); [done|]. unfold count. rewrite Nat2N.id.
  apply (twp_Acknowledge sp m (stored db)); try done; [by left|].
  intros tx' Hr' Hoth. split_and!; [done|done|by right].
Qed.
End acknowledge.
