(* ===== verification/SpoolTheorems.v ===== *)
(** * Theorems of the event spool

    Opening, the remaining operations, and the spool as a whole: what is
    enqueued is delivered in order until it is acknowledged, an event and its
    checkpoint are stored together, batches are contiguous and bounded. *)

From stdpp Require Import base gmap strings list fin_maps sorting.
From Stdlib Require Import ZArith NArith Ascii.
From S2P Require Import Prelude.
From S2P Require Import GoStrings.
From S2P Require Import Sha256.
From S2P Require Import Json.
From S2P Require Import Bolt.
From S2P Require Import Events.
From S2P Require Import EventSpool.
From S2P Require Import SpoolProofs.

Section operations.
Context `{BL : BoltLaws}.

(** ** Opening *)

(** An empty database becomes an empty spool under a random stream. *)
Lemma initialize_fresh node raw db :
  stored db = ∅ -> raw <> "" ->
  match initialize (Ok raw) db with
  | (db', Ok _) => represents (stored db') (Spool node (EncodeToString raw) 0 [])
  | (db', Err _) => stored db' = stored db
  end.
Proof.
  intros Hdb Hraw.
  assert (EncodeToString raw <> "") as Hs.
  { intros E. apply (f_equal String.length) in E. rewrite EncodeToString_length in E. by destruct raw. }
  apply (update_keeps _ db (fun _ C => represents C _)). unfold stored in Hdb.
  apply twp_bind, (twp_create _ _ _ _ _ Hdb); [done|]. intros tx1. rewrite lookup_empty. intros E1.
  apply twp_bind, (twp_create _ _ _ _ _ E1); [done|]. intros tx2 E2.
  rewrite lookup_insert_ne, lookup_empty in E2 by done.
  apply twp_bind, (twp_create _ _ _ _ _ E2); [done|]. intros tx3 E3.
  rewrite !lookup_insert_ne, lookup_empty in E3 by done.
  apply twp_bind, (twp_create _ _ _ _ _ E3); [done|]. intros tx4 E4.
  rewrite !lookup_insert_ne, lookup_empty in E4 by done.
  assert (contents tx4 !! bucketMeta = Some ∅) as Hm.
  { rewrite E4, !lookup_insert_ne by done. apply lookup_insert_eq. }
  apply twp_bind, (twp_getStr _ _ (contents tx4) ∅); [done|done|]. cbn [get lookup_empty].
  apply twp_bind, twp_bind. unfold twp at 1, tlift. cbn [randomStreamID].
  apply (twp_put _ _ _ (contents tx4) ∅); [done|exact Hm|done|]. intros tx5 E5. rewrite insert_empty in E5.
  apply twp_bind. eapply twp_getUint64; [exact E5|apply lookup_insert_eq|].
  eapply twp_putUint64; [exact E5|apply lookup_insert_eq|done|done|]. intros tx6 E6.
  rewrite insert_insert_eq in E6. split.
  - by split.
  - eexists. split; [rewrite E6; by map_at|]. split; unfold get; by map_at.
  - rewrite E6. map_at. rewrite E4. by map_at.
  - rewrite E6. map_at. rewrite E4. by map_at.
  - rewrite E6. map_at. rewrite E4. by map_at.
Qed.

(** Opening a spool again changes nothing. *)
Lemma initialize_again random sp db :
  represents (stored db) sp -> stored (initialize random db).1 = stored db.
Proof.
  intros Hr. pose proof Hr as [Hok (m & Hm & Hmeta) Hev [cp Hcp] [ct Hct]].
  enough (match initialize random db with
          | (db', Ok _) => stored db' = stored db
          | (db', Err _) => stored db' = stored db end) as Hx
    by (by destruct (initialize random db) as [db' [u|e]]).
  apply (update_keeps _ db (fun _ C => C = stored db)).
  assert (forall b, b ∈ [bucketMeta; bucketEvents; bucketCheckpoints; bucketCounters] ->
    forall tx' : Tx, contents tx' = match stored db !! b with Some _ => stored db | None => <[b := ∅]> (stored db) end ->
    contents tx' = stored db) as Hsame.
  { intros b Hb tx' ->. set_unfold in Hb.
    destruct Hb as [-> |[-> |[-> |[-> |[]]]]]; by rewrite ?Hm, ?Hev, ?Hcp, ?Hct. }
  apply twp_bind, (twp_create _ (stored db)); [done|done|]. intros tx1 E1%Hsame; [|set_solver].
  apply twp_bind, (twp_create _ (stored db)); [done|done|]. intros tx2 E2%Hsame; [|set_solver].
  apply twp_bind, (twp_create _ (stored db)); [done|done|]. intros tx3 E3%Hsame; [|set_solver].
  apply twp_bind, (twp_create _ (stored db)); [done|done|]. intros tx4 E4%Hsame; [|set_solver].
  apply twp_bind, (twp_getStr _ _ (stored db) m); [done|done|]. rewrite (mi_stream _ _ Hmeta).
  assert ((slen (sp_stream sp) =? 0)%N = false) as ->.
  { apply N.eqb_neq. pose proof (so_stream _ Hok). by destruct (sp_stream sp). }
  apply twp_bind, twp_ret, twp_bind, (twp_getUint64 _ _ (stored db) m); [done|done|].
  rewrite (mi_next _ _ Hmeta). destruct (N.eqb_spec (next sp) 0); [unfold next in *; lia|done].
Qed.

(** ** Accounts of losses and errors *)

Definition core : list string :=
[keyStreamID; keyNextSequence; keyAckedSequence; keyPendingBytes; keyPendingEvents].

Lemma meta_other sp m k v : meta_is sp m -> k ∉ core -> meta_is sp (<[k := v]> m).
Proof.
  intros [M1 M2 M3 M4 M5] Hk. unfold core in Hk. set_unfold in Hk.
  split; unfold get; rewrite lookup_insert_ne by naive_solver; done.
Qed.

Lemma represents_meta C sp m' : represents C sp -> meta_is sp m' ->
  represents (<[bucketMeta := m']> C) sp.
Proof.
  intros [Hok _ Hev Hcp Hct] Hm'. split; [done|exists m'; split; [apply lookup_insert_eq|done]|..];
    by rewrite lookup_insert_ne.
Qed.

(** The record of a loss. *)
Lemma RecordDrop_keeps kind now sp db :
  represents (stored db) sp -> represents (stored (RecordDrop kind now db).1) sp.
Proof.
  intros Hr. pose proof Hr as [_ (m & Hm & Hmeta) _ _ _].
  set (k := if bool_decide (kind = EventKindRoute) then keyDroppedRoute else keyDroppedOther).
  assert (k ∉ core /\ k <> "") as [Hk Hne].
  { unfold k. case_bool_decide; split; try done; apply (bool_decide_unpack _); vm_compute; done. }
  assert (keyLastDropAt ∉ core) as Hk2 by (apply (bool_decide_unpack _); vm_compute; done).
  enough (match RecordDrop kind now db with
          | (db', Ok _) => represents (stored db') sp
          | (db', Err _) => stored db' = stored db end) as Hx
    by (destruct (RecordDrop kind now db) as [db' [u|e]]; simpl; congruence).
  apply (update_keeps _ db (fun _ C => represents C sp)). fold k.
  apply twp_bind, (twp_getUint64 _ _ (stored db) m); [done|done|].
  apply twp_bind. eapply (twp_putUint64 _ _ _ (stored db) m); [done|done|done|done|]. intros tx1 E1.
  eapply twp_putUint64; [exact E1|apply lookup_insert_eq|done|done|]. intros tx2 ->.
  rewrite insert_insert_eq. apply represents_meta; [done|]. by apply meta_other; [apply meta_other|].
Qed.

(** The record of an error: nothing but its two keys changes. *)
Lemma RecordError_stored code now sp db :
  represents (stored db) sp ->
  represents (stored (RecordError code now db).1) sp /\
  stored (RecordError code now db).1 !! bucketCheckpoints = stored db !! bucketCheckpoints.
Proof.
  intros Hr. pose proof Hr as [_ (m & Hm & Hmeta) _ _ _].
  assert (keyLastErrorCode ∉ core) as Hk1 by (apply (bool_decide_unpack _); vm_compute; done).
  assert (keyLastErrorAt ∉ core) as Hk2 by (apply (bool_decide_unpack _); vm_compute; done).
  enough (match RecordError code now db with
          | (db', Ok _) => represents (stored db') sp /\ stored db' !! bucketCheckpoints = stored db !! bucketCheckpoints
          | (db', Err _) => stored db' = stored db end) as Hx
    by (destruct (RecordError code now db) as [db' [u|e]]; simpl; [done|by rewrite Hx]).
  apply (update_keeps _ db (fun _ C => represents C sp /\ C !! bucketCheckpoints = stored db !! bucketCheckpoints)).
  apply twp_bind. eapply (twp_put _ _ _ (stored db) m); [done|done|done|]. intros tx1 E1.
  eapply twp_putUint64; [exact E1|apply lookup_insert_eq|done|done|]. intros tx2 ->.
  rewrite insert_insert_eq. split; [|by rewrite lookup_insert_ne].
  apply represents_meta; [done|]. by apply meta_other; [apply meta_other|].
Qed.

Lemma RecordError_keeps code now sp db :
  represents (stored db) sp -> represents (stored (RecordError code now db).1) sp.
Proof. intros Hr. by apply RecordError_stored. Qed.

(** ** Checkpoints *)

Lemma represents_other C sp b x : represents C sp ->
  b = bucketCheckpoints \/ b = bucketCounters -> represents (<[b := x]> C) sp.
Proof.
  intros [Hok (m & Hm & Hmeta) Hev Hcp Hct] Hb.
  split; [done|exists m; split; [|done]|..]; destruct Hb as [-> | ->]; map_at; done.
Qed.

Lemma SetCheckpoint_keeps key c sp db :
  represents (stored db) sp -> represents (stored (SetCheckpoint key c db).1) sp.
Proof.
  intros Hr. unfold SetCheckpoint. case_bool_decide; [done|].
  pose proof Hr as [_ _ _ [cp Hcp] _].
  enough (match Update (Put bucketCheckpoints key (encode_checkpoint c)) db with
          | (db', Ok _) => represents (stored db') sp
          | (db', Err _) => stored db' = stored db end) as Hx
    by (destruct (Update _ db) as [db' [u|e]]; simpl; congruence).
  apply (update_keeps _ db (fun _ C => represents C sp)).
  apply (twp_put _ _ _ (stored db) cp); [done|done|done|]. intros tx' ->. apply represents_other; auto.
Qed.

Lemma Checkpoint_read key db cp c :
  stored db !! bucketCheckpoints = Some cp -> cp !! key = Some (encode_checkpoint c) -> checkpoint_ok c ->
  Checkpoint key db = Ok c.
Proof.
  intros Hcp Hk Hc.
  enough (match Checkpoint key db with Ok x => x = c | Err _ => False end) as Hx.
  { by destruct (Checkpoint key db); [subst|]. }
  apply view_rule. apply twp_bind, (twp_getStr _ _ (stored db) cp); [done|done|].
  unfold get. rewrite Hk. simpl. unfold twp, tlift.
  rewrite decode_encode_checkpoint by done. by destruct (slen _ =? 0)%N eqn:E.
Qed.

(** A checkpoint is read off its bucket alone. *)
Lemma Checkpoint_value key db cp : stored db !! bucketCheckpoints = Some cp ->
  Checkpoint key db = if (slen (get key cp) =? 0)%N then Err (MkError "file does not exist" [SNotExist] None)
                      else decode_checkpoint (get key cp).
Proof.
  intros Hcp. unfold Checkpoint, View, tbind, tget. rewrite (get_law _ _ _ _ Hcp). unfold get.
  by destruct (slen _ =? 0)%N.
Qed.

Lemma Checkpoint_same key db db' : is_Some (stored db !! bucketCheckpoints) ->
  stored db' !! bucketCheckpoints = stored db !! bucketCheckpoints -> Checkpoint key db' = Checkpoint key db.
Proof. intros [cp Hcp] E. by rewrite (Checkpoint_value key db cp), (Checkpoint_value key db' cp) by congruence. Qed.

Lemma SetCheckpoint_stores key c sp db :
  represents (stored db) sp -> checkpoint_ok c ->
  match SetCheckpoint key c db with
  | (db', Ok _) => represents (stored db') sp /\ Checkpoint key db' = Ok c
  | (db', Err _) => stored db' = stored db
  end.
Proof.
  intros Hr Hc. unfold SetCheckpoint. case_bool_decide; [done|]. pose proof Hr as [_ _ _ [cp Hcp] _].
  pose proof (update_keeps (Put bucketCheckpoints key (encode_checkpoint c)) db
    (fun _ C => C = <[bucketCheckpoints := <[key := encode_checkpoint c]> cp]> (stored db))) as Hu.
  destruct (Update _ db) as [db' [u|e]].
  - assert (stored db' = <[bucketCheckpoints := <[key := encode_checkpoint c]> cp]> (stored db)) as E.
    { apply Hu. apply (twp_put _ _ _ (stored db) cp); [done|done|done|done]. }
    rewrite E. split; [apply represents_other; auto|].
    eapply Checkpoint_read; [by rewrite E, lookup_insert_eq|apply lookup_insert_eq|done].
  - apply Hu. apply (twp_put _ _ _ (stored db) cp); done.
Qed.

(** ** Side effects *)

Lemma alter_id' (C : gmap string (gmap string string)) b : alter (fun m => m) b C = C.
Proof.
  apply map_eq. intros b'. destruct (decide (b = b')) as [->|Hne].
  - rewrite lookup_alter_eq. by destruct (C !! b').
  - by rewrite lookup_alter_ne.
Qed.

Lemma tame_none bad : tame bucketCheckpoints (fun m => m) bad (tret tt).
Proof. split; [by left|]. intros tx _. apply twp_ret. by rewrite alter_id'. Qed.

Lemma alter_insert (C : gmap string (gmap string string)) b m g :
  C !! b = Some m -> <[b := g m]> C = alter g b C.
Proof.
  intros Hm. apply map_eq. intros b'. destruct (decide (b = b')) as [->|Hne].
  - by rewrite lookup_insert_eq, lookup_alter_eq, Hm.
  - by rewrite lookup_insert_ne, lookup_alter_ne.
Qed.

Lemma tame_put b k v :
  b = bucketCheckpoints \/ b = bucketCounters ->
  tame b (fun m => <[k := v]> m) (fun _ => BoltLive -> k = "") (Put b k v).
Proof.
  intros Hb. split; [done|]. intros tx [m Hm].
  eapply twp_put; [done|exact Hm|done|]. intros tx' ->. by rewrite <- (alter_insert _ b m).
Qed.

Definition counter_writes (counters : list (string * TrafficCounter)) (m : gmap string string) :
  gmap string string :=
foldl (fun m kv => <[kv.1 := encode_counter kv.2]> m) m counters.

Lemma tame_counters counters :
  tame bucketCounters (counter_writes counters)
    (fun _ => BoltLive -> exists c, ("", c) ∈ counters) (put_counters counters).
Proof.
  split; [by right|]. induction counters as [|[k c] l IH]; intros tx [m Hm].
  - apply twp_ret. by rewrite alter_id'.
  - cbn [put_counters]. apply twp_bind. eapply twp_put; [done|exact Hm| |].
    { intros e Hk Hl. exists c. rewrite (Hk Hl). set_solver. }
    intros tx1 E1.
    assert (contents tx1 !! bucketCounters = Some (<[k := encode_counter c]> m)) as Hm1
      by (by rewrite E1, lookup_insert_eq).
    assert (is_Some (contents tx1 !! bucketCounters)) as Hs1 by by eexists.
    specialize (IH tx1 Hs1). unfold twp in IH |- *.
    destruct (put_counters l tx1) as [tx2 [[]|e]].
    + rewrite IH, <- (alter_insert _ _ _ _ Hm1), E1, insert_insert_eq.
      by rewrite <- (alter_insert _ _ _ _ Hm).
    + intros Hl. destruct (IH Hl) as [c' Hc']. exists c'. set_solver.
Qed.

(** ** Enqueue, whatever it is given *)

Definition marshalled (payload : result string) : Prop :=
match payload with Ok raw => jv raw /\ compact raw = raw | Err _ => True end.

Lemma enqueue_step s sp kind observedAt payload b g bad side db :
  represents (stored db) sp -> store_ok s sp -> is_u64 (next sp + 1) ->
  is_i64 (UnixMilli observedAt) -> marshalled payload -> tame b g bad side ->
  match enqueue s kind observedAt payload side db with
  | (db', Ok e) => represents (stored db') (append e sp) /\
      (forall b', b' = bucketCheckpoints \/ b' = bucketCounters ->
        stored db' !! b' = alter g b (stored db) !! b') /\
      exists raw, payload = Ok raw /\ e = new_event s (next sp) (sp_stream sp) kind (UnixMilli observedAt) raw
  | (db', Err err) => stored db' = stored db
  end.
Proof.
  intros Hr Hst Hn Ha Hp Hside.
  destruct (validKind kind) eqn:Hk; [|unfold enqueue; by rewrite Hk].
  destruct (IsZero observedAt || (UnixMilli observedAt <=? 0)%Z) eqn:Ht;
    [unfold enqueue; by rewrite Hk, Ht|].
  destruct payload as [raw|err]; [|unfold enqueue; by rewrite Hk, Ht].
  destruct ((slen raw =? 0)%N || (MaxEventBytes <? slen raw)%N) eqn:Hs;
    [unfold enqueue; by rewrite Hk, Ht, Hs|].
  apply orb_false_iff in Ht as [_ Ht%Z.leb_gt]. apply orb_false_iff in Hs as [H0' H1'%N.ltb_ge].
  assert (payload_ok raw) as Hraw.
  { destruct Hp as [Hj Hc]. split_and!; try done. by intros ->. }
  pose proof (enqueue_outcome s sp kind observedAt raw b g bad side db Hr Hst Hn Hk Ht Ha Hraw Hside) as Ho.
  destruct (enqueue _ _ _ _ _ _) as [db' [e|err]]; [|apply Ho].
  destruct Ho as (-> & _ & Hr' & Hoth). split_and!; [done|done|by exists raw].
Qed.

(** ** Runs of the spool *)

Definition accepted (r : result Event) : list Event :=
match r with Ok e => [e] | Err _ => [] end.

(** [run s db h db']: operations, failed or not, lead from [db] to [db'], the
    events of [h] being those that an enqueue returned, in this order. *)
Inductive run (s : Store) (db : DB) : list Event -> DB -> Prop :=
| run_nil : run s db [] db
| run_enqueue h db1 kind t payload db2 r :
    run s db h db1 -> is_i64 (UnixMilli t) -> marshalled payload ->
    Enqueue s kind t payload db1 = (db2, r) -> run s db (h ++ accepted r) db2
| run_checkpoint h db1 kind t payload key c db2 r :
    run s db h db1 -> is_i64 (UnixMilli t) -> marshalled payload ->
    EnqueueWithCheckpoint s kind t payload key c db1 = (db2, r) -> run s db (h ++ accepted r) db2
| run_traffic h db1 t payload counters db2 r :
    run s db h db1 -> is_i64 (UnixMilli t) -> marshalled payload ->
    EnqueueTrafficSnapshot s t payload counters db1 = (db2, r) -> run s db (h ++ accepted r) db2
| run_ack h db1 stream n now :
    run s db h db1 -> run s db h (Acknowledge stream n now db1).1
| run_drop h db1 kind now :
    run s db h db1 -> run s db h (RecordDrop kind now db1).1
| run_error h db1 code now :
    run s db h db1 -> run s db h (RecordError code now db1).1
| run_set h db1 key c :
    run s db h db1 -> run s db h (SetCheckpoint key c db1).1
| run_open h db1 random :
    run s db h db1 -> run s db h (initialize random db1).1.

(** What is left of the events accepted so far: all of them but the [k] oldest,
    which were acknowledged. *)
Definition delivers (sp0 : spool) (h : list Event) (sp : spool) : Prop :=
exists k, sp_queue sp = drop k (sp_queue sp0 ++ h) /\ sp_acked sp = (sp_acked sp0 + N.of_nat k)%N /\
  (k <= length (sp_queue sp0 ++ h))%nat /\
  sp_node sp = sp_node sp0 /\ sp_stream sp = sp_stream sp0.

Lemma delivers_next sp0 h sp : delivers sp0 h sp -> next sp = (next sp0 + N.of_nat (length h))%N.
Proof.
  intros (k & Hq & Ha & Hk & _). unfold next, count. rewrite Hq, Ha, length_drop.
  rewrite length_app in *. lia.
Qed.

Lemma delivers_append sp0 h sp e : delivers sp0 h sp -> delivers sp0 (h ++ [e]) (append e sp).
Proof.
  intros (k & Hq & Ha & Hk & Hn & Hs). exists k. simpl. split_and!; try done.
  - by rewrite Hq, app_assoc, (drop_app_le (_ ++ h)).
  - rewrite app_assoc, length_app. lia.
Qed.

Lemma delivers_confirm sp0 h sp n : (sp_acked sp <= n < next sp)%N ->
  delivers sp0 h sp -> delivers sp0 h (confirm n sp).
Proof.
  intros Hn (k & Hq & Ha & Hk & Hnode & Hs). exists (k + N.to_nat (n - sp_acked sp))%nat.
  simpl. split_and!; try done.
  - by rewrite Hq, drop_drop.
  - lia.
  - unfold next, count in Hn. rewrite Hq, length_drop in Hn. lia.
Qed.

Definition holds_queue (sp0 : spool) (h : list Event) (db : DB) : Prop :=
exists sp, represents (stored db) sp /\ delivers sp0 h sp.

Lemma same_queue sp0 h db db' : stored db' = stored db -> holds_queue sp0 h db -> holds_queue sp0 h db'.
Proof. intros E (sp & Hr & Hd). exists sp. by rewrite E. Qed.

Lemma enqueue_queue s sp0 h kind t payload b g bad side db db' r :
  store_ok s sp0 -> is_u64 (next sp0 + N.of_nat (length (h ++ accepted r))) ->
  is_u64 (next sp0 + N.of_nat (length h) + 1) ->
  is_i64 (UnixMilli t) -> marshalled payload -> tame b g bad side ->
  enqueue s kind t payload side db = (db', r) ->
  holds_queue sp0 h db -> holds_queue sp0 (h ++ accepted r) db'.
Proof.
  intros Hst Hu Hu1 Ht Hp Hside E (sp & Hr & Hd).
  assert (store_ok s sp) as Hst' by (destruct Hd as (k & _ & _ & _ & Hn & _); unfold store_ok in *; by rewrite Hn).
  pose proof (enqueue_step s sp kind t payload b g bad side db Hr Hst') as Ho.
  rewrite (delivers_next _ _ _ Hd), E in Ho. specialize (Ho Hu1 Ht Hp Hside).
  destruct r as [e|err]; simpl.
  - exists (append e sp). split; [apply Ho|by apply delivers_append].
  - rewrite app_nil_r. apply (same_queue _ _ db); [done|by exists sp].
Qed.

Lemma ack_queue sp0 h stream n now db :
  holds_queue sp0 h db -> holds_queue sp0 h (Acknowledge stream n now db).1.
Proof.
  intros (sp & Hr & Hd). pose proof (Acknowledge_outcome sp db stream n now Hr) as Ho.
  destruct (Acknowledge stream n now db) as [db' [u|e]]; simpl.
  - destruct Ho as (_ & Hn & [(_ & E)|(Ha & Hr' & _)]).
    + apply (same_queue _ _ db); [done|by exists sp].
    + exists (confirm n sp). split; [done|by apply delivers_confirm].
  - apply (same_queue _ _ db); [apply Ho|by exists sp].
Qed.

Lemma run_queue s sp0 db h db' :
  represents (stored db) sp0 -> store_ok s sp0 -> is_u64 (next sp0 + N.of_nat (length h) + 1) ->
  run s db h db' -> holds_queue sp0 h db'.
Proof.
  intros Hr Hst Hu Hrun. induction Hrun as [|h db1 kind t payload db2 r _ IH Ht Hp E
    |h db1 kind t payload key c db2 r _ IH Ht Hp E|h db1 t payload counters db2 r _ IH Ht Hp E
    |h db1 stream n now _ IH|h db1 kind now _ IH|h db1 code now _ IH|h db1 key c _ IH|h db1 random _ IH].
  - exists sp0. split; [done|]. exists 0%nat. rewrite drop_0, app_nil_r, N.add_0_r. split_and!; try done. lia.
  - assert (is_u64 (next sp0 + N.of_nat (length h) + 1)) as Hu1 by (rewrite length_app in Hu; unfold is_u64 in *; lia).
    eapply enqueue_queue; [done|unfold is_u64 in *; lia|done|done|done|apply (tame_none (fun _ => True))|exact E|auto].
  - assert (is_u64 (next sp0 + N.of_nat (length h) + 1)) as Hu1 by (rewrite length_app in Hu; unfold is_u64 in *; lia).
    unfold EnqueueWithCheckpoint in E. case_bool_decide.
    + eapply (enqueue_queue _ _ _ _ _ _ bucketCheckpoints (fun m => m) (fun _ => True));
        [done|unfold is_u64 in *; lia|done|done|done| |exact E|auto]. split; [by left|done].
    + eapply enqueue_queue; [done|unfold is_u64 in *; lia|done|done|done|apply tame_put; by left|exact E|auto].
  - assert (is_u64 (next sp0 + N.of_nat (length h) + 1)) as Hu1 by (rewrite length_app in Hu; unfold is_u64 in *; lia).
    eapply enqueue_queue; [done|unfold is_u64 in *; lia|done|done|done|apply tame_counters|exact E|auto].
  - by apply ack_queue, IH.
  - destruct (IH Hu) as (sp & Hr1 & Hd). exists sp. split; [by apply RecordDrop_keeps|done].
  - destruct (IH Hu) as (sp & Hr1 & Hd). exists sp. split; [by apply RecordError_keeps|done].
  - destruct (IH Hu) as (sp & Hr1 & Hd). exists sp. split; [by apply SetCheckpoint_keeps|done].
  - destruct (IH Hu) as (sp & Hr1 & Hd). apply (same_queue _ _ db1); [|by exists sp].
    by eapply initialize_again.
Qed.

(** C22: across any run of operations, failed ones and reopenings included, the
    queue is the accepted events in order without the oldest ones, as many of
    them as were acknowledged: nothing is lost, duplicated or reordered. *)
Theorem spool_delivers s sp0 db h db' :
  represents (stored db) sp0 -> store_ok s sp0 -> is_u64 (next sp0 + N.of_nat (length h) + 1) ->
  run s db h db' ->
  exists sp, represents (stored db') sp /\ delivers sp0 h sp.
Proof. intros Hr Hst Hu Hrun. by apply (run_queue s sp0 db h db'). Qed.

(** With a working database an event is accepted exactly when it fits the
    limits of the spool and is then the last of the queue; otherwise nothing
    changes, and the answer is ErrFull unless the event itself is too large. *)
Theorem Enqueue_accepts s sp kind observedAt raw db :
  let e := new_event s (next sp) (sp_stream sp) kind (UnixMilli observedAt) raw in
  BoltLive -> represents (stored db) sp -> store_ok s sp -> is_u64 (next sp + 1) ->
  validKind kind = true -> (0 < UnixMilli observedAt)%Z -> is_i64 (UnixMilli observedAt) ->
  payload_ok raw ->
  match Enqueue s kind observedAt (Ok raw) db with
  | (db', Ok e') => fits s sp e /\ e' = e /\ represents (stored db') (append e sp)
  | (db', Err err) => ~ fits s sp e /\ stored db' = stored db /\
      ((slen (encoded e) <= MaxEventBytes)%N -> err = ErrFull)
  end.
Proof.
  intros e Hl Hr Hst Hn Hk Ha Hai Hp.
  pose proof (enqueue_outcome s sp kind observedAt raw _ _ _ _ db Hr Hst Hn Hk Ha Hai Hp
    (tame_none (fun _ => False))) as Ho. fold e in Ho. unfold Enqueue.
  destruct (enqueue _ _ _ _ _ _) as [db' [e'|err]].
  - by destruct Ho as (-> & Hf & Hr' & _).
  - by destruct Ho as (Hs & [?|[?|[Hf He]]]).
Qed.

(** An event stored together with a checkpoint. *)
Lemma checkpointed_step s sp kind observedAt payload key c db :
  represents (stored db) sp -> store_ok s sp -> is_u64 (next sp + 1) ->
  is_i64 (UnixMilli observedAt) -> marshalled payload -> checkpoint_ok c ->
  match EnqueueWithCheckpoint s kind observedAt payload key c db with
  | (db', Ok e) => represents (stored db') (append e sp) /\ Checkpoint key db' = Ok c /\
      exists raw, payload = Ok raw /\ e = new_event s (next sp) (sp_stream sp) kind (UnixMilli observedAt) raw
  | (db', Err _) => stored db' = stored db
  end.
Proof.
  intros Hr Hst Hn Ha Hp Hc. unfold EnqueueWithCheckpoint.
  set (side := if bool_decide (key = "") then _ else _).
  assert (tame bucketCheckpoints (fun m => <[key := encode_checkpoint c]> m) (fun _ => True) side) as Hside.
  { split; [by left|]. intros tx [m Hm]. subst side. case_bool_decide; [done|].
    eapply twp_put; [done|exact Hm|done|]. intros tx' ->.
    by rewrite <- (alter_insert _ _ m (fun m => <[key := encode_checkpoint c]> m)). }
  pose proof (enqueue_step s sp kind observedAt payload _ _ _ _ db Hr Hst Hn Ha Hp Hside) as Ho.
  destruct (enqueue _ _ _ _ _ _) as [db' [e|err]]; [|done]. destruct Ho as (Hr' & Hoth & Hraw).
  split; [done|]. split; [|done].
  destruct (re_checkpoints _ _ Hr) as [cp Hcp].
  specialize (Hoth bucketCheckpoints (or_introl eq_refl)). rewrite lookup_alter_eq, Hcp in Hoth.
  eapply Checkpoint_read; [exact Hoth|apply lookup_insert_eq|done].
Qed.

(** Why an event with a checkpoint is refused. *)
Lemma checkpointed_refused s sp kind observedAt raw key c db err :
  let e := new_event s (next sp) (sp_stream sp) kind (UnixMilli observedAt) raw in
  represents (stored db) sp -> store_ok s sp -> is_u64 (next sp + 1) ->
  validKind kind = true -> is_i64 (UnixMilli observedAt) -> jv raw -> compact raw = raw -> raw <> "" -> key <> "" ->
  (EnqueueWithCheckpoint s kind observedAt (Ok raw) key c db).2 = Err err ->
  ~ BoltLive \/ (UnixMilli observedAt <= 0)%Z \/ (MaxEventBytes < slen raw)%N \/ ~ fits s sp e.
Proof.
  intros e Hr Hst Hn Hk Hi Hj Hc Hne Hkey. unfold EnqueueWithCheckpoint. rewrite bool_decide_false by done.
  destruct (Z_le_gt_dec (UnixMilli observedAt) 0) as [|Ha]; [by right; left|].
  destruct (N.lt_ge_cases MaxEventBytes (slen raw)) as [|Hs]; [by right; right; left|].
  assert (0 < UnixMilli observedAt)%Z as Ha' by lia. assert (payload_ok raw) as Hp by by split_and!.
  pose proof (enqueue_outcome s sp kind observedAt raw _ _ _ _ db Hr Hst Hn Hk Ha' Hi Hp
    (tame_put bucketCheckpoints key (encode_checkpoint c) (or_introl eq_refl))) as Ho. fold e in Ho.
  destruct (enqueue _ _ _ _ _ _) as [db' [e'|err']]; [done|]. intros _.
  destruct Ho as [_ [Hl|[Hb|[Hf _]]]]; [by left| |by right; right; right].
  left. intros Hl. by apply Hkey, Hb.
Qed.

Lemma SetCheckpoint_live key c sp db : BoltLive -> represents (stored db) sp -> TrimSpace key <> "" -> key <> "" ->
  exists db', SetCheckpoint key c db = (db', Ok tt).
Proof.
  intros Hl Hr Hk Hk'. unfold SetCheckpoint. rewrite bool_decide_false by done.
  pose proof Hr as [_ _ _ [cp Hcp] _].
  pose proof (update_rule (Put bucketCheckpoints key (encode_checkpoint c)) db (fun _ _ => True) (fun _ => ~ BoltLive)) as Hu.
  destruct (Update _ db) as [db' [[]|e]]; [by exists db'|]. exfalso.
  destruct Hu as [_ Hn]; [done| |done].
  apply (twp_put _ _ _ (stored db) cp); [done|done| |done]. intros e' Hx _. by apply Hk', Hx.
Qed.

(** An event and the checkpoint of the log position after it are stored
    together or not at all. *)
Theorem EnqueueWithCheckpoint_atomic s sp kind observedAt payload key c db :
  represents (stored db) sp -> store_ok s sp -> is_u64 (next sp + 1) ->
  is_i64 (UnixMilli observedAt) -> marshalled payload -> checkpoint_ok c ->
  match EnqueueWithCheckpoint s kind observedAt payload key c db with
  | (db', Ok e) => represents (stored db') (append e sp) /\ Checkpoint key db' = Ok c
  | (db', Err _) => stored db' = stored db
  end.
Proof.
  intros Hr Hst Hn Ha Hp Hc. pose proof (checkpointed_step s sp kind observedAt payload key c db Hr Hst Hn Ha Hp Hc) as Ho.
  destruct (EnqueueWithCheckpoint _ _ _ _ _ _ _) as [db' [e|err]]; [|done]. by destruct Ho as (Hr' & Hc' & _).
Qed.

(** A batch is the front of the queue, cut at the limits: its events are
    consecutive from the one after the last acknowledged, within the bound on
    their number and, a first event apart, within the bound on their size; no
    further event would fit. *)
Theorem Batch_front sp db maxEvents maxBytes :
  let room := limit maxEvents MaxEventBatchEvents in
  let space := limit maxBytes MaxEventExpandedBytes in
  represents (stored db) sp ->
  exists b rest, Batch maxEvents maxBytes db = Ok b /\ bt_stream b = sp_stream sp /\
    sp_queue sp = bt_events b ++ rest /\ (Z.of_nat (length (bt_events b)) <= room)%Z /\
    (sp_queue sp <> [] -> bt_events b <> [] /\ bt_first b = (sp_acked sp + 1)%N /\
       bt_last b = (sp_acked sp + count (bt_events b))%N) /\
    ((length (bt_events b) <= 1)%nat \/ (Z.of_N (bytes (bt_events b)) <= space)%Z) /\
    (forall e r, rest = e :: r -> Z.of_nat (length (bt_events b)) = room \/
       (space < Z.of_N (bytes (bt_events b) + slen (encoded e)))%Z).
Proof.
  intros room space Hr. pose proof (re_ok _ _ Hr) as Hok.
  assert (0 < room /\ 0 < space)%Z as [Hroom Hspace].
  { unfold room, space, limit, MaxEventBatchEvents, MaxEventExpandedBytes.
    destruct (Z.leb_spec maxEvents 0), (Z.leb_spec maxBytes 0); simpl; [lia|..];
      repeat case_match; lia. }
  pose proof (taken_prefix (Z.to_nat room) space 0 false (sp_queue sp)) as [rest Hq].
  rewrite (Batch_taken sp) by done. unfold batch_of. fold room space.
  set (evs := taken (Z.to_nat room) space 0 false (sp_queue sp)) in *.
  eexists _, rest. split; [done|]. cbn [bt_stream bt_events bt_first bt_last].
  split; [done|]. split; [done|]. split.
  { pose proof (taken_length (Z.to_nat room) space 0 false (sp_queue sp)) as Hl. fold evs in Hl. lia. }
  split; [|split; [apply taken_bound|]].
  - intros Hne. assert (evs <> []) as Hev.
    { unfold evs. destruct (sp_queue sp) as [|e q]; [done|]. destruct (Z.to_nat room) as [|k] eqn:Ek; [lia|].
      destruct (taken_first k space e q) as [r ->]. done. }
    split; [done|]. by apply (front_numbers sp evs rest).
  - intros e r ->. pose proof (taken_maximal (Z.to_nat room) space 0 false (sp_queue sp) e r Hq) as Hmax.
    fold evs in Hmax. destruct Hmax as [Hl|Hl]; [left|right]; lia.
Qed.

(** An acknowledgement is accepted for the spool's own stream and for numbers
    already assigned, and then removes exactly the events up to that number; one
    that is out of date changes nothing, a refused one neither. *)
Theorem Acknowledge_exact sp db stream n now :
  represents (stored db) sp ->
  match Acknowledge stream n now db with
  | (db', Ok _) => stream = sp_stream sp /\ (n < next sp)%N /\
      exists sp', represents (stored db') sp' /\ sp_acked sp' = N.max n (sp_acked sp) /\
        exists gone, sp_queue sp = gone ++ sp_queue sp' /\
          (forall e, e ∈ gone -> (ev_seq e <= n)%N) /\ (forall e, e ∈ sp_queue sp' -> (n < ev_seq e)%N)
  | (db', Err _) => stored db' = stored db /\
      (~ BoltLive \/ stream <> sp_stream sp \/ (next sp <= n)%N)
  end.
Proof.
  intros Hr. pose proof (Acknowledge_outcome sp db stream n now Hr) as Ho. pose proof (re_ok _ _ Hr) as Hok.
  destruct (Acknowledge stream n now db) as [db' [u|e]]; [|done].
  destruct Ho as (Hs & Hn & Ho). split; [done|]. split; [done|].
  destruct Ho as [[Hold E]|(Hnew & Hr' & _)].
  - exists sp. rewrite E. split_and!; [done|lia|]. exists []. split_and!; [done|set_solver|].
    intros e [i Hi]%list_elem_of_lookup. rewrite (so_numbered _ Hok _ _ Hi). lia.
  - exists (confirm n sp). split_and!; [done|simpl; lia|].
    exists (take (N.to_nat (n - sp_acked sp)) (sp_queue sp)). split_and!.
    + simpl. by rewrite take_drop.
    + intros e [i Hi]%list_elem_of_lookup. apply lookup_take_Some in Hi as [Hi Hlt].
      rewrite (so_numbered _ Hok _ _ Hi). lia.
    + intros e [i Hi]%list_elem_of_lookup. simpl in Hi. rewrite lookup_drop in Hi.
      rewrite (so_numbered _ Hok _ _ Hi). lia.
Qed.

(** The queue status counts exactly the events and bytes that wait, and names
    the time of the oldest. *)
Theorem Info_counts sp db :
  represents (stored db) sp ->
  exists info, Info db = Ok info /\ qi_stream info = sp_stream sp /\
    qi_pending_events info = count (sp_queue sp) /\ qi_pending_bytes info = bytes (sp_queue sp) /\
    qi_acked info = sp_acked sp /\
    qi_oldest info = match sp_queue sp with e :: _ => ev_at e | [] => 0%Z end.
Proof.
  intros Hr. pose proof Hr as [Hok (m & Hm & [M1 M2 M3 M4 M5]) _ _ _].
  set (P := fun i => qi_stream i = sp_stream sp /\ qi_pending_events i = count (sp_queue sp) /\
    qi_pending_bytes i = bytes (sp_queue sp) /\ qi_acked i = sp_acked sp /\
    qi_oldest i = match sp_queue sp with e :: _ => ev_at e | [] => 0%Z end).
  enough (match Info db with Ok i => P i | Err _ => False end) as Hx.
  { destruct (Info db) as [i|]; [by exists i|done]. }
  apply (view_rule _ db P (fun _ => False)).
  do 14 (match goal with
         | |- twp (tbind (tget _ _) _) _ _ _ => apply twp_bind, (twp_getStr _ _ (stored db) m)
         | |- twp (tbind (getUint64 _ _) _) _ _ _ => apply twp_bind, (twp_getUint64 _ _ (stored db) m)
         | |- twp (tbind (getInt64 _ _) _) _ _ _ => apply twp_bind, (twp_getInt64 _ _ (stored db) m)
         end; [done|done|]).
  apply twp_bind, (twp_tfirst sp); [done|]. unfold P. rewrite M1, M3, M4, M5.
  pose proof (so_events _ Hok) as Hev. destruct (sp_queue sp) as [|e q]; [done|].
  apply Forall_cons in Hev as [[He _] _]. cbn [head fmap option_fmap option_map].
  apply twp_bind. change (entry_of e) with (sequenceKey (ev_seq e), encoded e). cbv iota.
  apply twp_bind. unfold twp at 1, tlift, encoded. by rewrite decode_encode_event.
Qed.
End operations.

(** ** Witnesses, with the database in memory *)

Definition ex_random : string := "0123456789abcdef".
Definition ex_node : Z := 7.
Definition ex_spool0 : spool := Spool ex_node (EncodeToString ex_random) 0 [].
Definition ex_db0 : @DB mem_bolt := (@initialize mem_bolt (Ok ex_random) ∅).1.
Definition ex_store : Store := MkStore ex_node 1000 2.
Definition ex_payload : string := obj [("sourcePort", FormatUint 443)].
Definition ex_time : Z := 1700000000000000000.

Lemma ex_represents0 : @represents (@stored mem_bolt mem_bolt_laws ex_db0) ex_spool0.
Proof.
  pose proof (@initialize_fresh mem_bolt mem_bolt_laws ex_node ex_random ∅ eq_refl) as Hi.
  unfold ex_db0. destruct (@initialize mem_bolt (Ok ex_random) ∅) as [db r] eqn:E.
  destruct r as [u|e]; [by apply Hi|]. exfalso.
  apply (f_equal snd) in E. vm_compute in E. discriminate E.
Qed.

Lemma ex_store_ok : store_ok ex_store ex_spool0.
Proof. by split; vm_compute. Qed.

Lemma ex_payload_ok : payload_ok ex_payload.
Proof.
  split_and!; [|by vm_compute|by vm_compute|by vm_compute].
  apply jv_obj; [done|]. members_ok.
Qed.

Definition ex_enqueue (k : string) (db : @DB mem_bolt) : @DB mem_bolt * result Event :=
  @EnqueueWithCheckpoint mem_bolt ex_store EventKindAccess ex_time (Ok ex_payload) k
    (MkCheckpoint 1 2 300 0 "" true) db.

Definition ex_db1 : @DB mem_bolt := (ex_enqueue "/var/log/access.log" ex_db0).1.
Definition ex_event : Event :=
  new_event ex_store 1 (EncodeToString ex_random) EventKindAccess 1700000000000 ex_payload.
Definition ex_db2 : @DB mem_bolt := (@Acknowledge mem_bolt (EncodeToString ex_random) 1 ex_time ex_db1).1.

Lemma ex_marshalled : marshalled (Ok ex_payload).
Proof. split; apply ex_payload_ok. Qed.

Lemma ex_enqueued : ex_enqueue "/var/log/access.log" ex_db0 = (ex_db1, Ok ex_event).
Proof.
  unfold ex_db1. rewrite (surjective_pairing (ex_enqueue _ _)) at 1.
  assert ((ex_enqueue "/var/log/access.log" ex_db0).2 = Ok ex_event) as -> by (vm_compute; reflexivity).
  reflexivity.
Qed.

Lemma ex_run1 : @run mem_bolt ex_store ex_db0 [ex_event] ex_db1.
Proof.
  apply (run_checkpoint ex_store ex_db0 [] ex_db0 EventKindAccess ex_time (Ok ex_payload)
    "/var/log/access.log" (MkCheckpoint 1 2 300 0 "" true) ex_db1 (Ok ex_event)).
  - apply run_nil.
  - by vm_compute.
  - exact ex_marshalled.
  - exact ex_enqueued.
Qed.

Lemma ex_run2 : @run mem_bolt ex_store ex_db0 [ex_event] ex_db2.
Proof. apply run_ack, ex_run1. Qed.

Lemma spool_delivers_witness :
  exists sp, @represents (@stored mem_bolt mem_bolt_laws ex_db2) sp /\ delivers ex_spool0 [ex_event] sp.
Proof.
  apply (@spool_delivers mem_bolt mem_bolt_laws ex_store ex_spool0 ex_db0).
  - exact ex_represents0.
  - exact ex_store_ok.
  - by vm_compute.
  - exact ex_run2.
Defined.

Lemma Enqueue_accepts_witness :
  let e := new_event ex_store (next ex_spool0) (sp_stream ex_spool0) EventKindAccess (UnixMilli ex_time) ex_payload in
  match @Enqueue mem_bolt ex_store EventKindAccess ex_time (Ok ex_payload) ex_db0 with
  | (db', Ok e') => fits ex_store ex_spool0 e /\ e' = e /\
      @represents (@stored mem_bolt mem_bolt_laws db') (append e ex_spool0)
  | (db', Err err) => ~ fits ex_store ex_spool0 e /\
      @stored mem_bolt mem_bolt_laws db' = @stored mem_bolt mem_bolt_laws ex_db0 /\
      ((slen (encoded e) <= MaxEventBytes)%N -> err = ErrFull)
  end.
Proof.
  apply (@Enqueue_accepts mem_bolt mem_bolt_laws ex_store ex_spool0).
  - exact mem_bolt_live.
  - exact ex_represents0.
  - exact ex_store_ok.
  - by vm_compute.
  - by vm_compute.
  - by vm_compute.
  - by vm_compute.
  - exact ex_payload_ok.
Defined.

Lemma EnqueueWithCheckpoint_atomic_witness :
  @represents (@stored mem_bolt mem_bolt_laws ex_db1) (append ex_event ex_spool0) /\
  @Checkpoint mem_bolt "/var/log/access.log" ex_db1 = Ok (MkCheckpoint 1 2 300 0 "" true).
Proof.
  pose proof (@EnqueueWithCheckpoint_atomic mem_bolt mem_bolt_laws ex_store ex_spool0 EventKindAccess ex_time
    (Ok ex_payload) "/var/log/access.log" (MkCheckpoint 1 2 300 0 "" true) ex_db0) as Ha.
  change (EnqueueWithCheckpoint _ _ _ _ _ _ ex_db0) with (ex_enqueue "/var/log/access.log" ex_db0) in Ha.
  rewrite ex_enqueued in Ha. apply Ha.
  - exact ex_represents0.
  - exact ex_store_ok.
  - by vm_compute.
  - by vm_compute.
  - exact ex_marshalled.
  - by vm_compute.
Defined.

Definition ex_dbq : @DB mem_bolt := (@Enqueue mem_bolt ex_store EventKindAccess ex_time (Ok ex_payload) ex_db0).1.

Lemma ex_representsq : @represents (@stored mem_bolt mem_bolt_laws ex_dbq) (append ex_event ex_spool0).
Proof.
  pose proof (@enqueue_step mem_bolt mem_bolt_laws ex_store ex_spool0 EventKindAccess ex_time (Ok ex_payload)
    _ _ _ _ ex_db0 ex_represents0 ex_store_ok ltac:(by vm_compute) ltac:(by vm_compute) ex_marshalled
    (tame_none (fun _ => False))) as Ho.
  assert (@Enqueue mem_bolt ex_store EventKindAccess ex_time (Ok ex_payload) ex_db0 = (ex_dbq, Ok ex_event)) as E.
  { unfold ex_dbq. rewrite (surjective_pairing (Enqueue _ _ _ _ _)) at 1.
    assert ((@Enqueue mem_bolt ex_store EventKindAccess ex_time (Ok ex_payload) ex_db0).2 = Ok ex_event)
      as -> by (vm_compute; reflexivity). reflexivity. }
  unfold Enqueue in E. rewrite E in Ho. by destruct Ho.
Qed.

Lemma Batch_front_witness :
  exists b rest, @Batch mem_bolt 10 0 ex_dbq = Ok b /\ bt_stream b = EncodeToString ex_random /\
    [ex_event] = bt_events b ++ rest /\ (Z.of_nat (length (bt_events b)) <= 10)%Z /\
    ([ex_event] <> [] -> bt_events b <> [] /\ bt_first b = 1%N /\
       bt_last b = (0 + count (bt_events b))%N) /\
    ((length (bt_events b) <= 1)%nat \/ (Z.of_N (bytes (bt_events b)) <= MaxEventExpandedBytes)%Z) /\
    (forall e r, rest = e :: r -> Z.of_nat (length (bt_events b)) = 10%Z \/
       (MaxEventExpandedBytes < Z.of_N (bytes (bt_events b) + slen (encoded e)))%Z).
Proof.
  exact (@Batch_front mem_bolt mem_bolt_laws (append ex_event ex_spool0) ex_dbq 10 0 ex_representsq).
Defined.

Lemma Acknowledge_exact_witness :
  match @Acknowledge mem_bolt (EncodeToString ex_random) 1 ex_time ex_dbq with
  | (db', Ok _) => EncodeToString ex_random = EncodeToString ex_random /\ (1 < next (append ex_event ex_spool0))%N /\
      exists sp', @represents (@stored mem_bolt mem_bolt_laws db') sp' /\ sp_acked sp' = N.max 1 0 /\
        exists gone, [ex_event] = gone ++ sp_queue sp' /\
          (forall e, e ∈ gone -> (ev_seq e <= 1)%N) /\ (forall e, e ∈ sp_queue sp' -> (1 < ev_seq e)%N)
  | (db', Err _) => @stored mem_bolt mem_bolt_laws db' = @stored mem_bolt mem_bolt_laws ex_dbq /\
      (~ @BoltLive mem_bolt mem_bolt_laws \/ EncodeToString ex_random <> EncodeToString ex_random \/
       (next (append ex_event ex_spool0) <= 1)%N)
  end.
Proof.
  exact (@Acknowledge_exact mem_bolt mem_bolt_laws (append ex_event ex_spool0) ex_dbq
    (EncodeToString ex_random) 1 ex_time ex_representsq).
Defined.

Lemma Info_counts_witness :
  exists info, @Info mem_bolt ex_dbq = Ok info /\ qi_stream info = EncodeToString ex_random /\
    qi_pending_events info = 1%N /\ qi_pending_bytes info = bytes [ex_event] /\
    qi_acked info = 0%N /\ qi_oldest info = 1700000000000%Z.
Proof.
  exact (@Info_counts mem_bolt mem_bolt_laws (append ex_event ex_spool0) ex_dbq ex_representsq).
Defined.
