(* ===== verification/Uploader.v ===== *)
(** * Uploading telemetry (internal/telemetry/uploader.go)

    The uploader sends the oldest events of the spool to the panel and removes
    those whose receipt the panel confirms; failures are retried after a delay
    that doubles up to a minute.  What the panel
    answers to one request is a function [exchange], another one for each turn. *)

From stdpp Require Import base gmap strings list fin_maps sorting.
From Stdlib Require Import ZArith NArith Ascii.
From S2P Require Import Prelude.
From S2P Require Import GoStrings.
From S2P Require Import Json.
From S2P Require Import Bolt.
From S2P Require Import Events.
From S2P Require Import EventSpool.
From S2P Require Import SpoolProofs.
From S2P Require Import SpoolTheorems.

Definition maxUploadResponseBytes : N := 65536.
Definition uploadBatchBytes : Z := 524288.

(** time.Duration, in nanoseconds *)
Definition Millisecond : Z := 1000000.
Definition Second : Z := 1000 * Millisecond.
Definition Minute : Z := 60 * Second.

Record Uploader : Set := MkUploader {
  up_endpoint : string;
  up_node : Z;
  up_credential : string
}.

(** ** Messages *)

Fixpoint encode_events (l : list Event) : result (list string) :=
  match l with
  | [] => Ok []
  | e :: l' => let? x := encode_event e in let? xs := encode_events l' in Ok (x :: xs)
  end.

(** json.Marshal(batch) *)
Definition encode_batch (b : EventBatch) : result string :=
  let? events := encode_events (bt_events b) in
  Ok (obj [("version", quote (bt_version b)); ("streamId", quote (bt_stream b));
           ("firstSequence", FormatUint (bt_first b)); ("lastSequence", FormatUint (bt_last b));
           ("events", arr events)]).

Definition ack_fields : list (string * setter EventBatchAck) :=
  [("version", fld dec_string (fun v a => MkAck v (ack_stream a) (ack_highest a)));
   ("streamId", fld dec_string (fun v a => MkAck (ack_version a) v (ack_highest a)));
   ("highestContiguousSequence", fld (dec_uint 64) (fun v a => MkAck (ack_version a) (ack_stream a) v))].

(** One value of the known fields and nothing after it. *)
Definition decode_ack (body : string) : result EventBatchAck :=
  match decode_text true ack_fields (MkAck "" "" 0) body with
  | Some a => Ok a
  | None => Err (errorsNew "invalid event acknowledgement")
  end.

Definition ack_members (a : EventBatchAck) : list (string * string) :=
  [("version", quote (ack_version a)); ("streamId", quote (ack_stream a));
   ("highestContiguousSequence", FormatUint (ack_highest a))].

(** ** The exchange with the panel *)

Record http_request : Set := MkHttp {
  rq_url : string;
  rq_headers : list (string * string);
  rq_body : string
}.

Inductive answer : Set :=
  | BadRequest (e : error)            (* http.NewRequestWithContext fails *)
  | Unavailable                       (* client.Do fails *)
  | ReadFailed                        (* the body breaks off *)
  | Response (status : Z) (body : string).

(** What the checks on a response make of it. *)
Definition check_response (b : EventBatch) (status : Z) (full : string) : result EventBatchAck :=
  let body := stake (N.to_nat maxUploadResponseBytes + 1) full in
  let? _ := guard_err (maxUploadResponseBytes <? slen body)%N "event acknowledgement exceeds limit" in
  let? _ := guard_err (negb (status =? 200)%Z) ("event endpoint returned HTTP " +:+ FormatInt status) in
  let? ack := decode_ack body in
  let? _ := guard_err (negb (bool_decide (ack_version ack = EventVersion))
                       || negb (bool_decide (ack_stream ack = bt_stream b)))
              "event acknowledgement contract mismatch" in
  let? _ := guard_err (ack_highest ack <? bt_first b)%N
              "event acknowledgement did not reach the first batch sequence" in
  let? _ := guard_err (bt_last b <? ack_highest ack)%N
              "event acknowledgement exceeds the uploaded batch" in
  Ok ack.

Section uploader.
Context `{Bolt}.
Context (u : Uploader) (gzip : string -> string).

Definition upload_request (compressed : string) : http_request :=
MkHttp (up_endpoint u)
  [("Authorization", "Bearer " +:+ up_credential u); ("X-XUI-Agent-Node-ID", FormatInt (up_node u));
   ("X-XUI-Agent-Event-Version", EventVersion); ("Content-Type", "application/json");
   ("Content-Encoding", "gzip")] compressed.

(** uploadOnce: whether there were events, and the error. *)
Definition uploadOnce (exchange : http_request -> answer) (now : Z) (db : DB) : DB * (bool * option error) :=
match Batch MaxEventBatchEvents uploadBatchBytes db with
| Err e => (db, (false, Some e))
| Ok batch =>
    match bt_events batch with
    | [] => (db, (false, None))
    | _ :: _ =>
        match encode_batch batch with
        | Err e => (db, (true, Some e))
        | Ok raw =>
            let compressed := gzip raw in
            if (MaxEventCompressedBytes <? Z.of_N (slen compressed))%Z then
              (db, (true, Some (errorsNew "compressed event batch exceeds limit")))
            else
              match exchange (upload_request compressed) with
              | BadRequest e => (db, (true, Some e))
              | Unavailable => (db, (true, Some (errorsNew "event endpoint unavailable")))
              | ReadFailed => (db, (true, Some (errorsNew "event acknowledgement read failed")))
              | Response status full =>
                  match check_response batch status full with
                  | Err e => (db, (true, Some e))
                  | Ok ack =>
                      match Acknowledge (ack_stream ack) (ack_highest ack) now db with
                      | (db', Ok _) => (db', (true, None))
                      | (db', Err e) => (db', (true, Some e))
                      end
                  end
              end
        end
    end
end.

Definition uploadErrorCode (e : option error) : string :=
match e with None => "" | Some _ => "event_upload_failed" end.

(** One turn of the loop of [Run]: the new state, and how long to wait. *)
Definition run_turn (exchange : http_request -> answer) (now : Z) (st : DB * Z) : (DB * Z) * Z :=
let (db, backoff) := st in
match uploadOnce exchange now db with
| (db', (hadEvents, None)) =>
    ((db', Second), if hadEvents then (100 * Millisecond)%Z else Second)
| (db', (_, Some e)) =>
    let db'' := (RecordError (uploadErrorCode (Some e)) now db').1 in
    let doubled := (backoff * 2)%Z in
    ((db'', if (Minute <? doubled)%Z then Minute else doubled), backoff)
end.

(** [Run] for the turns given by the clock and the panel's answers. *)
Fixpoint run_turns (turns : list (Z * (http_request -> answer))) (st : DB * Z) : DB * Z :=
match turns with
| [] => st
| (now, exchange) :: rest => run_turns rest (run_turn exchange now st).1
end.
End uploader.

(** ** What is removed was confirmed *)

Lemma check_response_ok b status full ack : check_response b status full = Ok ack ->
  status = 200%Z /\ ack_version ack = EventVersion /\ ack_stream ack = bt_stream b /\
  (bt_first b <= ack_highest ack <= bt_last b)%N.
Proof.
  unfold check_response. intros ([] & _ & H)%rbind_Ok.
  apply rbind_Ok in H as ([] & H1 & H). apply rbind_Ok in H as (a & _ & H).
  apply rbind_Ok in H as ([] & H2 & H). apply rbind_Ok in H as ([] & H3 & H).
  apply rbind_Ok in H as ([] & H4 & [= ->]).
  apply guard_err_Ok in H1, H2, H3, H4. apply negb_false_iff, Z.eqb_eq in H1.
  apply orb_false_iff in H2 as [Hv Hs]. apply negb_false_iff, bool_decide_eq_true in Hv, Hs.
  apply N.ltb_ge in H3, H4. done.
Qed.

Lemma encode_events_ok l : Forall event_ok l -> encode_events l = Ok (encoded <$> l).
Proof.
  induction 1 as [|e l He _ IH]; [done|]. simpl. rewrite encode_event_ok by done. simpl.
  by rewrite IH.
Qed.

Section proofs.
Context `{BL : BoltLaws}.
Context (u : Uploader) (gzip : string -> string).

(** The batch that a turn sends. *)
Definition sent (sp : spool) : list Event := batch_of sp MaxEventBatchEvents uploadBatchBytes.

Definition sent_batch (sp : spool) : EventBatch :=
MkBatch EventVersion (sp_stream sp)
  (match sent sp with e :: _ => ev_seq e | [] => 0%N end)
  (match last (sent sp) with Some e => ev_seq e | None => 0%N end) (sent sp).

Definition sent_text (sp : spool) : string :=
obj [("version", quote EventVersion); ("streamId", quote (sp_stream sp));
     ("firstSequence", FormatUint (bt_first (sent_batch sp)));
     ("lastSequence", FormatUint (bt_last (sent_batch sp))); ("events", arr (encoded <$> sent sp))].

Lemma sent_prefix sp : exists rest, sp_queue sp = sent sp ++ rest.
Proof. apply taken_prefix. Qed.

Lemma sent_encoded sp : spool_ok sp -> encode_batch (sent_batch sp) = Ok (sent_text sp).
Proof.
  intros Hok. unfold encode_batch. cbn [bt_events sent_batch]. rewrite encode_events_ok; [done|].
  pose proof (so_events _ Hok) as He. destruct (sent_prefix sp) as [rest Hq]. rewrite Hq in He.
  apply Forall_app in He as [He _]. eapply Forall_impl; [exact He|]. by intros x [? _].
Qed.

Lemma sent_nonempty sp : sp_queue sp <> [] -> sent sp <> [].
Proof.
  intros Hne. unfold sent, batch_of. destruct (sp_queue sp) as [|e q]; [done|].
  change (Z.to_nat (limit MaxEventBatchEvents MaxEventBatchEvents)) with 500%nat.
  destruct (taken_first 499 (limit uploadBatchBytes MaxEventExpandedBytes) e q) as [r ->]. done.
Qed.

Lemma sent_numbers sp : spool_ok sp -> sent sp <> [] ->
  bt_first (sent_batch sp) = (sp_acked sp + 1)%N /\
  bt_last (sent_batch sp) = (sp_acked sp + count (sent sp))%N /\
  (sp_acked sp + count (sent sp) < next sp)%N.
Proof.
  intros Hok Hne. destruct (sent_prefix sp) as [rest Hq].
  destruct (front_numbers sp _ _ Hok Hq Hne) as [H1 H2]. split_and!; [done|done|].
  unfold next. rewrite Hq, count_app. lia.
Qed.

(** What one turn does to the queue. *)
Definition uploaded (sp : spool) (exchange : http_request -> answer) (n : N) : Prop :=
(sp_acked sp < n <= sp_acked sp + count (sent sp))%N /\
exists full ack, exchange (upload_request u (gzip (sent_text sp))) = Response 200 full /\
  check_response (sent_batch sp) 200 full = Ok ack /\ ack_highest ack = n.

Lemma uploadOnce_outcome exchange now sp db :
  represents (stored db) sp ->
  match uploadOnce u gzip exchange now db with
  | (db', (had, None)) =>
      (had = false /\ sp_queue sp = [] /\ db' = db) \/
      (had = true /\ exists n, uploaded sp exchange n /\ represents (stored db') (confirm n sp))
  | (db', (_, Some _)) => stored db' = stored db
  end.
Proof.
  intros Hr. pose proof (re_ok _ _ Hr) as Hok. unfold uploadOnce.
  rewrite (Batch_taken sp) by done. change (MkBatch EventVersion _ _ _ _) with (sent_batch sp).
  change (bt_events (sent_batch sp)) with (sent sp). rewrite sent_encoded by done.
  destruct (sent sp) as [|e l] eqn:El.
  { left. split_and!; [done| |done]. destruct (decide (sp_queue sp = [])) as [|Hne]; [done|].
    by apply sent_nonempty in Hne. }
  assert (sent sp <> []) as Hne by (by rewrite El). clear El.
  destruct (Z.ltb _ _); [done|].
  destruct (exchange _) as [| | |status full] eqn:Ex; try done.
  destruct (check_response _ status full) as [ack|] eqn:Ea; [|done].
  apply check_response_ok in Ea as Hack. destruct Hack as (-> & _ & Hs & Hb).
  destruct (sent_numbers sp Hok Hne) as (Hf & Hl & Hn). rewrite Hf, Hl in Hb.
  pose proof (Acknowledge_outcome sp db (ack_stream ack) (ack_highest ack) now Hr) as Ho.
  destruct (Acknowledge _ _ _ _) as [db' [x|err]]; [|apply Ho].
  destruct Ho as (_ & _ & [[Hold _]|(Hge & Hr' & _)]); [lia|].
  right. split; [done|]. exists (ack_highest ack). split; [|done]. split; [lia|]. by exists full, ack.
Qed.

(** With a working database, a confirmed batch is removed. *)
Lemma uploadOnce_confirmed exchange now sp db full ack :
  BoltLive -> represents (stored db) sp -> sp_queue sp <> [] ->
  (Z.of_N (slen (gzip (sent_text sp))) <= MaxEventCompressedBytes)%Z ->
  exchange (upload_request u (gzip (sent_text sp))) = Response 200 full ->
  check_response (sent_batch sp) 200 full = Ok ack ->
  exists db', uploadOnce u gzip exchange now db = (db', (true, None)) /\
    represents (stored db') (confirm (ack_highest ack) sp).
Proof.
  intros Hl Hr Hq Hz Ex Ea. pose proof (re_ok _ _ Hr) as Hok. apply sent_nonempty in Hq as Hne.
  unfold uploadOnce. rewrite (Batch_taken sp) by done.
  change (MkBatch EventVersion _ _ _ _) with (sent_batch sp).
  change (bt_events (sent_batch sp)) with (sent sp). rewrite sent_encoded by done.
  destruct (sent sp) as [|e l] eqn:El; [done|]. rewrite <- El in Hne. clear El e l.
  destruct (Z.ltb_spec MaxEventCompressedBytes (Z.of_N (slen (gzip (sent_text sp))))); [lia|].
  rewrite Ex, Ea. apply check_response_ok in Ea as (_ & _ & Hs & Hb).
  destruct (sent_numbers sp Hok Hne) as (Hf & Hla & Hn). rewrite Hf, Hla in Hb.
  pose proof (Acknowledge_outcome sp db (ack_stream ack) (ack_highest ack) now Hr) as Ho.
  destruct (Acknowledge _ _ _ _) as [db' [x|err]].
  - destruct Ho as (_ & _ & [[Hold _]|(Hge & Hr' & _)]); [lia|]. by exists db'.
  - destruct Ho as (_ & [?|[?|?]]); [done|done|lia].
Qed.

(** ** Sequences of turns *)

(** The panel confirmed event [e], which it had been sent, during [turns]. *)
Definition confirmed (turns : list (Z * (http_request -> answer))) (e : Event) : Prop :=
exists now exchange sp full ack, (now, exchange) ∈ turns /\ e ∈ sent sp /\
  exchange (upload_request u (gzip (sent_text sp))) = Response 200 full /\
  check_response (sent_batch sp) 200 full = Ok ack /\ (ev_seq e <= ack_highest ack)%N.

(** [after_upload turns sp sp']: the queue of [sp'] is that of [sp] without some
    of its oldest events, all confirmed. *)
Definition after_upload (turns : list (Z * (http_request -> answer))) (sp sp' : spool) : Prop :=
exists gone, sp_queue sp = gone ++ sp_queue sp' /\ sp_stream sp' = sp_stream sp /\
  forall e, e ∈ gone -> confirmed turns e.

Lemma confirm_after_upload exchange now sp n :
  spool_ok sp -> uploaded sp exchange n -> after_upload [(now, exchange)] sp (confirm n sp).
Proof.
  intros Hok (Hn & full & ack & Ex & Ea & En). exists (take (N.to_nat (n - sp_acked sp)) (sp_queue sp)).
  split; [simpl; by rewrite take_drop|]. split; [done|].
  intros e [i Hi]%list_elem_of_lookup. apply lookup_take_Some in Hi as [Hi Hlt].
  exists now, exchange, sp, full, ack. split; [set_solver|]. split; [|split_and!; try done].
  - destruct (sent_prefix sp) as [rest Hq]. rewrite Hq in Hi. apply list_elem_of_lookup. exists i.
    rewrite lookup_app_l in Hi; [done|]. unfold count in Hn. lia.
  - rewrite (so_numbered _ Hok _ _ Hi). lia.
Qed.

Lemma run_turn_outcome exchange now sp db backoff :
  represents (stored db) sp ->
  exists sp', represents (stored (run_turn u gzip exchange now (db, backoff)).1.1) sp' /\
    after_upload [(now, exchange)] sp sp'.
Proof.
  intros Hr. pose proof (uploadOnce_outcome exchange now sp db Hr) as Ho. unfold run_turn.
  assert (after_upload [(now, exchange)] sp sp) as Hsame by (exists []; set_solver).
  destruct (uploadOnce _ _ _ _ _) as [db' [had [e|]]]; simpl.
  - exists sp. split; [|done]. apply RecordError_keeps. by rewrite Ho.
  - destruct Ho as [(-> & _ & ->)|(-> & n & Hn & Hr')]; [by exists sp|].
    exists (confirm n sp). split; [done|]. apply confirm_after_upload; [apply Hr|done].
Qed.

Lemma after_upload_trans t1 t2 sp1 sp2 sp3 :
  after_upload t1 sp1 sp2 -> after_upload t2 sp2 sp3 -> after_upload (t1 ++ t2) sp1 sp3.
Proof.
  intros (g1 & Q1 & S1 & C1) (g2 & Q2 & S2 & C2). exists (g1 ++ g2). split_and!.
  - by rewrite Q1, Q2, app_assoc.
  - congruence.
  - intros e [He|He]%elem_of_app.
    + destruct (C1 e He) as (n & x & sp & f & a & Hin & Hrest). exists n, x, sp, f, a. set_solver.
    + destruct (C2 e He) as (n & x & sp & f & a & Hin & Hrest). exists n, x, sp, f, a. set_solver.
Qed.

Lemma run_turns_outcome turns sp st :
  represents (stored st.1) sp ->
  exists sp', represents (stored (run_turns u gzip turns st).1) sp' /\ after_upload turns sp sp'.
Proof.
  revert sp st. induction turns as [|[now ex] turns IH]; intros sp [db backoff] Hr.
  - exists sp. split; [done|]. exists []. set_solver.
  - destruct (run_turn_outcome ex now sp db backoff Hr) as (sp1 & Hr1 & Ha1).
    destruct (IH sp1 _ Hr1) as (sp2 & Hr2 & Ha2). exists sp2. split; [done|].
    by apply (after_upload_trans [(now, ex)] turns sp sp1).
Qed.

(** ** Delivery to a panel that answers *)

Definition answers (exchange : http_request -> answer) (sp : spool) : Prop :=
(Z.of_N (slen (gzip (sent_text sp))) <= MaxEventCompressedBytes)%Z /\
exists full ack, exchange (upload_request u (gzip (sent_text sp))) = Response 200 full /\
  check_response (sent_batch sp) 200 full = Ok ack.

(** The panel answers whatever part of the queue it is sent. *)
Definition answering (sp : spool) (turns : list (Z * (http_request -> answer))) : Prop :=
Forall (fun t => forall sp', spool_ok sp' -> sp_stream sp' = sp_stream sp ->
  sp_queue sp' `suffix_of` sp_queue sp -> sp_queue sp' <> [] -> answers t.2 sp') turns.

Lemma run_turn_answered exchange now sp db backoff :
  BoltLive -> represents (stored db) sp -> (sp_queue sp <> [] -> answers exchange sp) ->
  exists sp', let st := (run_turn u gzip exchange now (db, backoff)).1 in
    represents (stored st.1) sp' /\ st.2 = Second /\ sp_stream sp' = sp_stream sp /\
    sp_queue sp' `suffix_of` sp_queue sp /\
    (length (sp_queue sp') <= Init.Nat.pred (length (sp_queue sp)))%nat.
Proof.
  intros Hl Hr Hans. unfold run_turn. destruct (decide (sp_queue sp = [])) as [E|Hne].
  - exists sp. pose proof (uploadOnce_outcome exchange now sp db Hr) as Ho.
    unfold uploadOnce in *. rewrite (Batch_taken sp) in * by done. unfold batch_of in *. rewrite E in *.
    change (taken _ _ 0 false []) with (@nil Event) in *. cbn in *.
    split_and!; [done|done|done|done|lia].
  - destruct (Hans Hne) as (Hz & full & ack & Ex & Ea).
    destruct (uploadOnce_confirmed exchange now sp db full ack Hl Hr Hne Hz Ex Ea) as (db' & -> & Hr').
    exists (confirm (ack_highest ack) sp). split_and!; [done|done|done|apply suffix_drop|].
    apply sent_nonempty in Hne as Hs. destruct (sent_numbers sp (re_ok _ _ Hr) Hs) as (Hf & _).
    apply check_response_ok in Ea as (_ & _ & _ & Hb & _). rewrite Hf in Hb.
    simpl. rewrite length_drop. lia.
Qed.

Lemma run_turns_answered turns sp st :
  BoltLive -> represents (stored st.1) sp -> answering sp turns ->
  (length (sp_queue sp) <= length turns)%nat -> turns <> [] ->
  exists sp', represents (stored (run_turns u gzip turns st).1) sp' /\ sp_queue sp' = [] /\
    (run_turns u gzip turns st).2 = Second.
Proof.
  intros Hl. revert sp st. induction turns as [|[now ex] turns IH]; intros sp [db backoff] Hr Ha Hlen Hne; [done|].
  apply Forall_cons in Ha as [Ha Hrest]. simpl in Ha.
  destruct (run_turn_answered ex now sp db backoff Hl Hr) as (sp1 & Hr1 & Hb & Hs & Hsuf & Hlen1).
  { intros Hq. apply Ha; [apply Hr|done|done|done]. }
  simpl in Hlen. destruct turns as [|t turns].
  - exists sp1. cbn [run_turns]. split_and!; [done| |done].
    apply nil_length_inv. simpl in Hlen. lia.
  - apply (IH sp1); [done| |simpl in *; lia|done].
    eapply Forall_impl; [exact Hrest|]. intros t' Ht sp' Hok Hs' Hsuf' Hne'.
    apply Ht; [done|congruence|by etrans|done].
Qed.
End proofs.

(** ** Theorems *)

Section theorems.
Context `{BL : BoltLaws}.
Context (u : Uploader) (gzip : string -> string).

(** C23: however the panel answers, turn after turn, an event leaves the spool only
    after the panel, having been sent it, acknowledged its sequence number in a
    well-formed answer for this stream and batch; the others stay in order. *)
Theorem upload_confirmed turns sp st :
  represents (stored st.1) sp ->
  exists sp', represents (stored (run_turns u gzip turns st).1) sp' /\
    exists gone, sp_queue sp = gone ++ sp_queue sp' /\
      forall e, e ∈ gone -> confirmed u gzip turns e.
Proof.
  intros Hr. destruct (run_turns_outcome u gzip turns sp st Hr) as (sp' & Hr' & gone & Hq & _ & Hc).
  exists sp'. split; [done|]. by exists gone.
Qed.

(** C29: a panel that answers every batch empties the spool in at most one turn per
    event, and the retry delay is back at its minimum. *)
Theorem upload_drains turns sp st :
  BoltLive -> represents (stored st.1) sp -> answering u gzip sp turns ->
  (length (sp_queue sp) <= length turns)%nat -> turns <> [] ->
  exists sp', represents (stored (run_turns u gzip turns st).1) sp' /\ sp_queue sp' = [] /\
    (run_turns u gzip turns st).2 = Second.
Proof. intros. by apply (run_turns_answered u gzip turns sp st). Qed.

(** Every turn fails. *)
Fixpoint all_fail (turns : list (Z * (http_request -> answer))) (st : DB * Z) : Prop :=
match turns with
| [] => True
| (now, exchange) :: rest =>
    (uploadOnce u gzip exchange now st.1).2.2 <> None /\
    all_fail rest (run_turn u gzip exchange now st).1
end.

Lemma failed_turn exchange now db backoff : (uploadOnce u gzip exchange now db).2.2 <> None ->
  (run_turn u gzip exchange now (db, backoff)).1.2 = Z.min (backoff * 2) Minute.
Proof.
  unfold run_turn. destruct (uploadOnce _ _ _ _ _) as [db' [had [e|]]]; [|done]. intros _. simpl.
  destruct (Z.ltb_spec Minute (backoff * 2)); lia.
Qed.

(** After [n] failures in a row the uploader waits [2^n] seconds, at most a
    minute. *)
Theorem backoff_doubles turns db :
  all_fail turns (db, Second) ->
  (run_turns u gzip turns (db, Second)).2 = Z.min (Second * 2 ^ Z.of_nat (length turns)) Minute.
Proof.
  assert (forall b, (0 < b)%Z -> all_fail turns (db, Z.min b Minute) ->
    (run_turns u gzip turns (db, Z.min b Minute)).2
    = Z.min (b * 2 ^ Z.of_nat (length turns)) Minute) as Hgen.
  { revert db. induction turns as [|[now ex] turns IH]; intros db b Hb Hf; [simpl; f_equal; lia|].
    destruct Hf as [Hfail Hrest]. cbn [run_turns length].
    pose proof (failed_turn ex now db (Z.min b Minute) Hfail) as Hn.
    destruct (run_turn u gzip ex now (db, Z.min b Minute)) as [[db' b'] d]. simpl in Hn, Hrest |- *.
    assert (b' = Z.min (b * 2) Minute) as -> by (rewrite Hn; unfold Minute, Second, Millisecond in *; lia).
    rewrite IH by (done || lia). f_equal. rewrite Nat2Z.inj_succ, Z.pow_succ_r by lia. lia. }
  intros Hf. by apply (Hgen Second).
Qed.
End theorems.

(** ** Witnesses *)

Definition ex_uploader : Uploader := MkUploader "https://panel/agent/events" ex_node "secret".

Definition ex_ack : EventBatchAck := MkAck EventVersion (EncodeToString ex_random) 1.

(** A panel that has received event 1, without compression on the way. *)
Definition ex_panel (_ : http_request) : answer := Response 200 (obj (ack_members ex_ack)).

Lemma upload_confirmed_witness :
  exists sp', @represents (@stored mem_bolt mem_bolt_laws
      (@run_turns mem_bolt ex_uploader id [(ex_time, fun _ => Unavailable); (ex_time, ex_panel)]
        (ex_dbq, Second)).1) sp' /\
    exists gone, [ex_event] = gone ++ sp_queue sp' /\
      forall e, e ∈ gone -> confirmed ex_uploader id [(ex_time, fun _ => Unavailable); (ex_time, ex_panel)] e.
Proof.
  exact (@upload_confirmed mem_bolt mem_bolt_laws ex_uploader id
    [(ex_time, fun _ => Unavailable); (ex_time, ex_panel)] (append ex_event ex_spool0) (ex_dbq, Second)
    ex_representsq).
Defined.

Lemma ex_answering : answering ex_uploader id (append ex_event ex_spool0) [(ex_time, ex_panel)].
Proof.
  apply Forall_singleton. intros sp Hok Hs [l Hsuf] Hne. simpl in Hsuf.
  destruct (sp_queue sp) as [|e q] eqn:Eq; [done|].
  destruct l as [|x l]; [|by destruct l]. injection Hsuf as <- <-.
  pose proof (so_numbered _ Hok 0%nat ex_event) as Hn. rewrite Eq in Hn. specialize (Hn eq_refl).
  unfold answers, sent_text, sent_batch, sent, batch_of. rewrite Eq, Hs.
  split; [by vm_compute|]. exists (obj (ack_members ex_ack)), ex_ack.
  split; [reflexivity|]. vm_compute. reflexivity.
Qed.

Lemma upload_drains_witness :
  exists sp', @represents (@stored mem_bolt mem_bolt_laws
      (@run_turns mem_bolt ex_uploader id [(ex_time, ex_panel)] (ex_dbq, Second)).1) sp' /\
    sp_queue sp' = [] /\
    (@run_turns mem_bolt ex_uploader id [(ex_time, ex_panel)] (ex_dbq, Second)).2 = Second.
Proof.
  apply (@upload_drains mem_bolt mem_bolt_laws ex_uploader id [(ex_time, ex_panel)] (append ex_event ex_spool0)).
  - exact mem_bolt_live.
  - exact ex_representsq.
  - exact ex_answering.
  - simpl. lia.
  - discriminate.
Defined.

Lemma backoff_doubles_witness :
  let down := (ex_time, fun _ : http_request => Unavailable) in
  (@run_turns mem_bolt ex_uploader id [down; down] (ex_dbq, Second)).2 = (4 * Second)%Z.
Proof.
  intros down.
  apply (@backoff_doubles mem_bolt ex_uploader id [down; down] ex_dbq).
  split; [|split; [|exact I]]; vm_compute; discriminate.
Defined.
