(* ===== verification/Controller.v ===== *)
(** * Supervising the Xray process (internal/xrayruntime/controller.go, process.go)

    The controller finds the Xray process through its pid file, asks the
    supervisor for a restart by touching a marker and waits until one new
    process has been seen for a while; [RunManagedProcess] is the supervisor's
    child that starts Xray with the current configuration.

    What the operating system answers while the controller looks for the
    process once is a [probe]; the polls of a waiting loop, up to its deadline,
    are a list of observations. *)

From stdpp Require Import base gmap strings list fin_maps.
From Stdlib Require Import ZArith NArith Ascii.
From S2P Require Import Prelude.
From S2P Require Import GoStrings.
From S2P Require Import Sha256.
From S2P Require Import Os.
From S2P Require Import AtomicFile.
From S2P Require Import XrayConfig.
From S2P Require Import XrayTypes.
From S2P Require Import XrayRuntime.
From S2P Require Import XraySteps.
From S2P Require Import XrayPrune.
From S2P Require Import XrayInv.
From S2P Require Import XrayRecover.
From S2P Require Import XrayTheorems.

(** Durations in nanoseconds. *)
Definition defaultRestartTimeout : Z := 20000000000.
Definition defaultStablePeriod : Z := 2000000000.
Definition defaultPollPeriod : Z := 100000000.

Record ProcessController : Set := MkController {
  pc_binary : string;
  pc_timeout : Z;
  pc_stable : Z;
  pc_poll : Z
}.

Definition NewProcessController (binaryPath : string) : ProcessController :=
  MkController binaryPath defaultRestartTimeout defaultStablePeriod defaultPollPeriod.

Definition or_default (d default : Z) : Z := if (d <=? 0)%Z then default else d.
Definition timeout (c : ProcessController) : Z := or_default (pc_timeout c) defaultRestartTimeout.
Definition stability (c : ProcessController) : Z := or_default (pc_stable c) defaultStablePeriod.
Definition poll (c : ProcessController) : Z := or_default (pc_poll c) defaultPollPeriod.

Definition PIDPath : string := "xray-config/xray.pid".
Definition RestartPath : string := "xray-config/restart".

(** ** Finding the process *)

(** Errors of system calls that the code tells apart. *)
Inductive sys_error : Set := ENoent | EAccess | ESrch | EPerm | EDone | EOther (msg : string).

Definition sys_text (e : sys_error) : string :=
  match e with
  | ENoent => "no such file or directory"
  | EAccess => "permission denied"
  | ESrch => "no such process"
  | EPerm => "operation not permitted"
  | EDone => "os: process already finished"
  | EOther m => m
  end.

Inductive sys_result (A : Type) : Type := SOk (a : A) | SErr (e : sys_error).
Arguments SOk {A} _.
Arguments SErr {A} _.

(** One look at the system: the pid file, kill(pid, 0), Lstat and the
    resolution of symbolic links, /proc/<pid>/exe and /proc/<pid>/cmdline. *)
Record probe : Type := MkProbe {
  pr_file : sys_result string;
  pr_kill : Z -> sys_result unit;
  pr_lstat : string -> sys_result unit;
  pr_resolve : string -> sys_result string;
  pr_exe : Z -> sys_result string;
  pr_cmdline : Z -> sys_result string
}.

Definition nul : ascii := Eval compute in chr 0.

(** The first argument of the command line. *)
Definition command_of (raw : string) : string :=
  match Split raw nul with c :: _ => c | [] => "" end.

Definition processCommandMatches (p : probe) (pid : Z) (want : string) : sys_result bool :=
  match pr_cmdline p pid with
  | SErr ENoent => SOk false
  | SErr e => SErr e
  | SOk raw =>
      if (slen (command_of raw) =? 0)%N then SErr EDone
      else match pr_resolve p (command_of raw) with
           | SErr e => SErr e
           | SOk resolved => SOk (bool_decide (Clean resolved = Clean want))
           end
  end.

(** xraybinary.ActivePath, as [p] shows the tree: the managed executable once
    its link or its record is there, or cannot be looked at. *)
Definition probed (p : probe) (path : string) : bool :=
  match pr_lstat p path with SErr ENoent => false | _ => true end.

Definition active_path (c : ProcessController) (p : probe) : string :=
  if probed p "xray-runtime/current" || probed p "xray-runtime/applied.json" then ManagedPath
  else pc_binary c.

Definition runningPID (c : ProcessController) (p : probe) : result Z :=
  match pr_file p with
  | SErr ENoent => Ok 0%Z
  | SErr e => Err (errorsNew ("read Xray pid: " +:+ sys_text e))
  | SOk raw =>
      match ParseInt (TrimSpace raw) with
      | None => Err (errorsNew "Xray pid file is invalid")
      | Some pid =>
          if (pid <=? 0)%Z then Err (errorsNew "Xray pid file is invalid")
          else match pr_kill p pid with
          | SErr ESrch => Ok 0%Z
          | SErr ((EAccess | ENoent | EDone | EOther _) as e) => Err (errorsNew (sys_text e))
          | SOk _ | SErr EPerm =>
              match pr_resolve p (active_path c p) with
              | SErr e => Err (errorsNew ("resolve Xray binary: " +:+ sys_text e))
              | SOk want =>
                  match pr_exe p pid with
                  | SErr ENoent => Ok 0%Z
                  | SErr EAccess | SErr EPerm =>
                      match processCommandMatches p pid want with
                      | SErr EDone => Ok 0%Z
                      | SErr e => Err (errorsNew ("inspect Xray process command: " +:+ sys_text e))
                      | SOk matches =>
                          if matches then Ok pid
                          else Err (errorsNew "Xray pid file points to a different executable")
                      end
                  | SErr e => Err (errorsNew ("inspect Xray process: " +:+ sys_text e))
                  | SOk got =>
                      if bool_decide (Clean (TrimSuffix got " (deleted)") = Clean want) then Ok pid
                      else Err (errorsNew "Xray pid file points to a different executable")
                  end
              end
          end
      end
  end.

(** ** Waiting *)

(** A poll: what was found, and when. *)
Definition observation : Type := probe * Z.

(** The candidate process and since when it is seen; (0, 0) for none. *)
Definition replacement_step (oldPID period : Z) (cand : Z * Z) (pid now : Z) : option (Z * Z) :=
  if ((0 <? pid) && negb (pid =? oldPID))%Z then
    if negb (pid =? cand.1)%Z then Some (pid, now)
    else if (period <=? now - cand.2)%Z then None
    else Some cand
  else Some (0, 0)%Z.

Fixpoint replacement (c : ProcessController) (oldPID period : Z) (cand : Z * Z) (polls : list observation) : result unit :=
  match polls with
  | [] => Err (errorsNew "Xray process did not become stable before the health deadline")
  | (p, now) :: rest =>
      match runningPID c p with
      | Err e => Err e
      | Ok pid =>
          match replacement_step oldPID period cand pid now with
          | None => Ok tt
          | Some cand' => replacement c oldPID period cand' rest
          end
      end
  end.

Definition waitForReplacement (c : ProcessController) (oldPID : Z) (polls : list observation) : result unit :=
  replacement c oldPID (stability c) (0, 0)%Z polls.

Fixpoint stopped (c : ProcessController) (polls : list observation) : result unit :=
  match polls with
  | [] => Err (errorsNew "Xray process did not stop before the health deadline")
  | (p, _) :: rest =>
      match runningPID c p with
      | Err e => Err e
      | Ok pid => if (pid =? 0)%Z then Ok tt else stopped c rest
      end
  end.

(** signalProcess: a process that is gone already is no error. *)
Definition signalProcess (answer : sys_result unit) : result unit :=
  match answer with
  | SOk _ | SErr EDone | SErr ESrch => Ok tt
  | SErr e => Err (errorsNew (sys_text e))
  end.

Section controller.
Context `{Env}.

Definition PreflightCheck (c : ProcessController) (first : probe) : result unit :=
let? _ := runningPID c first in Ok tt.

(** [signal] is the answer to SIGTERM. *)
Definition RestartProcess (c : ProcessController) (first : probe) (signal : Z -> sys_result unit)
  (polls : list observation) : io (result unit) :=
match runningPID c first with
| Err e => ret (Err e)
| Ok oldPID =>
    let! now := Now in
    try! _ := XrayRuntime.writeAtomic RestartPath (FormatInt now +:+ String (chr 10) "") configFileMode
      catch e => ret (Err (errorW "notify Xray supervisor: " e)) in
    match (if (0 <? oldPID)%Z then signalProcess (signal oldPID) else Ok tt) with
    | Err e => ret (Err (errorW "stop current Xray process: " e))
    | Ok _ => ret (waitForReplacement c oldPID polls)
    end
end.

Definition StopProcess (c : ProcessController) (first : probe) (signal : Z -> sys_result unit) (polls : list observation) :
  result unit :=
match runningPID c first with
| Err e => Err e
| Ok pid =>
    if (pid =? 0)%Z then Ok tt
    else match signalProcess (signal pid) with
         | Err e => Err (errorW "stop failed Xray process: " e)
         | Ok _ => stopped c polls
         end
end.

(** ** The supervised process *)

(** The command to start: the executable and its arguments. *)
Record command : Set := MkCommand { cmd_binary : string; cmd_args : list string; cmd_dir : string }.

(** What happens to Xray once it runs. *)
Inductive run_end : Set :=
| Exited (failure : option string)
| Cancelled (obeyed : bool).

(** os.Stat of a path that may lead through links to directories, as the path
    of the managed executable does: the names are walked from [d], and a link
    in their way is replaced by its target. *)
Fixpoint walk (fuel : nat) (f : fs) : string -> list string -> result node :=
fix go d names :=
  match names with
  | [] => match f !! d with Some n => Ok n | None => Err errNotExist end
  | name :: rest =>
      match f !! Join d name with
      | Some (NLink t) =>
          match fuel with
          | O => Err errLoop
          | S n => walk n f (if IsAbs t then "/" else d) (Split t slash ++ rest)
          end
      | _ => go (Join d name) rest
      end
  end.

Definition stat_through (f : fs) (p : string) : result FileInfo :=
match walk max_links f (if IsAbs p then "/" else ".") (Split p slash) with
| Ok n => Ok (info_of n)
| Err e => Err e
end.

(** The checks of [RunManagedProcess] before it starts anything. *)
Definition prepareProcess (bootstrap : string) : io (result command) :=
let! binaryPath := ActivePath bootstrap in
try! target := Readlink currentPath catch e => ret (Err (errorW "read current Xray config: " e)) in
match validateTarget target with
| Err e => ret (Err e)
| Ok _ =>
    let configPath := Join directory target in
    try! info := Stat configPath catch e => ret (Err (errorW "inspect current Xray config: " e)) in
    if negb (IsRegular info) || negb (fi_perm info =? configFileMode)%N then
      ret (Err (errorsNew "current Xray config is not a secure regular file"))
    else
      try! binary := sys_read (fun f => stat_through f binaryPath) catch e => ret (Err (errorW "inspect Xray binary: " e)) in
      if negb (IsRegular binary) || (N.land (fi_perm binary) 73 =? 0)%N then
        ret (Err (errorsNew "Xray binary is not executable"))
      else ret (Ok (MkCommand binaryPath ["run"; "-config"; configPath] (Dir binaryPath)))
end.

(** [start] is command.Start, with the pid of the child. *)
Definition RunManagedProcess (bootstrap : string) (start : command -> io (result N)) (fate : run_end) :
  io (result unit) :=
try! cmd := prepareProcess bootstrap in
try! pid := start cmd catch e => ret (Err (errorW "start Xray: " e)) in
try! _ := XrayRuntime.writeAtomic PIDPath (FormatUint pid +:+ String (chr 10) "") configFileMode
  catch e => ret (Err (errorW "write Xray pid: " e)) in
let! _ := removeAndSync PIDPath in
ret (match fate with
     | Exited None => Err (errorsNew "Xray exited unexpectedly")
     | Exited (Some m) => Err (errorsNew ("Xray exited: " +:+ m))
     | Cancelled true => Ok tt
     | Cancelled false => Err (errorsNew "Xray required a forced stop")
     end).
End controller.

(** ** What a pid stands for *)

(** [p] shows process [pid] of the pid file running the active executable. *)
Definition is_xray (c : ProcessController) (p : probe) (pid : Z) : Prop :=
  exists raw want, pr_file p = SOk raw /\ ParseInt (TrimSpace raw) = Some pid /\ (0 < pid)%Z /\
    (pr_kill p pid = SOk tt \/ pr_kill p pid = SErr EPerm) /\
    pr_resolve p (active_path c p) = SOk want /\
    ((exists got, pr_exe p pid = SOk got /\ Clean (TrimSuffix got " (deleted)") = Clean want) \/
     ((pr_exe p pid = SErr EAccess \/ pr_exe p pid = SErr EPerm) /\
      exists raw' resolved, pr_cmdline p pid = SOk raw' /\
        pr_resolve p (command_of raw') = SOk resolved /\ Clean resolved = Clean want)).

Lemma matches_true p pid want : processCommandMatches p pid want = SOk true ->
  exists raw resolved, pr_cmdline p pid = SOk raw /\
    pr_resolve p (command_of raw) = SOk resolved /\ Clean resolved = Clean want.
Proof.
  unfold processCommandMatches. intros H.
  destruct (pr_cmdline p pid) as [raw|[]]; try done. exists raw.
  destruct (_ =? 0)%N; [done|]. destruct (pr_resolve p _) as [resolved|]; [|done].
  injection H as H%bool_decide_eq_true. by exists resolved.
Qed.

Lemma runningPID_found c p pid : runningPID c p = Ok pid -> pid <> 0%Z -> is_xray c p pid.
Proof.
  unfold runningPID. intros H Hz. destruct (pr_file p) as [raw|[]] eqn:Ef; try done; [|congruence].
  destruct (ParseInt (TrimSpace raw)) as [n|] eqn:En; [|done].
  destruct (Z.leb_spec n 0); [done|].
  assert (pr_kill p n = SOk tt \/ pr_kill p n = SErr EPerm) as Hk.
  { destruct (pr_kill p n) as [[]|[]]; try done; [by left|congruence|by right]. }
  assert (match pr_resolve p (active_path c p) with
          | SOk want => n = pid /\
              ((exists got, pr_exe p pid = SOk got /\ Clean (TrimSuffix got " (deleted)") = Clean want) \/
               ((pr_exe p pid = SErr EAccess \/ pr_exe p pid = SErr EPerm) /\
                processCommandMatches p pid want = SOk true))
          | SErr _ => False end) as Hm.
  { destruct (pr_kill p n) as [[]|[]]; try (destruct Hk; done);
    (destruct (pr_resolve p (active_path c p)) as [want|]; [|done]);
    (destruct (pr_exe p n) as [got|[]] eqn:Ex; try done; try congruence;
     [case_bool_decide; [injection H as <-; split; [done|left; by exists got]|done]|..]);
    (destruct (processCommandMatches p n want) as [[]|[]] eqn:Em; try done; try congruence;
     injection H as <-; split; [done|right; split; [auto|done]]). }
  destruct (pr_resolve p (active_path c p)) as [want|] eqn:Ew; [|done].
  destruct Hm as [-> Hm]. exists raw, want. split_and!; try done.
  destruct Hm as [?|[He Hm]]; [by left|right]. split; [done|by apply matches_true].
Qed.

(** ** What waiting establishes *)

(** [seen]: consecutive polls that all found process [pid]. *)
Definition all_find (c : ProcessController) (pid : Z) (seen : list observation) : Prop :=
  Forall (fun o => runningPID c o.1 = Ok pid) seen.

(** One process other than [oldPID], seen in every poll over [period]. *)
Definition replaced_for (c : ProcessController) (oldPID period : Z) (polls : list observation) : Prop :=
  exists pid before first seen final after,
    polls = before ++ first :: seen ++ final :: after /\ pid <> oldPID /\ (0 < pid)%Z /\
    all_find c pid (first :: seen ++ [final]) /\ (period <= final.2 - first.2)%Z.

(** The candidate of an earlier poll, seen ever since. *)
Definition candidate_for (c : ProcessController) (period : Z) (cand : Z * Z) (polls : list observation) : Prop :=
  exists seen final after, polls = seen ++ final :: after /\ (0 < cand.1)%Z /\
    all_find c cand.1 (seen ++ [final]) /\ (period <= final.2 - cand.2)%Z.

Lemma replaced_cons c o oldPID period polls :
  replaced_for c oldPID period polls -> replaced_for c oldPID period (o :: polls).
Proof. intros (pid & b & f & s & l & a & -> & H). by exists pid, (o :: b), f, s, l, a. Qed.

Lemma replacement_ok c oldPID period cand polls :
  replacement c oldPID period cand polls = Ok tt ->
  replaced_for c oldPID period polls \/ candidate_for c period cand polls.
Proof.
  revert cand. induction polls as [|[p now] polls IH]; intros cand; simpl; [done|].
  destruct (runningPID c p) as [pid|e] eqn:Ep; [|done].
  unfold replacement_step. destruct ((0 <? pid) && negb (pid =? oldPID))%Z eqn:Eb.
  - apply andb_true_iff in Eb as [Hp%Z.ltb_lt Hne]. apply negb_true_iff, Z.eqb_neq in Hne.
    destruct (Z.eqb_spec pid cand.1) as [Ec|Hc]; cbn [negb].
    + destruct (Z.leb_spec period (now - cand.2)) as [Hle|Hlt].
      * intros _. right. exists [], (p, now), polls. rewrite <- Ec.
        split_and!; [done|done|by apply Forall_singleton|done].
      * intros [H|(seen & final & after & -> & Hc & Hall & Hper)]%IH; [left; by apply replaced_cons|].
        right. exists ((p, now) :: seen), final, after. split_and!; [done|done| |done].
        apply Forall_cons. split; [by rewrite <- Ec|done].
    + intros [H|(seen & final & after & -> & Hc' & Hall & Hper)]%IH; [left; by apply replaced_cons|].
      left. exists pid, [], (p, now), seen, final, after. split_and!; try done.
      apply Forall_cons. by split.
  - intros [H|(seen & final & after & -> & Hc' & _)]%IH; [left; by apply replaced_cons|]. simpl in Hc'. lia.
Qed.

Lemma stability_pos c : (0 < stability c)%Z.
Proof. unfold stability, or_default, defaultStablePeriod. destruct (Z.leb_spec (pc_stable c) 0); lia. Qed.

Section theorems.
Context `{Env}.

(** C28: a restart reported as successful found no foreign process behind the pid
    file, announced itself to the supervisor, and then saw one process, other
    than the one it had signalled and running the active executable, in every
    poll over the stability period. *)
Theorem RestartProcess_stable c first signal polls w w' :
  RestartProcess c first signal polls w = (w', Done (Ok tt)) ->
  exists oldPID, runningPID c first = Ok oldPID /\
    ((0 < oldPID)%Z -> signalProcess (signal oldPID) = Ok tt) /\
    exists pid before o seen final after,
      polls = before ++ o :: seen ++ final :: after /\ pid <> oldPID /\
      Forall (fun x => is_xray c x.1 pid) (o :: seen ++ [final]) /\
      (0 < stability c <= final.2 - o.2)%Z.
Proof.
  unfold RestartProcess. destruct (runningPID c first) as [oldPID|e]; [|done].
  unfold bind at 1, Now. cbn [fst snd]. unfold try, bind.
  destruct (writeAtomic _ _ _ _) as [w1 [[[]|e]|]]; try done.
  destruct (if (0 <? oldPID)%Z then _ else _) as [[]|e] eqn:Es; [|done].
  intros [= _ Hr]. exists oldPID. split; [done|]. split.
  { intros Hp. by rewrite (proj2 (Z.ltb_lt 0 oldPID)) in Es. }
  apply replacement_ok in Hr as [Hr|(_ & _ & _ & _ & Hc & _)]; [|simpl in Hc; lia].
  destruct Hr as (pid & before & o & seen & final & after & -> & Hne & Hp & Hall & Hper).
  exists pid, before, o, seen, final, after. split_and!; [done|done| |apply stability_pos|done].
  eapply Forall_impl; [exact Hall|]. intros x Hx. apply runningPID_found; [done|lia].
Qed.

Lemma stopped_ok c polls : stopped c polls = Ok tt -> exists o, o ∈ polls /\ runningPID c o.1 = Ok 0%Z.
Proof.
  induction polls as [|[p now] polls IH]; simpl; [done|].
  destruct (runningPID c p) as [pid|e] eqn:Ep; [|done]. destruct (Z.eqb_spec pid 0) as [->|Hne].
  - intros _. exists (p, now). split; [set_solver|done].
  - intros (o & Ho & Hz)%IH. exists o. set_solver.
Qed.

(** A stop reported as successful means that no Xray process was found, at once
    or in a poll after the process found had been signalled. *)
Theorem StopProcess_gone c first signal polls :
  StopProcess c first signal polls = Ok tt ->
  runningPID c first = Ok 0%Z \/
  exists pid o, is_xray c first pid /\ signalProcess (signal pid) = Ok tt /\ o ∈ polls /\
    runningPID c o.1 = Ok 0%Z.
Proof.
  unfold StopProcess. destruct (runningPID c first) as [pid|e] eqn:Ep; [|done].
  destruct (Z.eqb_spec pid 0) as [->|Hne]; [by left|].
  destruct (signalProcess (signal pid)) as [[]|e] eqn:Es; [|done].
  intros (o & Ho & Hz)%stopped_ok. right. exists pid, o. split_and!; try done. by apply runningPID_found.
Qed.

Lemma wp_prepareProcess bootstrap target c z w0 f (Q : result command -> world -> Prop) C w :
  after w0 f w ->
  f !! currentPath = Some (NLink target) -> validateTarget target = Ok tt ->
  f !! (directory +:+ "/" +:+ target) = Some (NFile c configFileMode z) ->
  (forall w', ~ calm w0 -> after w0 f w' -> C w') ->
  (forall e w', after w0 f w' -> Q (Err e) w') ->
  (forall b w', after w0 f w' ->
     Q (Ok (MkCommand b ["run"; "-config"; Join directory target] (Dir b))) w') ->
  wp (prepareProcess bootstrap) Q C w.
Proof.
  intros Hw Hl Ht Hf HC HE HQ.
  apply wp_bind, (wp_ActivePath _ w0 f); [done|done|]. intros b w1 Hw1 _.
  apply wp_try, (wp_sys_read _ w0 f); [done|done|intros m w' _ Hw'; by apply wp_ret, HE|].
  intros w2 Hw2. unfold fs_readlink. rewrite Hl, Ht.
  apply wp_try, (wp_sys_read _ w0 f); [done|done|intros m w' _ Hw'; by apply wp_ret, HE|].
  intros w3 Hw3. unfold fs_stat. rewrite (target_path _ Ht), (follow_node _ _ _ _ Hf) by done.
  cbn [info_of IsRegular fi_kind fi_perm negb orb]. rewrite N.eqb_refl. cbn [negb].
  apply wp_try, (wp_sys_read _ w0 f); [done|done|intros m w' _ Hw'; by apply wp_ret, HE|].
  intros w4 Hw4. destruct (stat_through f b) as [i|e]; [|by apply wp_ret, HE].
  destruct (_ || _); [by apply wp_ret, HE|]. apply wp_ret. rewrite <- (target_path _ Ht). by apply HQ.
Qed.

(** With an applied configuration on record, the supervised process is started
    with the configuration file of that very version, whose content has the
    recorded digest and which only its owner can read, or not at all. *)
Theorem prepareProcess_applied bootstrap a w w' cmd :
  consistent (w_fs w) a ->
  prepareProcess bootstrap w = (w', Done (Ok cmd)) ->
  cmd_args cmd = ["run"; "-config"; Join directory (a_target a)] /\ w_fs w' = w_fs w /\
  exists c z, w_fs w !! Join directory (a_target a) = Some (NFile c 384 z) /\ sha256_hex c = a_digest a.
Proof.
  intros (_ & Hl & _ & Hm & c & z & Hf & Hd) E. apply metadata_target in Hm as Ht.
  assert (wp (prepareProcess bootstrap) (fun r w' => forall cmd, r = Ok cmd ->
      cmd_args cmd = ["run"; "-config"; Join directory (a_target a)] /\ w_fs w' = w_fs w)
      (fun _ => True) w) as Hwp.
  { apply (wp_prepareProcess bootstrap (a_target a) c z w (w_fs w)); try done.
    intros b w1 [Hw1 _] x [= <-]. done. }
  unfold wp in Hwp. rewrite E in Hwp. destruct (Hwp cmd eq_refl) as [Ha Hw]. split_and!; [done|done|].
  exists c, z. by rewrite target_path.
Qed.
End theorems.

(** ** Witnesses *)

Definition ex_probe (pid : string) : probe := {|
  pr_file := SOk pid;
  pr_kill := fun _ => SOk tt;
  pr_lstat := fun _ => SErr ENoent;
  pr_resolve := fun p => SOk p;
  pr_exe := fun _ => SOk "/usr/bin/xray (deleted)";
  pr_cmdline := fun _ => SErr ENoent
|}.

Definition no_probe : probe := {|
  pr_file := SErr ENoent;
  pr_kill := fun _ => SErr ESrch;
  pr_lstat := fun _ => SErr ENoent;
  pr_resolve := fun p => SOk p;
  pr_exe := fun _ => SErr ENoent;
  pr_cmdline := fun _ => SErr ENoent
|}.

Definition ex_pc : ProcessController := NewProcessController "/usr/bin/xray".

Definition ex_polls : list observation :=
  [(ex_probe "41", 0%Z); (ex_probe "42", 1000000000%Z); (ex_probe "42", 2000000000%Z);
   (ex_probe "42", 3000000000%Z)].

Definition ex_restart : world * outcome (result unit) :=
  @RestartProcess calm_env ex_pc (ex_probe "41") (fun _ => SErr ESrch) ex_polls ex_world.

Lemma RestartProcess_stable_witness :
  exists oldPID, runningPID ex_pc (ex_probe "41") = Ok oldPID /\
    ((0 < oldPID)%Z -> signalProcess (SErr ESrch) = Ok tt) /\
    exists pid before o seen final after,
      ex_polls = before ++ o :: seen ++ final :: after /\ pid <> oldPID /\
      Forall (fun x => is_xray ex_pc x.1 pid) (o :: seen ++ [final]) /\
      (0 < stability ex_pc <= final.2 - o.2)%Z.
Proof.
  apply (@RestartProcess_stable calm_env ex_pc (ex_probe "41") (fun _ => SErr ESrch) ex_polls
    ex_world ex_restart.1).
  assert (ex_restart.2 = Done (Ok tt)) as E by (vm_compute; reflexivity).
  unfold ex_restart in *. by apply run_done.
Defined.

Lemma StopProcess_gone_witness :
  runningPID ex_pc (ex_probe "41") = Ok 0%Z \/
  exists pid o, is_xray ex_pc (ex_probe "41") pid /\ signalProcess (SOk tt) = Ok tt /\
    o ∈ [(ex_probe "41", 0%Z); (no_probe, 1%Z)] /\ runningPID ex_pc o.1 = Ok 0%Z.
Proof.
  apply (StopProcess_gone ex_pc (ex_probe "41") (fun _ => SOk tt) [(ex_probe "41", 0%Z); (no_probe, 1%Z)]).
  vm_compute. reflexivity.
Defined.

(** A managed executable is found through the link to its version. *)
Example managed_found :
  stat_through {["xray-runtime/current" := NLink "versions/v26.1.0"; "xray-runtime/versions" := NDir 448 0;
                 "xray-runtime/versions/v26.1.0/xray" := NFile "xray" 493 0]} ManagedPath
  = Ok (info_of (NFile "xray" 493 0)).
Proof. vm_compute. reflexivity. Qed.

Definition ex_state : AppliedState := MkApplied 7 ex_digest ex_target 1700000000.

Definition ex_ready : world :=
  World (<["/usr/bin/xray" := NFile "" 493 0]> (w_fs ex_applied)) 0 None.

Lemma ex_ready_consistent : consistent (w_fs ex_ready) ex_state.
Proof.
  split; [split|split; [vm_compute; reflexivity|split_and!]].
  - exists (encode_applied ex_state), 384%N, 1700000000000000062%Z. split; vm_compute; reflexivity.
  - unfold applied_ok. split_and!; [by vm_compute|by vm_compute|by split; vm_compute|by vm_compute].
  - vm_compute. reflexivity.
  - vm_compute. reflexivity.
  - exists "[]", 1700000000000000034%Z. split; vm_compute; reflexivity.
Qed.

Definition ex_prepared : world * outcome (result command) :=
  @prepareProcess calm_env "/usr/bin/xray" ex_ready.

Lemma prepareProcess_applied_witness :
  exists cmd, cmd_args cmd = ["run"; "-config"; Join directory ex_target] /\
  w_fs ex_prepared.1 = w_fs ex_ready /\
  exists c z, w_fs ex_ready !! Join directory ex_target = Some (NFile c 384 z) /\ sha256_hex c = ex_digest.
Proof.
  set (cmd := MkCommand "/usr/bin/xray" ["run"; "-config"; Join directory ex_target] "/usr/bin").
  assert (ex_prepared.2 = Done (Ok cmd)) as E by (vm_compute; reflexivity).
  exists cmd. apply (@prepareProcess_applied calm_env "/usr/bin/xray" ex_state ex_ready).
  - exact ex_ready_consistent.
  - unfold ex_prepared in *. by apply run_done.
Defined.
