(* ===== verification/Manifest.v ===== *)
(** * Release manifests and archives of Xray (internal/xrayupdate/manifest.go)

    The manifest of a release names one archive for every platform; the archive
    has to hold the three files of a bundle and nothing unexpected, every entry
    within its size limit.  An opened archive is the list of its entries, an
    entry the bytes its stream delivers before the end or a failure. *)

From stdpp Require Import base gmap strings list fin_maps.
From Stdlib Require Import ZArith NArith Ascii.
From S2P Require Import Prelude.
From S2P Require Import GoStrings.
From S2P Require Import Sha256.
From S2P Require Import Json.
From S2P Require Import Text.

Definition ManifestSchemaVersion : Z := 2.
Definition maxManifestBytes : Z := 1048576.
Definition maxArchiveBytes : Z := 134217728.
Definition maxExpandedBytes : Z := 134217728.
Definition maxBinaryBytes : Z := 67108864.
Definition maxAssetBytes : Z := 33554432.

Definition requiredBundleFiles : list string := ["xray"; "geoip.dat"; "geosite.dat"].

Record Artifact : Set := MkArtifact {
  ar_os : string;
  ar_arch : string;
  ar_sha256 : string;
  ar_size : Z
}.

Record Manifest : Set := MkManifest {
  mf_schema : Z;
  mf_version : string;
  mf_xray : string;
  mf_published : string;
  mf_artifacts : list Artifact
}.

(** runtime.GOOS and runtime.GOARCH *)
Class Platform : Set := { GOOS : string; GOARCH : string }.

Definition releaseAssetName (arch : string) : string :=
  if bool_decide (arch = "amd64") then "Xray-linux-64.zip" else "".

(** ** Versions *)

Definition version_rune (r : N) : bool :=
  ((97 <=? r) && (r <=? 122) || (65 <=? r) && (r <=? 90) || (48 <=? r) && (r <=? 57)
   || (r =? 46) || (r =? 95) || (r =? 45))%N.

Definition validateVersion (version : string) : result unit :=
  let? _ := guard_err (bool_decide (version = "") || bool_decide (version = ".")
                       || bool_decide (version = "..") || (128 <? slen version)%N)
              "Xray version is invalid" in
  guard_err (negb (forallb (fun r => version_rune r.1) (runes version))) "Xray version is invalid".

(** ** The manifest *)

Definition zero_artifact : Artifact := MkArtifact "" "" "" 0.

Definition artifact_fields : list (string * setter Artifact) :=
  [("os", fld dec_string (fun v a => MkArtifact v (ar_arch a) (ar_sha256 a) (ar_size a)));
   ("arch", fld dec_string (fun v a => MkArtifact (ar_os a) v (ar_sha256 a) (ar_size a)));
   ("sha256", fld dec_string (fun v a => MkArtifact (ar_os a) (ar_arch a) v (ar_size a)));
   ("size", fld dec_int (fun v a => MkArtifact (ar_os a) (ar_arch a) (ar_sha256 a) v))].

Definition artifacts_setter : setter Manifest := fun raw m =>
  (fun l => MkManifest (mf_schema m) (mf_version m) (mf_xray m) (mf_published m) l)
  <$> dec_slice (decode_obj true artifact_fields zero_artifact) raw.

Definition manifest_fields : list (string * setter Manifest) :=
  [("schemaVersion", fld dec_int (fun v m => MkManifest v (mf_version m) (mf_xray m) (mf_published m) (mf_artifacts m)));
   ("version", fld dec_string (fun v m => MkManifest (mf_schema m) v (mf_xray m) (mf_published m) (mf_artifacts m)));
   ("xrayVersion", fld dec_string (fun v m => MkManifest (mf_schema m) (mf_version m) v (mf_published m) (mf_artifacts m)));
   ("publishedAt", fld dec_string (fun v m => MkManifest (mf_schema m) (mf_version m) (mf_xray m) v (mf_artifacts m)));
   ("artifacts", artifacts_setter)].

Definition decodeManifest (raw : string) : result Manifest :=
  match decode_text true manifest_fields (MkManifest 0 "" "" "" []) raw with
  | None => Err (errorsNew "decode Xray release manifest")
  | Some m =>
      let? _ := guard_err (negb (mf_schema m =? ManifestSchemaVersion)%Z
                           || negb (is_ok (validateVersion (mf_version m)))
                           || negb (is_ok (validateVersion (mf_xray m)))
                           || match mf_artifacts m with [] => true | _ => false end)
                  "Xray release manifest is incomplete or unsupported" in
      Ok m
  end.

Section platform.
Context `{Platform}.

Definition platform_arch : string := if bool_decide (GOARCH = "arm") then "armv7" else GOARCH.

Definition for_platform (a : Artifact) : bool :=
  bool_decide (ar_os a = GOOS) && bool_decide (ar_arch a = platform_arch).

Definition normalized (a : Artifact) : Artifact :=
  MkArtifact (ar_os a) (ar_arch a) (ToLower (TrimSpace (ar_sha256 a))) (ar_size a).

(** The body of the loop for an artifact of this platform. *)
Definition admit_artifact (a : Artifact) : result Artifact :=
  let a := normalized a in
  let? _ := guard_err ((ar_size a <=? 0)%Z || (maxArchiveBytes <? ar_size a)%Z
                       || negb (bool_decide (slen (ar_sha256 a) = sha256_Size * 2)%N))
              "Xray release artifact metadata is invalid" in
  match DecodeString (ar_sha256 a) with
  | None => Err (errorsNew "Xray release artifact digest is invalid")
  | Some _ => Ok a
  end.

Fixpoint select_from (selected : option Artifact) (l : list Artifact) : result (option Artifact) :=
  match l with
  | [] => Ok selected
  | a :: rest =>
      if negb (for_platform a) then select_from selected rest
      else match selected with
           | Some _ => Err (errorsNew "Xray release manifest has duplicate artifacts for this platform")
           | None => let? a := admit_artifact a in select_from (Some a) rest
           end
  end.

Definition selectArtifact (m : Manifest) : result Artifact :=
  let? selected := select_from None (mf_artifacts m) in
  match selected with
  | Some a => Ok a
  | None => Err (errorsNew ("Xray release has no artifact for " +:+ GOOS +:+ "/" +:+ platform_arch))
  end.
End platform.

(** ** The archive *)

(** An entry: its name, whether it is a directory or a regular file, the size
    it declares (a uint64), and what reading it gives: a failure to open it, the
    bytes of the stream, a failure at the end of them and one of Close. *)
Record zip_file : Set := ZipFile {
  zf_name : string;
  zf_dir : bool;
  zf_regular : bool;
  zf_size : N;
  zf_open : option error;
  zf_bytes : string;
  zf_fail : option error;
  zf_close : option error
}.

Definition allowed_entries : list (string * Z) :=
  [("xray", maxBinaryBytes); ("geoip.dat", maxAssetBytes); ("geosite.dat", maxAssetBytes);
   ("LICENSE", 1048576%Z); ("README.md", 1048576%Z)].

Definition allowed (name : string) : option Z :=
  match find (fun e => bool_decide (e.1 = name)) allowed_entries with
  | Some e => Some e.2
  | None => None
  end.

(** The entries one by one; the names seen. Error texts leave out the quoted
    name of the entry. *)
Fixpoint check_entries (seen : list string) (expanded : Z) (l : list zip_file) : result (list string) :=
  match l with
  | [] => Ok seen
  | entry :: rest =>
      let name := zf_name entry in
      match allowed name with
      | None => Err (errorsNew "Xray release archive contains invalid entry")
      | Some limit =>
          if bool_decide (name ∈ seen) || zf_dir entry || negb (zf_regular entry) then
            Err (errorsNew "Xray release archive contains invalid entry")
          else
            let size := int64_of_u64 (zf_size entry) in
            if (size <=? 0)%Z || (limit <? size)%Z then
              Err (errorsNew "Xray release entry has an invalid size")
            else if (maxExpandedBytes <? expanded + size)%Z then
              Err (errorsNew "Xray release archive exceeds the expanded size limit")
            else check_entries (seen ++ [name]) (expanded + size) rest
      end
  end.

Fixpoint check_required (seen : list string) (names : list string) : result unit :=
  match names with
  | [] => Ok tt
  | name :: rest =>
      if bool_decide (name ∈ seen) then check_required seen rest
      else Err (errorsNew ("Xray release archive is missing " +:+ name))
  end.

Definition validateBundleArchive (l : list zip_file) : result (list zip_file) :=
  let? seen := check_entries [] 0 l in
  let? _ := check_required seen requiredBundleFiles in
  Ok l.

Definition bundleEntryLimit (name : string) : Z :=
  if bool_decide (name = "xray") then maxBinaryBytes
  else if bool_decide (name = "geoip.dat") || bool_decide (name = "geosite.dat") then maxAssetBytes
  else if bool_decide (name = "LICENSE") || bool_decide (name = "README.md") then 1048576%Z
  else 0%Z.

Definition isRequiredBundleFile (name : string) : bool :=
  bool_decide (name = "xray") || bool_decide (name = "geoip.dat") || bool_decide (name = "geosite.dat").

(** Reading an entry through io.LimitReader(stream, limit+1): past the limit
    the end of the stream is not reached. *)
Definition read_entry (limit : Z) (entry : zip_file) : string * option error :=
  if (Z.of_N (slen (zf_bytes entry)) <? limit + 1)%Z then (zf_bytes entry, zf_fail entry)
  else (stake (Z.to_nat (limit + 1)) (zf_bytes entry), None).

Abbreviation bundle := (gmap string string).

Fixpoint extract_entries (files : bundle) (l : list zip_file) : result bundle :=
  match l with
  | [] => Ok files
  | entry :: rest =>
      let limit := bundleEntryLimit (zf_name entry) in
      match zf_open entry with
      | Some e => Err e
      | None =>
          let '(raw, readErr) := read_entry limit entry in
          match readErr, zf_close entry with
          | Some e, _ => Err e
          | None, Some e => Err e
          | None, None =>
              if negb (Z.of_N (slen raw) =? int64_of_u64 (zf_size entry))%Z
                 || (limit <? Z.of_N (slen raw))%Z
              then Err (errorsNew "Xray release entry exceeds its size limit")
              else extract_entries
                     (if isRequiredBundleFile (zf_name entry) then <[zf_name entry := raw]> files
                      else files) rest
          end
      end
  end.

(** [opened] is zip.NewReader on the archive. *)
Definition extractBundle (opened : result (list zip_file)) : result bundle :=
  match opened with
  | Err e => Err (errorW "open Xray release archive: " e)
  | Ok l =>
      let? entries := validateBundleArchive l in
      extract_entries ∅ entries
  end.

(** ** Versions are plain names *)

Definition version_char (c : ascii) : bool := (code c <? 128)%N && version_rune (code c).

Lemma version_rune_small r : version_rune r = true -> (r < 128)%N.
Proof.
  unfold version_rune. rewrite !orb_true_iff, !andb_true_iff, !N.leb_le, !N.eqb_eq. lia.
Qed.

Lemma version_runes s : forallb (fun r => version_rune r.1) (runes s) = true -> sforall version_char s = true.
Proof.
  induction s as [|a r IH]; [done|]. pose proof (runes_cases (String a r)) as Hc. cbn beta iota in Hc.
  destruct Hc as [[Ha ->]|[(v & b & x & (Hv & _) & _ & _ & ->)| ->]]; cbn [forallb fst];
    rewrite andb_true_iff; intros [H1 H2].
  - cbn [sforall]. rewrite IH by done. unfold version_char. rewrite H1.
    by rewrite (proj2 (N.ltb_lt _ _) Ha).
  - apply version_rune_small in H1. lia.
  - by vm_compute in H1.
Qed.

Lemma validateVersion_ok v : validateVersion v = Ok tt ->
  v <> "" /\ v <> "." /\ v <> ".." /\ (slen v <= 128)%N /\ sforall version_char v = true.
Proof.
  unfold validateVersion. intros ([] & H1 & H2)%rbind_Ok. apply guard_err_Ok in H1, H2.
  rewrite !orb_false_iff, !bool_decide_eq_false, N.ltb_ge in H1. apply negb_false_iff, version_runes in H2.
  naive_solver.
Qed.

Lemma validVersion_ascii v : validateVersion v = Ok tt -> is_ascii v = true /\ no_char slash v.
Proof.
  intros (_ & _ & _ & _ & Hv)%validateVersion_ok. split.
  - eapply sforall_impl; [|exact Hv]. intros c Hc. unfold version_char in Hc.
    by apply andb_true_iff in Hc as [-> _].
  - eapply no_char_sforall; [|exact Hv]. reflexivity.
Qed.

Lemma is_ok_unit (r : result unit) : is_ok r = true <-> r = Ok tt.
Proof. destruct r as [[]|]; naive_solver. Qed.

(** ** The admitted archives *)

Definition entry_size (e : zip_file) : Z := int64_of_u64 (zf_size e).

Definition entry_admitted (e : zip_file) : Prop :=
  (exists limit, allowed (zf_name e) = Some limit /\ (0 < entry_size e <= limit)%Z) /\
  zf_dir e = false /\ zf_regular e = true.

Fixpoint total_size (l : list zip_file) : Z :=
  match l with [] => 0 | e :: rest => entry_size e + total_size rest end.

(** A well-formed archive: allowed regular files, each once and within its
    limit, all three files of a bundle, a bounded total. *)
Definition archive_ok (l : list zip_file) : Prop :=
  Forall entry_admitted l /\ NoDup (zf_name <$> l) /\
  requiredBundleFiles ⊆ zf_name <$> l /\ (total_size l <= maxExpandedBytes)%Z.

Lemma total_pos l : Forall entry_admitted l -> (0 <= total_size l)%Z.
Proof. induction 1 as [|e l ((? & _ & ?) & _) _ IH]; simpl; lia. Qed.

Lemma check_entries_ok seen expanded l r :
  (0 <= expanded <= maxExpandedBytes)%Z ->
  check_entries seen expanded l = Ok r <->
  Forall entry_admitted l /\ NoDup (zf_name <$> l) /\ (forall e, e ∈ l -> zf_name e ∉ seen) /\
  (expanded + total_size l <= maxExpandedBytes)%Z /\ r = seen ++ (zf_name <$> l).
Proof.
  revert seen expanded. induction l as [|e l IH]; intros seen expanded He; cbn [check_entries].
  { cbn [fmap list_fmap total_size]. rewrite app_nil_r. split.
    - intros [= <-]. split_and!; [done|constructor|set_solver|lia|done].
    - by intros (_ & _ & _ & _ & ->). }
  cbn [fmap list_fmap total_size]. fold (entry_size e). split.
  - intros H. destruct (allowed (zf_name e)) as [limit|] eqn:Ea; [|done].
    destruct (bool_decide _ || _ || _) eqn:E1; [done|].
    rewrite !orb_false_iff, bool_decide_eq_false, negb_false_iff in E1. destruct E1 as [[Hn Hd] Hr].
    destruct ((_ <=? 0)%Z || _) eqn:E2; [done|].
    rewrite orb_false_iff, Z.leb_gt, Z.ltb_ge in E2.
    destruct (Z.ltb_spec maxExpandedBytes (expanded + entry_size e)); [done|].
    apply IH in H as (H1 & H2 & H3 & H4 & ->); [|lia]. split_and!.
    + constructor; [|done]. split; [by exists limit|done].
    + constructor; [|done]. intros (e' & Hen & Hin)%list_elem_of_fmap.
      apply (H3 e' Hin). rewrite Hen. set_solver.
    + intros e' [->|Hin]%list_elem_of_In%in_inv; [done|]. apply list_elem_of_In in Hin.
      intros Hs. apply (H3 e' Hin). set_solver.
    + lia.
    + by rewrite <- app_assoc.
  - intros (Ha & Hnd & Hs & Ht & ->). apply Forall_cons in Ha as [((limit & Hlim & H1) & Hd & Hr) Hl].
    rewrite Hlim, Hd, Hr. apply NoDup_cons in Hnd as [Hn Hnd']. pose proof (total_pos l Hl).
    rewrite bool_decide_false by (apply Hs; left). cbn [orb negb].
    rewrite (proj2 (Z.leb_gt _ _)), (proj2 (Z.ltb_ge _ _)), (proj2 (Z.ltb_ge _ _)) by lia. cbn [orb].
    apply IH; [lia|]. split_and!; [done|done| |lia|by rewrite <- app_assoc].
    intros e' Hin Hx. apply elem_of_app in Hx as [Hx|Hx%list_elem_of_singleton].
    + apply (Hs e'); [by right|done].
    + apply Hn. rewrite <- Hx. by apply list_elem_of_fmap_2.
Qed.

Lemma check_required_ok seen names : check_required seen names = Ok tt <-> names ⊆ seen.
Proof.
  induction names as [|n names IH]; cbn [check_required]; [by split; [set_solver|]|].
  case_bool_decide as Hn; [rewrite IH; set_solver|]. split; [done|]. intros Hs. destruct Hn. set_solver.
Qed.

Lemma validate_ok l r : validateBundleArchive l = Ok r <-> archive_ok l /\ r = l.
Proof.
  unfold validateBundleArchive, archive_ok. split.
  - intros (seen & H1 & ([] & H2 & [= <-])%rbind_Ok)%rbind_Ok.
    apply check_entries_ok in H1 as (? & ? & _ & ? & ->); [|done]. apply check_required_ok in H2. naive_solver.
  - intros [(H1 & H2 & H3 & H4) ->].
    rewrite (proj2 (check_entries_ok [] 0 l (zf_name <$> l) ltac:(done))) by (split_and!; [done|done|set_solver|done|done]).
    cbn [rbind]. rewrite (proj2 (check_required_ok _ _)) by done. done.
Qed.

Lemma allowed_limit name limit : allowed name = Some limit -> bundleEntryLimit name = limit /\ (0 < limit <= maxBinaryBytes)%Z.
Proof.
  unfold allowed, allowed_entries. cbn [find fst snd].
  repeat (case_bool_decide; [intros [= <-]; subst; by vm_compute|]). done.
Qed.

Lemma int64_size n z : (0 < z)%Z -> int64_of_u64 n = z -> z = Z.of_N n \/ (two64 <= n)%N.
Proof.
  unfold int64_of_u64. intros Hz <-. destruct (N.ltb_spec n 9223372036854775808); [by left|right].
  unfold two64 in *. lia.
Qed.

(** ** What extraction delivers *)

Definition readable (e : zip_file) : Prop :=
  zf_open e = None /\ zf_fail e = None /\ zf_close e = None /\ Z.of_N (slen (zf_bytes e)) = entry_size e.

Fixpoint files_of (files : bundle) (l : list zip_file) : bundle :=
  match l with
  | [] => files
  | e :: rest =>
      files_of (if isRequiredBundleFile (zf_name e) then <[zf_name e := zf_bytes e]> files else files) rest
  end.

Lemma slen_stake n s : slen (stake n s) = N.min (N.of_nat n) (slen s).
Proof.
  revert s. induction n as [|n IH]; intros [|c s]; unfold slen in *; cbn [stake String.length]; try lia.
  rewrite Nat2N.inj_succ, IH. lia.
Qed.

Lemma read_entry_full limit e raw : (0 < limit)%Z ->
  read_entry limit e = (raw, None) -> (Z.of_N (slen raw) <= limit)%Z -> raw = zf_bytes e /\ zf_fail e = None.
Proof.
  unfold read_entry. intros Hl. destruct (Z.ltb_spec (Z.of_N (slen (zf_bytes e))) (limit + 1)).
  - intros [= <- ->] _. done.
  - intros [= <-] Hs. rewrite slen_stake in Hs. lia.
Qed.

Lemma extract_ok files l b :
  Forall entry_admitted l ->
  extract_entries files l = Ok b <-> Forall readable l /\ b = files_of files l.
Proof.
  intros Hl. revert files. induction Hl as [|e l ((limit & Ha & Hs) & Hd & Hr) Hl IH]; intros files.
  { simpl. split; [intros [= ->]; by split|by intros [_ ->]]. }
  cbn [extract_entries files_of]. destruct (allowed_limit _ _ Ha) as [-> Hlim].
  fold (entry_size e). split.
  - destruct (zf_open e) eqn:Eo; [done|]. destruct (read_entry limit e) as [raw [x|]] eqn:Er; [done|].
    destruct (zf_close e) eqn:Ec; [done|]. destruct (negb _ || _) eqn:E; [done|].
    rewrite orb_false_iff, negb_false_iff, Z.eqb_eq, Z.ltb_ge in E. destruct E as [E1 E2].
    apply read_entry_full in Er as [-> Ef]; [|lia|done]. intros [H1 H2]%IH.
    split; [|done]. constructor; [by split_and!|done].
  - intros [[(Ho & Hf & Hc & Hz) Hrest]%Forall_cons_1 ->]. rewrite Ho, Hc. unfold read_entry.
    rewrite (proj2 (Z.ltb_lt _ _)), Hf by lia.
    rewrite (proj2 (Z.eqb_eq _ _)), (proj2 (Z.ltb_ge _ _)) by lia. cbn [negb orb]. by apply IH.
Qed.

Lemma files_of_lookup files l n c : NoDup (zf_name <$> l) ->
  files_of files l !! n = Some c <->
  (isRequiredBundleFile n = true /\ exists e, e ∈ l /\ zf_name e = n /\ zf_bytes e = c) \/
  (files !! n = Some c /\ (isRequiredBundleFile n = false \/ n ∉ zf_name <$> l)).
Proof.
  revert files. induction l as [|e l IH]; intros files Hnd; cbn [files_of].
  { split; [intros; right; split; [done|right; set_solver]|]. intros [(_ & e & He & _)|[? _]]; [set_solver|done]. }
  cbn [fmap list_fmap] in Hnd |- *. apply NoDup_cons in Hnd as [Hn Hnd]. rewrite IH by done. split.
  - intros [(Hr & e' & He & E)|[Hf Hc]]; [left; split; [done|exists e'; set_solver]|].
    destruct (isRequiredBundleFile (zf_name e)) eqn:Er.
    + cbv iota in Hf. rewrite lookup_insert in Hf. case_decide as Hne.
      * simplify_eq. left. split; [done|]. exists e. set_solver.
      * right. set_solver.
    + right. split; [done|]. destruct Hc as [Hc|Hc]; [by left|].
      destruct (decide (n = zf_name e)) as [->|]; [by left|right; set_solver].
  - intros [(Hr & e' & He & En & Ec)|[Hf Hc]].
    + apply elem_of_cons in He as [->|He]; [|left; split; [done|by exists e']].
      right. rewrite <- En, Ec in *. rewrite Hr, lookup_insert_eq. by split; [|right].
    + right. destruct (isRequiredBundleFile (zf_name e)) eqn:Er; [|set_solver].
      rewrite lookup_insert_ne; [set_solver|]. intros <-.
      destruct Hc as [?|Hc]; [congruence|]. set_solver.
Qed.

(** ** Properties *)

(** The archive of a release is accepted exactly when it is well formed
    (allowed regular files, each once, within its limit, all files of a bundle
    present, a bounded total) and every entry delivers the bytes it declares;
    the bundle then holds exactly the required files with those bytes. *)
Theorem extractBundle_exact l b :
  extractBundle (Ok l) = Ok b <->
  archive_ok l /\ Forall readable l /\
  forall n c, b !! n = Some c <->
    isRequiredBundleFile n = true /\ exists e, e ∈ l /\ zf_name e = n /\ zf_bytes e = c.
Proof.
  unfold extractBundle. split.
  - intros (es & [Ha ->]%validate_ok & Hx)%rbind_Ok. pose proof Ha as (Hl & Hnd & _).
    apply extract_ok in Hx as [Hr ->]; [|done]. split_and!; [done|done|].
    intros n c. rewrite files_of_lookup, lookup_empty by done. naive_solver.
  - intros (Ha & Hr & Hb). pose proof Ha as (Hl & Hnd & _).
    rewrite (proj2 (validate_ok l l)) by done. cbn [rbind]. apply extract_ok; [done|].
    split; [done|]. apply map_eq. intros n. apply option_eq. intros c.
    rewrite Hb, files_of_lookup, lookup_empty by done. naive_solver.
Qed.

Section selection.
Context `{Platform}.

Lemma admit_artifact_ok a x : admit_artifact a = Ok x <->
  x = normalized a /\ (0 < ar_size x <= maxArchiveBytes)%Z /\ slen (ar_sha256 x) = 64%N /\
  is_Some (DecodeString (ar_sha256 x)).
Proof.
  unfold admit_artifact. split.
  - intros ([] & H1%guard_err_Ok & H2)%rbind_Ok.
    rewrite !orb_false_iff, Z.leb_gt, Z.ltb_ge, negb_false_iff, bool_decide_eq_true in H1.
    destruct (DecodeString _) eqn:E; [|done]. injection H2 as <-. split_and!; try apply H1; [done|].
    rewrite E. by eexists.
  - intros (-> & Hs & Hl & y & Hy). rewrite (proj2 (Z.leb_gt _ _)), (proj2 (Z.ltb_ge _ _)) by lia.
    rewrite Hl. cbn [orb negb guard_err]. rewrite bool_decide_true by done.
    cbn [rbind guard_err negb]. by rewrite Hy.
Qed.

Lemma select_some a l r : select_from (Some a) l = Ok r <->
  r = Some a /\ Forall (fun x => for_platform x = false) l.
Proof.
  induction l as [|x l IH]; cbn [select_from]; [naive_solver|]. rewrite Forall_cons.
  destruct (for_platform x); cbn [negb]; [split; [done|by intros (_ & ? & _)]|]. rewrite IH. naive_solver.
Qed.

Lemma select_none l a : select_from None l = Ok (Some a) <->
  exists pre x post, l = pre ++ x :: post /\ for_platform x = true /\ admit_artifact x = Ok a /\
    Forall (fun y => for_platform y = false) (pre ++ post).
Proof.
  induction l as [|x l IH]; cbn [select_from].
  { split; [done|]. by intros ([] & ? & ? & ? & _). }
  destruct (for_platform x) eqn:Ef; cbn [negb].
  - split.
    + intros (y & Hy & [[= ->] Hl]%select_some)%rbind_Ok. by exists [], x, l.
    + intros ([|z pre] & y & post & [= <- ->] & Hy & Ha & Hf).
      * rewrite Ha. by apply select_some.
      * apply Forall_cons_1 in Hf as [? _]. congruence.
  - rewrite IH. split.
    + intros (pre & y & post & -> & Hy & Ha & Hf). exists (x :: pre), y, post. split_and!; try done.
      by constructor.
    + intros ([|z pre] & y & post & [= <- ->] & Hy & Ha & Hf); [congruence|].
      exists pre, y, post. split_and!; try done. by apply Forall_cons_1 in Hf as [_ Hf].
Qed.

(** An artifact is selected exactly when the manifest has one and only one
    for this platform and its size and digest (64 hex digits once trimmed and
    in lower case) are valid. *)
Theorem selectArtifact_exact m a :
  selectArtifact m = Ok a <->
  exists pre x post, mf_artifacts m = pre ++ x :: post /\
    Forall (fun y => for_platform y = false) (pre ++ post) /\ for_platform x = true /\
    a = normalized x /\ (0 < ar_size a <= maxArchiveBytes)%Z /\
    slen (ar_sha256 a) = 64%N /\ is_Some (DecodeString (ar_sha256 a)).
Proof.
  transitivity (select_from None (mf_artifacts m) = Ok (Some a)).
  - unfold selectArtifact. destruct (select_from _ _) as [[x|]|]; naive_solver.
  - rewrite select_none. setoid_rewrite admit_artifact_ok. naive_solver.
Qed.
End selection.

(** ** Examples *)

Definition ex_entry (name bytes : string) : zip_file :=
  ZipFile name false true (slen bytes) None bytes None None.

Definition ex_archive : list zip_file :=
  [ex_entry "xray" "elf"; ex_entry "README.md" "read me"; ex_entry "geoip.dat" "ip";
   ex_entry "geosite.dat" "site"].

Example extract_ex : extractBundle (Ok ex_archive) =
  Ok {["xray" := "elf"; "geoip.dat" := "ip"; "geosite.dat" := "site"]}.
Proof. vm_compute. reflexivity. Qed.

Example extract_extra : is_ok (extractBundle (Ok (ex_archive ++ [ex_entry "../etc/passwd" "x"]))) = false.
Proof. reflexivity. Qed.

Example extract_twice : is_ok (extractBundle (Ok (ex_archive ++ [ex_entry "xray" "x"]))) = false.
Proof. reflexivity. Qed.

Example extract_lying : is_ok (extractBundle (Ok (ZipFile "LICENSE" false true 3 None "longer" None None :: ex_archive))) = false.
Proof. reflexivity. Qed.

(** A declared size of 2^63 or more reads as a negative int64. *)
Example extract_wrap : is_ok (extractBundle (Ok (ZipFile "LICENSE" false true 18446744073709551615 None "x" None None :: ex_archive))) = false.
Proof. reflexivity. Qed.
