(* ===== verification/UpdateTypes.v ===== *)
(** * State of the Xray binary updates (internal/xrayupdate/manager.go, data)

    The values the update manager keeps in applied.json, update-pending.json,
    update-failed.json and in the bundle.json of every installed version, with
    their JSON codecs, and the checks on them. *)

From stdpp Require Import base gmap strings list fin_maps sorting.
From Stdlib Require Import ZArith NArith Ascii.
From S2P Require Import Prelude.
From S2P Require Import GoStrings.
From S2P Require Import Sha256.
From S2P Require Import Json.
From S2P Require Import XrayTypes.
From S2P Require Import Manifest.

(** ** Constants *)

Definition StatusInstalled : string := "installed".
Definition StatusInstallFailed : string := "install_failed".

Definition ErrorCodeValidationFailed : string := "validation_failed".
Definition ErrorCodePreparationFailed : string := "preparation_failed".
Definition ErrorCodeActivationFailed : string := "activation_failed".
Definition ErrorCodePersistenceFailed : string := "persistence_failed".
Definition ErrorCodeRecoveryFailed : string := "recovery_failed".
Definition ErrorCodeUnclassified : string := "unclassified".

Definition RecoveryStatusNotRequired : string := "not_required".
Definition RecoveryStatusRolledBack : string := "rolled_back".
Definition RecoveryStatusFailed : string := "failed".
Definition RecoveryStatusUnknown : string := "unknown".

Definition retainedVersions : nat := 3.
Definition maxStateBytes : N := 65536.
Definition stateDirectoryMode : N := 448.
Definition stateFileMode : N := 384.

(** ** Records *)

Record Request : Set := MkRequest { rq_command : string; rq_version : string }.

Record Result : Set := MkResult {
  r_version : string;
  r_status : string;
  r_error : string;
  r_code : string;
  r_recovery : string;
  r_at : Z;
  r_rolled : bool
}.

Record AppliedState : Set := MkApplied {
  a_version : string;
  a_xray : string;
  a_digest : string;
  a_target : string;
  a_at : Z
}.

Record pendingState : Set := MkPending {
  p_command : string;
  p_prev : string;
  p_prev_applied : option AppliedState;
  p_target : string;
  p_version : string;
  p_xray : string;
  p_digest : string;
  p_started : Z
}.

Record bundleState : Set := MkBundle {
  b_version : string;
  b_xray : string;
  b_digest : string;
  b_files : gmap string string
}.

#[export] Instance AppliedState_eq : EqDecision AppliedState.
Proof. solve_decision. Defined.
#[export] Instance pendingState_eq : EqDecision pendingState.
Proof. solve_decision. Defined.
#[export] Instance Result_eq : EqDecision Result.
Proof. solve_decision. Defined.

Definition Success (r : Result) : bool := bool_decide (r_status r = StatusInstalled).

Definition resultFromApplied (a : AppliedState) : Result :=
  MkResult (a_version a) StatusInstalled "" "" "" (a_at a) false.

(** ** Checks *)

Definition validateTarget (target : string) : result unit :=
  let? _ := guard_err (bool_decide (target = "") || IsAbs target
                       || negb (bool_decide (Clean target = target)))
              "Xray version target is invalid" in
  guard_err (match Split target slash with
             | [p0; p1] => negb (bool_decide (p0 = "versions")) || bool_decide (p1 = "")
             | _ => true
             end)
    "Xray version target is outside the versions directory".

Definition digest_len (d : string) : bool := bool_decide (slen d = sha256_Size * 2)%N.

Definition validateAppliedState (a : AppliedState) : result unit :=
  let? _ := guard_err (negb (is_ok (validateVersion (a_version a)))
                       || negb (is_ok (validateVersion (a_xray a)))
                       || negb (digest_len (a_digest a))
                       || negb (is_ok (validateTarget (a_target a))))
              "applied Xray binary state is incomplete" in
  guard_err (match DecodeString (a_digest a) with None => true | Some _ => false end)
    "applied Xray binary archive digest is invalid".

(** The checks of loadPending. *)
Definition validatePending (p : pendingState) : result unit :=
  let? _ := guard_err (bool_decide (p_command p = "")
                       || negb (is_ok (validateVersion (p_version p)))
                       || negb (is_ok (validateVersion (p_xray p)))
                       || negb (digest_len (p_digest p))
                       || negb (is_ok (validateTarget (p_target p))))
              "pending Xray binary update is incomplete" in
  let? _ := guard_err (negb (bool_decide (p_prev p = "")) && negb (is_ok (validateTarget (p_prev p))))
              "pending Xray binary rollback target is invalid" in
  match p_prev_applied p with
  | None => Ok tt
  | Some a =>
      let? _ := guard_err (bool_decide (p_prev p = "") || negb (bool_decide (a_target a = p_prev p)))
                  "pending Xray binary rollback state does not match its target" in
      guard_err (negb (is_ok (validateAppliedState a)))
        "pending Xray binary rollback state is invalid"
  end.

(** ** JSON *)

(** A map[string]string: null entries are empty strings, a later key wins. *)
Definition dec_entry (kv : string * string) : option (string * string) :=
  (fun v => (kv.1, v)) <$> (if is_null kv.2 then Some "" else dec_string kv.2).

Definition dec_map (raw : string) : option (gmap string string) :=
  members raw ≫= fun l => (fun kvs => list_to_map (rev kvs)) <$> mapM dec_entry l.

Definition key_le (a b : string * string) : Prop := String.le a.1 b.1.
#[export] Instance key_le_dec : RelDecision key_le.
Proof. intros a b. unfold key_le. apply _. Defined.

(** json.Marshal of a map: the members in the order of the keys. *)
Definition map_members (m : gmap string string) : list (string * string) :=
  (fun kv => (kv.1, quote kv.2)) <$> merge_sort key_le (map_to_list m).

Definition applied_fields : list (string * setter AppliedState) :=
  [("version", fld dec_string (fun v a => MkApplied v (a_xray a) (a_digest a) (a_target a) (a_at a)));
   ("xrayVersion", fld dec_string (fun v a => MkApplied (a_version a) v (a_digest a) (a_target a) (a_at a)));
   ("archiveDigest", fld dec_string (fun v a => MkApplied (a_version a) (a_xray a) v (a_target a) (a_at a)));
   ("target", fld dec_string (fun v a => MkApplied (a_version a) (a_xray a) (a_digest a) v (a_at a)));
   ("appliedAt", fld dec_int (fun v a => MkApplied (a_version a) (a_xray a) (a_digest a) (a_target a) v))].

Definition applied_members (a : AppliedState) : list (string * string) :=
  [("version", quote (a_version a)); ("xrayVersion", quote (a_xray a));
   ("archiveDigest", quote (a_digest a)); ("target", quote (a_target a));
   ("appliedAt", FormatInt (a_at a))].

Definition zero_applied : AppliedState := MkApplied "" "" "" "" 0.
Definition zero_pending : pendingState := MkPending "" "" None "" "" "" "" 0.
Definition zero_bundle : bundleState := MkBundle "" "" "" ∅.
Definition zero_result : Result := MkResult "" "" "" "" "" 0 false.

Definition pending_fields : list (string * setter pendingState) :=
  [("commandId", fld dec_string (fun v p => MkPending v (p_prev p) (p_prev_applied p) (p_target p) (p_version p) (p_xray p) (p_digest p) (p_started p)));
   ("previousTarget", fld dec_string (fun v p => MkPending (p_command p) v (p_prev_applied p) (p_target p) (p_version p) (p_xray p) (p_digest p) (p_started p)));
   ("previousApplied", ptr (decode_obj true applied_fields zero_applied)
      (fun v p => MkPending (p_command p) (p_prev p) v (p_target p) (p_version p) (p_xray p) (p_digest p) (p_started p)));
   ("target", fld dec_string (fun v p => MkPending (p_command p) (p_prev p) (p_prev_applied p) v (p_version p) (p_xray p) (p_digest p) (p_started p)));
   ("version", fld dec_string (fun v p => MkPending (p_command p) (p_prev p) (p_prev_applied p) (p_target p) v (p_xray p) (p_digest p) (p_started p)));
   ("xrayVersion", fld dec_string (fun v p => MkPending (p_command p) (p_prev p) (p_prev_applied p) (p_target p) (p_version p) v (p_digest p) (p_started p)));
   ("archiveDigest", fld dec_string (fun v p => MkPending (p_command p) (p_prev p) (p_prev_applied p) (p_target p) (p_version p) (p_xray p) v (p_started p)));
   ("startedAt", fld dec_int (fun v p => MkPending (p_command p) (p_prev p) (p_prev_applied p) (p_target p) (p_version p) (p_xray p) (p_digest p) v))].

Definition prev_applied_member (o : option AppliedState) : list (string * string) :=
  match o with Some a => [("previousApplied", obj (applied_members a))] | None => [] end.

Definition pending_members (p : pendingState) : list (string * string) :=
  [("commandId", quote (p_command p))]
  ++ opt_member "previousTarget" (p_prev p)
  ++ prev_applied_member (p_prev_applied p)
  ++ [("target", quote (p_target p)); ("version", quote (p_version p));
      ("xrayVersion", quote (p_xray p)); ("archiveDigest", quote (p_digest p));
      ("startedAt", FormatInt (p_started p))].

Definition bundle_fields : list (string * setter bundleState) :=
  [("version", fld dec_string (fun v b => MkBundle v (b_xray b) (b_digest b) (b_files b)));
   ("xrayVersion", fld dec_string (fun v b => MkBundle (b_version b) v (b_digest b) (b_files b)));
   ("archiveDigest", fld dec_string (fun v b => MkBundle (b_version b) (b_xray b) v (b_files b)));
   ("files", fld dec_map (fun v b => MkBundle (b_version b) (b_xray b) (b_digest b) v))].

Definition bundle_members (b : bundleState) : list (string * string) :=
  [("version", quote (b_version b)); ("xrayVersion", quote (b_xray b));
   ("archiveDigest", quote (b_digest b)); ("files", obj (map_members (b_files b)))].

Definition result_fields : list (string * setter Result) :=
  [("version", fld dec_string (fun v r => MkResult v (r_status r) (r_error r) (r_code r) (r_recovery r) (r_at r) (r_rolled r)));
   ("status", fld dec_string (fun v r => MkResult (r_version r) v (r_error r) (r_code r) (r_recovery r) (r_at r) (r_rolled r)));
   ("error", fld dec_string (fun v r => MkResult (r_version r) (r_status r) v (r_code r) (r_recovery r) (r_at r) (r_rolled r)));
   ("errorCode", fld dec_string (fun v r => MkResult (r_version r) (r_status r) (r_error r) v (r_recovery r) (r_at r) (r_rolled r)));
   ("recoveryStatus", fld dec_string (fun v r => MkResult (r_version r) (r_status r) (r_error r) (r_code r) v (r_at r) (r_rolled r)));
   ("appliedAt", fld dec_int (fun v r => MkResult (r_version r) (r_status r) (r_error r) (r_code r) (r_recovery r) v (r_rolled r)));
   ("rolledBack", fld dec_bool (fun v r => MkResult (r_version r) (r_status r) (r_error r) (r_code r) (r_recovery r) (r_at r) v))].

Definition result_members (r : Result) : list (string * string) :=
  [("version", quote (r_version r)); ("status", quote (r_status r))]
  ++ opt_member "error" (r_error r) ++ opt_member "errorCode" (r_code r)
  ++ opt_member "recoveryStatus" (r_recovery r)
  ++ (if bool_decide (r_at r = 0)%Z then [] else [("appliedAt", FormatInt (r_at r))])
  ++ (if r_rolled r then [("rolledBack", "true")] else []).

(** writeJSONAtomic, the text written *)
Definition encode_applied (a : AppliedState) : string := obj (applied_members a) +:+ nl.
Definition encode_pending (p : pendingState) : string := obj (pending_members p) +:+ nl.
Definition encode_bundle (b : bundleState) : string := obj (bundle_members b) +:+ nl.
Definition encode_result (r : Result) : string := obj (result_members r) +:+ nl.

(** readJSONFile, after the file was read *)
Definition parse_json {T} (fields : list (string * setter T)) (zero : T) (raw : string) : result T :=
  let? _ := guard_err ((slen raw =? 0)%N || (maxStateBytes <? slen raw)%N)
              "Xray update state has an invalid size" in
  match decode_text true fields zero raw with
  | Some x => Ok x
  | None => Err (errorsNew "Xray update state is not valid")
  end.

Definition parse_applied (raw : string) : result AppliedState :=
  let? a := parse_json applied_fields zero_applied raw in
  let? _ := validateAppliedState a in Ok a.

Definition parse_pending (raw : string) : result pendingState :=
  let? p := parse_json pending_fields zero_pending raw in
  let? _ := validatePending p in Ok p.

Definition parse_bundle (raw : string) : result bundleState :=
  parse_json bundle_fields zero_bundle raw.

(** LoadFailureState, after the file was read *)
Definition parse_failed (raw : string) : result Result :=
  let? r := parse_json result_fields zero_result raw in
  let? _ := guard_err (negb (is_ok (validateVersion (r_version r)))
                       || negb (bool_decide (r_status r = StatusInstallFailed)))
              "failed Xray binary update state is incomplete" in
  let code := if bool_decide (r_code r = "") then ErrorCodeUnclassified else r_code r in
  let recovery := if bool_decide (r_recovery r = "") then
                    (if r_rolled r then RecoveryStatusRolledBack else RecoveryStatusUnknown)
                  else r_recovery r in
  Ok (MkResult (r_version r) (r_status r) (r_error r) code recovery (r_at r) (r_rolled r)).

(** cleanError of a prefix and an error *)
Definition cleanError (prefix : string) (e : error) : string :=
  let message := TrimSpace prefix in
  let message := (if bool_decide (message = "") then "" else message +:+ ": ") +:+ TrimSpace (err_text e) in
  if (2048 <? slen message)%N then stake 2048 message else message.

(** newUpdateError and ErrorDetails *)
Definition newUpdateError (code recoveryStatus : string) (e : error) : error :=
  MkError (err_text e) (err_is e) (Some (code, recoveryStatus)).

Definition ErrorDetails (e : error) : string * string :=
  match err_class e with
  | Some d => d
  | None => (ErrorCodeUnclassified, RecoveryStatusUnknown)
  end.

(** ** Targets and digests *)

Lemma Split_parts c s x : x ∈ Split s c -> no_char c x.
Proof.
  revert x. induction s as [|a s IH]; intros x; cbn [Split].
  { by intros ->%list_elem_of_singleton. }
  case_bool_decide as Hc; [intros [->|Hx]%elem_of_cons; [done|by apply IH]|].
  destruct (Split s c) as [|h t] eqn:E; [by apply Split_length in E|].
  intros [->|Hx]%elem_of_cons.
  - apply no_char_cons. split; [done|]. apply IH. left.
  - apply IH. by right.
Qed.

Lemma Split_two s p0 p1 : Split s slash = [p0; p1] ->
  s = p0 +:+ String slash p1 /\ no_char slash p0 /\ no_char slash p1.
Proof.
  intros E. split_and!.
  - by rewrite <- (sconcat_Split slash s), E.
  - apply (Split_parts slash s). rewrite E. left.
  - apply (Split_parts slash s). rewrite E. right. left.
Qed.

Lemma u_validateTarget_ok target :
  validateTarget target = Ok tt <-> exists n, entry_name n /\ target = "versions/" +:+ n.
Proof.
  split.
  - unfold validateTarget. intros ([] & H1 & H2)%rbind_Ok. apply guard_err_Ok in H1, H2.
    rewrite !orb_false_iff, negb_false_iff, !bool_decide_eq_true in H1. destruct H1 as [[H0 Ha] Hc].
    destruct (Split target slash) as [|p0 [|p1 []]] eqn:E; try done.
    apply Split_two in E as (-> & _ & Hn).
    rewrite orb_false_iff, negb_false_iff, bool_decide_eq_true, bool_decide_eq_false in H2.
    destruct H2 as [-> Hne]. exists p1. split; [|done].
    split_and!; [done|done|intros ->; vm_compute in Hc; congruence..].
  - intros (n & Hn & ->). unfold validateTarget.
    change ("versions/" +:+ n) with ("versions" +:+ String slash n).
    rewrite Clean_two by (done || apply entry_versions).
    rewrite bool_decide_false, IsAbs_entry, bool_decide_true by (done || apply entry_versions).
    cbn [orb negb guard_err rbind]. rewrite Split_app, Split_no_char by (done || apply Hn).
    rewrite bool_decide_true, bool_decide_false by (done || apply Hn). done.
Qed.

Lemma target_entry n : entry_name n -> validateTarget ("versions/" +:+ n) = Ok tt.
Proof. intros Hn. apply u_validateTarget_ok. by exists n. Qed.

Lemma target_same target : validateTarget target = Ok tt <-> XrayTypes.validateTarget target = Ok tt.
Proof. by rewrite u_validateTarget_ok, XrayTypes.validateTarget_ok. Qed.

Lemma version_digest_entry v d : validateVersion v = Ok tt -> slen d = 64%N -> no_char slash d ->
  entry_name (v +:+ "-" +:+ d).
Proof.
  intros Hv Hl Hd. pose proof (validVersion_ascii v Hv) as [_ Hs].
  assert (64 < String.length (v +:+ "-" +:+ d))%nat as Hlen.
  { rewrite !slength_app. unfold slen in Hl. simpl. lia. }
  split_and!; [|intros E; rewrite E in Hlen; simpl in Hlen; lia..].
  rewrite !no_char_app. by split_and!.
Qed.

Lemma DecodeString_no_slash d x : DecodeString d = Some x -> no_char slash d.
Proof.
  remember (String.length d) as n eqn:Hn. revert d x Hn.
  induction (lt_wf n) as [n _ IH]. intros [|a [|b s]] x -> Hr; [done|done|].
  cbn [DecodeString] in Hr.
  destruct (from_hex a) eqn:Ea; [|done]. destruct (from_hex b) eqn:Eb; [|done].
  destruct (DecodeString s) eqn:Es; [|done].
  apply no_char_cons. split; [by intros ->|]. apply no_char_cons. split; [by intros ->|].
  eapply IH; [|done|done]. simpl. lia.
Qed.

(** ** Codec round trips *)

Definition applied_ok (a : AppliedState) : Prop :=
  is_i64 (a_at a) /\ text_ok (a_target a) /\ validateAppliedState a = Ok tt.

Lemma u_version_text v : validateVersion v = Ok tt -> ValidString v = true /\ (slen v <= 128)%N.
Proof.
  intros Hv. split; [apply is_ascii_ValidString; by apply validVersion_ascii|]. apply validateVersion_ok in Hv. apply Hv.
Qed.

Record applied_facts (a : AppliedState) : Prop := AppliedFacts {
  af_version : validateVersion (a_version a) = Ok tt;
  af_xray : validateVersion (a_xray a) = Ok tt;
  af_digest : slen (a_digest a) = 64%N;
  af_decodes : is_Some (DecodeString (a_digest a));
  af_target : validateTarget (a_target a) = Ok tt
}.

Lemma validateApplied_ok a : validateAppliedState a = Ok tt <-> applied_facts a.
Proof.
  unfold validateAppliedState, digest_len. split.
  - intros ([] & H1%guard_err_Ok & H2%guard_err_Ok)%rbind_Ok.
    rewrite !orb_false_iff, !negb_false_iff, !is_ok_unit, bool_decide_eq_true in H1.
    split; try apply H1. destruct (DecodeString _); [by eexists|done].
  - intros [-> -> -> [x ->] ->]. done.
Qed.

Lemma u_applied_members_ok a : Forall member_ok (applied_members a).
Proof. unfold applied_members. members_ok. Qed.

Ltac fields := repeat first [rewrite fld_string by done | rewrite fld_int by done].

Lemma digest_valid d : is_Some (DecodeString d) -> ValidString d = true.
Proof. intros [x Hx]. by eapply is_ascii_ValidString, DecodeString_ascii. Qed.

Lemma u_set_applied a : applied_ok a ->
  set_members true applied_fields (applied_members a) zero_applied = Some a.
Proof.
  intros (Hz & (Ht & _) & [Hv Hx _ Hd _]%validateApplied_ok).
  apply u_version_text in Hv as [Hv _], Hx as [Hx _]. apply digest_valid in Hd.
  unfold applied_members, set_members, field_for. simpl. fields. by destruct a.
Qed.

Lemma u_applied_size a : applied_ok a -> (members_size (applied_members a) <= 4500)%N.
Proof.
  intros (Hz & (_ & Ht) & [Hv Hx Hd _ _]%validateApplied_ok).
  apply u_version_text in Hv as [_ Hv], Hx as [_ Hx].
  pose proof (int_slen _ Hz). pose proof (quote_slen (a_version a)). pose proof (quote_slen (a_xray a)).
  pose proof (quote_slen (a_digest a)). pose proof (quote_slen (a_target a)).
  unfold applied_members. cbn [members_size foldr fst snd].
  change (slen "version") with 7%N. change (slen "xrayVersion") with 11%N.
  change (slen "archiveDigest") with 13%N.
  change (slen "target") with 6%N. change (slen "appliedAt") with 9%N. lia.
Qed.

Lemma u_parse_json_obj {T} (fields : list (string * setter T)) zero l x :
  l <> [] -> Forall member_ok l -> (members_size l <= 60000)%N ->
  set_members true fields l zero = Some x ->
  parse_json fields zero (obj l +:+ nl) = Ok x.
Proof.
  intros Hne Hl Hs Hx. unfold parse_json.
  assert (0 < slen (obj l +:+ nl) <= maxStateBytes)%N as Hsz.
  { pose proof (obj_slen l). rewrite slen_app. change (slen nl) with 1%N. unfold maxStateBytes. lia. }
  destruct (N.eqb_spec (slen (obj l +:+ nl)) 0); [lia|].
  destruct (N.ltb_spec maxStateBytes (slen (obj l +:+ nl))); [lia|]. cbn [orb guard_err rbind].
  rewrite decode_text_obj by done. by rewrite Hx.
Qed.

Lemma u_parse_encode_applied a : applied_ok a -> parse_applied (encode_applied a) = Ok a.
Proof.
  intros Hok. pose proof Hok as (_ & _ & Ha).
  unfold parse_applied, encode_applied. rewrite (u_parse_json_obj _ _ _ a).
  - cbn [rbind]. by rewrite Ha.
  - done.
  - apply u_applied_members_ok.
  - pose proof (u_applied_size a Hok). lia.
  - by apply u_set_applied.
Qed.

(** update-pending.json *)
Definition pending_ok (p : pendingState) : Prop :=
  is_i64 (p_started p) /\ ValidString (p_command p) = true /\ (slen (p_command p) <= 256)%N /\
  text_ok (p_target p) /\ text_ok (p_prev p) /\ ValidString (p_digest p) = true /\
  validatePending p = Ok tt /\
  match p_prev_applied p with Some a => applied_ok a | None => True end.

Record pending_facts (p : pendingState) : Prop := PendingFacts {
  pf_command : p_command p <> "";
  pf_version : validateVersion (p_version p) = Ok tt;
  pf_xray : validateVersion (p_xray p) = Ok tt;
  pf_digest : slen (p_digest p) = 64%N;
  pf_target : validateTarget (p_target p) = Ok tt;
  pf_prev : p_prev p = "" \/ validateTarget (p_prev p) = Ok tt;
  pf_applied : forall a, p_prev_applied p = Some a ->
    p_prev p <> "" /\ a_target a = p_prev p /\ validateAppliedState a = Ok tt
}.

Lemma validatePending_ok p : validatePending p = Ok tt <-> pending_facts p.
Proof.
  unfold validatePending, digest_len. split.
  - intros ([] & H1%guard_err_Ok & ([] & H2%guard_err_Ok & H3)%rbind_Ok)%rbind_Ok.
    rewrite !orb_false_iff, !negb_false_iff, !is_ok_unit, bool_decide_eq_true, bool_decide_eq_false in H1.
    rewrite andb_false_iff, !negb_false_iff, is_ok_unit, bool_decide_eq_true in H2.
    split; try apply H1; [done|]. intros a E. rewrite E in H3.
    apply rbind_Ok in H3 as ([] & H3%guard_err_Ok & H4%guard_err_Ok).
    rewrite orb_false_iff, negb_false_iff, bool_decide_eq_true, bool_decide_eq_false in H3.
    apply negb_false_iff, is_ok_unit in H4. naive_solver.
  - intros [H1 H2 H3 H4 H5 H6 H7]. rewrite bool_decide_false, H2, H3, H4, H5 by done.
    cbn [is_ok negb orb guard_err rbind]. rewrite (bool_decide_true (64%N = _)) by done.
    assert (negb (bool_decide (p_prev p = "")) && negb (is_ok (validateTarget (p_prev p))) = false) as ->.
    { destruct H6 as [-> | ->]; [done|by rewrite andb_false_r]. }
    cbn. destruct (p_prev_applied p) as [a|]; [|done]. destruct (H7 a) as (Hp & -> & ->); [done|].
    by rewrite bool_decide_false, bool_decide_true.
Qed.

Lemma u_pending_members_ok p : Forall member_ok (pending_members p).
Proof.
  unfold pending_members. members_ok.
  destruct (p_prev_applied p); simpl; [|constructor]. constructor; [|done]. split; [reflexivity|].
  apply jv_obj; [done|apply u_applied_members_ok].
Qed.

Lemma u_dec_applied a : applied_ok a ->
  decode_obj true applied_fields zero_applied (obj (applied_members a)) = Some a.
Proof. intros. rewrite decode_obj_obj by (done || apply u_applied_members_ok). by apply u_set_applied. Qed.

Lemma u_set_pending p : pending_ok p ->
  set_members true pending_fields (pending_members p) zero_pending = Some p.
Proof.
  intros (Hz & Hc & _ & (Ht & _) & (Hp & _) & Hd & [_ Hv Hx _ _ _ _]%validatePending_ok & Ha).
  apply u_version_text in Hv as [Hv _], Hx as [Hx _].
  unfold pending_members. cbn [app]. erewrite set_member by (reflexivity || by apply fld_string).
  erewrite set_opt_member by (reflexivity || done).
  destruct p as [c pv pa t v x d z]; simpl in *.
  destruct pa as [a|]; cbn [prev_applied_member app].
  - erewrite set_member; [|reflexivity|apply ptr_some; [done|by apply u_dec_applied]].
    do 4 erewrite set_member by (reflexivity || by apply fld_string).
    by erewrite set_member by (reflexivity || by apply fld_int).
  - do 4 erewrite set_member by (reflexivity || by apply fld_string).
    by erewrite set_member by (reflexivity || by apply fld_int).
Qed.

Lemma u_pending_size p : pending_ok p -> (members_size (pending_members p) <= 20000)%N.
Proof.
  intros (Hz & _ & Hc & (_ & Ht) & (_ & Hp) & _ & [_ Hv Hx Hd _ _ _]%validatePending_ok & Ha).
  apply u_version_text in Hv as [_ Hv], Hx as [_ Hx].
  pose proof (int_slen _ Hz). pose proof (quote_slen (p_command p)). pose proof (quote_slen (p_target p)).
  pose proof (quote_slen (p_version p)). pose proof (quote_slen (p_xray p)). pose proof (quote_slen (p_digest p)).
  pose proof (opt_member_size "previousTarget" (p_prev p)) as Ho.
  unfold pending_members. rewrite !members_size_app.
  assert (members_size (prev_applied_member (p_prev_applied p)) <= 4700)%N as Hm.
  { destruct (p_prev_applied p) as [a|]; simpl; [|lia].
    pose proof (u_applied_size a Ha). pose proof (obj_slen (applied_members a)).
    change (slen "previousApplied") with 15%N. lia. }
  change (slen "previousTarget") with 14%N in Ho.
  cbn [members_size foldr fst snd] in *.
  change (slen "commandId") with 9%N. change (slen "version") with 7%N.
  change (slen "xrayVersion") with 11%N. change (slen "archiveDigest") with 13%N.
  change (slen "target") with 6%N. change (slen "startedAt") with 9%N. lia.
Qed.

Lemma u_parse_encode_pending p : pending_ok p -> parse_pending (encode_pending p) = Ok p.
Proof.
  intros Hok. pose proof Hok as (_ & _ & _ & _ & _ & _ & Hval & _).
  unfold parse_pending, encode_pending. rewrite (u_parse_json_obj _ _ _ p).
  - cbn [rbind]. by rewrite Hval.
  - done.
  - apply u_pending_members_ok.
  - pose proof (u_pending_size p Hok). lia.
  - by apply u_set_pending.
Qed.

(** Maps of strings *)
Lemma dec_entries l : Forall (fun kv => ValidString kv.2 = true) l ->
  mapM dec_entry ((fun kv => (kv.1, quote kv.2)) <$> l) = Some l.
Proof.
  intros Hl. apply mapM_Some, Forall2_fmap_l, Forall_Forall2_diag.
  eapply Forall_impl; [exact Hl|]. intros [k v] Hv. simpl in *.
  unfold dec_entry, is_null. cbn [fst snd]. rewrite bool_decide_false by done.
  unfold dec_string. by rewrite unquote_quote.
Qed.

Lemma map_members_ok m : (forall k v, m !! k = Some v -> is_ascii k = true) ->
  Forall member_ok (map_members m).
Proof.
  intros Hm. unfold map_members. apply Forall_fmap, Forall_forall. intros [k v] Hin.
  rewrite (merge_sort_Permutation key_le) in Hin. apply elem_of_map_to_list in Hin.
  split; [by eapply Hm|apply jv_quote].
Qed.

Lemma dec_map_members m : m <> ∅ ->
  (forall k v, m !! k = Some v -> is_ascii k = true /\ ValidString v = true) ->
  dec_map (obj (map_members m)) = Some m.
Proof.
  intros Hne Hm. pose proof (merge_sort_Permutation key_le (map_to_list m)) as Hp.
  unfold dec_map. rewrite members_obj.
  - cbn. unfold map_members. rewrite dec_entries.
    + cbn. f_equal. rewrite (list_to_map_proper _ (map_to_list m)).
      * apply list_to_map_to_list.
      * rewrite <- Permutation_rev, Hp. apply NoDup_fst_map_to_list.
      * by rewrite <- Permutation_rev.
    + rewrite Hp. apply Forall_forall. intros [k v] Hin%elem_of_map_to_list. by eapply Hm.
  - intros E. apply fmap_nil_inv in E. rewrite E in Hp. apply Permutation_nil in Hp.
    by apply map_to_list_empty_iff in Hp.
  - apply map_members_ok. intros k v Hk. by eapply Hm.
Qed.

(** bundle.json *)
Definition digests_ok (m : gmap string string) : Prop :=
  dom m = list_to_set (C := gset string) requiredBundleFiles /\ map_Forall (fun _ v => digest_ok v) m.

Definition bundle_ok (b : bundleState) : Prop :=
  validateVersion (b_version b) = Ok tt /\ validateVersion (b_xray b) = Ok tt /\
  digest_ok (b_digest b) /\ digests_ok (b_files b).

Lemma digest_ascii d : digest_ok d -> is_ascii d = true.
Proof. intros Hd. apply digest_ok_decodes in Hd as [x Hx]. by eapply DecodeString_ascii. Qed.

Lemma digests_keys m k v : digests_ok m -> m !! k = Some v ->
  k ∈ requiredBundleFiles /\ digest_ok v.
Proof.
  intros [Hd Hv] Hk. split; [|by apply (Hv k)].
  assert (k ∈ dom m) as Hin by (apply elem_of_dom; by eexists).
  rewrite Hd in Hin. by apply elem_of_list_to_set in Hin.
Qed.

Lemma digests_ascii m k v : digests_ok m -> m !! k = Some v -> is_ascii k = true /\ ValidString v = true.
Proof.
  intros Hm Hk. destruct (digests_keys m k v Hm Hk) as [Hin Hd]. split.
  - revert k Hk Hin. intros k _. apply (proj1 (Forall_forall (fun k => is_ascii k = true) _)).
    by repeat constructor.
  - by apply is_ascii_ValidString, digest_ascii.
Qed.

Lemma digests_ne m : digests_ok m -> m <> ∅.
Proof. intros [Hd _] ->. vm_compute in Hd. discriminate Hd. Qed.

Lemma digests_size m : digests_ok m -> size m = 3%nat.
Proof. intros [Hd _]. rewrite <- size_dom, Hd. reflexivity. Qed.

Lemma bundle_members_ok b : digests_ok (b_files b) -> Forall member_ok (bundle_members b).
Proof.
  intros Hb. unfold bundle_members.
  assert (jv (obj (map_members (b_files b)))) as Hj.
  { apply jv_obj.
    - unfold map_members. intros E%fmap_nil_inv.
      pose proof (merge_sort_Permutation key_le (map_to_list (b_files b))) as Hp.
      rewrite E in Hp. apply Permutation_nil, map_to_list_empty_iff in Hp. by eapply digests_ne.
    - apply map_members_ok. intros k v Hk. by eapply digests_ascii. }
  members_ok.
Qed.

Lemma set_bundle b : bundle_ok b ->
  set_members true bundle_fields (bundle_members b) zero_bundle = Some b.
Proof.
  intros (Hv & Hx & Hd & Hf). apply u_version_text in Hv as [Hv _], Hx as [Hx _].
  apply digest_ascii, is_ascii_ValidString in Hd.
  unfold bundle_members. do 3 erewrite set_member by (reflexivity || by apply fld_string).
  erewrite set_member; [|reflexivity|].
  2:{ unfold fld, is_null. rewrite bool_decide_false by done.
      rewrite dec_map_members; [reflexivity|by apply digests_ne|].
      intros k v Hk. by eapply digests_ascii. }
  by destruct b.
Qed.

Lemma map_members_size m : digests_ok m -> (members_size (map_members m) <= 3000)%N.
Proof.
  intros Hm. pose proof (merge_sort_Permutation key_le (map_to_list m)) as Hp.
  assert (length (merge_sort key_le (map_to_list m)) = 3%nat) as Hl.
  { rewrite Hp, length_map_to_list. by apply digests_size. }
  assert (Forall (fun kv => slen kv.1 <= 11 /\ slen kv.2 = 64)%N (merge_sort key_le (map_to_list m))) as Ha.
  { rewrite Hp. apply Forall_forall. intros [k v] Hk%elem_of_map_to_list.
    destruct (digests_keys m k v Hm Hk) as [Hin [Hd _]]. split; [|done]. simpl.
    revert k Hk Hin. intros k _. apply (proj1 (Forall_forall (fun k => (slen k <= 11)%N) _)).
    repeat constructor; by vm_compute. }
  unfold map_members. clear Hp. destruct (merge_sort _ _) as [|a [|b [|c []]]]; try done.
  apply Forall_cons in Ha as [[? ?] Ha]. apply Forall_cons in Ha as [[? ?] Ha].
  apply Forall_cons in Ha as [[? ?] _]. cbn [fmap list_fmap members_size foldr fst snd].
  pose proof (quote_slen a.2). pose proof (quote_slen b.2). pose proof (quote_slen c.2). lia.
Qed.

Lemma parse_encode_bundle b : bundle_ok b -> parse_bundle (encode_bundle b) = Ok b.
Proof.
  intros Hok. pose proof Hok as (Hv & Hx & [Hd _] & Hf). unfold parse_bundle, encode_bundle.
  apply u_parse_json_obj; [done|by apply bundle_members_ok| |by apply set_bundle].
  apply u_version_text in Hv as [_ Hv], Hx as [_ Hx]. pose proof (map_members_size _ Hf).
  pose proof (obj_slen (map_members (b_files b))).
  pose proof (quote_slen (b_version b)). pose proof (quote_slen (b_xray b)). pose proof (quote_slen (b_digest b)).
  unfold bundle_members. cbn [members_size foldr fst snd].
  change (slen "version") with 7%N. change (slen "xrayVersion") with 11%N.
  change (slen "archiveDigest") with 13%N. change (slen "files") with 5%N. lia.
Qed.

(** update-failed.json *)
Definition failed_ok (r : Result) : Prop :=
  validateVersion (r_version r) = Ok tt /\ is_i64 (r_at r) /\
  r_status r = StatusInstallFailed /\
  ValidString (r_error r) = true /\ (slen (r_error r) <= 2048)%N /\
  text_ok (r_code r) /\ r_code r <> "" /\ text_ok (r_recovery r) /\ r_recovery r <> "".

Lemma u_result_members_ok r : Forall member_ok (result_members r).
Proof.
  unfold result_members. members_ok.
  - case_bool_decide; members_ok.
  - destruct (r_rolled r); members_ok. apply (jv_bool true).
Qed.

Lemma u_set_result r : failed_ok r ->
  set_members true result_fields (result_members r) zero_result = Some r.
Proof.
  intros (Hv & Hz & Hs & He & _ & (Hc & _) & Hc0 & (Hr & _) & Hr0).
  apply u_version_text in Hv as [Hv _].
  assert (ValidString (r_status r) = true) as Hsv by by rewrite Hs.
  unfold result_members. cbn [app].
  do 2 erewrite set_member by (reflexivity || by apply fld_string).
  do 3 erewrite set_opt_member by (reflexivity || done).
  destruct r as [v st e c rc z b]. simpl in *.
  destruct (bool_decide_reflect (z = 0%Z)) as [->|Hz0]; cbn [app].
  - by destruct b.
  - erewrite set_member by (reflexivity || by apply fld_int). by destruct b.
Qed.

Lemma u_result_size r : failed_ok r -> (members_size (result_members r) <= 20000)%N.
Proof.
  intros (Hv & Hz & Hs & _ & He & (_ & Hc) & _ & (_ & Hr) & _).
  apply u_version_text in Hv as [_ Hv].
  pose proof (int_slen _ Hz). pose proof (quote_slen (r_version r)).
  pose proof (opt_member_size "error" (r_error r)) as Ho1.
  pose proof (opt_member_size "errorCode" (r_code r)) as Ho2.
  pose proof (opt_member_size "recoveryStatus" (r_recovery r)) as Ho3.
  assert (slen (quote (r_status r)) <= 100)%N as Ho4
    by (rewrite Hs; pose proof (quote_slen StatusInstallFailed) as Hq;
        change (slen StatusInstallFailed) with 14%N in Hq; lia).
  unfold result_members. rewrite !members_size_app.
  assert (members_size (if r_rolled r then [("rolledBack", "true")] else []) <= 100)%N as Ho5
    by (destruct (r_rolled r); vm_compute; discriminate).
  assert (members_size (if bool_decide (r_at r = 0)%Z then [] else [("appliedAt", FormatInt (r_at r))]) <= 100)%N as Ho6.
  { case_bool_decide; simpl; [lia|]. change (slen "appliedAt") with 9%N. lia. }
  change (slen "error") with 5%N in Ho1. change (slen "errorCode") with 9%N in Ho2.
  change (slen "recoveryStatus") with 14%N in Ho3.
  cbn [members_size foldr fst snd] in *.
  change (slen "version") with 7%N. change (slen "status") with 6%N. lia.
Qed.

Lemma u_parse_encode_failed r : failed_ok r -> parse_failed (encode_result r) = Ok r.
Proof.
  intros Hok. pose proof Hok as (Hv & _ & Hs & _ & _ & _ & Hc & _ & Hr).
  unfold parse_failed, encode_result. rewrite (u_parse_json_obj _ _ _ r).
  - cbn [rbind]. destruct r as [v st e c rc z b]; simpl in *. subst st.
    rewrite Hv, (bool_decide_false (c = "")), (bool_decide_false (rc = "")) by done. done.
  - done.
  - apply u_result_members_ok.
  - pose proof (u_result_size r Hok). lia.
  - by apply u_set_result.
Qed.

(** ** No check passes for a missing file *)

Lemma u_quiet_validateTarget t : quiet (validateTarget t).
Proof. unfold validateTarget. quiet_tac. Qed.

Lemma u_quiet_validateApplied a : quiet (validateAppliedState a).
Proof. unfold validateAppliedState. quiet_tac. Qed.

Lemma quiet_validateVersion v : quiet (validateVersion v).
Proof. unfold validateVersion. apply quiet_rbind; [apply quiet_guard|intros _; apply quiet_guard]. Qed.

Lemma u_quiet_parse_json {T} (fields : list (string * setter T)) zero raw : quiet (parse_json fields zero raw).
Proof. unfold parse_json. quiet_tac. Qed.

Lemma u_quiet_parse_applied raw : quiet (parse_applied raw).
Proof.
  apply quiet_rbind; [apply u_quiet_parse_json|intros a].
  apply quiet_rbind; [apply u_quiet_validateApplied|done].
Qed.

Lemma u_quiet_validatePending p : quiet (validatePending p).
Proof.
  unfold validatePending. apply quiet_rbind; [apply quiet_guard|intros _].
  apply quiet_rbind; [apply quiet_guard|intros _].
  destruct (p_prev_applied p) as [a|]; [|done].
  apply quiet_rbind; [apply quiet_guard|intros _]. apply quiet_guard.
Qed.

Lemma u_quiet_parse_pending raw : quiet (parse_pending raw).
Proof.
  apply quiet_rbind; [apply u_quiet_parse_json|intros p].
  apply quiet_rbind; [apply u_quiet_validatePending|done].
Qed.
