(* ===== verification/Dirs.v ===== *)
(** * Directories as units: temporary directories and their renaming

    The operations of package os that the update manager uses on whole
    directories (os.MkdirTemp, os.Rename of a directory, os.ReadDir with entry
    types, os.OpenFile with O_EXCL), with their rules; and the rule of
    [replaceFile] inside a directory under construction, which says exactly
    what the tree becomes. *)

From stdpp Require Import base gmap strings list fin_maps sorting.
From Stdlib Require Import ZArith NArith Ascii.
From S2P Require Import Prelude.
From S2P Require Import GoStrings.
From S2P Require Import Os.
From S2P Require Import AtomicFile.

(** ** Paths below a directory *)

(** What follows [a] in a path at or below it. *)
Definition under (a p : string) : option string :=
  if bool_decide (p = a) then Some ""
  else if HasPrefix p (a +:+ "/") then Some (sdrop (String.length a) p) else None.

(** Exchange [a] and [b] at the front of a path. *)
Definition swap (a b p : string) : string :=
  match under a p with
  | Some rest => b +:+ rest
  | None => match under b p with Some rest => a +:+ rest | None => p end
  end.

(** The tree after rename(a, b): what was below [b] (only [b] itself, an empty
    directory) is gone, what was below [a] is below [b]. *)
Definition relocate (a b : string) (f : fs) : fs :=
  kmap (swap a b) (filter (fun kv => under b kv.1 = None) f).

(** rename(2) of a directory *)
Definition fs_rename_dir (f : fs) (a b : string) : fs * result unit :=
  match f !! a with
  | None => (f, Err errNotExist)
  | Some (NDir _ _) =>
      match under a b with
      | Some _ => (f, Err errInvalid)
      | None =>
          match f !! b with
          | Some (NFile _ _ _ | NLink _) => (f, Err errNotDir)
          | o =>
              match o, entry_names f b with
              | Some _, _ :: _ => (f, Err errNotEmpty)
              | _, _ => if is_dir f (Dir b) then (relocate a b f, Ok tt) else (f, Err errNotExist)
              end
          end
      end
  | Some _ => (f, Err errInvalid)
  end.

Section calls.
Context `{Env}.

Definition RenameDir (a b : string) : io (result unit) := sys (fun _ _ f => fs_rename_dir f a b).

(** os.MkdirTemp(directory, prefix ++ "*"), mode 0700 *)
Definition MkdirTemp (d prefix : string) : io (result string) :=
  sys (fun t r f =>
    match temp_name f (d +:+ "/" +:+ prefix) r with
    | Some p => match fs_mkdir f p 448 t with
                | (f', Ok _) => (f', Ok p)
                | (f', Err e) => (f', Err e)
                end
    | None => (f, Err errExist)
    end).

(** os.OpenFile(p, O_WRONLY|O_CREATE|O_EXCL, mode) *)
Definition OpenExcl (p : string) (mode : N) : io (result unit) :=
  sys (fun t _ f => fs_create f p mode t).

(** os.ReadDir with the types of the entries *)
Definition entry_kinds (f : fs) (d : string) : list (string * file_kind) :=
  omap (fun n => (fun x => (n, fi_kind (info_of x))) <$> f !! (d +:+ "/" +:+ n)) (entry_names f d).

Definition ReadDirEntries (p : string) : io (result (list (string * file_kind))) :=
  sys_read (fun f => if is_dir f p then Ok (entry_kinds f p)
                     else match f !! p with Some _ => Err errNotDir | None => Err errNotExist end).
End calls.

(** ** Looking up after a rename *)

Lemma under_Some a p rest : under a p = Some rest <->
  p = a +:+ rest /\ (rest = "" \/ exists r, rest = String slash r).
Proof.
  unfold under. split.
  - case_bool_decide as Hp.
    + intros [= <-]. subst. split; [by rewrite sapp_nil_r|by left].
    + destruct (HasPrefix p (a +:+ "/")) eqn:E; [|done]. intros [= <-].
      apply HasPrefix_inv in E as [r ->]. rewrite sapp_assoc. split; [|right].
      * by rewrite sdrop_app.
      * exists r. by rewrite sdrop_app.
  - intros [-> Hr]. destruct Hr as [->|[r ->]].
    + by rewrite sapp_nil_r, bool_decide_true.
    + rewrite bool_decide_false.
      * change (String slash r) with ("/" +:+ r). rewrite <- sapp_assoc, HasPrefix_app.
        by rewrite sapp_assoc, sdrop_app.
      * intros E. apply (f_equal String.length) in E. rewrite slength_app in E. simpl in E. lia.
Qed.

Lemma under_self a : under a a = Some "".
Proof. apply under_Some. split; [by rewrite sapp_nil_r|by left]. Qed.

Lemma under_below a n : under a (a +:+ String slash n) = Some (String slash n).
Proof. apply under_Some. split; [done|right; by exists n]. Qed.

Lemma under_app a rest : rest = "" \/ (exists r, rest = String slash r) -> under a (a +:+ rest) = Some rest.
Proof. intros. by apply under_Some. Qed.

Lemma sapp_split (a b r r' : string) : a +:+ r = b +:+ r' -> (String.length a <= String.length b)%nat ->
  exists x, b = a +:+ x /\ r = x +:+ r'.
Proof.
  revert b. induction a as [|c a IH]; intros b E Hl; [by exists b|].
  destruct b as [|c' b]; [simpl in Hl; lia|]. rewrite !app_String in E. injection E as -> E.
  destruct (IH b E) as (x & -> & ->); [simpl in Hl; lia|]. by exists x.
Qed.

Lemma under_nested a b p r r' : under a p = Some r -> under b p = Some r' ->
  (String.length a <= String.length b)%nat -> is_Some (under a b).
Proof.
  intros [-> Hr]%under_Some [E Hr']%under_Some Hl.
  destruct (sapp_split _ _ _ _ E Hl) as (x & -> & ->).
  exists x. apply under_app. destruct x as [|c x]; [by left|right].
  destruct Hr as [Hr|[y Hr]]; [done|]. rewrite app_String in Hr. injection Hr as -> _. by exists x.
Qed.

(** Directories beside each other. *)
Definition apart (a b : string) : Prop := under a b = None /\ under b a = None.

Lemma apart_under a b p r : apart a b -> under a p = Some r -> under b p = None.
Proof.
  intros [H1 H2] Ha. destruct (under b p) as [r'|] eqn:Hb; [|done]. exfalso.
  destruct (decide (String.length a <= String.length b)%nat).
  - destruct (under_nested a b p r r') as [x Hx]; [done..|congruence].
  - destruct (under_nested b a p r' r) as [x Hx]; [done..|lia|congruence].
Qed.

Lemma apart_sym a b : apart a b -> apart b a.
Proof. by intros []. Qed.

Lemma swap_swap a b p : apart a b -> swap a b (swap a b p) = p.
Proof.
  intros Hab. unfold swap at 2. destruct (under a p) as [r|] eqn:Ea.
  - apply under_Some in Ea as [-> Hr]. unfold swap.
    rewrite (apart_under b a _ r) by (by apply apart_sym || by apply under_app).
    by rewrite under_app.
  - destruct (under b p) as [r|] eqn:Eb; unfold swap; [|by rewrite Ea, Eb].
    apply under_Some in Eb as [-> Hr]. by rewrite under_app.
Qed.

Lemma swap_inj a b : apart a b -> Inj (=) (=) (swap a b).
Proof. intros Hab p q E. rewrite <- (swap_swap a b p), E by done. by apply swap_swap. Qed.

Lemma relocate_lookup a b f p : apart a b ->
  relocate a b f !! p =
  match under b p with
  | Some rest => f !! (a +:+ rest)
  | None => match under a p with Some _ => None | None => f !! p end
  end.
Proof.
  intros Hab. unfold relocate.
  pose proof (swap_inj a b Hab). rewrite <- (swap_swap a b p Hab) at 1. rewrite lookup_kmap by done.
  rewrite map_lookup_filter. unfold swap. destruct (under b p) as [r|] eqn:Eb.
  - rewrite (apart_under b a p r) by (by apply apart_sym || done).
    apply under_Some in Eb as [-> Hr]. pose proof (apart_under a b _ r Hab (under_app a r Hr)) as Hb.
    destruct (f !! (a +:+ r)); simpl; [|done]. by rewrite option_guard_True.
  - destruct (under a p) as [r|] eqn:Ea.
    + apply under_Some in Ea as [-> Hr]. destruct (f !! (b +:+ r)); simpl; [|done].
      rewrite option_guard_False; [done|]. by rewrite under_app.
    + destruct (f !! p); simpl; [|done]. by rewrite option_guard_True.
Qed.

(** ** Rules *)

Section rules.
Context `{Env}.

Lemma wp_MkdirTemp d prefix w0 f (Q : result string -> world -> Prop) C w :
  after w0 f w -> is_dir f d = true -> Clean (d +:+ "/") = d -> no_char slash prefix ->
  (forall w', ~ calm w0 -> after w0 f w' -> C w') ->
  (forall m w', ~ calm w0 -> after w0 f w' -> Q (Err (errorsNew m)) w') ->
  (forall k t w', let p := d +:+ "/" +:+ prefix +:+ FormatUint k in
     f !! p = None -> after w0 (<[p := NDir 448 t]> f) w' -> Q (Ok p) w') ->
  wp (MkdirTemp d prefix) Q C w.
Proof.
  intros Hw Hd Hcl Hpre HC HE HQ. apply (wp_sys _ w0 f); [done|done|done|].
  intros t r w' Hw'. destruct (temp_name_Some f (d +:+ "/" +:+ prefix) r) as (k & E & Hnew).
  rewrite E in *. rewrite !sapp_assoc in *. set (p := d +:+ "/" +:+ prefix +:+ FormatUint k) in *.
  assert (Dir p = d) as Hdir.
  { unfold p. change (d +:+ "/" +:+ ?x) with (d +:+ String slash x). rewrite Dir_app; [done|].
    apply no_char_app. split; [done|apply FormatUint_no_slash]. }
  assert (p <> ".") as Hdot.
  { unfold p. intros Ep. assert (no_char slash ".") as Hc by reflexivity. rewrite <- Ep in Hc.
    apply no_char_app in Hc as [_ Hc]. by apply no_char_cons in Hc as [Hc _]. }
  assert (fs_mkdir f p 448 (time_at t) = (<[p := NDir 448 (time_at t)]> f, Ok tt)) as Em.
  { unfold fs_mkdir. rewrite Hdir, Hd, Hnew. unfold is_dir. by rewrite bool_decide_false, Hnew. }
  rewrite Em in *. by apply (HQ k (time_at t)).
Qed.

Lemma wp_RenameDir a b w0 f (Q : result unit -> world -> Prop) C w :
  after w0 f w ->
  (forall w', after w0 f w' -> (~ calm w0 -> C w') /\ forall e, Q (Err e) w') ->
  (forall w', after w0 (relocate a b f) w' -> Q (Ok tt) w') ->
  wp (RenameDir a b) Q C w.
Proof.
  intros Hw HX HQ. apply (wp_sys _ w0 f); [done|intros; by apply HX|intros; by apply HX|].
  intros t r w' Hw'.
  assert (fs_rename_dir f a b = (relocate a b f, Ok tt) \/ exists e, fs_rename_dir f a b = (f, Err e)) as Hc.
  { unfold fs_rename_dir. repeat case_match; eauto. }
  destruct Hc as [E|[e E]]; rewrite E in *; [by apply HQ|by apply HX].
Qed.

Lemma wp_OpenExcl p mode w0 f (Q : result unit -> world -> Prop) C w :
  after w0 f w ->
  (forall w', after w0 f w' -> (~ calm w0 -> C w') /\ forall e, Q (Err e) w') ->
  (forall t w', f !! p = None -> after w0 (<[p := NFile "" mode t]> f) w' -> Q (Ok tt) w') ->
  wp (OpenExcl p mode) Q C w.
Proof.
  intros Hw HX HQ. apply (wp_sys _ w0 f); [done|intros; by apply HX|intros; by apply HX|].
  intros t r w' Hw'. unfold fs_create in *. destruct (f !! p) eqn:E; [by apply HX|].
  destruct (is_dir f (Dir p)); [by eapply HQ|by apply HX].
Qed.

(** ** A file written into a directory under construction *)

Section exact.
Context (directory prefix path content : string) (mode : N) (fin : io (result unit)).
Context (w0 : world) (f : fs).
Context (Hdir : is_dir f directory = true) (Hpd : Dir path = directory).
Context (Hpath : scratch path = true).
Context (always : Prop) (Hfin : looks_at always directory fin).

(** Success means that the file, complete, is all that changed. *)
Definition written (r : result unit) (w1 : world) : Prop :=
  exists g, after w0 g w1 /\ g ≡ f /\
    (r = Ok tt -> exists t, g = <[path := NFile content mode (time_at t)]> f).

Definition unwritten (w1 : world) : Prop := ~ calm w0 /\ exists g, after w0 g w1 /\ g ≡ f.

Lemma written_err e w1 g : after w0 g w1 -> g ≡ f -> written (Err e) w1.
Proof. intros. exists g. by split_and!. Qed.

Lemma unwritten_intro w1 g : ~ calm w0 -> after w0 g w1 -> g ≡ f -> unwritten w1.
Proof. intros. split; [done|]. by exists g. Qed.

Lemma wp_rename_exact tmp t w :
  scratch tmp = true -> f !! tmp = None -> tmp <> path ->
  after w0 (<[tmp := NFile content mode (time_at t)]> f) w ->
  wp (try! _ := Rename tmp path in fin) written unwritten w.
Proof.
  intros Htmp Hnew Hne Hw. set (g := <[tmp := NFile content mode (time_at t)]> f) in *.
  assert (g ≡ f) as Hg by by apply insert_scratch.
  assert (plain_file f tmp) as Hpt by (unfold plain_file; by rewrite Hnew).
  apply wp_try, (wp_sys _ w0 g); [done|..].
  - intros w1 Hn Hw1. by eapply unwritten_intro.
  - intros m w' Hn Hw'. apply wp_ret. by eapply written_err.
  - intros t1 r1 w1 Hw1.
    set (h := <[path := NFile content mode (time_at t)]> f).
    assert (fs_rename g tmp path = (h, Ok tt) \/ exists e, fs_rename g tmp path = (g, Err e)) as Hcase.
    { unfold fs_rename, g. rewrite lookup_insert_eq, lookup_insert_ne by done.
      rewrite Hpd, is_dir_insert by done. rewrite delete_insert_id by done.
      destruct (f !! path) as [[]|]; [by left|right; by eexists|by left|by left]. }
    destruct Hcase as [E|[e E]]; rewrite E in *; simpl in *; [|apply wp_ret; by eapply written_err].
    assert (h ≡ f) as Hh by by apply insert_scratch.
    apply (Hfin w0 h); [done|..].
    + intros w' Hn Hw'. by eapply unwritten_intro.
    + intros r w' Hw' _ _. exists h. split_and!; [done|done|]. intros _. by exists t.
Qed.

Lemma wp_fill_exact tmp t w :
  scratch tmp = true -> f !! tmp = None -> tmp <> path ->
  after w0 (<[tmp := NFile "" 384 (time_at t)]> f) w ->
  wp (try! _ := Chmod tmp mode catch e => (let! _ := Close tmp in ret (Err e)) in
      try! _ := Write tmp content catch e => (let! _ := Close tmp in ret (Err e)) in
      try! _ := Sync tmp catch e => (let! _ := Close tmp in ret (Err e)) in
      try! _ := Close tmp in
      try! _ := Rename tmp path in
      fin) written unwritten w.
Proof.
  intros Htmp Hnew Hne Hw.
  assert (forall n, <[tmp := n]> f ≡ f) as Heq by (intros; by apply insert_scratch).
  apply wp_try, (wp_sys _ w0 _ _ _ _ Hw); [intros; by eapply unwritten_intro| |].
  { intros m w' Hn Hw'. eapply wp_close_err; [done|intros; by eapply unwritten_intro|].
    intros. by eapply written_err. }
  intros t1 r1 w1 Hw1. unfold fs_chmod in *. rewrite lookup_insert_eq in *. simpl in *.
  rewrite insert_insert_eq in Hw1.
  apply wp_try, (wp_sys _ w0 _ _ _ _ Hw1); [intros; by eapply unwritten_intro| |].
  { intros m w' Hn Hw'. eapply wp_close_err; [done|intros; by eapply unwritten_intro|].
    intros. by eapply written_err. }
  intros t2 r2 w2 Hw2. unfold fs_append in *. rewrite lookup_insert_eq in *. simpl in *.
  rewrite insert_insert_eq, app_Empty in Hw2.
  apply wp_try, (wp_sys_read _ w0 _ _ _ _ Hw2); [intros; by eapply unwritten_intro| |].
  { intros m w' Hn Hw'. eapply wp_close_err; [done|intros; by eapply unwritten_intro|].
    intros. by eapply written_err. }
  intros w3 Hw3. rewrite lookup_insert_eq.
  apply wp_try, (wp_sys_read _ w0 _ _ _ _ Hw3); [intros; by eapply unwritten_intro| |].
  { intros m w' Hn Hw'. apply wp_ret. by eapply written_err. }
  intros w4 Hw4. by eapply wp_rename_exact.
Qed.
End exact.

Lemma wp_replaceFile_exact always directory prefix n content mode fin w0 f (Q : result unit -> world -> Prop) C w :
  let path := directory +:+ "/" +:+ n in
  after w0 f w -> is_dir f directory = true ->
  Clean (directory +:+ "/") = directory -> no_char slash prefix -> no_char slash n -> scratch path = true ->
  (forall k, scratch (directory +:+ "/" +:+ prefix +:+ FormatUint k) = true /\ prefix +:+ FormatUint k <> n) ->
  looks_at always directory fin ->
  (forall g w', after w0 g w' -> g ≡ f -> (~ calm w0 -> C w') /\ forall e, Q (Err e) w') ->
  (forall t w', after w0 (<[path := NFile content mode (time_at t)]> f) w' -> Q (Ok tt) w') ->
  wp (replaceFile directory prefix path content mode fin) Q C w.
Proof.
  intros path Hw Hdir Hcl Hpre Hn Hs Htmp Hfin HX HQ.
  assert (forall x, no_char slash x -> Dir (directory +:+ "/" +:+ x) = directory) as Hd.
  { intros x Hx. change (directory +:+ "/" +:+ x) with (directory +:+ String slash x). by rewrite Dir_app. }
  apply wp_try, (wp_sys _ w0 f); [done|..].
  { intros w' Hc Hw'. by apply (HX f). }
  { intros m w' Hc Hw'. apply wp_ret. by apply (HX f). }
  intros t r w1 Hw1.
  destruct (temp_name_Some f (directory +:+ "/" +:+ prefix) r) as (k & E & Hnew).
  rewrite E in *. rewrite !sapp_assoc in *. destruct (Htmp k) as [Hst Hne].
  set (tmp := directory +:+ "/" +:+ prefix +:+ FormatUint k) in *.
  assert (tmp <> path) as Hne'.
  { unfold tmp, path. intros Ep%sapp_inj_l. by apply (sapp_inj_l "/") in Ep. }
  assert (fs_create f tmp 384 (time_at t) = (<[tmp := NFile "" 384 (time_at t)]> f, Ok tt)) as Ec.
  { unfold fs_create. rewrite Hnew. unfold tmp. rewrite Hd; [by rewrite Hdir|].
    apply no_char_app. split; [done|apply FormatUint_no_slash]. }
  rewrite Ec in *. simpl in *.
  apply wp_defer. eapply wp_mono.
  { eapply (wp_fill_exact directory path content mode fin w0 f Hdir (Hd n Hn) Hs always Hfin); done. }
  - intros r1 w2 (g & Hg & Hgf & Hok).
    destruct r1 as [[]|e].
    + destruct (Hok eq_refl) as [t' ->].
      apply (wp_sys _ w0 _ _ _ _ Hg).
      * intros w' Hc Hw'. by eapply HX.
      * intros m w' _ Hw'. by eapply HQ.
      * intros _ _ w' Hw'. unfold fs_remove in Hw'.
        rewrite lookup_insert_ne, Hnew in Hw' by done. by eapply HQ.
    + eapply wp_remove_scratch; [done|exact Hg|..].
      * intros w' Hc (g' & Hg' & Ha)%later_after. eapply HX; [exact Ha| |done]. by rewrite Hg'.
      * intros _ w' (g' & Hg' & Ha)%later_after. eapply HX; [exact Ha|]. by rewrite Hg'.
  - intros w' (Hc & g & Hg & Hgf). by eapply HX.
Qed.
End rules.
