(* ===== verification/Release.v ===== *)
(** * Downloading releases (internal/release/client.go)

    The client builds the URL of a release asset, follows redirects to HTTPS
    URLs without credentials only, and retries a download at most twice, never
    after bytes reached a destination that cannot be reset.

    net/url and the HTTP transport are the environment: [parse_url], and for
    every attempt an [exchange], which is the redirects it meets, the response
    and whether the context ends while waiting for the next attempt. *)

From stdpp Require Import base gmap strings list fin_maps.
From Stdlib Require Import ZArith NArith Ascii.
From S2P Require Import Prelude.
From S2P Require Import GoStrings.
From S2P Require Import Manifest.

Definition maxDownloadAttempts : nat := 3.
Definition initialRetryDelay : Z := 1000000000.

(** url.URL *)
Record url : Set := Url {
  u_scheme : string;
  u_host : string;
  u_user : option string;
  u_path : string;
  u_query : string;
  u_fragment : string
}.

Class UrlParser : Set := { parse_url : string -> option url }.

Record Client : Set := MkClient { cl_insecure : bool; cl_base : string }.

(** ** URLs *)

Definition validToken (value : string) : bool :=
  if bool_decide (value = "") || bool_decide (value = ".") || bool_decide (value = "..")
     || (128 <? slen value)%N then false
  else forallb (fun r => version_rune r.1) (runes value).

Definition validRepository (value : string) : bool :=
  match Split value slash with
  | [p0; p1] => validToken p0 && validToken p1
  | _ => false
  end.

Definition validateRedirectURL (c : Client) (u : url) : result unit :=
  if bool_decide (u_host u = "") || match u_user u with Some _ => true | None => false end
     || negb (bool_decide (u_fragment u = "")) then Err (errorsNew "invalid release URL")
  else if bool_decide (u_scheme u = "https") || cl_insecure c && bool_decide (u_scheme u = "http")
  then Ok tt
  else Err (errorsNew "release URL must use HTTPS").

Definition validateInitialURL (c : Client) (u : url) : result unit :=
  let? _ := validateRedirectURL c u in
  guard_err (negb (bool_decide (u_query u = ""))) "release URL must not contain a query".

Definition URL (c : Client) (repository version asset : string) : result string :=
  if negb (validRepository repository) || negb (validToken asset) then
    Err (errorsNew "release source is invalid")
  else if bool_decide (version = "") then
    Ok (cl_base c +:+ "/" +:+ repository +:+ "/releases/latest/download/" +:+ asset)
  else if negb (validToken version) then Err (errorsNew "release version is invalid")
  else Ok (cl_base c +:+ "/" +:+ repository +:+ "/releases/download/" +:+ version +:+ "/" +:+ asset).

(** ** Responses *)

(** What errors.Is and errors.As find in a request error (for [FNet], inside
    the *url.Error that the http package wraps it in). *)
Inductive flag : Set := FCanceled | FDeadline | FEof | FUnexpectedEof | FNet.
#[export] Instance flag_eq : EqDecision flag.
Proof. solve_decision. Defined.

Record req_error : Set := ReqError { re_text : string; re_is : list flag }.

Definition has (e : req_error) (x : flag) : bool := bool_decide (x ∈ re_is e).

Inductive response : Set :=
| Failed (e : req_error)
| Responded (status : Z) (body : string) (broken : option req_error).

Record exchange : Set := Exchange {
  ex_hops : list url;
  ex_response : response;
  ex_cancelled : option error
}.

Definition retryableRequestError (e : req_error) : bool :=
  if has e FCanceled || has e FDeadline then false
  else if has e FEof || has e FUnexpectedEof then true
  else has e FNet.

Definition retryableStatus (status : Z) : bool :=
  ((status =? 408) || (status =? 429) || (500 <=? status) && (status <=? 599))%Z.

Definition downloadRetryDelay (attempt : nat) : Z := Z.shiftl initialRetryDelay (Z.of_nat attempt).

Section client.
Context `{UrlParser}.

Definition NewClient (baseURL : string) (allowInsecure : bool) : result Client :=
  match parse_url baseURL with
  | None => Err (errorsNew "release base URL is invalid")
  | Some u =>
      if negb (bool_decide (u_path u = "")) || negb (bool_decide (u_query u = ""))
         || negb (bool_decide (u_fragment u = ""))
      then Err (errorsNew "release base URL is invalid")
      else
        let c := MkClient allowInsecure (TrimSuffix baseURL "/") in
        let? _ := validateRedirectURL c u in Ok c
  end.

(** httpClient.Do: the redirects have to pass CheckRedirect. *)
Definition do_request (c : Client) (x : exchange) : response :=
  if forallb (fun u => is_ok (validateRedirectURL c u)) (ex_hops x) then ex_response x
  else Failed (ReqError "redirect refused" []).

(** One attempt: the bytes copied, whether it may be retried, the error. *)
Definition downloadAttempt (c : Client) (x : exchange) (limit : Z) : string * bool * option error :=
  match do_request c x with
  | Failed e => ("", retryableRequestError e, Some (errorsNew (re_text e)))
  | Responded status body broken =>
      if negb (status =? 200)%Z then
        ("", retryableStatus status, Some (errorsNew ("HTTP " +:+ FormatInt status)))
      else
        let '(copied, err) :=
          if (Z.of_N (slen body) <? limit + 1)%Z then (body, broken)
          else (stake (Z.to_nat (limit + 1)) body, None) in
        match err with
        | Some e => (copied, retryableRequestError e, Some (errorsNew (re_text e)))
        | None =>
            if (limit <? Z.of_N (slen copied))%Z then
              (copied, false, Some (errorsNew "release download exceeds the size limit"))
            else (copied, false, None)
        end
  end.

(** The attempts from number [attempt] on, [left] of them at most; [dest] is
    what the destination holds, emptied before an attempt when [resets]. *)
Fixpoint attempts (c : Client) (resets retryAfterWrite : bool) (limit : Z) (net : nat -> exchange)
    (left attempt : nat) (dest : string) : string * result Z :=
  match left with
  | O => (dest, Err (errorsNew "release download attempts exhausted"))
  | S left' =>
      let dest := if resets then "" else dest in
      let '(copied, retryable, err) := downloadAttempt c (net attempt) limit in
      let dest := dest +:+ copied in
      let written := Z.of_N (slen copied) in
      match err with
      | None => (dest, Ok written)
      | Some e =>
          if bool_decide (S attempt = maxDownloadAttempts) || negb retryable
             || ((0 <? written)%Z && negb retryAfterWrite)
          then (dest, Err e)
          else match ex_cancelled (net attempt) with
               | Some e => (dest, Err e)
               | None => attempts c resets retryAfterWrite limit net left' (S attempt) dest
               end
      end
  end.

Definition downloadWithRetry (c : Client) (rawURL : string) (limit : Z) (resets retryAfterWrite : bool)
    (net : nat -> exchange) : string * result Z :=
  if (limit <=? 0)%Z then ("", Err (errorsNew "release download is not configured"))
  else match parse_url rawURL with
       | Some u =>
           if is_ok (validateInitialURL c u)
           then attempts c resets retryAfterWrite limit net maxDownloadAttempts 0 ""
           else ("", Err (errorsNew "release URL must be absolute HTTPS without credentials, query, or fragment"))
       | None => ("", Err (errorsNew "release URL must be absolute HTTPS without credentials, query, or fragment"))
       end.

Definition Download (c : Client) (rawURL : string) (limit : Z) (net : nat -> exchange) : result string :=
  let '(output, r) := downloadWithRetry c rawURL limit true true net in
  match r with Ok _ => Ok output | Err e => Err e end.

(** What reached the destination, which was empty, and the answer. *)
Definition DownloadTo (c : Client) (rawURL : string) (limit : Z) (net : nat -> exchange) : string * result Z :=
  downloadWithRetry c rawURL limit false false net.
End client.

(** ** What a download delivers *)

Section delivery.
Context `{UrlParser}.

(** Attempt [x] answers 200 with the complete [body], over allowed URLs. *)
Definition delivers (c : Client) (limit : Z) (x : exchange) (body : string) : Prop :=
  Forall (fun u => validateRedirectURL c u = Ok tt) (ex_hops x) /\
  ex_response x = Responded 200 body None /\ (Z.of_N (slen body) <= limit)%Z.

Lemma hops_ok c l : forallb (fun u => is_ok (validateRedirectURL c u)) l = true ->
  Forall (fun u => validateRedirectURL c u = Ok tt) l.
Proof. intros Hl%Is_true_true%forallb_True. eapply Forall_impl; [exact Hl|]. intros u Hu%Is_true_true. by apply is_ok_unit. Qed.

Lemma attempt_delivers c x limit copied retryable : (0 < limit)%Z ->
  downloadAttempt c x limit = (copied, retryable, None) -> delivers c limit x copied.
Proof.
  unfold downloadAttempt, do_request. intros Hl.
  destruct (forallb _ _) eqn:Eh; [|done]. apply hops_ok in Eh.
  destruct (ex_response x) as [e|status body broken] eqn:Er; [done|].
  destruct (Z.eqb_spec status 200) as [->|]; cbn [negb]; [|done].
  destruct (Z.ltb_spec (Z.of_N (slen body)) (limit + 1)).
  - destruct broken; [done|]. destruct (limit <? _)%Z; [done|]. intros [= <- _]. split_and!; [done|done|lia].
  - rewrite (proj2 (Z.ltb_lt limit _)); [done|]. rewrite slen_stake. lia.
Qed.

(** Attempt [x] failed in a way that may be retried. *)
Definition retried (c : Client) (limit : Z) (retryAfterWrite : bool) (x : exchange) : Prop :=
  exists copied e, downloadAttempt c x limit = (copied, true, Some e) /\
    (retryAfterWrite = false -> copied = "") /\ ex_cancelled x = None.

Lemma attempts_deliver c resets raw limit net left attempt dest out n :
  (0 < limit)%Z -> (resets = false -> raw = false) -> (resets = false -> dest = "") ->
  attempts c resets raw limit net left attempt dest = (out, Ok n) ->
  exists i, (attempt <= i < attempt + left)%nat /\ delivers c limit (net i) out /\ n = Z.of_N (slen out) /\
    forall j, (attempt <= j < i)%nat -> retried c limit raw (net j).
Proof.
  intros Hl Hmode. revert attempt dest. induction left as [|left IH]; intros attempt dest Hd; [done|].
  cbn [attempts]. destruct (downloadAttempt c (net attempt) limit) as [[copied retryable] err] eqn:Ea.
  assert ((if resets then "" else dest) = "") as -> by (destruct resets; auto). rewrite app_Empty.
  destruct err as [e|].
  - destruct (_ || _ || _) eqn:Ec; [done|].
    rewrite !orb_false_iff, negb_false_iff, andb_false_iff, negb_false_iff, Z.ltb_ge in Ec.
    destruct Ec as [[_ ->] Hw]. destruct (ex_cancelled (net attempt)) eqn:Ex; [done|]. intros Hr.
    assert (raw = false -> copied = "") as Hc.
    { intros ->. destruct Hw as [Hw|]; [|done]. destruct copied; [done|]. unfold slen in Hw. simpl in Hw. lia. }
    apply IH in Hr as (i & Hi & Hdel & Hn & Hprev); [|naive_solver].
    exists i. split_and!; [lia|lia|done|done|]. intros j Hj.
    destruct (decide (j = attempt)) as [->|]; [by exists copied, e|apply Hprev; lia].
  - intros [= <- <-]. exists attempt. split_and!; [lia|lia|by eapply attempt_delivers|done|lia].
Qed.

(** C30: a download that succeeds has, in one of at most three attempts, the
    complete body of a 200 answer within the limit, reached over HTTPS URLs
    without credentials (plain HTTP only when the client allows it); every
    earlier attempt failed with an error worth a retry, and none of them had
    written to a destination that is not reset. *)
Theorem download_exact c rawURL limit net resets raw out n :
  (resets = false -> raw = false) ->
  downloadWithRetry c rawURL limit resets raw net = (out, Ok n) ->
  exists u i, parse_url rawURL = Some u /\ validateInitialURL c u = Ok tt /\
    (i < maxDownloadAttempts)%nat /\ delivers c limit (net i) out /\ n = Z.of_N (slen out) /\
    forall j, (j < i)%nat -> retried c limit raw (net j).
Proof.
  unfold downloadWithRetry. intros Hmode. destruct (Z.leb_spec limit 0); [done|].
  destruct (parse_url rawURL) as [u|]; [|done].
  destruct (validateInitialURL c u) as [[]|] eqn:Ev; [|done]. cbn [is_ok]. intros Hr.
  apply attempts_deliver in Hr as (i & Hi & Hdel & Hn & Hprev); [|lia|done|done].
  exists u, i. split_and!; [done|done|lia|done|done|]. intros j Hj. apply Hprev. lia.
Qed.
End delivery.

(** ** Examples *)

Definition ex_url : url := Url "https" "github.com" None "/x" "" "".
#[local] Instance ex_parser : UrlParser := {| parse_url := fun _ => Some ex_url |}.

Definition ex_client : Client := MkClient false "https://github.com".

(** The first attempt breaks off before a byte, the second succeeds. *)
Definition ex_net (attempt : nat) : exchange :=
  match attempt with
  | O => Exchange [ex_url] (Responded 200 "" (Some (ReqError "unexpected EOF" [FUnexpectedEof]))) None
  | _ => Exchange [ex_url] (Responded 200 "bundle" None) None
  end.

Lemma download_exact_witness :
  exists u i, parse_url "https://github.com/x" = Some u /\ validateInitialURL ex_client u = Ok tt /\
    (i < maxDownloadAttempts)%nat /\ delivers ex_client 100 (ex_net i) "bundle" /\ 6%Z = Z.of_N (slen "bundle") /\
    forall j, (j < i)%nat -> retried ex_client 100 false (ex_net j).
Proof.
  apply (@download_exact ex_parser ex_client "https://github.com/x" 100 ex_net false false "bundle" 6).
  - done.
  - vm_compute. reflexivity.
Defined.

Example partial_not_retried :
  DownloadTo ex_client "https://github.com/x" 100
    (fun _ => Exchange [] (Responded 200 "bun" (Some (ReqError "unexpected EOF" [FUnexpectedEof]))) None) =
  ("bun", Err (errorsNew "unexpected EOF")).
Proof. reflexivity. Qed.

Example redirect_refused :
  is_ok (Download ex_client "https://github.com/x" 100
    (fun _ => Exchange [Url "http" "mirror" None "" "" ""] (Responded 200 "bundle" None) None)) = false.
Proof. reflexivity. Qed.
