(* ===== verification/XrayUpdate.v ===== *)
(** * Updating the Xray binary (internal/xrayupdate/manager.go)

    A release is downloaded, checked against its manifest and installed as an
    immutable version directory (the executable, two data files and bundle.json
    with their digests); [installPrepared] records the intention in
    update-pending.json, stops Xray, switches the link "current", starts Xray
    again and records the outcome; [Recover] finishes or undoes an update that
    the agent did not survive.  The store is the directory xray-runtime under
    the agent's state directory. *)

From stdpp Require Import base gmap strings list fin_maps sorting.
From Stdlib Require Import ZArith NArith Ascii.
From S2P Require Import Prelude.
From S2P Require Import GoStrings.
From S2P Require Import Sha256.
From S2P Require Import Os.
From S2P Require Import AtomicFile.
From S2P Require Import Dirs.
From S2P Require Import XrayRuntime.
From S2P Require Import Manifest.
From S2P Require Import Release.
From S2P Require Import UpdateTypes.

(** ** Paths *)

Definition directory : string := "xray-runtime".
Definition versionsDirectory : string := "xray-runtime/versions".
Definition downloads : string := "xray-runtime/.downloads".
Definition currentPath : string := "xray-runtime/current".
Definition previousPath : string := "xray-runtime/previous".
Definition appliedPath : string := "xray-runtime/applied.json".
Definition pendingPath : string := "xray-runtime/update-pending.json".
Definition failedPath : string := "xray-runtime/update-failed.json".

Definition releaseRepository : string := "qqqasdwx/Xray-core".
Definition manifestAssetName : string := "xray-manifest.json".
Definition legacyTempPrefix : string := ".xui-agent-xray-release-".

(** ** Collaborators *)

(** The checks of a candidate executable. *)
Class BundleRunner : Type := {
  ValidateVersion : string -> string -> io (result unit);
  ValidateConfig : string -> string -> io (result unit)
}.

(** archive/zip: the entries of an archive. *)
Class Zip : Type := { open_zip : string -> result (list zip_file) }.

(** The files that belong to the agent's user. *)
Class Owner : Type := { owned_by_agent : string -> bool }.

Record Manager : Type := MkManager {
  releases : option Client;
  has_controller : bool;
  has_runner : bool;
  legacyTempDir : string
}.

Definition Enabled (m : Manager) : bool :=
  match releases m with Some _ => true | None => false end && has_controller m && has_runner m.

Section manager.
Context `{Env} `{Controller} `{BundleRunner}.

(** ** Files *)

Definition removeAndSync (path : string) : io (result unit) :=
removeThen path (syncDirectory (Dir path)).

Definition atomicSymlink (target path : string) : io (result unit) :=
match validateTarget target with
| Err e => ret (Err e)
| Ok _ => replaceLink target path (syncDirectory (Dir path))
end.

Definition writeAtomic (path content : string) (mode : N) : io (result unit) :=
try! _ := MkdirAll (Dir path) stateDirectoryMode in
replaceFile (Dir path) ".xray-update-" path content mode (syncDirectory (Dir path)).

(** persistState, the value already marshalled *)
Definition persistState (path content : string) (mode : N) : io (result unit) :=
writeAtomic path content mode.

Definition ensureDirectory : io (result unit) :=
try! _ := MkdirAll directory stateDirectoryMode in
Chmod directory stateDirectoryMode.

Definition ensureDownloadDirectory : io (result string) :=
try! _ := ensureDirectory in
try! _ := MkdirAll downloads stateDirectoryMode in
try! info := Lstat downloads in
if negb (IsDir info) then ret (Err (errorsNew "Xray release download path is not a directory"))
else try! _ := Chmod downloads stateDirectoryMode in ret (Ok downloads).

(** Every entry of the download directory has to be a regular file; it goes. *)
Fixpoint removeDownloads (names : list string) : io (result unit) :=
match names with
| [] => ret (Ok tt)
| name :: rest =>
    try! info := Lstat (Join downloads name) in
    if negb (IsRegular info) then ret (Err (errorsNew "stale Xray release download is not a regular file"))
    else try! _ := Remove (Join downloads name) in removeDownloads rest
end.

(** filepath.Glob of a name prefix in a directory: I/O errors match nothing. *)
Definition Glob (dir prefix : string) : io (list string) :=
let! names := ReadDir dir in
ret (match names with
     | Ok l => Join dir <$> filter (fun n => HasPrefix n prefix = true) l
     | Err _ => []
     end).

Fixpoint removeLegacy `{Owner} (paths : list string) : io (result unit) :=
match paths with
| [] => ret (Ok tt)
| path :: rest =>
    let! info := Lstat path in
    match info with
    | Err e => if errorsIs e SNotExist then removeLegacy rest else ret (Err e)
    | Ok info =>
        if negb (IsRegular info) || negb (owned_by_agent path) then removeLegacy rest
        else
          let! removed := Remove path in
          match removed with
          | Err e => if errorsIs e SNotExist then removeLegacy rest else ret (Err e)
          | Ok _ => removeLegacy rest
          end
    end
end.

Definition cleanupLegacyDownloads `{Owner} (m : Manager) : io (result unit) :=
if bool_decide (legacyTempDir m = "") then ret (Ok tt)
else let! paths := Glob (legacyTempDir m) legacyTempPrefix in removeLegacy paths.

Definition cleanupStaleDownloads `{Owner} (m : Manager) : io (result unit) :=
try! dir := ensureDownloadDirectory in
try! entries := ReadDir dir in
try! _ := removeDownloads entries in
try! _ := (match entries with [] => ret (Ok tt) | _ => syncDirectory dir end) in
cleanupLegacyDownloads m.

(** ** Reading the state *)

Definition loadApplied : io (result AppliedState) :=
try! raw := ReadFile appliedPath in ret (parse_applied raw).

Definition loadPending : io (result pendingState) :=
try! raw := ReadFile pendingPath in ret (parse_pending raw).

Definition LoadFailureState : io (result Result) :=
try! raw := ReadFile failedPath in ret (parse_failed raw).

(** os.Open *)
Definition Open (path : string) : io (result unit) :=
sys_read (fun f => match follow max_links f path with Ok _ => Ok tt | Err e => Err e end).

(** The bytes io.LimitReader(file, limit+1) lets through. *)
Definition limited (limit : Z) (raw : string) : string :=
if (Z.of_N (slen raw) <? limit + 1)%Z then raw else stake (Z.to_nat (limit + 1)) raw.

(** os.SameFile of a path's Lstat and the Stat of what was opened there *)
Definition SameFile (a b : FileInfo) : bool :=
match fi_kind a, fi_kind b with
| KRegular, KRegular => bool_decide (fi_size a = fi_size b) && bool_decide (fi_mtime a = fi_mtime b)
| _, _ => false
end.

Definition hashBundleFile (path : string) (limit : Z) (mode : N) : io (result string) :=
try! pathInfo := Lstat path in
if negb (IsRegular pathInfo) || negb (fi_perm pathInfo =? mode)%N then
  ret (Err (errorsNew "file has unsafe permissions or type"))
else
  try! _ := Open path in
  try! info := Stat path in
  if negb (SameFile pathInfo info) || negb (IsRegular info) || negb (fi_perm info =? mode)%N
     || (fi_size info <=? 0)%Z || (limit <? fi_size info)%Z
  then ret (Err (errorsNew "file has unsafe permissions, type, or size"))
  else
    try! raw := ReadFile path in
    let written := Z.of_N (slen (limited limit raw)) in
    if negb (written =? fi_size info)%Z || (limit <? written)%Z then
      ret (Err (errorsNew "file exceeds its size limit"))
    else ret (Ok (sha256_hex (limited limit raw))).

Definition file_mode (name : string) : N := if bool_decide (name = "xray") then 448 else stateFileMode.

(** The files of a bundle one by one. *)
Fixpoint verifyFiles (path : string) (files : gmap string string) (names : list string) : io (result unit) :=
match names with
| [] => ret (Ok tt)
| name :: rest =>
    let want := default "" (files !! name) in
    if negb (digest_len want) then ret (Err (errorsNew ("Xray bundle digest for " +:+ name +:+ " is invalid")))
    else
      try! got := hashBundleFile (Join path name) (bundleEntryLimit name) (file_mode name)
        catch e => ret (Err (errorW ("verify Xray bundle file " +:+ name +:+ ": ") e)) in
      if negb (bool_decide (got = want)) then
        ret (Err (errorsNew ("Xray bundle file " +:+ name +:+ " digest mismatch")))
      else verifyFiles path files rest
end.

Definition bundleComplete (st : bundleState) : bool :=
is_ok (validateVersion (b_version st)) && is_ok (validateVersion (b_xray st))
&& digest_len (b_digest st) && bool_decide (size (b_files st) = length requiredBundleFiles).

Definition loadVerifiedTarget (target : string) : io (result bundleState) :=
match validateTarget target with
| Err e => ret (Err e)
| Ok _ =>
    let path := Join directory target in
    try! info := Lstat path in
    if negb (IsDir info) || negb (fi_perm info =? stateDirectoryMode)%N then
      ret (Err (errorsNew "Xray version target is not a secure directory"))
    else
      try! raw := ReadFile (Join path "bundle.json") in
      match parse_bundle raw with
      | Err e => ret (Err e)
      | Ok st =>
          if negb (bundleComplete st) then ret (Err (errorsNew "Xray bundle state is incomplete"))
          else match DecodeString (b_digest st) with
          | None => ret (Err (errorsNew "Xray bundle archive digest is invalid"))
          | Some _ =>
              if negb (bool_decide (Base target = b_version st +:+ "-" +:+ b_digest st)) then
                ret (Err (errorsNew "Xray version target does not match bundle state"))
              else try! _ := verifyFiles path (b_files st) requiredBundleFiles in ret (Ok st)
          end
      end
end.

Definition verifyTarget (target : string) : io (result unit) :=
try! _ := loadVerifiedTarget target in ret (Ok tt).

Definition verifyAppliedTarget (a : AppliedState) : io (result unit) :=
match validateAppliedState a with
| Err e => ret (Err e)
| Ok _ =>
    try! st := loadVerifiedTarget (a_target a) in
    ret (guard_err (negb (bool_decide (b_version st = a_version a)) || negb (bool_decide (b_xray st = a_xray a))
                    || negb (bool_decide (b_digest st = a_digest a)))
           "applied Xray binary metadata differs from the installed bundle")
end.

Definition verifyApplied (a : AppliedState) : io (result unit) :=
try! current := Readlink currentPath in
if bool_decide (current = a_target a) then verifyAppliedTarget a
else ret (Err (errorsNew "current Xray binary differs from applied state")).

Definition Current : io (result AppliedState) :=
try! a := loadApplied in
try! _ := verifyApplied a
  catch e => ret (Err (MkError ("applied Xray binary state is corrupt: " +:+ err_text e) [SCorrupt] None)) in
ret (Ok a).

(** The applied configuration, when there is one: its path, or "". *)
Definition appliedConfigPath : io (result (string * bool)) :=
let! applied := XrayRuntime.Current in
match applied with
| Ok a => ret (Ok (Join XrayRuntime.directory (XrayTypes.a_target a), true))
| Err e => if errorsIs e SNotExist then ret (Ok ("", false))
           else ret (Err (errorW "load applied Xray config for binary update: " e))
end.

Definition rollbackAppliedState (p : pendingState) : io (result AppliedState) :=
match p_prev_applied p with
| Some a =>
    if negb (bool_decide (a_target a = p_prev p)) then
      ret (Err (errorsNew "previous applied Xray binary target does not match pending rollback target"))
    else try! _ := verifyAppliedTarget a in ret (Ok a)
| None =>
    try! st := loadVerifiedTarget (p_prev p) in
    ret (Ok (MkApplied (b_version st) (b_xray st) (b_digest st) (p_prev p) (p_started p)))
end.

(** ** Garbage collection of versions *)

(** The name a link protects, if the link exists. *)
Definition protect_link (path : string) : io (result (list string)) :=
let! r := Readlink path in
ret (match r with
     | Ok target => let? _ := validateTarget target in Ok [Base target]
     | Err e => if errorsIs e SNotExist then Ok [] else Err e
     end).

Definition pending_names (p : pendingState) : list string :=
Base (p_target p) :: (if bool_decide (p_prev p = "") then [] else [Base (p_prev p)]).

Definition protectedNames : io (result (list string)) :=
try! current := protect_link currentPath in
try! previous := protect_link previousPath in
let! loaded := loadApplied in
match (match loaded with
       | Ok a => Ok [Base (a_target a)]
       | Err e => if errorsIs e SNotExist then Ok [] else Err e
       end) with
| Err e => ret (Err e)
| Ok applied =>
    let! loaded := loadPending in
    ret (match loaded with
         | Ok p => Ok (current ++ previous ++ applied ++ pending_names p)
         | Err e => if errorsIs e SNotExist then Ok (current ++ previous ++ applied) else Err e
         end)
end.

(** The intact versions: name and modification time. *)
Fixpoint installedVersions (entries : list (string * file_kind)) : io (result (list (string * Z))) :=
match entries with
| [] => ret (Ok [])
| (name, kind) :: rest =>
    match kind with
    | KDir =>
        let! verified := verifyTarget (Join "versions" name) in
        match verified with
        | Err _ => installedVersions rest
        | Ok _ =>
            try! info := Lstat (Join versionsDirectory name) in
            try! l := installedVersions rest in
            ret (Ok ((name, fi_mtime info) :: l))
        end
    | _ => installedVersions rest
    end
end.

Fixpoint removeFiles (path : string) (names : list string) : io (result unit) :=
match names with
| [] => ret (Ok tt)
| name :: rest =>
    let! removed := Remove (Join path name) in
    match removed with
    | Err e => if errorsIs e SNotExist then removeFiles path rest else ret (Err e)
    | Ok _ => removeFiles path rest
    end
end.

Definition removeBundleDirectory (path : string) : io (result unit) :=
try! _ := removeFiles path (requiredBundleFiles ++ ["bundle.json"]) in
let! removed := Remove path in
match removed with
| Err e => if errorsIs e SNotExist then ret (Ok tt) else ret (Err e)
| Ok _ => ret (Ok tt)
end.

Definition removable (protected : list string) (index : nat) (name : string) : bool :=
negb (bool_decide (index < retainedVersions)%nat) && negb (bool_decide (name ∈ protected)).

Fixpoint removeVersions (protected : list string) (index : nat) (versions : list (string * Z))
  (removed : bool) : io (result bool) :=
match versions with
| [] => ret (Ok removed)
| v :: rest =>
    if removable protected index v.1 then
      try! _ := removeBundleDirectory (Join versionsDirectory v.1) in
      removeVersions protected (S index) rest true
    else removeVersions protected (S index) rest removed
end.

Definition pruneVersions : io (result unit) :=
let! entries := ReadDirEntries versionsDirectory in
match entries with
| Err e => if errorsIs e SNotExist then ret (Ok tt) else ret (Err e)
| Ok entries =>
    try! protected := protectedNames in
    try! versions := installedVersions entries in
    try! removed := removeVersions protected 0 (merge_sort XrayRuntime.newer versions) false in
    if removed then syncDirectory versionsDirectory else ret (Ok tt)
end.

(** ** Installing a version *)

(** copyBundleEntry: the bytes that reach the destination, and the error. *)
Definition copyBundleEntry (entry : zip_file) (limit : Z) : string * option error :=
if (limit <=? 0)%Z then ("", Some (errorsNew "Xray release archive entry is invalid"))
else match zf_open entry with
     | Some e => ("", Some e)
     | None =>
         let '(raw, copyErr) := read_entry limit entry in
         match copyErr, zf_close entry with
         | Some e, _ => (raw, Some e)
         | None, Some e => (raw, Some e)
         | None, None =>
             if negb (Z.of_N (slen raw) =? int64_of_u64 (zf_size entry))%Z
                || (limit <? Z.of_N (slen raw))%Z
             then (raw, Some (errorsNew "Xray release entry exceeds its size limit"))
             else (raw, None)
         end
     end.

Definition writeBundleEntry (path : string) (entry : zip_file) (limit : Z) (mode : N) : io (result string) :=
try! _ := OpenExcl path mode in
try! _ := Chmod path mode catch e => (let! _ := Close path in ret (Err e)) in
let '(raw, err) := copyBundleEntry entry limit in
let! written := (if bool_decide (raw = "") then ret (Ok tt) else Write path raw) in
let copyErr := match written with Err e => Some e | Ok _ => err end in
let! synced := (match copyErr with None => Sync path | Some _ => ret (Ok tt) end) in
let copyErr := match copyErr, synced with None, Err e => Some e | c, _ => c end in
let! closed := Close path in
ret (match copyErr, closed with
     | Some e, _ => Err e
     | None, Err e => Err e
     | None, Ok _ => Ok (sha256_hex raw)
     end).

(** What installBundle writes: the extracted files. *)
Fixpoint writeExtracted (dir : string) (b : bundle) (digests : gmap string string) (names : list string) :
  io (result (gmap string string)) :=
match names with
| [] => ret (Ok digests)
| name :: rest =>
    let raw := default "" (b !! name) in
    try! _ := writeAtomic (Join dir name) raw (file_mode name) in
    writeExtracted dir b (<[name := sha256_hex raw]> digests) rest
end.

(** What installBundleArchive writes: the entries, streamed. *)
Fixpoint writeEntries (dir : string) (digests : gmap string string) (entries : list zip_file) :
  io (result (gmap string string)) :=
match entries with
| [] => ret (Ok digests)
| entry :: rest =>
    let limit := bundleEntryLimit (zf_name entry) in
    if negb (isRequiredBundleFile (zf_name entry)) then
      match (copyBundleEntry entry limit).2 with
      | Some e => ret (Err e)
      | None => writeEntries dir digests rest
      end
    else
      try! digest := writeBundleEntry (Join dir (zf_name entry)) entry limit (file_mode (zf_name entry)) in
      writeEntries dir (<[zf_name entry := digest]> digests) rest
end.

Fixpoint checkDigests (digests : gmap string string) (names : list string) : result unit :=
match names with
| [] => Ok tt
| name :: rest =>
    if negb (digest_len (default "" (digests !! name))) then
      Err (errorsNew ("Xray bundle digest for " +:+ name +:+ " is invalid"))
    else checkDigests digests rest
end.

(** The version directory is built beside its final name and renamed. *)
Definition buildVersion (version xrayVersion archiveDigest path target : string)
    (writeFiles : string -> io (result (gmap string string))) : io (result string) :=
try! _ := MkdirAll versionsDirectory stateDirectoryMode in
try! temporary := MkdirTemp versionsDirectory ".xray-version-" in
defer (removeBundleDirectory temporary) (
  try! _ := Chmod temporary stateDirectoryMode in
  try! digests := writeFiles temporary in
  match checkDigests digests requiredBundleFiles with
  | Err e => ret (Err e)
  | Ok _ =>
      try! _ := writeAtomic (Join temporary "bundle.json")
                  (encode_bundle (MkBundle version xrayVersion archiveDigest digests)) stateFileMode in
      try! _ := syncDirectory temporary in
      try! _ := RenameDir temporary path in
      try! _ := syncDirectory versionsDirectory in
      ret (Ok target)
  end).

Definition installBundleFiles (version xrayVersion archiveDigest : string)
    (writeFiles : string -> io (result (gmap string string))) : io (result string) :=
let target := Join "versions" (version +:+ "-" +:+ archiveDigest) in
let path := Join directory target in
let! existing := Lstat path in
match existing with
| Ok _ =>
    try! st := loadVerifiedTarget target catch e => ret (Err (errorW "existing Xray version is invalid: " e)) in
    if negb (bool_decide (b_version st = version)) || negb (bool_decide (b_xray st = xrayVersion))
       || negb (bool_decide (b_digest st = archiveDigest))
    then ret (Err (errorsNew "existing Xray version metadata does not match the requested release"))
    else ret (Ok target)
| Err e =>
    if negb (errorsIs e SNotExist) then ret (Err e)
    else buildVersion version xrayVersion archiveDigest path target writeFiles
end.

Definition installBundle (version xrayVersion archiveDigest : string) (b : bundle) : io (result string) :=
installBundleFiles version xrayVersion archiveDigest
  (fun dir => writeExtracted dir b ∅ requiredBundleFiles).

Definition installBundleArchive (version xrayVersion archiveDigest : string) (entries : list zip_file) :
  io (result string) :=
installBundleFiles version xrayVersion archiveDigest (fun dir => writeEntries dir ∅ entries).

(** ** Rollback *)

Definition matches_pending (a : AppliedState) (p : pendingState) : bool :=
bool_decide (a_target a = p_target p) && bool_decide (a_version a = p_version p)
&& bool_decide (a_xray a = p_xray p) && bool_decide (a_digest a = p_digest p).

(** The link of an applied version that a failed rollback deselected is put
    back, so that the controller can find the running process. *)
Definition prepareRollbackController (p : pendingState) : io (result unit) :=
let! loaded := loadApplied in
match loaded with
| Err e => if errorsIs e SNotExist then ret (Ok tt) else ret (Err e)
| Ok a =>
    if negb (matches_pending a p) then ret (Ok tt)
    else
      let! current := Lstat currentPath in
      match current with
      | Ok _ => ret (Ok tt)
      | Err e =>
          if negb (errorsIs e SNotExist) then ret (Err e)
          else try! _ := verifyAppliedTarget a in atomicSymlink (p_target p) currentPath
      end
end.

Definition rollbackInitial : io (result unit) :=
try! _ := removeAndSync currentPath
  catch e => ret (Err (errorW "remove failed initial Xray binary: " e)) in
try! _ := removeAndSync appliedPath
  catch e => ret (Err (errorW "remove failed initial Xray binary state: " e)) in
ret (Ok tt).

Definition rollbackPrevious (p : pendingState) : io (result unit) :=
try! previousApplied := rollbackAppliedState p
  catch e =>
    (let! deselected := removeAndSync currentPath in
     ret (Err (match deselected with
               | Err d => MkError ("verify previous Xray binary: " +:+ err_text e
                             +:+ "; deselect failed candidate: " +:+ err_text d) (err_is e) (err_class e)
               | Ok _ => errorW "verify previous Xray binary: " e
               end))) in
try! _ := atomicSymlink (p_prev p) currentPath
  catch e => ret (Err (errorW "restore previous Xray binary: " e)) in
try! _ := persistState appliedPath (encode_applied previousApplied) stateFileMode
  catch e => ret (Err (errorW "restore previous Xray binary state: " e)) in
ret (Ok tt).

Definition stopForRollback (p : pendingState) : io (result unit) :=
try! _ := prepareRollbackController p
  catch e => ret (Err (errorW "prepare Xray binary rollback: " e)) in
try! _ := StopAndWait catch e => ret (Err (errorW "stop failed Xray binary: " e)) in
ret (Ok tt).

Definition restartRolledBack (p : pendingState) : io (result unit) :=
try! _ := RestartAndWait
  catch e => ret (Err (errorW (if bool_decide (p_prev p = "") then "restart bootstrap Xray binary: "
                               else "restart previous Xray binary: ") e)) in
ret (Ok tt).

Definition failed_result (p : pendingState) (failure errorCode recovery : string) (rolled : bool) : Result :=
MkResult (p_version p) StatusInstallFailed failure errorCode recovery 0 rolled.

Definition rollback (p : pendingState) (configPath failure errorCode : string) : io (result unit) :=
let running := negb (bool_decide (configPath = "")) in
try! _ := (if running then stopForRollback p else ret (Ok tt)) in
try! _ := (if bool_decide (p_prev p = "") then rollbackInitial else rollbackPrevious p) in
try! _ := (if running then restartRolledBack p else ret (Ok tt)) in
try! _ := persistState failedPath
     (encode_result (failed_result p failure errorCode RecoveryStatusRolledBack true)) stateFileMode in
removeAndSync pendingPath.

Definition rollbackResult (p : pendingState) (configPath failure errorCode : string) : io (result Result) :=
let! r := rollback p configPath failure errorCode in
match r with
| Err e =>
    let combined := cleanError (failure +:+ "; rollback failed") e in
    let! _ := persistState failedPath
         (encode_result (failed_result p combined errorCode RecoveryStatusFailed false)) stateFileMode in
    ret (Err (newUpdateError ErrorCodeRecoveryFailed RecoveryStatusFailed (errorsNew combined)))
| Ok _ => ret (Ok (failed_result p failure errorCode RecoveryStatusRolledBack true))
end.
End manager.

(** ** Installing and activating *)

Section operations.
Context `{Env} `{Controller} `{BundleRunner} `{Zip} `{Platform} `{UrlParser}.

Definition updateErr (code recovery : string) (e : error) : result Result := Err (newUpdateError code recovery e).
Definition prepError : error -> result Result := updateErr ErrorCodePreparationFailed RecoveryStatusNotRequired.
Definition invalidError : error -> result Result := updateErr ErrorCodeValidationFailed RecoveryStatusNotRequired.
Definition persistError : error -> result Result := updateErr ErrorCodePersistenceFailed RecoveryStatusNotRequired.
Definition unconfirmedError : error -> result Result := updateErr ErrorCodePersistenceFailed RecoveryStatusUnknown.

(** What is asked for: the release and the digest of its archive. *)
Record candidate : Set := Candidate {
  c_command : string;
  c_version : string;
  c_xray : string;
  c_digest : string
}.

(** No other update is pending; old versions are collected. *)
Definition checkPending : io (result unit) :=
  let! loaded := loadPending in
  match loaded with
  | Ok _ => ret (Err (newUpdateError ErrorCodePreparationFailed RecoveryStatusUnknown
                        (errorsNew "another Xray binary update is pending")))
  | Err e =>
      if negb (errorsIs e SNotExist) then
        ret (Err (newUpdateError ErrorCodePreparationFailed RecoveryStatusUnknown
                    (errorW "load pending Xray binary update: " e)))
      else
        try! _ := pruneVersions
          catch e => ret (Err (newUpdateError ErrorCodePreparationFailed RecoveryStatusNotRequired
                                 (errorW "garbage collect Xray versions: " e))) in
        ret (Ok tt)
  end.

(** What the applied state says: an answer, or the version to fall back to. *)
Inductive admission : Type :=
  | Answer (r : result Result)
  | Proceed (previousTarget : string) (previousApplied : option AppliedState).

Definition sameCandidate (c : candidate) (target : string) (a : AppliedState) : bool :=
  bool_decide (a_version a = c_version c) && bool_decide (a_xray a = c_xray c)
  && bool_decide (a_digest a = c_digest c) && bool_decide (a_target a = target).

Definition admitApplied (c : candidate) (target : string) : io admission :=
  let! loaded := loadApplied in
  match loaded with
  | Ok a =>
      try! _ := verifyApplied a catch e => ret (Answer (prepError e)) in
      if sameCandidate c target a then
        try! _ := removeAndSync failedPath
          catch e => ret (Answer (persistError (errorW "clear failed Xray binary update: " e))) in
        try! _ := pruneVersions
          catch e => ret (Answer (persistError (errorW "garbage collect Xray versions: " e))) in
        ret (Answer (Ok (resultFromApplied a)))
      else ret (Proceed (a_target a) (Some a))
  | Err e =>
      if negb (errorsIs e SNotExist) then
        ret (Answer (prepError (errorW "load applied Xray binary state: " e)))
      else
        let! current := Lstat currentPath in
        match current with
        | Ok _ => ret (Answer (prepError (errorsNew "current Xray binary exists without applied state")))
        | Err e => if errorsIs e SNotExist then ret (Proceed "" None) else ret (Answer (prepError e))
        end
  end.

(** The applied configuration has to pass with the candidate, and the
    controller has to be able to find the process. *)
Definition checkConfig (candidateBinary : string) (config : string * bool) : io (result unit) :=
  if negb config.2 then ret (Ok tt)
  else
    try! _ := ValidateConfig candidateBinary config.1
      catch e => ret (Err (newUpdateError ErrorCodeValidationFailed RecoveryStatusNotRequired e)) in
    match Preflight with
    | None => ret (Ok tt)
    | Some check =>
        try! _ := check
          catch e => ret (Err (newUpdateError ErrorCodePreparationFailed RecoveryStatusNotRequired
                                 (errorW "preflight managed Xray process: " e))) in
        ret (Ok tt)
    end.

(** The new version runs: record it and forget the intention. *)
Definition recordApplied (p : pendingState) (configPath : string) : io (result Result) :=
  let! now := Now in
  let next := MkApplied (p_version p) (p_xray p) (p_digest p) (p_target p) (now / 1000000000) in
  try! _ := persistState appliedPath (encode_applied next) stateFileMode
    catch e => rollbackResult p configPath (cleanError "persist applied Xray binary" e) ErrorCodePersistenceFailed in
  try! _ := removeAndSync pendingPath
    catch e => ret (unconfirmedError (errorW "confirm Xray binary update: " e)) in
  try! _ := removeAndSync failedPath
    catch e => ret (unconfirmedError (errorW "clear failed Xray binary update: " e)) in
  try! _ := pruneVersions
    catch e => ret (persistError (errorW "garbage collect Xray versions: " e)) in
  ret (Ok (resultFromApplied next)).

(** With the intention recorded: stop, switch, restart, record. *)
Definition activate (p : pendingState) (config : string * bool) : io (result Result) :=
  try! _ := (if config.2 then StopAndWait else ret (Ok tt))
    catch e => rollbackResult p config.1 (cleanError "stop current Xray before binary update" e) ErrorCodeActivationFailed in
  try! _ := atomicSymlink (p_target p) currentPath
    catch e => rollbackResult p config.1 (cleanError "switch current Xray binary" e) ErrorCodePersistenceFailed in
  try! _ := (if config.2 then RestartAndWait else ret (Ok tt))
    catch e => rollbackResult p config.1 (cleanError "start updated Xray binary" e) ErrorCodeActivationFailed in
  try! _ := (if bool_decide (p_prev p = "") then ret (Ok tt) else atomicSymlink (p_prev p) previousPath)
    catch e => rollbackResult p config.1 (cleanError "record previous Xray binary" e) ErrorCodePersistenceFailed in
  recordApplied p config.1.

Definition commit (c : candidate) (target previousTarget : string) (previousApplied : option AppliedState)
    (config : string * bool) : io (result Result) :=
  let! now := Now in
  let p := MkPending (c_command c) previousTarget previousApplied target (c_version c) (c_xray c)
             (c_digest c) (now / 1000000000) in
  try! _ := persistState pendingPath (encode_pending p) stateFileMode
    catch e => ret (prepError (errorW "persist pending Xray binary update: " e)) in
  activate p config.

(** installPrepared, the candidate installed as [target] *)
Definition installTarget (c : candidate) (target : string) : io (result Result) :=
  let candidateBinary := Join (Join directory target) "xray" in
  try! _ := ValidateVersion candidateBinary (c_xray c) catch e => ret (invalidError e) in
  let! admitted := admitApplied c target in
  match admitted with
  | Answer a => ret a
  | Proceed previousTarget previousApplied =>
      try! config := appliedConfigPath catch e => ret (prepError e) in
      try! _ := checkConfig candidateBinary config in
      commit c target previousTarget previousApplied config
  end.

Definition installPrepared (c : candidate) (installCandidate : io (result string)) : io (result Result) :=
  try! _ := ensureDirectory catch e => ret (prepError e) in
  try! _ := checkPending in
  try! target := installCandidate catch e => ret (prepError e) in
  installTarget c target.

(** ** Entry points *)

Definition command_invalid (id : string) : bool := bool_decide (id = "") || (256 <? slen id)%N.

(** install: the bundle is extracted in memory. *)
Definition install (c : candidate) (archive : string) : io (result Result) :=
  match extractBundle (open_zip archive) with
  | Err e => ret (invalidError e)
  | Ok b => installPrepared c (installBundle (c_version c) (c_xray c) (c_digest c) b)
  end.

Definition InstallLocal (commandID version archive : string) : io (result Result) :=
  if command_invalid commandID then ret (prepError (errorsNew "Xray update command id is invalid"))
  else match validateVersion version with
  | Err e => ret (prepError e)
  | Ok _ =>
      if (slen archive =? 0)%N || (maxArchiveBytes <? Z.of_N (slen archive))%Z then
        ret (invalidError (errorsNew "Xray release archive size is invalid"))
      else install (Candidate commandID version version (sha256_hex archive)) archive
  end.

(** installArchive: the bundle is streamed from the downloaded file. *)
Definition installArchive (c : candidate) (archivePath : string) : io (result Result) :=
  try! info := Stat archivePath
    catch e => ret (prepError (errorW "inspect Xray release temporary file: " e)) in
  if negb (IsRegular info) || (fi_size info <=? 0)%Z || (maxArchiveBytes <? fi_size info)%Z then
    ret (invalidError (errorsNew "Xray release archive is not a secure regular file"))
  else
    try! raw := ReadFile archivePath catch e => ret (invalidError (errorW "open Xray release archive: " e)) in
    match open_zip raw with
    | Err e => ret (invalidError (errorW "open Xray release archive: " e))
    | Ok l =>
        match validateBundleArchive l with
        | Err e => ret (invalidError e)
        | Ok entries => installPrepared c (installBundleArchive (c_version c) (c_xray c) (c_digest c) entries)
        end
    end.

(** The release a request asks for: its manifest, artifact and archive URL.
    [net] is what the network does with a URL. *)
Definition resolveRelease (cl : Client) (net : string -> nat -> exchange) (version : string) :
  result (Manifest * Artifact * string) :=
  match URL cl releaseRepository version manifestAssetName with
  | Err e => Err (newUpdateError ErrorCodePreparationFailed RecoveryStatusNotRequired e)
  | Ok manifestURL =>
      match (let? raw := Download cl manifestURL maxManifestBytes (net manifestURL) in
             let? manifest := decodeManifest raw in
             let? _ := guard_err (negb (bool_decide (version = "")) && negb (bool_decide (version = mf_version manifest)))
                         "Xray manifest version does not match the requested version" in
             let? artifact := selectArtifact manifest in
             let? archiveURL := URL cl releaseRepository (mf_version manifest) (releaseAssetName (ar_arch artifact)) in
             Ok (manifest, artifact, archiveURL)) with
      | Err e => Err (newUpdateError ErrorCodeValidationFailed RecoveryStatusNotRequired e)
      | Ok r => Ok r
      end
  end.

(** The download into the temporary file [archivePath], and its checks. *)
Definition downloadArchive (cl : Client) (net : string -> nat -> exchange) (artifact : Artifact)
    (archiveURL archivePath : string) : io (result string) :=
  let '(data, r) := DownloadTo cl archiveURL (ar_size artifact) (net archiveURL) in
  let! written := (if bool_decide (data = "") then ret (Ok tt) else Write archivePath data) in
  match written, r with
  | Err e, _ | Ok _, Err e =>
      ret (Err (newUpdateError ErrorCodeValidationFailed RecoveryStatusNotRequired
                  (errorW "download Xray release archive: " e)))
  | Ok _, Ok size =>
      if negb (size =? ar_size artifact)%Z then
        ret (Err (newUpdateError ErrorCodeValidationFailed RecoveryStatusNotRequired
                    (errorsNew "Xray release archive size does not match the manifest")))
      else if negb (bool_decide (sha256_hex data = ar_sha256 artifact)) then
        ret (Err (newUpdateError ErrorCodeValidationFailed RecoveryStatusNotRequired
                    (errorsNew "Xray release archive digest does not match the manifest")))
      else
        try! _ := Sync archivePath
          catch e => ret (Err (newUpdateError ErrorCodePreparationFailed RecoveryStatusNotRequired
                                 (errorW "sync Xray release temporary file: " e))) in
        ret (Ok (sha256_hex data))
  end.

Definition Apply (m : Manager) (net : string -> nat -> exchange) (r : Request) : io (result Result) :=
  match releases m with
  | None => ret (prepError (errorsNew "Xray release updates are not configured"))
  | Some cl =>
      if negb (Enabled m) then ret (prepError (errorsNew "Xray release updates are not configured"))
      else if command_invalid (rq_command r) then ret (prepError (errorsNew "Xray update command id is invalid"))
      else match (if bool_decide (rq_version r = "") then Ok tt else validateVersion (rq_version r)) with
      | Err e => ret (prepError e)
      | Ok _ => match resolveRelease cl net (rq_version r) with
      | Err e => ret (Err e)
      | Ok (manifest, artifact, archiveURL) =>
          try! downloadDirectory := ensureDownloadDirectory
            catch e => ret (prepError (errorW "prepare Xray release download directory: " e)) in
          try! archivePath := CreateTemp downloadDirectory "xray-release-"
            catch e => ret (prepError (errorW "create Xray release temporary file: " e)) in
          defer (Remove archivePath) (defer (Close archivePath) (
            try! _ := Chmod archivePath stateFileMode
              catch e => ret (prepError (errorW "secure Xray release temporary file: " e)) in
            try! digest := downloadArchive cl net artifact archiveURL archivePath in
            installArchive (Candidate (rq_command r) (mf_version manifest) (mf_xray manifest) digest) archivePath))
      end
      end
  end.

(** ** Recover *)

Definition undo (p : pendingState) (configPath : string) : io (result unit) :=
  let! r := rollback p configPath "unconfirmed Xray binary update was rolled back after agent restart"
              ErrorCodePreparationFailed in
  match r with
  | Ok _ => ret (Ok tt)
  | Err e =>
      let combined := cleanError "recover Xray binary update" e in
      let! _ := persistState failedPath
           (encode_result (failed_result p combined ErrorCodePreparationFailed RecoveryStatusFailed false)) stateFileMode in
      ret (Err (newUpdateError ErrorCodeRecoveryFailed RecoveryStatusFailed (errorsNew combined)))
  end.

(** The update was recorded as applied and is intact. *)
Definition confirmedUpdate (p : pendingState) (applied : result AppliedState) : io bool :=
  match applied with
  | Err _ => ret false
  | Ok a =>
      if negb (matches_pending a p) then ret false
      else let! verified := verifyApplied a in ret (is_ok verified)
  end.

Definition recoverPending (p : pendingState) : io (result unit) :=
  let! applied := loadApplied in
  let! confirmed := confirmedUpdate p applied in
  if confirmed then
    try! _ := removeAndSync pendingPath in removeAndSync failedPath
  else
    match (match applied with
           | Err e => if errorsIs e SNotExist then Ok tt
                      else Err (errorW "load applied Xray binary state during recovery: " e)
           | Ok _ => Ok tt
           end) with
    | Err e => ret (Err e)
    | Ok _ => try! config := appliedConfigPath in undo p config.1
    end.

Definition Recover `{Owner} (m : Manager) : io (result unit) :=
  if negb (has_controller m) then ret (Ok tt)
  else
    try! _ := cleanupStaleDownloads m
      catch e => ret (Err (errorW "clean stale Xray release downloads: " e)) in
    let! loaded := loadPending in
    match loaded with
    | Err e => if errorsIs e SNotExist then ret (Ok tt)
               else ret (Err (errorW "load pending Xray binary update: " e))
    | Ok p => recoverPending p
    end.
End operations.
