(* ===== verification/UpdateSteps.v ===== *)
(** * The steps of the binary update manager

    What the store looks like to every operation of XrayUpdate ([layout]), the
    rules of the operations that change one path of it, the functions its reads
    compute, and what a verified version is ([intact]). *)

From stdpp Require Import base gmap strings list fin_maps sorting.
From Stdlib Require Import ZArith NArith Ascii.
From S2P Require Import Prelude.
From S2P Require Import GoStrings.
From S2P Require Import Sha256.
From S2P Require Import Json.
From S2P Require Import Os.
From S2P Require Import AtomicFile.
From S2P Require Import Dirs.
From S2P Require Import XrayTypes.
From S2P Require Import XrayRuntime.
From S2P Require Import XraySteps.
From S2P Require Import XrayPrune.
From S2P Require Import XrayInv.
From S2P Require Import XrayRecover.
From S2P Require Import Manifest.
From S2P Require Import Release.
From S2P Require Import UpdateTypes.
From S2P Require Import XrayUpdate.

(** ** The layout of the store *)

Definition version_path (n : string) : string := versionsDirectory +:+ "/" +:+ n.

(** The paths that hold a file, a link or nothing. *)
Definition files : list string := [currentPath; previousPath; appliedPath; pendingPath; failedPath].

Lemma u_files_own p : p ∈ files ->
  scratch p = false /\ p <> directory /\ p <> versionsDirectory /\ under versionsDirectory p = None /\
  exists n, p = directory +:+ "/" +:+ n /\ no_char slash n.
Proof.
  revert p. apply Forall_forall. unfold files.
  repeat (apply Forall_cons_2; [split_and!; try done|]); [..|apply Forall_nil_2].
  - by exists "current". - by exists "previous". - by exists "applied.json".
  - by exists "update-pending.json". - by exists "update-failed.json".
Qed.

Lemma file_current : currentPath ∈ files.
Proof. unfold files. set_solver. Qed.
Lemma file_previous : previousPath ∈ files.
Proof. unfold files. set_solver. Qed.
Lemma file_applied : appliedPath ∈ files.
Proof. unfold files. set_solver. Qed.
Lemma file_pending : pendingPath ∈ files.
Proof. unfold files. set_solver. Qed.
Lemma file_failed : failedPath ∈ files.
Proof. unfold files. set_solver. Qed.

#[export] Hint Resolve file_current file_previous file_applied file_pending file_failed : go.

(** No symbolic link stands for a state file or for the record of a version. *)
Definition bundle_path (n : string) : string := version_path n +:+ "/bundle.json".

Record layout (f : fs) : Prop := Layout {
  lay_dir : dir_or_none f directory;
  lay_versions : dir_or_none f versionsDirectory;
  lay_plain : Forall (plain_file f) files;
  lay_files : no_link f appliedPath /\ no_link f pendingPath;
  lay_bundles : forall n, no_char slash n -> scratch (bundle_path n) = false -> no_link f (bundle_path n)
}.

Lemma u_layout_plain f p : layout f -> p ∈ files -> plain_file f p.
Proof. intros [_ _ Hp _ _] Hin. rewrite Forall_forall in Hp. by apply Hp. Qed.

Lemma u_layout_equiv (f g : fs) : f ≡ g -> layout f -> layout g.
Proof.
  intros Hfg [H1 H2 H3 [H4 H5] H6].
  split; unfold dir_or_none, no_link in *.
  - by rewrite <- (fs_equiv_lookup _ _ directory Hfg eq_refl).
  - by rewrite <- (fs_equiv_lookup _ _ versionsDirectory Hfg eq_refl).
  - rewrite Forall_forall in *. intros p Hp. apply (plain_file_equiv f g); [done|by apply u_files_own|].
    by apply H3.
  - split; intros t.
    + by rewrite <- (fs_equiv_lookup _ _ appliedPath Hfg eq_refl).
    + by rewrite <- (fs_equiv_lookup _ _ pendingPath Hfg eq_refl).
  - intros n Hs Hn t. rewrite <- (fs_equiv_lookup _ _ (bundle_path n) Hfg Hn). by apply H6.
Qed.

#[export] Instance layout_proper : Proper ((≡) ==> iff) layout.
Proof. intros f g Hfg. split; apply u_layout_equiv; [done|by symmetry]. Qed.

(** A path of the store proper, not among the versions. *)
Lemma file_not_bundle p n : p ∈ files -> p <> bundle_path n.
Proof.
  intros Hp ->. apply u_files_own in Hp as (_ & _ & _ & Hu & _).
  unfold bundle_path, version_path in Hu.
  change (versionsDirectory +:+ "/" +:+ n) with (versionsDirectory +:+ String slash n) in Hu.
  rewrite sapp_assoc in Hu. change (String slash n +:+ "/bundle.json") with (String slash (n +:+ "/bundle.json")) in Hu.
  by rewrite under_below in Hu.
Qed.

Lemma u_layout_update f p n :
  layout f -> p ∈ files -> (forall m t, n <> NDir m t) ->
  (p = appliedPath \/ p = pendingPath -> forall t, n <> NLink t) ->
  layout (<[p := n]> f).
Proof.
  intros [H1 H2 H3 [H4 H5] H6] Hp Hn Hl. pose proof (u_files_own p Hp) as (_ & Hp1 & Hp2 & _).
  split; unfold dir_or_none in *.
  - by rewrite lookup_insert_ne.
  - by rewrite lookup_insert_ne.
  - eapply Forall_impl; [exact H3|]. intros q Hq. unfold plain_file in *. rewrite lookup_insert.
    case_decide; [|done]. destruct n; [done| |done]. by destruct (Hn mode mtime).
  - split; intros t; rewrite lookup_insert; case_decide as E; try done; intros [= ->]; eapply Hl; eauto.
  - intros k Hs Hk t. rewrite lookup_insert_ne by by apply file_not_bundle. by apply H6.
Qed.

Lemma u_layout_delete f p : layout f -> p ∈ files -> layout (delete p f).
Proof.
  intros [H1 H2 H3 [H4 H5] H6] Hp. pose proof (u_files_own p Hp) as (_ & Hp1 & Hp2 & _).
  split; unfold dir_or_none in *.
  - by rewrite lookup_delete_ne.
  - by rewrite lookup_delete_ne.
  - eapply Forall_impl; [exact H3|]. intros q Hq. unfold plain_file in *. rewrite lookup_delete. by case_decide.
  - split; intros t; rewrite lookup_delete; by case_decide.
  - intros k Hs Hk t. rewrite lookup_delete_ne by by apply file_not_bundle. by apply H6.
Qed.

(** The directories the manager makes. *)
Definition home (d : string) : Prop := d = directory \/ d = versionsDirectory.

Lemma home_not d p : home d -> p ∈ files -> d <> p.
Proof. intros Hd (_ & ? & ? & _)%u_files_own. by destruct Hd as [-> | ->]. Qed.

Lemma u_home_scratch d : home d -> scratch d = false.
Proof. by intros [-> | ->]. Qed.

Lemma u_layout_mkdir d f g : layout f -> home d -> dir_step d f g -> layout g.
Proof.
  intros [H1 H2 H3 [H4 H5] H6] Hd [->|(m & t & ->)]; [done|].
  assert (forall q, q ∈ files -> (<[d := NDir m t]> f) !! q = f !! q) as Hq.
  { intros q Hin. apply lookup_insert_ne. by apply home_not. }
  split; unfold dir_or_none, no_link in *.
  - rewrite lookup_insert. by case_decide.
  - rewrite lookup_insert. by case_decide.
  - rewrite Forall_forall in *. intros q Hin. unfold plain_file in *. rewrite Hq by done. by apply H3.
  - rewrite !Hq by (unfold files; set_solver). done.
  - intros n Hs Hn t'. rewrite lookup_insert_ne; [by apply H6|].
    destruct Hd as [-> | ->]; by destruct n.
Qed.

(** ** One path at a time *)

Section rules.
Context `{Env}.

Lemma files_dir n : no_char slash n -> Dir (directory +:+ "/" +:+ n) = directory.
Proof. intros. by apply no_slash_Dir. Qed.

(** Write a state file: on any failure its node is the old or the new one. *)
Lemma u_write path content w0 f (Q : result unit -> world -> Prop) C w :
  since w0 f w -> path ∈ files -> layout f -> is_dir f directory = true ->
  (forall g w', ~ calm w0 -> onward w0 w g w' ->
     (g ≡ f \/ exists t, g ≡ <[path := NFile content stateFileMode (time_at t)]> f) ->
     C w' /\ forall e, Q (Err e) w') ->
  (forall g t w', onward w0 w g w' -> g ≡ <[path := NFile content stateFileMode (time_at t)]> f ->
     Q (Ok tt) w') ->
  wp (writeAtomic path content stateFileMode) Q C w.
Proof.
  intros Hw Hin Hl Hd HX HQ. pose proof (u_layout_plain f path Hl Hin) as Hp.
  destruct (u_files_own path Hin) as (Hs & _ & _ & _ & n & -> & Hn).
  assert (forall g w', ~ calm w -> after w g w' ->
    (g ≡ f \/ exists t, g ≡ <[directory +:+ "/" +:+ n := NFile content stateFileMode (time_at t)]> f) ->
    C w' /\ forall e, Q (Err e) w') as HX'.
  { intros g w' Hc Hg. apply HX; [exact (since_calm _ _ _ Hw Hc)|by eapply onward_after]. }
  unfold writeAtomic. rewrite files_dir by done.
  apply wp_try, (wp_MkdirAll_dir _ _ w f); [by eapply since_after|done|..].
  - intros w' Hc Hw'. apply (HX' f); [done|done|by left].
  - intros e w' Hc Hw' _. apply wp_ret, (HX' f); [done|done|by left].
  - intros w1 Hw1.
    apply (wp_replaceFile_in directory ".xray-update-") with (always := False) (w0 := w) (f := f); try done.
    + apply syncDirectory_looks.
    + intros g w' Hc Hg Hcase. by apply (HX' g).
    + intros r g w' Hg [(Hc & [e ->] & Hgf)|(t & Hgf & Hr)].
      * apply (HX' g); [done|done|by left].
      * destruct r as [[]|e]; [eapply HQ; [by eapply onward_after|done]|].
        apply (HX' g); [|done|right; by exists t]. intros Hc. by specialize (Hr Hc).
Qed.

(** Remove a state file or a link, present or not. *)
Lemma u_remove path w0 f (Q : result unit -> world -> Prop) C w :
  since w0 f w -> path ∈ files -> layout f -> is_dir f directory = true ->
  (forall g w', ~ calm w0 -> onward w0 w g w' -> (g ≡ f \/ g ≡ delete path f) ->
     C w' /\ forall e, Q (Err e) w') ->
  (forall w', onward w0 w (delete path f) w' -> Q (Ok tt) w') ->
  wp (removeAndSync path) Q C w.
Proof.
  intros Hw Hin Hl Hd HX HQ. pose proof (u_layout_plain f path Hl Hin) as Hp.
  destruct (u_files_own path Hin) as (_ & _ & _ & _ & n & -> & Hn).
  unfold removeAndSync. rewrite files_dir by done.
  apply (wp_removeThen False _ directory _ w f); [by eapply since_after|done|done|apply syncDirectory_looks|..].
  - intros w' Hc (g & Hg & Ha)%later_after.
    apply (HX g); [exact (since_calm _ _ _ Hw Hc)|by eapply onward_after|by left].
  - intros w' Hc (g & Hg & Ha)%later_after.
    apply (HX g); [exact (since_calm _ _ _ Hw Hc)|by eapply onward_after|by right].
  - intros e w' Hc (g & Hg & Ha)%later_after.
    apply (HX g); [exact (since_calm _ _ _ Hw Hc)|by eapply onward_after|by left].
  - intros r w' Hw' Hr. destruct r as [[]|e]; [apply HQ; by eapply onward_after|].
    apply (HX (delete (directory +:+ "/" +:+ n) f)); [|by eapply onward_after|by right].
    intros Hc. by specialize (Hr (calm_since _ _ _ Hw Hc)).
Qed.

(** Point a link at a version. *)
Lemma u_symlink target path w0 f (Q : result unit -> world -> Prop) C w :
  since w0 f w -> validateTarget target = Ok tt -> path = currentPath \/ path = previousPath ->
  layout f -> is_dir f directory = true ->
  (forall g w', ~ (calm w0 /\ link_fresh w0 path f) -> onward w0 w g w' ->
     (g ≡ f \/ g ≡ <[path := NLink target]> f) -> (~ calm w0 -> C w') /\ forall e, Q (Err e) w') ->
  (forall w', onward w0 w (<[path := NLink target]> f) w' -> Q (Ok tt) w') ->
  wp (atomicSymlink target path) Q C w.
Proof.
  intros Hw Ht Hpath Hl Hd HX HQ. unfold atomicSymlink. rewrite Ht.
  assert (path ∈ files) as Hin by (destruct Hpath as [-> | ->]; unfold files; set_solver).
  pose proof (u_layout_plain f path Hl Hin) as Hp.
  assert (Dir path = directory) as Hdir by (by destruct Hpath as [-> | ->]).
  assert (forall g w', ~ calm w -> onward w0 w g w' -> (g ≡ f \/ g ≡ <[path := NLink target]> f) ->
    C w' /\ forall e, Q (Err e) w') as HX'.
  { intros g w' Hc Hg Hcase. pose proof (since_calm _ _ _ Hw Hc) as Hc0.
    destruct (HX g w') as [H1 H2]; [naive_solver|done|done|]. split; [auto|done]. }
  rewrite Hdir.
  apply (wp_replaceLink False _ _ directory _ w f); try done; [by eapply since_after|by apply u_files_own| |..].
  - intros z. destruct Hpath as [-> | ->]; (split; [reflexivity|]).
    + change (currentPath +:+ ".tmp-" +:+ FormatInt z) with (directory +:+ String slash ("current.tmp-" +:+ FormatInt z)).
      rewrite Dir_app; [done|]. apply no_char_app. split; [done|apply FormatInt_no_slash].
    + change (previousPath +:+ ".tmp-" +:+ FormatInt z) with (directory +:+ String slash ("previous.tmp-" +:+ FormatInt z)).
      rewrite Dir_app; [done|]. apply no_char_app. split; [done|apply FormatInt_no_slash].
  - apply syncDirectory_looks.
  - intros w' Hc (g & Hg & Ha)%later_after. apply (HX' g); [done|by eapply onward_after|by left].
  - intros w' Hc (g & Hg & Ha)%later_after. apply (HX' g); [done|by eapply onward_after|by right].
  - intros e w' Hc (g & Hg & Ha)%later_after. apply (HX g); [|by eapply onward_after|by left].
    intros [Hc0 Hf]. apply Hc. split; [by eapply calm_since|by eapply link_fresh_since].
  - intros r w' Ha Hr _. destruct r as [[]|e].
    + apply HQ. by eapply onward_after.
    + apply (HX' (<[path := NLink target]> f)); [|by eapply onward_after|by right]. intros Hc. by specialize (Hr Hc).
Qed.

Lemma reads_mono {A} (m : io (result A)) s s' : (forall f, s f = s' f) -> reads m s -> reads m s'.
Proof. intros Hs Hm w0 f Q C w Hw HX HQ. apply (Hm w0 f); [done|done|]. rewrite Hs. done. Qed.

Lemma keeps_is_comp g h : keeps_is g -> keeps_is h -> keeps_is (fun e => g (h e)).
Proof. intros Hg Hh e s. by rewrite Hg, Hh. Qed.
End rules.

(** ** What the reads compute *)

Section reads.
Context `{Env}.

Definition s_applied : fs -> result AppliedState := s_parsed appliedPath parse_applied.
Definition s_pending : fs -> result pendingState := s_parsed pendingPath parse_pending.

Lemma u_reads_loadApplied : reads loadApplied s_applied.
Proof. apply (reads_try _ (fun e => e)); [done|apply reads_sys|intros; apply reads_ret]. Qed.

Lemma u_reads_loadPending : reads loadPending s_pending.
Proof. apply (reads_try _ (fun e => e)); [done|apply reads_sys|intros; apply reads_ret]. Qed.

Definition s_open (path : string) (f : fs) : result unit :=
  match follow max_links f path with Ok _ => Ok tt | Err e => Err e end.

(** [hashBundleFile] once the file was opened. *)
Definition s_digest (limit : Z) (mode : N) (pathInfo info : FileInfo) (raw : result string) : result string :=
  if negb (SameFile pathInfo info) || negb (IsRegular info) || negb (fi_perm info =? mode)%N
     || (fi_size info <=? 0)%Z || (limit <? fi_size info)%Z
  then Err (errorsNew "file has unsafe permissions, type, or size")
  else match raw with
       | Err e => Err e
       | Ok raw =>
           let written := Z.of_N (slen (limited limit raw)) in
           if negb (written =? fi_size info)%Z || (limit <? written)%Z then
             Err (errorsNew "file exceeds its size limit")
           else Ok (sha256_hex (limited limit raw))
       end.

Definition s_hash (path : string) (limit : Z) (mode : N) (f : fs) : result string :=
  match fs_lstat f path with
  | Err e => Err e
  | Ok pathInfo =>
      if negb (IsRegular pathInfo) || negb (fi_perm pathInfo =? mode)%N then
        Err (errorsNew "file has unsafe permissions or type")
      else match s_open path f with
           | Err e => Err e
           | Ok _ => match fs_stat f path with
                     | Err e => Err e
                     | Ok info => s_digest limit mode pathInfo info (fs_readfile f path)
                     end
           end
  end.

Lemma reads_hash path limit mode : reads (hashBundleFile path limit mode) (s_hash path limit mode).
Proof.
  apply (reads_try _ (fun e => e) _ (fun f => fs_lstat f path)
    (fun pathInfo f => if negb (IsRegular pathInfo) || negb (fi_perm pathInfo =? mode)%N then _ else
       match s_open path f with Err e => Err e | Ok _ => _ end)); [done|apply reads_sys|intros pathInfo].
  destruct (negb _ || negb _); [apply reads_ret|].
  apply (reads_try _ (fun e => e) _ (s_open path)
    (fun _ f => match fs_stat f path with Err e => Err e | Ok info => _ end)); [done|apply reads_sys|intros _].
  apply (reads_try _ (fun e => e) _ (fun f => fs_stat f path)
    (fun info f => s_digest limit mode pathInfo info (fs_readfile f path))); [done|apply reads_sys|intros info].
  unfold s_digest. destruct (negb (SameFile _ _) || _ || _ || _ || _); [apply reads_ret|].
  apply (reads_try _ (fun e => e) _ (fun f => fs_readfile f path)); [done|apply reads_sys|intros raw].
  cbv zeta. destruct (negb _ || _); apply reads_ret.
Qed.

(** A regular file of the mode, its size within the limit, with the digest. *)
Definition hashed (path : string) (limit : Z) (mode : N) (d : string) (f : fs) : Prop :=
  exists c t, f !! path = Some (NFile c mode t) /\ (0 < Z.of_N (slen c) <= limit)%Z /\ sha256_hex c = d.

Lemma limited_all limit c : (Z.of_N (slen c) <= limit)%Z -> limited limit c = c.
Proof. intros Hc. unfold limited. by rewrite (proj2 (Z.ltb_lt _ _)) by lia. Qed.

Lemma s_hash_ok path limit mode f d : s_hash path limit mode f = Ok d <-> hashed path limit mode d f.
Proof.
  unfold s_hash, hashed, fs_lstat. split.
  - destruct (f !! path) as [n|] eqn:En; [|done].
    destruct (negb _ || negb _) eqn:E1; [done|].
    rewrite orb_false_iff, !negb_false_iff, N.eqb_eq in E1. destruct E1 as [Hr Hm].
    destruct n as [c m t| |]; try done. simpl in Hm. subst m.
    destruct (s_open path f); [|done]. rewrite (fs_stat_node _ _ _ En) by done.
    rewrite (fs_readfile_file _ _ _ _ _ En). unfold s_digest.
    destruct (_ || _ || _ || _ || _) eqn:E2; [done|].
    rewrite !orb_false_iff, Z.leb_gt, Z.ltb_ge in E2. simpl in E2. destruct E2 as [[_ ?] ?].
    rewrite limited_all by lia. cbv zeta. destruct (_ || _); [done|]. intros [= <-]. exists c, t. split_and!; [done|lia|lia|done].
  - intros (c & t & En & Hs & <-). rewrite En. simpl. rewrite N.eqb_refl. cbn [negb orb].
    unfold s_open. rewrite (follow_node _ _ _ _ En) by done.
    rewrite (fs_stat_node _ _ _ En) by done. rewrite (fs_readfile_file _ _ _ _ _ En). unfold s_digest.
    simpl. unfold SameFile. simpl. rewrite N.eqb_refl, !bool_decide_true by done.
    rewrite (proj2 (Z.leb_gt _ _)), (proj2 (Z.ltb_ge _ _)) by lia. cbn [negb orb andb].
    rewrite limited_all, Z.eqb_refl by lia. cbv zeta. by rewrite (proj2 (Z.ltb_ge _ _)) by lia.
Qed.

Fixpoint s_files (path : string) (digests : gmap string string) (names : list string) (f : fs) : result unit :=
  match names with
  | [] => Ok tt
  | name :: rest =>
      let want := default "" (digests !! name) in
      if negb (digest_len want) then Err (errorsNew ("Xray bundle digest for " +:+ name +:+ " is invalid"))
      else match s_hash (Join path name) (bundleEntryLimit name) (file_mode name) f with
           | Err e => Err (errorW ("verify Xray bundle file " +:+ name +:+ ": ") e)
           | Ok got =>
               if negb (bool_decide (got = want)) then
                 Err (errorsNew ("Xray bundle file " +:+ name +:+ " digest mismatch"))
               else s_files path digests rest f
           end
  end.

Lemma reads_files path digests names : reads (verifyFiles path digests names) (s_files path digests names).
Proof.
  induction names as [|n names IH]; [apply reads_ret|]. cbn [verifyFiles s_files]. cbv zeta.
  destruct (negb (digest_len _)); [apply reads_ret|].
  apply (reads_try _ (errorW _) _ (s_hash (Join path n) (bundleEntryLimit n) (file_mode n))
    (fun got f => if negb (bool_decide (got = default "" (digests !! n))) then _
                  else s_files path digests names f));
    [done|apply reads_hash|intros got].
  destruct (negb _); [apply reads_ret|exact IH].
Qed.

Definition s_state (target path : string) (raw : string) (f : fs) : result bundleState :=
  match parse_bundle raw with
  | Err e => Err e
  | Ok st =>
      if negb (bundleComplete st) then Err (errorsNew "Xray bundle state is incomplete")
      else match DecodeString (b_digest st) with
      | None => Err (errorsNew "Xray bundle archive digest is invalid")
      | Some _ =>
          if negb (bool_decide (Base target = b_version st +:+ "-" +:+ b_digest st)) then
            Err (errorsNew "Xray version target does not match bundle state")
          else match s_files path (b_files st) requiredBundleFiles f with Err e => Err e | Ok _ => Ok st end
      end
  end.

Definition s_load (target : string) (f : fs) : result bundleState :=
  match validateTarget target with
  | Err e => Err e
  | Ok _ =>
      let path := Join directory target in
      match fs_lstat f path with
      | Err e => Err e
      | Ok info =>
          if negb (IsDir info) || negb (fi_perm info =? stateDirectoryMode)%N then
            Err (errorsNew "Xray version target is not a secure directory")
          else match fs_readfile f (Join path "bundle.json") with
               | Err e => Err e
               | Ok raw => s_state target path raw f
               end
      end
  end.

Lemma reads_load target : reads (loadVerifiedTarget target) (s_load target).
Proof.
  unfold loadVerifiedTarget, s_load. destruct (validateTarget target); [|apply reads_ret]. cbv zeta.
  apply (reads_try _ (fun e => e) _ (fun f => fs_lstat f (Join directory target))
    (fun info f => if negb (IsDir info) || negb (fi_perm info =? stateDirectoryMode)%N then _ else
       match fs_readfile f (Join (Join directory target) "bundle.json") with Err e => Err e | Ok raw => _ end));
    [done|apply reads_sys|intros info].
  destruct (negb _ || negb _); [apply reads_ret|].
  apply (reads_try _ (fun e => e) _ (fun f => fs_readfile f (Join (Join directory target) "bundle.json"))
    (fun raw f => s_state target (Join directory target) raw f)); [done|apply reads_sys|intros raw].
  unfold s_state. destruct (parse_bundle raw) as [st|]; [|apply reads_ret].
  destruct (negb (bundleComplete st)); [apply reads_ret|].
  destruct (DecodeString _); [|apply reads_ret]. destruct (negb _); [apply reads_ret|].
  apply (reads_try _ (fun e => e) _ (s_files (Join directory target) (b_files st) requiredBundleFiles));
    [done|apply reads_files|intros _; apply reads_ret].
Qed.

Definition s_verifyTarget (a : AppliedState) (f : fs) : result unit :=
  match validateAppliedState a with
  | Err e => Err e
  | Ok _ =>
      match s_load (a_target a) f with
      | Err e => Err e
      | Ok st =>
          guard_err (negb (bool_decide (b_version st = a_version a)) || negb (bool_decide (b_xray st = a_xray a))
                     || negb (bool_decide (b_digest st = a_digest a)))
            "applied Xray binary metadata differs from the installed bundle"
      end
  end.

Lemma u_reads_verifyAppliedTarget a : reads (verifyAppliedTarget a) (s_verifyTarget a).
Proof.
  unfold verifyAppliedTarget, s_verifyTarget. destruct (validateAppliedState a); [|apply reads_ret].
  apply (reads_try _ (fun e => e) _ (s_load (a_target a))); [done|apply reads_load|intros; apply reads_ret].
Qed.

Definition s_verifyApplied (a : AppliedState) (f : fs) : result unit :=
  match fs_readlink f currentPath with
  | Err e => Err e
  | Ok current =>
      if bool_decide (current = a_target a) then s_verifyTarget a f
      else Err (errorsNew "current Xray binary differs from applied state")
  end.

Lemma u_reads_verifyApplied a : reads (verifyApplied a) (s_verifyApplied a).
Proof.
  apply (reads_try _ (fun e => e) _ (fun f => fs_readlink f currentPath)
    (fun current f => if bool_decide (current = a_target a) then s_verifyTarget a f else _));
    [done|apply reads_sys|intros c].
  case_bool_decide; [apply u_reads_verifyAppliedTarget|apply reads_ret].
Qed.

Definition s_rollback (p : pendingState) (f : fs) : result AppliedState :=
  match p_prev_applied p with
  | Some a =>
      if negb (bool_decide (a_target a = p_prev p)) then
        Err (errorsNew "previous applied Xray binary target does not match pending rollback target")
      else match s_verifyTarget a f with Err e => Err e | Ok _ => Ok a end
  | None =>
      match s_load (p_prev p) f with
      | Err e => Err e
      | Ok st => Ok (MkApplied (b_version st) (b_xray st) (b_digest st) (p_prev p) (p_started p))
      end
  end.

Lemma u_reads_rollback p : reads (rollbackAppliedState p) (s_rollback p).
Proof.
  unfold rollbackAppliedState, s_rollback. destruct (p_prev_applied p) as [a|].
  - destruct (negb _); [apply reads_ret|].
    apply (reads_try _ (fun e => e) _ (s_verifyTarget a)); [done|apply u_reads_verifyAppliedTarget|].
    intros _. apply reads_ret.
  - apply (reads_try _ (fun e => e) _ (s_load (p_prev p))); [done|apply reads_load|].
    intros st. apply reads_ret.
Qed.
End reads.

(** ** Paths of entry names *)

(** [p] is a relative path of entry names. *)
Definition plain_path (l : list string) (p : string) : Prop :=
  l <> [] /\ Forall entry_name l /\ Split p slash = l.

Lemma plain_path_two a b : entry_name a -> entry_name b -> plain_path [a; b] (a +:+ "/" +:+ b).
Proof.
  intros Ha Hb. split_and!; [done|by repeat (apply Forall_cons_2; [done|])|].
  change (a +:+ "/" +:+ b) with (a +:+ String slash b). by rewrite Split_app, Split_no_char by (apply Ha || apply Hb).
Qed.

Lemma Split_slash_app p n l : Split p slash = l -> no_char slash n -> Split (p +:+ "/" +:+ n) slash = l ++ [n].
Proof. intros <- Hn. change (p +:+ "/" +:+ n) with (p +:+ String slash n). by apply Split_last. Qed.

Lemma plain_path_snoc l p n : plain_path l p -> entry_name n -> plain_path (l ++ [n]) (p +:+ "/" +:+ n).
Proof.
  intros (Hne & Hl & Hs) Hn. split_and!; [by destruct l|apply Forall_app; split; [done|by apply Forall_cons_2]|].
  by apply Split_slash_app; [|apply Hn].
Qed.

Lemma foldl_entries b l st : Forall entry_name l -> foldl (clean_step b) st l = rev l ++ st.
Proof.
  intros Hl. revert st. induction Hl as [|n l Hn _ IH]; intros st; [done|]. cbn [foldl rev].
  rewrite clean_step_entry, IH by done. by rewrite <- app_assoc.
Qed.

Lemma Clean_plain l p : plain_path l p -> Clean p = p /\ Clean (p +:+ "/") = p.
Proof.
  intros (Hne & Hl & Hs).
  assert (p <> "") as Hp.
  { intros ->. simpl in Hs. subst l. apply Forall_cons_1 in Hl as [(_ & ? & _) _]. done. }
  assert (forall q, IsAbs (p +:+ q) = false) as Ha.
  { intros q. destruct p as [|c p']; [done|]. unfold IsAbs. rewrite app_String. cbn [HasPrefix].
    rewrite bool_decide_false; [done|]. intros <-. simpl in Hs.
    destruct l as [|x l]; [done|]. injection Hs as <- <-.
    apply Forall_cons_1 in Hl as [(_ & ? & _) _]. done. }
  assert (sconcat "/" (rev (rev l)) = p) as Hc.
  { rewrite rev_involutive, <- Hs. by rewrite (sconcat_Split slash). }
  unfold Clean. rewrite !bool_decide_false by (done || by destruct p). split.
  - pose proof (Ha "") as Ha0. rewrite sapp_nil_r in Ha0. rewrite Ha0, Hs, foldl_entries, app_nil_r, Hc by done.
    by rewrite bool_decide_false.
  - rewrite Ha. change (p +:+ "/") with (p +:+ String slash ""). rewrite Split_last by done. rewrite Hs, foldl_app.
    rewrite (foldl_entries _ l), app_nil_r by done. cbn [foldl].
    change (clean_step false (rev l) "") with (rev l).
    rewrite Hc, !bool_decide_false; [done|done|by destruct p].
Qed.

Lemma Join_plain l p n : plain_path l p -> entry_name n -> Join p n = p +:+ "/" +:+ n.
Proof.
  intros Hp Hn. pose proof (Clean_plain _ _ (plain_path_snoc _ _ _ Hp Hn)) as [Hc _].
  unfold Join. rewrite !bool_decide_false; [done|apply Hn|].
  intros ->. destruct Hp as (_ & Hl & Hs). simpl in Hs. subst l. apply Forall_cons_1 in Hl as [(_ & ? & _) _]. done.
Qed.

Lemma Dir_plain l p n : plain_path l p -> no_char slash n -> Dir (p +:+ "/" +:+ n) = p.
Proof.
  intros Hp Hn. change (p +:+ "/" +:+ n) with (p +:+ String slash n). rewrite Dir_app by done.
  by apply (Clean_plain l).
Qed.

Lemma entry_runtime : entry_name directory.
Proof. by split_and!. Qed.

Lemma plain_versions : plain_path [directory; "versions"] versionsDirectory.
Proof. apply (plain_path_two directory "versions"); [apply entry_runtime|apply entry_versions]. Qed.

Lemma plain_version n : entry_name n -> plain_path [directory; "versions"; n] (version_path n).
Proof. intros Hn. exact (plain_path_snoc _ _ _ plain_versions Hn). Qed.

Lemma u_target_path target : validateTarget target = Ok tt ->
  exists n, entry_name n /\ target = "versions/" +:+ n /\ Join directory target = version_path n /\
    Base target = n /\ Join "versions" n = target.
Proof.
  intros Ht. pose proof Ht as (n & Hn & ->)%UpdateTypes.u_validateTarget_ok. exists n. split_and!; try done.
  - rewrite XrayTypes.Join_target; [done|apply entry_runtime|by apply target_same].
  - change ("versions/" +:+ n) with ("versions" +:+ String slash n). by apply Base_two.
  - by rewrite Join_entry by (apply entry_versions || done).
Qed.

Lemma entry_file n : n ∈ "bundle.json" :: requiredBundleFiles -> entry_name n.
Proof. revert n. apply Forall_forall. repeat (apply Forall_cons_2; [by split_and!|]). by apply Forall_nil_2. Qed.

(** ** Intact versions *)

(** The directory of version [n] as the manager installs it: mode 0700, a
    record that names the version, and the three files with the recorded
    digests, modes and sizes within the limits. *)
Record intact (f : fs) (n : string) (st : bundleState) : Prop := Intact {
  in_dir : exists t, f !! version_path n = Some (NDir stateDirectoryMode t);
  in_state : exists raw m t, f !! bundle_path n = Some (NFile raw m t) /\ parse_bundle raw = Ok st;
  in_complete : bundleComplete st = true;
  in_digest : is_Some (DecodeString (b_digest st));
  in_name : n = b_version st +:+ "-" +:+ b_digest st;
  in_files : Forall (fun x => digest_len (default "" (b_files st !! x)) = true /\
    hashed (version_path n +:+ "/" +:+ x) (bundleEntryLimit x) (file_mode x) (default "" (b_files st !! x)) f)
    requiredBundleFiles
}.

Lemma s_files_ok n digests names f : entry_name n -> names ⊆ requiredBundleFiles ->
  s_files (version_path n) digests names f = Ok tt <->
  Forall (fun x => digest_len (default "" (digests !! x)) = true /\
    hashed (version_path n +:+ "/" +:+ x) (bundleEntryLimit x) (file_mode x) (default "" (digests !! x)) f) names.
Proof.
  intros Hn. induction names as [|x names IH]; intros Hsub; cbn [s_files]; [by split|]. cbv zeta.
  rewrite Forall_cons, <- IH by set_solver.
  assert (entry_name x) as Hx by (apply entry_file; set_solver).
  rewrite (Join_plain _ _ x (plain_version n Hn) Hx).
  destruct (digest_len _); cbn [negb]; [|split; [done|by intros [[? _] _]]].
  pose proof (s_hash_ok (version_path n +:+ "/" +:+ x) (bundleEntryLimit x) (file_mode x) f) as Hh.
  destruct (s_hash _ _ _ f) as [got|e] eqn:E.
  - case_bool_decide as Eg; cbn [negb].
    + rewrite <- Hh. naive_solver.
    + split; [done|]. intros [[_ Hc%Hh] _]. congruence.
  - split; [done|]. intros [[_ Hc%Hh] _]. congruence.
Qed.

Lemma version_path_below n x : bundle_path n = version_path n +:+ "/" +:+ "bundle.json" /\
  version_path n +:+ "/" +:+ x = versionsDirectory +:+ "/" +:+ n +:+ "/" +:+ x.
Proof. unfold bundle_path, version_path. by rewrite !sapp_assoc. Qed.

#[local] Arguments s_files : simpl never.

Lemma s_load_ok f n st : no_link f (bundle_path n) -> entry_name n ->
  s_load ("versions/" +:+ n) f = Ok st <-> intact f n st.
Proof.
  intros Hnl Hn. unfold s_load. pose proof (target_entry n Hn) as Ht. rewrite Ht.
  destruct (u_target_path _ Ht) as (n' & Hn' & En & -> & Eb & _). apply (sapp_inj_l "versions/") in En as <-.
  cbv zeta. unfold fs_lstat.
  rewrite (Join_plain _ _ "bundle.json" (plain_version n Hn)) by by apply entry_file; left.
  change (version_path n +:+ "/" +:+ "bundle.json") with (bundle_path n). unfold s_state. split.
  - destruct (f !! version_path n) as [x|] eqn:Ex; [|done].
    destruct (negb _ || negb _) eqn:E1; [done|].
    rewrite orb_false_iff, !negb_false_iff, N.eqb_eq in E1. destruct E1 as [Hd Hm].
    destruct x as [| m t|]; try done. simpl in Hm. subst m.
    destruct (fs_readfile f (bundle_path n)) as [raw|] eqn:Er; [|done].
    destruct (parse_bundle raw) as [st'|] eqn:Ep; [|done].
    destruct (bundleComplete st') eqn:Ec; [|done]. cbn [negb].
    destruct (DecodeString (b_digest st')) eqn:Ed; [|done].
    case_bool_decide as En; [|done]. cbn [negb].
    destruct (s_files _ _ _ f) as [[]|] eqn:Ef; [|done]. intros [= <-].
    apply s_files_ok in Ef; [|done|done].
    assert (s_parsed (bundle_path n) parse_bundle f = Ok st') as Hs by (unfold s_parsed; by rewrite Er).
    apply s_parsed_Ok in Hs; [|done]. split; [by eexists|done|done|by rewrite Ed; eexists|congruence|done].
  - intros [[t ->] (raw & m & t' & Er & Ep) Hc [x Hx] En Hf]. simpl.
    rewrite (fs_readfile_file _ _ _ _ _ Er), Ep, Hc, Hx. cbn [negb].
    rewrite Eb, <- En, bool_decide_true by done. cbn [negb].
    by rewrite (proj2 (s_files_ok n _ _ f Hn ltac:(done))).
Qed.
