(* ===== verification/UpdatePrune.v ===== *)
(** * Version names and the collection of old versions

    Which names versions have for good ([lasting]: not those of directories
    under construction), that an intact version stays intact as long as the
    paths at and below its directory do ([same_version]), and [pruneVersions]:
    however it ends, only what lies below unprotected names went away. *)

From stdpp Require Import base gmap strings list fin_maps sorting.
From Stdlib Require Import ZArith NArith Ascii.
From S2P Require Import Prelude.
From S2P Require Import GoStrings.
From S2P Require Import Sha256.
From S2P Require Import Os.
From S2P Require Import AtomicFile.
From S2P Require Import Dirs.
From S2P Require Import XrayTypes.
From S2P Require Import XraySteps.
From S2P Require Import XrayPrune.
From S2P Require Import Manifest.
From S2P Require Import UpdateTypes.
From S2P Require Import XrayUpdate.
From S2P Require Import UpdateSteps.

(** ** Names that last *)

Definition temporary (n : string) : bool :=
  HasPrefix n ".xray-version-" && sforall is_digit (sdrop 14 n).

Definition lasting (n : string) : Prop := entry_name n /\ temporary n = false.

(** What follows the name of a directory in a path at or below it. *)
Definition tail_path (rest : string) : Prop := rest = "" \/ exists r, rest = String slash r.

Lemma tail_none : tail_path "".
Proof. by left. Qed.
Lemma tail_file x : tail_path ("/" +:+ x).
Proof. right. by exists x. Qed.
#[export] Hint Resolve tail_none tail_file : go.

Lemma HasPrefix_tail n rest pre : tail_path rest -> no_char slash pre ->
  HasPrefix (n +:+ rest) pre = HasPrefix n pre.
Proof.
  intros Hr. revert n. induction pre as [|c pre IH]; intros n Hp; [by destruct n, rest|].
  apply no_char_cons in Hp as [Hc Hp]. destruct n as [|c' n].
  - destruct Hr as [->|[r ->]]; [done|]. rewrite app_Empty. cbn [HasPrefix].
    by rewrite bool_decide_false.
  - rewrite app_String. cbn [HasPrefix]. by rewrite IH.
Qed.

Lemma Split_tail n rest : no_char slash n -> tail_path rest ->
  exists l, Split (n +:+ rest) slash = n :: l.
Proof.
  intros Hn [->|[r ->]].
  - exists []. by rewrite sapp_nil_r, Split_no_char.
  - eexists. by apply Split_app.
Qed.

Lemma temp_version_path n rest : no_char slash n -> tail_path rest ->
  temp_version (version_path n +:+ rest) = temporary n.
Proof.
  intros Hn Hr. unfold temp_version, temporary.
  assert (version_path n +:+ rest = "xray-runtime/versions/" +:+ (n +:+ rest)) as ->.
  { unfold version_path, versionsDirectory. by rewrite !sapp_assoc. }
  assert (forall s, HasPrefix ("xray-runtime/versions/" +:+ s) version_temp = HasPrefix s ".xray-version-") as Hh by done.
  rewrite Hh, HasPrefix_tail by done. destruct (HasPrefix n ".xray-version-") eqn:E; [|done].
  apply HasPrefix_inv in E as [r ->]. cbn [andb].
  change (sdrop 14 (".xray-version-" +:+ r)) with r.
  change (sdrop (String.length version_temp) ("xray-runtime/versions/" +:+ ((".xray-version-" +:+ r) +:+ rest)))
    with (r +:+ rest).
  apply no_char_app in Hn as [_ Hn]. destruct (Split_tail r rest Hn Hr) as [l ->]. done.
Qed.

Lemma below_scratch n rest : no_char slash n -> tail_path rest ->
  scratch (version_path n +:+ rest) = temporary n.
Proof.
  intros Hn Hr. unfold scratch. rewrite temp_version_path by done.
  unfold version_path, versionsDirectory. rewrite !sapp_assoc. reflexivity.
Qed.

Lemma lasting_scratch n rest : lasting n -> tail_path rest -> scratch (version_path n +:+ rest) = false.
Proof. intros [(Hn & _) Ht] Hr. by rewrite below_scratch. Qed.

Lemma lasting_path n : lasting n -> scratch (version_path n) = false.
Proof. intros Hn. rewrite <- (sapp_nil_r (version_path n)). apply lasting_scratch; auto with go. Qed.

(** A release directory, version and digest, is not one under construction. *)
Lemma version_digest_lasting v d :
  validateVersion v = Ok tt -> v <> ".xray-version" -> slen d = 64%N -> is_Some (DecodeString d) ->
  lasting (v +:+ "-" +:+ d).
Proof.
  intros Hv Hne Hl Hd. split; [apply version_digest_entry; [done|done|by destruct Hd; eapply DecodeString_no_slash]|].
  unfold temporary. destruct (HasPrefix _ _) eqn:E; [|done]. cbn [andb].
  apply HasPrefix_inv in E as [r E]. rewrite E. change (sdrop 14 (".xray-version-" +:+ r)) with r.
  apply not_true_iff_false. intros Hr.
  change (".xray-version-" +:+ r) with (".xray-version" +:+ ("-" +:+ r)) in E.
  destruct (decide (String.length v <= String.length ".xray-version")%nat).
  - destruct (sapp_split _ _ _ _ E) as (x & Ex & Ey); [done|].
    destruct x as [|c x]; [rewrite sapp_nil_r in Ex; by subst v|].
    rewrite !app_String, app_Empty in Ey. injection Ey as <- Ey.
    assert (x = "version") as ->.
    { clear -Ex. do 14 (destruct v as [|? v]; [rewrite app_Empty in Ex; simplify_eq; done|
        rewrite app_String in Ex; injection Ex as <- Ex || discriminate Ex]). }
    rewrite Ey in Hd. by destruct Hd as [? [=]].
  - symmetry in E. destruct (sapp_split _ _ _ _ E) as (x & -> & Ey); [lia|].
    destruct x as [|c x]; [rewrite sapp_nil_r in *; done|].
    rewrite !app_String, app_Empty in Ey. injection Ey as <- ->.
    rewrite sforall_app in Hr. apply andb_true_iff in Hr as [_ Hr]. done.
Qed.

(** ** What an intact version consists of *)

(** The same paths at and below the directory of version [n]. *)
Definition same_version (n : string) (f g : fs) : Prop :=
  forall rest, tail_path rest -> g !! (version_path n +:+ rest) = f !! (version_path n +:+ rest).

Lemma same_version_equiv n f g : lasting n -> g ≡ f -> same_version n f g.
Proof. intros Hn Hg rest Hr. apply Hg. by apply lasting_scratch. Qed.

Lemma same_version_dir n f g : same_version n f g -> g !! version_path n = f !! version_path n.
Proof. intros Hs. rewrite <- (sapp_nil_r (version_path n)). apply Hs; auto with go. Qed.

Lemma intact_same f g n st : same_version n f g -> intact f n st -> intact g n st.
Proof.
  intros Hs [[t Hd] (raw & m & t' & Hr & Hp) Hc Hx Hn Hf]. split; try done.
  - exists t. by rewrite (same_version_dir n f g).
  - exists raw, m, t'. split; [|done]. unfold bundle_path in *. rewrite Hs; [done|]. apply (tail_file "bundle.json").
  - eapply Forall_impl; [exact Hf|]. intros x [Hl (c & t2 & Hc2 & Hsz)]. split; [done|].
    exists c, t2. rewrite Hs; [done|]. auto with go.
Qed.

Lemma under_slash a n : under a (a +:+ "/" +:+ n) = Some ("/" +:+ n).
Proof. exact (under_below a n). Qed.

(** Paths outside the versions directory. *)
Lemma same_version_insert n f p x : under versionsDirectory p = None -> same_version n f (<[p := x]> f).
Proof.
  intros Hp rest _. rewrite lookup_insert_ne; [done|]. intros ->.
  unfold version_path in Hp. rewrite !sapp_assoc in Hp. by rewrite under_slash in Hp.
Qed.

Lemma same_version_delete n f p : under versionsDirectory p = None -> same_version n f (delete p f).
Proof.
  intros Hp rest _. rewrite lookup_delete_ne; [done|]. intros ->.
  unfold version_path in Hp. rewrite !sapp_assoc in Hp. by rewrite under_slash in Hp.
Qed.

Lemma under_version n n' rest : no_char slash n -> no_char slash n' -> tail_path rest ->
  is_Some (under (version_path n') (version_path n +:+ rest)) -> n = n'.
Proof.
  intros Hn Hn' Hr [r [E Hr']%under_Some]. unfold version_path in E. rewrite !sapp_assoc in E.
  apply sapp_inj_l in E. apply (sapp_inj_l "/") in E.
  destruct (Split_tail n rest Hn Hr) as [l El]. destruct (Split_tail n' r Hn' Hr') as [l' El'].
  rewrite E, El' in El. by injection El as <- _.
Qed.

(** ** What pruning may take *)

(** From [f] to [g] only paths at or below unprotected versions went away. *)
Definition pruned (P : list string) (f g : fs) : Prop :=
  forall q, g !! q = f !! q \/
    (g !! q = None /\ exists n, no_char slash n /\ n <> "" /\ n ∉ P /\ is_Some (under (version_path n) q)).

Lemma pruned_refl' P f : pruned P f f.
Proof. intros q. by left. Qed.

Lemma pruned_trans' P f g h : pruned P f g -> pruned P g h -> pruned P f h.
Proof.
  intros H1 H2 q. destruct (H1 q) as [E1|[E1 D1]], (H2 q) as [E2|[E2 D2]].
  - left. congruence.
  - right. done.
  - right. split; [congruence|done].
  - by right.
Qed.

Lemma pruned_version P f g n : pruned P f g -> n ∈ P -> no_char slash n -> same_version n f g.
Proof.
  intros Hp Hin Hn rest Hr. destruct (Hp (version_path n +:+ rest)) as [?|[_ (n' & Hn' & _ & Hni & Hu)]]; [done|].
  apply under_version in Hu; [|done..]. by subst.
Qed.

Lemma pruned_outside P f g q : pruned P f g -> (forall n, n <> "" -> under (version_path n) q = None) -> g !! q = f !! q.
Proof. intros Hp Hq. destruct (Hp q) as [?|[_ (n & _ & Hne & _ & [r Hr])]]; [done|]. by rewrite Hq in Hr. Qed.

Lemma under_trans a p n : under a p = None -> under (a +:+ "/" +:+ n) p = None.
Proof.
  intros Hu. destruct (under (a +:+ "/" +:+ n) p) as [r|] eqn:E; [|done].
  apply under_Some in E as [-> _]. rewrite !sapp_assoc in Hu.
  by rewrite under_slash in Hu.
Qed.

Lemma home_not_version d n : home d -> n <> "" -> under (version_path n) d = None.
Proof.
  intros Hd Hn. destruct (under (version_path n) d) as [r|] eqn:E; [|done].
  apply under_Some in E as [E _]. unfold version_path, versionsDirectory in E. rewrite !sapp_assoc in E.
  destruct Hd as [-> | ->]; by destruct n.
Qed.

Lemma pruned_file P f g p : pruned P f g -> p ∈ files -> g !! p = f !! p.
Proof.
  intros Hp Hin. eapply pruned_outside; [done|]. intros n _.
  apply under_trans. by apply u_files_own in Hin as (_ & _ & _ & Hu & _).
Qed.

Lemma pruned_home P f g d : pruned P f g -> home d -> g !! d = f !! d.
Proof. intros Hp Hd. eapply pruned_outside; [done|]. intros n. by apply home_not_version. Qed.

Lemma layout_pruned' P f g : pruned P f g -> layout f -> layout g.
Proof.
  intros Hp [H1 H2 H3 [H4 H5] H6]. split; unfold dir_or_none, no_link in *.
  - by rewrite (pruned_home P f g directory Hp) by by left.
  - by rewrite (pruned_home P f g versionsDirectory Hp) by by right.
  - rewrite Forall_forall in *. intros p Hin. unfold plain_file in *. rewrite (pruned_file P f g p Hp Hin). by apply H3.
  - rewrite !(pruned_file P f g) by auto with go. done.
  - intros n Hs Hn t. destruct (Hp (bundle_path n)) as [->|[-> _]]; [by apply H6|done].
Qed.

(** ** What is protected *)

Definition protects (f : fs) (P : list string) : Prop :=
  (forall q t, q = currentPath \/ q = previousPath -> f !! q = Some (NLink t) -> Base t ∈ P) /\
  (forall a, s_applied f = Ok a -> Base (a_target a) ∈ P) /\
  (forall p, s_pending f = Ok p -> Base (p_target p) ∈ P /\ (p_prev p <> "" -> Base (p_prev p) ∈ P)).

Definition collected (f g : fs) : Prop := exists P, protects f P /\ pruned P f g.

Section prune.
Context `{Env}.

Definition s_protect (path : string) (f : fs) : result (list string) :=
  match fs_readlink f path with
  | Ok target => let? _ := validateTarget target in Ok [Base target]
  | Err e => if errorsIs e SNotExist then Ok [] else Err e
  end.

Lemma u_reads_protect p : reads (protect_link p) (s_protect p).
Proof.
  apply (reads_bind (Readlink p)
    (fun r => ret (match r with
       | Ok target => let? _ := validateTarget target in Ok [Base target]
       | Err e => if errorsIs e SNotExist then Ok [] else Err e
       end)) (fun f => fs_readlink f p)
    (fun r _ => match r with
       | Ok target => let? _ := validateTarget target in Ok [Base target]
       | Err e => if errorsIs e SNotExist then Ok [] else Err e
       end)); [apply reads_sys|intros r; apply reads_ret|].
  intros e He. exists e. by rewrite He.
Qed.

Definition s_protected (f : fs) : result (list string) :=
  match s_protect currentPath f with
  | Err e => Err e
  | Ok current =>
      match s_protect previousPath f with
      | Err e => Err e
      | Ok previous =>
          match or_absent [] (fun a => Ok [Base (a_target a)]) (s_applied f) with
          | Err e => Err e
          | Ok applied =>
              or_absent (current ++ previous ++ applied)
                (fun p => Ok (current ++ previous ++ applied ++ pending_names p)) (s_pending f)
          end
      end
  end.

Lemma u_reads_protected : reads protectedNames s_protected.
Proof.
  apply (reads_try _ (fun e => e) _ (s_protect currentPath)
    (fun current f => match s_protect previousPath f with Err e => Err e | Ok previous => _ end));
    [done|apply u_reads_protect|intros current].
  apply (reads_try _ (fun e => e) _ (s_protect previousPath)
    (fun previous f => match or_absent [] (fun a => Ok [Base (a_target a)]) (s_applied f) with
                       | Err e => Err e | Ok applied => _ end));
    [done|apply u_reads_protect|intros previous].
  apply (reads_bind loadApplied _ s_applied
    (fun r f => match or_absent [] (fun a => Ok [Base (a_target a)]) r with
                | Err e => Err e | Ok applied => _ end)); [apply u_reads_loadApplied| |].
  - intros r. fold (or_absent (A := AppliedState) [] (fun a => Ok [Base (a_target a)]) r).
    destruct (or_absent [] _ r) as [applied|e]; [|apply reads_ret].
    apply (reads_bind loadPending _ s_pending
      (fun r _ => or_absent (current ++ previous ++ applied) _ r)); [apply u_reads_loadPending| |].
    + intros r'. apply reads_ret.
    + intros e He. exists e. simpl. by rewrite He.
  - intros e He. exists e. simpl. by rewrite He.
Qed.

Lemma u_protected_protects f P : s_protected f = Ok P -> protects f P.
Proof.
  unfold s_protected.
  destruct (s_protect currentPath f) as [current|] eqn:Ec; [|done].
  destruct (s_protect previousPath f) as [previous|] eqn:Ep; [|done].
  destruct (or_absent [] _ (s_applied f)) as [applied|] eqn:Ea; [|done].
  intros Hp.
  assert (current ++ previous ++ applied ⊆ P) as Hsub.
  { unfold or_absent in Hp. destruct (s_pending f) as [p|e].
    - injection Hp as <-. set_solver.
    - destruct (errorsIs e SNotExist); [|done]. by injection Hp as <-. }
  split_and!.
  - intros q t [-> | ->] Ht; unfold s_protect, fs_readlink in Ec, Ep; rewrite Ht in *.
    + apply rbind_Ok in Ec as ([] & _ & [= <-]). set_solver.
    + apply rbind_Ok in Ep as ([] & _ & [= <-]). set_solver.
  - intros a Ha. rewrite Ha in Ea. simpl in Ea. injection Ea as <-. set_solver.
  - intros p Hpd. rewrite Hpd in Hp. simpl in Hp. injection Hp as <-. unfold pending_names.
    split; [set_solver|]. intros Hne. rewrite bool_decide_false by done. set_solver.
Qed.

(** ** Removing a version directory *)

Lemma fs_remove_any f p : (fs_remove f p).1 = f \/ (fs_remove f p).1 = delete p f.
Proof. unfold fs_remove. destruct (f !! p) as [[]|]; simpl; auto. destruct (entry_names f p); auto. Qed.

(** Removals within a set of trees that is closed under them. *)
Section removing.
Context (w0 : world) (R : fs -> Prop).

Lemma wp_Remove_any p f (Q : result unit -> world -> Prop) C w :
  after w0 f w -> R f -> (forall g, R g -> R (delete p g)) ->
  (forall g w', after w0 g w' -> R g -> (~ calm w0 -> C w') /\ forall r, Q r w') -> wp (Remove p) Q C w.
Proof.
  intros Hw Hf HR HQ. apply (wp_sys _ w0 f); [done|..].
  - intros w' Hc Hw'. by apply (HQ f w').
  - intros m w' _ Hw'. by apply (HQ f).
  - intros _ _ w' Hw'. destruct (fs_remove_any f p) as [E|E]; rewrite E in Hw'; eapply HQ; eauto.
Qed.

Lemma wp_removeFiles path names f (Q : result unit -> world -> Prop) C w :
  after w0 f w -> R f -> (forall g x, R g -> x ∈ names -> R (delete (Join path x) g)) ->
  (forall g w', after w0 g w' -> R g -> (~ calm w0 -> C w') /\ forall r, Q r w') ->
  wp (removeFiles path names) Q C w.
Proof.
  intros Hw Hf HR HQ. revert f w Hw Hf. induction names as [|x names IH]; intros f w Hw Hf; cbn [removeFiles].
  { eapply wp_ret, HQ; done. }
  apply wp_bind, (wp_Remove_any _ f); [done|done|intros; apply HR; [done|by left]|].
  intros g w' Hg HRg. split; [by apply (HQ g)|]. intros r.
  assert (wp (removeFiles path names) Q C w') as Hrest.
  { apply (IH (fun g x HRg' Hin => HR g x HRg' (list_elem_of_further _ _ _ Hin)) g); done. }
  destruct r as [[]|e]; [done|]. destruct (errorsIs e SNotExist); [done|]. eapply wp_ret, HQ; done.
Qed.

Lemma wp_removeBundleDirectory path f (Q : result unit -> world -> Prop) C w :
  after w0 f w -> R f ->
  (forall g x, R g -> x ∈ requiredBundleFiles ++ ["bundle.json"] -> R (delete (Join path x) g)) ->
  (forall g, R g -> R (delete path g)) ->
  (forall g w', after w0 g w' -> R g -> (~ calm w0 -> C w') /\ forall r, Q r w') ->
  wp (removeBundleDirectory path) Q C w.
Proof.
  intros Hw Hf HR Hdir HQ. apply wp_try, (wp_removeFiles path _ f); [done|done|done|].
  intros g w' Hg HRg. split; [by apply (HQ g)|]. intros [[]|e]; [|eapply wp_ret, HQ; done].
  apply wp_bind, (wp_Remove_any _ g); [done|done|done|].
  intros h w2 Hh HRh. split; [by apply (HQ h)|]. intros r.
  destruct r as [[]|e]; [eapply wp_ret, HQ; done|]. destruct (errorsIs e SNotExist); eapply wp_ret, HQ; done.
Qed.
End removing.

Lemma u_Join_versions n : entry_name n -> Join versionsDirectory n = version_path n.
Proof. intros Hn. by apply (Join_plain [directory; "versions"]); [apply plain_versions|]. Qed.

Lemma Join_version_file n x : entry_name n -> x ∈ requiredBundleFiles ++ ["bundle.json"] ->
  Join (version_path n) x = version_path n +:+ "/" +:+ x.
Proof.
  intros Hn Hx. apply (Join_plain [directory; "versions"; n]); [by apply plain_version|].
  apply entry_file. set_solver.
Qed.

Lemma pruned_delete P f g n q : entry_name n -> n ∉ P -> is_Some (under (version_path n) q) ->
  pruned P f g -> pruned P f (delete q g).
Proof.
  intros (Hs & Hne & _) HnP Hu Hp. eapply pruned_trans'; [exact Hp|]. intros p. rewrite lookup_delete.
  case_decide as E; [|by left]. right. split; [done|]. subst p. by exists n.
Qed.

Lemma wp_removeVersion P n w0 f0 f (Q : result unit -> world -> Prop) C w :
  after w0 f w -> pruned P f0 f -> entry_name n -> n ∉ P ->
  (forall g w', after w0 g w' -> pruned P f0 g -> (~ calm w0 -> C w') /\ forall r, Q r w') ->
  wp (removeBundleDirectory (version_path n)) Q C w.
Proof.
  intros Hw Hp Hn HnP HQ. apply (wp_removeBundleDirectory w0 (pruned P f0) _ f); [done|done| | |done].
  - intros g x Hg Hx. rewrite Join_version_file by done. eapply pruned_delete; [done|done| |done].
    eexists. apply under_slash.
  - intros g Hg. eapply pruned_delete; [done|done| |done]. eexists. apply under_self.
Qed.

Lemma u_removable P idx n : removable P idx n = true -> n ∉ P.
Proof. unfold removable. intros [_ Hr]%andb_true_iff. by rewrite negb_true_iff, bool_decide_eq_false in Hr. Qed.

Lemma u_wp_removeVersions P idx vs removed w0 f0 f (Q : result bool -> world -> Prop) C w :
  after w0 f w -> pruned P f0 f -> Forall (fun v => entry_name v.1) vs ->
  (forall g w', after w0 g w' -> pruned P f0 g -> (~ calm w0 -> C w') /\ forall r, Q r w') ->
  wp (removeVersions P idx vs removed) Q C w.
Proof.
  intros Hw Hp Hvs HQ. revert idx removed f w Hw Hp.
  induction Hvs as [|v vs Hv Hvs IH]; intros idx removed f w Hw Hp; cbn [removeVersions].
  { eapply wp_ret, HQ; done. }
  destruct (removable P idx v.1) eqn:Er; [|by apply (IH _ _ f)].
  rewrite u_Join_versions by done.
  apply wp_try, (wp_removeVersion P _ w0 f0 f); [done|done|done|by eapply u_removable|].
  intros g w' Hg Hpg. split; [by apply (HQ g)|]. intros [[]|e]; [by apply (IH _ _ g)|eapply wp_ret, HQ; done].
Qed.

(** ** Which versions count *)

Lemma s_load_target t f st : s_load t f = Ok st -> UpdateTypes.validateTarget t = Ok tt.
Proof. unfold s_load. by destruct (UpdateTypes.validateTarget t) as [[]|]. Qed.

Lemma u_Join_versions_entry n :
  no_char slash n -> n <> "" -> UpdateTypes.validateTarget (Join "versions" n) = Ok tt -> entry_name n.
Proof. intros Hs Hn Ht. split_and!; [done|done|intros ->..]; vm_compute in Ht; done. Qed.

Lemma reads_verifyTarget t :
  reads (verifyTarget t) (fun f => match s_load t f with Ok _ => Ok tt | Err e => Err e end).
Proof. apply (reads_try _ (fun e => e) _ (s_load t)); [done|apply reads_load|intros; apply reads_ret]. Qed.

(** Injected failures only make [installedVersions] list fewer versions. *)
Lemma wp_installedVersions entries w0 f (Q : result (list (string * Z)) -> world -> Prop) C w :
  after w0 f w -> Forall (fun e => no_char slash e.1 /\ e.1 <> "") entries ->
  (forall w', after w0 f w' -> (~ calm w0 -> C w') /\ forall e, Q (Err e) w') ->
  (forall l w', after w0 f w' -> Forall (fun v => entry_name v.1) l -> Q (Ok l) w') ->
  wp (installedVersions entries) Q C w.
Proof.
  intros Hw He HX HQ. revert w Q Hw HX HQ. induction He as [|[n k] entries [Hs Hne] _ IH]; intros w Q Hw HX HQ;
    cbn [installedVersions].
  { eapply wp_ret, HQ; [done|constructor]. }
  simpl in Hs, Hne. destruct k; [by apply IH| |by apply IH].
  apply wp_bind, (reads_verifyTarget _ w0 f); [done|..].
  { intros w' Hc Hw'. split; [by apply HX|]. intros e _. by apply IH. }
  intros w1 Hw1. destruct (s_load (Join "versions" n) f) as [st|] eqn:El; [|by apply IH].
  assert (entry_name n) as Hn by (apply u_Join_versions_entry; [done|done|by eapply s_load_target]).
  apply wp_try, (reads_sys _ w0 f); [done|..].
  { intros w' Hc Hw'. split; [by apply HX|]. intros e _. by apply wp_ret, HX. }
  intros w2 Hw2. destruct (fs_lstat f _) as [info|]; [|by apply wp_ret, HX].
  apply wp_try, IH; [done|..].
  - intros w' Hw'. split; [by apply HX|]. intros e. by apply wp_ret, HX.
  - intros l w' Hw' Hl. apply wp_ret, HQ; [done|by constructor].
Qed.

Lemma entry_kinds_names f d : Forall (fun e => no_char slash e.1 /\ e.1 <> "") (entry_kinds f d).
Proof.
  apply Forall_forall. intros [n k]. unfold entry_kinds. intros (n' & Hin & E)%list_elem_of_omap.
  destruct (f !! _); [|done]. injection E as -> _. by eapply entry_names_entry.
Qed.

(** [pruneVersions]: however it ends, only unprotected versions went away. *)
Lemma u_pruneVersions w0 f (Q : result unit -> world -> Prop) C w :
  after w0 f w ->
  (forall g w', after w0 g w' -> g = f \/ collected f g -> (~ calm w0 -> C w') /\ forall r, Q r w') ->
  wp pruneVersions Q C w.
Proof.
  intros Hw HQ. unfold pruneVersions.
  assert (forall w', after w0 f w' -> (~ calm w0 -> C w') /\ forall r, Q r w') as HQf.
  { intros w' Hw'. apply (HQ f); [done|by left]. }
  apply wp_bind, (wp_sys_read _ w0 f); [done|intros w' Hc Hw'; by apply HQf|intros m w' Hc Hw'; by apply wp_ret, HQf|].
  intros w1 Hw1. destruct (is_dir f versionsDirectory); [|destruct (f !! versionsDirectory); by apply wp_ret, HQf].
  apply wp_try, (u_reads_protected w0 f); [done|..].
  { intros w' Hc Hw'. split; [by apply HQf|]. intros e _. by apply wp_ret, HQf. }
  intros w2 Hw2. destruct (s_protected f) as [P|e] eqn:EP; [|by apply wp_ret, HQf].
  apply u_protected_protects in EP.
  apply wp_try, (wp_installedVersions _ w0 f); [done|apply entry_kinds_names|..].
  { intros w' Hw'. split; [by apply HQf|]. intros e. by apply wp_ret, HQf. }
  intros l w3 Hw3 Hl. apply wp_try, (u_wp_removeVersions P _ _ _ w0 f f); [done|apply pruned_refl'|..].
  { by rewrite merge_sort_Permutation. }
  intros g w' Hg Hp. assert (g = f \/ collected f g) as Hcol by (right; by exists P).
  split; [by eapply HQ|]. intros [b|e]; [|by eapply wp_ret, HQ].
  destruct b; [|by eapply wp_ret, HQ].
  apply (wp_syncDirectory _ w0 g); [done|..].
  - intros w4 Hc Hw4. by eapply HQ.
  - intros r w4 Hw4 _. by eapply HQ.
Qed.
End prune.
