(* ===== verification/UpdateInv.v ===== *)
(** * The invariant of the binary store

    [stable]: nothing is pending, and either no version was ever applied or the
    applied state, the current link and the version's directory agree.
    [prog]: an update is pending, the version to fall back to is intact, and so
    is the update's own when it was already recorded as applied.  Every crash
    leaves one of the two. *)

From stdpp Require Import base gmap strings list fin_maps sorting.
From Stdlib Require Import ZArith NArith Ascii.
From S2P Require Import Prelude.
From S2P Require Import GoStrings.
From S2P Require Import Sha256.
From S2P Require Import Json.
From S2P Require Import Os.
From S2P Require Import AtomicFile.
From S2P Require Import Dirs.
From S2P Require Import XraySteps.
From S2P Require Import XrayInv.
From S2P Require Import Manifest.
From S2P Require Import UpdateTypes.
From S2P Require Import XrayUpdate.
From S2P Require Import UpdateSteps.
From S2P Require Import UpdatePrune.

(** ** States *)

(** Target [t] names version [n]. *)
Definition target_of (t n : string) : Prop := t = "versions/" +:+ n /\ lasting n.

(** Applied state [a] describes the intact version it names. *)
Definition describes (st : bundleState) (a : AppliedState) : Prop :=
  b_version st = a_version a /\ b_xray st = a_xray a /\ b_digest st = a_digest a.

Definition sound (f : fs) (a : AppliedState) : Prop :=
  validateAppliedState a = Ok tt /\
  exists n st, target_of (a_target a) n /\ intact f n st /\ describes st a.

Definition applied_is (f : fs) (a : AppliedState) : Prop :=
  holds appliedPath parse_applied f a /\ applied_ok a.
Definition pending_is (f : fs) (p : pendingState) : Prop :=
  holds pendingPath parse_pending f p /\ pending_ok p.

Definition consistent (f : fs) (a : AppliedState) : Prop :=
  applied_is f a /\ f !! currentPath = Some (NLink (a_target a)) /\ sound f a.

Definition settled (f : fs) : Prop :=
  (f !! appliedPath = None /\ f !! currentPath = None) \/ exists a, consistent f a.

Definition stable (f : fs) : Prop := layout f /\ f !! pendingPath = None /\ settled f.

(** The version a pending update falls back to. *)
Definition rollback_ok (f : fs) (p : pendingState) : Prop :=
  p_prev p = "" \/
  exists n st, target_of (p_prev p) n /\ intact f n st /\
    forall a, p_prev_applied p = Some a -> a_target a = p_prev p /\ sound f a.

Definition tracked (p : pendingState) (f : fs) : Prop :=
  f !! appliedPath = None \/
  exists a, applied_is f a /\ (matches_pending a p = true -> sound f a).

Definition prog (p : pendingState) (f : fs) : Prop :=
  layout f /\ is_dir f directory = true /\ pending_is f p /\ (exists n, target_of (p_target p) n) /\
  rollback_ok f p /\ tracked p f.

Definition safe (f : fs) : Prop := stable f \/ exists p, prog p f.

(** ** Targets *)

Lemma target_of_valid t n : target_of t n -> UpdateTypes.validateTarget t = Ok tt /\ Base t = n /\ entry_name n.
Proof.
  intros [-> [Hn _]]. pose proof (target_entry n Hn) as Ht. split_and!; [done| |done].
  change ("versions/" +:+ n) with ("versions" +:+ String slash n). by apply Base_two.
Qed.

Lemma target_of_inj t n n' : target_of t n -> target_of t n' -> n = n'.
Proof. intros [-> _] [E _]. by apply (sapp_inj_l "versions/") in E. Qed.

Lemma u_load_ok f t n st : layout f -> target_of t n -> s_load t f = Ok st <-> intact f n st.
Proof.
  intros Hl [-> Hn]. apply s_load_ok; [|apply Hn]. apply (lay_bundles f Hl); [apply Hn|].
  apply (lasting_scratch n "/bundle.json" Hn). apply (tail_file "bundle.json").
Qed.

Lemma u_verifyTarget_ok a f n : layout f -> target_of (a_target a) n ->
  s_verifyTarget a f = Ok tt <-> sound f a.
Proof.
  intros Hl Ht. unfold s_verifyTarget, sound, describes. split.
  - destruct (validateAppliedState a) as [[]|] eqn:Ev; [|done].
    destruct (s_load (a_target a) f) as [st|] eqn:El; [|done]. intros Hg%guard_err_Ok.
    rewrite !orb_false_iff, !negb_false_iff, !bool_decide_eq_true in Hg. apply (u_load_ok f _ n) in El; [|done..].
    split; [done|]. exists n, st. naive_solver.
  - intros (-> & n' & st & Ht' & Hi & H1 & H2 & H3). rewrite (proj2 (u_load_ok f _ n' st Hl Ht')) by done.
    by rewrite H1, H2, H3, !bool_decide_true.
Qed.

Lemma u_verifyApplied_ok a f n : layout f -> target_of (a_target a) n ->
  s_verifyApplied a f = Ok tt <-> f !! currentPath = Some (NLink (a_target a)) /\ sound f a.
Proof.
  intros Hl Ht. rewrite <- (u_verifyTarget_ok a f n Hl Ht). unfold s_verifyApplied, fs_readlink. split.
  - destruct (f !! currentPath) as [[]|]; try done. case_bool_decide; [by subst|done].
  - intros [-> Hv]. by rewrite bool_decide_true.
Qed.

Lemma sound_target f a : sound f a -> exists n, target_of (a_target a) n.
Proof. intros (_ & n & _ & Ht & _). by exists n. Qed.

(** ** What the predicates look at *)

Definition keeps (f g : fs) (n : string) : Prop := forall st, intact f n st -> intact g n st.

Lemma u_keeps_same f g n : same_version n f g -> keeps f g n.
Proof. intros Hs st. by apply intact_same. Qed.

Lemma u_sound_keep f g a : (forall n, target_of (a_target a) n -> keeps f g n) -> sound f a -> sound g a.
Proof. intros Hk (Hv & n & st & Ht & Hi & Hd). split; [done|]. exists n, st. split_and!; [done|by apply (Hk n Ht)|done]. Qed.

Lemma u_rollback_keep f g p : (forall n, target_of (p_prev p) n -> keeps f g n) ->
  rollback_ok f p -> rollback_ok g p.
Proof.
  intros Hk [?|(n & st & Ht & Hi & Ha)]; [by left|right]. exists n, st. split_and!; [done|by apply (Hk n Ht)|].
  intros a E. destruct (Ha a E) as [Et Hs]. split; [done|]. eapply u_sound_keep; [|done]. by rewrite Et.
Qed.

Lemma tracked_keep p f g : g !! appliedPath = f !! appliedPath ->
  (forall n, target_of (p_target p) n -> keeps f g n) -> tracked p f -> tracked p g.
Proof.
  intros Ea Hk [?|(a & [Ha Hok] & Hm)]; [left; congruence|right]. exists a.
  split; [split; [by eapply holds_same|done]|]. intros E. eapply u_sound_keep; [|by apply Hm].
  unfold matches_pending in E. rewrite !andb_true_iff, !bool_decide_eq_true in E.
  destruct E as [[[E _] _] _]. by rewrite E.
Qed.

Lemma u_prog_same p f g :
  prog p f -> layout g -> is_dir g directory = true ->
  (forall n, target_of (p_prev p) n \/ target_of (p_target p) n -> keeps f g n) ->
  g !! pendingPath = f !! pendingPath -> g !! appliedPath = f !! appliedPath \/ tracked p g ->
  prog p g.
Proof.
  intros (Hl & Hd & [Hp Hpo] & Ht & Hr & Htr) Hlg Hdg Hs Ep Ea. split_and!; try done.
  - split; [by eapply holds_same|done].
  - eapply u_rollback_keep; [|done]. auto.
  - destruct Ea as [Ea|?]; [|done]. eapply tracked_keep; [done| |done]. auto.
Qed.

Lemma u_stable_same f g :
  stable f -> layout g ->
  (forall a n, applied_is f a -> target_of (a_target a) n -> keeps f g n) ->
  g !! pendingPath = f !! pendingPath -> g !! appliedPath = f !! appliedPath ->
  g !! currentPath = f !! currentPath -> stable g.
Proof.
  intros (Hl & Hp & Hs) Hlg Hv Ep Ea Ec. split_and!; [done|congruence|].
  destruct Hs as [[? ?]|(a & [Ha Hok] & Hc & Hsd)]; [left; split; congruence|right].
  exists a. split; [split; [by eapply holds_same|done]|]. split; [congruence|].
  eapply u_sound_keep; [|done]. intros n. by apply Hv.
Qed.

Lemma consistent_same f g a : consistent f a ->
  (forall n, target_of (a_target a) n -> keeps f g n) ->
  g !! appliedPath = f !! appliedPath -> g !! currentPath = f !! currentPath -> consistent g a.
Proof.
  intros ([Ha Hok] & Hc & Hs) Hk Ea Ec. split; [split; [by eapply holds_same|done]|].
  split; [congruence|by eapply u_sound_keep].
Qed.

(** ** Up to scratch *)

Lemma keeps_equiv f g t n : g ≡ f -> target_of t n -> keeps f g n.
Proof. intros Hg [_ Hn]. by apply u_keeps_same, same_version_equiv. Qed.

Lemma u_consistent_equiv f g a : g ≡ f -> consistent f a -> consistent g a.
Proof.
  intros Hg Hc. eapply consistent_same; [done| |by apply Hg|by apply Hg]. intros n. by eapply keeps_equiv.
Qed.

Lemma u_prog_equiv p f g : g ≡ f -> prog p f -> prog p g.
Proof.
  intros Hg Hp. pose proof Hp as (Hl & Hd & _). apply (u_prog_same p f); try done.
  - by rewrite Hg.
  - by rewrite (is_dir_equiv _ _ _ Hg).
  - intros n [Ht|Ht]; by eapply keeps_equiv.
  - by apply Hg.
  - left. by apply Hg.
Qed.

Lemma u_stable_equiv f g : g ≡ f -> stable f -> stable g.
Proof.
  intros Hg Hs. apply (u_stable_same f); try done.
  - rewrite Hg. apply Hs.
  - intros a n _. by eapply keeps_equiv.
  - by apply Hg.
  - by apply Hg.
  - by apply Hg.
Qed.

Lemma u_safe_equiv f g : g ≡ f -> safe f -> safe g.
Proof.
  intros Hg [Hs|[p Hp]]; [left; by eapply u_stable_equiv|right; exists p; by eapply u_prog_equiv].
Qed.

#[export] Instance u_stable_proper : Proper ((≡) ==> iff) stable.
Proof. intros f g Hfg. split; apply u_stable_equiv; [by symmetry|done]. Qed.
#[export] Instance u_prog_proper p : Proper ((≡) ==> iff) (prog p).
Proof. intros f g Hfg. split; apply u_prog_equiv; [by symmetry|done]. Qed.
#[export] Instance u_safe_proper : Proper ((≡) ==> iff) safe.
Proof. intros f g Hfg. split; apply u_safe_equiv; [by symmetry|done]. Qed.

(** ** The updates of the manager *)

Lemma file_under p : p ∈ files -> under versionsDirectory p = None.
Proof. by intros (_ & _ & _ & ? & _)%u_files_own. Qed.

Lemma keeps_insert f p x n : p ∈ files -> keeps f (<[p := x]> f) n.
Proof. intros Hp. by apply u_keeps_same, same_version_insert, file_under. Qed.

Lemma keeps_delete f p n : p ∈ files -> keeps f (delete p f) n.
Proof. intros Hp. by apply u_keeps_same, same_version_delete, file_under. Qed.

Lemma u_is_dir_write f p x d : layout f -> p ∈ files -> is_dir f d = true -> is_dir (<[p := x]> f) d = true.
Proof. intros Hl Hp Hd. apply is_dir_insert; [by apply u_layout_plain|done]. Qed.

Lemma u_is_dir_remove f p d : layout f -> p ∈ files -> is_dir f d = true -> is_dir (delete p f) d = true.
Proof. intros Hl Hp Hd. apply is_dir_delete; [by apply u_layout_plain|done]. Qed.

Lemma layout_file' f p c m t : layout f -> p ∈ files -> layout (<[p := NFile c m t]> f).
Proof. intros Hl Hp. by apply u_layout_update. Qed.

(** An update of one of the files that the proposition does not look at. *)
Lemma prog_insert p f q x :
  prog p f -> q ∈ files -> q <> pendingPath -> (forall m t, x <> NDir m t) ->
  (q = appliedPath -> (forall t, x <> NLink t) /\ tracked p (<[q := x]> f)) ->
  prog p (<[q := x]> f).
Proof.
  intros Hp Hq Hne Hx Ha. pose proof Hp as (Hl & Hd & _). apply (u_prog_same p f); try done.
  - apply u_layout_update; [done|done|done|]. intros [E|E]; [by apply Ha|done].
  - by apply u_is_dir_write.
  - intros n _. by apply keeps_insert.
  - by rewrite lookup_insert_ne.
  - destruct (decide (q = appliedPath)) as [E|E]; [right; by apply Ha|left]. by rewrite lookup_insert_ne.
Qed.

Lemma prog_delete p f q : prog p f -> q ∈ files -> q <> pendingPath -> prog p (delete q f).
Proof.
  intros Hp Hq Hne. pose proof Hp as (Hl & Hd & _). apply (u_prog_same p f); try done.
  - by apply u_layout_delete.
  - by apply u_is_dir_remove.
  - intros n _. by apply keeps_delete.
  - by rewrite lookup_delete_ne.
  - destruct (decide (q = appliedPath)) as [->|E]; [right; left; apply lookup_delete_eq|left]. by rewrite lookup_delete_ne.
Qed.

Lemma u_prog_link p f q t : prog p f -> q = currentPath \/ q = previousPath -> prog p (<[q := NLink t]> f).
Proof.
  intros Hp Hq. apply prog_insert; [done|destruct Hq as [-> | ->]; auto with go|..]; try done; by destruct Hq as [-> | ->].
Qed.

Lemma prog_failed p f c m t : prog p f -> prog p (<[failedPath := NFile c m t]> f).
Proof. intros Hp. by apply prog_insert; auto with go. Qed.

Lemma u_applied_write f a m t : applied_ok a ->
  applied_is (<[appliedPath := NFile (encode_applied a) m t]> f) a.
Proof.
  intros Ha. split; [|done]. exists (encode_applied a), m, t.
  rewrite lookup_insert_eq. split; [done|by apply u_parse_encode_applied].
Qed.

Lemma u_prog_applied p f a m t :
  prog p f -> applied_ok a -> sound f a -> prog p (<[appliedPath := NFile (encode_applied a) m t]> f).
Proof.
  intros Hp Ha Hs. apply prog_insert; [done|auto with go|done|done|]. intros _. split; [done|].
  right. exists a. split; [by apply u_applied_write|]. intros _.
  eapply u_sound_keep; [|exact Hs]. intros n _. apply keeps_insert; auto with go.
Qed.

Lemma consistent_insert f a q x : consistent f a -> q ∈ files -> q <> appliedPath -> q <> currentPath ->
  consistent (<[q := x]> f) a.
Proof.
  intros Hc Hq H1 H2. eapply consistent_same; [done| |by rewrite lookup_insert_ne..].
  intros n _. by apply keeps_insert.
Qed.

Lemma u_consistent_delete f a q : consistent f a -> q ∈ files -> q <> appliedPath -> q <> currentPath ->
  consistent (delete q f) a.
Proof.
  intros Hc Hq H1 H2. eapply consistent_same; [done| |by rewrite lookup_delete_ne..].
  intros n _. by apply keeps_delete.
Qed.

(** Forgetting the intention, once the store is settled. *)
Lemma u_prog_done p f : prog p f -> settled f -> stable (delete pendingPath f).
Proof.
  intros (Hl & _) Hs. split_and!; [apply u_layout_delete; auto with go|apply lookup_delete_eq|].
  destruct Hs as [[H1 H2]|[a Ha]]; [left; by rewrite !lookup_delete_ne|right; exists a].
  apply u_consistent_delete; auto with go.
Qed.

Lemma u_stable_no_pending f : stable f -> stable (delete pendingPath f).
Proof. intros Hs. rewrite delete_id; [done|]. apply Hs. Qed.

Lemma u_stable_no_failed f : stable f -> stable (delete failedPath f).
Proof.
  intros Hs. pose proof Hs as (Hl & _). apply (u_stable_same f); try done.
  - apply u_layout_delete; auto with go.
  - intros a n _ _. apply keeps_delete; auto with go.
  - by rewrite lookup_delete_ne.
  - by rewrite lookup_delete_ne.
  - by rewrite lookup_delete_ne.
Qed.

Lemma stable_failed f c m t : stable f -> stable (<[failedPath := NFile c m t]> f).
Proof.
  intros Hs. pose proof Hs as (Hl & _). apply (u_stable_same f); try done.
  - apply layout_file'; auto with go.
  - intros a n _ _. apply keeps_insert; auto with go.
  - by rewrite lookup_insert_ne.
  - by rewrite lookup_insert_ne.
  - by rewrite lookup_insert_ne.
Qed.

Lemma safe_failed f c m t : safe f -> safe (<[failedPath := NFile c m t]> f).
Proof. intros [?|[p ?]]; [left; by apply stable_failed|right; exists p; by apply prog_failed]. Qed.

Lemma u_safe_layout f : safe f -> layout f.
Proof. intros [[? _]|[p [? _]]]; done. Qed.

(** Recording the intention. *)
Lemma u_stable_begin f p m t :
  stable f -> is_dir f directory = true -> pending_ok p -> (exists n, target_of (p_target p) n) ->
  rollback_ok f p -> prog p (<[pendingPath := NFile (encode_pending p) m t]> f).
Proof.
  intros (Hl & _ & Hs) Hd Hp Ht Hr. split_and!; try done.
  - apply layout_file'; auto with go.
  - apply u_is_dir_write; auto with go.
  - split; [|done]. exists (encode_pending p), m, t. rewrite lookup_insert_eq.
    split; [done|by apply u_parse_encode_pending].
  - eapply u_rollback_keep; [|done]. intros n _. apply keeps_insert; auto with go.
  - destruct Hs as [[Ha _]|(a & Hc)]; [left; by rewrite lookup_insert_ne|right; exists a].
    assert (consistent (<[pendingPath := NFile (encode_pending p) m t]> f) a) as (? & _ & ?); [|done].
    apply consistent_insert; auto with go.
Qed.

(** Making the directories. *)
Lemma u_home_lookup d f g q : home d -> dir_step d f g -> q ∈ files -> g !! q = f !! q.
Proof.
  intros Hd [->|(m & t & ->)] Hq; [done|]. rewrite lookup_insert_ne; [done|]. by apply home_not.
Qed.

Lemma same_mkdir d f g n : home d -> dir_step d f g -> lasting n -> same_version n f g.
Proof.
  intros Hd Hs [(_ & Hne & _) _] rest _.
  destruct Hs as [->|(m & t' & ->)]; [done|]. rewrite lookup_insert_ne; [done|].
  unfold version_path, versionsDirectory. rewrite !sapp_assoc. destruct Hd as [-> | ->]; by destruct n.
Qed.

Lemma keeps_mkdir d f g t n : home d -> dir_step d f g -> target_of t n -> keeps f g n.
Proof. intros Hd Hs [_ Hn]. by eapply u_keeps_same, same_mkdir. Qed.

Lemma u_stable_mkdir d f g : stable f -> home d -> dir_step d f g -> stable g.
Proof.
  intros Hs Hd Hst. pose proof Hs as (Hl & _). apply (u_stable_same f); try done.
  - by eapply u_layout_mkdir.
  - intros a n _. by eapply keeps_mkdir.
  - eapply u_home_lookup; [done|done|auto with go].
  - eapply u_home_lookup; [done|done|auto with go].
  - eapply u_home_lookup; [done|done|auto with go].
Qed.

Lemma u_prog_mkdir p d f g : prog p f -> home d -> dir_step d f g -> prog p g.
Proof.
  intros Hs Hd Hst. pose proof Hs as (Hl & Hdd & _). apply (u_prog_same p f); try done.
  - by eapply u_layout_mkdir.
  - by eapply is_dir_mkdir.
  - intros n [Ht|Ht]; by eapply keeps_mkdir.
  - eapply u_home_lookup; [done|done|auto with go].
  - left. eapply u_home_lookup; [done|done|auto with go].
Qed.

Lemma safe_mkdir d f g : safe f -> home d -> dir_step d f g -> safe g.
Proof.
  intros [Hs|[p Hp]] Hd Hst; [left; by eapply u_stable_mkdir|right; exists p; by eapply u_prog_mkdir].
Qed.

(** Collecting old versions. *)
Lemma u_holds_applied f a : layout f -> applied_is f a -> s_applied f = Ok a.
Proof. intros [_ _ _ [Hn _] _] [Ha _]. by apply s_parsed_Ok. Qed.

Lemma u_holds_pending f p : layout f -> pending_is f p -> s_pending f = Ok p.
Proof. intros [_ _ _ [_ Hn] _] [Ha _]. by apply s_parsed_Ok. Qed.

Lemma u_collected_keep P f g t n : pruned P f g -> Base t ∈ P -> target_of t n -> keeps f g n.
Proof.
  intros Hp Hin Ht. pose proof (target_of_valid t n Ht) as (_ & Hb & (Hs & _)). rewrite Hb in Hin.
  apply u_keeps_same. by eapply pruned_version.
Qed.

Lemma u_stable_collected f g : stable f -> collected f g -> stable g.
Proof.
  intros Hs (P & (H1 & H2 & H3) & Hp). pose proof Hs as (Hl & _). apply (u_stable_same f); try done.
  - by eapply layout_pruned'.
  - intros a n Ha Ht. eapply u_collected_keep; [done| |done]. apply H2. by apply u_holds_applied.
  - eapply pruned_file; [done|auto with go].
  - eapply pruned_file; [done|auto with go].
  - eapply pruned_file; [done|auto with go].
Qed.

Lemma collected_dir f g d : collected f g -> home d -> is_dir f d = true -> is_dir g d = true.
Proof. intros (P & _ & Hp) Hd. unfold is_dir. by rewrite (pruned_home P f g d). Qed.

Lemma collected_consistent f g a : layout f -> collected f g -> consistent f a -> consistent g a.
Proof.
  intros Hl (P & (_ & H2 & _) & Hp) Hc. eapply consistent_same; [done| |eapply pruned_file; [done|auto with go]..].
  intros n Ht. eapply u_collected_keep; [done| |done]. apply H2. apply u_holds_applied; [done|]. by destruct Hc.
Qed.
