(* ===== verification/UpdateRecover.v ===== *)
(** * Rollback and recovery of the binary store

    [rollback], [rollbackResult] and [Recover] of XrayUpdate: under any failures
    they end in a [safe] store; a rollback that succeeds leaves a [stable] one
    with the previous version current, and without failures it succeeds. *)

From stdpp Require Import base gmap strings list fin_maps sorting.
From Stdlib Require Import ZArith NArith Ascii.
From S2P Require Import Prelude.
From S2P Require Import GoStrings.
From S2P Require Import Os.
From S2P Require Import AtomicFile.
From S2P Require Import Dirs.
From S2P Require Import XrayRuntime.
From S2P Require Import XraySteps.
From S2P Require Import XrayInv.
From S2P Require Import XrayRecover.
From S2P Require Import Manifest.
From S2P Require Import UpdateTypes.
From S2P Require Import XrayUpdate.
From S2P Require Import UpdateSteps.
From S2P Require Import UpdatePrune.
From S2P Require Import UpdateInv.

(** ** The temporary names of the current link *)

Definition stamp (z : Z) : string := currentPath +:+ ".tmp-" +:+ FormatInt z.

Definition fresh_same (f g : fs) : Prop := forall z, g !! stamp z = f !! stamp z.

Lemma fresh_refl f : fresh_same f f.
Proof. done. Qed.

Lemma fresh_trans f g h : fresh_same f g -> fresh_same g h -> fresh_same f h.
Proof. intros H1 H2 z. by rewrite H2. Qed.

Lemma stamp_scratch z : scratch (stamp z) = true.
Proof. reflexivity. Qed.

Lemma fresh_insert f p x : (forall z, p <> stamp z) -> fresh_same f (<[p := x]> f).
Proof. intros Hp z. rewrite lookup_insert_ne; [done|apply Hp]. Qed.

Lemma fresh_delete f p : (forall z, p <> stamp z) -> fresh_same f (delete p f).
Proof. intros Hp z. rewrite lookup_delete_ne; [done|apply Hp]. Qed.

Lemma not_stamp p : scratch p = false -> forall z, p <> stamp z.
Proof. intros Hp z ->. by rewrite stamp_scratch in Hp. Qed.

Lemma file_not_stamp p : p ∈ files -> forall z, p <> stamp z.
Proof. intros Hp. apply not_stamp. by apply u_files_own in Hp as (? & _). Qed.

Lemma fresh_ctl f g : eq_off ctl_scratch g f -> fresh_same f g.
Proof. intros Hg z. by apply Hg. Qed.

Lemma fresh_link `{Env} w f g : fresh_same f g -> link_fresh w currentPath f -> link_fresh w currentPath g.
Proof. intros Hg Hf n Hn. rewrite <- (Hf n Hn). apply Hg. Qed.

(** ** What Xray runs *)

Lemma follows_same f g r : g !! XrayRuntime.currentPath = f !! XrayRuntime.currentPath ->
  follows f r -> follows g r.
Proof. intros E Hf t. rewrite E. apply Hf. Qed.

Lemma file_not_config p : p ∈ files -> p <> XrayRuntime.currentPath.
Proof. by intros (_ & _ & _ & _ & n & -> & _)%u_files_own. Qed.

(** With a configuration applied, Xray runs it. *)
Definition serving (conf : string) (g : fs) (w : world) : Prop := conf <> "" -> follows g (w_run w).

Lemma serving_insert conf f p x w w' : p ∈ files -> w_run w' = w_run w ->
  serving conf f w -> serving conf (<[p := x]> f) w'.
Proof.
  intros Hp Er Hs Hc. rewrite Er. eapply follows_same; [|by apply Hs].
  apply lookup_insert_ne. by apply file_not_config.
Qed.

Lemma serving_delete conf f p w w' : p ∈ files -> w_run w' = w_run w ->
  serving conf f w -> serving conf (delete p f) w'.
Proof.
  intros Hp Er Hs Hc. rewrite Er. eapply follows_same; [|by apply Hs].
  apply lookup_delete_ne. by apply file_not_config.
Qed.

Lemma serving_equiv conf f g w w' : g ≡ f -> w_run w' = w_run w -> serving conf f w -> serving conf g w'.
Proof. intros Hg Er Hs Hc. rewrite Er. eapply follows_same; [|by apply Hs]. by apply Hg. Qed.

Section recover.
Context `{Env} `{Controller} `{!ControllerLaws} `{!ClockOk}.

(** ** The controller *)

Lemma u_Stop w0 f (Q : result unit -> world -> Prop) C w :
  since w0 f w ->
  (forall g w', ~ calm w0 -> since w0 g w' -> g ≡ f -> C w') ->
  (forall e g w', ~ (calm w0 /\ controller_live) -> since w0 g w' -> g ≡ f -> Q (Err e) w') ->
  (forall g w', since w0 g w' -> g ≡ f -> fresh_same f g -> Q (Ok tt) w') ->
  wp StopAndWait Q C w.
Proof.
  intros Hw HC HE HQ. unfold wp. pose proof (stop_law w) as Hl.
  destruct (StopAndWait w) as [w' [[[]|e]|]] eqn:E.
  - destruct Hl as [[Hl Hpc] _]. destruct Hw as [Hw Hpc']. rewrite Hw in Hl.
    apply (HQ (w_fs w')); [split; [done|lia]|by apply ctl_equiv|by apply fresh_ctl].
  - destruct (since_step _ _ _ _ Hw Hl) as (g & Hg & Hgf). eapply HE; [|done|done].
    intros [Hc Hlive]. destruct (Hlive w) as [_ [w2 E2]]; [by eapply calm_since|congruence].
  - destruct Hl as [Hl Hn]. destruct (since_step _ _ _ _ Hw Hl) as (g & Hg & Hgf).
    eapply HC; [|done|done]. exact (since_calm _ _ _ Hw Hn).
Qed.

(** ** What a pending update says *)

Lemma u_prog_dir p f : prog p f -> is_dir f directory = true.
Proof. intros (_ & ? & _). done. Qed.
Lemma u_prog_layout p f : prog p f -> layout f.
Proof. intros (? & _). done. Qed.
Lemma u_prog_safe p f : prog p f -> safe f.
Proof. intros. right. by exists p. Qed.

Lemma prog_target p f : prog p f -> UpdateTypes.validateTarget (p_target p) = Ok tt.
Proof. intros (_ & _ & _ & [n Ht] & _). by apply (target_of_valid _ n). Qed.

Lemma prog_prev p f : prog p f -> p_prev p <> "" -> UpdateTypes.validateTarget (p_prev p) = Ok tt.
Proof. intros (_ & _ & _ & _ & [?|(n & _ & Ht & _)] & _) Hne; [done|]. by apply (target_of_valid _ n). Qed.

Lemma u_tracked_applied p f : prog p f ->
  match s_applied f with
  | Ok a => applied_is f a /\ (matches_pending a p = true -> sound f a)
  | Err e => errorsIs e SNotExist = true
  end.
Proof.
  intros (Hl & _ & _ & _ & _ & [Ha|(a & Ha & Hm)]).
  - unfold s_applied. by rewrite (s_parsed_None _ _ f).
  - by rewrite (u_holds_applied f a).
Qed.

Lemma matches_target a p n : matches_pending a p = true -> target_of (p_target p) n -> target_of (a_target a) n.
Proof.
  unfold matches_pending. rewrite !andb_true_iff, !bool_decide_eq_true. by intros [[[-> _] _] _].
Qed.

Lemma u_rollback_state p f : prog p f -> p_prev p <> "" ->
  exists a, s_rollback p f = Ok a /\ (a_target a = p_prev p /\ forall a0, p_prev_applied p = Some a0 -> a = a0) /\
    sound f a /\ applied_ok a.
Proof.
  intros (Hl & _ & [_ Hok] & _ & Hr & _) Hne.
  destruct Hr as [?|(n & st & Ht & Hi & Ha)]; [done|].
  destruct Hok as (Hz & _ & _ & _ & Htp & _ & _ & Hpa).
  unfold s_rollback. destruct (p_prev_applied p) as [a|].
  - destruct (Ha a eq_refl) as [Et Hs]. exists a. rewrite Et, bool_decide_true by done. cbn [negb].
    rewrite (proj2 (u_verifyTarget_ok a f n Hl ltac:(by rewrite Et))) by done.
    split_and!; [done|done|congruence|done|apply Hpa..].
  - rewrite (proj2 (u_load_ok f _ n st Hl Ht)) by done. eexists. split; [reflexivity|]. split; [done|].
    set (a := MkApplied _ _ _ _ _).
    assert (validateAppliedState a = Ok tt) as Hval.
    { apply validateApplied_ok. destruct Hi as [_ _ Hc Hx _ _]. unfold bundleComplete in Hc.
      rewrite !andb_true_iff, !is_ok_unit in Hc. destruct Hc as [[[Hv Hxv] Hd] _].
      unfold digest_len in Hd. apply bool_decide_eq_true in Hd.
      split; [done|done|done|done|by apply (target_of_valid _ n)]. }
    split; [|by split_and!]. split; [done|]. exists n, st. by split_and!.
Qed.

(** ** The steps of a rollback *)

Section steps.
Context (w0 : world) (f0 : fs) (p : pendingState).

(** Nothing fails from now on. *)
Definition live : Prop := calm w0 /\ controller_live /\ link_fresh w0 currentPath f0.

Definition crash_prog (C : world -> Prop) : Prop :=
  forall g w', ~ calm w0 -> since w0 g w' -> prog p g -> C w'.
Definition error_prog {A} (Q : result A -> world -> Prop) : Prop :=
  forall e g w', ~ live -> since w0 g w' -> prog p g -> Q (Err e) w'.

Lemma not_live_calm : ~ calm w0 -> ~ live.
Proof. by intros Hc [? _]. Qed.

Lemma not_live_fresh f : fresh_same f0 f -> ~ (calm w0 /\ link_fresh w0 currentPath f) -> ~ live.
Proof. intros Hf Hn (Hc & _ & Hl). apply Hn. split; [done|by eapply fresh_link]. Qed.

Lemma not_live_ctl : ~ (calm w0 /\ controller_live) -> ~ live.
Proof. intros Hn (Hc & Hl & _). by apply Hn. Qed.

(** Pointing the current link somewhere valid. *)
Lemma wp_select target f (Q : result unit -> world -> Prop) C w :
  since w0 f w -> prog p f -> fresh_same f0 f -> UpdateTypes.validateTarget target = Ok tt ->
  crash_prog C -> error_prog Q ->
  (forall w', onward w0 w (<[currentPath := NLink target]> f) w' ->
     prog p (<[currentPath := NLink target]> f) -> fresh_same f0 (<[currentPath := NLink target]> f) -> Q (Ok tt) w') ->
  wp (XrayUpdate.atomicSymlink target currentPath) Q C w.
Proof.
  intros Hw Hp Hf Hv HC HE HQ.
  apply (u_symlink _ _ w0 f); [done|done|by left|by eapply u_prog_layout|by eapply u_prog_dir|..].
  - intros g w' Hn [Hg _] Hcase.
    assert (prog p g) as Hpg by (destruct Hcase as [->| ->]; [done|apply u_prog_link; auto]).
    split; [intros Hc; by eapply HC|]. intros e. eapply HE; [|done|done]. by eapply not_live_fresh.
  - intros w' Hw'. apply HQ; [done|apply u_prog_link; auto|].
    eapply fresh_trans; [exact Hf|]. apply fresh_insert, file_not_stamp; auto with go.
Qed.

Lemma wp_prepareController f (Q : result unit -> world -> Prop) C w :
  since w0 f w -> prog p f -> fresh_same f0 f -> crash_prog C -> error_prog Q ->
  (forall g w', since w0 g w' -> prog p g -> fresh_same f0 g -> Q (Ok tt) w') ->
  wp (prepareRollbackController p) Q C w.
Proof.
  intros Hw Hp Hf HC HE HQ.
  apply wp_bind, (s_reads _ _ w0 f _ _ _ u_reads_loadApplied Hw).
  { intros w' Hc [Hw' _]. split; [by eapply HC|]. intros e He. rewrite He.
    eapply wp_ret, HE; [by apply not_live_calm|done|done]. }
  intros w1 [Hw1 _]. pose proof (u_tracked_applied p f Hp) as Ht.
  destruct (s_applied f) as [a|e]; [|rewrite Ht; by eapply wp_ret, HQ].
  destruct Ht as [Ha Hs]. destruct (matches_pending a p) eqn:Em; cbn [negb]; [|by eapply wp_ret, HQ].
  specialize (Hs eq_refl).
  apply wp_bind, (s_reads _ _ w0 f _ _ _ (reads_sys (fun f => fs_lstat f currentPath)) Hw1).
  { intros w' Hc [Hw' _]. split; [by eapply HC|]. intros e He. rewrite He.
    eapply wp_ret, HE; [by apply not_live_calm|done|done]. }
  intros w2 [Hw2 _]. unfold fs_lstat. destruct (f !! currentPath); [by eapply wp_ret, HQ|]. simpl.
  apply wp_try, (s_reads _ _ w0 f _ _ _ (u_reads_verifyAppliedTarget a) Hw2).
  { intros w' Hc [Hw' _]. split; [by eapply HC|]. intros e _.
    eapply wp_ret, HE; [by apply not_live_calm|done|done]. }
  intros w3 [Hw3 _]. pose proof Hp as (Hl & _ & _ & [n Ht] & _).
  rewrite (proj2 (u_verifyTarget_ok a f n Hl (matches_target _ _ _ Em Ht))) by done.
  apply (wp_select _ f); [done|done|done|by eapply prog_target|done|done|].
  intros w' [Hw' _] Hp' Hf'. by eapply HQ.
Qed.

Lemma wp_stopForRollback f (Q : result unit -> world -> Prop) C w :
  since w0 f w -> prog p f -> fresh_same f0 f -> crash_prog C -> error_prog Q ->
  (forall g w', since w0 g w' -> prog p g -> fresh_same f0 g -> Q (Ok tt) w') ->
  wp (stopForRollback p) Q C w.
Proof.
  intros Hw Hp Hf HC HE HQ. apply wp_try, (wp_prepareController f); [done|done|done|done|..].
  { intros e g w' Hn Hg Hpg. by eapply wp_ret, HE. }
  intros g w1 Hw1 Hp1 Hf1. apply wp_try, (u_Stop w0 g); [done|..].
  - intros g' w' Hc Hg' Hgf. eapply HC; [done|done|by rewrite Hgf].
  - intros e g' w' Hc Hg' Hgf. eapply wp_ret, HE; [by apply not_live_ctl|done|by rewrite Hgf].
  - intros g' w' Hg' Hgf Hfr. eapply wp_ret, HQ; [done|by rewrite Hgf|by eapply fresh_trans].
Qed.

Lemma wp_remove q f (Q : result unit -> world -> Prop) C w :
  since w0 f w -> prog p f -> q ∈ files -> q <> pendingPath -> crash_prog C -> error_prog Q ->
  (forall w', onward w0 w (delete q f) w' -> prog p (delete q f) -> Q (Ok tt) w') ->
  wp (XrayUpdate.removeAndSync q) Q C w.
Proof.
  intros Hw Hp Hq Hne HC HE HQ.
  apply (u_remove q w0 f); [done|done|by eapply u_prog_layout|by eapply u_prog_dir|..].
  - intros g w' Hc [Hg _] Hcase.
    assert (prog p g) as Hpg by (destruct Hcase as [->| ->]; [done|by apply prog_delete]).
    split; [by eapply HC|]. intros e. eapply HE; [by apply not_live_calm|done|done].
  - intros w' Hw'. apply HQ; [done|by apply prog_delete].
Qed.

Lemma u_rollbackInitial f (Q : result unit -> world -> Prop) C w :
  since w0 f w -> prog p f -> crash_prog C -> error_prog Q ->
  (forall g w', since w0 g w' -> prog p g -> g !! appliedPath = None -> g !! currentPath = None -> Q (Ok tt) w') ->
  wp XrayUpdate.rollbackInitial Q C w.
Proof.
  intros Hw Hp HC HE HQ. apply wp_try, (wp_remove currentPath f); [done|done|auto with go|done|done|..].
  { intros e g w' Hn Hg Hpg. by eapply wp_ret, HE. }
  intros w1 [Hw1 _] Hp1. apply wp_try, (wp_remove appliedPath (delete currentPath f)); [done|done|auto with go|done|done|..].
  { intros e g w' Hn Hg Hpg. by eapply wp_ret, HE. }
  intros w2 [Hw2 _] Hp2. eapply wp_ret, HQ; [done|done|apply lookup_delete_eq|].
  rewrite lookup_delete_ne by done. apply lookup_delete_eq.
Qed.

Lemma u_rollbackPrevious f (Q : result unit -> world -> Prop) C w :
  since w0 f w -> prog p f -> fresh_same f0 f -> p_prev p <> "" -> crash_prog C -> error_prog Q ->
  (forall a g w', since w0 g w' -> prog p g -> consistent g a ->
     a_target a = p_prev p /\ (forall a0, p_prev_applied p = Some a0 -> a = a0) -> Q (Ok tt) w') ->
  wp (XrayUpdate.rollbackPrevious p) Q C w.
Proof.
  intros Hw Hp Hf Hne HC HE HQ.
  destruct (u_rollback_state p f Hp Hne) as (a & Ea & Hat & Hs & Hok). pose proof Hat as [Eat _].
  apply wp_try, (s_reads _ _ w0 f _ _ _ (u_reads_rollback p) Hw).
  { intros w' Hc [Hw' _]. split; [by eapply HC|]. intros e _.
    apply wp_bind, (wp_remove currentPath f); [done|done|auto with go|done|done|..].
    - intros e' g w2 Hn Hg Hpg. by eapply wp_ret, HE.
    - intros w2 [Hw2 _] Hp2. eapply wp_ret, HE; [by apply not_live_calm|done|done]. }
  intros w1 [Hw1 _]. rewrite Ea.
  apply wp_try, (wp_select _ f); [done|done|done|by eapply prog_prev|done|..].
  { intros e g w' Hn Hg Hpg. by eapply wp_ret, HE. }
  intros w2 [Hw2 _] Hp2 _. set (f1 := <[currentPath := _]> f) in *.
  assert (sound f1 a) as Hs1.
  { eapply u_sound_keep; [|exact Hs]. intros n _. apply keeps_insert; auto with go. }
  apply wp_try. unfold XrayUpdate.persistState.
  apply (u_write appliedPath _ w0 f1); [done|auto with go|by eapply u_prog_layout|by eapply u_prog_dir|..].
  { intros g w' Hc [Hg _] Hcase.
    assert (prog p g) as Hpg by (destruct Hcase as [->|[t ->]]; [done|by apply u_prog_applied]).
    split; [by eapply HC|]. intros e. eapply wp_ret, HE; [by apply not_live_calm|done|done]. }
  intros g t w3 [Hw3 _] Hg. eapply wp_ret, (HQ a g); [done|rewrite Hg; by apply u_prog_applied| |done].
  eapply u_consistent_equiv; [exact Hg|]. split; [by apply u_applied_write|]. split.
  - unfold f1. rewrite lookup_insert_ne, lookup_insert_eq by done. by rewrite Eat.
  - eapply u_sound_keep; [|exact Hs1]. intros n _. apply keeps_insert; auto with go.
Qed.

(** ** The whole rollback *)

(** Where a rollback leads: nothing applied, or the previous version; and Xray
    runs its configuration, when there is one. *)
Definition reverted (g : fs) : Prop :=
  (p_prev p = "" /\ g !! appliedPath = None /\ g !! currentPath = None) \/
  (p_prev p <> "" /\ exists a, consistent g a /\ a_target a = p_prev p /\
     forall a0, p_prev_applied p = Some a0 -> a = a0).

Lemma reverted_settled g : reverted g -> settled g.
Proof. intros [(_ & ? & ?)|(_ & a & ? & _)]; [by left|right; by exists a]. Qed.

Lemma reverted_same f g : reverted f -> (forall a n, target_of (a_target a) n -> keeps f g n) ->
  g !! appliedPath = f !! appliedPath -> g !! currentPath = f !! currentPath -> reverted g.
Proof.
  intros [(E & Ha & Hc)|(E & a & Hc & Et)] Hk E1 E2; [left; split_and!; congruence|right].
  split; [done|]. exists a. split; [|done]. eapply consistent_same; [done| |done|done]. intros n. by apply Hk.
Qed.

Lemma reverted_equiv f g : g ≡ f -> reverted f -> reverted g.
Proof.
  intros Hg Hr. eapply reverted_same; [done| |by apply Hg|by apply Hg]. intros a n. by apply keeps_equiv.
Qed.

Lemma wp_revert f (Q : result unit -> world -> Prop) C w :
  since w0 f w -> prog p f -> fresh_same f0 f -> crash_prog C -> error_prog Q ->
  (forall g w', since w0 g w' -> prog p g -> reverted g -> Q (Ok tt) w') ->
  wp (if bool_decide (p_prev p = "") then XrayUpdate.rollbackInitial else XrayUpdate.rollbackPrevious p) Q C w.
Proof.
  intros Hw Hp Hf HC HE HQ. case_bool_decide as E.
  - apply (u_rollbackInitial f); [done|done|done|done|]. intros g w' Hg Hpg Ha Hc. eapply HQ; [done|done|by left].
  - apply (u_rollbackPrevious f); [done|done|done|done|done|done|].
    intros a g w' Hg Hpg Hca Hat. eapply HQ; [done|done|right]. split; [done|by exists a].
Qed.

Definition u_failure_recorded (failure code : string) (g : fs) : Prop :=
  exists t, g !! failedPath = Some (NFile
    (encode_result (XrayUpdate.failed_result p failure code RecoveryStatusRolledBack true)) stateFileMode t).

Definition rolled_back (conf failure code : string) (g : fs) (w : world) : Prop :=
  stable g /\ reverted g /\ serving conf g w /\ u_failure_recorded failure code g.

(** The failure is recorded and the intention forgotten. *)
Lemma wp_conclude conf failure code f (Q : result unit -> world -> Prop) C w :
  since w0 f w -> prog p f -> reverted f -> serving conf f w ->
  (forall g w', ~ calm w0 -> since w0 g w' -> safe g -> C w') ->
  (forall e g w', ~ live -> since w0 g w' -> safe g -> is_dir g directory = true -> Q (Err e) w') ->
  (forall g w', since w0 g w' -> rolled_back conf failure code g w' -> Q (Ok tt) w') ->
  wp (try! _ := XrayUpdate.persistState failedPath
         (encode_result (XrayUpdate.failed_result p failure code RecoveryStatusRolledBack true)) stateFileMode in
      XrayUpdate.removeAndSync pendingPath) Q C w.
Proof.
  intros Hw Hp Hr Hsv HC HE HQ. apply wp_try. unfold XrayUpdate.persistState. set (raw := encode_result _).
  assert (forall c t, reverted (<[failedPath := NFile c stateFileMode t]> f)) as Hr'.
  { intros c t. eapply reverted_same; [done| |by rewrite lookup_insert_ne..].
    intros a n _. apply keeps_insert; auto with go. }
  apply (u_write failedPath _ w0 f); [done|auto with go|by eapply u_prog_layout|by eapply u_prog_dir|..].
  { intros g w' Hc [Hg _] Hcase.
    assert (prog p g) as Hpg by (destruct Hcase as [->|[t ->]]; [done|by apply prog_failed]).
    split; [eapply HC; [done|done|by eapply u_prog_safe]|]. intros e.
    eapply wp_ret, HE; [by apply not_live_calm|done|by eapply u_prog_safe|by eapply u_prog_dir]. }
  intros g t w1 [Hw1 Er1] Hg.
  assert (prog p g) as Hpg by (rewrite Hg; by apply prog_failed).
  assert (reverted g) as Hrg by (by eapply reverted_equiv).
  assert (serving conf g w1) as Hsg.
  { eapply (serving_equiv conf _ g w1 w1); [exact Hg|done|]. eapply serving_insert; [auto with go|done|done]. }
  assert (u_failure_recorded failure code g) as Hfr.
  { exists (time_at t). rewrite (Hg failedPath eq_refl). apply lookup_insert_eq. }
  pose proof (u_prog_done p g Hpg (reverted_settled _ Hrg)) as Hst.
  apply (u_remove pendingPath w0 g); [done|auto with go|by eapply u_prog_layout|by eapply u_prog_dir|..].
  { intros g' w' Hc [Hg' _] Hcase.
    assert (safe g' /\ is_dir g' directory = true) as [Hsf Hdd].
    { destruct Hcase as [Hgf|Hgf]; (split; [rewrite Hgf|rewrite (is_dir_equiv _ _ _ Hgf) by done]).
      - by eapply u_prog_safe.
      - by eapply u_prog_dir.
      - by left.
      - apply u_is_dir_remove; [by eapply u_prog_layout|auto with go|by eapply u_prog_dir]. }
    split; [by eapply HC|]. intros e. eapply HE; [by apply not_live_calm|done|done|done]. }
  intros w2 [Hw2 Er2]. eapply HQ; [done|]. split_and!; [done|..].
  - eapply reverted_same; [done| |by rewrite lookup_delete_ne..]. intros a n _. apply keeps_delete; auto with go.
  - eapply serving_delete; [auto with go|done|done].
  - destruct Hfr as [z Hz]. exists z. by rewrite lookup_delete_ne.
Qed.

Lemma u_rollback conf failure code f (Q : result unit -> world -> Prop) C w :
  since w0 f w -> prog p f -> fresh_same f0 f ->
  (forall g w', ~ calm w0 -> since w0 g w' -> safe g -> C w') ->
  (forall e g w', ~ live -> since w0 g w' -> safe g -> is_dir g directory = true -> Q (Err e) w') ->
  (forall g w', since w0 g w' -> rolled_back conf failure code g w' -> Q (Ok tt) w') ->
  wp (XrayUpdate.rollback p conf failure code) Q C w.
Proof.
  intros Hw Hp Hf HC HE HQ. unfold XrayUpdate.rollback. cbv zeta.
  assert (crash_prog C) as HC'.
  { intros g w' Hc Hg Hpg. eapply HC; [done|done|by eapply u_prog_safe]. }
  assert (error_prog Q) as HE'.
  { intros e g w' Hn Hg Hpg. eapply HE; [done|done|by eapply u_prog_safe|by eapply u_prog_dir]. }
  apply wp_try.
  assert (forall (Q' : result unit -> world -> Prop), error_prog Q' ->
    (forall g w', since w0 g w' -> prog p g -> fresh_same f0 g -> Q' (Ok tt) w') ->
    wp (if negb (bool_decide (conf = "")) then stopForRollback p else ret (Ok tt)) Q' C w) as Hstop.
  { intros Q' HE2 HQ2. destruct (negb _); [by apply (wp_stopForRollback f)|by eapply wp_ret, HQ2]. }
  apply Hstop; clear Hstop.
  { intros e g w' Hn Hg Hpg. by eapply wp_ret, HE'. }
  intros f1 w1 Hw1 Hp1 Hf1. apply wp_try, (wp_revert f1); [done|done|done|done|..].
  { intros e g w' Hn Hg Hpg. by eapply wp_ret, HE'. }
  intros f2 w2 Hw2 Hp2 Hr2. apply wp_try. destruct (decide (conf = "")) as [E|E].
  { rewrite bool_decide_true by done. cbn [negb]. apply wp_ret.
    apply (wp_conclude conf failure code f2); [done|done|done|by intros ?|done|done|done]. }
  rewrite bool_decide_false by done. cbn [negb].
  apply wp_try, (wp_Restart w0 f2); [done|..].
  - intros g w' Hc Hg Hgf. apply (HC' g); [done|done|by rewrite Hgf].
  - intros e g w' Hc Hg Hgf. eapply wp_ret, wp_ret, (HE' _ g); [by apply not_live_ctl|done|by rewrite Hgf].
  - intros g w' Hg Hgf Hfol. apply wp_ret.
    apply (wp_conclude conf failure code g); [done|by rewrite Hgf|by eapply reverted_equiv| |done|done|done].
    intros _. eapply follows_same; [|exact Hfol]. by apply Hgf.
Qed.

Lemma u_rollbackResult conf failure code f (Q : result Result -> world -> Prop) C w :
  since w0 f w -> prog p f -> fresh_same f0 f ->
  (forall g w', ~ calm w0 -> since w0 g w' -> safe g -> C w') ->
  (forall e g w', since w0 g w' -> safe g ->
     ErrorDetails e = (ErrorCodeRecoveryFailed, RecoveryStatusFailed) -> Q (Err e) w') ->
  (forall g w', since w0 g w' -> rolled_back conf failure code g w' ->
     Q (Ok (XrayUpdate.failed_result p failure code RecoveryStatusRolledBack true)) w') ->
  wp (XrayUpdate.rollbackResult p conf failure code) Q C w.
Proof.
  intros Hw Hp Hf HC HE HQ. apply wp_bind, (u_rollback conf failure code f); [done|done|done|done|..].
  2:{ intros g w' Hg Hr. by eapply wp_ret, HQ. }
  intros e g w1 Hn Hg Hs Hd. apply wp_bind. unfold XrayUpdate.persistState.
  apply (u_write failedPath _ w0 g); [done|auto with go|by apply u_safe_layout|done|..].
  - intros g' w' Hc [Hg' _] Hcase.
    assert (safe g') as Hs' by (destruct Hcase as [->|[t ->]]; [done|by apply safe_failed]).
    split; [by eapply HC|]. intros e'. by eapply wp_ret, HE.
  - intros g' t w' [Hg' _] Hgf. eapply wp_ret, HE; [done| |done]. rewrite Hgf. by apply safe_failed.
Qed.
End steps.
End recover.
