(* ===== verification/UpdateStart.v ===== *)
(** * The binary store when the agent starts

    [cleanupStaleDownloads], the configuration the update has to take along,
    and [Recover]: under any failures it keeps the store [safe]; without
    failures it succeeds and leaves it [stable]. *)

From stdpp Require Import base gmap strings list fin_maps sorting.
From Stdlib Require Import ZArith NArith Ascii.
From S2P Require Import Prelude.
From S2P Require Import GoStrings.
From S2P Require Import Os.
From S2P Require Import AtomicFile.
From S2P Require Import Dirs.
From S2P Require XrayTypes.
From S2P Require Import XrayRuntime.
From S2P Require Import XraySteps.
From S2P Require Import XrayPrune.
From S2P Require Import XrayInv.
From S2P Require Import XrayRecover.
From S2P Require Import Manifest.
From S2P Require Import UpdateTypes.
From S2P Require Import XrayUpdate.
From S2P Require Import UpdateSteps.
From S2P Require Import UpdatePrune.
From S2P Require Import UpdateInv.
From S2P Require Import UpdateRecover.

(** ** Names in a directory *)

Lemma child_of_inv d p n : child_of d p = Some n -> p = d +:+ "/" +:+ n.
Proof.
  unfold child_of. destruct (HasPrefix p (d +:+ "/")) eqn:E; [|done].
  apply HasPrefix_inv in E as [r ->]. rewrite sdrop_app. destruct (bool_decide _ || _); [done|].
  intros [= <-]. by rewrite sapp_assoc.
Qed.

Lemma entry_names_lookup f d n : n ∈ entry_names f d -> is_Some (f !! (d +:+ "/" +:+ n)).
Proof.
  unfold entry_names. rewrite merge_sort_Permutation. intros ([p x] & Hp & Hc)%list_elem_of_omap.
  apply child_of_inv in Hc. simpl in Hc. subst p. apply elem_of_map_to_list in Hp. by eexists.
Qed.

Lemma NoDup_omap_inj {A B} (g : A -> option B) (l : list A) :
  (forall x y b, x ∈ l -> y ∈ l -> g x = Some b -> g y = Some b -> x = y) -> NoDup l -> NoDup (omap g l).
Proof.
  intros Hg Hl. induction Hl as [|x l Hx Hl IH]; [constructor|]. simpl.
  assert (NoDup (omap g l)) as Hr by (apply IH; intros y z b Hy Hz; apply Hg; by right).
  destruct (g x) as [b|] eqn:E; [|done]. constructor; [|done].
  intros (y & Hy & Eb)%list_elem_of_omap. assert (x = y) as <-; [|done].
  eapply Hg; [by left|by right|done|done].
Qed.

Lemma entry_names_NoDup f d : NoDup (entry_names f d).
Proof.
  unfold entry_names. rewrite merge_sort_Permutation. apply NoDup_omap_inj; [|apply NoDup_map_to_list].
  intros [p x] [q y] n Hp Hq H1%child_of_inv H2%child_of_inv. simpl in *. subst p. rewrite H2 in *.
  apply elem_of_map_to_list in Hp, Hq. congruence.
Qed.

(** ** Stale downloads *)

(** Regular files only below the download directory. *)
Definition downloads_ok (f : fs) : Prop :=
  dir_or_none f downloads /\
  forall n, is_Some (f !! (downloads +:+ "/" +:+ n)) -> no_char slash n -> n <> "" ->
    entry_name n /\ exists c m t, f !! (downloads +:+ "/" +:+ n) = Some (NFile c m t).

(** The directory of old temporary files is not the store's. *)
Definition legacy_outside (m : Manager) : Prop :=
  legacyTempDir m = "" \/
  forall n, HasPrefix n legacyTempPrefix = true -> no_char slash n ->
    HasPrefix (Join (legacyTempDir m) n) "../" = true.

(** The store is as before, its directory made if necessary. *)
Definition cleaned (f g : fs) : Prop :=
  exists h1 h2, dir_step directory f h1 /\ dir_step directory h1 h2 /\ g ≡ h2 /\ fresh_same f g.

Lemma cleaned_refl f : cleaned f f.
Proof. exists f, f. split_and!; [by left|by left|done|done]. Qed.

Lemma cleaned_step f g h : cleaned f g -> h ≡ g -> fresh_same g h -> cleaned f h.
Proof.
  intros (h1 & h2 & H1 & H2 & H3 & H4) Hh Hf. exists h1, h2. split_and!; [done|done|by rewrite Hh|by eapply fresh_trans].
Qed.

Lemma cleaned_safe f g : cleaned f g -> safe f -> safe g.
Proof.
  intros (h1 & h2 & H1 & H2 & Hg & _) Hs. rewrite Hg.
  eapply safe_mkdir; [|by left|exact H2]. eapply safe_mkdir; [exact Hs|by left|exact H1].
Qed.

Lemma cleaned_prog p f g : cleaned f g -> prog p f -> prog p g.
Proof.
  intros (h1 & h2 & H1 & H2 & Hg & _) Hs. rewrite Hg.
  eapply u_prog_mkdir; [|by left|exact H2]. eapply u_prog_mkdir; [exact Hs|by left|exact H1].
Qed.

Lemma cleaned_stable f g : cleaned f g -> stable f -> stable g.
Proof.
  intros (h1 & h2 & H1 & H2 & Hg & _) Hs. rewrite Hg.
  eapply u_stable_mkdir; [|by left|exact H2]. eapply u_stable_mkdir; [exact Hs|by left|exact H1].
Qed.

Lemma cleaned_lookup f g q : cleaned f g -> scratch q = false -> q <> directory -> g !! q = f !! q.
Proof.
  intros (h1 & h2 & H1 & H2 & Hg & _) Hs Hq. rewrite (Hg q Hs).
  destruct H2 as [->|(m & t & ->)]; [|rewrite lookup_insert_ne by done];
    (destruct H1 as [->|(m' & t' & ->)]; [done|by rewrite lookup_insert_ne]).
Qed.

(** Scratch paths that are no temporary names of the current link. *)
Definition passing (q : string) : Prop := scratch q = true /\ forall z, q <> stamp z.

Lemma passing_download n : passing (downloads +:+ n).
Proof. split; [reflexivity|]. intros z E. unfold stamp, currentPath, downloads in E. discriminate E. Qed.

Lemma passing_outside q : HasPrefix q "../" = true -> passing q.
Proof.
  intros [r ->]%HasPrefix_inv. split; [by unfold scratch, ctl_scratch; cbn|]. intros z E. discriminate E.
Qed.

Lemma cleaned_insert f g q x : passing q -> cleaned f g -> cleaned f (<[q := x]> g).
Proof. intros [Hs Hz] Hg. eapply cleaned_step; [exact Hg|by apply insert_scratch|by apply fresh_insert]. Qed.

Lemma cleaned_delete f g q : passing q -> cleaned f g -> cleaned f (delete q g).
Proof. intros [Hs Hz] Hg. eapply cleaned_step; [exact Hg|by apply delete_scratch|by apply fresh_delete]. Qed.

Lemma plain_downloads : plain_path [directory; ".downloads"] downloads.
Proof. apply (plain_path_two directory ".downloads"); [apply entry_runtime|by split_and!]. Qed.

Lemma Join_download n : entry_name n -> Join downloads n = downloads +:+ "/" +:+ n.
Proof. apply (Join_plain _ _ _ plain_downloads). Qed.

(** What stands at a listed name is passing, or it is the store itself. *)
Lemma passing_join n : no_char slash n -> n <> "" -> passing (Join downloads n) \/ Join downloads n = directory.
Proof.
  intros Hs Hne. destruct (decide (n = ".")) as [->|H1]; [left; exact (passing_download "")|].
  destruct (decide (n = "..")) as [->|H2]; [by right|left].
  rewrite Join_download by (by split_and!). apply passing_download.
Qed.

Lemma passing_is_dir g q : passing q -> is_dir g directory = true -> is_dir (delete q g) directory = true.
Proof.
  intros [Hq _] Hd. rewrite (is_dir_equiv _ g) by (done || by apply delete_scratch). done.
Qed.

Lemma passing_is_dir_insert g q x : passing q -> is_dir g directory = true -> is_dir (<[q := x]> g) directory = true.
Proof.
  intros [Hq _] Hd. rewrite (is_dir_equiv _ g) by (done || by apply insert_scratch). done.
Qed.

Section start.
Context `{Env}.

(** [cleaned f0] trees whose directory exists; what a run may end in. *)
Section cleanup.
Context (w0 : world) (f0 : fs) (D : Prop).

Definition kept_clean (g : fs) : Prop := cleaned f0 g /\ is_dir g directory = true.

Definition clean_crash (C : world -> Prop) : Prop :=
  forall g w', ~ calm w0 -> after w0 g w' -> cleaned f0 g -> C w'.
Definition clean_error {A} (Q : result A -> world -> Prop) : Prop :=
  forall e g w', ~ (calm w0 /\ D) -> after w0 g w' -> cleaned f0 g -> Q (Err e) w'.

Lemma kept_delete g q : passing q -> kept_clean g -> kept_clean (delete q g).
Proof. intros Hq [Hc Hd]. split; [by apply cleaned_delete|by apply passing_is_dir]. Qed.

(** A call that only looks. *)
Lemma wp_look {A B} (op : fs -> result A) g (k : A -> io (result B)) (Q : result B -> world -> Prop) C w :
  after w0 g w -> cleaned f0 g -> clean_crash C -> clean_error Q ->
  (forall w', after w0 g w' ->
     match op g with
     | Ok a => wp (k a) Q C w'
     | Err e => ~ (calm w0 /\ D)
     end) ->
  wp (try! x := sys_read op in k x) Q C w.
Proof.
  intros Hw Hg HC HE HQ. apply wp_try, (wp_sys_read _ w0 g); [done|..].
  - intros w' Hc Hw'. by eapply HC.
  - intros m w' Hc Hw'. eapply wp_ret, HE; [naive_solver|done|done].
  - intros w' Hw'. specialize (HQ w' Hw'). destruct (op g) as [a|e]; [done|]. by eapply wp_ret, HE.
Qed.

Lemma wp_removeDownloads names g (Q : result unit -> world -> Prop) C w :
  after w0 g w -> kept_clean g -> Forall (fun n => no_char slash n /\ n <> "") names -> NoDup names ->
  (D -> Forall (fun n => entry_name n /\ exists c m t, g !! (downloads +:+ "/" +:+ n) = Some (NFile c m t)) names) ->
  clean_crash C -> clean_error Q ->
  (forall g' w', after w0 g' w' -> kept_clean g' -> (D -> is_dir g' downloads = is_dir g downloads) -> Q (Ok tt) w') ->
  wp (removeDownloads names) Q C w.
Proof.
  intros Hw Hg Hn Hnd HD HC HE HQ. revert g w Hw Hg HD HQ.
  induction Hn as [|n names [Hs Hne] Hn IH]; intros g w Hw Hg HD HQ; cbn [removeDownloads].
  { by eapply wp_ret, HQ. }
  apply NoDup_cons in Hnd as [Hnot Hnd]. pose proof Hg as [Hgc Hgd].
  assert (D -> entry_name n /\ exists c m t, g !! (downloads +:+ "/" +:+ n) = Some (NFile c m t)) as Hthis.
  { intros HDD. specialize (HD HDD). by apply Forall_cons in HD as [? _]. }
  apply (wp_look _ g); [done|done|done|done|]. intros w1 Hw1. unfold fs_lstat.
  destruct (g !! Join downloads n) as [x|] eqn:Ex; simpl.
  2:{ intros [_ HDD]. destruct (Hthis HDD) as (He & c & m & t & E). rewrite Join_download in Ex by done. congruence. }
  destruct (IsRegular (info_of x)) eqn:Er; cbn [negb].
  2:{ eapply wp_ret, HE; [|done|done]. intros [_ HDD]. destruct (Hthis HDD) as (He & c & m & t & E).
      rewrite Join_download in Ex by done. rewrite E in Ex. by injection Ex as <-. }
  assert (passing (Join downloads n)) as Hpass.
  { destruct (passing_join n Hs Hne) as [?|E]; [done|]. rewrite E in Ex. unfold is_dir in Hgd.
    rewrite bool_decide_false, Ex in Hgd by done. by destruct x. }
  destruct x as [c m t| |]; try done.
  apply wp_try, (wp_sys _ w0 g); [done|..].
  { intros w' Hc Hw'. by eapply HC. }
  { intros m' w' Hc Hw'. eapply wp_ret, HE; [naive_solver|done|done]. }
  intros _ _ w2 Hw2. unfold fs_remove in *. rewrite Ex in *. simpl in *.
  apply (IH Hnd (delete (Join downloads n) g)); [done|by apply kept_delete|..].
  - intros HDD. destruct (Hthis HDD) as (He & _). specialize (HD HDD). apply Forall_cons in HD as [_ HD].
    rewrite Join_download by done. rewrite Forall_forall in *. intros n' Hn'.
    destruct (HD n' Hn') as (He' & c' & m' & t' & E'). split; [done|]. exists c', m', t'.
    rewrite lookup_delete_ne; [done|]. intros E. apply sapp_inj_l, (sapp_inj_l "/") in E. by subst n'.
  - intros g' w' Hw' Hg' Hd'. eapply HQ; [done|done|]. intros HDD. rewrite Hd' by done. destruct (Hthis HDD) as (He & _). rewrite Join_download by done.
    unfold is_dir. rewrite lookup_delete_ne; [done|]. intros E. apply (f_equal String.length) in E.
    rewrite slength_app in E. simpl in E. lia.
Qed.

Lemma wp_removeLegacy `{Owner} paths g (Q : result unit -> world -> Prop) C w :
  after w0 g w -> kept_clean g -> Forall passing paths -> clean_crash C -> clean_error Q ->
  (forall g' w', after w0 g' w' -> kept_clean g' -> Q (Ok tt) w') ->
  wp (removeLegacy paths) Q C w.
Proof.
  intros Hw Hg Hp HC HE HQ. revert g w Hw Hg. induction Hp as [|q paths Hq _ IH]; intros g w Hw Hg; cbn [removeLegacy].
  { by eapply wp_ret, HQ. }
  pose proof Hg as [Hgc _].
  apply wp_bind, (wp_sys_read _ w0 g); [done|..].
  { intros w' Hc Hw'. by eapply HC. }
  { intros m w' Hc Hw'. simpl. eapply wp_ret, HE; [naive_solver|done|done]. }
  intros w1 Hw1. unfold fs_lstat. destruct (g !! q) as [x|] eqn:Ex; simpl; [|by apply (IH g)].
  destruct (negb _ || negb _) eqn:Eo; [by apply (IH g)|].
  apply wp_bind, (wp_sys _ w0 g); [done|..].
  { intros w' Hc Hw'. by eapply HC. }
  { intros m w' Hc Hw'. simpl. eapply wp_ret, HE; [naive_solver|done|done]. }
  intros _ _ w2 Hw2. unfold fs_remove in *. rewrite Ex in *.
  destruct x as [c m t| |]; try done. simpl in *. apply (IH (delete q g)); [done|by apply kept_delete].
Qed.

Lemma wp_cleanupLegacy `{Owner} m g (Q : result unit -> world -> Prop) C w :
  after w0 g w -> kept_clean g -> legacy_outside m -> clean_crash C -> clean_error Q ->
  (forall g' w', after w0 g' w' -> kept_clean g' -> Q (Ok tt) w') ->
  wp (cleanupLegacyDownloads m) Q C w.
Proof.
  intros Hw Hg Hl HC HE HQ. unfold cleanupLegacyDownloads. case_bool_decide as E; [by eapply wp_ret, HQ|].
  destruct Hl as [?|Hl]; [done|].
  apply wp_bind. unfold Glob. apply wp_bind, (wp_sys_read _ w0 g); [done|..].
  { intros w' Hc Hw'. eapply HC; [done|done|apply Hg]. }
  { intros msg w' Hc Hw'. apply wp_ret. by apply (wp_removeLegacy [] g). }
  intros w1 Hw1. apply wp_ret. apply (wp_removeLegacy _ g); [done|done| |done|done|done].
  destruct (is_dir g (legacyTempDir m)); [|destruct (g !! legacyTempDir m); constructor].
  apply Forall_fmap, Forall_forall. intros n [Hn Hin]%list_elem_of_filter. apply passing_outside, Hl; [done|].
  by apply (entry_names_entry g (legacyTempDir m) n) in Hin as [? _].
Qed.

(** The state directory of the store, made and with its mode. *)
Lemma wp_u_ensureDirectory f (Q : result unit -> world -> Prop) C w :
  after w0 f w -> dir_or_none f directory ->
  (forall g w', ~ calm w0 -> after w0 g w' -> dir_step directory f g -> C w' /\ forall e, Q (Err e) w') ->
  (forall g h w', after w0 h w' -> dir_step directory f g -> dir_step directory g h ->
     is_dir h directory = true -> Q (Ok tt) w') ->
  wp XrayUpdate.ensureDirectory Q C w.
Proof.
  intros Hw Hd HX HQ.
  apply wp_try, (wp_MkdirAll _ _ w0 f); [done|done|done|done|..].
  { intros w' Hc Hw'. apply (HX f); [done|done|by left]. }
  { intros e w' Hc Hw' _. apply wp_ret, (HX f); [done|done|by left]. }
  intros g w1 Hw1 Hs1 Hd1. apply (wp_Chmod_dir _ _ w0 g); [done|done|done|..].
  - intros w' Hc Hw'. by apply (HX g).
  - intros e w' Hc Hw' _. by apply (HX g).
  - intros h w' Hw' Hs2 Hd2. by eapply HQ.
Qed.

Lemma cleaned_dirs g h : dir_step directory f0 g -> dir_step directory g h -> cleaned f0 h.
Proof.
  intros H1 H2. exists g, h. split_and!; [done|done|done|].
  assert (forall a b, dir_step directory a b -> fresh_same a b) as Hfs.
  { intros a b [->|(m & t & ->)]; [apply fresh_refl|]. by apply fresh_insert. }
  eapply fresh_trans; by apply Hfs.
Qed.

Lemma cleaned_dir g : dir_step directory f0 g -> cleaned f0 g.
Proof. intros H1. eapply cleaned_dirs; [exact H1|by left]. Qed.

(** The download directory: a directory afterwards, its entries unchanged. *)
Lemma wp_makeDownloads g (Q : result unit -> world -> Prop) C w :
  after w0 g w -> kept_clean g -> (D -> dir_or_none g downloads) -> clean_crash C -> clean_error Q ->
  (forall g' w', after w0 g' w' -> kept_clean g' ->
     (forall n, g' !! (downloads +:+ "/" +:+ n) = g !! (downloads +:+ "/" +:+ n)) ->
     (D -> is_dir g' downloads = true) -> Q (Ok tt) w') ->
  wp (MkdirAll downloads stateDirectoryMode) Q C w.
Proof.
  intros Hw Hg HD HC HE HQ. pose proof Hg as [Hgc Hgd].
  apply (wp_sys _ w0 g); [done|..].
  { intros w' Hc Hw'. by eapply HC. }
  { intros m w' Hc Hw'. eapply HE; [naive_solver|done|done]. }
  intros k _ w' Hw'. change (length (Split downloads slash)) with 2%nat in *. cbn [fs_mkdirall] in *.
  change (Dir downloads) with directory in *. rewrite Hgd in *. unfold fs_mkdir in *.
  change (Dir downloads) with directory in *. rewrite Hgd in *.
  destruct (is_dir g downloads) eqn:Ed; simpl in *; [by eapply HQ|].
  unfold is_dir in Ed. rewrite bool_decide_false in Ed by done.
  destruct (g !! downloads) as [x|] eqn:Ex; simpl in *.
  - eapply HE; [|done|done]. intros [_ HDD]. specialize (HD HDD). unfold dir_or_none in HD. rewrite Ex in HD. by destruct x.
  - eapply HQ; [done|split; [by apply cleaned_insert; [exact (passing_download "")|]|by apply passing_is_dir_insert; [exact (passing_download "")|]]|..].
    + intros n. rewrite lookup_insert_ne; [done|]. intros E. apply (f_equal String.length) in E.
      rewrite slength_app in E. simpl in E. lia.
    + intros _. unfold is_dir. by rewrite lookup_insert_eq, orb_true_r.
Qed.

Lemma wp_chmodDownloads g (Q : result unit -> world -> Prop) C w :
  after w0 g w -> kept_clean g -> (D -> is_dir g downloads = true) -> clean_crash C -> clean_error Q ->
  (forall g' w', after w0 g' w' -> kept_clean g' ->
     (forall n, g' !! (downloads +:+ "/" +:+ n) = g !! (downloads +:+ "/" +:+ n)) ->
     (D -> is_dir g' downloads = true) -> Q (Ok tt) w') ->
  wp (Chmod downloads stateDirectoryMode) Q C w.
Proof.
  intros Hw Hg HD HC HE HQ. pose proof Hg as [Hgc Hgd].
  apply (wp_sys _ w0 g); [done|..].
  { intros w' Hc Hw'. by eapply HC. }
  { intros m w' Hc Hw'. eapply HE; [naive_solver|done|done]. }
  intros _ _ w' Hw'. unfold fs_chmod in *.
  assert (forall x, kept_clean (<[downloads := x]> g)) as Hk.
  { intros x. split; [by apply cleaned_insert; [exact (passing_download "")|]|by apply passing_is_dir_insert; [exact (passing_download "")|]]. }
  assert (forall x n, <[downloads := x]> g !! (downloads +:+ "/" +:+ n) = g !! (downloads +:+ "/" +:+ n)) as Hn.
  { intros x n. rewrite lookup_insert_ne; [done|]. intros E. apply (f_equal String.length) in E.
    rewrite slength_app in E. simpl in E. lia. }
  unfold is_dir in HD. rewrite bool_decide_false in HD by done.
  destruct (g !! downloads) as [[c m t|m t|t]|] eqn:Ex; simpl in *.
  - eapply HQ; [done|done|done|]. intros HDD. by specialize (HD HDD).
  - eapply HQ; [done|done|done|]. intros _. unfold is_dir. by rewrite lookup_insert_eq, orb_true_r.
  - eapply HE; [|done|done]. intros [_ HDD]. by specialize (HD HDD).
  - eapply HE; [|done|done]. intros [_ HDD]. by specialize (HD HDD).
Qed.
End cleanup.
End start.

Section recover.
Context `{Env} `{Controller} `{!ControllerLaws} `{!ClockOk}.

Lemma downloads_dirs f g h : dir_step directory f g -> dir_step directory g h ->
  h !! downloads = f !! downloads /\
  forall n, h !! (downloads +:+ "/" +:+ n) = f !! (downloads +:+ "/" +:+ n).
Proof.
  intros Hs1 Hs2.
  assert (forall a b q, dir_step directory a b -> q <> directory -> b !! q = a !! q) as Hs.
  { intros a b q [->|(m & t & ->)] Hq; [done|by rewrite lookup_insert_ne]. }
  split; [|intros n]; by rewrite (Hs g h), (Hs f g).
Qed.

Lemma wp_cleanupStale `{Owner} m w0 f (Q : result unit -> world -> Prop) C w :
  after w0 f w -> layout f -> legacy_outside m ->
  clean_crash w0 f C -> clean_error w0 f (downloads_ok f) Q ->
  (forall g w', after w0 g w' -> kept_clean f g -> Q (Ok tt) w') ->
  wp (cleanupStaleDownloads m) Q C w.
Proof.
  intros Hw Hl Hm HC HE HQ. set (D := downloads_ok f) in *.
  unfold cleanupStaleDownloads, ensureDownloadDirectory.
  apply wp_try, wp_try, (wp_u_ensureDirectory w0 f); [done|apply Hl|..].
  { intros g w' Hc Hg Hs. split; [eapply HC; [done|done|by apply cleaned_dir]|].
    intros e. apply wp_ret, wp_ret. eapply HE; [naive_solver|done|by apply cleaned_dir]. }
  intros g1 g w1 Hw1 Hs1 Hs2 Hd. destruct (downloads_dirs _ _ _ Hs1 Hs2) as [Hdl Hdn].
  assert (kept_clean f g) as Hk by (split; [by eapply cleaned_dirs|done]). clear Hs1 Hs2 g1.
  apply wp_try, (wp_makeDownloads w0 f D g); [done|done| |done|..].
  { intros [HD _]. unfold dir_or_none in *. by rewrite Hdl. }
  { intros e g' w' Hn Hg' Hc. apply wp_ret, wp_ret. by eapply HE. }
  intros g2 w2 Hw2 Hk2 Hn2 Hd2. pose proof Hk2 as [Hc2 _].
  apply wp_try, (wp_sys_read _ w0 g2); [done|intros w' Hc Hw'; by eapply HC|..].
  { intros m' w' Hc Hw'. apply wp_ret, wp_ret. eapply HE; [naive_solver|done|done]. }
  intros w3 Hw3. unfold fs_lstat. destruct (g2 !! downloads) as [x|] eqn:Ex.
  2:{ apply wp_ret, wp_ret. eapply HE; [|done|done]. intros [_ HD]. specialize (Hd2 HD). unfold is_dir in Hd2.
      by rewrite bool_decide_false, Ex in Hd2. }
  destruct (IsDir (info_of x)) eqn:Ei; cbn [negb].
  2:{ apply wp_ret, wp_ret. eapply HE; [|done|done]. intros [_ HD]. specialize (Hd2 HD). unfold is_dir in Hd2.
      rewrite bool_decide_false, Ex in Hd2 by done. by destruct x. }
  apply wp_try, (wp_chmodDownloads w0 f D g2); [done|done|done|done|..].
  { intros e g' w' Hn Hg' Hc. apply wp_ret, wp_ret. by eapply HE. }
  intros g3 w4 Hw4 Hk3 Hn3 Hd3. apply wp_ret. pose proof Hk3 as [Hc3 _].
  apply (wp_look w0 f D _ g3); [done|done|done|done|]. intros w5 Hw5.
  destruct (is_dir g3 downloads) eqn:Ed.
  2:{ assert (~ (calm w0 /\ D)) as Hno by (intros [_ HD]; by specialize (Hd3 HD)). by destruct (g3 !! downloads). }
  apply wp_try, (wp_removeDownloads w0 f D _ g3); [done|done| |apply entry_names_NoDup|..|done| |].
  { apply Forall_forall. intros n. apply entry_names_entry. }
  { intros [_ HD]. apply Forall_forall. intros n Hin.
    pose proof (entry_names_entry _ _ _ Hin) as [Hns Hnn]. pose proof (entry_names_lookup _ _ _ Hin) as Hsome.
    rewrite Hn3, Hn2, Hdn in *. by apply HD. }
  { intros e g' w' Hn Hg' Hc. by eapply wp_ret, HE. }
  intros g4 w6 Hw6 Hk4 Hd4. pose proof Hk4 as [Hc4 _]. apply wp_try.
  assert (forall w', after w0 g4 w' -> wp (cleanupLegacyDownloads m) Q C w') as Hleg.
  { intros w' Hw'. by apply (wp_cleanupLegacy w0 f D m g4). }
  destruct (entry_names g3 downloads) as [|n l]; [by apply wp_ret, Hleg|].
  apply (wp_syncDirectory _ w0 g4); [done|intros w' Hc Hw'; by eapply HC|].
  intros [[]|e] w' Hw' Hr; [by apply Hleg|]. eapply wp_ret, HE; [|done|done].
  intros [Hc HD]. assert (Err e = Ok tt) as [=]. apply Hr; [done|]. by rewrite Hd4.
Qed.

(** ** The configuration to take along *)

Definition s_config (f : fs) : result XrayTypes.AppliedState :=
  match XraySteps.s_applied f with
  | Err e => Err e
  | Ok a => match XraySteps.s_verifyApplied a f with Err e => Err e | Ok _ => Ok a end
  end.

Definition s_configPath (f : fs) : result (string * bool) :=
  match s_config f with
  | Ok a => Ok (Join XrayRuntime.directory (XrayTypes.a_target a), true)
  | Err e => if errorsIs e SNotExist then Ok ("", false)
             else Err (errorW "load applied Xray config for binary update: " e)
  end.

Lemma reads_config : reads XrayRuntime.Current s_config.
Proof.
  apply (reads_try _ (fun e => e) _ XraySteps.s_applied
    (fun a f => match XraySteps.s_verifyApplied a f with Err e => Err e | Ok _ => Ok a end));
    [done|apply XraySteps.reads_loadApplied|intros a].
  apply (reads_try _ (fun e => e) _ (XraySteps.s_verifyApplied a)); [done|apply XraySteps.reads_verifyApplied|].
  intros _. apply reads_ret.
Qed.

Lemma reads_configPath : reads appliedConfigPath s_configPath.
Proof.
  apply (reads_bind XrayRuntime.Current _ s_config
    (fun r _ => match r with
       | Ok a => Ok (Join XrayRuntime.directory (XrayTypes.a_target a), true)
       | Err e => if errorsIs e SNotExist then Ok ("", false)
                  else Err (errorW "load applied Xray config for binary update: " e)
       end)); [apply reads_config|..].
  - intros [a|e]; [apply reads_ret|]. destruct (errorsIs e SNotExist); apply reads_ret.
  - intros e He. eexists. rewrite He. split; [reflexivity|done].
Qed.

(** A configuration store with nothing pending can be read. *)
Lemma config_readable f : XrayInv.stable f -> is_ok (s_configPath f) = true.
Proof.
  intros (Hl & _ & [[Ha _]|(a & (Ha & Hc & Hs))]); unfold s_configPath, s_config.
  - unfold XraySteps.s_applied. by rewrite (s_parsed_None _ _ f).
  - rewrite (XrayInv.holds_applied f a Hl Ha).
    rewrite (proj2 (XraySteps.s_verifyApplied_ok a f)) by done. done.
Qed.
(** Making the directory of the binary store does not concern it. *)
Lemma config_mkdir f g : dir_step directory f g -> XrayInv.stable f -> XrayInv.stable g.
Proof.
  intros [->|(m & t & ->)] Hs; [done|]. pose proof Hs as ([L1 L2 L3 L4 [L5 L6] L7] & _).
  assert (forall q, q <> directory -> <[directory := NDir m t]> f !! q = f !! q) as Hq.
  { intros q Hne. by rewrite lookup_insert_ne. }
  assert (directory ∉ XrayRuntime.currentPath :: XrayRuntime.previousPath :: XraySteps.files) as Hno.
  { apply (bool_decide_eq_true _). vm_compute. reflexivity. }
  apply (XrayInv.stable_same f); [done| |..].
  - split; unfold dir_or_none, no_link in *; rewrite ?Hq by done; try done.
    + rewrite Forall_forall in *. intros q Hin. unfold plain_file in *. rewrite Hq; [by apply L3|].
      intros ->. by destruct Hno.
    + intros n Hn. rewrite Hq by by destruct n. by apply L4.
  - intros a _. apply XrayInv.keeps_same. intros n _. rewrite Hq; [done|by destruct n].
  - by apply Hq.
  - by apply Hq.
  - by apply Hq.
Qed.

Lemma config_applied_mkdir f g c : dir_step directory f g -> XrayInv.consistent f c -> XrayInv.consistent g c.
Proof.
  intros [->|(m & t & ->)] ([Ha Hok] & Hc & Hs); [done|]. split_and!.
  - split; [|done]. eapply XrayInv.holds_same; [|exact Ha]. by rewrite lookup_insert_ne.
  - by rewrite lookup_insert_ne.
  - eapply XrayInv.sound_keep; [|exact Hs]. apply XrayInv.keeps_same. intros n _. by rewrite lookup_insert_ne by by destruct n.
Qed.

(** An applied configuration that is intact is found, wherever it lies. *)
Lemma config_given f g c cfg : cleaned f g -> XrayInv.consistent f c -> s_configPath g = Ok cfg -> cfg.1 <> "".
Proof.
  intros (h1 & h2 & Hs1 & Hs2 & Hg & _) Hc. assert (XrayInv.consistent g c) as ([Ha _] & Hcur & Hs).
  { eapply consistent_equiv; [exact Hg|]. by eapply config_applied_mkdir, config_applied_mkdir. }
  unfold s_configPath, s_config, XraySteps.s_applied.
  destruct Ha as (raw & m & t & Hf & Hp). unfold XraySteps.s_parsed. rewrite (fs_readfile_file _ _ _ _ _ Hf), Hp.
  rewrite (proj2 (XraySteps.s_verifyApplied_ok c g)) by done. intros [= <-]. cbn [fst].
  destruct Hs as (_ & Hm & _). rewrite XraySteps.target_path; [done|by eapply XrayTypes.metadata_target].
Qed.

Lemma cleaned_config f g : cleaned f g -> XrayInv.stable f -> XrayInv.stable g.
Proof.
  intros (h1 & h2 & Hs1 & Hs2 & Hg & _) Hs. rewrite Hg.
  eapply config_mkdir; [exact Hs2|]. by eapply config_mkdir.
Qed.

(** ** Recover *)

Definition recover_message : string := "unconfirmed Xray binary update was rolled back after agent restart".

(** What recovery makes of the pending update [p]; with a configuration applied,
    Xray is restarted with it. *)
Definition resolved (f : fs) (p : pendingState) (g : fs) (w : world) : Prop :=
  (exists a, consistent g a /\ matches_pending a p = true) \/
  exists conf, (forall c, XrayInv.consistent f c -> conf <> "") /\ rolled_back p conf recover_message ErrorCodePreparationFailed g w.

(** What [Recover] needs: nothing fails, the downloads are files; and, to undo an
    update, an applied configuration that is intact and an Xray that can be
    restarted. *)
Definition undo_live (w : world) (f : fs) : Prop := XrayInv.stable f /\ controller_live /\ link_fresh w currentPath f.

Definition recover_live (w : world) (f : fs) : Prop :=
  calm w /\ downloads_ok f /\ (f !! pendingPath <> None -> undo_live w f).

Section pending.
Context (w0 : world) (f0 : fs) (p : pendingState) (Hpend : f0 !! pendingPath <> None).
Context (C : world -> Prop) (Q : result unit -> world -> Prop).
Context (HC : forall g w', ~ calm w0 -> since w0 g w' -> safe g -> C w').
Context (HE : forall e g w', ~ recover_live w0 f0 -> since w0 g w' -> safe g -> Q (Err e) w').
Context (HQ : forall g w', since w0 g w' -> stable g -> resolved f0 p g w' -> Q (Ok tt) w').

Lemma wp_undo conf f w : since w0 f w -> prog p f -> fresh_same f0 f -> (forall c, XrayInv.consistent f0 c -> conf <> "") ->
  wp (undo p conf) Q C w.
Proof.
  intros Hw Hp Hf Hconf.
  assert (~ live w0 f0 -> ~ recover_live w0 f0) as Hlive.
  { intros Hn (? & _ & Hu). destruct (Hu Hpend) as (_ & ? & ?). by apply Hn. }
  apply wp_bind, (u_rollback w0 f0 p conf _ _ f); [done|done|done|done|..].
  2:{ intros g w' Hg Hr. eapply wp_ret, HQ; [done|apply Hr|right]. by exists conf. }
  intros e g w1 Hn Hg Hs Hd. apply wp_bind. unfold XrayUpdate.persistState.
  apply (u_write failedPath _ w0 g); [done|auto with go|by apply u_safe_layout|done|..].
  - intros g' w' Hc [Hg' _] Hcase.
    assert (safe g') as Hs' by (destruct Hcase as [->|[t ->]]; [done|by apply safe_failed]).
    split; [by eapply HC|]. intros e'. eapply wp_ret, HE; [auto|done|done].
  - intros g' t w' [Hg' _] Hgf. eapply wp_ret, HE; [auto|done|]. rewrite Hgf. by apply safe_failed.
Qed.

(** The update was recorded as applied: forget the intention. *)
Lemma wp_confirm a f w : since w0 f w -> prog p f -> consistent f a -> matches_pending a p = true ->
  wp (try! _ := XrayUpdate.removeAndSync pendingPath in XrayUpdate.removeAndSync failedPath) Q C w.
Proof.
  intros Hw Hp Hc Hm.
  assert (~ calm w0 -> ~ recover_live w0 f0) as Hlive by (by intros Hn [? _]).
  assert (stable (delete pendingPath f)) as Hs1 by (apply (u_prog_done p); [done|right; by exists a]).
  assert (consistent (delete pendingPath f) a) as Hc1 by (apply u_consistent_delete; auto with go).
  apply wp_try, (u_remove pendingPath w0 f); [done|auto with go|by eapply u_prog_layout|by eapply u_prog_dir|..].
  { intros g w' Hn [Hg _] Hcase.
    assert (safe g) as Hsg by (destruct Hcase as [->| ->]; [by eapply u_prog_safe|by left]).
    split; [by eapply HC|]. intros e. eapply wp_ret, HE; [auto|done|done]. }
  intros w1 [Hw1 _].
  apply (u_remove failedPath w0 (delete pendingPath f)); [done|auto with go|apply Hs1| |..].
  { apply u_is_dir_remove; [by eapply u_prog_layout|auto with go|by eapply u_prog_dir]. }
  { intros g w' Hn [Hg _] Hcase.
    assert (safe g) as Hsg by (destruct Hcase as [->| ->]; left; [done|by apply u_stable_no_failed]).
    split; [by eapply HC|]. intros e. eapply HE; [auto|done|done]. }
  intros w2 [Hw2 _]. eapply HQ; [done|by apply u_stable_no_failed|left]. exists a.
  split; [|done]. apply u_consistent_delete; auto with go.
Qed.

Lemma wp_recoverPending f w : since w0 f w -> prog p f -> cleaned f0 f ->
  wp (recoverPending p) Q C w.
Proof.
  intros Hw Hp Hcl. pose proof Hp as (Hl & _ & _ & [n Ht] & _).
  assert (fresh_same f0 f) as Hf by (by destruct Hcl as (? & ? & _ & _ & _ & ?)).
  assert (safe f) as Hs by by eapply u_prog_safe.
  assert (~ calm w0 -> ~ recover_live w0 f0) as Hlive by (by intros Hn [? _]).
  assert (forall w', since w0 f w' -> wp (try! config := appliedConfigPath in undo p config.1) Q C w') as Hundo.
  { intros w' Hw'. apply wp_try, (s_reads _ _ w0 f _ _ _ reads_configPath Hw').
    { intros w2 Hn [Hw2 _]. split; [by eapply HC|]. intros e _. eapply wp_ret, HE; [auto|done|done]. }
    intros w2 [Hw2 _]. destruct (s_configPath f) as [c|e] eqn:Ec; [apply (wp_undo c.1 f); try done; intros b Hb; by eapply config_given|].
    eapply wp_ret, HE; [|done|done]. intros (_ & _ & Hu). destruct (Hu Hpend) as [Hst _].
    pose proof (config_readable f (cleaned_config f0 f Hcl Hst)) as Hok. by rewrite Ec in Hok. }
  apply wp_bind, (s_reads _ _ w0 f _ _ _ u_reads_loadApplied Hw).
  { intros w' Hn [Hw' _]. split; [by eapply HC|]. intros e He. cbn [confirmedUpdate]. apply wp_bind, wp_ret.
    rewrite He. eapply wp_ret, HE; [auto|done|done]. }
  intros w1 [Hw1 _]. pose proof (u_tracked_applied p f Hp) as Hta.
  destruct (s_applied f) as [a|e]; cbn [confirmedUpdate].
  2:{ apply wp_bind, wp_ret. rewrite Hta. by apply Hundo. }
  destruct Hta as [Ha Hsd]. destruct (matches_pending a p) eqn:Em; cbn [negb]; [|apply wp_bind, wp_ret; by apply Hundo].
  apply wp_bind, wp_bind, (s_reads _ _ w0 f _ _ _ (u_reads_verifyApplied a) Hw1).
  { intros w' Hn [Hw' _]. split; [by eapply HC|]. intros e _. apply wp_ret. by apply Hundo. }
  intros w2 [Hw2 _]. apply wp_ret. destruct (s_verifyApplied a f) as [[]|e] eqn:Ev; [|by apply Hundo].
  cbn [is_ok]. apply (u_verifyApplied_ok a f n Hl (matches_target _ _ _ Em Ht)) in Ev as [Hcur Hs'].
  by apply (wp_confirm a f).
Qed.
End pending.

(** [Recover], from a store [f]. *)
Lemma u_Recover `{Owner} m f (Q : result unit -> world -> Prop) C w :
  w_fs w = f -> has_controller m = true -> legacy_outside m -> safe f ->
  (forall g w', ~ calm w -> since w g w' -> safe g -> C w') ->
  (forall e g w', ~ recover_live w f -> since w g w' -> safe g -> Q (Err e) w') ->
  (forall g w', since w g w' -> stable g ->
     (forall p, prog p f -> resolved f p g w') -> (stable f -> cleaned f g) -> Q (Ok tt) w') ->
  wp (XrayUpdate.Recover m) Q C w.
Proof.
  intros Ef Hm Hleg Hs HC HE HQ. unfold XrayUpdate.Recover. rewrite Hm. cbn [negb].
  assert (forall g w', after w g w' -> since w g w') as Hsince by (intros g w' (? & _ & ?); by split).
  apply wp_try, (wp_cleanupStale m w f).
  { rewrite <- Ef. apply after_refl. }
  { by apply u_safe_layout. } { done. }
  { intros g w' Hn Hg Hc. eapply HC; [done|by apply Hsince|by eapply cleaned_safe]. }
  { intros e g w' Hn Hg Hc. eapply wp_ret, HE; [|by apply Hsince|by eapply cleaned_safe].
    intros (? & ? & _). by apply Hn. }
  intros g w1 Hw1%Hsince [Hcl Hd].
  apply wp_bind, (s_reads _ _ w g _ _ _ u_reads_loadPending Hw1).
  { intros w' Hn [Hw' _]. split; [eapply HC; [done|done|by eapply cleaned_safe]|]. intros e He. rewrite He.
    eapply wp_ret, HE; [by intros [? _]|done|by eapply cleaned_safe]. }
  intros w2 [Hw2 _]. destruct (decide (f !! pendingPath = None)) as [En|En].
  - assert (g !! pendingPath = None) as Eg by by rewrite (cleaned_lookup f g).
    assert (forall p, ~ prog p f) as Hno by (intros p (_ & _ & [(raw & k & t & E & _) _] & _); congruence).
    assert (stable f) as Hst by (destruct Hs as [?|[p Hp]]; [done|by destruct (Hno p)]).
    unfold s_pending. rewrite (s_parsed_None _ _ g) by done. simpl.
    eapply wp_ret, HQ; [done|by eapply cleaned_stable| |done]. intros p Hp. by destruct (Hno p).
  - destruct Hs as [(_ & E & _)|[p Hp]]; [congruence|].
    assert (prog p g) as Hpg by by eapply cleaned_prog.
    rewrite (u_holds_pending g p) by (by eapply u_prog_layout || apply Hpg).
    apply (wp_recoverPending w f p En) with (f := g); [done|done| |done|done|done].
    intros g' w' Hg' Hst Hr. eapply HQ; [done|done| |].
    + intros p' Hp'.
      assert (p' = p) as ->; [|done].
      pose proof (u_holds_pending f p (u_prog_layout _ _ Hp) ltac:(apply Hp)) as E1.
      pose proof (u_holds_pending f p' (u_prog_layout _ _ Hp') ltac:(apply Hp')) as E2. congruence.
    + intros (_ & E & _). congruence.
Qed.
End recover.
