(* ===== verification/UpdateBuild.v ===== *)
(** * Installing a version

    [buildVersion] writes the files of a release into a temporary directory and
    renames it: the version appears complete or not at all.  [installBundle] and
    [installBundleArchive] return only targets whose directory is [intact]. *)

From stdpp Require Import base gmap strings list fin_maps sorting.
From Stdlib Require Import ZArith NArith Ascii.
From S2P Require Import Prelude.
From S2P Require Import GoStrings.
From S2P Require Import Sha256.
From S2P Require Import Os.
From S2P Require Import AtomicFile.
From S2P Require Import Dirs.
From S2P Require Import XrayTypes.
From S2P Require Import XraySteps.
From S2P Require Import XrayInv.
From S2P Require Import XrayRecover.
From S2P Require Import Manifest.
From S2P Require Import UpdateTypes.
From S2P Require Import XrayUpdate.
From S2P Require Import UpdateSteps.
From S2P Require Import UpdatePrune.
From S2P Require Import UpdateInv.

(** ** What installing a version keeps *)

Record kept (f g : fs) : Prop := Kept {
  kp_stable : stable f -> stable g;
  kp_keeps : forall t n, target_of t n -> keeps f g n;
  kp_dir : is_dir f directory = true -> is_dir g directory = true;
  kp_files : forall q, q ∈ files -> g !! q = f !! q;
  kp_whole : forall n, lasting n -> same_version n f g \/ exists st, intact g n st
}.

Lemma u_kept_refl f : kept f f.
Proof. split; [done|by intros t n _ st|done|done|by left]. Qed.

Lemma u_kept_trans f g h : kept f g -> kept g h -> kept f h.
Proof.
  intros [H1 H2 H3 H4 W1] [H5 H6 H7 H8 W2]. split; [auto| |auto|..].
  - intros t n Ht st Hi. by apply (H6 t n Ht), (H2 t n Ht).
  - intros q Hq. by rewrite H8, H4.
  - intros n Hn. destruct (W2 n Hn) as [E2|?]; [|by right]. destruct (W1 n Hn) as [E1|[st Hi]]; [left|right].
    + intros rest Hr. by rewrite E2, E1.
    + exists st. by eapply intact_same.
Qed.

Lemma u_kept_equiv f g : g ≡ f -> kept f g.
Proof.
  intros Hg. split.
  - by rewrite Hg.
  - intros t n. by apply keeps_equiv.
  - by rewrite (is_dir_equiv _ _ _ Hg).
  - intros q Hq. apply Hg. by apply u_files_own in Hq as (? & _).
  - intros n Hn. left. by apply same_version_equiv.
Qed.

Lemma u_kept_mkdir d f g : home d -> dir_step d f g -> kept f g.
Proof.
  intros Hd Hs. split.
  - intros Hst. by eapply u_stable_mkdir.
  - intros t n. by eapply keeps_mkdir.
  - by eapply is_dir_mkdir.
  - intros q. by eapply u_home_lookup.
  - intros n Hn. left. by eapply same_mkdir.
Qed.

Lemma kept_collected f g : stable f -> collected f g -> stable g /\ (is_dir f directory = true -> is_dir g directory = true).
Proof. intros Hs Hc. split; [by eapply u_stable_collected|]. eapply collected_dir; [done|by left]. Qed.

(** A new version, where there was none. *)
Definition added (n : string) (f g : fs) : Prop :=
  f !! version_path n = None /\ (exists st, intact g n st) /\
  forall q, scratch q = false -> under (version_path n) q = None -> g !! q = f !! q.

Lemma added_other n f g n' : added n f g -> lasting n' -> n <> n' -> no_char slash n -> same_version n' f g.
Proof.
  intros (_ & _ & Hq) Hn' Hne Hn rest Hr. apply Hq; [by apply lasting_scratch|].
  destruct (under (version_path n) _) as [r|] eqn:E; [|done]. destruct Hne.
  symmetry. eapply under_version; [apply Hn'|exact Hn|exact Hr|by eexists].
Qed.

Lemma added_keeps n f g t n' : added n f g -> no_char slash n -> target_of t n' -> keeps f g n'.
Proof.
  intros Ha Hn [_ Hn']. destruct (decide (n = n')) as [<-|Hne]; [|by eapply u_keeps_same, added_other].
  intros st [[t' Hd] _ _ _ _ _]. destruct Ha as [Ha _]. congruence.
Qed.

Lemma added_lookup n f g q : added n f g -> scratch q = false -> under versionsDirectory q = None -> g !! q = f !! q.
Proof. intros (_ & _ & Hq) Hs Hu. apply Hq; [done|]. by apply under_trans. Qed.

Lemma added_home n f g d : added n f g -> n <> "" -> home d -> g !! d = f !! d.
Proof. intros (_ & _ & Hq) Hne Hd. apply Hq; [by apply u_home_scratch|by apply home_not_version]. Qed.

Lemma kept_added n f g : lasting n -> added n f g -> kept f g.
Proof.
  intros Hn Ha. pose proof Hn as [(Hs & Hne & _) _].
  assert (forall q, q ∈ files -> g !! q = f !! q) as Hf.
  { intros q Hq. apply u_files_own in Hq as (Hsq & _ & _ & Hu & _). by eapply added_lookup. }
  assert (layout f -> layout g) as Hl.
  { intros [L1 L2 L3 [L4 L5] L6]. split; unfold dir_or_none, no_link in *.
    - by rewrite (added_home n f g) by (done || by left).
    - by rewrite (added_home n f g) by (done || by right).
    - rewrite Forall_forall in *. intros q Hq. unfold plain_file in *. rewrite Hf by done. by apply L3.
    - rewrite !Hf by auto with go. done.
    - intros n' Hs' Hn' t. destruct (decide (n = n')) as [<-|Hnn].
      + destruct Ha as (_ & (st & [_ (raw & m & t' & Hr & _) _ _ _ _]) & _). congruence.
      + destruct Ha as (_ & _ & Hq).
        rewrite Hq; [by apply L6|done|].
        destruct (under (version_path n) (bundle_path n')) as [r|] eqn:E; [|done]. destruct Hnn. symmetry.
        apply (under_version n' n ("/" +:+ "bundle.json")); [done|done|apply tail_file|]. eexists. exact E. }
  split; [|by intros t n'; eapply added_keeps| |done|].
  - intros Hst. apply (u_stable_same f); [done|apply Hl, Hst| |by apply Hf; auto with go..].
    intros a n' _. by eapply added_keeps.
  - unfold is_dir. by rewrite (added_home n f g) by (done || by left).
  - intros n' Hn'. destruct (decide (n = n')) as [<-|Hnn]; [right; apply Ha|left; by eapply added_other].
Qed.

(** ** The directory under construction *)

Lemma requiredBundle x : isRequiredBundleFile x = true <-> x ∈ requiredBundleFiles.
Proof.
  unfold isRequiredBundleFile, requiredBundleFiles. rewrite !orb_true_iff, !bool_decide_eq_true. set_solver.
Qed.

Definition size_ok (x c : string) : Prop := (0 < Z.of_N (slen c) <= bundleEntryLimit x)%Z.

Lemma copy_ok e raw : entry_admitted e ->
  copyBundleEntry e (bundleEntryLimit (zf_name e)) = (raw, None) -> size_ok (zf_name e) raw.
Proof.
  intros ((limit & Ha & Hs) & _) Hc. destruct (allowed_limit _ _ Ha) as [E Hl]. unfold size_ok. rewrite E in *.
  unfold copyBundleEntry in Hc. destruct (Z.leb_spec limit 0); [done|].
  destruct (zf_open e); [done|]. destruct (read_entry limit e) as [raw' [x|]]; [done|].
  destruct (zf_close e); [done|]. destruct (negb _ || _) eqn:Eb; [done|]. injection Hc as <-.
  rewrite orb_false_iff, negb_false_iff, Z.eqb_eq, Z.ltb_ge in Eb. unfold entry_size in Hs. lia.
Qed.

Section build.
Context `{Env}.
Context (w0 : world) (f0 : fs) (k : N).

Definition temp_name : string := ".xray-version-" +:+ FormatUint k.
Definition temp_dir : string := version_path temp_name.

Lemma temp_entry : entry_name temp_name.
Proof.
  split_and!; [|by destruct (FormatUint k)..]. unfold temp_name. apply no_char_app.
  split; [done|apply FormatUint_no_slash].
Qed.

Lemma temp_temporary : temporary temp_name = true.
Proof.
  unfold temporary, temp_name. rewrite HasPrefix_app.
  change (sdrop 14 (".xray-version-" +:+ FormatUint k)) with (FormatUint k). by rewrite FormatUint_digits.
Qed.

Lemma temp_scratch rest : tail_path rest -> scratch (temp_dir +:+ rest) = true.
Proof. intros Hr. unfold temp_dir. rewrite below_scratch by (done || apply temp_entry). apply temp_temporary. Qed.

Lemma temp_file_scratch x : scratch (temp_dir +:+ "/" +:+ x) = true.
Proof. apply temp_scratch. apply tail_file. Qed.

Lemma plain_temp : plain_path [directory; "versions"; temp_name] temp_dir.
Proof. apply plain_version, temp_entry. Qed.

Lemma temp_join x : entry_name x -> Join temp_dir x = temp_dir +:+ "/" +:+ x.
Proof. apply (Join_plain _ _ _ plain_temp). Qed.

Lemma temp_file_inj x y : temp_dir +:+ "/" +:+ x = temp_dir +:+ "/" +:+ y -> x = y.
Proof. intros E%sapp_inj_l. by apply (sapp_inj_l "/") in E. Qed.

Lemma temp_file_dir x : temp_dir +:+ "/" +:+ x <> temp_dir.
Proof. intros E. apply (f_equal String.length) in E. rewrite slength_app in E. simpl in E. lia. Qed.

(** The files written so far, with their digests. *)
Record partial (g : fs) (digests : gmap string string) : Prop := Partial {
  pt_equiv : g ≡ f0;
  pt_dir : exists t, g !! temp_dir = Some (NDir stateDirectoryMode t);
  pt_files : map_Forall (fun x d => x ∈ requiredBundleFiles /\
    exists c t, g !! (temp_dir +:+ "/" +:+ x) = Some (NFile c (file_mode x) t) /\ d = sha256_hex c /\ size_ok x c) digests
}.

Lemma partial_is_dir g digests : partial g digests -> is_dir g temp_dir = true.
Proof. intros [_ [t Ht] _]. unfold is_dir. by rewrite Ht, orb_true_r. Qed.

Lemma partial_add g digests x c t : partial g digests -> x ∈ requiredBundleFiles -> size_ok x c ->
  partial (<[temp_dir +:+ "/" +:+ x := NFile c (file_mode x) t]> g) (<[x := sha256_hex c]> digests).
Proof.
  intros [He [t0 Hd] Hf] Hx Hc. split.
  - rewrite insert_scratch by apply temp_file_scratch. done.
  - exists t0. by rewrite lookup_insert_ne by apply temp_file_dir.
  - intros y d Hy. rewrite lookup_insert in Hy. case_decide as E.
    + simplify_eq. split; [done|]. exists c, t. by rewrite lookup_insert_eq.
    + destruct (Hf y d Hy) as (Hin & c' & t' & Hl & Hd'). split; [done|]. exists c', t'.
      rewrite lookup_insert_ne; [done|]. intros E'%temp_file_inj. congruence.
Qed.

Lemma partial_other g digests x n : partial g digests -> x ∉ requiredBundleFiles ->
  partial (<[temp_dir +:+ "/" +:+ x := n]> g) digests.
Proof.
  intros [He [t0 Hd] Hf] Hx. split.
  - rewrite insert_scratch by apply temp_file_scratch. done.
  - exists t0. by rewrite lookup_insert_ne by apply temp_file_dir.
  - intros y d Hy. destruct (Hf y d Hy) as (Hin & c' & t' & Hl & Hd'). split; [done|]. exists c', t'.
    rewrite lookup_insert_ne; [done|]. intros E'%temp_file_inj. congruence.
Qed.

(** ** Writing one file *)

Definition temp_failed {A} (Q : result A -> world -> Prop) (C : world -> Prop) : Prop :=
  forall g w', after w0 g w' -> g ≡ f0 -> (~ calm w0 -> C w') /\ forall e, Q (Err e) w'.

Lemma wp_writeTemp x c mode g digests (Q : result unit -> world -> Prop) C w :
  after w0 g w -> partial g digests -> x ∈ "bundle.json" :: requiredBundleFiles -> temp_failed Q C ->
  (forall t w', after w0 (<[temp_dir +:+ "/" +:+ x := NFile c mode (time_at t)]> g) w' -> Q (Ok tt) w') ->
  wp (XrayUpdate.writeAtomic (Join temp_dir x) c mode) Q C w.
Proof.
  intros Hw Hp Hx HF HQ. pose proof (entry_file x Hx) as Hn. rewrite temp_join by done.
  unfold XrayUpdate.writeAtomic. rewrite (Dir_plain _ _ _ plain_temp) by apply Hn.
  pose proof (partial_is_dir _ _ Hp) as Hd. pose proof Hp as [He _ _].
  apply wp_try, (wp_MkdirAll_dir _ _ w0 g); [done|done|..].
  { intros w' Hc Hw'. by apply (HF g). }
  { intros e w' Hc Hw' _. by apply wp_ret, (HF g). }
  intros w1 Hw1.
  apply (wp_replaceFile_exact False temp_dir ".xray-update-" x c mode _ w0 g);
    [done|done|by apply (Clean_plain _ _ plain_temp)|done|apply Hn|apply temp_file_scratch| |apply syncDirectory_looks| |done].
  - intros j. split; [apply temp_file_scratch|]. intros E. subst x. revert Hx. unfold requiredBundleFiles.
    intros Hx. set_unfold in Hx. by repeat destruct Hx as [Hx|Hx].
  - intros g' w' Hg Hgf. apply (HF g'); [done|by rewrite Hgf].
Qed.

Lemma wp_writeExtracted b names g digests (Q : result (gmap string string) -> world -> Prop) C w :
  after w0 g w -> partial g digests -> names ⊆ requiredBundleFiles ->
  Forall (fun x => exists c, b !! x = Some c /\ size_ok x c) names -> temp_failed Q C ->
  (forall g' digests' w', after w0 g' w' -> partial g' digests' -> Q (Ok digests') w') ->
  wp (writeExtracted temp_dir b digests names) Q C w.
Proof.
  intros Hw Hp Hsub Hb HF HQ. revert g digests w Hw Hp.
  induction Hb as [|x names (c & Ex & Hc) Hb IH]; intros g digests w Hw Hp; cbn [writeExtracted].
  { by eapply wp_ret, HQ. }
  cbv zeta. rewrite Ex. simpl. apply wp_try, (wp_writeTemp x c _ g digests); [done|done|set_solver|..].
  { intros g' w' Hg Hgf. destruct (HF g' w' Hg Hgf) as [H1 H2]. split; [done|]. intros e. apply wp_ret. exact (H2 e). }
  intros t w' Hw'. eapply IH; [set_solver|done|]. apply partial_add; [done|set_solver|done].
Qed.

Lemma wp_fillEntry x mode entry limit g (Q : result string -> world -> Prop) C w p :
  after w0 (<[p := NFile "" mode x]> g) w -> scratch p = true -> g ≡ f0 -> temp_failed Q C ->
  (forall raw t w', copyBundleEntry entry limit = (raw, None) ->
     after w0 (<[p := NFile raw mode t]> g) w' -> Q (Ok (sha256_hex raw)) w') ->
  wp (let '(raw, err) := copyBundleEntry entry limit in
      let! written := (if bool_decide (raw = "") then ret (Ok tt) else Write p raw) in
      let copyErr := match written with Err e => Some e | Ok _ => err end in
      let! synced := (match copyErr with None => Sync p | Some _ => ret (Ok tt) end) in
      let copyErr := match copyErr, synced with None, Err e => Some e | c, _ => c end in
      let! closed := Close p in
      ret (match copyErr, closed with
           | Some e, _ => Err e
           | None, Err e => Err e
           | None, Ok _ => Ok (sha256_hex raw)
           end)) Q C w.
Proof.
  intros Hw Hs Hg HF HQ. destruct (copyBundleEntry entry limit) as [raw err] eqn:Ec.
  assert (forall n, <[p := n]> g ≡ f0) as Heq by (intros n; by rewrite insert_scratch).
  assert (forall h w' ce, after w0 h w' -> h ≡ f0 -> (ce = None -> forall w2, after w0 h w2 -> Q (Ok (sha256_hex raw)) w2) ->
    wp (let! closed := Close p in ret (match ce, closed with
           | Some e, _ => Err e | None, Err e => Err e | None, Ok _ => Ok (sha256_hex raw) end)) Q C w') as Hclose.
  { intros h w' ce Hw' Hh Hok. apply wp_bind, (wp_sys_read _ w0 h); [done|intros; by eapply HF|..].
    - intros m w2 _ Hw2. apply wp_ret. destruct ce; by eapply HF.
    - intros w2 Hw2. apply wp_ret. destruct ce; [by eapply HF|by apply Hok]. }
  apply wp_bind.
  assert (forall h w' ce, after w0 h w' -> h ≡ f0 -> is_Some (h !! p) ->
    (ce = None -> forall w2, after w0 h w2 -> Q (Ok (sha256_hex raw)) w2) ->
    wp (let! synced := (match ce with None => Sync p | Some _ => ret (Ok tt) end) in
        let! closed := Close p in
        ret (match (match ce, synced with None, Err e => Some e | c, _ => c end), closed with
             | Some e, _ => Err e | None, Err e => Err e | None, Ok _ => Ok (sha256_hex raw) end)) Q C w') as Hsync.
  { intros h w' ce Hw' Hh [y Hy] Hok. apply wp_bind. destruct ce as [e|].
    { apply wp_ret. by apply (Hclose h w' (Some e)). }
    apply (wp_sys_read _ w0 h); [done|intros; by eapply HF|..].
    - intros m w2 _ Hw2. by apply (Hclose h w2 (Some (errorsNew m))).
    - intros w2 Hw2. rewrite Hy. by apply (Hclose h w2 None). }
  case_bool_decide as Er.
  - subst raw. apply wp_ret. apply (Hsync (<[p := NFile "" mode x]> g) w err); [done|done|by rewrite lookup_insert_eq|].
    intros -> w2 Hw2. by eapply HQ.
  - apply (wp_sys _ w0 _ _ _ _ Hw); [intros; by eapply HF|..].
    + intros m w' _ Hw'. apply (Hsync (<[p := NFile "" mode x]> g) w' (Some (errorsNew m))); [done|done|by rewrite lookup_insert_eq|done].
    + intros t _ w' Hw'. unfold fs_append in *. rewrite lookup_insert_eq in *. simpl in *.
      rewrite insert_insert_eq, app_Empty in Hw'.
      apply (Hsync (<[p := NFile raw mode (time_at t)]> g) w' err); [done|done|by rewrite lookup_insert_eq|].
      intros -> w2 Hw2. by eapply HQ.
Qed.

Lemma wp_writeBundleEntry x entry limit mode g digests (Q : result string -> world -> Prop) C w :
  after w0 g w -> partial g digests -> x ∈ requiredBundleFiles -> temp_failed Q C ->
  (forall raw t w', copyBundleEntry entry limit = (raw, None) ->
     after w0 (<[temp_dir +:+ "/" +:+ x := NFile raw mode t]> g) w' -> Q (Ok (sha256_hex raw)) w') ->
  wp (writeBundleEntry (Join temp_dir x) entry limit mode) Q C w.
Proof.
  intros Hw Hp Hx HF HQ. pose proof Hp as [He _ _].
  assert (entry_name x) as Hn by (apply entry_file; by right). rewrite temp_join by done.
  set (q := temp_dir +:+ "/" +:+ x). assert (scratch q = true) as Hs by apply temp_file_scratch.
  assert (forall n, <[q := n]> g ≡ f0) as Heq by (intros n; by rewrite insert_scratch).
  apply wp_try, (wp_OpenExcl _ _ w0 g); [done|..].
  { intros w' Hw'. destruct (HF g w' Hw' He) as [H1 H2]. split; [done|]. intros e. apply wp_ret. exact (H2 e). }
  intros t w1 Hnone Hw1.
  apply wp_try, (wp_sys _ w0 _ _ _ _ Hw1); [intros; by eapply HF|..].
  { intros m w' _ Hw'. apply wp_bind, (wp_sys_read _ w0 _ _ _ _ Hw'); [intros; by eapply HF|..].
    - intros m' w2 _ Hw2. apply wp_ret. by eapply HF.
    - intros w2 Hw2. apply wp_ret. by eapply HF. }
  intros _ _ w2 Hw2. unfold fs_chmod in *. rewrite lookup_insert_eq in *. simpl in *.
  rewrite insert_insert_eq in Hw2. by apply (wp_fillEntry t mode entry limit g).
Qed.

Lemma wp_writeEntries entries g digests (Q : result (gmap string string) -> world -> Prop) C w :
  after w0 g w -> partial g digests -> Forall entry_admitted entries -> temp_failed Q C ->
  (forall g' digests' w', after w0 g' w' -> partial g' digests' -> Q (Ok digests') w') ->
  wp (writeEntries temp_dir digests entries) Q C w.
Proof.
  intros Hw Hp Ha HF HQ. revert g digests w Hw Hp.
  induction Ha as [|e entries He Ha IH]; intros g digests w Hw Hp; cbn [writeEntries]; [by eapply wp_ret, HQ|].
  cbv zeta. destruct (isRequiredBundleFile (zf_name e)) eqn:Er; cbn [negb].
  - apply requiredBundle in Er. apply wp_try, (wp_writeBundleEntry (zf_name e) e _ _ g digests); [done|done|done|..].
    + intros g' w' Hg Hgf. destruct (HF g' w' Hg Hgf) as [H1 H2]. split; [done|]. intros e'. apply wp_ret, H2.
    + intros raw t w' Hc Hw'. eapply IH; [done|]. apply partial_add; [done|done|by apply copy_ok].
  - destruct (copyBundleEntry e _).2 as [x|]; [|by eapply IH]. apply wp_ret. eapply HF; [done|apply Hp].
Qed.

(** ** The complete directory *)

Lemma checkDigests_ok digests names : checkDigests digests names = Ok tt ->
  Forall (fun x => digest_len (default "" (digests !! x)) = true) names.
Proof.
  induction names as [|x names IH]; cbn [checkDigests]; [constructor|].
  destruct (digest_len _) eqn:E; cbn [negb]; [|done]. intros Hc. constructor; auto.
Qed.

Lemma partial_digests g digests : partial g digests -> checkDigests digests requiredBundleFiles = Ok tt ->
  digests_ok digests.
Proof.
  intros [_ _ Hf] Hc%checkDigests_ok. split.
  - apply set_eq. intros x. rewrite elem_of_list_to_set, elem_of_dom. split.
    + intros [d Hd]. by destruct (Hf x d Hd).
    + intros Hx. rewrite Forall_forall in Hc. specialize (Hc x Hx). destruct (digests !! x); [by eexists|done].
  - intros x d Hd. destruct (Hf x d Hd) as (_ & c & t & _ & -> & _). apply sha256_hex_digest.
Qed.

Context (version xrayVersion archiveDigest : string).
Context (Hversion : Manifest.validateVersion version = Ok tt) (Hxray : Manifest.validateVersion xrayVersion = Ok tt).
Context (Hdigest : digest_ok archiveDigest) (Hname : version <> ".xray-version").

Definition version_name : string := version +:+ "-" +:+ archiveDigest.

Lemma version_lasting : lasting version_name.
Proof. apply version_digest_lasting; [done|done|apply Hdigest|by apply digest_ok_decodes]. Qed.

Definition new_bundle (digests : gmap string string) : bundleState := MkBundle version xrayVersion archiveDigest digests.

Lemma temp_apart : apart temp_dir (version_path version_name).
Proof.
  pose proof version_lasting as [(Hs & Hne & _) Ht]. pose proof temp_entry as (Hs' & Hne' & _).
  assert (temp_name <> version_name) as Hn by (intros E; pose proof temp_temporary as E'; rewrite E in E'; congruence).
  split.
  - destruct (under temp_dir (version_path version_name)) as [r|] eqn:E; [|done]. destruct Hn. symmetry.
    apply (under_version version_name temp_name ""); [done|done|apply tail_none|]. rewrite sapp_nil_r. by eexists.
  - destruct (under (version_path version_name) temp_dir) as [r|] eqn:E; [|done]. destruct Hn.
    apply (under_version temp_name version_name ""); [done|done|apply tail_none|]. rewrite sapp_nil_r. by eexists.
Qed.

(** Renaming the complete directory adds the version. *)
Lemma rename_added g digests raw t :
  partial g digests -> checkDigests digests requiredBundleFiles = Ok tt ->
  g !! (temp_dir +:+ "/" +:+ "bundle.json") = Some (NFile raw stateFileMode t) ->
  raw = encode_bundle (new_bundle digests) -> f0 !! version_path version_name = None ->
  let h := relocate temp_dir (version_path version_name) g in
  added version_name f0 h /\ intact h version_name (new_bundle digests).
Proof.
  intros Hp Hc Hb -> Hnone h. pose proof (partial_digests g digests Hp Hc) as Hd.
  pose proof Hp as [He [t0 Hdir] Hf]. pose proof temp_apart as Hap.
  assert (forall rest, tail_path rest -> h !! (version_path version_name +:+ rest) = g !! (temp_dir +:+ rest)) as Hh.
  { intros rest Hr. unfold h. rewrite relocate_lookup by done. by rewrite under_app. }
  assert (intact h version_name (new_bundle digests)) as Hi.
  { split.
    - exists t0. rewrite <- (sapp_nil_r (version_path version_name)), Hh, sapp_nil_r; auto with go.
    - exists (encode_bundle (new_bundle digests)), stateFileMode, t. split.
      + unfold bundle_path. rewrite (Hh "/bundle.json") by apply (tail_file "bundle.json"). exact Hb.
      + by apply parse_encode_bundle.
    - unfold bundleComplete. simpl. rewrite Hversion, Hxray, (digests_size _ Hd). cbn [is_ok andb].
      unfold digest_len. destruct Hdigest as [Hl _]. by rewrite Hl.
    - by apply digest_ok_decodes.
    - done.
    - apply Forall_forall. intros x Hx. apply checkDigests_ok in Hc. rewrite Forall_forall in Hc.
      split; [by apply Hc|]. destruct Hd as [Hdom _].
      assert (is_Some (digests !! x)) as [d Ed] by (apply elem_of_dom; rewrite Hdom; by apply elem_of_list_to_set).
      simpl. rewrite Ed. simpl. destruct (Hf x d Ed) as (_ & c & t' & Hl & -> & Hs).
      exists c, t'. rewrite (Hh ("/" +:+ x)) by apply tail_file. done. }
  split; [|done]. split; [done|]. split; [by eexists|].
  intros q Hq Hu. unfold h. rewrite relocate_lookup by done. rewrite Hu.
  destruct (under temp_dir q) as [r|] eqn:E; [|by apply He].
  apply under_Some in E as [-> Hr]. by rewrite temp_scratch in Hq.
Qed.
End build.

(** ** Building and installing *)

Section install.
Context `{Env}.
Context (version xrayVersion archiveDigest : string).
Context (Hversion : Manifest.validateVersion version = Ok tt) (Hxray : Manifest.validateVersion xrayVersion = Ok tt).
Context (Hdigest : digest_ok archiveDigest) (Hname : version <> ".xray-version").
Context (w0 : world).

Notation name := (version_name version archiveDigest).

Definition release_of (st : bundleState) : Prop :=
  b_version st = version /\ b_xray st = xrayVersion /\ b_digest st = archiveDigest.

(** What an installation may end in, from store [f]. *)
Definition install_failed {A} (f : fs) (Q : result A -> world -> Prop) (C : world -> Prop) : Prop :=
  forall g w', after w0 g w' -> kept f g -> (~ calm w0 -> C w') /\ forall e, Q (Err e) w'.
Definition install_done (f : fs) (Q : result string -> world -> Prop) : Prop :=
  forall g st w', after w0 g w' -> kept f g -> intact g name st -> release_of st ->
    Q (Ok ("versions/" +:+ name)) w'.

(** [writeFiles] fills the temporary directory with the files of a bundle. *)
Definition fills (writeFiles : string -> io (result (gmap string string))) : Prop :=
  forall f0 k g (Q : result (gmap string string) -> world -> Prop) C w,
    after w0 g w -> partial f0 k g ∅ -> temp_failed w0 f0 Q C ->
    (forall g' digests w', after w0 g' w' -> partial f0 k g' digests -> Q (Ok digests) w') ->
    wp (writeFiles (temp_dir k)) Q C w.

Lemma wp_cleanTemp k g (Q : world -> Prop) C w :
  after w0 g w ->
  (forall g' w', after w0 g' w' -> g' ≡ g -> (~ calm w0 -> C w') /\ Q w') ->
  wp (removeBundleDirectory (temp_dir k)) (fun _ => Q) C w.
Proof.
  intros Hw HQ. apply (wp_removeBundleDirectory w0 (fun g' => g' ≡ g) _ g); [done|done|..].
  - intros g' x Hg Hx. rewrite temp_join by (apply entry_file; set_solver).
    rewrite delete_scratch by apply temp_file_scratch. done.
  - intros g' Hg. rewrite delete_scratch; [done|]. rewrite <- (sapp_nil_r (temp_dir k)).
    apply temp_scratch, tail_none.
  - intros g' w' Hg' Hgg. destruct (HQ g' w' Hg' Hgg) as [H1 H2]. by split.
Qed.

Lemma wp_buildVersion writeFiles f (Q : result string -> world -> Prop) C w :
  after w0 f w -> layout f -> is_dir f directory = true -> f !! version_path name = None -> fills writeFiles ->
  install_failed f Q C -> install_done f Q ->
  wp (buildVersion version xrayVersion archiveDigest (version_path name) ("versions/" +:+ name) writeFiles) Q C w.
Proof.
  intros Hw Hl Hd Hnone Hfill HF HQ. unfold buildVersion.
  apply wp_try, (wp_MkdirAll _ _ w0 f); [done|done|apply Hl|done|..].
  { intros w' Hc Hw'. eapply HF; [done|apply u_kept_refl|done]. }
  { intros e w' Hc Hw' _. apply wp_ret. eapply HF; [done|apply u_kept_refl]. }
  intros f1 w1 Hw1 Hs1 Hd1.
  assert (kept f f1) as Hk1 by (eapply u_kept_mkdir; [by right|done]).
  assert (f1 !! version_path name = None) as Hnone1.
  { destruct Hs1 as [->|(m & t & ->)]; [done|]. rewrite lookup_insert_ne; [done|].
    unfold version_path. intros E. apply (f_equal String.length) in E. rewrite slength_app in E. simpl in E. lia. }
  clear Hs1.
  assert (forall g, g ≡ f1 -> kept f g) as Hkeq.
  { intros g Hg. eapply u_kept_trans; [exact Hk1|by apply u_kept_equiv]. }
  assert (forall g h, added name f1 g -> h ≡ g -> kept f h) as Hkad.
  { intros g h Hg Hh. eapply u_kept_trans; [exact Hk1|]. eapply u_kept_trans; [|by apply u_kept_equiv].
    eapply kept_added; [by apply (version_lasting version archiveDigest)|done]. }
  apply wp_try, (wp_MkdirTemp versionsDirectory ".xray-version-" w0 f1);
    [done|done|by apply (Clean_plain _ _ plain_versions)|done|..].
  { intros w' Hc Hw'. by eapply HF. }
  { intros m w' Hc Hw'. apply wp_ret. by eapply HF. }
  intros k t w2 p Hp Hw2. change p with (temp_dir k) in *. clear p.
  assert (forall n, <[temp_dir k := n]> f1 ≡ f1) as Heq.
  { intros n. apply insert_scratch. rewrite <- (sapp_nil_r (temp_dir k)). apply temp_scratch, tail_none. }
  apply wp_defer.
  set (Q1 := fun (r : result string) => wp (removeBundleDirectory (temp_dir k)) (fun _ => Q r) C).
  assert (temp_failed w0 f1 Q1 C) as HF1.
  { intros g w' Hg Hgf. split; [intros Hc; eapply HF; [done|by apply Hkeq|done]|].
    intros e. apply (wp_cleanTemp k g); [done|]. intros g' w3 Hg' Hgg.
    assert (kept f g') as Hk by (apply Hkeq; by rewrite Hgg).
    split; [intros Hc; by eapply HF|by eapply HF]. }
  assert (forall g w', ~ calm w0 -> after w0 g w' -> g ≡ f1 -> C w') as HC1 by (intros; by eapply HF1).
  assert (forall g e w', after w0 g w' -> g ≡ f1 -> Q1 (Err e) w') as HE1.
  { intros g e w' Hg Hgf. destruct (HF1 g w' Hg Hgf) as [_ HE]. exact (HE e). }
  apply wp_try, (wp_sys _ w0 _ _ _ _ Hw2); [intros; by eapply HC1|intros; apply wp_ret; by eapply HE1|].
  intros _ _ w3 Hw3. unfold fs_chmod in *. rewrite lookup_insert_eq in *. cbn [fst snd] in *. rewrite insert_insert_eq in Hw3.
  apply wp_try, (Hfill f1 k (<[temp_dir k := NDir stateDirectoryMode t]> f1)); [done|..].
  { split; [apply Heq|exists t; by rewrite lookup_insert_eq|apply map_Forall_empty]. }
  { intros g w' Hg Hgf. split; [intros Hc; by eapply HC1|]. intros e. apply wp_ret. by eapply HE1. }
  intros g digests w4 Hw4 Hpt. pose proof Hpt as [Hge _ _].
  destruct (checkDigests digests requiredBundleFiles) as [[]|e] eqn:Ec; [|apply wp_ret; by eapply HE1].
  apply wp_try, (wp_writeTemp w0 f1 k "bundle.json" _ _ g digests); [done|done|by left|..].
  { intros g' w' Hg Hgf. split; [intros Hc; by eapply HC1|]. intros e. apply wp_ret. by eapply HE1. }
  intros t2 w5 Hw5. set (g2 := <[_ := _]> g) in *.
  assert (partial f1 k g2 digests) as Hp2.
  { apply partial_other; [done|]. intros E. revert E. unfold requiredBundleFiles. set_solver. }
  pose proof Hp2 as [Hge2 _ _].
  apply wp_try, (wp_syncDirectory _ w0 g2); [done|intros; by eapply HC1|].
  intros [[]|e] w6 Hw6 _; [|apply wp_ret; by eapply HE1].
  apply wp_try, (wp_RenameDir _ _ w0 g2); [done|..].
  { intros w' Hw'. split; [intros Hc; by eapply HC1|]. intros e. apply wp_ret. by eapply HE1. }
  intros w7 Hw7.
  destruct (rename_added f1 k version xrayVersion archiveDigest Hversion Hxray Hdigest Hname g2 digests _ (time_at t2)
    Hp2 Ec (lookup_insert_eq _ _ _) eq_refl Hnone1) as [Hadd Hi].
  set (h := relocate _ _ g2) in *.
  assert (forall r, (match r with Ok x => x = "versions/" +:+ name | Err _ => True end) ->
    forall w', after w0 h w' -> Q1 r w') as Hend.
  { intros r Hr w' Hw'. apply (wp_cleanTemp k h); [done|]. intros g' w8 Hg' Hgh.
    assert (kept f g') as Hk by by eapply Hkad. split; [intros Hc; by eapply HF|].
    destruct r as [x|e]; [subst x|by eapply HF]. apply (HQ g' (new_bundle version xrayVersion archiveDigest digests)); [done|done| |by split_and!].
    eapply keeps_equiv; [exact Hgh| |exact Hi]. split; [reflexivity|by apply version_lasting]. }
  apply wp_try, (wp_syncDirectory _ w0 h); [done|intros w' Hc Hw'; eapply HF; [done|by eapply Hkad|done]|].
  intros [[]|e] w8 Hw8 _; apply wp_ret; by apply Hend.
Qed.

(** [installBundleFiles]: the target of an intact version of the release. *)
Lemma wp_installBundleFiles writeFiles f (Q : result string -> world -> Prop) C w :
  after w0 f w -> layout f -> is_dir f directory = true -> fills writeFiles ->
  install_failed f Q C -> install_done f Q ->
  wp (installBundleFiles version xrayVersion archiveDigest writeFiles) Q C w.
Proof.
  intros Hw Hl Hd Hfill HF HQ. unfold installBundleFiles. cbv zeta. fold name.
  pose proof (version_lasting version archiveDigest Hversion Hdigest Hname) as Hlast.
  pose proof Hlast as [Hn _].
  assert (target_of ("versions/" +:+ name) name) as Ht by (split; [reflexivity|done]).
  assert (Join "versions" name = "versions/" +:+ name) as -> by (rewrite Join_entry by (apply entry_versions || done); done).
  assert (Join directory ("versions/" +:+ name) = version_path name) as ->.
  { pose proof (target_of_valid _ _ Ht) as (Hv & _ & _). destruct (u_target_path _ Hv) as (n' & _ & E & Ej & _).
    apply (sapp_inj_l "versions/") in E. by rewrite Ej, E. }
  apply wp_bind, (reads_sys (fun f => fs_lstat f (version_path name)) w0 f); [done|..].
  { intros w' Hc Hw'. split; [eapply HF; [done|apply u_kept_refl|done]|]. intros e He. rewrite He.
    apply wp_ret. eapply HF; [done|apply u_kept_refl]. }
  intros w1 Hw1. unfold fs_lstat. destruct (f !! version_path name) as [x|] eqn:Ex.
  2:{ simpl. by apply (wp_buildVersion writeFiles f). }
  apply wp_try, (reads_load _ w0 f); [done|..].
  { intros w' Hc Hw'. split; [eapply HF; [done|apply u_kept_refl|done]|]. intros e _.
    apply wp_ret. eapply HF; [done|apply u_kept_refl]. }
  intros w2 Hw2. destruct (s_load _ f) as [st|e] eqn:El; [|apply wp_ret; eapply HF; [done|apply u_kept_refl]].
  apply (u_load_ok f _ _ st Hl Ht) in El.
  destruct (_ || _ || _) eqn:Eo; [apply wp_ret; eapply HF; [done|apply u_kept_refl]|].
  rewrite !orb_false_iff, !negb_false_iff, !bool_decide_eq_true in Eo.
  eapply wp_ret, HQ; [done|apply u_kept_refl|exact El|]. by destruct Eo as [[? ?] ?].
Qed.

(** The two ways to fill the directory. *)
Lemma fills_extracted b : Forall (fun x => exists c, b !! x = Some c /\ size_ok x c) requiredBundleFiles ->
  fills (fun dir => writeExtracted dir b ∅ requiredBundleFiles).
Proof. intros Hb f0 k g Q C w Hw Hp HF HQ. by apply (wp_writeExtracted w0 f0 k b _ g ∅). Qed.

Lemma fills_entries entries : Forall entry_admitted entries -> fills (fun dir => writeEntries dir ∅ entries).
Proof. intros He f0 k g Q C w Hw Hp HF HQ. by apply (wp_writeEntries w0 f0 k entries g ∅). Qed.
End install.

(** An extracted bundle has the three files, within their limits. *)
Lemma extracted_sizes opened b : extractBundle opened = Ok b ->
  Forall (fun x => exists c, b !! x = Some c /\ size_ok x c) requiredBundleFiles.
Proof.
  unfold extractBundle. destruct opened as [l|]; [|done]. intros (l' & Hv & He)%rbind_Ok.
  apply validate_ok in Hv as [(Ha & Hnd & Hreq & _) ->]. apply extract_ok in He as [Hr ->]; [|done].
  apply Forall_forall. intros x Hx. pose proof (Hreq x Hx) as (e & E & Hin)%list_elem_of_fmap.
  exists (zf_bytes e). rewrite Forall_forall in Ha, Hr. specialize (Ha e Hin). specialize (Hr e Hin). split.
  - apply files_of_lookup; [done|left]. split; [by apply requiredBundle|]. by exists e.
  - destruct Ha as ((limit & Hal & Hs) & _), Hr as (_ & _ & _ & Hz). destruct (allowed_limit _ _ Hal) as [El _].
    unfold size_ok. rewrite E, El, Hz. done.
Qed.
