(* ===== verification/UpdateApply.v ===== *)
(** * Activating a version

    [installPrepared] once the version is on disk: admission, the checks of the
    candidate, the recorded intention, the switch, and the record.  Under any
    failures the store stays [safe]; success and rollback are stated exactly. *)

From stdpp Require Import base gmap strings list fin_maps sorting.
From Stdlib Require Import ZArith NArith Ascii.
From S2P Require Import Prelude.
From S2P Require Import GoStrings.
From S2P Require Import Sha256.
From S2P Require Import Json.
From S2P Require Import Os.
From S2P Require Import AtomicFile.
From S2P Require Import Dirs.
From S2P Require Import XrayTypes.
From S2P Require Import XrayRuntime.
From S2P Require Import XraySteps.
From S2P Require Import XrayInv.
From S2P Require Import XrayRecover.
From S2P Require Import Manifest.
From S2P Require Import UpdateTypes.
From S2P Require Import XrayUpdate.
From S2P Require Import UpdateSteps.
From S2P Require Import UpdatePrune.
From S2P Require Import UpdateInv.
From S2P Require Import UpdateRecover.
From S2P Require Import UpdateStart.
From S2P Require Import UpdateBuild.

(** ** The candidate's executable *)

Definition run_step (w w' : world) : Prop :=
  w_fs w' = w_fs w /\ w_run w' = w_run w /\ (w_pc w <= w_pc w')%nat.

(** Running the candidate leaves the state directory alone. *)
Class BundleRunnerLaws `{Env} `{BundleRunner} : Prop := {
  version_law binary version w :
    match ValidateVersion binary version w with
    | (w', Done _) => run_step w w'
    | (w', Crashed) => run_step w w' /\ ~ calm w
    end;
  config_law binary config w :
    match ValidateConfig binary config w with
    | (w', Done _) => run_step w w'
    | (w', Crashed) => run_step w w' /\ ~ calm w
    end
}.

Section apply.
Context `{Env} `{Controller} `{!ControllerLaws} `{!ClockOk} `{BundleRunner} `{!BundleRunnerLaws}.

Lemma run_onward w0 f w w' : since w0 f w -> run_step w w' -> onward w0 w f w'.
Proof. intros [Hf Hpc] (E & Er & Hpc'). split; [split; [congruence|lia]|done]. Qed.

Lemma wp_candidate (m : io (result unit)) w0 f (Q : result unit -> world -> Prop) C w :
  (forall w, match m w with
             | (w', Done _) => run_step w w'
             | (w', Crashed) => run_step w w' /\ ~ calm w
             end) ->
  since w0 f w ->
  (forall w', ~ calm w0 -> onward w0 w f w' -> C w') ->
  (forall r w', onward w0 w f w' -> Q r w') -> wp m Q C w.
Proof.
  intros Hm Hw HC HQ. unfold wp. specialize (Hm w). destruct (m w) as [w' [r|]].
  - apply HQ. by apply run_onward.
  - destruct Hm as [Hs Hn]. apply HC; [exact (since_calm _ _ _ Hw Hn)|by apply run_onward].
Qed.

(** ** Outcomes *)

(** What is applied is the version of [p]. *)
Definition applies (p : pendingState) (a : AppliedState) : Prop :=
  a_target a = p_target p /\ a_version a = p_version p /\ a_xray a = p_xray p /\ a_digest a = p_digest p.

Definition concluded (p : pendingState) (res : result Result) (g : fs) (w : world) : Prop :=
  match res with
  | Err _ => safe g
  | Ok x =>
      (exists a, x = resultFromApplied a /\ stable g /\ consistent g a /\ applies p a) \/
      exists conf failure code, x = XrayUpdate.failed_result p failure code RecoveryStatusRolledBack true /\
        rolled_back p conf failure code g w
  end.

(** Pending, and the version to switch to is intact. *)
Definition ready (p : pendingState) (f : fs) : Prop :=
  prog p f /\ exists n st, target_of (p_target p) n /\ intact f n st /\
    b_version st = p_version p /\ b_xray st = p_xray p /\ b_digest st = p_digest p.

Lemma ready_keep p f g : ready p f -> prog p g ->
  (forall n, target_of (p_target p) n -> keeps f g n) -> ready p g.
Proof.
  intros [_ (n & st & Ht & Hi & Hst)] Hp Hk. split; [done|]. exists n, st. split_and!; [done|by apply (Hk n Ht)|apply Hst..].
Qed.

Lemma u_ready_equiv p f g : g ≡ f -> ready p f -> ready p g.
Proof.
  intros Hg Hr. eapply ready_keep; [done|rewrite Hg; apply Hr|]. intros n. by apply keeps_equiv.
Qed.

Lemma u_ready_link p f q t : ready p f -> q = currentPath \/ q = previousPath -> ready p (<[q := NLink t]> f).
Proof.
  intros Hr Hq. eapply ready_keep; [done|apply u_prog_link; [apply Hr|done]|]. intros n _.
  apply keeps_insert. destruct Hq as [-> | ->]; auto with go.
Qed.

Section transaction.
Context (w0 : world) (p : pendingState).
Context (Q : result Result -> world -> Prop) (C : world -> Prop).
Context (HC : forall g w', ~ calm w0 -> since w0 g w' -> safe g -> C w').
Context (HQ : forall r g w', since w0 g w' -> concluded p r g w' -> Q r w').

Lemma wp_rollBack conf failure code f w : since w0 f w -> prog p f ->
  wp (XrayUpdate.rollbackResult p conf failure code) Q C w.
Proof.
  intros Hw Hp. apply (u_rollbackResult w0 f p conf failure code f); [done|done|done|done|..].
  - intros e g w' Hg Hs _. by eapply HQ.
  - intros g w' Hg Hr. eapply HQ; [done|right]. by exists conf, failure, code.
Qed.

(** The applied state is on disk: forget the intention, collect. *)
Lemma u_finish a f w : since w0 f w -> prog p f -> consistent f a -> applies p a ->
  wp (try! _ := XrayUpdate.removeAndSync pendingPath
        catch e => ret (unconfirmedError (errorW "confirm Xray binary update: " e)) in
      try! _ := XrayUpdate.removeAndSync failedPath
        catch e => ret (unconfirmedError (errorW "clear failed Xray binary update: " e)) in
      try! _ := XrayUpdate.pruneVersions
        catch e => ret (XrayUpdate.persistError (errorW "garbage collect Xray versions: " e)) in
      ret (Ok (resultFromApplied a))) Q C w.
Proof.
  intros Hw Hp Hc Ha.
  assert (stable (delete pendingPath f)) as Hs1 by (apply (u_prog_done p); [done|right; by exists a]).
  assert (consistent (delete pendingPath f) a) as Hc1 by (apply u_consistent_delete; auto with go).
  apply wp_try, (u_remove pendingPath w0 f); [done|auto with go|by eapply u_prog_layout|by eapply u_prog_dir|..].
  { intros g w' Hn [Hg _] Hcase.
    assert (safe g) as Hsg by (destruct Hcase as [->| ->]; [by eapply u_prog_safe|by left]).
    split; [by eapply HC|]. intros e. by eapply wp_ret, HQ. }
  intros w1 [Hw1 _]. set (f1 := delete pendingPath f) in *.
  assert (stable (delete failedPath f1)) as Hs2 by by apply u_stable_no_failed.
  assert (consistent (delete failedPath f1) a) as Hc2 by (apply u_consistent_delete; auto with go).
  apply wp_try, (u_remove failedPath w0 f1); [done|auto with go|apply Hs1| |..].
  { apply u_is_dir_remove; [by eapply u_prog_layout|auto with go|by eapply u_prog_dir]. }
  { intros g w' Hn [Hg _] Hcase.
    assert (safe g) as Hsg by (destruct Hcase as [->| ->]; by left).
    split; [by eapply HC|]. intros e. by eapply wp_ret, HQ. }
  intros w2 [Hw2 _]. set (f2 := delete failedPath f1) in *.
  apply wp_try, (u_pruneVersions w2 f2); [by eapply since_after|].
  intros g w3 Hg Hcase.
  assert (stable g /\ consistent g a) as [Hsg Hcg].
  { destruct Hcase as [->|Hcol]; [done|]. split; [by eapply u_stable_collected|].
    eapply collected_consistent; [apply Hs2|done|done]. }
  pose proof (onward_after _ _ _ _ _ Hw2 Hg) as [Hw3 _].
  split; [intros Hn; eapply HC; [exact (since_calm _ _ _ Hw2 Hn)|done|by left]|].
  intros [[]|e]; [eapply wp_ret, HQ; [done|left; by exists a]|eapply wp_ret, HQ; [done|by left]].
Qed.

Lemma u_recordApplied conf f w : since w0 f w -> ready p f -> f !! currentPath = Some (NLink (p_target p)) ->
  wp (XrayUpdate.recordApplied p conf) Q C w.
Proof.
  intros Hw [Hp (n & st & Ht & Hi & Hst)] Hcur. unfold XrayUpdate.recordApplied.
  apply wp_bind, (s_Now w0 f); [done|]. intros k w1 [Hw1 _]. cbv zeta.
  set (a := MkApplied _ _ _ _ _).
  pose proof Hp as (_ & _ & [_ (_ & _ & _ & Htext & _ & _ & Hval & _)] & _).
  apply validatePending_ok in Hval. destruct (clock_unix k) as [Hz _].
  assert (validateAppliedState a = Ok tt) as Hva.
  { apply validateApplied_ok. destruct Hst as (_ & _ & Ed). split; simpl; try apply Hval.
    rewrite <- Ed. apply Hi. }
  assert (applied_ok a) as Hok by (split; [exact Hz|by split]).
  assert (sound f a) as Hs by (split; [done|]; exists n, st; by split_and!).
  assert (forall m t, consistent (<[appliedPath := NFile (encode_applied a) m t]> f) a) as Hca.
  { intros m t. split; [by apply u_applied_write|]. split; [by rewrite lookup_insert_ne|].
    eapply u_sound_keep; [|exact Hs]. intros n' _. apply keeps_insert; auto with go. }
  apply wp_try. unfold XrayUpdate.persistState.
  apply (u_write appliedPath _ w0 f); [done|auto with go|by eapply u_prog_layout|by eapply u_prog_dir|..].
  { intros g w' Hn [Hg _] Hcase.
    assert (prog p g) as Hpg by (destruct Hcase as [->|[t ->]]; [done|by apply u_prog_applied]).
    split; [eapply HC; [done|done|by eapply u_prog_safe]|]. intros e. by eapply wp_rollBack. }
  intros g t w2 [Hw2 _] Hg. apply (u_finish a g); [done|rewrite Hg; by apply u_prog_applied| |done].
  by eapply u_consistent_equiv.
Qed.

Lemma u_linkPrevious conf f w : since w0 f w -> ready p f -> f !! currentPath = Some (NLink (p_target p)) ->
  wp (try! _ := (if bool_decide (p_prev p = "") then ret (Ok tt) else XrayUpdate.atomicSymlink (p_prev p) previousPath)
        catch e => XrayUpdate.rollbackResult p conf (UpdateTypes.cleanError "record previous Xray binary" e)
                     UpdateTypes.ErrorCodePersistenceFailed in
      XrayUpdate.recordApplied p conf) Q C w.
Proof.
  intros Hw Hr Hcur. pose proof Hr as [Hp _]. apply wp_try. case_bool_decide as E.
  { apply wp_ret. by apply (u_recordApplied conf f). }
  apply (u_symlink _ _ w0 f); [done|by eapply prog_prev|by right|by eapply u_prog_layout|by eapply u_prog_dir|..].
  - intros g w' Hn [Hg _] Hcase.
    assert (prog p g) as Hpg by (destruct Hcase as [->| ->]; [done|apply u_prog_link; auto]).
    split; [intros Hc; eapply HC; [done|done|by eapply u_prog_safe]|]. intros e. by eapply wp_rollBack.
  - intros w' [Hw' _]. apply (u_recordApplied conf (<[previousPath := NLink (p_prev p)]> f)); [done|apply u_ready_link; auto|].
    by rewrite lookup_insert_ne.
Qed.

Lemma u_activate config f w : since w0 f w -> ready p f -> wp (XrayUpdate.activate p config) Q C w.
Proof.
  intros Hw Hr. pose proof Hr as [Hp _]. unfold XrayUpdate.activate. apply wp_try.
  assert (forall f1 w1, since w0 f1 w1 -> ready p f1 ->
    wp (try! _ := XrayUpdate.atomicSymlink (p_target p) currentPath
          catch e => XrayUpdate.rollbackResult p config.1 (UpdateTypes.cleanError "switch current Xray binary" e) UpdateTypes.ErrorCodePersistenceFailed in
        try! _ := (if config.2 then RestartAndWait else ret (Ok tt))
          catch e => XrayUpdate.rollbackResult p config.1 (UpdateTypes.cleanError "start updated Xray binary" e) UpdateTypes.ErrorCodeActivationFailed in
        try! _ := (if bool_decide (p_prev p = "") then ret (Ok tt) else XrayUpdate.atomicSymlink (p_prev p) previousPath)
          catch e => XrayUpdate.rollbackResult p config.1 (UpdateTypes.cleanError "record previous Xray binary" e) UpdateTypes.ErrorCodePersistenceFailed in
        XrayUpdate.recordApplied p config.1) Q C w1) as Hrest.
  { intros f1 w1 Hw1 Hr1. pose proof Hr1 as [Hp1 _]. apply wp_try.
    apply (u_symlink _ _ w0 f1); [done|by eapply prog_target|by left|by eapply u_prog_layout|by eapply u_prog_dir|..].
    - intros g w' Hn [Hg _] Hcase.
      assert (prog p g) as Hpg by (destruct Hcase as [->| ->]; [done|apply u_prog_link; auto]).
      split; [intros Hc; eapply HC; [done|done|by eapply u_prog_safe]|]. intros e. by eapply wp_rollBack.
    - intros w2 [Hw2 _]. set (f2 := <[currentPath := _]> f1) in *.
      assert (ready p f2) as Hr2 by (apply u_ready_link; auto). pose proof Hr2 as [Hp2 _].
      assert (f2 !! currentPath = Some (NLink (p_target p))) as Hcur by apply lookup_insert_eq.
      apply wp_try. destruct config.2; [|apply wp_ret; by apply (u_linkPrevious _ f2)].
      apply (wp_Restart w0 f2); [done|..].
      + intros g w' Hn Hg Hgf. eapply HC; [done|done|]. apply (u_prog_safe p). by rewrite Hgf.
      + intros e g w' _ Hg Hgf. eapply wp_rollBack; [exact Hg|by rewrite Hgf].
      + intros g w' Hg Hgf _. apply (u_linkPrevious _ g); [done|by eapply u_ready_equiv|]. by rewrite (Hgf currentPath eq_refl). }
  destruct config.2; [|apply wp_ret; by apply (Hrest f)].
  apply (wp_Stop w0 f); [done|..].
  - intros g w' Hn Hg Hgf. eapply HC; [done|done|]. apply (u_prog_safe p). by rewrite Hgf.
  - intros e g w' _ Hg Hgf. eapply wp_rollBack; [exact Hg|by rewrite Hgf].
  - intros g w' Hg Hgf _. apply (Hrest g); [done|by eapply u_ready_equiv].
Qed.
End transaction.
End apply.
