(* ===== verification/UpdateAdmit.v ===== *)
(** * Installing a candidate

    [installPrepared]: no other update pending, the version on disk, admission
    against the applied state, the checks, the intention, the switch.  From a
    [safe] store every way out leaves a [safe] store. *)

From stdpp Require Import base gmap strings list fin_maps sorting.
From Stdlib Require Import ZArith NArith Ascii.
From S2P Require Import Prelude.
From S2P Require Import GoStrings.
From S2P Require Import Sha256.
From S2P Require Import Json.
From S2P Require Import Os.
From S2P Require Import AtomicFile.
From S2P Require Import Dirs.
From S2P Require Import XrayTypes.
From S2P Require Import XrayRuntime.
From S2P Require Import XraySteps.
From S2P Require Import XrayInv.
From S2P Require Import XrayRecover.
From S2P Require Import Manifest.
From S2P Require Import UpdateTypes.
From S2P Require Import XrayUpdate.
From S2P Require Import UpdateSteps.
From S2P Require Import UpdatePrune.
From S2P Require Import UpdateInv.
From S2P Require Import UpdateRecover.
From S2P Require Import UpdateStart.
From S2P Require Import UpdateBuild.
From S2P Require Import UpdateApply.

(** ** Candidates *)

Record candidate_ok (c : candidate) : Prop := CandidateOk {
  cd_command : c_command c <> "";
  cd_text : ValidString (c_command c) = true;
  cd_len : (slen (c_command c) <= 256)%N;
  cd_version : Manifest.validateVersion (c_version c) = Ok tt;
  cd_xray : Manifest.validateVersion (c_xray c) = Ok tt;
  cd_digest : digest_ok (c_digest c);
  cd_name : c_version c <> ".xray-version"
}.

Definition cand_name (c : candidate) : string := version_name (c_version c) (c_digest c).
Definition cand_target (c : candidate) : string := "versions/" +:+ cand_name c.

Definition stored (c : candidate) (f : fs) : Prop :=
  exists st, intact f (cand_name c) st /\ release_of (c_version c) (c_xray c) (c_digest c) st.

Definition is_candidate (c : candidate) (a : AppliedState) : Prop :=
  a_target a = cand_target c /\ a_version a = c_version c /\ a_xray a = c_xray c /\ a_digest a = c_digest c.

Lemma cand_target_of c : candidate_ok c -> target_of (cand_target c) (cand_name c).
Proof. intros []. split; [done|]. by apply version_lasting. Qed.

Lemma cand_text c : candidate_ok c -> text_ok (cand_target c).
Proof.
  intros [_ _ _ Hv _ Hd _]. pose proof (u_version_text _ Hv) as [_ Hl]. pose proof (validVersion_ascii _ Hv) as [Ha _].
  unfold cand_target, cand_name, version_name. split.
  - apply is_ascii_ValidString. unfold is_ascii in *. rewrite !sforall_app, Ha. apply andb_true_iff. split; [done|].
    apply andb_true_iff. split; [done|]. by apply digest_ascii.
  - destruct Hd as [Hd _]. rewrite !slen_app, Hd. change (slen "versions/") with 9%N. change (slen "-") with 1%N. lia.
Qed.

Lemma stored_keep c f g : candidate_ok c -> (forall t n, target_of t n -> keeps f g n) -> stored c f -> stored c g.
Proof. intros Hc Hk (st & Hi & Hst). exists st. split; [|done]. by apply (Hk _ _ (cand_target_of c Hc)). Qed.

(** ** Nothing is pending *)

Section admission.
Context `{Env} `{Controller} `{!ControllerLaws} `{!ClockOk} `{BundleRunner} `{!BundleRunnerLaws}.

Lemma u_checkPending w0 f (Q : result unit -> world -> Prop) C w :
  since w0 f w -> safe f ->
  (forall g w', ~ calm w0 -> since w0 g w' -> safe g -> C w') ->
  (forall e g w', since w0 g w' -> safe g -> Q (Err e) w') ->
  (forall g w', since w0 g w' -> stable f -> g = f \/ collected f g -> Q (Ok tt) w') ->
  wp XrayUpdate.checkPending Q C w.
Proof.
  intros Hw Hs HC HE HQ. apply wp_bind, (s_reads _ _ w0 f _ _ _ u_reads_loadPending Hw).
  { intros w' Hc [Hw' _]. split; [by eapply HC|]. intros e He. rewrite He. by eapply wp_ret, HE. }
  intros w1 [Hw1 _]. destruct Hs as [Hs|[p Hp]].
  2:{ rewrite (u_holds_pending f p) by (by eapply u_prog_layout || apply Hp).
      eapply wp_ret, HE; [done|by eapply u_prog_safe]. }
  unfold s_pending. rewrite (s_parsed_None _ _ f) by apply Hs. simpl.
  apply wp_try, (u_pruneVersions w1 f); [by eapply since_after|].
  intros g w2 Hg Hcol. pose proof (after_since _ _ _ _ _ Hw1 Hg) as Hw2.
  assert (stable g) as Hsg by (destruct Hcol as [->|?]; [done|by eapply u_stable_collected]).
  split; [intros Hn; eapply HC; [exact (since_calm _ _ _ Hw1 Hn)|done|by left]|].
  intros [[]|e]; [by eapply wp_ret, HQ|eapply wp_ret, HE; [done|by left]].
Qed.

(** ** Admission *)

(** The version to fall back to: what is applied, if anything is. *)
Definition prior (f : fs) (pt : string) (pa : option AppliedState) : Prop :=
  (pt = "" /\ pa = None /\ f !! appliedPath = None) \/
  exists a, pa = Some a /\ a_target a = pt /\ applied_is f a /\ sound f a.

Definition u_answered (c : candidate) (res : result Result) (g : fs) : Prop :=
  match res with
  | Err _ => safe g
  | Ok x => exists a, x = resultFromApplied a /\ stable g /\ consistent g a /\ is_candidate c a
  end.

(** The candidate is what is applied already. *)
Lemma wp_confirmCandidate c a w0 f (Q : admission -> world -> Prop) C w :
  since w0 f w -> stable f -> is_dir f directory = true -> consistent f a -> is_candidate c a ->
  (forall g w', ~ calm w0 -> since w0 g w' -> safe g -> C w') ->
  (forall res g w', since w0 g w' -> u_answered c res g -> Q (Answer res) w') ->
  wp (try! _ := XrayUpdate.removeAndSync failedPath
        catch e => ret (Answer (XrayUpdate.persistError (errorW "clear failed Xray binary update: " e))) in
      try! _ := XrayUpdate.pruneVersions
        catch e => ret (Answer (XrayUpdate.persistError (errorW "garbage collect Xray versions: " e))) in
      ret (Answer (Ok (resultFromApplied a)))) Q C w.
Proof.
  intros Hw Hs Hd Hc Hca HC HA.
  assert (stable (delete failedPath f)) as Hs1 by by apply u_stable_no_failed.
  assert (consistent (delete failedPath f) a) as Hc1 by (apply u_consistent_delete; auto with go).
  apply wp_try, (u_remove failedPath w0 f); [done|auto with go|apply Hs|done|..].
  { intros g w' Hn [Hg _] Hcase.
    assert (safe g) as Hsg by (destruct Hcase as [->| ->]; by left).
    split; [by eapply HC|]. intros e. by eapply wp_ret, HA. }
  intros w1 [Hw1 _]. set (f1 := delete failedPath f) in *.
  apply wp_try, (u_pruneVersions w1 f1); [by eapply since_after|].
  intros g w2 Hg Hcase.
  assert (stable g /\ consistent g a) as [Hsg Hcg].
  { destruct Hcase as [->|Hcol]; [done|]. split; [by eapply u_stable_collected|].
    eapply collected_consistent; [apply Hs1|done|done]. }
  pose proof (after_since _ _ _ _ _ Hw1 Hg) as Hw2.
  split; [intros Hn; eapply HC; [exact (since_calm _ _ _ Hw1 Hn)|done|by left]|].
  intros [[]|e]; [eapply wp_ret, HA; [done|by exists a]|eapply wp_ret, HA; [done|by left]].
Qed.

Lemma u_admitApplied c w0 f (Q : admission -> world -> Prop) C w :
  since w0 f w -> stable f -> is_dir f directory = true ->
  (forall g w', ~ calm w0 -> since w0 g w' -> safe g -> C w') ->
  (forall res g w', since w0 g w' -> u_answered c res g -> Q (Answer res) w') ->
  (forall pt pa w', since w0 f w' -> prior f pt pa -> Q (Proceed pt pa) w') ->
  wp (XrayUpdate.admitApplied c (cand_target c)) Q C w.
Proof.
  intros Hw Hs Hd HC HA HP. pose proof Hs as (Hl & _ & Hset). unfold XrayUpdate.admitApplied.
  assert (safe f) as Hsf by by left.
  apply wp_bind, (s_reads _ _ w0 f _ _ _ u_reads_loadApplied Hw).
  { intros w' Hc [Hw' _]. split; [by eapply HC|]. intros e He. rewrite He. by eapply wp_ret, HA. }
  intros w1 [Hw1 _]. destruct Hset as [[Ha Hcur]|(a & Hc)].
  - unfold s_applied. rewrite (s_parsed_None _ _ f) by done. simpl.
    apply wp_bind, (s_reads _ _ w0 f _ _ _ (reads_sys (fun f => fs_lstat f currentPath)) Hw1).
    { intros w' Hn [Hw' _]. split; [by eapply HC|]. intros e He. rewrite He. by eapply wp_ret, HA. }
    intros w2 [Hw2 _]. unfold fs_lstat. rewrite Hcur. simpl. apply wp_ret, HP; [done|]. by left.
  - pose proof Hc as (Ha & Hcur & Hsd). rewrite (u_holds_applied f a Hl Ha).
    apply wp_try, (s_reads _ _ w0 f _ _ _ (u_reads_verifyApplied a) Hw1).
    { intros w' Hn [Hw' _]. split; [by eapply HC|]. intros e He. by eapply wp_ret, HA. }
    intros w2 [Hw2 _]. destruct (sound_target f a Hsd) as [n Hn].
    rewrite (proj2 (u_verifyApplied_ok a f n Hl Hn)) by done.
    destruct (sameCandidate _ _ _) eqn:Ec.
    + unfold sameCandidate in Ec. rewrite !andb_true_iff, !bool_decide_eq_true in Ec.
      apply (wp_confirmCandidate c a w0 f); [done|done|done|done|by destruct Ec as [[[? ?] ?] ?]|done|done].
    + apply wp_ret, HP; [done|]. right. by exists a.
Qed.

(** ** The applied configuration *)

Lemma wp_checkConfig b config w0 f (Q : result unit -> world -> Prop) C w :
  since w0 f w ->
  (forall g w', ~ calm w0 -> since w0 g w' -> g ≡ f -> C w') ->
  (forall r g w', since w0 g w' -> g ≡ f -> Q r w') ->
  wp (checkConfig b config) Q C w.
Proof.
  intros Hw HC HQ. unfold checkConfig. destruct config.2; cbn [negb]; [|by eapply wp_ret, HQ].
  apply wp_try, (wp_candidate _ w0 f); [intros w'; apply (config_law b config.1 w')|done|..].
  { intros w' Hc [Hw' _]. by eapply HC. }
  intros [[]|e] w1 [Hw1 _]; [|by eapply wp_ret, HQ].
  destruct Preflight as [m|] eqn:Em; [|by eapply wp_ret, HQ].
  apply wp_try, (wp_Preflight m w0 f); [done|done|done|].
  intros [[]|e] g w' Hg Hgf; by eapply wp_ret, HQ.
Qed.

(** ** The intention *)

(** What a rollback of [p] goes back to was applied in [f]. *)
Definition falls_back (f : fs) (p : pendingState) : Prop :=
  (p_prev p = "" /\ f !! appliedPath = None) \/
  exists a, p_prev_applied p = Some a /\ a_target a = p_prev p /\ applied_is f a.

Definition for_candidate (c : candidate) (p : pendingState) : Prop :=
  p_command p = c_command c /\ p_target p = cand_target c /\ p_version p = c_version c /\
  p_xray p = c_xray c /\ p_digest p = c_digest c.

Lemma prior_rollback' f p : prior f (p_prev p) (p_prev_applied p) -> rollback_ok f p /\ falls_back f p.
Proof.
  intros [(E & _ & Ha)|(a & Ea & Et & Ha & Hs)]; [by split; left|]. split; right.
  - pose proof Hs as (_ & n & st & Ht & Hi & Hd). rewrite Et in Ht. exists n, st. split_and!; [done|done|].
    intros a' Ea'. rewrite Ea in Ea'. by injection Ea' as <-.
  - by exists a.
Qed.

Lemma new_pending_ok c f pt pa z : candidate_ok c -> prior f pt pa -> is_i64 z ->
  pending_ok (MkPending (c_command c) pt pa (cand_target c) (c_version c) (c_xray c) (c_digest c) z).
Proof.
  intros Hc Hp Hz. pose proof (cand_text c Hc) as Ht. pose proof (cand_target_of c Hc) as Hto.
  apply target_of_valid in Hto as (Hv & _ & _). destruct Hc as [Hc1 Hc2 Hc3 Hc4 Hc5 Hc6 Hc7].
  assert (text_ok pt /\ match pa with Some a => applied_ok a | None => True end /\
    (pt = "" \/ UpdateTypes.validateTarget pt = Ok tt) /\
    (forall a, pa = Some a -> pt <> "" /\ a_target a = pt /\ validateAppliedState a = Ok tt))
    as (Hpt & Hpa & Hpv & Hpx).
  { destruct Hp as [(-> & -> & _)|(a & -> & <- & [_ Ha] & Hs)].
    - split_and!; [split; [done|vm_compute; discriminate]|done|by left|done].
    - pose proof Ha as (_ & Hat & Hav). pose proof Hav as [_ _ _ _ Hvt]%validateApplied_ok.
      split; [exact Hat|]. split; [exact Ha|]. split; [by right|]. intros a' [= <-]. split_and!; [|done|done].
      intros E. rewrite E in Hvt. vm_compute in Hvt. discriminate. }
  split_and!; try done; try apply Ht; try apply Hpt.
  - apply digest_ascii in Hc6. by apply is_ascii_ValidString.
  - apply validatePending_ok. split; try done. apply Hc6.
Qed.

(** What installing [c] on store [f] ends with. *)
Definition outcome (c : candidate) (f : fs) (res : result Result) (g : fs) (w : world) : Prop :=
  match res with
  | Err _ => safe g
  | Ok x =>
      (exists a, x = resultFromApplied a /\ stable g /\ consistent g a /\ is_candidate c a) \/
      exists p conf failure code, x = XrayUpdate.failed_result p failure code RecoveryStatusRolledBack true /\
        for_candidate c p /\ falls_back f p /\ rolled_back p conf failure code g w
  end.

Lemma answered_ends c f res g w : u_answered c res g -> outcome c f res g w.
Proof. destruct res; [by left|done]. Qed.

Lemma outcome_same c f g res h w : g !! appliedPath = f !! appliedPath ->
  outcome c g res h w -> outcome c f res h w.
Proof.
  intros Ea. destruct res as [x|e]; [|done].
  intros [?|(p & conf & fl & code & -> & Hfc & Hfb & Hr)]; [by left|right].
  exists p, conf, fl, code. split; [done|]. split; [done|]. split; [|done].
  destruct Hfb as [[E Ha]|(a & E & Et & [Ha Hok])]; [left; by rewrite <- Ea|right].
  exists a. split; [done|]. split; [done|]. split; [|done]. by eapply holds_same.
Qed.

Lemma u_commit c pt pa config w0 f (Q : result Result -> world -> Prop) C w :
  since w0 f w -> stable f -> is_dir f directory = true -> candidate_ok c -> stored c f -> prior f pt pa ->
  (forall g w', ~ calm w0 -> since w0 g w' -> safe g -> C w') ->
  (forall res g w', since w0 g w' -> outcome c f res g w' -> Q res w') ->
  wp (XrayUpdate.commit c (cand_target c) pt pa config) Q C w.
Proof.
  intros Hw Hs Hd Hc Hst Hp HC HQ. unfold XrayUpdate.commit.
  apply wp_bind, (s_Now w0 f); [done|]. intros k w1 [Hw1 _]. cbv zeta.
  set (p := MkPending _ _ _ _ _ _ _ _).
  assert (pending_ok p) as Hpok by (apply (new_pending_ok c f); [done|done|apply (clock_unix k)]).
  destruct (prior_rollback' f p Hp) as [Hrb Hfb].
  assert (forall m t, prog p (<[pendingPath := NFile (encode_pending p) m t]> f)) as Hbegin.
  { intros m t. apply u_stable_begin; [done|done|done| |done]. exists (cand_name c). by apply cand_target_of. }
  apply wp_try. unfold XrayUpdate.persistState.
  apply (u_write pendingPath _ w0 f); [done|auto with go|apply Hs|done|..].
  { intros g w' Hn [Hg _] Hcase. assert (safe g) as Hsg.
    { destruct Hcase as [->|[t ->]]; [by left|eapply u_prog_safe, Hbegin]. }
    split; [by eapply HC|]. intros e. by eapply wp_ret, HQ. }
  intros g t w2 [Hw2 _] Hg.
  apply (u_activate w0 p) with (f := g); [done| |done|].
  - intros res g' w' Hg' Hcon. eapply HQ; [done|]. destruct res as [x|e]; [|done].
    destruct Hcon as [(a & -> & Hc1 & Hc2 & Hc3)|(conf & fl & code & -> & Hr)].
    + left. by exists a.
    + right. by exists p, conf, fl, code.
  - split; [rewrite Hg; apply Hbegin|]. destruct Hst as (st & Hi & Hrel).
    exists (cand_name c), st. split; [by apply cand_target_of|]. split; [|done].
    eapply (keeps_equiv _ g _ _ Hg (cand_target_of c Hc)).
    apply keeps_insert; [auto with go|done].
Qed.

Lemma u_installTarget c w0 f (Q : result Result -> world -> Prop) C w :
  since w0 f w -> stable f -> is_dir f directory = true -> candidate_ok c -> stored c f ->
  (forall g w', ~ calm w0 -> since w0 g w' -> safe g -> C w') ->
  (forall res g w', since w0 g w' -> outcome c f res g w' -> Q res w') ->
  wp (installTarget c (cand_target c)) Q C w.
Proof.
  intros Hw Hs Hd Hc Hst HC HQ. unfold installTarget. cbv zeta. assert (safe f) as Hsf by by left.
  apply wp_try, (wp_candidate _ w0 f); [intros w'; apply version_law|done|..].
  { intros w' Hn [Hw' _]. by eapply HC. }
  intros [[]|e] w1 [Hw1 _]; [|by eapply wp_ret, HQ].
  apply wp_bind, (u_admitApplied c w0 f); [done|done|done|done|..].
  { intros res g w' Hg Ha. eapply wp_ret, HQ; [done|by apply answered_ends]. }
  intros pt pa w2 Hw2 Hp.
  apply wp_try, (s_reads _ _ w0 f _ _ _ reads_configPath Hw2).
  { intros w' Hn [Hw' _]. split; [by eapply HC|]. intros e _. by eapply wp_ret, HQ. }
  intros w3 [Hw3 _]. destruct (s_configPath f) as [config|e]; [|by eapply wp_ret, HQ].
  apply wp_try, (wp_checkConfig _ _ w0 f); [done|..].
  { intros g w' Hn Hg Hgf. eapply HC; [done|done|by rewrite Hgf]. }
  intros [[]|e] g w4 Hw4 Hgf; [|eapply wp_ret, HQ; [done|simpl; by rewrite Hgf]].
  assert (forall t n, target_of t n -> keeps f g n) as Hk by (intros t n; by apply keeps_equiv).
  assert (g !! appliedPath = f !! appliedPath) as Ea by by apply Hgf.
  apply (u_commit c pt pa config w0 g); [done|by rewrite Hgf|by rewrite (is_dir_equiv _ _ _ Hgf)|done|by eapply stored_keep| |done|].
  - destruct Hp as [(-> & -> & Ha)|(a & -> & Et & [Ha Hok] & Hsd)]; [left; by rewrite Ea|right].
    exists a. split; [done|]. split; [done|]. split; [split; [by eapply holds_same|done]|].
    eapply u_sound_keep; [|done]. intros n. apply Hk.
  - intros res g' w' Hg' Ho. eapply HQ; [done|by apply (outcome_same c f g)].
Qed.

(** ** Preparing *)

(** [m] puts the candidate on disk and returns its target. *)
Definition installs (c : candidate) (m : io (result string)) : Prop :=
  forall w0 f (Q : result string -> world -> Prop) C w,
    after w0 f w -> layout f -> is_dir f directory = true ->
    install_failed w0 f Q C -> install_done (c_version c) (c_xray c) (c_digest c) w0 f Q -> wp m Q C w.

Lemma installs_archive c entries : candidate_ok c -> Forall entry_admitted entries ->
  installs c (installBundleArchive (c_version c) (c_xray c) (c_digest c) entries).
Proof.
  intros [_ _ _ Hv Hx Hd Hn] He w0 f Q C w Hw Hl Hdir HF HQ.
  by apply (wp_installBundleFiles _ _ _ Hv Hx Hd Hn w0 _ f); try apply fills_entries.
Qed.

Lemma installs_bundle c b : candidate_ok c ->
  Forall (fun x => exists raw, b !! x = Some raw /\ size_ok x raw) requiredBundleFiles ->
  installs c (installBundle (c_version c) (c_xray c) (c_digest c) b).
Proof.
  intros [_ _ _ Hv Hx Hd Hn] Hb w0 f Q C w Hw Hl Hdir HF HQ.
  by apply (wp_installBundleFiles _ _ _ Hv Hx Hd Hn w0 _ f); try apply fills_extracted.
Qed.

Lemma u_installPrepared c m w0 f (Q : result Result -> world -> Prop) C w :
  since w0 f w -> safe f -> candidate_ok c -> installs c m ->
  (forall g w', ~ calm w0 -> since w0 g w' -> safe g -> C w') ->
  (forall res g w', since w0 g w' -> outcome c f res g w' -> Q res w') ->
  wp (installPrepared c m) Q C w.
Proof.
  intros Hw Hs Hc Hm HC HQ. unfold installPrepared.
  assert (forall a b, dir_step directory a b -> safe a -> safe b /\ b !! appliedPath = a !! appliedPath) as Hmk.
  { intros a b Hst Ha. split; [eapply safe_mkdir; [exact Ha|by left|done]|].
    eapply u_home_lookup; [by left|done|auto with go]. }
  apply wp_try, (wp_u_ensureDirectory w f); [by eapply since_after|apply u_safe_layout, Hs|..].
  { intros g w' Hn Hg Hst. pose proof (after_since _ _ _ _ _ Hw Hg) as Hg'. destruct (Hmk _ _ Hst Hs) as [Hsg _].
    split; [eapply HC; [exact (since_calm _ _ _ Hw Hn)|done|done]|]. intros e. by eapply wp_ret, HQ. }
  intros g0 g w1 Hg Hst1 Hst2 Hd. pose proof (after_since _ _ _ _ _ Hw Hg) as Hw1.
  destruct (Hmk _ _ Hst1 Hs) as [Hs0 E0]. destruct (Hmk _ _ Hst2 Hs0) as [Hsg Eg]. rewrite E0 in Eg. clear g0 Hst1 Hst2 Hs0 E0 Hg.
  apply wp_try, (u_checkPending w0 g); [done|done|done|..].
  { intros e g' w' Hg Hs'. by eapply wp_ret, HQ. }
  intros h w2 Hw2 Hst Hcol.
  assert (stable h /\ is_dir h directory = true /\ h !! appliedPath = f !! appliedPath) as (Hsh & Hdh & Eh).
  { destruct Hcol as [->|Hcol]; [done|]. destruct (kept_collected g h Hst Hcol) as [? Hdd].
    split_and!; [done|by apply Hdd|]. rewrite <- Eg. destruct Hcol as (P & _ & Hp). eapply pruned_file; [done|auto with go]. }
  apply wp_try, (Hm w2 h); [by eapply since_after|apply Hsh|done|..].
  { intros g' w' Hg Hk. pose proof (after_since _ _ _ _ _ Hw2 Hg) as Hg'. pose proof (kp_stable _ _ Hk Hsh) as Hsg'.
    split; [intros Hn; eapply HC; [exact (since_calm _ _ _ Hw2 Hn)|done|by left]|].
    intros e. eapply wp_ret, HQ; [done|by left]. }
  intros g' st w' Hg Hk Hi Hrel. pose proof (after_since _ _ _ _ _ Hw2 Hg) as Hg'.
  change ("versions/" +:+ version_name (c_version c) (c_digest c)) with (cand_target c).
  apply (u_installTarget c w0 g'); [done|by apply (kp_stable _ _ Hk)|by apply (kp_dir _ _ Hk)|done|by exists st|done|].
  intros res k w3 Hw3 Ho. eapply HQ; [done|]. apply (outcome_same c f g'); [|done].
  rewrite <- Eh. apply (kp_files _ _ Hk). auto with go.
Qed.
End admission.
