(* ===== verification/UpdateEntry.v ===== *)
(** * The entry points of the Xray updater

    [InstallLocal] and [Apply] up to [installPrepared]: the download into a
    temporary file, its checks, and what they may end in. *)

From stdpp Require Import base gmap strings list fin_maps sorting.
From Stdlib Require Import ZArith NArith Ascii.
From S2P Require Import Prelude.
From S2P Require Import GoStrings.
From S2P Require Import Sha256.
From S2P Require Import Json.
From S2P Require Import Os.
From S2P Require Import AtomicFile.
From S2P Require Import Dirs.
From S2P Require Import XrayTypes.
From S2P Require Import XrayRuntime.
From S2P Require Import XraySteps.
From S2P Require Import XrayInv.
From S2P Require Import XrayRecover.
From S2P Require Import Manifest.
From S2P Require Import Release.
From S2P Require Import UpdateTypes.
From S2P Require Import XrayUpdate.
From S2P Require Import UpdateSteps.
From S2P Require Import UpdatePrune.
From S2P Require Import UpdateInv.
From S2P Require Import UpdateRecover.
From S2P Require Import UpdateStart.
From S2P Require Import UpdateBuild.
From S2P Require Import UpdateApply.
From S2P Require Import UpdateAdmit.

(** ** Calls on scratch files *)

Section scratch_calls.
Context `{Env}.

Lemma wp_scratch {A} (op : Z -> N -> fs -> fs * result A) w0 f (Q : result A -> world -> Prop) C w :
  since w0 f w -> (forall t k, (op t k f).1 ≡ f) ->
  (forall w', ~ calm w0 -> onward w0 w f w' -> C w') ->
  (forall r g w', onward w0 w g w' -> g ≡ f -> Q r w') ->
  wp (sys op) Q C w.
Proof.
  intros Hw Hop HC HQ. apply (wp_sys _ w f); [by eapply since_after|..].
  - intros w' Hn Hw'. apply HC; [exact (since_calm _ _ _ Hw Hn)|by eapply onward_after].
  - intros m w' Hn Hw'. eapply HQ; [by eapply onward_after|done].
  - intros t k w' Hw'. eapply HQ; [by eapply onward_after|apply Hop].
Qed.

Lemma chmod_scratch p m f : scratch p = true -> (fs_chmod f p m).1 ≡ f.
Proof. intros Hp. unfold fs_chmod. repeat case_match; simpl; first [done|by apply insert_scratch]. Qed.

Lemma append_scratch p c t f : scratch p = true -> (fs_append f p c t).1 ≡ f.
Proof. intros Hp. unfold fs_append. repeat case_match; simpl; first [done|by apply insert_scratch]. Qed.

Lemma remove_scratch p f : scratch p = true -> (fs_remove f p).1 ≡ f.
Proof. intros Hp. destruct (fs_remove_any f p) as [-> | ->]; [done|by apply delete_scratch]. Qed.

Lemma create_scratch p m t f : scratch p = true -> (fs_create f p m t).1 ≡ f.
Proof. intros Hp. unfold fs_create. repeat case_match; simpl; first [done|by apply insert_scratch]. Qed.

Lemma download_scratch x : scratch (downloads +:+ "/" +:+ x) = true.
Proof. reflexivity. Qed.

(** The temporary file of a download. *)
Lemma wp_createDownload w0 f (Q : result string -> world -> Prop) C w :
  since w0 f w ->
  (forall w', ~ calm w0 -> onward w0 w f w' -> C w') ->
  (forall e g w', onward w0 w g w' -> g ≡ f -> Q (Err e) w') ->
  (forall p g w', onward w0 w g w' -> g ≡ f -> scratch p = true -> Q (Ok p) w') ->
  wp (CreateTemp downloads "xray-release-") Q C w.
Proof.
  intros Hw HC HE HQ. apply (wp_sys _ w f); [by eapply since_after|..].
  - intros w' Hn Hw'. apply HC; [exact (since_calm _ _ _ Hw Hn)|by eapply onward_after].
  - intros m w' Hn Hw'. eapply HE; [by eapply onward_after|done].
  - intros t k w' Hw'. destruct (temp_name_Some f (downloads +:+ "/" +:+ "xray-release-") (k)) as (k' & E & _).
    rewrite E in *. set (p := downloads +:+ "/" +:+ "xray-release-" +:+ FormatUint k').
    change ((downloads +:+ "/" +:+ "xray-release-") +:+ FormatUint k') with p in *.
    assert (scratch p = true) as Hp by reflexivity.
    pose proof (create_scratch p 384 (time_at t) f Hp) as Hc.
    destruct (fs_create f p 384 (time_at t)) as [g [[]|e]]; simpl in *.
    + eapply HQ; [by eapply onward_after|done|done].
    + eapply HE; [by eapply onward_after|done].
Qed.
End scratch_calls.

(** ** Outcomes up to scratch *)

Lemma rolled_back_scratch p conf failure code f g w w' : g ≡ f -> w_run w' = w_run w ->
  rolled_back p conf failure code f w -> rolled_back p conf failure code g w'.
Proof.
  intros Hg Hrun (Hs & Hr & Hsv & (t & Ht)). split_and!.
  - by rewrite Hg.
  - by eapply reverted_equiv.
  - by eapply serving_equiv.
  - exists t. by rewrite (Hg failedPath eq_refl).
Qed.

Lemma outcome_scratch c f0 res f g w w' : g ≡ f -> w_run w' = w_run w ->
  outcome c f0 res f w -> outcome c f0 res g w'.
Proof.
  intros Hg Hrun. destruct res as [x|e]; simpl; [|by rewrite Hg].
  intros [(a & -> & Hs & Hc & Ha)|(p & conf & fl & code & -> & H1 & H2 & H3)].
  - left. exists a. split_and!; [done|by rewrite Hg|by eapply u_consistent_equiv|apply Ha..].
  - right. exists p, conf, fl, code. split; [done|]. split; [done|]. split; [done|]. by eapply rolled_back_scratch.
Qed.

Section entry.
Context `{Env} `{Controller} `{!ControllerLaws} `{!ClockOk} `{BundleRunner} `{!BundleRunnerLaws} `{Zip}.

(** ** From an archive in memory *)

Lemma wp_install c archive w0 f (Q : result Result -> world -> Prop) C w :
  since w0 f w -> safe f -> candidate_ok c ->
  (forall g w', ~ calm w0 -> since w0 g w' -> safe g -> C w') ->
  (forall res g w', since w0 g w' -> outcome c f res g w' -> Q res w') ->
  wp (install c archive) Q C w.
Proof.
  intros Hw Hs Hc HC HQ. unfold install. destruct (extractBundle (open_zip archive)) as [b|e] eqn:Eb; [|by eapply wp_ret, HQ].
  apply (u_installPrepared c _ w0 f); [done|done|done|by eapply installs_bundle, extracted_sizes|done|done].
Qed.

(** ** From a downloaded file *)

Lemma wp_installArchive c p w0 f (Q : result Result -> world -> Prop) C w :
  since w0 f w -> safe f -> candidate_ok c ->
  (forall g w', ~ calm w0 -> since w0 g w' -> safe g -> C w') ->
  (forall res g w', since w0 g w' -> outcome c f res g w' -> Q res w') ->
  wp (installArchive c p) Q C w.
Proof.
  intros Hw Hs Hc HC HQ. unfold installArchive.
  apply wp_try, (wp_scratch _ w0 f); [done|done|intros w' Hn [Hw' _]; by eapply HC|].
  intros [info|e] f1 w1 [Hw1 _] Hf1; [|eapply wp_ret, HQ; [done|simpl; by rewrite Hf1]].
  destruct (_ || _ || _); [eapply wp_ret, HQ; [done|simpl; by rewrite Hf1]|].
  apply wp_try, (wp_scratch _ w0 f1); [done|done|intros w' Hn [Hw' _]; eapply HC; [done|done|by rewrite Hf1]|].
  intros [raw|e] f2 w2 [Hw2 _] Hf2; [|eapply wp_ret, HQ; [done|simpl; by rewrite Hf2, Hf1]].
  assert (safe f2) as Hs2 by by rewrite Hf2, Hf1.
  destruct (open_zip raw) as [l|e]; [|by eapply wp_ret, HQ].
  destruct (validateBundleArchive l) as [entries|e] eqn:Ev; [|by eapply wp_ret, HQ].
  apply validate_ok in Ev as [(He & _) ->].
  apply (u_installPrepared c _ w0 f2); [done|done|done|by apply installs_archive|done|].
  intros res g w' Hg Ho. eapply HQ; [done|]. apply (outcome_same c f f2); [|done].
  rewrite (Hf2 appliedPath eq_refl). by apply Hf1.
Qed.

(** ** The download *)

Lemma wp_downloadDirectory w0 f (Q : result string -> world -> Prop) C w :
  since w0 f w -> safe f ->
  (forall g w', ~ calm w0 -> since w0 g w' -> safe g -> C w') ->
  (forall e g w', since w0 g w' -> safe g -> Q (Err e) w') ->
  (forall g w', since w0 g w' -> safe g -> g !! appliedPath = f !! appliedPath -> Q (Ok downloads) w') ->
  wp ensureDownloadDirectory Q C w.
Proof.
  intros Hw Hs HC HE HQ. unfold ensureDownloadDirectory.
  assert (forall g w', after w g w' -> cleaned f g -> since w0 g w' /\ safe g) as Hgo.
  { intros g w' Hg Hc. split; [by eapply after_since|by eapply cleaned_safe]. }
  assert (clean_crash w f C) as HC1.
  { intros g w' Hn Hg Hc. destruct (Hgo g w' Hg Hc). eapply HC; [exact (since_calm _ _ _ Hw Hn)|done|done]. }
  assert (clean_error w f False Q) as HE1.
  { intros e g w' _ Hg Hc. destruct (Hgo g w' Hg Hc). by eapply HE. }
  apply wp_try, (wp_u_ensureDirectory w f); [by eapply since_after|apply u_safe_layout, Hs|..].
  { intros g w' Hn Hg Hd. pose proof (cleaned_dir f g Hd) as Hc.
    split; [by eapply HC1|]. intros e. eapply wp_ret, HE1; [naive_solver|done|done]. }
  intros g1 g w1 Hw1 Hs1 Hs2 Hd. assert (kept_clean f g) as Hk by (split; [by eapply cleaned_dirs|done]).
  apply wp_try, (wp_makeDownloads w f False g); [done|done|done|done|..].
  { intros e g' w' Hn Hg' Hc. by eapply wp_ret, HE1. }
  intros g2 w2 Hw2 Hk2 _ _. pose proof Hk2 as [Hc2 _].
  apply (wp_look w f False _ g2); [done|done|done|done|]. intros w3 Hw3.
  destruct (fs_lstat g2 downloads) as [info|e]; [|naive_solver].
  destruct (IsDir info); cbn [negb]; [|eapply wp_ret, HE1; [naive_solver|done|done]].
  apply wp_try, (wp_chmodDownloads w f False g2); [done|done|done|done|..].
  { intros e g' w' Hn Hg' Hc. by eapply wp_ret, HE1. }
  intros g3 w4 Hw4 Hk3 _ _. destruct Hk3 as [Hc3 _]. destruct (Hgo g3 w4 Hw4 Hc3).
  eapply wp_ret, HQ; [done|done|]. by rewrite (cleaned_lookup f g3).
Qed.

Context `{Platform} `{UrlParser}.

Lemma wp_downloadArchive cl net artifact url p w0 f (Q : result string -> world -> Prop) C w :
  since w0 f w -> scratch p = true ->
  (forall g w', ~ calm w0 -> since w0 g w' -> g ≡ f -> C w') ->
  (forall e g w', since w0 g w' -> g ≡ f -> Q (Err e) w') ->
  (forall g w', since w0 g w' -> g ≡ f -> digest_ok (ar_sha256 artifact) -> Q (Ok (ar_sha256 artifact)) w') ->
  wp (downloadArchive cl net artifact url p) Q C w.
Proof.
  intros Hw Hp HC HE HQ. unfold downloadArchive.
  destruct (DownloadTo cl url (ar_size artifact) (net url)) as [data r].
  assert (forall (written : result unit) g w', since w0 g w' -> g ≡ f ->
    wp (match written, r with
        | Err e, _ | Ok _, Err e =>
            ret (Err (newUpdateError ErrorCodeValidationFailed RecoveryStatusNotRequired
                        (errorW "download Xray release archive: " e)))
        | Ok _, Ok size =>
            if negb (size =? ar_size artifact)%Z then
              ret (Err (newUpdateError ErrorCodeValidationFailed RecoveryStatusNotRequired
                          (errorsNew "Xray release archive size does not match the manifest")))
            else if negb (bool_decide (sha256_hex data = ar_sha256 artifact)) then
              ret (Err (newUpdateError ErrorCodeValidationFailed RecoveryStatusNotRequired
                          (errorsNew "Xray release archive digest does not match the manifest")))
            else
              try! _ := Sync p
                catch e => ret (Err (newUpdateError ErrorCodePreparationFailed RecoveryStatusNotRequired
                                       (errorW "sync Xray release temporary file: " e))) in
              ret (Ok (sha256_hex data))
        end) Q C w') as Hrest.
  { intros written g w' Hg Hgf. destruct written as [[]|e]; [|by eapply wp_ret, HE].
    destruct r as [size|e]; [|by eapply wp_ret, HE].
    destruct (negb _); [by eapply wp_ret, HE|].
    case_bool_decide as Esha; cbn [negb]; [|by eapply wp_ret, HE].
    apply wp_try, (wp_scratch _ w0 g); [done|done|intros w2 Hn [Hw2 _]; by eapply HC|].
    intros [[]|e] g2 w2 [Hw2 _] Hg2; [|eapply wp_ret, HE; [done|by rewrite Hg2]].
    rewrite Esha. eapply wp_ret, HQ; [done|by rewrite Hg2|]. rewrite <- Esha. apply sha256_hex_digest. }
  apply wp_bind. destruct (bool_decide (data = "")).
  - apply wp_ret. by apply (Hrest (Ok tt) f).
  - apply (wp_scratch _ w0 f); [done|intros; by apply append_scratch|intros w' Hn [Hw' _]; by eapply HC|].
    intros written g w' [Hg _] Hgf. by apply (Hrest written g).
Qed.

(** ** What is resolved *)

Lemma resolve_ok cl net version m a url : resolveRelease cl net version = Ok (m, a, url) ->
  Manifest.validateVersion (mf_version m) = Ok tt /\ Manifest.validateVersion (mf_xray m) = Ok tt /\
  (version = "" \/ mf_version m = version).
Proof.
  unfold resolveRelease. destruct (URL _ _ _ _); [|done]. intros Hr.
  destruct (rbind _ _) as [[[m' a'] url']|] eqn:E; [|done]. injection Hr as -> -> ->.
  apply rbind_Ok in E as (raw & _ & (m' & Hd & ([] & Hg%guard_err_Ok & (a' & _ & (u & _ & [= -> -> ->])%rbind_Ok)%rbind_Ok)%rbind_Ok)%rbind_Ok).
  unfold decodeManifest in Hd. destruct (decode_text _ _ _ _) as [m'|]; [|done].
  apply rbind_Ok in Hd as ([] & Hm%guard_err_Ok & [= ->]).
  rewrite !orb_false_iff, !negb_false_iff, !is_ok_unit in Hm. destruct Hm as [[[_ ?] ?] _].
  split; [done|]. split; [done|]. rewrite andb_false_iff, !negb_false_iff, !bool_decide_eq_true in Hg. naive_solver.
Qed.

(** What an [Apply] of [r] ends with. *)
Definition apply_ends (mgr : Manager) (net : string -> nat -> exchange) (r : Request) (f : fs)
    (res : result Result) (g : fs) (w : world) : Prop :=
  match res with
  | Err _ => safe g
  | Ok _ => exists cl m a url, releases mgr = Some cl /\ resolveRelease cl net (rq_version r) = Ok (m, a, url) /\
      outcome (Candidate (rq_command r) (mf_version m) (mf_xray m) (ar_sha256 a)) f res g w
  end.

(** The version names the network serves are not those of temporary directories. *)
Definition net_ok (cl : Client) (net : string -> nat -> exchange) (version : string) : Prop :=
  forall m a url, resolveRelease cl net version = Ok (m, a, url) -> mf_version m <> ".xray-version".

Lemma command_ok id : command_invalid id = false -> id <> "" /\ (slen id <= 256)%N.
Proof. unfold command_invalid. rewrite orb_false_iff, bool_decide_eq_false, N.ltb_ge. done. Qed.

Lemma wp_InstallLocal commandID version archive w0 f (Q : result Result -> world -> Prop) C w :
  since w0 f w -> safe f -> ValidString commandID = true -> version <> ".xray-version" ->
  (forall g w', ~ calm w0 -> since w0 g w' -> safe g -> C w') ->
  (forall res g w', since w0 g w' -> outcome (Candidate commandID version version (sha256_hex archive)) f res g w' -> Q res w') ->
  wp (InstallLocal commandID version archive) Q C w.
Proof.
  intros Hw Hs Hid Hname HC HQ. unfold InstallLocal.
  destruct (command_invalid commandID) eqn:Ec; [by eapply wp_ret, HQ|].
  destruct (Manifest.validateVersion version) as [[]|e] eqn:Ev; [|by eapply wp_ret, HQ].
  destruct (_ || _); [by eapply wp_ret, HQ|].
  apply command_ok in Ec as [Hne Hl].
  apply (wp_install _ _ w0 f); [done|done| |done|done]. split; try done. apply sha256_hex_digest.
Qed.

Lemma u_Apply m net r w0 f (Q : result Result -> world -> Prop) C w :
  since w0 f w -> safe f -> ValidString (rq_command r) = true ->
  (forall cl, releases m = Some cl -> net_ok cl net (rq_version r)) ->
  (forall g w', ~ calm w0 -> since w0 g w' -> safe g -> C w') ->
  (forall res g w', since w0 g w' ->
apply_ends m net r f res g w' -> Q res w') ->
  wp (XrayUpdate.Apply m net r) Q C w.
Proof.
  intros Hw Hs Hid Hnet HC HQ. unfold XrayUpdate.Apply.
  destruct (releases m) as [cl|] eqn:Er; [|by eapply wp_ret, HQ].
  assert (forall e g w', since w0 g w' -> safe g -> Q (Err e) w') as HE by (intros; by eapply HQ).
  assert (forall g0 g w', ~ calm w0 -> since w0 g w' -> g ≡ g0 -> safe g0 -> C w') as HC'.
  { intros g0 g w' Hn Hg Hgf Hs0. eapply HC; [done|done|by rewrite Hgf]. }
  destruct (negb (Enabled m)); [by eapply wp_ret, HE|].
  destruct (command_invalid (rq_command r)) eqn:Ec; [by eapply wp_ret, HE|].
  apply command_ok in Ec as [Hne Hl].
  destruct (if bool_decide _ then _ else _) as [[]|e]; [|by eapply wp_ret, HE].
  destruct (resolveRelease cl net (rq_version r)) as [[[mf a] url]|e] eqn:Eres; [|by eapply wp_ret, HE].
  apply wp_try, (wp_downloadDirectory w0 f); [done|done|done|intros; by eapply wp_ret, HE|].
  intros f1 w1 Hw1 Hs1 Ea.
  apply wp_try, (wp_createDownload w0 f1); [done|intros w' Hn [Hw' _]; by eapply HC|..].
  { intros e g w' [Hg _] Hgf. eapply wp_ret, HE; [done|by rewrite Hgf]. }
  intros p f2 w2 [Hw2 _] Hf2 Hp.
  set (Q2 := fun res => wp (Remove p) (fun _ => Q res) C).
  set (Q3 := fun res => wp (Close p) (fun _ => Q2 res) C).
  assert (forall res g w', since w0 g w' -> apply_ends m net r f res g w' -> Q3 res w') as HQ3.
  { intros res g w' Hg Ho.
    assert (forall h w2, onward w0 w' h w2 -> h ≡ g -> apply_ends m net r f res h w2) as Hkeep.
    { intros h w3 [_ Er'] Hh. destruct res as [x|e]; [|simpl; by rewrite Hh].
      destruct Ho as (cl' & m' & a' & u' & Ecl & E & Ho). exists cl', m', a', u'. split; [done|]. split; [done|by eapply outcome_scratch]. }
    assert (forall h w3, onward w0 w' h w3 -> h ≡ g -> safe h) as Hsafe.
    { intros h w3 Hh Hhg. pose proof (Hkeep h w3 Hh Hhg) as He. destruct res as [x|e]; [|done].
      destruct He as (? & ? & ? & ? & _ & _ & [(? & _ & ? & _)|(? & ? & ? & ? & _ & _ & _ & [? _])]); by left. }
    apply (wp_scratch _ w0 g); [done|done|intros w3 Hn Hw3; eapply HC; [done|apply Hw3|by eapply Hsafe]|].
    intros _ h w3 [Hw3 E3] Hh.
    apply (wp_scratch _ w0 h); [done|intros; by apply remove_scratch|..].
    - intros w4 Hn [Hw4 E4]. eapply HC; [done|done|]. eapply Hsafe; [split; [done|congruence]|done].
    - intros _ h' w4 [Hw4 E4] Hh'. eapply HQ; [done|]. apply Hkeep; [split; [done|congruence]|by rewrite Hh']. }
  apply wp_defer, wp_defer.
  assert (safe f2) as Hs2 by by rewrite Hf2.
  assert (forall e g w', since w0 g w' -> safe g -> Q3 (Err e) w') as HE3 by (intros; by eapply HQ3).
  apply wp_try, (wp_scratch _ w0 f2); [done|intros; by apply chmod_scratch|intros w' Hn [Hw' _]; by eapply HC|].
  intros [[]|e] f3 w3 [Hw3 _] Hf3; [|eapply wp_ret, HE3; [done|by rewrite Hf3]].
  assert (safe f3) as Hs3 by by rewrite Hf3.
  apply wp_try, (wp_downloadArchive cl net a url p w0 f3); [done|done|intros g w' Hn Hg Hgf; by eapply HC'|..].
  { intros e g w' Hg Hgf. eapply wp_ret, HE3; [done|by rewrite Hgf]. }
  intros f4 w4 Hw4 Hf4 Hdig. pose proof (resolve_ok _ _ _ _ _ _ Eres) as (Hv & Hx & _).
  apply (wp_installArchive _ p w0 f4); [done|by rewrite Hf4| |done|].
  { split; try done. by eapply Hnet. }
  intros res g w' Hg Ho. eapply HQ3; [done|]. destruct res as [x|e]; [|done].
  exists cl, mf, a, url. split; [done|]. split; [done|]. apply (outcome_same _ f f4); [|done].
  by rewrite (Hf4 appliedPath eq_refl), (Hf3 appliedPath eq_refl), (Hf2 appliedPath eq_refl), Ea.
Qed.
End entry.
