(* ===== verification/Frames.v ===== *)
(** * What a program leaves alone

    [within S m P]: whatever fails and wherever it is killed, [m] changes only
    paths that satisfy [S], and what it returns satisfies [P].  The rules follow
    the program's text; the components prove with them that they stay within
    their own directories. *)

From stdpp Require Import base gmap strings list fin_maps sorting.
From Stdlib Require Import ZArith NArith Ascii.
From S2P Require Import Prelude.
From S2P Require Import GoStrings.
From S2P Require Import Os.
From S2P Require Import AtomicFile.
From S2P Require Import Dirs.

Abbreviation area := (string -> bool).

(** At or below a directory. *)
Definition in_dir (d p : string) : bool := match under d p with Some _ => true | None => false end.

Definition same_off (S : area) (f g : fs) : Prop := forall p, S p = false -> g !! p = f !! p.

Lemma same_off_refl S f : same_off S f f.
Proof. done. Qed.

Lemma same_off_trans S f g h : same_off S f g -> same_off S g h -> same_off S f h.
Proof. intros H1 H2 p Hp. by rewrite H2, H1. Qed.

Lemma same_off_insert (S : area) f p x : S p = true -> same_off S f (<[p := x]> f).
Proof. intros Hp q Hq. apply lookup_insert_ne. congruence. Qed.

Lemma same_off_delete (S : area) f p : S p = true -> same_off S f (delete p f).
Proof. intros Hp q Hq. apply lookup_delete_ne. congruence. Qed.

(** ** Programs that take related steps

    [steps R m P]: wherever [m] stops, the tree is related by [R] to the one it
    started from; and what it returns satisfies [P]. *)

(** A reflexive and transitive relation between trees. *)
Record rel : Type := Rel {
  related : fs -> fs -> Prop;
  related_refl : forall f, related f f;
  related_trans : forall f g h, related f g -> related g h -> related f h
}.

Section steps.
Context (R : rel).
Local Notation any := (fun _ => True).

Definition steps {A} (m : io A) (P : A -> Prop) : Prop := forall w,
  match m w with
  | (w', o) => related R (w_fs w) (w_fs w') /\ match o with Done a => P a | Crashed => True end
  end.

Lemma steps_mono {A} (m : io A) (P Q : A -> Prop) : steps m P -> (forall a, P a -> Q a) -> steps m Q.
Proof. intros Hm HPQ w. specialize (Hm w). destruct (m w) as [w' [a|]]; naive_solver. Qed.

Lemma steps_True {A} (m : io A) P : steps m P -> steps m any.
Proof. intros Hm. by eapply steps_mono. Qed.

Lemma steps_ret {A} (a : A) (P : A -> Prop) : P a -> steps (ret a) P.
Proof. intros HP w. split; [apply related_refl|done]. Qed.

Lemma steps_bind {A B} (m : io A) (k : A -> io B) P Q :
  steps m P -> (forall a, P a -> steps (k a) Q) -> steps (bind m k) Q.
Proof.
  intros Hm Hk w. specialize (Hm w). unfold bind. destruct (m w) as [w' [a|]]; [|done]. destruct Hm as [Hs HP].
  specialize (Hk a HP w'). destruct (k a w') as [w'' o]. destruct Hk as [Hs' Ho]. split; [by eapply related_trans|done].
Qed.

Lemma steps_any {A B} (m : io A) (k : A -> io B) Q :
  steps m any -> (forall a, steps (k a) Q) -> steps (bind m k) Q.
Proof. intros Hm Hk. eapply steps_bind; [exact Hm|]. intros a _. apply Hk. Qed.

Lemma steps_try {A B} (m : io (result A)) (h : error -> io B) (k : A -> io B) (P : A -> Prop) Q :
  steps m (fun r => forall a, r = Ok a -> P a) -> (forall a, P a -> steps (k a) Q) -> (forall e, steps (h e) Q) ->
  steps (try m h k) Q.
Proof. intros Hm Hk Hh. eapply steps_bind; [exact Hm|]. intros [a|e] HP; [by apply Hk, HP|apply Hh]. Qed.

Lemma steps_tryany {A B} (m : io (result A)) (h : error -> io B) (k : A -> io B) Q :
  steps m any -> (forall a, steps (k a) Q) -> (forall e, steps (h e) Q) -> steps (try m h k) Q.
Proof. intros Hm Hk Hh. eapply steps_any; [exact Hm|]. intros [a|e]; [apply Hk|apply Hh]. Qed.

Lemma steps_defer {A B} (c : io B) (m : io A) Q : steps m Q -> steps c any -> steps (defer c m) Q.
Proof.
  intros Hm Hc. eapply steps_bind; [exact Hm|]. intros a Ha. eapply steps_any; [exact Hc|]. intros b. by apply steps_ret.
Qed.

(** Programs that change nothing. *)
Definition reads_only {A} (m : io A) : Prop := forall w, w_fs (m w).1 = w_fs w.

Lemma steps_reads {A} (m : io A) : reads_only m -> steps m any.
Proof. intros Hm w. specialize (Hm w). destruct (m w) as [w' o]. simpl in Hm. rewrite Hm. split; [apply related_refl|by destruct o]. Qed.
End steps.

Definition leaving (S : area) : rel := Rel (same_off S) (same_off_refl S) (same_off_trans S).

Abbreviation within S := (steps (leaving S)).

(** ** The rules *)

Section rules.
Context (S : area).
Local Notation any := (fun _ => True).

(** *** System calls *)

Context `{Env}.

Lemma within_sys {A} (op : Z -> N -> fs -> fs * result A) (P : result A -> Prop) :
  (forall e, P (Err e)) -> (forall t r f, same_off S f (op t r f).1 /\ P (op t r f).2) -> within S (sys op) P.
Proof.
  intros He Hop w. unfold sys. destruct (fault_at (w_pc w)); [|by split|done].
  specialize (Hop (time_at (w_pc w)) (rand_at (w_pc w)) (w_fs w)). by destruct (op _ _ _) as [g r].
Qed.

Lemma within_read {A} (op : fs -> result A) (P : result A -> Prop) :
  (forall e, P (Err e)) -> (forall f, P (op f)) -> within S (sys_read op) P.
Proof. intros He HP. apply within_sys; [done|]. intros _ _ f. split; [done|apply HP]. Qed.

Lemma within_look {A} (op : fs -> result A) : within S (sys_read op) any.
Proof. by apply within_read. Qed.

Lemma within_Now : within S Now any.
Proof. intros w. by split. Qed.

Lemma within_Remove p : S p = true -> within S (Remove p) any.
Proof.
  intros Hp. apply within_sys; [done|]. intros _ _ f. split; [|done]. unfold fs_remove.
  destruct (f !! p) as [[]|]; try (destruct (entry_names f p)); cbn; (apply same_off_refl || by apply same_off_delete).
Qed.

Lemma within_Rename a b : S a = true -> S b = true -> within S (Rename a b) any.
Proof.
  intros Ha Hb. apply within_sys; [done|]. intros _ _ f. split; [|done]. unfold fs_rename.
  destruct (f !! a) as [[]|]; cbn; try apply same_off_refl;
    (destruct (f !! b) as [[]|]; cbn; try apply same_off_refl; destruct (is_dir f (Dir b)); cbn; try apply same_off_refl;
     (apply (same_off_trans S _ (delete a f)); [by apply same_off_delete|by apply same_off_insert])).
Qed.

Lemma within_Symlink t p : S p = true -> within S (Symlink t p) any.
Proof.
  intros Hp. apply within_sys; [done|]. intros _ _ f. split; [|done]. unfold fs_symlink.
  destruct (f !! p); [apply same_off_refl|]. destruct (is_dir f (Dir p)); [by apply same_off_insert|apply same_off_refl].
Qed.

Lemma within_Chmod p m : S p = true -> within S (Chmod p m) any.
Proof.
  intros Hp. apply within_sys; [done|]. intros _ _ f. split; [|done]. unfold fs_chmod.
  destruct (f !! p) as [[]|]; cbn; try (apply same_off_refl || by apply same_off_insert).
  case_bool_decide; apply same_off_refl.
Qed.

Lemma within_Write p c : S p = true -> within S (Write p c) any.
Proof.
  intros Hp. apply within_sys; [done|]. intros t _ f. split; [|done]. unfold fs_append.
  destruct (f !! p) as [[]|]; cbn; apply same_off_refl || by apply same_off_insert.
Qed.

Lemma create_off f p m t : S p = true -> same_off S f (fs_create f p m t).1.
Proof.
  intros Hp. unfold fs_create. destruct (f !! p); [apply same_off_refl|].
  destruct (is_dir f (Dir p)); [by apply same_off_insert|apply same_off_refl].
Qed.

Lemma within_OpenExcl p m : S p = true -> within S (OpenExcl p m) any.
Proof. intros Hp. apply within_sys; [done|]. intros t _ f. split; [by apply create_off|done]. Qed.

Lemma mkdir_off f p m t : S p = true -> same_off S f (fs_mkdir f p m t).1.
Proof.
  intros Hp. unfold fs_mkdir. destruct (is_dir f p); [apply same_off_refl|]. destruct (f !! p); [apply same_off_refl|].
  destruct (is_dir f (Dir p)); [by apply same_off_insert|apply same_off_refl].
Qed.

(** The directories on the way are ours, or there from the start. *)
Fixpoint dirs_ok (fuel : nat) (p : string) : bool :=
  bool_decide (p = ".") || (S p && match fuel with O => true | Datatypes.S n => dirs_ok n (Dir p) end).

Lemma mkdirall_off n : forall f p m t, dirs_ok n p = true -> same_off S f (fs_mkdirall n f p m t).1.
Proof.
  induction n as [|n IH]; intros f p m t Hp; cbn [fs_mkdirall].
  { destruct (is_dir f p); apply same_off_refl. }
  destruct (is_dir f p) eqn:Hd; [apply same_off_refl|]. cbn [dirs_ok] in Hp. apply orb_true_iff in Hp as [Hp|Hp].
  { apply bool_decide_eq_true in Hp as ->. done. }
  apply andb_true_iff in Hp as [Hp Hdirs]. specialize (IH f (Dir p) m t Hdirs).
  destruct (fs_mkdirall n f (Dir p) m t) as [g [[]|e]]; [|done]. eapply same_off_trans; [exact IH|by apply mkdir_off].
Qed.

Lemma within_MkdirAll p m : dirs_ok (length (Split p slash)) p = true -> within S (MkdirAll p m) any.
Proof. intros Hp. apply within_sys; [done|]. intros t _ f. split; [by apply mkdirall_off|done]. Qed.

(** A temporary name: the prefix and a number. *)
Definition temp_of (pre : string) (r : result string) : Prop := forall p, r = Ok p -> exists k, p = pre +:+ FormatUint k.

Lemma temp_name_of f pre k p : temp_name f pre k = Some p -> exists n, p = pre +:+ FormatUint n.
Proof. unfold temp_name. destruct (first_free _ _ _ _) as [n|]; [|done]. intros [= <-]. by exists n. Qed.

Lemma within_CreateTemp d prefix : (forall k, S (d +:+ "/" +:+ prefix +:+ FormatUint k) = true) ->
  within S (CreateTemp d prefix) (temp_of (d +:+ "/" +:+ prefix)).
Proof.
  intros Hs. apply within_sys; [by intros e p|]. intros t r f. destruct (temp_name _ _ _) as [p|] eqn:Ep.
  - apply temp_name_of in Ep as [n ->]. pose proof (create_off f _ 384 t (Hs n)) as Ho.
    rewrite !sapp_assoc. destruct (fs_create f _ 384 t) as [g [[]|e]]; (split; [done|]); [|by intros p].
    intros p [= <-]. exists n. by rewrite !sapp_assoc.
  - split; [apply same_off_refl|by intros p].
Qed.

Lemma within_MkdirTemp d prefix : (forall k, S (d +:+ "/" +:+ prefix +:+ FormatUint k) = true) ->
  within S (MkdirTemp d prefix) (temp_of (d +:+ "/" +:+ prefix)).
Proof.
  intros Hs. apply within_sys; [by intros e p|]. intros t r f. destruct (temp_name _ _ _) as [p|] eqn:Ep.
  - apply temp_name_of in Ep as [n ->]. pose proof (mkdir_off f _ 448 t (Hs n)) as Ho.
    rewrite !sapp_assoc. destruct (fs_mkdir f _ 448 t) as [g [[]|e]]; (split; [done|]); [|by intros p].
    intros p [= <-]. exists n. by rewrite !sapp_assoc.
  - split; [apply same_off_refl|by intros p].
Qed.

(** Entries of a directory are single names. *)
Definition names_ok (r : result (list string)) : Prop := forall l, r = Ok l -> Forall (no_char slash) l.

Lemma child_of_name d p n : child_of d p = Some n -> no_char slash n.
Proof.
  unfold child_of. destruct (HasPrefix _ _); [|done]. case_bool_decide; [done|]. cbn [orb].
  destruct (contains_char slash _) eqn:E; [done|]. by intros [= <-].
Qed.

Lemma entry_names_ok f d : Forall (no_char slash) (entry_names f d).
Proof.
  unfold entry_names. apply Forall_forall. intros n Hn. rewrite merge_sort_Permutation in Hn.
  apply list_elem_of_omap in Hn as (kv & _ & Hc). by eapply child_of_name.
Qed.

Lemma within_ReadDir p : within S (ReadDir p) names_ok.
Proof.
  apply within_read; [by intros e l|]. intros f l. destruct (is_dir f p); [|by destruct (f !! p)].
  intros [= <-]. apply entry_names_ok.
Qed.

Definition kinds_ok (r : result (list (string * file_kind))) : Prop := forall l, r = Ok l -> Forall (fun x => no_char slash x.1) l.

Lemma within_ReadDirEntries p : within S (ReadDirEntries p) kinds_ok.
Proof.
  apply within_read; [by intros e l|]. intros f l. destruct (is_dir f p); [|by destruct (f !! p)].
  intros [= <-]. unfold entry_kinds. apply Forall_forall. intros x Hx. apply list_elem_of_omap in Hx as (n & Hn & Hx).
  destruct (f !! (p +:+ "/" +:+ n)) as [y|]; [|done]. injection Hx as <-. cbn.
  pose proof (entry_names_ok f p) as Ho. rewrite Forall_forall in Ho. by apply Ho.
Qed.

(** Renaming a directory moves what is below it. *)
Lemma within_RenameDir a b : under b a = None -> (forall x, S (a +:+ x) = true) -> (forall x, S (b +:+ x) = true) ->
  within S (RenameDir a b) any.
Proof.
  intros Hba Ha Hb. apply within_sys; [done|]. intros _ _ f. split; [|done].
  assert (forall d p, (forall x, S (d +:+ x) = true) -> S p = false -> under d p = None) as Hout.
  { intros d p Hd Hp. destruct (under d p) as [x|] eqn:E; [|done]. apply under_Some in E as [-> _]. by rewrite Hd in Hp. }
  unfold fs_rename_dir. destruct (f !! a) as [[]|]; cbn; try apply same_off_refl. destruct (under a b) eqn:Hab; [apply same_off_refl|].
  assert (same_off S f (relocate a b f)) as Hr by (intros p Hp; by rewrite relocate_lookup, !Hout).
  destruct (f !! b) as [[]|]; try apply same_off_refl.
  - destruct (entry_names f b); [|apply same_off_refl]. destruct (is_dir f (Dir b)); [done|apply same_off_refl].
  - destruct (is_dir f (Dir b)); [done|apply same_off_refl].
Qed.

(** ** Replacing files and links *)

Lemma within_syncDirectory p : within S (syncDirectory p) any.
Proof. apply steps_tryany; [apply within_look|intros; apply within_look|intros; by apply steps_ret]. Qed.

Lemma within_replaceFile d prefix path content mode fin :
  (forall k, S (d +:+ "/" +:+ prefix +:+ FormatUint k) = true) -> S path = true -> within S fin any ->
  within S (replaceFile d prefix path content mode fin) any.
Proof.
  intros Ht Hp Hf. unfold replaceFile.
  apply (steps_try _ _ _ _ (fun p => exists k, p = d +:+ "/" +:+ prefix +:+ FormatUint k)); [|intros tmp [k ->]|by intros; apply steps_ret].
  { eapply steps_mono; [by apply within_CreateTemp|]. intros r Hr p E. destruct (Hr p E) as [k ->]. exists k. by rewrite !sapp_assoc. }
  assert (forall e, within S (let! _ := Close (d +:+ "/" +:+ prefix +:+ FormatUint k) in ret (Err (A := unit) e))%go any) as Hc.
  { intros e. apply steps_any; [apply within_look|]. intros _. by apply steps_ret. }
  apply steps_defer; [|by apply within_Remove].
  apply steps_tryany; [by apply within_Chmod|intros _|done]. apply steps_tryany; [by apply within_Write|intros _|done].
  apply steps_tryany; [apply within_look|intros _|done].
  apply steps_tryany; [apply within_look|intros _|by intros; apply steps_ret].
  apply steps_tryany; [by apply within_Rename|by intros _|by intros; apply steps_ret].
Qed.

Lemma within_replaceLink target path fin :
  (forall z, S (path +:+ ".tmp-" +:+ FormatInt z) = true) -> S path = true -> within S fin any ->
  within S (replaceLink target path fin) any.
Proof.
  intros Ht Hp Hf. unfold replaceLink. apply steps_any; [apply within_Now|intros z].
  apply steps_tryany; [by apply within_Symlink|intros _|by intros; apply steps_ret].
  apply steps_defer; [|by apply within_Remove]. apply steps_tryany; [by apply within_Rename|by intros _|by intros; apply steps_ret].
Qed.

Lemma within_removeThen path fin : S path = true -> within S fin any -> within S (removeThen path fin) any.
Proof.
  intros Hp Hf. apply steps_any; [by apply within_Remove|]. intros [u|e]; [done|].
  destruct (errorsIs e SNotExist); [done|by apply steps_ret].
Qed.
End rules.

Lemma within_sub (S T : area) {A} (m : io A) P : (forall p, S p = true -> T p = true) -> within S m P -> within T m P.
Proof.
  intros Hst Hm w. specialize (Hm w). destruct (m w) as [w' o]. destruct Hm as [Hs Ho]. split; [|done].
  intros p Hp. apply Hs. destruct (S p) eqn:E; [|done]. rewrite (Hst p E) in Hp. done.
Qed.

(** A name is "", ".", ".." or that of an entry. *)
Lemma name_cases n : no_char slash n -> n = "" \/ n = "." \/ n = ".." \/ entry_name n.
Proof.
  intros Hn. destruct (decide (n = "")); [by left|right]. destruct (decide (n = ".")); [by left|right].
  destruct (decide (n = "..")); [by left|right]. by split_and!.
Qed.

(** ** Automation

    [frame] follows the text of a program; the database [frame] holds the rules
    of calls and of the components' own programs. *)

Create HintDb frame.

#[export] Hint Resolve within_look within_Now within_Remove within_Rename within_Symlink within_Chmod within_Write
  within_OpenExcl within_MkdirAll within_syncDirectory within_replaceFile within_replaceLink within_removeThen : frame.
#[export] Hint Extern 1 (within _ (sys_read _) _) => apply within_look : frame.
#[export] Hint Extern 1 (within _ (Lstat _) _) => apply within_look : frame.
#[export] Hint Extern 1 (within _ (Stat _) _) => apply within_look : frame.
#[export] Hint Extern 1 (within _ (ReadFile _) _) => apply within_look : frame.
#[export] Hint Extern 1 (within _ (Readlink _) _) => apply within_look : frame.
#[export] Hint Extern 1 (within _ (Sync _) _) => apply within_look : frame.
#[export] Hint Extern 1 (within _ (Close _) _) => apply within_look : frame.
#[export] Hint Extern 1 (within _ (OpenDir _) _) => apply within_look : frame.
#[export] Hint Extern 1 (within _ (SyncDir _) _) => apply within_look : frame.
#[export] Hint Extern 1 (within _ (ReadDir _) _) => eapply steps_True, within_ReadDir : frame.
#[export] Hint Extern 1 (within _ (ReadDirEntries _) _) => eapply steps_True, within_ReadDirEntries : frame.
#[export] Hint Extern 1 (within _ (ret _) _) => apply steps_ret; exact I : frame.
#[export] Hint Extern 1 (_ = true) => reflexivity : frame.
#[export] Hint Extern 1 (within _ _ _) => eassumption : frame.

Ltac frame_step :=
  lazymatch goal with
  | |- steps _ (ret _) _ => apply steps_ret; exact I
  | |- steps _ (lift _) _ => apply steps_ret; exact I
  | |- steps _ (bind _ _) _ => apply steps_any; [|intros ?]
  | |- steps _ (try _ _ _) _ => apply steps_tryany; [|intros ?|intros ?]
  | |- steps _ (defer _ _) _ => apply steps_defer
  | |- steps _ (match ?x with _ => _ end) _ => destruct x
  end.

Ltac frame := intros; repeat (first [solve [auto with frame nocore] | frame_step]).
