(* ===== verification/FrameConfig.v ===== *)
(** * The configuration store stays in its directory

    Validation, applying and recovery of a configuration change nothing outside
    xray-config, and their invariant reads nothing outside it. *)

From stdpp Require Import base gmap strings list fin_maps sorting.
From Stdlib Require Import ZArith NArith Ascii.
From S2P Require Import Prelude.
From S2P Require Import GoStrings.
From S2P Require Import Sha256.
From S2P Require Import Os.
From S2P Require Import AtomicFile.
From S2P Require Import Dirs.
From S2P Require Import Frames.
From S2P Require Import XrayConfig.
From S2P Require Import XrayTypes.
From S2P Require Import XrayRuntime.
From S2P Require Import XraySteps.
From S2P Require Import XrayPrune.
From S2P Require Import XrayInv.
From S2P Require Import XrayRecover.
From S2P Require Import XrayApply.
From S2P Require Import XrayTheorems.

Definition config_area : area := in_dir "xray-config".

Lemma in_dir_below d n : in_dir d (d +:+ "/" +:+ n) = true.
Proof. unfold in_dir. change (d +:+ "/" +:+ n) with (d +:+ String slash n). by rewrite under_below. Qed.

Lemma config_below n : config_area ("xray-config/" +:+ n) = true.
Proof. apply (in_dir_below "xray-config"). Qed.

Lemma HasPrefix_below d x p : HasPrefix p (d +:+ "/" +:+ x) = true -> in_dir d p = true.
Proof. intros [r ->]%HasPrefix_inv. rewrite !sapp_assoc. apply in_dir_below. Qed.

Lemma ctl_in_config p : ctl_scratch p = true -> config_area p = true.
Proof.
  unfold ctl_scratch. rewrite !orb_true_iff, !bool_decide_eq_true. intros [[Hp| ->]| ->]; [|done|done].
  by apply (HasPrefix_below "xray-config" ".xui-agent-").
Qed.

(** ** What the collaborators touch *)

Lemma reads_runner `{Env} `{!Runner} `{!RunnerLaws} b p : reads_only (runner_Validate b p).
Proof. intros w. pose proof (runner_spec b p w) as Hr. destruct (runner_Validate b p w) as [w' [r|]]; apply Hr. Qed.

Lemma within_ctl `{Env} (m : io (result unit)) (S : area) : (forall p, ctl_scratch p = true -> S p = true) ->
  (forall w, ctl_step w (m w).1) -> within S m (fun _ => True).
Proof.
  intros HS Hm w. specialize (Hm w). destruct (m w) as [w' o]. destruct Hm as [Hm _]. split; [|by destruct o].
  intros p Hp. apply Hm. destruct (ctl_scratch p) eqn:E; [|done]. rewrite (HS p E) in Hp. done.
Qed.

Section controller.
Context `{Env} `{Controller} `{!ControllerLaws} (S : area) (HS : forall p, ctl_scratch p = true -> S p = true).

Lemma within_Restart : within S RestartAndWait (fun _ => True).
Proof. apply within_ctl; [done|]. intros w. pose proof (restart_law w) as Hl. destruct (RestartAndWait w) as [w' [[]|]]; apply Hl. Qed.

Lemma within_Stop : within S StopAndWait (fun _ => True).
Proof. apply within_ctl; [done|]. intros w. pose proof (stop_law w) as Hl. destruct (StopAndWait w) as [w' [[]|]]; apply Hl. Qed.

Lemma within_Preflight c : Preflight = Some c -> within S c (fun _ => True).
Proof. intros Hc. apply within_ctl; [done|]. intros w. pose proof (preflight_law c w Hc) as Hl. destruct (c w) as [w' [[]|]]; apply Hl. Qed.
End controller.

(** ** Validation *)

#[export] Hint Extern 1 (config_area _ = true) => apply config_below : frame.
#[export] Hint Resolve steps_reads : frame.

Section validation.
Context `{Env} `{RU : !Runner} `{!RunnerLaws}.
Local Notation inside m := (within config_area m (fun _ => True)).

Lemma inside_candidate m req : inside (validate_candidate m req).
Proof.
  unfold validate_candidate, saveResult, XrayConfig.writeAtomic, ActivePath, existsOrUnknown. frame.
  all: try apply steps_reads, reads_runner.
Qed.

Lemma inside_Validate m req : within config_area (XrayConfig.Validate m req)
  (fun r => forall v, r = Ok v -> validateRequest (XrayConfig.normalize req) = Ok tt).
Proof.
  unfold XrayConfig.Validate. destruct (negb _); [by apply steps_ret|].
  destruct (validateRequest _) as [[]|e]; [|by apply steps_ret]. eapply steps_mono; [|done].
  unfold XrayConfig.loadResult. frame; apply inside_candidate.
Qed.
End validation.

(** ** Applying *)

Section apply.
Context `{Env} `{RU : !Runner} `{!RunnerLaws} `{Controller} `{!ControllerLaws} `{!ClockOk}.
Local Notation inside m := (within config_area m (fun _ => True)).

Lemma inside_removeAndSync p : config_area p = true -> inside (removeAndSync p).
Proof. intros Hp. unfold removeAndSync. apply within_removeThen; [done|]. frame. Qed.

Lemma inside_atomicSymlink t p : (forall z, config_area (p +:+ ".tmp-" +:+ FormatInt z) = true) -> config_area p = true ->
  inside (atomicSymlink t p).
Proof. intros Ht Hp. unfold atomicSymlink. destruct (validateTarget t); frame. Qed.

Lemma inside_writeAtomic p c m : dirs_ok config_area (length (Split (Dir p) slash)) (Dir p) = true ->
  (forall x, config_area (Dir p +:+ "/" +:+ x) = true) -> config_area p = true -> inside (writeAtomic p c m).
Proof. intros Hd Ht Hp. unfold writeAtomic. frame. Qed.

#[local] Hint Resolve inside_removeAndSync inside_atomicSymlink : frame.

Lemma inside_persist p c m : p ∈ [appliedPath; pendingPath; failedPath] -> inside (persistState p c m).
Proof.
  intros Hp. unfold persistState. set_unfold in Hp.
  destruct Hp as [-> |[-> |[-> |[]]]]; (apply inside_writeAtomic; [reflexivity|intros x; apply config_below|reflexivity]).
Qed.

Lemma inside_version t c m : validateTarget t = Ok tt -> inside (writeAtomic (Join directory t) c m).
Proof.
  intros Ht. rewrite target_path by done. apply validateTarget_entry in Ht as (n & Hn & ->).
  assert (Dir (directory +:+ "/" +:+ ("versions/" +:+ n)) = versionsDirectory) as Hd.
  { change (directory +:+ "/" +:+ ("versions/" +:+ n)) with (versionsDirectory +:+ "/" +:+ n). apply no_slash_Dir; [reflexivity|apply Hn]. }
  apply inside_writeAtomic; rewrite ?Hd; [reflexivity|intros x; apply (config_below ("versions/" +:+ x))|apply config_below].
Qed.

(** Names in the directory of versions. *)
Lemma inside_Join n : no_char slash n -> config_area (Join versionsDirectory n) = true.
Proof.
  intros [->|[->|[->|Hn]]]%name_cases; [reflexivity..|].
  rewrite Join_versionsDirectory by done. apply (config_below ("versions/" +:+ n)).
Qed.

(** Garbage collection. *)
Lemma inside_removeVersions P versions : forall index removed, Forall (fun v => no_char slash v.1) versions ->
  inside (removeVersions P index versions removed).
Proof.
  induction versions as [|v versions IH]; intros index removed Hv; [by apply steps_ret|].
  apply Forall_cons in Hv as [Hn Hv]. cbn [removeVersions]. destruct (removable _ _ _); [|by apply IH].
  apply steps_tryany; [by apply within_Remove, inside_Join|by intros _; apply IH|by intros; apply steps_ret].
Qed.

Lemma inside_versionFiles names : Forall (no_char slash) names ->
  within config_area (versionFiles names) (fun r => forall l, r = Ok l -> Forall (fun v => no_char slash v.1) l).
Proof.
  induction 1 as [|n names Hn _ IH]; [apply steps_ret; by intros l [= <-]|]. cbn [versionFiles].
  destruct (configTargetDigest _); [|done]. apply steps_tryany; [frame|intros info|by intros; apply steps_ret].
  apply (steps_try _ _ _ _ (Forall (fun v => no_char slash v.1))); [done|intros l Hl|by intros; apply steps_ret].
  apply steps_ret. intros l' [= <-]. destruct (IsRegular info); [by constructor|done].
Qed.

Lemma inside_protected : inside protectedTargets.
Proof. unfold protectedTargets, protect_link, loadApplied, loadPending. frame. Qed.

Lemma inside_prune : inside pruneVersions.
Proof.
  unfold pruneVersions. eapply steps_bind; [apply within_ReadDir|]. intros [names|e] Hn; [|frame].
  apply steps_tryany; [apply inside_protected|intros P|frame].
  apply (steps_try _ _ _ _ (Forall (fun v => no_char slash v.1))); [by apply inside_versionFiles, Hn|intros l Hl|frame].
  apply steps_tryany; [|intros; frame|frame]. apply inside_removeVersions. by rewrite merge_sort_Permutation.
Qed.

Lemma inside_Restart : inside RestartAndWait.
Proof. apply within_Restart, ctl_in_config. Qed.

Lemma inside_Stop : inside StopAndWait.
Proof. apply within_Stop, ctl_in_config. Qed.

#[local] Hint Resolve inside_prune inside_Restart inside_Stop : frame.
#[local] Hint Extern 1 (within _ (persistState _ _ _) _) => apply inside_persist; set_solver : frame.

Lemma inside_verifyConfigTarget t d : inside (verifyConfigTarget t d).
Proof. unfold verifyConfigTarget. frame. Qed.

Lemma inside_verifyAppliedTarget a : inside (verifyAppliedTarget a).
Proof. unfold verifyAppliedTarget. frame. apply inside_verifyConfigTarget. Qed.

#[local] Hint Resolve inside_verifyConfigTarget inside_verifyAppliedTarget : frame.

Lemma inside_verifyApplied a : inside (verifyApplied a).
Proof. unfold verifyApplied, currentTarget, linkTarget. frame. Qed.

Lemma inside_appliedStateForTarget t : inside (appliedStateForTarget t).
Proof. unfold appliedStateForTarget. frame. Qed.

#[local] Hint Resolve inside_verifyApplied inside_appliedStateForTarget : frame.

Lemma inside_confirmApplied a : inside (confirmApplied a).
Proof. unfold confirmApplied, loadPending. frame. Qed.

Lemma inside_rollbackResult p failure code : inside (rollbackResult p failure code).
Proof. unfold rollbackResult, rollback, rollbackInitial, rollbackPrevious, rollbackAppliedState. frame. Qed.

#[local] Hint Resolve inside_confirmApplied inside_rollbackResult : frame.

(** [Recover] *)
Lemma inside_Recover m : inside (Recover m).
Proof. unfold Recover, loadPending, loadApplied. frame. Qed.

Lemma inside_installVersion r repair : request_ok r -> inside (installVersion r repair).
Proof.
  intros Hr. pose proof (request_digest r Hr) as Hd. pose proof Hr as [Hv _].
  assert (inside (writeRepairVersion r)) as Hrep.
  { unfold writeRepairVersion. apply steps_any; [frame|intros z]. apply steps_tryany; [|frame|frame].
    eapply inside_version, metadata_target, metadata_repair; done. }
  unfold installVersion. rewrite version_target_Join by done. frame.
  all: eapply inside_version, metadata_target, metadata_version; done.
Qed.

Lemma inside_admitApplied r : inside (admitApplied r).
Proof. unfold admitApplied, confirmSame, loadApplied. frame. Qed.

Lemma inside_checkReady : inside checkReady.
Proof.
  unfold checkReady, checkPending, loadPending. apply steps_tryany; [|frame|frame].
  destruct Preflight as [c|] eqn:E; [|frame]. by eapply within_Preflight; [apply ctl_in_config|].
Qed.

Lemma inside_commit r repair t a : request_ok r -> inside (commit r repair t a).
Proof.
  intros Hr. unfold commit. apply steps_tryany; [by apply inside_installVersion| |frame].
  intros target. unfold activate, withdraw, recordApplied. frame.
Qed.

Lemma inside_applyValidated r : request_ok r -> inside (applyValidated r).
Proof.
  intros Hr. unfold applyValidated, ensureDirectory. apply steps_tryany; [frame|intros _|frame].
  apply steps_any; [apply inside_admitApplied|]. intros [a|repair t a]; [frame|].
  apply steps_tryany; [|intros prior|frame].
  { unfold repairTarget, previousTarget, linkTarget. frame. }
  apply steps_tryany; [apply inside_checkReady|intros _; by apply inside_commit|frame].
Qed.

Lemma inside_Apply m r : is_u64 (rq_version r) -> inside (Apply m r).
Proof.
  intros Hu. unfold Apply. destruct (negb _); [frame|].
  apply (steps_try _ _ _ _ (fun _ => request_ok (normalize r))); [|intros v Hr|frame].
  - eapply steps_mono; [apply inside_Validate|]. intros res Hres v E. apply accepted_request; [done|by eapply Hres].
  - destruct (negb _); [frame|by apply inside_applyValidated].
Qed.
End apply.

(** ** The invariant reads nothing else *)

Definition config_same (f g : fs) : Prop := forall p, config_area p = true -> g !! p = f !! p.

Lemma config_own p : p ∈ currentPath :: previousPath :: files -> config_area p = true.
Proof. revert p. apply Forall_forall. unfold files. repeat (apply Forall_cons_2; [reflexivity|]). apply Forall_nil_2. Qed.

Lemma config_layout f g : config_same f g -> layout f -> layout g.
Proof.
  intros Hs [H1' H2' H3' H4' [H5' H6'] H7'].
  assert (forall p, p ∈ currentPath :: previousPath :: files -> g !! p = f !! p) as Ho by (intros p Hp; by apply Hs, config_own).
  split; unfold dir_or_none, plain_file, no_link in *.
  - by rewrite Hs.
  - by rewrite Hs.
  - rewrite Forall_forall in *. intros p Hp. rewrite Ho by done. by apply H3'.
  - intros n Hn. rewrite Hs by apply (config_below ("versions/" +:+ n)). by apply H4'.
  - by rewrite !Hs.
  - rewrite Hs by done. done.
Qed.

Lemma config_safe f g : config_same f g -> safe f -> safe g.
Proof.
  intros Hs [Hst|[p Hp]].
  - left. pose proof Hst as (Hl & _). apply (stable_same f); [done|by eapply config_layout|..]; try by rewrite Hs.
    intros a _. apply keeps_same. intros n _. apply Hs, (config_below ("versions/" +:+ n)).
  - right. exists p. pose proof Hp as (Hl & Hd & _). apply (prog_same p f); [done|by eapply config_layout|..].
    + unfold is_dir in *. by rewrite Hs.
    + intros _. apply keeps_same. intros n _. apply Hs, (config_below ("versions/" +:+ n)).
    + by rewrite Hs.
    + left. by rewrite Hs.
Qed.

(** A validation on its own keeps the invariant. *)
Lemma validate_safe `{Env} `{!ClockOk} `{RU : !Runner} `{!RunnerLaws} m req w w' o :
  safe (w_fs w) -> XrayConfig.Validate m req w = (w', o) -> safe (w_fs w').
Proof.
  intros Hs. apply (wp_outcome _ (fun w => safe (w_fs w))).
  assert (forall g, rtc vstep (w_fs w) g -> safe g) as Hsafe by (intros g Hg; by apply (safe_vsteps (w_fs w) g)).
  apply (wp_Validate m req w (w_fs w)); [apply after_refl|by apply layout_shape, safe_layout|..].
  - intros g w1 _ (-> & _) Hg. by apply Hsafe.
  - intros e g w1 _ (-> & _) Hg. by apply Hsafe.
  - intros a w1 (-> & _) _. done.
  - intros r g w1 (-> & _) Hg _ _ _. by apply Hsafe.
Qed.
