(* ===== verification/FrameUpdate.v ===== *)
(** * The binary store stays in its directory

    An update of Xray and its recovery change paths below xray-runtime, the
    controller's own files, and legacy downloads outside the state directory. *)

From stdpp Require Import base gmap strings list fin_maps sorting.
From Stdlib Require Import ZArith NArith Ascii.
From S2P Require Import Prelude.
From S2P Require Import GoStrings.
From S2P Require Import Sha256.
From S2P Require Import Os.
From S2P Require Import AtomicFile.
From S2P Require Import Dirs.
From S2P Require Import Frames.
From S2P Require Import XrayTypes.
From S2P Require Import XrayRuntime.
From S2P Require Import XrayRecover.
From S2P Require Import FrameConfig.
From S2P Require Import Manifest.
From S2P Require Import Release.
From S2P Require Import UpdateTypes.
From S2P Require Import XrayUpdate.
From S2P Require Import UpdateSteps.
From S2P Require Import UpdatePrune.
From S2P Require Import UpdateStart.
From S2P Require Import UpdateBuild.
From S2P Require Import UpdateApply.
From S2P Require Import UpdateEntry.

Definition update_area : area := fun p => Frames.in_dir "xray-runtime" p || HasPrefix p "../" || ctl_scratch p.

Lemma update_below n : update_area ("xray-runtime/" +:+ n) = true.
Proof. unfold update_area. rewrite !orb_true_iff. left. left. exact (in_dir_below "xray-runtime" n). Qed.

Lemma ctl_in_update p : ctl_scratch p = true -> update_area p = true.
Proof. unfold update_area. intros ->. apply orb_true_r. Qed.

#[export] Hint Extern 1 (update_area _ = true) => apply update_below : frame.

Section update.
Context `{Env} `{Controller} `{!ControllerLaws} `{BundleRunner} `{!BundleRunnerLaws}.
Local Notation inside m := (within update_area m (fun _ => True)).

(** ** Files and directories *)

Lemma inside_u_removeAndSync p : update_area p = true -> inside (removeAndSync p).
Proof. intros Hp. unfold removeAndSync. frame. Qed.

Lemma inside_u_atomicSymlink t p : (forall z, update_area (p +:+ ".tmp-" +:+ FormatInt z) = true) -> update_area p = true ->
  inside (atomicSymlink t p).
Proof. intros Ht Hp. unfold atomicSymlink. destruct (validateTarget t); frame. Qed.

Lemma inside_u_writeAtomic p c m : dirs_ok update_area (length (Split (Dir p) slash)) (Dir p) = true ->
  (forall x, update_area (Dir p +:+ "/" +:+ x) = true) -> update_area p = true -> inside (writeAtomic p c m).
Proof. intros Hd Ht Hp. unfold writeAtomic. frame. Qed.

#[local] Hint Resolve inside_u_removeAndSync inside_u_atomicSymlink : frame.

Lemma inside_u_persist p c m : p ∈ [appliedPath; pendingPath; failedPath] -> inside (persistState p c m).
Proof.
  intros Hp. unfold persistState. set_unfold in Hp.
  destruct Hp as [-> |[-> |[-> |[]]]]; (apply inside_u_writeAtomic; [reflexivity|intros x; apply update_below|reflexivity]).
Qed.

#[local] Hint Extern 1 (within _ (persistState _ _ _) _) => apply inside_u_persist; set_solver : frame.

Lemma inside_u_Restart : inside RestartAndWait.
Proof. apply within_Restart, ctl_in_update. Qed.

Lemma inside_u_Stop : inside StopAndWait.
Proof. apply within_Stop, ctl_in_update. Qed.

Lemma inside_u_version binary version : inside (ValidateVersion binary version).
Proof.
  apply steps_reads. intros w. pose proof (version_law binary version w) as Hl.
  destruct (ValidateVersion binary version w) as [w' [r|]]; apply Hl.
Qed.

Lemma inside_u_config binary config : inside (ValidateConfig binary config).
Proof.
  apply steps_reads. intros w. pose proof (config_law binary config w) as Hl.
  destruct (ValidateConfig binary config w) as [w' [r|]]; apply Hl.
Qed.

#[local] Hint Resolve inside_u_Restart inside_u_Stop inside_u_version inside_u_config : frame.

(** ** Reading *)

Lemma inside_hashBundleFile path limit mode : inside (hashBundleFile path limit mode).
Proof. unfold hashBundleFile, Open. frame. Qed.

Lemma inside_verifyFiles path files names : inside (verifyFiles path files names).
Proof. induction names; cbn [verifyFiles]; frame. all: apply inside_hashBundleFile. Qed.

Lemma inside_loadVerifiedTarget t : inside (loadVerifiedTarget t).
Proof. unfold loadVerifiedTarget. frame. apply inside_verifyFiles. Qed.

#[local] Hint Resolve inside_loadVerifiedTarget : frame.

Lemma inside_u_verifyAppliedTarget a : inside (verifyAppliedTarget a).
Proof. unfold verifyAppliedTarget. frame. Qed.

#[local] Hint Resolve inside_u_verifyAppliedTarget : frame.

Lemma inside_u_verifyApplied a : inside (verifyApplied a).
Proof. unfold verifyApplied. frame. Qed.

Lemma inside_appliedConfigPath : inside appliedConfigPath.
Proof.
  unfold appliedConfigPath, XrayRuntime.Current, XrayRuntime.loadApplied, XrayRuntime.verifyApplied, XrayRuntime.currentTarget,
    XrayRuntime.linkTarget, XrayRuntime.verifyAppliedTarget, XrayRuntime.verifyConfigTarget. frame.
Qed.

#[local] Hint Resolve inside_u_verifyApplied inside_appliedConfigPath : frame.

(** ** Versions *)

Lemma update_version n : entry_name n -> update_area (version_path n) = true.
Proof. intros _. apply (update_below ("versions/" +:+ n)). Qed.

Lemma version_file n x : entry_name n -> x ∈ requiredBundleFiles ++ ["bundle.json"] -> update_area (Join (version_path n) x) = true.
Proof. intros Hn Hx. rewrite Join_version_file by done. apply (update_below ("versions/" +:+ (n +:+ "/" +:+ x))). Qed.

Lemma all_forall (f : string -> bool) l : forallb f l = true -> Forall (fun x => f x = true) l.
Proof. rewrite List.forallb_forall. intros Hl. apply Forall_forall. intros x Hx. by apply Hl, list_elem_of_In. Qed.

Lemma inside_removeFiles path names : Forall (fun x => update_area (Join path x) = true) names -> inside (removeFiles path names).
Proof. induction 1 as [|x names Hx _ IH]; cbn [removeFiles]; frame. Qed.

Lemma inside_removeBundle path : update_area path = true ->
  Forall (fun x => update_area (Join path x) = true) (requiredBundleFiles ++ ["bundle.json"]) -> inside (removeBundleDirectory path).
Proof. intros Hp Hf. unfold removeBundleDirectory. pose proof (inside_removeFiles path _ Hf). frame. Qed.

Lemma inside_removeVersion n : no_char slash n -> inside (removeBundleDirectory (Join versionsDirectory n)).
Proof.
  intros [->|[->|[->|Hn]]]%name_cases.
  1-3: apply inside_removeBundle; [reflexivity|apply all_forall; vm_compute; reflexivity].
  rewrite u_Join_versions by done. apply inside_removeBundle; [by apply update_version|].
  apply Forall_forall. intros x Hx. by apply version_file.
Qed.

Lemma inside_u_removeVersions P versions : forall index removed, Forall (fun v => no_char slash v.1) versions ->
  inside (removeVersions P index versions removed).
Proof.
  induction versions as [|v versions IH]; intros index removed Hv; [by apply steps_ret|].
  apply Forall_cons in Hv as [Hn Hv]. cbn [removeVersions]. destruct (removable _ _ _); [|by apply IH].
  apply steps_tryany; [by apply inside_removeVersion|by intros _; apply IH|frame].
Qed.

Lemma inside_u_installedVersions entries : Forall (fun x => no_char slash x.1) entries ->
  within update_area (installedVersions entries) (fun r => forall l, r = Ok l -> Forall (fun v => no_char slash v.1) l).
Proof.
  induction 1 as [|[name kind] entries Hn _ IH]; [apply steps_ret; by intros l [= <-]|]. cbn [installedVersions].
  destruct kind; [done| |done]. apply steps_any; [unfold verifyTarget; frame|]. intros [u|e]; [|done].
  apply steps_tryany; [frame|intros info|by intros; apply steps_ret].
  apply (steps_try _ _ _ _ (Forall (fun v => no_char slash v.1))); [done|intros l Hl|by intros; apply steps_ret].
  apply steps_ret. intros l' [= <-]. by constructor.
Qed.

Lemma inside_u_prune : inside pruneVersions.
Proof.
  unfold pruneVersions. eapply steps_bind; [apply within_ReadDirEntries|]. intros [entries|e] Hn; [|frame].
  apply steps_tryany; [unfold protectedNames, protect_link, loadApplied, loadPending; frame|intros P|frame].
  apply (steps_try _ _ _ _ (Forall (fun v => no_char slash v.1))); [by apply inside_u_installedVersions, Hn|intros l Hl|frame].
  apply steps_tryany; [|frame|frame]. apply inside_u_removeVersions. by rewrite merge_sort_Permutation.
Qed.

#[local] Hint Resolve inside_u_prune : frame.

(** *** A version under construction *)

Lemma temp_below k x : x ∈ requiredBundleFiles ++ ["bundle.json"] -> update_area (Join (temp_dir k) x) = true.
Proof. intros Hx. apply version_file; [apply temp_entry|done]. Qed.

Lemma inside_temp_write k x c m : x ∈ requiredBundleFiles ++ ["bundle.json"] -> inside (writeAtomic (Join (temp_dir k) x) c m).
Proof.
  intros Hx. assert (entry_name x) as He by (apply entry_file; set_solver).
  rewrite temp_join by done. pose proof (plain_version _ (temp_entry k)) as Hp.
  assert (Dir (temp_dir k +:+ "/" +:+ x) = temp_dir k) as Hd by (eapply Dir_plain; [exact Hp|apply He]).
  assert (forall y, update_area (temp_dir k +:+ y) = true) as Ha by (intros y; apply (update_below ("versions/" +:+ (temp_name k +:+ y)))).
  apply inside_u_writeAtomic; rewrite ?Hd; [|intros y; apply Ha|apply Ha].
  assert (Dir (temp_dir k) = versionsDirectory) as Hdd.
  { eapply (Dir_plain _ versionsDirectory); [apply plain_versions|apply temp_entry]. }
  assert (update_area (temp_dir k) = true) as Ha0 by (apply update_version, temp_entry).
  destruct Hp as (_ & _ & Hs). change (version_path (temp_name k)) with (temp_dir k) in Hs. rewrite Hs.
  cbn [length dirs_ok]. rewrite Ha0, Hdd. apply orb_true_r.
Qed.

Lemma inside_writeExtracted k b : forall names digests, names ⊆ requiredBundleFiles -> inside (writeExtracted (temp_dir k) b digests names).
Proof.
  induction names as [|x names IH]; intros digests Hn; cbn [writeExtracted]; [frame|].
  apply steps_tryany; [apply inside_temp_write; set_solver|intros _; apply IH; set_solver|frame].
Qed.

Lemma inside_writeBundleEntry path entry limit mode : update_area path = true -> inside (writeBundleEntry path entry limit mode).
Proof. intros Hp. unfold writeBundleEntry. destruct (copyBundleEntry entry limit) as [raw err]. frame. Qed.

Lemma inside_writeEntries k : forall entries digests, inside (writeEntries (temp_dir k) digests entries).
Proof.
  induction entries as [|e entries IH]; intros digests; cbn [writeEntries]; [frame|]. cbv zeta.
  destruct (isRequiredBundleFile (zf_name e)) eqn:Er; cbn [negb].
  - apply requiredBundle in Er. apply steps_tryany; [apply inside_writeBundleEntry, temp_below; set_solver|intros; apply IH|frame].
  - destruct (copyBundleEntry e _).2; [frame|apply IH].
Qed.

Lemma inside_buildVersion version xray digest target (writeFiles : string -> io (result (gmap string string))) :
  Manifest.validateVersion version = Ok tt -> digest_ok digest -> version <> ".xray-version" ->
  (forall k, inside (writeFiles (temp_dir k))) ->
  inside (buildVersion version xray digest (version_path (version_name version digest)) target writeFiles).
Proof.
  intros Hv Hd Hn Hf. unfold buildVersion. apply steps_tryany; [frame|intros _|frame].
  apply (steps_try _ _ _ _ (fun p => exists k, p = temp_dir k)); [|intros tmp [k ->]|frame].
  { eapply steps_mono; [apply within_MkdirTemp; intros k; apply (update_below ("versions/.xray-version-" +:+ FormatUint k))|].
    intros r Hr p E. destruct (Hr p E) as [k ->]. by exists k. }
  assert (forall y, update_area (temp_dir k +:+ y) = true) as Ha by (intros y; apply (update_below ("versions/" +:+ (temp_name k +:+ y)))).
  assert (update_area (temp_dir k) = true) as Ha0 by (apply update_version, temp_entry).
  apply steps_defer.
  - apply steps_tryany; [by apply within_Chmod|intros _|frame].
    apply steps_tryany; [apply Hf|intros digests|frame].
    destruct (checkDigests digests requiredBundleFiles); [|frame].
    apply steps_tryany; [apply inside_temp_write; set_solver|intros _|frame].
    apply steps_tryany; [frame|intros _|frame]. apply steps_tryany; [|frame|frame].
    apply within_RenameDir; [by apply temp_apart|done|].
    intros y. apply (update_below ("versions/" +:+ (version_name version digest +:+ y))).
  - apply inside_removeBundle; [done|]. apply Forall_forall. intros x Hx. by apply temp_below.
Qed.

Lemma version_location n : entry_name n -> Join directory (Join "versions" n) = version_path n.
Proof.
  intros Hn. destruct (u_target_path ("versions/" +:+ n)) as (n' & _ & Et & Ep & _ & Ej); [by apply target_entry|].
  apply (sapp_inj_l "versions/") in Et as <-. by rewrite Ej.
Qed.

Lemma inside_installBundleFiles version xray digest (writeFiles : string -> io (result (gmap string string))) :
  Manifest.validateVersion version = Ok tt -> digest_ok digest -> version <> ".xray-version" ->
  (forall k, inside (writeFiles (temp_dir k))) -> inside (installBundleFiles version xray digest writeFiles).
Proof.
  intros Hv Hd Hn Hf. unfold installBundleFiles. cbv zeta.
  pose proof (version_lasting version digest Hv Hd Hn) as [He _]. fold (version_name version digest).
  rewrite version_location by done.
  apply steps_any; [frame|]. intros [info|e]; [frame|]. destruct (negb _); [frame|]. by apply inside_buildVersion.
Qed.

(** ** Rollback *)

Lemma inside_u_rollback p config failure code : inside (rollback p config failure code).
Proof.
  unfold rollback, stopForRollback, prepareRollbackController, rollbackInitial, rollbackPrevious, rollbackAppliedState,
    restartRolledBack, loadApplied. frame.
Qed.

#[local] Hint Resolve inside_u_rollback : frame.

Lemma inside_u_rollbackResult p config failure code : inside (rollbackResult p config failure code).
Proof. unfold rollbackResult. frame. Qed.

#[local] Hint Resolve inside_u_rollbackResult : frame.

(** ** Recovery *)

Lemma inside_removeDownloads names : Forall (no_char slash) names -> inside (removeDownloads names).
Proof.
  induction 1 as [|n names Hn _ IH]; cbn [removeDownloads]; [frame|].
  assert (update_area (Join downloads n) = true) as Ha.
  { apply name_cases in Hn as [->|[->|[->|Hn]]]; [reflexivity..|].
    rewrite Join_download by done. apply (update_below (".downloads/" +:+ n)). }
  frame.
Qed.

Lemma inside_removeLegacy `{Owner} paths : Forall (fun p => update_area p = true) paths -> inside (removeLegacy paths).
Proof. induction 1 as [|p paths Hp _ IH]; cbn [removeLegacy]; frame. Qed.

Lemma inside_legacy `{Owner} m : legacy_outside m -> inside (cleanupLegacyDownloads m).
Proof.
  intros Hl. unfold cleanupLegacyDownloads. case_bool_decide; [frame|]. destruct Hl as [?|Hl]; [done|].
  apply (steps_bind _ _ _ (Forall (fun p => update_area p = true))); [|intros paths Hp; by apply inside_removeLegacy].
  unfold Glob. eapply steps_bind; [apply within_ReadDir|]. intros [names|e] Hn; apply steps_ret; [|done].
  apply Forall_fmap, Forall_forall. intros n Hin. apply list_elem_of_filter in Hin as [Hpre Hin].
  specialize (Hn names eq_refl). rewrite Forall_forall in Hn. unfold compose, update_area. rewrite (Hl n Hpre (Hn n Hin)).
  by rewrite orb_true_r.
Qed.

Lemma inside_downloadDirectory : within update_area ensureDownloadDirectory (fun r => forall d, r = Ok d -> d = downloads).
Proof.
  unfold ensureDownloadDirectory, ensureDirectory. do 2 (apply steps_tryany; [frame|intros|by intros; apply steps_ret]).
  apply steps_tryany; [frame|intros info|by intros; apply steps_ret]. destruct (negb _); [by apply steps_ret|].
  apply steps_tryany; [frame|intros|by intros; apply steps_ret]. apply steps_ret. by intros d [= <-].
Qed.

Lemma inside_cleanup `{Owner} m : legacy_outside m -> inside (cleanupStaleDownloads m).
Proof.
  intros Hl. unfold cleanupStaleDownloads. apply (steps_try _ _ _ _ (fun d => d = downloads)); [apply inside_downloadDirectory|intros d ->|frame].
  apply (steps_try _ _ _ _ (Forall (no_char slash))); [apply within_ReadDir|intros entries He|frame].
  pose proof (inside_removeDownloads entries He). pose proof (inside_legacy m Hl). frame.
Qed.

Lemma inside_u_Recover `{Owner} m : legacy_outside m -> inside (Recover m).
Proof.
  intros Hl. pose proof (inside_cleanup m Hl). unfold Recover, recoverPending, confirmedUpdate, undo, loadPending, loadApplied. frame.
Qed.

(** ** Applying *)

Context `{Zip} `{Platform} `{UrlParser}.

Lemma inside_installPrepared c install : inside install -> inside (installPrepared c install).
Proof.
  intros Hi. unfold installPrepared, ensureDirectory, checkPending, loadPending.
  apply steps_tryany; [frame|intros _|frame]. apply steps_tryany; [frame|intros _|frame].
  apply steps_tryany; [done|intros target|frame]. unfold installTarget. apply steps_tryany; [frame|intros _|frame].
  apply steps_any; [unfold admitApplied, loadApplied; frame|]. intros [a|t a]; [frame|].
  apply steps_tryany; [frame|intros config|frame]. apply steps_tryany; [|intros _|frame].
  - unfold checkConfig. destruct (negb _); [frame|]. apply steps_tryany; [frame|intros _|frame].
    destruct Preflight as [check|] eqn:E; [|frame]. apply steps_tryany; [|frame|frame].
    by eapply within_Preflight; [apply ctl_in_update|].
  - unfold commit, activate, recordApplied. frame.
Qed.

Lemma inside_installArchive c path :
  Manifest.validateVersion (c_version c) = Ok tt -> digest_ok (c_digest c) -> c_version c <> ".xray-version" ->
  inside (installArchive c path).
Proof.
  intros Hv Hd Hn. unfold installArchive. apply steps_tryany; [frame|intros info|frame]. destruct (_ || _); [frame|].
  apply steps_tryany; [frame|intros raw|frame]. destruct (open_zip raw) as [l|e]; [|frame].
  destruct (validateBundleArchive l) as [entries|e]; [|frame].
  apply inside_installPrepared, inside_installBundleFiles; try done. intros k. apply inside_writeEntries.
Qed.

Lemma inside_downloadArchive cl net a url path : update_area path = true ->
  within update_area (downloadArchive cl net a url path) (fun r => forall d, r = Ok d -> digest_ok d).
Proof.
  intros Hp. unfold downloadArchive. destruct (DownloadTo _ _ _ _) as [data r].
  apply steps_any; [frame|]. intros [u|e]; [|by apply steps_ret]. destruct r as [size|e]; [|by apply steps_ret].
  destruct (negb _); [by apply steps_ret|]. destruct (negb _); [by apply steps_ret|].
  apply steps_tryany; [frame|intros _|by intros; apply steps_ret]. apply steps_ret. intros d [= <-]. apply sha256_hex_digest.
Qed.

Lemma inside_u_Apply m net r : (forall cl, releases m = Some cl -> net_ok cl net (rq_version r)) -> inside (Apply m net r).
Proof.
  intros Hnet. unfold Apply. destruct (releases m) as [cl|]; [|frame]. destruct (negb _); [frame|]. destruct (command_invalid _); [frame|].
  destruct (if bool_decide _ then _ else _) as [u0|]; [|frame]. destruct (resolveRelease _ _ _) as [[[mf a] url]|e] eqn:E; [|frame].
  pose proof (resolve_ok _ _ _ _ _ _ E) as (Hv & _). pose proof (Hnet cl eq_refl mf a url E) as Hn.
  apply (steps_try _ _ _ _ (fun d => d = downloads)); [apply inside_downloadDirectory|intros d ->|frame].
  apply (steps_try _ _ _ _ (fun p => update_area p = true)); [|intros p Hp|frame].
  { eapply steps_mono; [apply within_CreateTemp; intros k; apply (update_below (".downloads/xray-release-" +:+ FormatUint k))|].
    intros res Hr q Eq. destruct (Hr q Eq) as [k ->]. apply (update_below (".downloads/xray-release-" +:+ FormatUint k)). }
  apply steps_defer; [|by apply within_Remove]. apply steps_defer; [|frame].
  apply steps_tryany; [by apply within_Chmod|intros _|frame].
  apply (steps_try _ _ _ _ digest_ok); [by apply inside_downloadArchive|intros d Hd|frame]. by apply inside_installArchive.
Qed.
End update.
