(* ===== verification/UpdateTheorems.v ===== *)
(** * What the Xray updater guarantees

    The agent as a transition system on the binary store (updates, local
    installations, recoveries, whatever else the agent writes outside the
    store), the invariant along every run, recovery, and the outcomes. *)

From stdpp Require Import base gmap strings list fin_maps sorting relations.
From Stdlib Require Import ZArith NArith Ascii.
From S2P Require Import Prelude.
From S2P Require Import GoStrings.
From S2P Require Import Sha256.
From S2P Require Import Json.
From S2P Require Import Os.
From S2P Require Import AtomicFile.
From S2P Require Import Dirs.
From S2P Require Import XrayTypes.
From S2P Require Import XrayRuntime.
From S2P Require Import XraySteps.
From S2P Require Import XrayInv.
From S2P Require Import XrayRecover.
From S2P Require Import XrayTheorems.
From S2P Require Import Manifest.
From S2P Require Import Release.
From S2P Require Import UpdateTypes.
From S2P Require Import XrayUpdate.
From S2P Require Import UpdateSteps.
From S2P Require Import UpdatePrune.
From S2P Require Import UpdateInv.
From S2P Require Import UpdateRecover.
From S2P Require Import UpdateStart.
From S2P Require Import UpdateBuild.
From S2P Require Import UpdateApply.
From S2P Require Import UpdateAdmit.
From S2P Require Import UpdateEntry.
From S2P Require Import FrameUpdate.

(** ** Changes outside the store *)

Definition outside_same (f g : fs) : Prop := forall p, is_Some (under directory p) -> g !! p = f !! p.

Lemma outside_file f g q : outside_same f g -> q ∈ files -> g !! q = f !! q.
Proof. intros Ho (_ & _ & _ & _ & n & -> & _)%u_files_own. apply Ho. rewrite under_slash. by eexists. Qed.

Lemma outside_version f g n : outside_same f g -> same_version n f g.
Proof.
  intros Ho rest Hr. apply Ho. unfold version_path, versionsDirectory.
  change "xray-runtime/versions" with (directory +:+ "/versions"). rewrite !sapp_assoc.
  rewrite under_app; [by eexists|]. right. eexists. reflexivity.
Qed.

Lemma outside_layout f g : outside_same f g -> layout f -> layout g.
Proof.
  intros Ho [L1 L2 L3 [L4 L5] L6].
  assert (g !! directory = f !! directory) as E1 by (apply Ho; rewrite under_self; by eexists).
  assert (g !! versionsDirectory = f !! versionsDirectory) as E2 by (apply Ho; by eexists).
  split; unfold dir_or_none, no_link in *.
  - by rewrite E1.
  - by rewrite E2.
  - rewrite Forall_forall in *. intros q Hq. unfold plain_file in *. rewrite (outside_file f g) by done. by apply L3.
  - rewrite !(outside_file f g) by auto with go. done.
  - intros n Hn Hs t. rewrite Ho; [by apply L6|]. unfold bundle_path, version_path. unfold versionsDirectory.
    change "xray-runtime/versions" with (directory +:+ "/versions"). rewrite !sapp_assoc.
    rewrite under_app; [by eexists|]. right. eexists. reflexivity.
Qed.

Lemma outside_safe f g : outside_same f g -> safe f -> safe g.
Proof.
  intros Ho [Hs|[p Hp]].
  - left. pose proof Hs as (Hl & _). apply (u_stable_same f); [done|by eapply outside_layout| |..].
    + intros a n _ _. by apply u_keeps_same, outside_version.
    + apply (outside_file f g); auto with go.
    + apply (outside_file f g); auto with go.
    + apply (outside_file f g); auto with go.
  - right. exists p. pose proof Hp as (Hl & Hd & _). apply (u_prog_same p f); [done|by eapply outside_layout| | |..].
    + unfold is_dir in *. rewrite Ho; [done|]. rewrite under_self. by eexists.
    + intros n _. by apply u_keeps_same, outside_version.
    + apply (outside_file f g); auto with go.
    + left. apply (outside_file f g); auto with go.
Qed.

Section theorems.
Context `{Env} `{Controller} `{!ControllerLaws} `{!ClockOk} `{BundleRunner} `{!BundleRunnerLaws}.
Context `{Zip} `{Platform} `{UrlParser} `{Owner}.

(** ** The agent as a transition system *)

Inductive update_step : world -> world -> Prop :=
  | update_apply m net r w w' o :
      ValidString (rq_command r) = true ->
      (forall cl, releases m = Some cl -> net_ok cl net (rq_version r)) ->
      XrayUpdate.Apply m net r w = (w', o) -> update_step w w'
  | update_install id version archive w w' o :
      ValidString id = true -> version <> ".xray-version" ->
      InstallLocal id version archive w = (w', o) -> update_step w w'
  | update_recover m w w' o :
      has_controller m = true -> legacy_outside m ->
      XrayUpdate.Recover m w = (w', o) -> update_step w w'
  | update_process x w : update_step w (set_run x w)
  | update_outside g w : outside_same (w_fs w) g -> update_step w (set_fs g w).

Lemma outcome_safe c f res g w : outcome c f res g w -> safe g.
Proof. destruct res; [|done]. by intros [(ap & _ & ? & _)|(p & conf & fl & code & _ & _ & _ & ? & _)]; left. Qed.

Lemma ends_safe m net r f res g w : apply_ends m net r f res g w -> safe g.
Proof. destruct res; [|done]. intros (cl & mf & art & u & _ & _ & Ho). by eapply outcome_safe. Qed.

Lemma u_apply_safe m net r w w' o : safe (w_fs w) -> ValidString (rq_command r) = true ->
  (forall cl, releases m = Some cl -> net_ok cl net (rq_version r)) ->
  XrayUpdate.Apply m net r w = (w', o) -> safe (w_fs w').
Proof.
  intros Hs Hid Hnet. apply (wp_outcome _ (fun w => safe (w_fs w))).
  apply (u_Apply m net r w (w_fs w)); [apply since_refl|done|done|done|..].
  - intros g w1 _ [Hg _] Hsg. by rewrite Hg.
  - intros res g w1 [Hg _] Ho. rewrite Hg. by eapply ends_safe.
Qed.

Lemma install_safe id version archive w w' o : safe (w_fs w) -> ValidString id = true ->
  version <> ".xray-version" -> InstallLocal id version archive w = (w', o) -> safe (w_fs w').
Proof.
  intros Hs Hid Hn. apply (wp_outcome _ (fun w => safe (w_fs w))).
  apply (wp_InstallLocal id version archive w (w_fs w)); [apply since_refl|done|done|done|..].
  - intros g w1 _ [Hg _] Hsg. by rewrite Hg.
  - intros res g w1 [Hg _] Ho. rewrite Hg. by eapply outcome_safe.
Qed.

Lemma u_recover_safe m w w' o : safe (w_fs w) -> has_controller m = true -> legacy_outside m ->
  XrayUpdate.Recover m w = (w', o) -> safe (w_fs w').
Proof.
  intros Hs Hm Hl. apply (wp_outcome _ (fun w => safe (w_fs w))).
  apply (u_Recover m (w_fs w)); [done|done|done|done|..].
  - intros g w1 _ [Hg _] Hsg. by rewrite Hg.
  - intros e g w1 _ [Hg _] Hsg. by rewrite Hg.
  - intros g w1 [Hg _] Hst _ _. rewrite Hg. by left.
Qed.

Lemma update_step_safe w w' : update_step w w' -> safe (w_fs w) -> safe (w_fs w').
Proof.
  intros Hst Hs. destruct Hst; [by eapply u_apply_safe|by eapply install_safe|by eapply u_recover_safe|done|].
  by eapply outside_safe.
Qed.

Lemma update_steps_safe w w' : rtc update_step w w' -> safe (w_fs w) -> safe (w_fs w').
Proof. induction 1 as [|w1 w2 w3 Hst _ IH]; [done|]. intros Hs. by eapply IH, update_step_safe. Qed.

(** C5: no failed system call and no crash, in any sequence of updates, local
    installations, recoveries, process deaths and changes outside the store,
    takes the binary store out of the invariant: either nothing is pending and
    the applied state, the current link and an intact version agree, or an
    update is pending and the version it falls back to is intact. *)
Theorem update_safe w w' : safe (w_fs w) -> rtc update_step w w' -> safe (w_fs w').
Proof. intros Hs Hr. by apply (update_steps_safe w w'). Qed.

(** From any safe store, once nothing fails. *)
Lemma u_recover_settles m w :
  safe (w_fs w) -> has_controller m = true -> legacy_outside m -> recover_live w (w_fs w) ->
  exists w', XrayUpdate.Recover m w = (w', Done (Ok tt)) /\ stable (w_fs w') /\ (w_pc w <= w_pc w')%nat.
Proof.
  intros Hs Hm Hleg Hlive.
  assert (wp (XrayUpdate.Recover m) (fun r w1 => r = Ok tt /\ stable (w_fs w1) /\ (w_pc w <= w_pc w1)%nat) (fun _ => False) w) as Hwp.
  { apply (u_Recover m (w_fs w)); [done|done|done|done|..].
    - intros g w1 Hn. by destruct Hlive as [? _].
    - intros e g w1 Hn. by destruct Hn.
    - intros g w1 [Hg Hpc] Hst _ _. by rewrite Hg. }
  unfold wp in Hwp. destruct (XrayUpdate.Recover m w) as [w' [r|]]; [|done]. destruct Hwp as (-> & Hst & Hpc). by exists w'.
Qed.

(** C6: whatever happened to the store before, [Recover] returns without error and
    leaves it settled with nothing pending, once no call fails any more, the
    download directory holds files only and, when there is an update to undo,
    Xray can be restarted with a configuration store that has nothing pending
    itself. (With both stores pending it may not return: C18.) *)
Theorem update_recovers m w w' :
  safe (w_fs w) -> rtc update_step w w' -> has_controller m = true -> legacy_outside m ->
  calm w' -> downloads_ok (w_fs w') ->
  (w_fs w' !! pendingPath <> None -> XrayInv.stable (w_fs w') /\ controller_live /\ link_fresh w' currentPath (w_fs w')) ->
  exists w'', XrayUpdate.Recover m w' = (w'', Done (Ok tt)) /\ stable (w_fs w'').
Proof.
  intros Hs Hr Hm Hleg Hcalm Hdl Hundo. assert (recover_live w' (w_fs w')) as Hlive by by split.
  destruct (u_recover_settles m w') as (w'' & E & Hst & _); [by apply (update_steps_safe w w')|done..|]. by exists w''.
Qed.

(** C25: when [Recover] finishes a pending update, either the update had been
    recorded and its intact version is applied; or the previous version is
    current again (nothing at all, when there was none), the failure is on
    record, and, when a configuration was applied and intact, Xray is running it
    once more. *)
Theorem update_recover_outcome m p w w' :
  prog p (w_fs w) -> has_controller m = true -> legacy_outside m ->
  XrayUpdate.Recover m w = (w', Done (Ok tt)) ->
  stable (w_fs w') /\
  ((exists a, consistent (w_fs w') a /\ matches_pending a p = true) \/
   (reverted p (w_fs w') /\ u_failure_recorded p recover_message ErrorCodePreparationFailed (w_fs w') /\
    forall c, XrayInv.consistent (w_fs w) c -> runs c w')).
Proof.
  intros Hp Hm Hleg E. assert (w_fs w' !! XrayRuntime.currentPath = w_fs w !! XrayRuntime.currentPath) as Hcur.
  { pose proof (inside_u_Recover m Hleg w) as Hi. rewrite E in Hi. by apply Hi. }
  assert (wp (XrayUpdate.Recover m) (fun r w1 => r = Ok tt -> stable (w_fs w1) /\ resolved (w_fs w) p (w_fs w1) w1) (fun _ => True) w) as Hwp.
  { apply (u_Recover m (w_fs w)); [done|done|done|by right; exists p|done|done|].
    intros g w1 [Hg _] Hst Hr _ _. rewrite Hg. split; [done|by apply Hr]. }
  unfold wp in Hwp. rewrite E in Hwp. destruct (Hwp eq_refl) as [Hst [Hr|(conf & Hconf & _ & Hr & Hs & Hf)]]; split; [done|by left|done|right].
  split; [done|]. split; [done|]. intros c Hc. apply (Hs (Hconf c Hc)). rewrite Hcur. apply Hc.
Qed.

(** ** Outcomes *)

Lemma Apply_ends m net r w w' x : safe (w_fs w) -> ValidString (rq_command r) = true ->
  (forall cl, releases m = Some cl -> net_ok cl net (rq_version r)) ->
  XrayUpdate.Apply m net r w = (w', Done (Ok x)) -> apply_ends m net r (w_fs w) (Ok x) (w_fs w') w'.
Proof.
  intros Hs Hid Hnet E.
  assert (wp (XrayUpdate.Apply m net r) (fun res w1 => apply_ends m net r (w_fs w) res (w_fs w1) w1) (fun _ => True) w) as Hwp.
  { apply (u_Apply m net r w (w_fs w)); [apply since_refl|done|done|done|done|].
    intros res g w1 [Hg _] Ho. by rewrite Hg. }
  unfold wp in Hwp. by rewrite E in Hwp.
Qed.

(** C12: an update that reports success leaves the release applied that the
    manifest named: its version, its Xray version and its archive's SHA-256 are
    in the applied state, the current link names its directory, and every file
    there has the size, mode and digest its bundle.json says. *)
Theorem update_installed m net r w w' x :
  safe (w_fs w) -> ValidString (rq_command r) = true ->
  (forall cl, releases m = Some cl -> net_ok cl net (rq_version r)) ->
  XrayUpdate.Apply m net r w = (w', Done (Ok x)) -> UpdateTypes.Success x = true ->
  stable (w_fs w') /\
  exists cl mf art url a, releases m = Some cl /\ resolveRelease cl net (rq_version r) = Ok (mf, art, url) /\
    x = resultFromApplied a /\ consistent (w_fs w') a /\
    a_version a = mf_version mf /\ a_xray a = mf_xray mf /\ a_digest a = ar_sha256 art /\
    (rq_version r = "" \/ a_version a = rq_version r).
Proof.
  intros Hs Hid Hnet E Hsucc.
  destruct (Apply_ends m net r w w' x Hs Hid Hnet E) as (cl & mf & art & url & Hcl & Hres & Ho).
  destruct Ho as [(a & -> & Hst & Hc & _ & Hv & Hx & Hd)|(p & conf & fl & code & -> & _)]; [|done].
  split; [done|]. exists cl, mf, art, url, a. split_and!; try done.
  pose proof (resolve_ok _ _ _ _ _ _ Hres) as (_ & _ & [?|Er]); [by left|right]. simpl in *. congruence.
Qed.

(** C13: an update that reports a rollback leaves nothing pending and, current
    and intact, exactly the state that was applied before it; or nothing applied
    and no current link, when nothing was. *)
Theorem update_rolled_back m net r w w' x :
  safe (w_fs w) -> ValidString (rq_command r) = true ->
  (forall cl, releases m = Some cl -> net_ok cl net (rq_version r)) ->
  XrayUpdate.Apply m net r w = (w', Done (Ok x)) -> UpdateTypes.r_rolled x = true ->
  stable (w_fs w') /\ UpdateTypes.r_status x = StatusInstallFailed /\
  ((w_fs w !! appliedPath = None /\ w_fs w' !! appliedPath = None /\ w_fs w' !! currentPath = None) \/
   exists a, applied_is (w_fs w) a /\ consistent (w_fs w') a).
Proof.
  intros Hs Hid Hnet E Hroll.
  destruct (Apply_ends m net r w w' x Hs Hid Hnet E) as (cl & mf & art & url & Hcl & Hres & Ho).
  destruct Ho as [(a & -> & _)|(p & conf & fl & code & -> & _ & Hfb & Hst & Hrev & _ & _)]; [done|].
  split; [done|]. split; [done|].
  destruct Hrev as [(Ep & Ha & Hc)|(Ep & a' & Hc & Et & Heq)], Hfb as [[Ep' Hn]|(a & Epa & Et' & Happ)];
    [by left| |by destruct Ep|right; exists a; split; [done|by rewrite <- (Heq a Epa)]].
  exfalso. destruct Happ as [_ (_ & _ & Hv)]. apply validateApplied_ok in Hv as [_ _ _ _ Hvt].
  rewrite Et', Ep in Hvt. vm_compute in Hvt. discriminate.
Qed.

(** ** Versions *)

(** Checking a version answers with its bundle.json exactly when the
    version is intact: a directory of mode 0700 whose bundle.json parses, is
    complete and names it, and whose three files are regular, have their modes,
    sizes within the limits, and the SHA-256 recorded. *)
Theorem loadVerifiedTarget_exact t n st w :
  layout (w_fs w) -> target_of t n -> calm w ->
  ((exists w', loadVerifiedTarget t w = (w', Done (Ok st))) <-> intact (w_fs w) n st).
Proof.
  intros Hl Ht Hc. rewrite <- (u_load_ok (w_fs w) t n st Hl Ht).
  assert (wp (loadVerifiedTarget t) (fun r _ => r = s_load t (w_fs w)) (fun _ => False) w) as Hwp.
  { apply (UpdateSteps.reads_load t w (w_fs w)); [apply after_refl|by intros w' Hn|done]. }
  unfold wp in Hwp. destruct (loadVerifiedTarget t w) as [w' [r|]]; [|done].
  rewrite <- Hwp. split; [by intros [w'' [= _ ->]]|intros ->; by exists w'].
Qed.

(** Versions that have to survive a collection. *)
Definition in_use (f : fs) (n : string) : Prop :=
  (exists q t, (q = currentPath \/ q = previousPath) /\ f !! q = Some (NLink t) /\ Base t = n) \/
  (exists a, applied_is f a /\ Base (a_target a) = n) \/
  (exists p, pending_is f p /\ (Base (p_target p) = n \/ p_prev p <> "" /\ Base (p_prev p) = n)).

(** C27: however a collection of old versions ends, the versions that the
    current and previous links, the applied state or a pending update name are
    untouched, and so is everything outside the version directories. *)
Theorem pruneVersions_keeps w w' o :
  layout (w_fs w) -> pruneVersions w = (w', o) ->
  (forall n, lasting n -> in_use (w_fs w) n -> same_version n (w_fs w) (w_fs w')) /\
  (forall q, q ∈ files -> w_fs w' !! q = w_fs w !! q).
Proof.
  intros Hl. apply (wp_outcome _ (fun w1 => (forall n, lasting n -> in_use (w_fs w) n -> same_version n (w_fs w) (w_fs w1)) /\
    (forall q, q ∈ files -> w_fs w1 !! q = w_fs w !! q))).
  apply (u_pruneVersions w (w_fs w)); [apply after_refl|]. intros g w1 (<- & _) Hcol.
  assert ((forall n, lasting n -> in_use (w_fs w) n -> same_version n (w_fs w) (w_fs w1)) /\
    (forall q, q ∈ files -> w_fs w1 !! q = w_fs w !! q)) as Hkeep; [|done].
  destruct Hcol as [Eg|(P & (Hlinks & Happ & Hpend) & Hp)]; [rewrite Eg; by split|].
  split; [|intros q Hq; by eapply pruned_file].
  intros n [(Hs & _) _] Hu. apply (pruned_version P); [done| |done].
  destruct Hu as [(q & t & Hq & Ht & <-)|[(a & Ha & <-)|(p & Hpd & Hb)]].
  - by eapply Hlinks.
  - apply Happ. by apply u_holds_applied.
  - destruct (Hpend p (u_holds_pending _ p Hl Hpd)) as [H1' H2']. destruct Hb as [<-|[? <-]]; auto.
Qed.

(** Installing a version is atomic: whatever fails, each version directory
    is either exactly as before or complete and intact; and a target that is
    returned names the intact version of the release asked for. *)
Theorem installBundleArchive_atomic version xray digest l entries w w' o :
  layout (w_fs w) -> is_dir (w_fs w) directory = true ->
  Manifest.validateVersion version = Ok tt -> Manifest.validateVersion xray = Ok tt ->
  digest_ok digest -> version <> ".xray-version" ->
  validateBundleArchive l = Ok entries ->
  installBundleArchive version xray digest entries w = (w', o) ->
  (forall n, lasting n -> same_version n (w_fs w) (w_fs w') \/ exists st, intact (w_fs w') n st) /\
  (forall t, o = Done (Ok t) -> t = "versions/" +:+ version +:+ "-" +:+ digest /\
     exists st, intact (w_fs w') (version +:+ "-" +:+ digest) st /\
       b_version st = version /\ b_xray st = xray /\ b_digest st = digest).
Proof.
  intros Hl Hd Hv Hx Hdg Hn [(He & _) ->]%validate_ok E.
  assert (wp (installBundleArchive version xray digest l)
    (fun r w1 => kept (w_fs w) (w_fs w1) /\ forall t, r = Ok t -> t = "versions/" +:+ version_name version digest /\
       exists st, intact (w_fs w1) (version_name version digest) st /\ release_of version xray digest st)
    (fun w1 => kept (w_fs w) (w_fs w1)) w) as Hwp.
  { apply (wp_installBundleFiles _ _ _ Hv Hx Hdg Hn w _ (w_fs w)); [apply after_refl|done|done|by apply fills_entries|..].
    - intros g w1 (<- & _) Hk. split; [done|]. by split.
    - intros g st w1 (<- & _) Hk Hi Hr. split; [done|]. intros t [= <-]. split; [done|]. by exists st. }
  unfold wp in Hwp. rewrite E in Hwp. destruct o as [r|].
  - destruct Hwp as [Hk Hr]. split; [apply (kp_whole _ _ Hk)|]. intros t [= ->]. by apply Hr.
  - split; [apply (kp_whole _ _ Hwp)|done].
Qed.
(** ** A pending update on disk *)

(** What [Apply] stores and the next start of the agent reads. *)
Definition stored_and_loaded (p : pendingState) : io (result pendingState) :=
  try! _ := persistState pendingPath (encode_pending p) stateFileMode in loadPending.

Lemma wp_stored_and_loaded p w : layout (w_fs w) -> is_dir (w_fs w) directory = true -> pending_ok p ->
  wp (stored_and_loaded p) (fun r _ => (exists e, ~ calm w /\ r = Err e) \/ r = Ok p) (fun _ => ~ calm w) w.
Proof.
  intros Hl Hd Hp. unfold stored_and_loaded. apply wp_try.
  apply (u_write pendingPath _ w (w_fs w)); [apply since_refl|auto with go|done|done|..].
  - intros g w' Hc _ _. split; [done|]. intros e. apply wp_ret. left. by exists e.
  - intros g t w' [Hg _] Heq.
    assert (s_pending g = Ok p) as Hs.
    { apply s_parsed_Ok.
      - intros x Hx. rewrite (fs_equiv_lookup _ _ _ Heq), lookup_insert_eq in Hx by done. done.
      - eexists _, _, _. split; [|by apply u_parse_encode_pending].
        by rewrite (fs_equiv_lookup _ _ _ Heq), lookup_insert_eq by done. }
    apply (s_reads loadPending s_pending w g); [apply u_reads_loadPending|done|..].
    + intros w2 Hc _. split; [done|]. intros e _. left. by exists e.
    + intros w2 _. right. by rewrite Hs.
Qed.

(** A pending update that was stored is loaded as it was, every field of
    it, whatever fails on the way; and when nothing fails it is stored and loaded. *)
Theorem pending_roundtrip p w : layout (w_fs w) -> is_dir (w_fs w) directory = true -> pending_ok p ->
  (forall w' q, stored_and_loaded p w = (w', Done (Ok q)) -> q = p) /\
  (calm w -> exists w', stored_and_loaded p w = (w', Done (Ok p))).
Proof.
  intros Hl Hd Hp. pose proof (wp_stored_and_loaded p w Hl Hd Hp) as Hwp. unfold wp in Hwp. split.
  - intros w' q E. rewrite E in Hwp. destruct Hwp as [(e & _ & [=])|[= ->]]. done.
  - intros Hc. destruct (stored_and_loaded p w) as [w' [r|]]; [|done].
    destruct Hwp as [(e & Hn & _)| ->]; [done|]. by exists w'.
Qed.
End theorems.

(** ** Witnesses: releases served from memory, an empty store *)

Definition ex_updates : BundleRunner := {|
  ValidateVersion := fun _ _ => ret (Ok tt);
  ValidateConfig := fun _ _ => ret (Ok tt)
|}.

Lemma ex_updates_laws (E : Env) : BundleRunnerLaws (H := E) (H0 := ex_updates).
Proof. by split. Qed.

Definition ex_zip : Zip := {| open_zip := fun _ => Ok Manifest.ex_archive |}.
Definition ex_platform : Platform := {| GOOS := "linux"; GOARCH := "amd64" |}.
Definition ex_urls : UrlParser := {| parse_url := fun _ => Some (Url "https" "github.com" None "/x" "" "") |}.
Definition ex_owner : Owner := {| owned_by_agent := fun _ => true |}.

Definition ex_archive_digest : string := Eval vm_compute in sha256_hex "archive 1".

Definition ex_artifact (digest : string) : string :=
  obj [("os", quote "linux"); ("arch", quote "amd64"); ("sha256", quote digest); ("size", "9")].

Definition ex_manifest (version digest : string) : string :=
  obj [("schemaVersion", "2"); ("version", quote version); ("xrayVersion", quote "v25.1.1");
       ("publishedAt", quote "2025-01-01T00:00:00Z"); ("artifacts", arr [ex_artifact digest])].

(** GitHub, serving the release "v2". *)
Definition ex_releases (u : string) (attempt : nat) : exchange :=
  Exchange [] (Responded 200 (if HasSuffix u manifestAssetName then ex_manifest "v2" ex_archive_digest
                              else "archive 1") None) None.

Definition ex_updater : Manager := MkManager (Some (MkClient false "https://github.com")) true true "".
Definition ex_update : UpdateTypes.Request := UpdateTypes.MkRequest "cmd-2" "v2".
Definition ex_empty : world := World ∅ 0 None.

(** A version from a local archive first. *)
Definition ex_installed : world := Eval vm_compute in
  (@InstallLocal calm_env ex_controller ex_updates ex_zip "cmd-1" "v1" "archive 0" ex_empty).1.

Lemma ex_installed_run :
  (@InstallLocal calm_env ex_controller ex_updates ex_zip "cmd-1" "v1" "archive 0" ex_empty).1 = ex_installed.
Proof. by_evaluation. Qed.

Definition ex_run (E : Env) : world * Os.outcome (result UpdateTypes.Result) :=
  @XrayUpdate.Apply E ex_controller ex_updates ex_zip ex_platform ex_urls ex_updater ex_releases ex_update ex_installed.

Lemma empty_safe : safe (w_fs ex_empty).
Proof.
  left. split; [|by split; [|left]]. split; try done.
  apply Forall_forall. intros p Hp. by unfold plain_file.
Qed.

Lemma ex_installed_safe : safe (w_fs ex_installed).
Proof.
  apply (@install_safe calm_env ex_controller (ex_controller_laws _) calm_env_clock ex_updates (ex_updates_laws _) ex_zip
    "cmd-1" "v1" "archive 0" ex_empty ex_installed
    (@InstallLocal calm_env ex_controller ex_updates ex_zip "cmd-1" "v1" "archive 0" ex_empty).2);
    [exact empty_safe|reflexivity|discriminate|]. rewrite <- ex_installed_run. apply surjective_pairing.
Qed.

Lemma ex_net_ok cl : releases ex_updater = Some cl -> @net_ok ex_platform ex_urls cl ex_releases "v2".
Proof. intros _ m a url Hr. destruct (resolve_ok _ _ _ _ _ _ Hr) as (_ & _ & [?|E]); [discriminate|rewrite E; discriminate]. Qed.

(** Killed after the switch to "v2", and recovered. *)
Definition ex_killed : world := Eval vm_compute in (ex_run (crash_env 225)).1.

Lemma ex_killed_run : ex_run (crash_env 225) = (ex_killed, Crashed).
Proof. by_evaluation. Qed.

Definition ex_restored : world := Eval vm_compute in (@XrayUpdate.Recover (crash_env 225) ex_controller ex_owner ex_updater ex_killed).1.

Lemma ex_restored_run : @XrayUpdate.Recover (crash_env 225) ex_controller ex_owner ex_updater ex_killed = (ex_restored, Done (Ok tt)).
Proof. by_evaluation. Qed.

Lemma ex_killed_steps :
  rtc (@update_step (crash_env 225) ex_controller ex_updates ex_zip ex_platform ex_urls ex_owner) ex_installed ex_killed.
Proof.
  eapply rtc_once, (update_apply ex_updater ex_releases ex_update); [reflexivity|exact ex_net_ok|exact ex_killed_run].
Qed.

Lemma ex_killed_safe : safe (w_fs ex_killed).
Proof.
  apply (@update_steps_safe (crash_env 225) ex_controller (ex_controller_laws _) calm_env_clock ex_updates (ex_updates_laws _)
    ex_zip ex_platform ex_urls ex_owner ex_installed); [exact ex_killed_steps|exact ex_installed_safe].
Qed.

Lemma update_safe_witness : safe (w_fs ex_restored).
Proof.
  apply (@update_safe (crash_env 225) ex_controller (ex_controller_laws _) calm_env_clock ex_updates (ex_updates_laws _)
    ex_zip ex_platform ex_urls ex_owner ex_installed); [exact ex_installed_safe|].
  eapply rtc_r; [exact ex_killed_steps|].
  eapply (update_recover ex_updater); [reflexivity|by left|exact ex_restored_run].
Defined.

(** Checks of a concrete tree. *)
Definition nothing_below (d : string) (f : fs) : bool :=
  forallb (fun kv => negb (HasPrefix kv.1 d)) (map_to_list f).

Lemma nothing_below_lookup d f rest : nothing_below d f = true -> f !! (d +:+ rest) = None.
Proof.
  intros Hf. destruct (f !! (d +:+ rest)) as [x|] eqn:E; [|done].
  apply elem_of_map_to_list in E. unfold nothing_below in Hf. rewrite forallb_forall in Hf.
  specialize (Hf _ (proj1 (list_elem_of_In _ _) E)). simpl in Hf. by rewrite HasPrefix_app in Hf.
Qed.

Definition clean_downloads (f : fs) : bool :=
  forallb (fun kv => negb (HasPrefix kv.1 (downloads +:+ "/"))
    || negb (bool_decide (kv.1 = downloads +:+ "/" +:+ ".")) && negb (bool_decide (kv.1 = downloads +:+ "/" +:+ ".."))
       && match kv.2 with NFile _ _ _ => true | _ => false end) (map_to_list f).

Lemma clean_downloads_ok f : dir_or_none f downloads -> clean_downloads f = true -> downloads_ok f.
Proof.
  intros Hd Hf. split; [done|]. intros n [x E] Hs Hne.
  pose proof E as Hin%elem_of_map_to_list. unfold clean_downloads in Hf. rewrite forallb_forall in Hf.
  specialize (Hf _ (proj1 (list_elem_of_In _ _) Hin)). cbn [fst snd] in Hf.
  rewrite <- sapp_assoc, HasPrefix_app, sapp_assoc in Hf. cbn [negb orb] in Hf.
  rewrite !andb_true_iff, !negb_true_iff, !bool_decide_eq_false in Hf. destruct Hf as [[H1 H2] H3].
  split; [split_and!; [done|done|by intros ->|by intros ->]|].
  destruct x as [c m t| |]; try done. by exists c, m, t.
Qed.

Lemma no_config_stable f : nothing_below "xray-config" f = true -> XrayInv.stable f.
Proof.
  intros Hf. assert (forall rest, f !! ("xray-config" +:+ rest) = None) as Hn by (intros rest; by apply nothing_below_lookup).
  split; [|split; [exact (Hn "/apply-pending.json")|left; split; [exact (Hn "/applied.json")|exact (Hn "/current.json")]]].
  split.
  - unfold dir_or_none. by rewrite (Hn "" : f !! XrayRuntime.directory = None).
  - unfold dir_or_none. by rewrite (Hn "/versions" : f !! XrayRuntime.versionsDirectory = None).
  - apply Forall_forall. intros p Hp. unfold plain_file.
    assert (exists rest, p = "xray-config" +:+ rest) as [rest ->].
    { unfold XraySteps.files in Hp. set_unfold in Hp. destruct Hp as [->|[->|[->|[->|[->|[->|[->|[]]]]]]]];
        eexists; reflexivity. }
    by rewrite Hn.
  - intros n _. by rewrite (Hn ("/versions/" +:+ n) : f !! XraySteps.version_path n = None).
  - split; intros t; [by rewrite (Hn "/applied.json" : f !! XrayRuntime.appliedPath = None)|
      by rewrite (Hn "/apply-pending.json" : f !! XrayRuntime.pendingPath = None)].
  - intros t. by rewrite (Hn "/previous.json" : f !! XrayRuntime.previousPath = None).
Qed.

Lemma ex_killed_live : @recover_live (crash_env 225) ex_controller ex_killed (w_fs ex_killed).
Proof.
  split; [|split; [|intros _; split; [|split]]].
  - intros n Hn. assert (w_pc ex_killed = 226%nat) as E by (vm_compute; reflexivity).
    rewrite E in Hn. unfold fault_at, crash_env. by destruct (Nat.eqb_spec n 225); [lia|].
  - apply clean_downloads_ok; vm_compute; reflexivity || exact I.
  - apply no_config_stable. vm_compute. reflexivity.
  - intros w _. split; by eexists.
  - apply no_stale_link_fresh. vm_compute. reflexivity.
Qed.

Lemma update_recovers_witness :
  is_Some (w_fs ex_killed !! pendingPath) /\
  exists w, @XrayUpdate.Recover (crash_env 225) ex_controller ex_owner ex_updater ex_killed = (w, Done (Ok tt)) /\ stable (w_fs w).
Proof.
  split; [vm_compute; by eexists|].
  apply (@update_recovers (crash_env 225) ex_controller (ex_controller_laws _) calm_env_clock ex_updates (ex_updates_laws _)
    ex_zip ex_platform ex_urls ex_owner ex_updater ex_installed);
    [exact ex_installed_safe|exact ex_killed_steps|reflexivity|by left|exact (proj1 ex_killed_live)|exact (proj1 (proj2 ex_killed_live))|exact (proj2 (proj2 ex_killed_live))].
Defined.

Definition ex_updated : world := Eval vm_compute in (ex_run calm_env).1.
Definition ex_success : UpdateTypes.Result := resultFromApplied (MkApplied "v2" "v25.1.1" ex_archive_digest "" 1700000000).

Lemma update_installed_witness :
  UpdateTypes.Success ex_success = true /\ stable (w_fs ex_updated) /\
  exists cl mf art url a, releases ex_updater = Some cl /\ @resolveRelease ex_platform ex_urls cl ex_releases "v2" = Ok (mf, art, url) /\
    ex_success = resultFromApplied a /\ consistent (w_fs ex_updated) a /\
    a_version a = mf_version mf /\ a_xray a = mf_xray mf /\ a_digest a = ar_sha256 art /\ ("v2" = "" \/ a_version a = "v2").
Proof.
  split; [reflexivity|].
  apply (@update_installed calm_env ex_controller (ex_controller_laws _) calm_env_clock ex_updates (ex_updates_laws _)
    ex_zip ex_platform ex_urls ex_updater ex_releases ex_update ex_installed);
    [exact ex_installed_safe|reflexivity|exact ex_net_ok| |reflexivity].
  vm_compute. reflexivity.
Defined.

(** The applied state cannot be written: back to "v1". *)
Definition ex_undone : world := Eval vm_compute in (ex_run (fail_env 230)).1.
Definition ex_undo_result : UpdateTypes.Result :=
  UpdateTypes.MkResult "v2" StatusInstallFailed "persist applied Xray binary: no space left on device"
    ErrorCodePersistenceFailed UpdateTypes.RecoveryStatusRolledBack 0 true.

Lemma update_rolled_back_witness :
  stable (w_fs ex_undone) /\ UpdateTypes.r_status ex_undo_result = StatusInstallFailed /\
  ((w_fs ex_installed !! appliedPath = None /\ w_fs ex_undone !! appliedPath = None /\ w_fs ex_undone !! currentPath = None) \/
   exists a, applied_is (w_fs ex_installed) a /\ consistent (w_fs ex_undone) a).
Proof.
  apply (@update_rolled_back (fail_env 230) ex_controller (ex_controller_laws _) calm_env_clock ex_updates (ex_updates_laws _)
    ex_zip ex_platform ex_urls ex_updater ex_releases ex_update ex_installed);
    [exact ex_installed_safe|reflexivity|exact ex_net_ok| |reflexivity].
  vm_compute. reflexivity.
Defined.

Definition ex_version_name : string := Eval vm_compute in "v1-" +:+ sha256_hex "archive 0".

Lemma ex_version_lasting : lasting ex_version_name.
Proof.
  apply (version_digest_lasting "v1" (sha256_hex "archive 0")); [reflexivity|discriminate|vm_compute; reflexivity|].
  apply digest_ok_decodes, sha256_hex_digest.
Qed.

Definition ex_load : world * Os.outcome (result bundleState) :=
  @loadVerifiedTarget calm_env ("versions/" +:+ ex_version_name) ex_installed.
Definition ex_loaded : world := Eval vm_compute in ex_load.1.
Definition ex_bundle : bundleState := Eval vm_compute in match ex_load.2 with Done (Ok st) => st | _ => zero_bundle end.

Lemma ex_load_run : @loadVerifiedTarget calm_env ("versions/" +:+ ex_version_name) ex_installed = (ex_loaded, Done (Ok ex_bundle)).
Proof. by_evaluation. Qed.

Lemma loadVerifiedTarget_exact_witness : b_version ex_bundle = "v1" /\ intact (w_fs ex_installed) ex_version_name ex_bundle.
Proof.
  split; [vm_compute; reflexivity|].
  apply (@loadVerifiedTarget_exact calm_env ("versions/" +:+ ex_version_name) ex_version_name ex_bundle ex_installed).
  - exact (u_safe_layout _ ex_installed_safe).
  - split; [reflexivity|exact ex_version_lasting].
  - apply calm_env_calm.
  - exists ex_loaded. exact ex_load_run.
Defined.

Definition ex_pruned : world * Os.outcome (result unit) := @pruneVersions calm_env ex_installed.

Lemma pruneVersions_keeps_witness : same_version ex_version_name (w_fs ex_installed) (w_fs ex_pruned.1).
Proof.
  apply (@pruneVersions_keeps calm_env ex_installed ex_pruned.1 ex_pruned.2).
  - exact (u_safe_layout _ ex_installed_safe).
  - apply surjective_pairing.
  - exact ex_version_lasting.
  - left. exists currentPath, ("versions/" +:+ ex_version_name). split; [by left|]. split; vm_compute; reflexivity.
Defined.

(** Killed while the files of a third version are being written. *)
Definition ex_partial (n : nat) : world * Os.outcome (result string) :=
  @installBundleArchive (crash_env n) "v3" "v25.2.1" ex_archive_digest Manifest.ex_archive ex_installed.

Lemma installBundleArchive_atomic_witness :
  (ex_partial 130).2 = Crashed /\
  forall n, lasting n -> same_version n (w_fs ex_installed) (w_fs (ex_partial 130).1) \/
    exists st, intact (w_fs (ex_partial 130).1) n st.
Proof.
  split; [vm_compute; reflexivity|].
  apply (@installBundleArchive_atomic (crash_env 130) "v3" "v25.2.1" ex_archive_digest Manifest.ex_archive Manifest.ex_archive
    ex_installed (ex_partial 130).1 (ex_partial 130).2).
  - exact (u_safe_layout _ ex_installed_safe).
  - vm_compute. reflexivity.
  - reflexivity.
  - reflexivity.
  - split; vm_compute; reflexivity.
  - discriminate.
  - vm_compute. reflexivity.
  - apply surjective_pairing.
Defined.

(** An update from the installed version, as [Apply] stores it. *)
Definition ex_pending : pendingState :=
  MkPending "cmd-2" "" None ("versions/v2-" +:+ ex_archive_digest) "v2" "v25.1.1" ex_archive_digest 1700000000.

Lemma ex_pending_ok : pending_ok ex_pending.
Proof. by repeat split; vm_compute. Qed.

Lemma pending_roundtrip_witness : exists w',
  @stored_and_loaded calm_env ex_pending ex_installed = (w', Done (Ok ex_pending)).
Proof.
  apply (@pending_roundtrip calm_env ex_pending ex_installed).
  - exact (u_safe_layout _ ex_installed_safe).
  - vm_compute. reflexivity.
  - exact ex_pending_ok.
  - apply calm_env_calm.
Defined.
