(* ===== verification/Net.v ===== *)
(** * Addresses: what the telemetry parsers use of net and net/netip

    [SplitHostPort], [ParseAddr] and the text of an address, after the standard
    library's own parsers. *)

From stdpp Require Import base strings list.
From Stdlib Require Import ZArith NArith Ascii.
From S2P Require Import Prelude.
From S2P Require Import GoStrings.

(** ** net.SplitHostPort *)

Definition colon : ascii := ":"%char.
Definition dot : ascii := "."%char.
Definition percent : ascii := "%"%char.

(** What stands before and after the first, and the last, [c]. *)
Fixpoint cut_first (c : ascii) (s : string) : option (string * string) :=
  match s with
  | "" => None
  | String a r => if bool_decide (a = c) then Some ("", r)
                  else match cut_first c r with Some (x, y) => Some (String a x, y) | None => None end
  end.

Fixpoint cut_last (c : ascii) (s : string) : option (string * string) :=
  match s with
  | "" => None
  | String a r => match cut_last c r with
                  | Some (x, y) => Some (String a x, y)
                  | None => if bool_decide (a = c) then Some ("", r) else None
                  end
  end.

Definition SplitHostPort (hostport : string) : option (string * string) :=
  match cut_last colon hostport with
  | None => None
  | Some (before, port) =>
      match hostport with
      | String "[" rest =>
          match cut_first "]" rest with
          | None => None
          | Some (host, after) =>
              (* the bracket is followed by the last colon *)
              if bool_decide (after = String colon port) && negb (contains_char "[" host)
                 && negb (contains_char "[" port) && negb (contains_char "]" port)
              then Some (host, port) else None
          end
      | _ =>
          if negb (contains_char colon before) && negb (contains_char "[" hostport)
             && negb (contains_char "]" hostport)
          then Some (before, port) else None
      end
  end.

(** ** netip.ParseAddr *)

(** The IPv4 octets, and the eight groups of an IPv6 address with its zone. *)
Inductive Addr : Set :=
  | Addr4 (octets : list N)
  | Addr6 (groups : list N) (zone : string).

(** The loop of parseIPv4Fields: the previous byte, the current octet and its
    digits, the octets read. *)
Fixpoint v4_fields (s : string) (prev : option ascii) (val digits : N) (fields : list N) : option (list N) :=
  match s with
  | "" => if bool_decide (length fields = 3) then Some (fields ++ [val]) else None
  | String c r =>
      if is_digit c then
        if (digits =? 1)%N && (val =? 0)%N then None
        else
          let val := (val * 10 + digit_val c)%N in
          if (255 <? val)%N then None else v4_fields r (Some c) val (digits + 1) fields
      else if bool_decide (c = dot) then
        if bool_decide (prev = None) || bool_decide (r = "") || bool_decide (prev = Some dot) then None
        else if bool_decide (length fields = 3) then None
        else v4_fields r (Some c) 0 0 (fields ++ [val])
      else None
  end.

Definition parse4 (s : string) : option (list N) := v4_fields s None 0 0 [].

(** Up to four hexadecimal digits: their number, their value, the rest. *)
Fixpoint hex_group (s : string) (off : nat) (acc : N) : option (nat * N * string) :=
  match s with
  | String c r =>
      match from_hex c with
      | Some d => if (3 <? off)%nat then None else hex_group r (S off) (acc * 16 + d)
      | None => Some (off, acc, s)
      end
  | "" => Some (off, acc, "")
  end.

(** The loop of parseIPv6: the groups read and where the ellipsis stood; [n]
    groups are missing. *)
Fixpoint v6_groups (n : nat) (s : string) (groups : list N) (ellipsis : option nat) :
  option (string * list N * option nat) :=
  match n with
  | O => Some (s, groups, ellipsis)
  | S n =>
      match hex_group s 0 0 with
      | None => None
      | Some (O, _, _) => None
      | Some (_, acc, rest) =>
          match rest with
          | "" => Some ("", groups ++ [acc], ellipsis)
          | String c more =>
              if bool_decide (c = dot) then
                if bool_decide (ellipsis = None) && negb (bool_decide (length groups = 6)) then None
                else if (6 <? length groups)%nat then None
                else match parse4 s with
                     | Some [a; b; c; d] =>
                         Some ("", groups ++ [(a * 256 + b)%N; (c * 256 + d)%N], ellipsis)
                     | _ => None
                     end
              else if negb (bool_decide (c = colon)) then None
              else match more with
                   | "" => None
                   | String c' more' =>
                       if bool_decide (c' = colon) then
                         match ellipsis with
                         | Some _ => None
                         | None =>
                             let groups := groups ++ [acc] in
                             match more' with
                             | "" => Some ("", groups, Some (length groups))
                             | _ => v6_groups n more' groups (Some (length groups))
                             end
                         end
                       else v6_groups n more (groups ++ [acc]) ellipsis
                   end
          end
      end
  end.

Definition expand (groups : list N) (ellipsis : option nat) : option (list N) :=
  if (length groups <? 8)%nat then
    match ellipsis with
    | None => None
    | Some e => Some (take e groups ++ replicate (8 - length groups) 0%N ++ drop e groups)
    end
  else match ellipsis with Some _ => None | None => Some groups end.

Definition parse6 (s0 : string) : option Addr :=
  match (match cut_first percent s0 with
         | Some (_, "") => None
         | Some (s, zone) => Some (s, zone)
         | None => Some (s0, "")
         end) with
  | None => None
  | Some (s, zone) =>
      let '(s, ellipsis) := match s with
                            | String ":" (String ":" r) => (r, Some 0)
                            | _ => (s, None)
                            end in
      if bool_decide (ellipsis = Some 0) && bool_decide (s = "") then Some (Addr6 (replicate 8 0%N) zone)
      else match v6_groups 8 s [] ellipsis with
           | Some ("", groups, ellipsis) =>
               match expand groups ellipsis with
               | Some groups => Some (Addr6 groups zone)
               | None => None
               end
           | _ => None
           end
  end.

(** What the first of the three significant characters decides. *)
Fixpoint addr_kind (s : string) : option ascii :=
  match s with
  | "" => None
  | String c r => if bool_decide (c = dot) || bool_decide (c = colon) || bool_decide (c = percent)
                  then Some c else addr_kind r
  end.

Definition ParseAddr (s : string) : option Addr :=
  match addr_kind s with
  | Some c => if bool_decide (c = dot) then Addr4 <$> parse4 s
              else if bool_decide (c = colon) then parse6 s else None
  | None => None
  end.

(** ** Addr.Unmap and Addr.String *)

Definition Unmap (a : Addr) : Addr :=
  match a with
  | Addr6 [0%N; 0%N; 0%N; 0%N; 0%N; 65535%N; x; y] _ =>
      Addr4 [(x / 256)%N; (x mod 256)%N; (y / 256)%N; (y mod 256)%N]
  | _ => a
  end.

(** The shortest hexadecimal text of a 16-bit group. *)
Definition hex_text (x : N) : string :=
  (if (4096 <=? x)%N then String (hex_digit (x / 4096)) "" else "") +:+
  (if (256 <=? x)%N then String (hex_digit (x / 256 mod 16)) "" else "") +:+
  (if (16 <=? x)%N then String (hex_digit (x / 16 mod 16)) "" else "") +:+
  String (hex_digit (x mod 16)) "".

(** How many groups from the front are zero. *)
Fixpoint zero_run (groups : list N) : nat :=
  match groups with 0%N :: rest => S (zero_run rest) | _ => O end.

(** The first longest run of two or more zero groups: its start and length. *)
Fixpoint longest_run (i : nat) (groups : list N) (best : nat * nat) : nat * nat :=
  match groups with
  | [] => best
  | _ :: rest =>
      let l := zero_run groups in
      longest_run (S i) rest (if (2 <=? l)%nat && (best.2 <? l)%nat then (i, l) else best)
  end.

Definition text6 (groups : list N) : string :=
  let '(start, len) := longest_run 0 groups (0, 0) in
  if (len =? 0)%nat then sconcat ":" (hex_text <$> groups)
  else sconcat ":" (hex_text <$> take start groups) +:+ "::"
       +:+ sconcat ":" (hex_text <$> drop (start + len) groups).

Definition AddrString (a : Addr) : string :=
  match a with
  | Addr4 octets => sconcat "." (FormatUint <$> octets)
  | Addr6 [0%N; 0%N; 0%N; 0%N; 0%N; 65535%N; x; y] zone =>
      "::ffff:" +:+ sconcat "." (FormatUint <$> [(x / 256)%N; (x mod 256)%N; (y / 256)%N; (y mod 256)%N])
      +:+ (if bool_decide (zone = "") then "" else "%" +:+ zone)
  | Addr6 groups zone => text6 groups +:+ (if bool_decide (zone = "") then "" else "%" +:+ zone)
  end.

(** ** Examples, after the tests of the standard library *)

Definition canonical (s : string) : option string := AddrString ∘ Unmap <$> ParseAddr s.

Example addr_v4 : canonical "192.0.2.10" = Some "192.0.2.10". Proof. reflexivity. Qed.
Example addr_v6 : canonical "2001:DB8:0:0:1::0" = Some "2001:db8:0:0:1::". Proof. reflexivity. Qed.
Example addr_loop : canonical "::1" = Some "::1". Proof. reflexivity. Qed.
Example addr_any : canonical "::" = Some "::". Proof. reflexivity. Qed.
Example addr_mapped : canonical "::ffff:1.2.3.4" = Some "1.2.3.4". Proof. reflexivity. Qed.
Example addr_mapped_hex : canonical "::ffff:c0a8:8c5a" = Some "192.168.140.90". Proof. reflexivity. Qed.
Example addr_zone : canonical "fd7a:115c::626b:430b%eth0" = Some "fd7a:115c::626b:430b%eth0". Proof. reflexivity. Qed.
Example addr_mid : canonical "fd7a:115c:a1e0:ab12:4843:cd96:626b:430b" = Some "fd7a:115c:a1e0:ab12:4843:cd96:626b:430b".
Proof. reflexivity. Qed.
Example addr_octal : canonical "1.02.3.4" = None. Proof. reflexivity. Qed.
Example addr_short : canonical "1.2.3" = None. Proof. reflexivity. Qed.
Example addr_big : canonical "256.1.1.1" = None. Proof. reflexivity. Qed.
Example addr_two_ellipses : canonical "::1::" = None. Proof. reflexivity. Qed.
Example addr_nothing_to_expand : canonical "1:2:3:4::5:6:7:8" = None. Proof. reflexivity. Qed.
Example addr_v4_place : canonical "1:2:3:4:5:6:7:1.2.3.4" = None. Proof. reflexivity. Qed.
Example addr_empty_zone : canonical "fe80::1%" = None. Proof. reflexivity. Qed.

Example hostport_v4 : SplitHostPort "192.0.2.10:43123" = Some ("192.0.2.10", "43123"). Proof. reflexivity. Qed.
Example hostport_v6 : SplitHostPort "[::1]:53" = Some ("::1", "53"). Proof. reflexivity. Qed.
Example hostport_bare6 : SplitHostPort "::1:53" = None. Proof. reflexivity. Qed.
Example hostport_none : SplitHostPort "example.com" = None. Proof. reflexivity. Qed.
Example hostport_empty : SplitHostPort ":80" = Some ("", "80"). Proof. reflexivity. Qed.
Example hostport_bracket : SplitHostPort "a]b:80" = None. Proof. reflexivity. Qed.
