(* ===== verification/Regexp.v ===== *)
(** * Regular expressions: what the access log parser uses of regexp

    Leftmost-first matching with captures, over runes: [match_re] tries the
    alternatives in order of preference and hands the rest of the text to its
    continuation, as a backtracking matcher does; the regexp package promises
    the same match.  Repetition is of one rune class, which is all the pattern
    needs, so the recursion is on the expression and on the text. *)

From stdpp Require Import base gmap strings list.
From Stdlib Require Import ZArith NArith Ascii.
From S2P Require Import Prelude.
From S2P Require Import GoStrings.
From S2P Require Import Json.

Definition rune : Set := (N * string)%type.

Inductive re : Type :=
  | Eps
  | Chr (p : N -> bool)
  | Cat (a b : re)
  | Alt (a b : re)
  | Rep (greedy : bool) (p : N -> bool)
  | Group (n : nat) (a : re).

(** ** Notation for patterns *)

Definition lit_char (c : ascii) : re := Chr (fun r => r =? code c)%N.

Fixpoint lit (s : string) : re :=
  match s with
  | "" => Eps
  | String c "" => lit_char c
  | String c r => Cat (lit_char c) (lit r)
  end.

Fixpoint cat (l : list re) : re :=
  match l with
  | [] => Eps
  | [r] => r
  | r :: rest => Cat r (cat rest)
  end.

Definition times (n : nat) (p : N -> bool) : re := cat (replicate n (Chr p)).
Definition plus (greedy : bool) (p : N -> bool) : re := Cat (Chr p) (Rep greedy p).
Definition opt (r : re) : re := Alt r Eps.

(** The classes \d, \s, \S and the dot. *)
Definition re_digit (r : N) : bool := ((48 <=? r) && (r <=? 57))%N.
Definition re_space (r : N) : bool :=
  ((r =? 9) || (r =? 10) || (r =? 12) || (r =? 13) || (r =? 32))%N.
Definition re_nonspace (r : N) : bool := negb (re_space r).
Definition re_any (r : N) : bool := negb (r =? 10)%N.

(** ** Matching *)

Notation captures := (gmap nat string).

(** What was consumed between [s] and its suffix [s']. *)
Definition consumed (s s' : list rune) : string := of_runes (take (length s - length s') s).

(** The runes of a repetition, as many of them as possible or as few; what
    follows decides. *)
Fixpoint repeat_re (greedy : bool) (p : N -> bool) (k : list rune -> option captures)
    (s : list rune) : option captures :=
  let more := match s with
              | r :: rest => if p r.1 then repeat_re greedy p k rest else None
              | [] => None
              end in
  if greedy then match more with Some m => Some m | None => k s end
  else match k s with Some m => Some m | None => more end.

Fixpoint match_re (e : re) (s : list rune) (c : captures)
    (k : list rune -> captures -> option captures) : option captures :=
  match e with
  | Eps => k s c
  | Chr p => match s with
             | r :: rest => if p r.1 then k rest c else None
             | [] => None
             end
  | Cat a b => match_re a s c (fun s' c' => match_re b s' c' k)
  | Alt a b => match match_re a s c k with
               | Some m => Some m
               | None => match_re b s c k
               end
  | Rep greedy p => repeat_re greedy p (fun s' => k s' c) s
  | Group n a => match_re a s c (fun s' c' => k s' (<[n := consumed s s']> c'))
  end.

(** FindStringSubmatch of ^e$: the captures of the whole text. *)
Definition FindStringSubmatch (e : re) (s : string) : option captures :=
  match_re e (runes s) ∅ (fun rest c => match rest with [] => Some c | _ => None end).

(** An optional group that took no part is the empty string. *)
Definition submatch (c : captures) (n : nat) : string := default "" (c !! n).

(** ** The language *)

(** [matches e s s' c c']: one way of matching a prefix of [s]. *)
Inductive matches : re -> list rune -> list rune -> captures -> captures -> Prop :=
  | m_eps s c : matches Eps s s c c
  | m_chr p r s c : p r.1 = true -> matches (Chr p) (r :: s) s c c
  | m_cat a b s s1 s2 c c1 c2 :
      matches a s s1 c c1 -> matches b s1 s2 c1 c2 -> matches (Cat a b) s s2 c c2
  | m_left a b s s' c c' : matches a s s' c c' -> matches (Alt a b) s s' c c'
  | m_right a b s s' c c' : matches b s s' c c' -> matches (Alt a b) s s' c c'
  | m_stop g p s c : matches (Rep g p) s s c c
  | m_more g p r s s' c c' :
      p r.1 = true -> matches (Rep g p) s s' c c' -> matches (Rep g p) (r :: s) s' c c'
  | m_group n a s s' c c' :
      matches a s s' c c' -> matches (Group n a) s s' c (<[n := consumed s s']> c').

(** A match comes from the language. *)
Lemma match_sound e s c k m : match_re e s c k = Some m ->
  exists s' c', matches e s s' c c' /\ k s' c' = Some m.
Proof.
  revert s c k. induction e as [|p|a IHa b IHb|a IHa b IHb|g p|n a IHa]; intros s c k; simpl.
  - intros Hk. eexists _, _. split; [constructor|done].
  - destruct s as [|r s]; [done|]. destruct (p r.1) eqn:E; [|done]. intros Hk.
    eexists _, _. split; [by constructor|done].
  - intros (s1 & c1 & H1 & (s2 & c2 & H2 & Hk)%IHb)%IHa. eexists _, _. split; [by econstructor|done].
  - destruct (match_re a s c k) as [m'|] eqn:E.
    + intros [= ->]. apply IHa in E as (s' & c' & Hm & Hk). eexists _, _. split; [by apply m_left|done].
    + intros (s' & c' & Hm & Hk)%IHb. eexists _, _. split; [by apply m_right|done].
  - induction s as [|r s IH]; cbn [repeat_re]; intros Hk.
    + exists [], c. split; [apply m_stop|]. by destruct g, (k [] c).
    + assert ((p r.1 = true /\ repeat_re g p (fun s' => k s' c) s = Some m) \/ k (r :: s) c = Some m) as [[Hp Hr]|Hs].
      { destruct (p r.1); [|right; by destruct g, (k (r :: s) c)].
        destruct g; repeat case_match; simplify_eq; auto. }
      * destruct (IH Hr) as (s' & c' & Hm & Hk'). eexists _, _. split; [by apply m_more|done].
      * eexists _, _. split; [apply m_stop|done].
  - intros (s' & c' & Hm & Hk)%IHa. eexists _, _. split; [by constructor|done].
Qed.

(** And whatever the language allows is found, some way or other. *)
Lemma match_complete e s s' c c' k : matches e s s' c c' -> is_Some (k s' c') ->
  is_Some (match_re e s c k).
Proof.
  intros Hm. revert k. induction Hm as [s c|p r s c Hp|a b s s1 s2 c c1 c2 _ IH1 _ IH2|a b s s' c c' _ IH
    |a b s s' c c' _ IH|g p s c|g p r s s' c c' Hp _ IH|n a s s' c c' _ IH]; intros k Hk; simpl.
  - done.
  - by rewrite Hp.
  - by apply IH1, IH2.
  - specialize (IH k Hk). by destruct (match_re a s c k).
  - specialize (IH k Hk). by destruct (match_re a s c k).
  - destruct Hk as [m Hk]. destruct s as [|r s]; cbn [repeat_re]; rewrite Hk; destruct g; try done.
    by destruct (if p r.1 then _ else _).
  - specialize (IH k Hk). destruct IH as [m IH]. simpl in IH. cbn [repeat_re]. rewrite Hp, IH.
    destruct g; [done|]. by destruct (k (r :: s) c).
  - by apply IH.
Qed.

Lemma matches_suffix e s s' c c' : matches e s s' c c' -> exists l, s = l ++ s'.
Proof.
  induction 1 as [s c|p r s c Hp|a b s s1 s2 c c1 c2 _ [l1 IH1] _ [l2 IH2]|? ? ? ? ? ? _ IH|? ? ? ? ? ? _ IH|g p s c
    |g p r s s' c c' Hp _ [l IH]|n a s s' c c' _ IH]; try done; try by exists [].
  - by exists [r].
  - exists (l1 ++ l2). by rewrite <- app_assoc, <- IH2.
  - exists (r :: l). simpl. by f_equal.
Qed.

(** ** Captures *)

Fixpoint groups (e : re) : list nat :=
  match e with
  | Cat a b | Alt a b => groups a ++ groups b
  | Group n a => n :: groups a
  | _ => []
  end.

(** A part of the pattern sets its own groups only. *)
Lemma matches_other e s s' c c' n : matches e s s' c c' -> n ∉ groups e -> c' !! n = c !! n.
Proof.
  induction 1 as [| |a b s s1 s2 c c1 c2 _ IH1 _ IH2|a b s s' c c' _ IH|a b s s' c c' _ IH| |g p r s s' c c' _ _ IH|m a s s' c c' _ IH];
    simpl; intros Hn; try done; try (apply IH; set_solver).
  - rewrite IH2, IH1; [done|set_solver..].
  - rewrite lookup_insert_ne by set_solver. apply IH. set_solver.
Qed.

Lemma matches_cat e l s s' c c' : l <> [] -> matches (cat (e :: l)) s s' c c' ->
  exists s1 c1, matches e s s1 c c1 /\ matches (cat l) s1 s' c1 c'.
Proof. intros Hl Hm. destruct l as [|b l]; [done|]. inversion Hm; subst. eauto. Qed.

(** What a group has is the last text it matched, if nothing sets it later. *)
Lemma matches_group_at pre n e post s s' c c' : post <> [] ->
  n ∉ groups (cat post) -> matches (cat (pre ++ Group n e :: post)) s s' c c' ->
  exists s1 s2 c1 c2, matches e s1 s2 c1 c2 /\ c' !! n = Some (consumed s1 s2) /\
    exists l, s = l ++ s1.
Proof.
  intros Hp Hn. revert s c. induction pre as [|a pre IH]; intros s c Hm.
  - apply matches_cat in Hm as (s1 & c1 & Hg & Hm); [|done]. inversion Hg; subst.
    rewrite (matches_other _ _ _ _ _ _ Hm Hn), lookup_insert_eq. eexists s, s1, _, _. split; [done|].
    split; [done|]. by exists [].
  - apply matches_cat in Hm as (s1 & c1 & Ha & Hm); [|by destruct pre].
    apply IH in Hm as (s2 & s3 & c2 & c3 & Hm & Hc & l & ->). apply matches_suffix in Ha as [l' ->].
    eexists s2, s3, c2, c3. split_and!; [done|done|]. exists (l' ++ l). by rewrite app_assoc.
Qed.

Lemma FindStringSubmatch_matches e s m : FindStringSubmatch e s = Some m -> matches e (runes s) [] ∅ m.
Proof.
  intros (s' & c' & Hm & Hk)%match_sound. destruct s'; [|done]. by injection Hk as <-.
Qed.

(** *** Literal texts *)

Definition rune_ok (r : rune) : Prop := (r.1 < 128)%N -> r.2 = String (chr r.1) "".

Lemma runes_ok s : Forall rune_ok (runes s).
Proof.
  induction s as [|a r Ha Hr IH|v b x Hb IH|a r Hr IH] using rune_ind; [constructor|..].
  - rewrite Hr. constructor; [|done]. intros _. simpl. by rewrite chr_code.
  - destruct Hb as (Hv & _ & _ & _ & _ & ->). constructor; [|done]. intros Hlt. simpl in Hlt. lia.
  - rewrite Hr. constructor; [|done]. intros Hlt. exfalso. by vm_compute in Hlt.
Qed.

Lemma matches_char x s s' c c' : Forall rune_ok s -> (code x < 128)%N ->
  matches (lit_char x) s s' c c' -> s = (code x, String x "") :: s' /\ c' = c.
Proof.
  intros Hs Hx Hm. inversion Hm as [|p r t c1 Hp| | | | | |]; subst. apply N.eqb_eq in Hp.
  apply Forall_cons in Hs as [Hr _]. split; [|done]. f_equal. destruct r as [v b]. simpl in *. subst v.
  unfold rune_ok in Hr. simpl in Hr. by rewrite (Hr Hx), chr_code.
Qed.

Lemma matches_lit t s s' c c' : Forall rune_ok s -> is_ascii t = true ->
  matches (lit t) s s' c c' -> s = ((fun x => (code x, String x "")) <$> String.list_ascii_of_string t) ++ s' /\ c' = c.
Proof.
  revert s c. induction t as [|x t IH]; intros s c Hs Ht Hm; [by inversion Hm; subst|].
  apply andb_true_iff in Ht as [Hx%N.ltb_lt Ht]. destruct t as [|y t].
  - by apply matches_char in Hm as [-> ->].
  - cbn [lit] in Hm. inversion Hm as [| |p q s0 s1 s2 c0 c1 c2 Hm1 Hm2 | | | | |]; subst.
    apply matches_char in Hm1 as [-> ->]; [|done..]. apply Forall_cons in Hs as [_ Hs].
    apply IH in Hm2 as [-> ->]; done.
Qed.

Lemma consumed_app l s : consumed (l ++ s) s = of_runes l.
Proof. unfold consumed. rewrite length_app, Nat.add_sub. by rewrite take_app_length. Qed.

Lemma of_runes_ascii t : of_runes ((fun x => (code x, String x "")) <$> String.list_ascii_of_string t) = t.
Proof. rewrite of_runes_plain. apply String.string_of_list_ascii_of_string. Qed.

Lemma matches_lit_text t s s' c c' : Forall rune_ok s -> is_ascii t = true ->
  matches (lit t) s s' c c' -> consumed s s' = t.
Proof. intros Hs Ht [-> _]%matches_lit; [|done..]. rewrite consumed_app. apply of_runes_ascii. Qed.
