(* ===== verification/Fields.v ===== *)
(** * The fields of a telemetry event (internal/telemetry/access.go)

    How hosts, tokens and ports taken from the access log and from the route
    webhook are checked and brought into one form. *)

From stdpp Require Import base strings list.
From Stdlib Require Import ZArith NArith Ascii.
From S2P Require Import Prelude.
From S2P Require Import GoStrings.
From S2P Require Import Json.
From S2P Require Import Text.
From S2P Require Import Net.

(** The lower case of the runes outside ASCII: a table of the Unicode version
    the standard library was built with. *)
Class UnicodeTables : Type := { unicode_lower : N -> N }.

(** strings.ToLower: rune by rune as soon as one is outside ASCII, an invalid
    byte then being replaced. *)
Definition lower_of `{UnicodeTables} (r : N) : N :=
  if (r <? 128)%N then code (lower_char (chr r)) else unicode_lower r.
Definition ToLowerUnicode `{UnicodeTables} (s : string) : string :=
  if is_ascii s then ToLower s
  else foldr (fun rb t => encode_rune (lower_of (fst rb)) +:+ t) "" (runes s).

Definition bracket (c : ascii) : bool := bool_decide (c = "["%char) || bool_decide (c = "]"%char).
Definition backslash : N := 92%N.

(** ** The checks *)

Definition parsePort (value : string) : result N :=
  match ParseUint value 16 with
  | Some port => if (port =? 0)%N then Err (errorsNew "invalid port") else Ok port
  | None => Err (errorsNew "invalid port")
  end.

Definition blank (r : N) : bool := IsSpace r || IsControl r.

Definition cleanToken (value : string) (max : N) (allowEmpty : bool) : result string :=
  let value := TrimSpace value in
  if (negb allowEmpty && bool_decide (value = "")) || (max <? slen value)%N || negb (ValidString value)
  then Err (errorsNew "invalid event field")
  else if existsb (fun rb => blank (fst rb)) (runes value)
  then Err (errorsNew "invalid event field")
  else Ok value.

Definition bad_host_rune (r : N) : bool := blank r || (r =? 47)%N || (r =? backslash)%N.

Definition cleanHost `{UnicodeTables} (value : string) : result string :=
  let value := TrimSet bracket (TrimSpace value) in
  match ParseAddr value with
  | Some address => Ok (AddrString (Unmap address))
  | None =>
      let value := TrimSuffix (ToLowerUnicode value) "." in
      if bool_decide (value = "") || (253 <? slen value)%N || negb (ValidString value)
      then Err (errorsNew "invalid target host")
      else if existsb (fun rb => bad_host_rune (fst rb)) (runes value)
      then Err (errorsNew "invalid target host")
      else Ok value
  end.

Definition splitSource (value : string) : result (string * N) :=
  match SplitHostPort value with
  | None => Err (errorsNew "invalid access source")
  | Some (host, port) =>
      match ParseAddr (TrimSet bracket host) with
      | None => Err (errorsNew "invalid access source IP")
      | Some address =>
          let? parsedPort := parsePort port in
          Ok (AddrString (Unmap address), parsedPort)
      end
  end.

Definition splitTarget `{UnicodeTables} (value : string) : result (string * N) :=
  match SplitHostPort value with
  | None => Err (errorsNew "invalid access target")
  | Some (host, port) =>
      let? host := cleanHost host in
      let? parsedPort := parsePort port in
      Ok (host, parsedPort)
  end.

(** The first of the prefixes that the text has goes. *)
Definition without_network (value : string) : string :=
  if HasPrefix value "tcp:" then TrimPrefix value "tcp:"
  else if HasPrefix value "udp:" then TrimPrefix value "udp:" else value.

Definition splitXrayTarget `{UnicodeTables} (value : string) : result (string * N) :=
  let value := without_network (TrimSpace value) in
  if bool_decide (value = "") then Ok ("", 0%N)
  else match SplitHostPort value with
       | None => Err (errorsNew "invalid Xray target")
       | Some (host, port) =>
           let? host := cleanHost host in
           let? parsedPort := parsePort port in
           Ok (host, parsedPort)
       end.

(** ** What passes *)

Definition port_ok (p : N) : Prop := (0 < p < 65536)%N.

(** Valid UTF-8 without blanks or control characters. *)
Definition clean_text (max : N) (s : string) : Prop :=
  ValidString s = true /\ (slen s <= max)%N /\ Forall (fun rb => blank (fst rb) = false) (runes s).

(** Hexadecimal digits, colons and dots; an IPv6 address may have a zone after
    them, which is any text. *)
Definition address_char (c : ascii) : bool := is_lower_hex c || bool_decide (c = colon) || bool_decide (c = dot).
Definition address_text (s : string) : Prop := exists t,
  sforall address_char t = true /\ (s = t \/ exists zone, zone <> "" /\ s = t +:+ "%" +:+ zone).

Definition is_address (s : string) : Prop :=
  (exists t a, ParseAddr t = Some a /\ s = AddrString (Unmap a)) /\ address_text s.

Definition clean_host (s : string) : Prop :=
  is_address s \/ s <> "" /\ clean_text 253 s /\ Forall (fun rb => bad_host_rune (fst rb) = false) (runes s).

Lemma existsb_false {A} (p : A -> bool) l : existsb p l = false <-> Forall (fun x => p x = false) l.
Proof.
  induction l as [|x l IH]; simpl; [by split; [constructor|]|].
  by rewrite orb_false_iff, Forall_cons, IH.
Qed.

Lemma parsePort_spec value p : parsePort value = Ok p <-> ParseUint value 16 = Some p /\ p <> 0%N.
Proof.
  unfold parsePort. destruct (ParseUint value 16) as [q|]; [|naive_solver].
  destruct (N.eqb_spec q 0); naive_solver.
Qed.

Lemma parsePort_ok value p : parsePort value = Ok p -> port_ok p.
Proof.
  intros [Hp Hn]%parsePort_spec. unfold port_ok. destruct value as [|c r]; [done|].
  rewrite ParseUint_unfold in Hp by done. destruct (dec_value 0 _) as [n|]; [|done].
  destruct (N.ltb_spec n (2 ^ 16)) as [Hl|]; [|done]. injection Hp as ->.
  change (2 ^ 16)%N with 65536%N in Hl. lia.
Qed.

Lemma parsePort_format p : port_ok p -> parsePort (FormatUint p) = Ok p.
Proof. intros Hp. unfold port_ok in Hp. apply parsePort_spec. rewrite ParseUint_FormatUint; [split; [done|lia]|]. change (2 ^ 16)%N with 65536%N. lia. Qed.

Lemma cleanToken_ok value max allowEmpty s : cleanToken value max allowEmpty = Ok s ->
  s = TrimSpace value /\ clean_text max s /\ (allowEmpty = false -> s <> "").
Proof.
  unfold cleanToken. set (v := TrimSpace value).
  destruct (negb allowEmpty && bool_decide (v = "") || (max <? slen v)%N || negb (ValidString v)) eqn:E; [done|].
  destruct (existsb _ (runes v)) eqn:Er; [done|]. intros [= <-].
  apply orb_false_iff in E as [[E1 E2%N.ltb_ge]%orb_false_iff E3%negb_false_iff].
  apply existsb_false in Er. split_and!; [done|by split|].
  intros ->. simpl in E1. by apply bool_decide_eq_false in E1.
Qed.

(** A clean text is taken as it is. *)
Lemma no_blanks_trimmed s : Forall (fun rb => blank (fst rb) = false) (runes s) -> TrimSpace s = s.
Proof.
  intros Hs. rewrite <- (of_runes_runes s) at 1. rewrite TrimSpace_trimmed, of_runes_runes; [done|..].
  - unfold seg. by rewrite of_runes_runes.
  - assert (forall l, Forall (fun rb : N * string => blank (fst rb) = false) l -> drop_spaces l = l) as Hd.
    { intros l Hl. destruct Hl as [|r l Hr _]; [done|]. simpl.
      apply orb_false_iff in Hr as [-> _]. done. }
    split; apply Hd; [done|]. by apply Forall_rev.
Qed.

Lemma cleanToken_clean max allowEmpty s : clean_text max s -> (allowEmpty = true \/ s <> "") ->
  cleanToken s max allowEmpty = Ok s.
Proof.
  intros (Hv & Hl & Hs) Hne. unfold cleanToken. rewrite (no_blanks_trimmed _ Hs).
  assert (negb allowEmpty && bool_decide (s = "") = false) as ->.
  { destruct Hne as [->|Hne]; [done|]. rewrite bool_decide_false by done. by rewrite andb_false_r. }
  rewrite Hv, (proj2 (N.ltb_ge _ _) Hl). simpl.
  by rewrite (proj2 (existsb_false _ _)).
Qed.

(** *** The text of an address *)

Definition group_ok (x : N) : Prop := (x < 65536)%N.
Definition addr_bounded (a : Addr) : Prop := match a with Addr4 _ => True | Addr6 groups _ => Forall group_ok groups end.

Lemma v4_fields_bound s : forall prev val digits fields l, v4_fields s prev val digits fields = Some l ->
  (val < 256)%N -> Forall (fun x => x < 256)%N fields -> Forall (fun x => x < 256)%N l.
Proof.
  induction s as [|c s IH]; intros prev val digits fields l; cbn [v4_fields].
  - case_bool_decide; [|done]. intros [= <-] Hv Hf. apply Forall_app. by split; [|constructor].
  - destruct (is_digit c).
    + destruct (_ && _); [done|]. destruct (N.ltb_spec 255 (val * 10 + digit_val c)); [done|]. intros E _. eapply IH; [exact E|lia].
    + repeat (case_bool_decide; cbn [orb]; try done). intros E Hv Hf. eapply IH; [exact E|done|]. apply Forall_app. by split; [|constructor].
Qed.

Lemma from_hex_bound c d : from_hex c = Some d -> (d < 16)%N.
Proof.
  unfold from_hex, is_digit. destruct (char_in 48 57 c) eqn:E1; [apply char_in_spec in E1; intros [= <-]; lia|].
  destruct (char_in 97 102 c) eqn:E2; [apply char_in_spec in E2; intros [= <-]; lia|].
  destruct (char_in 65 70 c) eqn:E3; [apply char_in_spec in E3; intros [= <-]; lia|done].
Qed.

Lemma hex_group_bound s : forall off acc k v rest, hex_group s off acc = Some (k, v, rest) ->
  (off <= 4)%nat -> (acc < 16 ^ N.of_nat off)%N -> group_ok v.
Proof.
  assert (forall off acc, (off <= 4)%nat -> (acc < 16 ^ N.of_nat off)%N -> group_ok acc) as Hend.
  { intros off acc Ho Ha. assert (16 ^ N.of_nat off <= 16 ^ 4)%N by (apply N.pow_le_mono_r; lia). unfold group_ok. change (16 ^ 4)%N with 65536%N in *. lia. }
  induction s as [|c s IH]; intros off acc k v rest; cbn [hex_group]; [intros [= _ <- _]; by apply Hend|].
  destruct (from_hex c) as [d|] eqn:Ed; [|intros [= _ <- _]; by apply Hend].
  destruct (Nat.ltb_spec 3 off); [done|]. intros E _ Ha. eapply IH; [exact E|lia|].
  apply from_hex_bound in Ed. rewrite Nat2N.inj_succ, N.pow_succ_r'. lia.
Qed.

Lemma v6_groups_bound n : forall s groups ellipsis rest l e, v6_groups n s groups ellipsis = Some (rest, l, e) ->
  Forall group_ok groups -> Forall group_ok l.
Proof.
  assert (forall groups x, Forall group_ok groups -> group_ok x -> Forall group_ok (groups ++ [x])) as Hadd.
  { intros groups x Hg Hx. apply Forall_app. by split; [|constructor]. }
  induction n as [|n IH]; intros s groups ellipsis rest l e; cbn [v6_groups]; [by intros [= _ <- _]|].
  destruct (hex_group s 0 0) as [[[k acc] more]|] eqn:Eh; [|done].
  apply hex_group_bound in Eh; [|lia|simpl; lia]. destruct k; [done|]. destruct more as [|c more]; [intros [= _ <- _] Hg; by apply Hadd|].
  case_bool_decide.
  - destruct (bool_decide _ && _); [done|]. destruct (6 <? _)%nat; [done|]. destruct (parse4 s) as [[|x1 [|x2 [|x3 [|x4 [|]]]]]|] eqn:E4; try done.
    intros [= _ <- _] Hg. apply v4_fields_bound in E4; [|lia|done]. rewrite !Forall_cons in E4. destruct E4 as (H1 & H2 & H3 & H4 & _).
    apply Forall_app. split; [done|]. unfold group_ok. repeat constructor; lia.
  - case_bool_decide; cbn [negb]; [|done]. destruct more as [|c' more]; [done|]. case_bool_decide.
    + destruct ellipsis; [done|]. destruct more; [intros [= _ <- _] Hg; by apply Hadd|]. intros E Hg. eapply IH; [exact E|]. by apply Hadd.
    + intros E Hg. eapply IH; [exact E|]. by apply Hadd.
Qed.

Lemma expand_bound groups e l : expand groups e = Some l -> Forall group_ok groups -> Forall group_ok l.
Proof.
  unfold expand. destruct (_ <? _)%nat; destruct e as [e|]; try done; [|by intros [= <-]].
  intros [= <-] Hg. apply Forall_app. split; [by apply Forall_take|]. apply Forall_app. split; [by apply Forall_replicate|by apply Forall_drop].
Qed.

Lemma parse6_bound s a : parse6 s = Some a -> addr_bounded a.
Proof.
  unfold parse6. match goal with |- match ?x with _ => _ end = _ -> _ => destruct x as [[t zone]|]; [|done] end.
  match goal with |- (let '(_, _) := ?x in _) = _ -> _ => destruct x as [t' e] end. case_match; [intros [= <-]; by repeat constructor|].
  destruct (v6_groups 8 t' [] e) as [[[[|] groups] e']|] eqn:Eg; try done.
  apply v6_groups_bound in Eg; [|done]. destruct (expand groups e') as [l|] eqn:Ee; [|done]. intros [= <-]. by apply expand_bound in Ee.
Qed.

Lemma ParseAddr_bound s a : ParseAddr s = Some a -> addr_bounded a.
Proof.
  unfold ParseAddr. destruct (addr_kind s) as [c|]; [|done]. case_bool_decide; [by destruct (parse4 s) as [l|]; [intros [= <-]|]|].
  case_bool_decide; [apply parse6_bound|done].
Qed.

Lemma sconcat_sforall p sep l : sforall p sep = true -> Forall (fun x => sforall p x = true) l -> sforall p (sconcat sep l) = true.
Proof.
  intros Hs Hl. induction Hl as [|x l Hx Hl IH]; [done|]. destruct l as [|y l]; [done|].
  change (sconcat sep (x :: y :: l)) with (x +:+ sep +:+ sconcat sep (y :: l)). by rewrite !sforall_app, Hx, Hs, IH.
Qed.

Lemma address_digits s : sforall is_digit s = true -> sforall address_char s = true.
Proof. apply sforall_impl. intros c Hc. unfold address_char, is_lower_hex. by rewrite Hc. Qed.

Lemma hex_digit_address n : (n < 16)%N -> address_char (hex_digit n) = true.
Proof.
  intros Hn. destruct n as [|n]; [done|]. repeat (destruct n as [n|n|]; try done); lia.
Qed.

Lemma hex_text_address x : group_ok x -> sforall address_char (hex_text x) = true.
Proof.
  intros Hx. unfold group_ok in Hx. unfold hex_text. rewrite !sforall_app, !andb_true_iff.
  split_and!; repeat case_match; try done; cbn [sforall]; rewrite andb_true_r; apply hex_digit_address;
    try (apply N.mod_lt; lia); apply N.Div0.div_lt_upper_bound; lia.
Qed.

Lemma text6_address groups : Forall group_ok groups -> sforall address_char (text6 groups) = true.
Proof.
  intros Hg. assert (forall l, Forall group_ok l -> sforall address_char (sconcat ":" (hex_text <$> l)) = true) as Hc.
  { intros l Hl. apply sconcat_sforall; [done|]. apply Forall_fmap. eapply Forall_impl; [exact Hl|]. apply hex_text_address. }
  unfold text6. destruct (longest_run 0 groups (0, 0)) as [start len]. destruct (_ =? _)%nat; [by apply Hc|].
  rewrite !sforall_app, !Hc by (by apply Forall_take || by apply Forall_drop). done.
Qed.

Lemma octets_address l : sforall address_char (sconcat "." (FormatUint <$> l)) = true.
Proof. apply sconcat_sforall; [done|]. apply Forall_fmap, Forall_true. intros x. apply address_digits, FormatUint_digits. Qed.

Lemma zoned_text t zone : sforall address_char t = true -> address_text (t +:+ (if bool_decide (zone = "") then "" else "%" +:+ zone)).
Proof. intros Ht. exists t. split; [done|]. case_bool_decide; [left; apply sapp_nil_r|right; by exists zone]. Qed.

Lemma AddrString_text a : addr_bounded a -> address_text (AddrString a).
Proof.
  destruct a as [l|groups zone]; cbn [addr_bounded]; intros Hb.
  - eexists. split; [apply (octets_address l)|by left].
  - pose proof (fun t => zoned_text t zone) as Hz. pose proof (Hz _ (text6_address _ Hb)) as Ht. revert Hz Ht. unfold AddrString.
    generalize (if bool_decide (zone = "") then "" else "%" +:+ zone). intros tail Hz Ht. repeat (case_match; try exact Ht).
    rewrite <- sapp_assoc. apply Hz. by rewrite sforall_app, octets_address.
Qed.

Lemma Unmap_bounded a : addr_bounded a -> addr_bounded (Unmap a).
Proof. intros Hb. unfold Unmap. by repeat (case_match; try done). Qed.

Lemma parsed_address t a : ParseAddr t = Some a -> is_address (AddrString (Unmap a)).
Proof. intros Ha. split; [by exists t, a|]. by eapply AddrString_text, Unmap_bounded, ParseAddr_bound. Qed.

Lemma cleanHost_ok `{UnicodeTables} value s : cleanHost value = Ok s -> clean_host s.
Proof.
  unfold cleanHost. set (v := TrimSet bracket _). destruct (ParseAddr v) as [a|] eqn:Ea.
  { intros [= <-]. left. by eapply parsed_address. }
  set (w := TrimSuffix _ _).
  destruct (bool_decide (w = "") || (253 <? slen w)%N || negb (ValidString w)) eqn:E; [done|].
  destruct (existsb _ (runes w)) eqn:Er; [done|]. intros [= <-]. right.
  apply orb_false_iff in E as [[E1%bool_decide_eq_false E2%N.ltb_ge]%orb_false_iff E3%negb_false_iff].
  apply existsb_false in Er. split_and!; [done|split; [done|split; [done|]]|done].
  eapply Forall_impl; [exact Er|]. simpl. intros x Hx. unfold bad_host_rune in Hx.
  by apply orb_false_iff in Hx as [[Hx _]%orb_false_iff _].
Qed.

Lemma splitSource_ok value s p : splitSource value = Ok (s, p) -> is_address s /\ port_ok p.
Proof.
  unfold splitSource. destruct (SplitHostPort value) as [[host port]|]; [|done].
  destruct (ParseAddr _) as [a|] eqn:Ea; [|done]. intros (q & Hq & [= <- <-])%rbind_Ok.
  split; [by eapply parsed_address|by eapply parsePort_ok].
Qed.

Lemma splitTarget_ok `{UnicodeTables} value s p : splitTarget value = Ok (s, p) -> clean_host s /\ port_ok p.
Proof.
  unfold splitTarget. destruct (SplitHostPort value) as [[host port]|]; [|done].
  intros (h & Hh & (q & Hq & [= <- <-])%rbind_Ok)%rbind_Ok.
  split; [by eapply cleanHost_ok|by eapply parsePort_ok].
Qed.

(** A target of the webhook may be absent, as a whole. *)
Definition target_ok (s : string) (p : N) : Prop := s = "" /\ p = 0%N \/ clean_host s /\ port_ok p.

Lemma splitXrayTarget_ok `{UnicodeTables} value s p : splitXrayTarget value = Ok (s, p) -> target_ok s p.
Proof.
  unfold splitXrayTarget. case_bool_decide; [intros [= <- <-]; by left|].
  destruct (SplitHostPort _) as [[host port]|]; [|done].
  intros (h & Hh & (q & Hq & [= <- <-])%rbind_Ok)%rbind_Ok. right.
  split; [by eapply cleanHost_ok|by eapply parsePort_ok].
Qed.

(** ** Examples *)

#[local] Instance ascii_only : UnicodeTables := { unicode_lower r := r }.

Example host_name : cleanHost " Example.COM. " = Ok "example.com". Proof. reflexivity. Qed.
Example host_v6 : cleanHost "[2001:DB8::1]" = Ok "2001:db8::1". Proof. reflexivity. Qed.
Example host_slash : is_ok (cleanHost "a/b") = false. Proof. reflexivity. Qed.
(** The zone of an address is not looked at. *)
Example host_zone : cleanHost "fe80::1%a/b c" = Ok "fe80::1%a/b c". Proof. reflexivity. Qed.
Example source_mapped : splitSource "[::ffff:192.0.2.1]:80" = Ok ("192.0.2.1", 80%N). Proof. reflexivity. Qed.
Example target_bad_port : is_ok (splitTarget "example.com:0") = false. Proof. reflexivity. Qed.
Example xray_target : splitXrayTarget "udp:dns.example:53" = Ok ("dns.example", 53%N). Proof. reflexivity. Qed.
