(* ===== verification/AccessLine.v ===== *)
(** * One line of the access log (internal/telemetry/access.go)

    [parseAccessLine]: the pattern of a line, its time in the configured zone
    and the event made of its fields. *)

From stdpp Require Import base gmap strings list.
From Stdlib Require Import ZArith NArith Ascii.
From S2P Require Import Prelude.
From S2P Require Import GoStrings.
From S2P Require Import Json.
From S2P Require Import Text.
From S2P Require Import Bolt.
From S2P Require Import Events.
From S2P Require Import Net.
From S2P Require Import Regexp.
From S2P Require Import Fields.

(** ** The pattern *)

Definition line_time : re :=
  cat [times 4 re_digit; lit "/"; times 2 re_digit; lit "/"; times 2 re_digit; plus true re_space;
       times 2 re_digit; lit ":"; times 2 re_digit; lit ":"; times 2 re_digit;
       opt (Cat (lit ".") (plus true re_digit))].

Definition arrow : re := Alt (lit "->") (lit ">>").

Definition accessPattern : re :=
  cat [Group 1 line_time; plus true re_space; lit "from"; plus true re_space;
       Group 2 (plus true re_nonspace); plus true re_space; lit "accepted"; plus true re_space;
       Group 3 (Alt (lit "tcp") (lit "udp")); lit ":"; Group 4 (plus true re_any); plus true re_space;
       lit "["; Group 5 (plus false re_any); plus true re_space; arrow; plus true re_space;
       Group 6 (plus false re_any); lit "]";
       opt (cat [plus true re_space; lit "email:"; plus true re_space; Group 7 (plus true re_nonspace)]);
       Rep true re_space].

(** ** Times: time.ParseInLocation of the layout of a line *)

(** The offset in force at a moment and the range in which it is. *)
Definition Location : Type := Z -> Z * Z * Z.

Definition leap (y : Z) : bool := ((y mod 4 =? 0) && (negb (y mod 100 =? 0) || (y mod 400 =? 0)))%Z.

Definition days_in (y m : Z) : Z :=
  (if m =? 2 then (if leap y then 29 else 28)
   else if (m =? 4) || (m =? 6) || (m =? 9) || (m =? 11) then 30 else 31)%Z.

(** The days of the years 0 to [y] - 1, and of the months before [m]. *)
Definition days_before_year (y : Z) : Z :=
  (365 * y + ((y - 1) / 4 - (y - 1) / 100 + (y - 1) / 400 + 1))%Z.
Fixpoint days_before_month (y : Z) (m : nat) : Z :=
  match m with S (S m' as k) => days_before_month y k + days_in y (Z.of_nat k) | _ => 0%Z end.

Definition epoch_days : Z := Eval vm_compute in days_before_year 1970.

Definition unix_local (y mo d h mi s : Z) : Z :=
  (((days_before_year y + days_before_month y (Z.to_nat mo) + (d - 1) - epoch_days) * 24 + h) * 60 + mi) * 60 + s.

(** time.Date: the wall clock taken back to UTC with the offset of the zone. *)
Definition to_utc (loc : Location) (local : Z) : Z :=
  let '(offset, start, stop) := loc local in
  if (offset =? 0)%Z then local
  else
    let utc := (local - offset)%Z in
    if (utc <? start)%Z || (stop <=? utc)%Z then (local - (loc utc).1.1)%Z else utc.

(** [n] digits, and the text after them. *)
Fixpoint read_digits (n : nat) (acc : Z) (s : string) : option (Z * string) :=
  match n with
  | O => Some (acc, s)
  | S n => match s with
           | String c r => if is_digit c then read_digits n (acc * 10 + Z.of_N (digit_val c)) r else None
           | "" => None
           end
  end.

Definition expect_char (c : ascii) (s : string) : option string :=
  match s with String a r => if bool_decide (a = c) then Some r else None | "" => None end.

Fixpoint cutspace (s : string) : string :=
  match s with String " " r => cutspace r | _ => s end.

(** The fraction: any number of digits, of which nine count. *)
Fixpoint nanoseconds (scale : Z) (s : string) : option Z :=
  match s with
  | "" => Some 0%Z
  | String c r =>
      if is_digit c then Z.add (Z.of_N (digit_val c) * scale) <$> nanoseconds (scale / 10) r else None
  end.

Definition fraction (s : string) : option Z :=
  match s with
  | "" => Some 0%Z
  | String c r => if (bool_decide (c = "."%char) || bool_decide (c = ","%char)) && negb (bool_decide (r = ""))
                  then nanoseconds 100000000 r else None
  end.

Definition in_range (lo hi : Z) (v : Z) : option unit := if ((lo <=? v) && (v <=? hi))%Z then Some tt else None.

(** ParseInLocation("2006/01/02 15:04:05.999999999", value, location), in
    nanoseconds since the Unix epoch. *)
Definition parse_time (loc : Location) (value : string) : option Z :=
  '(y, s) ← read_digits 4 0 value;
  s ← expect_char "/" s;
  '(mo, s) ← read_digits 2 0 s;
  _ ← in_range 1 12 mo;
  s ← expect_char "/" s;
  '(d, s) ← read_digits 2 0 s;
  s ← expect_char " " s;
  '(h, s) ← read_digits 2 0 (cutspace s);
  _ ← in_range 0 23 h;
  s ← expect_char ":" s;
  '(mi, s) ← read_digits 2 0 s;
  _ ← in_range 0 59 mi;
  s ← expect_char ":" s;
  '(sec, s) ← read_digits 2 0 s;
  _ ← in_range 0 59 sec;
  ns ← fraction s;
  _ ← in_range 1 (days_in y mo) d;
  Some (to_utc loc (unix_local y mo d h mi sec) * 1000000000 + ns)%Z.

Definition ParseInLocation (loc : Location) (value : string) : result Z :=
  match parse_time loc value with Some t => Ok t | None => Err (errorsNew "parsing time") end.

(** ** The event *)

Record AccessEvent : Set := MkAccess {
  ac_email : string;
  ac_sourceIP : string;
  ac_sourcePort : N;
  ac_network : string;
  ac_host : string;
  ac_port : N;
  ac_outbound : string
}.

Definition access_members (e : AccessEvent) : list (string * string) :=
  [("email", quote (ac_email e)); ("sourceIp", quote (ac_sourceIP e));
   ("sourcePort", FormatUint (ac_sourcePort e)); ("network", quote (ac_network e));
   ("targetHost", quote (ac_host e)); ("targetPort", FormatUint (ac_port e));
   ("outboundTag", quote (ac_outbound e))].

(** json.Marshal of the event never fails. *)
Definition marshal_access (e : AccessEvent) : result string := Ok (obj (access_members e)).

Record parsedAccess : Set := MkParsed { pa_at : Z; pa_payload : AccessEvent }.

(** The error, or whether the line is kept. *)
Definition parseAccessLine `{UnicodeTables} (loc : Location) (line : string) : result (option parsedAccess) :=
  match FindStringSubmatch accessPattern (TrimSpace line) with
  | None => Err (errorsNew "unrecognized access line")
  | Some m =>
      let? observedAt := ParseInLocation loc (submatch m 1) in
      let? source := splitSource (submatch m 2) in
      let? target := splitTarget (submatch m 4) in
      let? inbound := cleanToken (submatch m 5) 128 false in
      let? outbound := cleanToken (submatch m 6) 128 false in
      if bool_decide (inbound = "api") && bool_decide (outbound = "api") then Ok None
      else
        let? email := cleanToken (submatch m 7) 254 false in
        Ok (Some (MkParsed observedAt
          (MkAccess email source.1 source.2 (submatch m 3) target.1 target.2 outbound)))
  end.

(** ** Examples, after the tests *)

Definition utc : Location := fun _ => (0%Z, 0%Z, 0%Z).
#[local] Instance ascii_tables : UnicodeTables := { unicode_lower r := r }.

Example epoch : ParseInLocation utc "1970/01/01 00:00:00" = Ok 0%Z. Proof. reflexivity. Qed.
Example some_time : ParseInLocation utc "2026/08/01 10:20:30.123456" = Ok 1785579630123456000%Z.
Proof. vm_compute. reflexivity. Qed.
Example leap_day : ParseInLocation utc "2000/02/29 23:59:59" = Ok 951868799000000000%Z. Proof. vm_compute. reflexivity. Qed.
Example no_leap_day : is_ok (ParseInLocation utc "2100/02/29 00:00:00") = false. Proof. vm_compute. reflexivity. Qed.

Example parsed_line :
  parseAccessLine utc "2026/08/01 10:20:30.123456 from 192.0.2.10:43123 accepted tcp:Example.COM:443 [in-443 -> direct] email: alice@example.com"
  = Ok (Some (MkParsed 1785579630123456000
      (MkAccess "alice@example.com" "192.0.2.10" 43123 "tcp" "example.com" 443 "direct"))).
Proof. vm_compute. reflexivity. Qed.
Example api_line :
  parseAccessLine utc "2026/08/01 10:20:30 from 127.0.0.1:1234 accepted tcp:127.0.0.1:62789 [api -> api]" = Ok None.
Proof. vm_compute. reflexivity. Qed.
Example no_email :
  is_ok (parseAccessLine utc "2026/08/01 10:20:30 from 192.0.2.10:43123 accepted tcp:example.com:443 [in-443 -> direct]") = false.
Proof. vm_compute. reflexivity. Qed.

(** The zone of an IPv6 address is taken as it is. *)
Lemma zone_unchecked :
  parseAccessLine utc "2026/08/01 10:20:30 from 192.0.2.10:43123 accepted tcp:[fe80::1%a b]:443 [in-443 -> direct] email: alice@example.com"
  = Ok (Some (MkParsed 1785579630000000000 (MkAccess "alice@example.com" "192.0.2.10" 43123 "tcp" "fe80::1%a b" 443 "direct"))).
Proof. vm_compute. reflexivity. Qed.

(** ** Times are in range *)

(** No zone is more than a day from UTC. *)
Definition zone_ok (loc : Location) : Prop := forall t, (Z.abs (loc t).1.1 <= 86400)%Z.

Lemma read_digits_bound n acc s v r : (0 <= acc)%Z -> read_digits n acc s = Some (v, r) ->
  (acc * 10 ^ Z.of_nat n <= v < (acc + 1) * 10 ^ Z.of_nat n)%Z.
Proof.
  revert acc s. induction n as [|n IH]; intros acc s Ha Hr.
  - injection Hr as -> ->. change (10 ^ Z.of_nat 0)%Z with 1%Z. lia.
  - destruct s as [|c s]; [done|]. cbn [read_digits] in Hr. destruct (is_digit c) eqn:Hc; [|done].
    assert (digit_val c <= 9)%N as Hd.
    { unfold is_digit, digit_val in *. apply char_in_spec in Hc. lia. }
    apply IH in Hr; [|lia]. rewrite Nat2Z.inj_succ, Z.pow_succ_r by lia.
    assert (0 < 10 ^ Z.of_nat n)%Z by (apply Z.pow_pos_nonneg; lia). nia.
Qed.

Lemma nanoseconds_bound scale s v : (0 <= scale)%Z -> nanoseconds scale s = Some v -> (0 <= v <= 10 * scale)%Z.
Proof.
  revert scale v. induction s as [|c s IH]; intros scale v Hs Hv; simpl in Hv; [injection Hv as <-; lia|].
  destruct (is_digit c) eqn:Hc; [|done].
  assert (digit_val c <= 9)%N as Hd.
  { unfold is_digit, digit_val in *. apply char_in_spec in Hc. lia. }
  destruct (nanoseconds (scale / 10) s) as [w|] eqn:E; [|done]. injection Hv as <-.
  apply IH in E; [|apply Z.div_pos; lia]. pose proof (Z.mul_div_le scale 10). nia.
Qed.

Lemma in_range_spec lo hi v u : in_range lo hi v = Some u -> (lo <= v <= hi)%Z.
Proof. unfold in_range. destruct ((lo <=? v) && (v <=? hi))%Z eqn:E; [|done]. lia. Qed.

Lemma fraction_bound s v : fraction s = Some v -> (0 <= v <= 1000000000)%Z.
Proof.
  unfold fraction. destruct s as [|c r]; [intros [= <-]; lia|]. destruct (_ && _); [|done].
  intros Hn. apply nanoseconds_bound in Hn; lia.
Qed.

Lemma days_in_bound y m : (0 <= days_in y m <= 31)%Z.
Proof. unfold days_in. repeat case_match; lia. Qed.

Lemma months_bound y m : (0 <= days_before_month y m <= 31 * Z.of_nat m)%Z.
Proof.
  induction m as [|[|m] IH]; [simpl; lia..|]. cbn [days_before_month].
  pose proof (days_in_bound y (Z.of_nat (S m))). cbn [days_before_month] in IH. lia.
Qed.

Lemma unix_local_bound y mo d h mi s :
  (0 <= y <= 9999)%Z -> (1 <= mo <= 12)%Z -> (1 <= d <= 31)%Z -> (0 <= h <= 23)%Z -> (0 <= mi <= 59)%Z -> (0 <= s <= 59)%Z ->
  (- 10 ^ 12 <= unix_local y mo d h mi s <= 10 ^ 12)%Z.
Proof.
  intros. unfold unix_local. pose proof (months_bound y (Z.to_nat mo)).
  assert (-1 <= days_before_year y <= 4000000)%Z.
  { unfold days_before_year. Z.to_euclidean_division_equations. lia. }
  unfold epoch_days. change (10 ^ 12)%Z with 1000000000000%Z. lia.
Qed.

Lemma parsed_time_i64 loc value t : zone_ok loc -> ParseInLocation loc value = Ok t -> is_i64 (t / 1000000)%Z.
Proof.
  intros Hz. unfold ParseInLocation. destruct (parse_time loc value) as [x|] eqn:E; [|done]. intros [= ->].
  unfold parse_time in E.
  repeat match type of E with
    | (?m ≫= _) = Some _ =>
        let v := fresh "v" in let G := fresh "G" in
        destruct m as [v|] eqn:G; [cbn [mbind option_bind] in E;
          match type of v with prod _ _ => destruct v | _ => idtac end|done]
    end.
  injection E as <-.
  repeat match goal with
    | G : read_digits _ _ _ = Some _ |- _ => apply read_digits_bound in G; [|done]
    | G : in_range _ _ _ = Some _ |- _ => apply in_range_spec in G
    | G : fraction _ = Some _ |- _ => apply fraction_bound in G
    end.
  change (10 ^ Z.of_nat 4)%Z with 10000%Z in *. change (10 ^ Z.of_nat 2)%Z with 100%Z in *.
  match goal with |- context [unix_local ?y ?mo ?d ?h ?mi ?s] =>
    pose proof (days_in_bound y mo); pose proof (unix_local_bound y mo d h mi s) as Hu; set (l := unix_local y mo d h mi s) in * end.
  assert (- 10 ^ 12 <= l <= 10 ^ 12)%Z as Hl by (apply Hu; lia).
  assert (Z.abs (to_utc loc l - l) <= 86400)%Z as Ho.
  { unfold to_utc. pose proof (Hz l) as H1. destruct (loc l) as [[off start] stop] eqn:El. simpl in H1.
    destruct (off =? 0)%Z; [lia|]. pose proof (Hz (l - off)%Z) as H2.
    destruct ((_ <? _) || _)%Z; lia. }
  change (10 ^ 12)%Z with 1000000000000%Z in Hl. unfold is_i64, two64.
  Z.to_euclidean_division_equations. lia.
Qed.

(** ** What a kept line yields *)

Definition access_ok (e : AccessEvent) : Prop :=
  ac_email e <> "" /\ clean_text 254 (ac_email e) /\
  is_address (ac_sourceIP e) /\ port_ok (ac_sourcePort e) /\
  (ac_network e = "tcp" \/ ac_network e = "udp") /\
  clean_host (ac_host e) /\ port_ok (ac_port e) /\
  ac_outbound e <> "" /\ clean_text 128 (ac_outbound e).

Lemma access_network s m : FindStringSubmatch accessPattern s = Some m ->
  submatch m 3 = "tcp" \/ submatch m 3 = "udp".
Proof.
  intros Hm%FindStringSubmatch_matches.
  apply (matches_group_at [Group 1 line_time; plus true re_space; lit "from"; plus true re_space;
    Group 2 (plus true re_nonspace); plus true re_space; lit "accepted"; plus true re_space] 3) in Hm
    as (s1 & s2 & c1 & c2 & Hn & Hc & l & Hl); [|done|by apply (bool_decide_unpack _); vm_compute].
  unfold submatch. rewrite Hc. simpl.
  assert (Forall rune_ok s1) as Hs1 by (pose proof (runes_ok s) as Ha; rewrite Hl in Ha; by apply Forall_app in Ha as [_ Ha]).
  inversion Hn; subst; [left|right]; by eapply matches_lit_text.
Qed.

Lemma marshal_access_ok e : exists raw, marshal_access e = Ok raw /\ jv raw /\ compact raw = raw /\ raw <> "".
Proof.
  eexists. split; [done|]. split_and!.
  - apply jv_obj; [done|]. unfold access_members. members_ok.
  - apply compacted_compact, compacted_obj. unfold access_members.
    repeat constructor; simpl; apply compacted_quote || apply compacted_uint.
  - by rewrite obj_unfold.
Qed.

(** C34: an event taken from a line is well formed: the network is tcp or udp;
    the ports are in range; the user and the outbound are valid texts within
    their limits, without blanks and control characters; the source is an IP
    address, and the target an IP address or such a text. An address consists of
    hexadecimal digits, colons and dots; only behind a percent sign, in the zone
    of an IPv6 address, may anything follow. *)
Theorem parseAccessLine_ok `{UnicodeTables} loc line p :
  parseAccessLine loc line = Ok (Some p) -> access_ok (pa_payload p).
Proof.
  unfold parseAccessLine. destruct (FindStringSubmatch _ _) as [m|] eqn:Em; [|done].
  intros (t & Ht & ([ip sp] & Hs & ([host port] & Hh & (inb & Hi & (out & Ho & Hp)%rbind_Ok)%rbind_Ok)%rbind_Ok)%rbind_Ok)%rbind_Ok.
  destruct (bool_decide _ && _); [done|]. apply rbind_Ok in Hp as (email & He & [= <-]).
  apply splitSource_ok in Hs as [Hip Hsp]. apply splitTarget_ok in Hh as [Hhost Hport].
  apply cleanToken_ok in Ho as (_ & Ho & Ho'). apply cleanToken_ok in He as (_ & He & He').
  unfold access_ok. simpl. split_and!; auto. by eapply access_network.
Qed.

Lemma parseAccessLine_ok_witness :
  let e := MkAccess "alice@example.com" "192.0.2.10" 43123 "udp" "2001:db8::1" 53 "direct" in
  access_ok e.
Proof.
  exact (parseAccessLine_ok utc
    "2026/08/01 10:20:30 from [::ffff:192.0.2.10]:43123 accepted udp:[2001:DB8::1]:53 [in-443 >> direct] email: alice@example.com"
    (MkParsed 1785579630000000000 (MkAccess "alice@example.com" "192.0.2.10" 43123 "udp" "2001:db8::1" 53 "direct"))
    (eq_refl (Ok (Some _)))).
Defined.
