(* ===== verification/Access.v ===== *)
(** * Collecting the access log (internal/telemetry/access.go)

    [AccessCollector]: each pass looks at the log file, finds the file that the
    stored checkpoint names, by identity and by the hash of the bytes before
    the offset, and [drain]s it line by line; an event and the checkpoint after
    its line are stored in one transaction. *)

From stdpp Require Import base gmap strings list.
From Stdlib Require Import ZArith NArith Ascii.
From S2P Require Import Prelude.
From S2P Require Import GoStrings.
From S2P Require Import Sha256.
From S2P Require Import Bolt.
From S2P Require Import Events.
From S2P Require Import EventSpool.
From S2P Require Import Fields.
From S2P Require Import AccessLine.

Definition accessCheckpointKey : string := "xray-access-v1".
Definition maxAccessLineBytes : Z := 65536.
Definition newline : ascii := Eval compute in chr 10.

(** ** The log as a process reads it *)

(** An open file: the bytes that reading delivers, the error met after them
    (none is the end of the file), and the error of Seek, if any. *)
Record LogFile : Set := MkFile {
  lf_bytes : string;
  lf_err : option error;
  lf_seek : option error
}.

(** How bufio.Reader.ReadSlice ends. *)
Inductive slice_end : Set := Found | BufferFull | AtEOF | Failed (e : error).

Definition readerSize : nat := N.to_nat 16384.

(** ReadSlice('\n') with [room] bytes left in the buffer: the fragment, what is
    left of the file, and why it stopped. *)
Fixpoint read_slice (room : nat) (err : option error) (s : string) : string * string * slice_end :=
  match room, s with
  | O, _ => ("", s, BufferFull)
  | S _, "" => ("", "", match err with None => AtEOF | Some e => Failed e end)
  | S room', String c r =>
      if bool_decide (c = newline) then (String c "", r, Found)
      else let '(fragment, rest, e) := read_slice room' err r in (String c fragment, rest, e)
  end.

(** ** readBoundedAccessLine *)

Record boundedAccessLine : Set := MkLine {
  bl_data : string;
  bl_anchor : string;
  bl_read : Z;
  bl_complete : bool;
  bl_tooLong : bool
}.

Definition anchorBytes : N := 64.

Definition appendAccessAnchor (anchor fragment : string) : string :=
  if (anchorBytes <=? slen fragment)%N then sdrop (N.to_nat (slen fragment - anchorBytes)) fragment
  else
    let overflow := (Z.of_N (slen anchor) + Z.of_N (slen fragment) - Z.of_N anchorBytes)%Z in
    if (0 <? overflow)%Z then sdrop (Z.to_nat overflow) anchor +:+ fragment
    else anchor +:+ fragment.

Definition no_line : boundedAccessLine := MkLine "" "" 0 false false.

(** One more fragment of the line. *)
Definition add_fragment (line : boundedAccessLine) (fragment : string) : boundedAccessLine :=
  let bytesRead := (bl_read line + Z.of_N (slen fragment))%Z in
  let anchor := appendAccessAnchor (bl_anchor line) fragment in
  if bl_tooLong line then MkLine (bl_data line) anchor bytesRead false true
  else if (maxAccessLineBytes <? bytesRead)%Z then MkLine "" anchor bytesRead false true
  else MkLine (bl_data line +:+ fragment) anchor bytesRead false false.

Definition completed (line : boundedAccessLine) : boundedAccessLine :=
  MkLine (bl_data line) (bl_anchor line) (bl_read line) true (bl_tooLong line).

Definition out_of_fuel : error := errorsNew "out of fuel".

Fixpoint read_fragments (fuel : nat) (err : option error) (line : boundedAccessLine) (s : string) :
  result (boundedAccessLine * string) :=
  match fuel with
  | O => Err out_of_fuel
  | S fuel =>
      let '(fragment, rest, e) := read_slice readerSize err s in
      let line := add_fragment line fragment in
      match e with
      | Found => Ok (completed line, rest)
      | BufferFull => read_fragments fuel err line rest
      | AtEOF => Ok (line, rest)
      | Failed e => Err e
      end
  end.

Definition readBoundedAccessLine (err : option error) (s : string) : result (boundedAccessLine * string) :=
  read_fragments (S (String.length s)) err no_line s.

(** ** Anchors *)

Definition with_anchor (c : AccessCheckpoint) (anchor : Z) (sha : string) : AccessCheckpoint :=
  MkCheckpoint (cp_device c) (cp_inode c) (cp_offset c) anchor sha (cp_init c).
Definition with_offset (c : AccessCheckpoint) (offset : Z) : AccessCheckpoint :=
  MkCheckpoint (cp_device c) (cp_inode c) offset (cp_anchor c) (cp_sha c) (cp_init c).

Definition checkpointWithLineAnchor (checkpoint : AccessCheckpoint) (line : string) : AccessCheckpoint :=
  let line := if (anchorBytes <? slen line)%N then sdrop (N.to_nat (slen line - anchorBytes)) line else line in
  with_anchor checkpoint (cp_offset checkpoint - Z.of_N (slen line)) (sha256_hex line).

Inductive read_at : Set := Bytes (raw : string) | ShortRead | ReadError (e : error).

(** os.File.ReadAt of [length] bytes. *)
Definition ReadAt (file : LogFile) (length : N) (off : Z) : read_at :=
  if (off <? 0)%Z then ReadError (errorsNew "negative offset")
  else
    let raw := stake (N.to_nat length) (sdrop (Z.to_nat off) (lf_bytes file)) in
    if (slen raw =? length)%N then Bytes raw
    else match lf_err file with None => ShortRead | Some e => ReadError e end.

Definition eof : error := errorsNew "EOF".

(** [opened] is the answer of os.Open. *)
Definition checkpointWithFileAnchor (opened : result LogFile) (checkpoint : AccessCheckpoint) :
  result AccessCheckpoint :=
  if (cp_offset checkpoint =? 0)%Z then Ok checkpoint
  else
    let length := (if cp_offset checkpoint <? Z.of_N anchorBytes then cp_offset checkpoint else Z.of_N anchorBytes)%Z in
    let? file := opened in
    match ReadAt file (Z.to_N length) (cp_offset checkpoint - length) with
    | Bytes raw => Ok (with_anchor checkpoint (cp_offset checkpoint - length) (sha256_hex raw))
    | ShortRead => Err eof
    | ReadError e => Err e
    end.

Fixpoint hex_diff (left right : string) : N :=
  match left, right with
  | String a l, String b r => N.lor (N.lxor (code a) (code b)) (hex_diff l r)
  | _, _ => 0%N
  end.

Definition subtleHexEqual (left right : string) : bool :=
  if negb (slen left =? slen right)%N then false else (hex_diff left right =? 0)%N.

Definition checkpointAnchorMatches (opened : result LogFile) (checkpoint : AccessCheckpoint) : result bool :=
  if (cp_offset checkpoint =? 0)%Z || bool_decide (cp_sha checkpoint = "") then Ok true
  else
    let length := (cp_offset checkpoint - cp_anchor checkpoint)%Z in
    if (length <=? 0)%Z || (Z.of_N anchorBytes <? length)%Z then Ok false
    else
      let? file := opened in
      match ReadAt file (Z.to_N length) (cp_anchor checkpoint) with
      | Bytes raw => Ok (subtleHexEqual (cp_sha checkpoint) (sha256_hex raw))
      | ShortRead => Ok false
      | ReadError e => Err e
      end.

(** ** Finding the file of a checkpoint *)

Record fileID : Set := MkID { fi_device : N; fi_inode : N }.

#[export] Instance fileID_eq : EqDecision fileID.
Proof. solve_decision. Defined.

(** A directory entry: its name, whether it is a directory, and the answer of
    Info with the identity the file system has for it. *)
Record DirEntry : Set := MkEntry {
  de_name : string;
  de_isDir : bool;
  de_info : result (result fileID)
}.

(** The first entry that has the identity. *)
Fixpoint find_entry (dir : string) (id : fileID) (entries : list DirEntry) : string :=
  match entries with
  | [] => ""
  | entry :: rest =>
      if de_isDir entry then find_entry dir id rest
      else match de_info entry with
           | Ok (Ok got) => if bool_decide (got = id) then Join dir (de_name entry) else find_entry dir id rest
           | _ => find_entry dir id rest
           end
  end.

Definition findFileByIdentity (path : string) (readDir : result (list DirEntry)) (id : fileID) : result string :=
  let? entries := readDir in
  Ok (find_entry (Dir path) id entries).

Definition accessErrorCode (err : error) : string :=
  if errorsIs err SNotExist then "access_file_missing"
  else if errorsIs err SFull then "event_spool_full" else "access_read_failed".

(** ** A pass *)

(** What the calls of one pass to the outside answer: Stat, ReadDir, Open for
    the anchor and Open for draining; whether the context has ended, and the
    clock, at each turn of the loop that drains a file. *)
Record Pass : Type := MkPass {
  ps_stat : result (Z * result fileID);
  ps_readDir : result (list DirEntry);
  ps_anchor : string -> result LogFile;
  ps_open : string -> result LogFile;
  ps_ctx : string -> nat -> option error;
  ps_clock : string -> nat -> Z;
  ps_gap : Z * Z;
  ps_now : Z
}.

Section collector.
Context `{Bolt} `{UnicodeTables}.
Variables (st : Store) (location : Location) (path : string).

(** The body of the loop of [drain] for a complete line, with the checkpoint
    after it. *)
Definition store_line (line : boundedAccessLine) (checkpoint : AccessCheckpoint) (now : Z) (db : DB) :
  DB * result unit :=
if bl_tooLong line then
  SetCheckpoint accessCheckpointKey checkpoint (RecordError "access_line_too_long" now db).1
else match parseAccessLine location (TrimSuffix (bl_data line) (String newline "")) with
     | Ok (Some event) =>
         match EnqueueWithCheckpoint st EventKindAccess (pa_at event) (marshal_access (pa_payload event))
                 accessCheckpointKey checkpoint db with
         | (db, Ok _) => (db, Ok tt)
         | (db, Err e) => (db, Err e)
         end
     | Ok None => SetCheckpoint accessCheckpointKey checkpoint db
     | Err _ => SetCheckpoint accessCheckpointKey checkpoint (RecordError "access_parse_failed" now db).1
     end.

Fixpoint drain_lines (fuel : nat) (turn : nat) (ctx : nat -> option error) (clock : nat -> Z)
  (err : option error) (rest : string) (checkpoint : AccessCheckpoint) (db : DB) : DB * result bool :=
match fuel with
| O => (db, Err out_of_fuel)
| S fuel =>
    match ctx turn with
    | Some e => (db, Err e)
    | None =>
        match readBoundedAccessLine err rest with
        | Err e => (db, Err e)
        | Ok (line, rest') =>
            if negb (bl_complete line) then (db, Ok (bl_read line =? 0)%Z)
            else
              let checkpoint' :=
                checkpointWithLineAnchor (with_offset checkpoint (cp_offset checkpoint + bl_read line)) (bl_anchor line) in
              match store_line line checkpoint' (clock turn) db with
              | (db, Err e) => (db, Err e)
              | (db, Ok _) => drain_lines fuel (S turn) ctx clock err rest' checkpoint' db
              end
        end
    end
end.

Definition drain (ps : Pass) (path : string) (checkpoint : AccessCheckpoint) (db : DB) : DB * result bool :=
match ps_open ps path with
| Err e => (db, Err e)
| Ok file =>
    match lf_seek file with
    | Some e => (db, Err e)
    | None =>
        if (cp_offset checkpoint <? 0)%Z then (db, Err (errorsNew "invalid argument"))
        else
          let rest := sdrop (Z.to_nat (cp_offset checkpoint)) (lf_bytes file) in
          drain_lines (S (String.length rest)) 0 (ps_ctx ps path) (ps_clock ps path) (lf_err file) rest checkpoint db
    end
end.

Definition drained (r : DB * result bool) : DB * result unit :=
match r with (db, Ok _) => (db, Ok tt) | (db, Err e) => (db, Err e) end.

(** The file that was the log when the checkpoint was stored, if it is still
    there and still holds the bytes before the offset. *)
Definition rotatedFile (ps : Pass) (checkpoint : AccessCheckpoint) (db : DB) : DB * result string :=
match findFileByIdentity path (ps_readDir ps) (MkID (cp_device checkpoint) (cp_inode checkpoint)) with
| Err e => (db, Err e)
| Ok rotated =>
    if bool_decide (rotated = "") then (db, Ok "")
    else match checkpointAnchorMatches (ps_anchor ps rotated) checkpoint with
         | Err e => (db, Err e)
         | Ok true => (db, Ok rotated)
         | Ok false => ((RecordError "access_rotation_gap" (ps_gap ps).1 db).1, Ok "")
         end
end.

(** The log is another file now. *)
Definition afterRotation (ps : Pass) (current : fileID) (checkpoint : AccessCheckpoint) (db : DB) : DB * result unit :=
let switch db :=
  let checkpoint := MkCheckpoint (fi_device current) (fi_inode current) 0 0 "" true in
  match SetCheckpoint accessCheckpointKey checkpoint db with
  | (db, Err e) => (db, Err e)
  | (db, Ok _) => drained (drain ps path checkpoint db)
  end in
match rotatedFile ps checkpoint db with
| (db, Err e) => (db, Err e)
| (db, Ok rotated) =>
    if bool_decide (rotated = "") then switch (RecordError "access_rotation_gap" (ps_gap ps).2 db).1
    else match drain ps rotated checkpoint db with
         | (db, Err e) => (db, Err e)
         | (db, Ok false) => (db, Ok tt)
         | (db, Ok true) => switch db
         end
end.

(** The log is the file of the checkpoint: it is read on, or from the start if
    it was truncated. *)
Definition sameFile (ps : Pass) (size : Z) (checkpoint : AccessCheckpoint) (db : DB) : DB * result unit :=
match checkpointAnchorMatches (ps_anchor ps path) checkpoint with
| Err e => (db, Err e)
| Ok anchorOK =>
    if (size <? cp_offset checkpoint)%Z || negb anchorOK then
      let checkpoint := MkCheckpoint (cp_device checkpoint) (cp_inode checkpoint) 0 0 "" (cp_init checkpoint) in
      match SetCheckpoint accessCheckpointKey checkpoint db with
      | (db, Err e) => (db, Err e)
      | (db, Ok _) => drained (drain ps path checkpoint db)
      end
    else drained (drain ps path checkpoint db)
end.

Definition collectOnce (ps : Pass) (db : DB) : DB * result unit :=
match ps_stat ps with
| Err e => (db, Err e)
| Ok (_, Err e) => (db, Err e)
| Ok (size, Ok current) =>
    match Checkpoint accessCheckpointKey db with
    | Ok checkpoint =>
        if bool_decide (MkID (cp_device checkpoint) (cp_inode checkpoint) = current)
        then sameFile ps size checkpoint db
        else afterRotation ps current checkpoint db
    | Err e =>
        if errorsIs e SNotExist then
          match checkpointWithFileAnchor (ps_anchor ps path)
                  (MkCheckpoint (fi_device current) (fi_inode current) size 0 "" true) with
          | Err e => (db, Err e)
          | Ok checkpoint => SetCheckpoint accessCheckpointKey checkpoint db
          end
        else (db, Err e)
    end
end.

Definition collect_access (ps : Pass) (db : DB) : DB :=
match collectOnce ps db with
| (db, Ok _) => db
| (db, Err e) =>
    if negb (errorsIs e SNotExist) && negb (errorsIs e SFull)
    then (RecordError (accessErrorCode e) (ps_now ps) db).1 else db
end.
End collector.
