(* ===== verification/AccessProofs.v ===== *)
(** * What the access collector guarantees

    [readBoundedAccessLine] is compared with a definition that sees the whole
    file at once; a pass over a file is shown to hand exactly the lines between
    the old and the new checkpoint to the spool, whatever fails, and a pass that
    nothing disturbs to reach the end of the file. *)

From stdpp Require Import base gmap strings list fin_maps.
From Stdlib Require Import ZArith NArith Ascii.
From S2P Require Import Prelude.
From S2P Require Import GoStrings.
From S2P Require Import Sha256.
From S2P Require Import Json.
From S2P Require Import Bolt.
From S2P Require Import Events.
From S2P Require Import EventSpool.
From S2P Require Import SpoolProofs.
From S2P Require Import SpoolTheorems.
From S2P Require Import Net.
From S2P Require Import Regexp.
From S2P Require Import Fields.
From S2P Require Import AccessLine.
From S2P Require Import Access.

(** ** Reading a line, at once *)

Definition last_bytes (s : string) : string := sdrop (String.length s - N.to_nat anchorBytes) s.

(** The line that ends a text so far. *)
Definition the_line (s : string) (complete : bool) : boundedAccessLine :=
  let tooLong := (maxAccessLineBytes <? Z.of_N (slen s))%Z in
  MkLine (if tooLong then "" else s) (last_bytes s) (Z.of_N (slen s)) complete tooLong.

(** The text up to the first newline is the line, with it; without a newline
    the rest of the file is an incomplete line. *)
Definition line_spec (err : option error) (s : string) : result (boundedAccessLine * string) :=
  match cut_first newline s with
  | Some (before, rest) => Ok (the_line (before +:+ String newline "") true, rest)
  | None => match err with None => Ok (the_line s false, "") | Some e => Err e end
  end.

Lemma sdrop_length n s : String.length (sdrop n s) = (String.length s - n)%nat.
Proof. revert s. induction n as [|n IH]; intros [|c s]; simpl; [done..|]. by rewrite IH. Qed.

Lemma sdrop_app_le n s t : (n <= String.length s)%nat -> sdrop n (s +:+ t) = sdrop n s +:+ t.
Proof.
  revert s. induction n as [|n IH]; intros [|c s] Hn; simpl in *; [done..|lia|].
  apply IH. lia.
Qed.

Lemma sdrop_app_ge n s t : (String.length s <= n)%nat -> sdrop n (s +:+ t) = sdrop (n - String.length s) t.
Proof.
  revert s. induction n as [|n IH]; intros [|c s] Hn; simpl in *; [done|lia|done|].
  apply IH. lia.
Qed.

Lemma sdrop_sdrop n m s : sdrop n (sdrop m s) = sdrop (m + n) s.
Proof. revert s. induction m as [|m IH]; intros [|c s]; simpl; try done. by destruct n. Qed.

(** The anchor of a line read in fragments is that of the whole. *)
Lemma appendAccessAnchor_last p f : appendAccessAnchor (last_bytes p) f = last_bytes (p +:+ f).
Proof.
  unfold appendAccessAnchor, last_bytes, anchorBytes, slen. rewrite sdrop_length, slength_app.
  destruct (N.leb_spec 64 (N.of_nat (String.length f))) as [Hf|Hf].
  - rewrite sdrop_app_ge by lia. f_equal. lia.
  - rewrite sdrop_app_le by lia. change (N.to_nat 64) with 64%nat.
    destruct (Z.ltb_spec 0 (Z.of_N (N.of_nat (String.length p - (String.length p - 64))) +
      Z.of_N (N.of_nat (String.length f)) - Z.of_N 64)) as [Ho|Ho].
    + rewrite sdrop_sdrop. f_equal. f_equal. lia.
    + f_equal. f_equal. lia.
Qed.

Lemma no_line_the_line : no_line = the_line "" false.
Proof. done. Qed.

Lemma add_fragment_line p f : add_fragment (the_line p false) f = the_line (p +:+ f) false.
Proof.
  unfold add_fragment, the_line. cbn [bl_tooLong bl_data bl_anchor bl_read].
  rewrite appendAccessAnchor_last, slen_app. unfold maxAccessLineBytes.
  assert (Z.of_N (slen p) + Z.of_N (slen f) = Z.of_N (slen p + slen f))%Z as -> by lia.
  destruct (Z.ltb_spec 65536 (Z.of_N (slen p))), (Z.ltb_spec 65536 (Z.of_N (slen p + slen f))); done || lia.
Qed.

Lemma cut_first_spec c s :
  match cut_first c s with
  | Some (x, y) => s = x +:+ String c y /\ no_char c x
  | None => no_char c s
  end.
Proof.
  induction s as [|a s IH]; simpl; [done|]. case_bool_decide as E; [by subst|].
  destruct (cut_first c s) as [[x y]|]; [|by apply no_char_cons].
  destruct IH as [-> Hx]. split; [done|]. by apply no_char_cons.
Qed.

Lemma cut_first_app c x y : no_char c x -> cut_first c (x +:+ String c y) = Some (x, y).
Proof.
  induction x as [|a x IH]; intros Hx.
  - rewrite app_Empty. simpl. by rewrite bool_decide_true.
  - apply no_char_cons in Hx as [Ha Hx]. rewrite app_String. simpl. by rewrite bool_decide_false, IH.
Qed.

Lemma cut_first_prefix c p s : no_char c p ->
  cut_first c (p +:+ s) = match cut_first c s with Some (x, y) => Some (p +:+ x, y) | None => None end.
Proof.
  induction p as [|a p IH]; intros Hp.
  - rewrite app_Empty. destruct (cut_first c s) as [[x y]|]; done.
  - apply no_char_cons in Hp as [Ha Hp]. rewrite app_String. simpl. rewrite bool_decide_false, IH by done.
    by destruct (cut_first c s) as [[x y]|].
Qed.

(** One fragment: up to the newline, or as much as the buffer holds. *)
Lemma read_slice_spec room err s :
  match read_slice room err s with
  | (f, rest, Found) => exists x, f = x +:+ String newline "" /\ no_char newline x /\ s = f +:+ rest
  | (f, rest, BufferFull) => no_char newline f /\ s = f +:+ rest /\ String.length f = room
  | (f, rest, AtEOF) => no_char newline f /\ s = f /\ rest = "" /\ err = None
  | (f, rest, Failed e) => no_char newline s /\ err = Some e
  end.
Proof.
  revert s. induction room as [|room IH]; intros s; [done|]. destruct s as [|c s]; simpl.
  { by destruct err. }
  case_bool_decide as E; [subst; by exists ""|]. specialize (IH s).
  destruct (read_slice room err s) as [[f rest] [| | |e]].
  - destruct IH as (x & -> & Hx & ->). exists (String c x). split_and!; [done| |done]. by apply no_char_cons.
  - destruct IH as (Hf & -> & Hl). split_and!; [by apply no_char_cons|done|simpl; by rewrite Hl].
  - destruct IH as (Hf & -> & -> & ->). split_and!; [by apply no_char_cons|done..].
  - destruct IH as (Hs & ->). split; [by apply no_char_cons|done].
Qed.

Lemma read_fragments_spec fuel err p s : no_char newline p -> (String.length s < fuel)%nat ->
  read_fragments fuel err (the_line p false) s =
  match cut_first newline s with
  | Some (before, rest) => Ok (the_line (p +:+ before +:+ String newline "") true, rest)
  | None => match err with None => Ok (the_line (p +:+ s) false, "") | Some e => Err e end
  end.
Proof.
  revert p s. induction fuel as [|fuel IH]; intros p s Hp Hf; [lia|]. cbn [read_fragments].
  pose proof (read_slice_spec readerSize err s) as Hr.
  destruct (read_slice readerSize err s) as [[f rest] [| | |e]]; cbv zeta; rewrite ?add_fragment_line.
  - destruct Hr as (x & -> & Hx & ->). rewrite sapp_assoc, app_String, app_Empty, cut_first_app by done. done.
  - destruct Hr as (Hf' & -> & Hl). rewrite IH.
    + rewrite cut_first_prefix by done. destruct (cut_first newline rest) as [[b r]|]; by rewrite !sapp_assoc.
    + by apply no_char_app.
    + rewrite slength_app in Hf. assert (0 < readerSize)%nat by (vm_compute; lia). lia.
  - destruct Hr as (Hf' & -> & -> & ->). pose proof (cut_first_spec newline f) as Hc.
    destruct (cut_first newline f) as [[b r]|]; [|done]. destruct Hc as [-> _].
    apply no_char_app in Hf' as [_ [Hn _]%no_char_cons]. done.
  - destruct Hr as [Hs ->]. pose proof (cut_first_spec newline s) as Hc.
    destruct (cut_first newline s) as [[b r]|]; [|done]. destruct Hc as [-> _].
    apply no_char_app in Hs as [_ [Hn _]%no_char_cons]. done.
Qed.

Lemma read_line err s : readBoundedAccessLine err s = line_spec err s.
Proof.
  unfold readBoundedAccessLine, line_spec. rewrite no_line_the_line, read_fragments_spec by (done || lia).
  destruct (cut_first newline s) as [[b r]|]; by rewrite ?app_Empty.
Qed.

(** C33: reading a line through the bounded buffer, fragment by fragment, is
    cutting the file at the first newline: the same bytes are consumed, the
    data is the line unless it is over the limit, the anchor is the last bytes
    of the line; and it always comes to an end. *)
Theorem readBoundedAccessLine_spec err s : readBoundedAccessLine err s = line_spec err s.
Proof. apply read_line. Qed.

(** ** The lines of a file *)

(** The complete lines of a text, newlines included, and what is left. *)
Fixpoint lines (s : string) : list string * string :=
  match s with
  | "" => ([], "")
  | String c r =>
      let '(ls, tail) := lines r in
      if bool_decide (c = newline) then (String c "" :: ls, tail)
      else match ls with
           | [] => ([], String c tail)
           | l :: ls => (String c l :: ls, tail)
           end
  end.

Lemma lines_cut s :
  lines s = match cut_first newline s with
            | Some (before, rest) => ((before +:+ String newline "") :: (lines rest).1, (lines rest).2)
            | None => ([], s)
            end.
Proof.
  induction s as [|c s IH]; [done|]. cbn [lines cut_first]. case_bool_decide as E.
  - subst. rewrite app_Empty. by destruct (lines s).
  - rewrite IH. by destruct (cut_first newline s) as [[b r]|].
Qed.

Lemma lines_text s : s = foldr String.append "" (lines s).1 +:+ (lines s).2.
Proof.
  induction s as [|c s IH]; [done|]. cbn [lines]. destruct (lines s) as [ls tail]. simpl in IH.
  case_bool_decide; [|destruct ls as [|l ls]]; simpl in *; by rewrite ?app_Empty, IH.
Qed.

(** ** What the collector makes of the lines *)

Definition content (e : Event) : string * Z * string := (ev_kind e, ev_at e, ev_payload e).

Section spec.
Context `{UnicodeTables}.
Variable location : Location.

(** The event of a line, if it has one. *)
Definition line_event (line : string) : option (string * Z * string) :=
if (maxAccessLineBytes <? Z.of_N (slen line))%Z then None
else match parseAccessLine location (TrimSuffix line (String newline "")) with
     | Ok (Some p) => Some (EventKindAccess, UnixMilli (pa_at p), obj (access_members (pa_payload p)))
     | _ => None
     end.
End spec.

(** The checkpoint after one more line. *)
Definition next_checkpoint (c : AccessCheckpoint) (line : string) : AccessCheckpoint :=
  checkpointWithLineAnchor (with_offset c (cp_offset c + Z.of_N (slen line))) (last_bytes line).

Lemma next_checkpoint_offset c line : cp_offset (next_checkpoint c line) = (cp_offset c + Z.of_N (slen line))%Z.
Proof. done. Qed.

Lemma slen_last line : (slen (last_bytes line) <= slen line)%N.
Proof. unfold slen, last_bytes. rewrite sdrop_length. lia. Qed.

Lemma next_checkpoint_ok c line : checkpoint_ok c -> (0 <= cp_offset c)%Z ->
  is_i64 (cp_offset c + Z.of_N (slen line)) -> checkpoint_ok (next_checkpoint c line).
Proof.
  intros (Hd & Hi & Ho & Ha & Hs) H0 Hl. unfold next_checkpoint, checkpointWithLineAnchor.
  set (l := if (_ <? _)%N then _ else _).
  assert (slen l <= slen line)%N as Hle.
  { unfold l. case_match; [|apply slen_last]. unfold slen. rewrite sdrop_length.
    pose proof (slen_last line). unfold slen in *. lia. }
  unfold checkpoint_ok. cbn. split_and!; try done; unfold is_i64 in *; try lia.
  apply is_ascii_ValidString. eapply sforall_impl; [|apply sha256_hex_lower].
  intros c'. by destruct c' as [[] [] [] [] [] [] [] []].
Qed.

Section drain.
Context `{BL : BoltLaws} `{UT : UnicodeTables}.
Variables (st : Store) (location : Location).
Hypothesis Hzone : zone_ok location.

(** Where the collector and the spool stand: a history of operations leads to
    the database, and the checkpoint is stored. *)
Definition stands (db0 : DB) (sp0 : spool) (h : list Event) (c : AccessCheckpoint) (db : DB) : Prop :=
run st db0 h db /\ represents (stored db0) sp0 /\ store_ok st sp0 /\
Checkpoint accessCheckpointKey db = Ok c /\ checkpoint_ok c /\ (0 <= cp_offset c)%Z.

Lemma stands_spool db0 sp0 h c db : is_u64 (next sp0 + N.of_nat (length h) + 1) -> stands db0 sp0 h c db ->
  exists sp, represents (stored db) sp /\ store_ok st sp /\ next sp = (next sp0 + N.of_nat (length h))%N.
Proof.
  intros Hu (Hrun & Hr & Hst & _). destruct (run_queue st sp0 db0 h db Hr Hst Hu Hrun) as (sp & Hr' & Hd).
  exists sp. split; [done|]. split; [|by apply delivers_next].
  destruct Hd as (k & _ & _ & _ & Hn & _). unfold store_ok in *. by rewrite Hn.
Qed.

(** An error noted on the way changes nothing of this. *)
Lemma stands_error db0 sp0 h c db code now : is_u64 (next sp0 + N.of_nat (length h) + 1) ->
  stands db0 sp0 h c db -> stands db0 sp0 h c (RecordError code now db).1.
Proof.
  intros Hu Hs. destruct (stands_spool _ _ _ _ _ Hu Hs) as (sp & Hr & _).
  destruct Hs as (Hrun & Hr0 & Hst & Hc & Hok). refine (conj (run_error _ _ _ _ _ _ Hrun) (conj Hr0 (conj Hst (conj _ Hok)))).
  rewrite (Checkpoint_same accessCheckpointKey db); [done|apply Hr|]. by apply (RecordError_stored _ _ sp).
Qed.

Lemma stands_set db0 sp0 h c c' db : is_u64 (next sp0 + N.of_nat (length h) + 1) ->
  stands db0 sp0 h c db -> checkpoint_ok c' -> (0 <= cp_offset c')%Z ->
  match SetCheckpoint accessCheckpointKey c' db with
  | (db', Ok _) => stands db0 sp0 h c' db'
  | (db', Err _) => stands db0 sp0 h c db'
  end.
Proof.
  intros Hu Hs Hc' H0'. destruct (stands_spool _ _ _ _ _ Hu Hs) as (sp & Hr & _).
  destruct Hs as (Hrun & Hr0 & Hst & Hc & Hok & H0).
  pose proof (run_set st db0 h db accessCheckpointKey c' Hrun) as Hrun'.
  pose proof (SetCheckpoint_stores accessCheckpointKey c' sp db Hr Hc') as Ho.
  destruct (SetCheckpoint _ _ _) as [db' [[]|e]]; simpl in Hrun'.
  - exact (conj Hrun' (conj Hr0 (conj Hst (conj (proj2 Ho) (conj Hc' H0'))))).
  - refine (conj Hrun' (conj Hr0 (conj Hst (conj _ (conj Hok H0))))). rewrite (Checkpoint_same accessCheckpointKey db); [done|apply Hr|by rewrite Ho].
Qed.

Lemma marshalled_access e : marshalled (marshal_access e).
Proof. destruct (marshal_access_ok e) as (raw & [= <-] & Hj & Hc & _). by split. Qed.

Lemma parsed_at_i64 line p : parseAccessLine location line = Ok (Some p) -> is_i64 (UnixMilli (pa_at p)).
Proof.
  unfold parseAccessLine. destruct (FindStringSubmatch _ _) as [m|]; [|done].
  intros (t & Ht & (s & _ & (g & _ & (i & _ & (o & _ & Hp)%rbind_Ok)%rbind_Ok)%rbind_Ok)%rbind_Ok)%rbind_Ok.
  destruct (bool_decide _ && _); [done|]. apply rbind_Ok in Hp as (email & _ & [= <-]).
  by eapply parsed_time_i64.
Qed.

(** Why an event is refused: it is too old, or too big for the spool. *)
Definition refused (db : DB) (ev : string * Z * string) : Prop :=
let '(kind, at_, payload) := ev in
(at_ <= 0)%Z \/ (MaxEventBytes < slen payload)%N \/
exists sp, represents (stored db) sp /\ ~ fits st sp (new_event st (next sp) (sp_stream sp) kind at_ payload).

(** One line: its event and the checkpoint after it, or nothing. *)
Lemma store_line_stands db0 sp0 h c db line now :
  let ev := line_event location line in
  is_u64 (next sp0 + N.of_nat (length h) + 1) -> stands db0 sp0 h c db ->
  is_i64 (cp_offset c + Z.of_N (slen line)) ->
  match store_line st location (the_line line true) (next_checkpoint c line) now db with
  | (db', Ok _) => exists evs, stands db0 sp0 (h ++ evs) (next_checkpoint c line) db' /\
      content <$> evs = option_list ev
  | (db', Err _) => stands db0 sp0 h c db' /\ (~ BoltLive \/ exists x, ev = Some x /\ refused db x)
  end.
Proof.
  intros ev Hu Hs Hl. assert (ev = line_event location line) as Eev by done. clearbody ev.
  pose proof Hs as (_ & _ & _ & _ & Hok & H0').
  pose proof (next_checkpoint_ok c line Hok H0' Hl) as Hc'.
  assert (0 <= cp_offset (next_checkpoint c line))%Z as Hoff by (rewrite next_checkpoint_offset; lia).
  assert (forall db1, stands db0 sp0 h c db1 -> ev = None ->
    match SetCheckpoint accessCheckpointKey (next_checkpoint c line) db1 with
    | (db', Ok _) => exists evs, stands db0 sp0 (h ++ evs) (next_checkpoint c line) db' /\
        content <$> evs = option_list ev
    | (db', Err _) => stands db0 sp0 h c db' /\ (~ BoltLive \/ exists x, ev = Some x /\ refused db x)
    end) as Hskip.
  { intros db1 Hs1 ->. pose proof (stands_set _ _ _ _ _ _ Hu Hs1 Hc' Hoff) as Ho.
    destruct (stands_spool _ _ _ _ _ Hu Hs1) as (sp & Hr & _).
    destruct (SetCheckpoint _ _ _) as [db' [[]|e]] eqn:Es; [exists []; by rewrite app_nil_r|].
    split; [done|]. left. intros Hlive. destruct (SetCheckpoint_live accessCheckpointKey (next_checkpoint c line) sp db1)
      as [db2 E2]; [done|done|by vm_compute|done|]. congruence. }
  unfold store_line. cbn [the_line bl_tooLong bl_data]. unfold line_event in Eev.
  destruct (maxAccessLineBytes <? _)%Z; [apply Hskip; [by apply stands_error|exact Eev]|].
  destruct (parseAccessLine location _) as [[p|]|e] eqn:Ep;
    [|by apply Hskip|apply Hskip; [by apply stands_error|exact Eev]]. clear Hskip.
  destruct (stands_spool _ _ _ _ _ Hu Hs) as (sp & Hr & Hst & Hn).
  pose proof (checkpointed_step st sp EventKindAccess (pa_at p) (marshal_access (pa_payload p))
    accessCheckpointKey (next_checkpoint c line) db Hr Hst) as Ho.
  rewrite Hn in Ho. specialize (Ho Hu (parsed_at_i64 _ _ Ep) (marshalled_access _) Hc').
  destruct Hs as (Hrun & Hr0 & Hst0 & Hc & _).
  destruct (marshal_access_ok (pa_payload p)) as (raw & [= <-] & Hj & Hcm & Hne).
  pose proof (checkpointed_refused st sp EventKindAccess (pa_at p) (obj (access_members (pa_payload p))) accessCheckpointKey (next_checkpoint c line) db) as Hf.
  destruct (EnqueueWithCheckpoint _ _ _ _ _ _ _) as [db' r] eqn:Ee.
  pose proof (run_checkpoint st db0 h db _ _ _ _ _ _ _ Hrun (parsed_at_i64 _ _ Ep) (marshalled_access _) Ee) as Hrun'.
  destruct r as [e|err].
  - destruct Ho as (_ & Hc1 & raw & [= <-] & ->). eexists. rewrite Eev.
    split; [exact (conj Hrun' (conj Hr0 (conj Hst0 (conj Hc1 (conj Hc' Hoff)))))|done].
  - simpl in Hrun'. rewrite app_nil_r in Hrun'. split.
    + refine (conj Hrun' (conj Hr0 (conj Hst0 (conj _ (conj Hok H0'))))).
      rewrite (Checkpoint_same accessCheckpointKey db); [done|apply Hr|by rewrite Ho].
    + specialize (Hf err Hr Hst). cbv zeta in Hf. rewrite Hn in Hf. specialize (Hf Hu eq_refl (parsed_at_i64 _ _ Ep) Hj Hcm Hne).
      rewrite Eev. destruct Hf as [Hf'|[Hf'|[Hf'|Hf']]]; [done|done|by left|..]; right; eexists; (split; [done|]); unfold refused.
      * by left.
      * by right; left.
      * right; right. exists sp. split; [done|]. by rewrite Hn.
Qed.

(** A pass over a file: the events of the lines up to some point, which is the
    new checkpoint; the end of the file unless something failed. *)
Lemma drain_lines_stands fuel turn ctx clock err rest c db db0 sp0 h :
  (String.length rest < fuel)%nat ->
  is_u64 (next sp0 + N.of_nat (length h) + N.of_nat (length (lines rest).1) + 1) ->
  stands db0 sp0 h c db -> is_i64 (cp_offset c + Z.of_N (slen rest)) ->
  let '(db', r) := drain_lines st location fuel turn ctx clock err rest c db in
  exists past todo evs, (lines rest).1 = past ++ todo /\
    stands db0 sp0 (h ++ evs) (foldl next_checkpoint c past) db' /\
    content <$> evs = omap (line_event location) past /\
    match r with
    | Ok b => todo = [] /\ err = None /\ b = bool_decide ((lines rest).2 = "")
    | Err e => (exists i, ctx i = Some e) \/ err = Some e \/ ~ BoltLive \/
        exists line db1 x, head todo = Some line /\ line_event location line = Some x /\ refused db1 x
    end.
Proof.
  revert turn rest c db h. induction fuel as [|fuel IH]; intros turn rest c db h Hf Hu Hs Hi; [lia|].
  cbn [drain_lines]. destruct (ctx turn) as [e|] eqn:Ectx.
  { exists [], (lines rest).1, []. rewrite app_nil_r. split_and!; eauto. }
  rewrite read_line. unfold line_spec. pose proof (lines_cut rest) as Hlines.
  pose proof (cut_first_spec newline rest) as Hcut.
  destruct (cut_first newline rest) as [[before after]|] eqn:Ec.
  - set (line := before +:+ String newline "") in *.
    assert (rest = line +:+ after) as Erest by (destruct Hcut as [-> _]; unfold line; by rewrite sapp_assoc).
    rewrite Hlines in Hu |- *. cbn [fst length] in Hu |- *.
    cbv zeta beta iota. cbn [the_line bl_complete bl_read bl_anchor negb].
    fold (next_checkpoint c line). rewrite Erest, slen_app in Hi. pose proof Hs as (_ & _ & _ & _ & _ & H0').
    pose proof (store_line_stands db0 sp0 h c db line (clock turn)) as Ho. cbv zeta in Ho.
    destruct (store_line _ _ _ _ _ _) as [db1 [[]|e]].
    + destruct Ho as (evs & Hs1 & Hev); [unfold is_u64 in *; lia|done|unfold is_i64 in *; lia|].
      assert (length evs <= 1)%nat as Hlen.
      { rewrite <- (length_fmap content), Hev. destruct (line_event location line); simpl; lia. }
      assert (String.length after < fuel)%nat.
      { rewrite Erest in Hf. unfold line in Hf. rewrite !slength_app in Hf. simpl in Hf. lia. }
      specialize (IH (S turn) after (next_checkpoint c line) db1 (h ++ evs)).
      destruct (drain_lines _ _ _ _ _ _ _ _ _ _) as [db' r].
      destruct IH as (past & todo & evs' & E1 & Hs' & Hev' & Hr); [done| |done| |].
      { rewrite length_app. unfold is_u64 in *. lia. }
      { rewrite next_checkpoint_offset. unfold is_i64 in *. lia. }
      exists (line :: past), todo, (evs ++ evs'). cbn [snd]. split_and!; [by rewrite E1|by rewrite app_assoc| |done].
      rewrite fmap_app, Hev, Hev'. simpl. by destruct (line_event location line).
    + destruct Ho as [Hs1 Hwhy]; [unfold is_u64 in *; lia|done|unfold is_i64 in *; lia|].
      exists [], (line :: (lines after).1), []. rewrite app_nil_r. split_and!; try done.
      right; right. destruct Hwhy as [?|(x & Hx & Hrx)]; [by left|right]. eauto 10.
  - rewrite Hlines in Hu |- *. cbn [fst snd]. destruct err as [e|]; cbn [the_line bl_read bl_complete negb];
      exists [], [], []; (split; [done|]; split; [by rewrite app_nil_r|]; split; [done|]); [by right; left|].
    split; [done|]. split; [done|]. by destruct rest.
Qed.
End drain.
