(* ===== verification/AccessHistory.v ===== *)
(** * The access collector over the life of the log

    The log grows, is rotated and is collected, with failures anywhere and
    other producers using the spool in between.  The histories considered are
    those in which every rotation finds the collector's checkpoint in the file
    that is rotated away, and that file ended by a newline ([step_rotate]); in
    them every line gives its event exactly once, in order.  Without the first
    condition a file that is rotated away before the collector gets to it is
    skipped, and without the second the collector stays at the partial line
    ([partial_line_blocks]): both are findings. *)

From stdpp Require Import base gmap strings list fin_maps.
From Stdlib Require Import ZArith NArith Ascii.
From S2P Require Import Prelude.
From S2P Require Import GoStrings.
From S2P Require Import Sha256.
From S2P Require Import Bolt.
From S2P Require Import Events.
From S2P Require Import EventSpool.
From S2P Require Import SpoolProofs.
From S2P Require Import SpoolTheorems.
From S2P Require Import Net.
From S2P Require Import Fields.
From S2P Require Import AccessLine.
From S2P Require Import Access.
From S2P Require Import AccessProofs.

(** ** Lines again *)

Definition is_line (l : string) : Prop := exists x, l = x +:+ String newline "" /\ no_char newline x.
Definition text_of (ls : list string) : string := foldr String.append "" ls.

Lemma text_of_app a b : text_of (a ++ b) = text_of a +:+ text_of b.
Proof. induction a as [|x a IH]; [done|]. simpl. by rewrite IH, sapp_assoc. Qed.

Lemma lines_is_line s : Forall is_line (lines s).1 /\ no_char newline (lines s).2.
Proof.
  remember (String.length s) as n eqn:Hn. revert s Hn. induction (lt_wf n) as [n _ IH]. intros s ->.
  rewrite lines_cut. pose proof (cut_first_spec newline s) as Hc.
  destruct (cut_first newline s) as [[b r]|]; simpl; [|by split].
  destruct Hc as [-> Hb]. destruct (IH (String.length r)) with (s := r) as [IH1 IH2]; [|done|].
  { rewrite slength_app. simpl. lia. }
  split; [|done]. constructor; [by exists b|done].
Qed.

Lemma lines_line l r : is_line l -> lines (l +:+ r) = (l :: (lines r).1, (lines r).2).
Proof.
  intros (x & -> & Hx). rewrite lines_cut, sapp_assoc, app_String, app_Empty, cut_first_app by done. done.
Qed.

Lemma lines_lines ls r : Forall is_line ls -> lines (text_of ls +:+ r) = (ls ++ (lines r).1, (lines r).2).
Proof.
  induction 1 as [|l ls Hl _ IH]; [exact (surjective_pairing (lines r))|].
  cbn [text_of foldr]. rewrite sapp_assoc, lines_line by done. fold (text_of ls). by rewrite IH.
Qed.

Lemma lines_split s past todo : (lines s).1 = past ++ todo ->
  Forall is_line past /\ s = text_of past +:+ (text_of todo +:+ (lines s).2).
Proof.
  intros E. pose proof (lines_is_line s) as [Hl _]. rewrite E in Hl. apply Forall_app in Hl as [Hl _].
  split; [done|]. rewrite <- sapp_assoc, <- text_of_app, <- E. apply lines_text.
Qed.

Lemma text_of_length ls : (length ls <= String.length (text_of ls))%nat \/ ~ Forall is_line ls.
Proof.
  induction ls as [|l ls IH]; [left; simpl; lia|]. destruct IH as [IH|IH].
  - destruct l as [|c l].
    + right. intros [(x & Hx & _) _]%Forall_cons. by destruct x.
    + left. cbn [text_of foldr]. rewrite slength_app. simpl. fold (text_of ls). lia.
  - right. by intros [_ ?]%Forall_cons.
Qed.

(** ** Substrings *)

Lemma stake_app_le n s t : (n <= String.length s)%nat -> stake n (s +:+ t) = stake n s.
Proof.
  revert s. induction n as [|n IH]; intros [|c s] Hn; simpl in *; [done..|lia|]. rewrite IH by lia. done.
Qed.

Lemma stake_all s : stake (String.length s) s = s.
Proof. induction s as [|c s IH]; simpl; by rewrite ?IH. Qed.

Lemma stake_exact n s : (n <= String.length s)%nat -> String.length (stake n s) = n.
Proof. revert s. induction n as [|n IH]; intros [|c s] Hn; simpl in *; [done..|lia|]. rewrite IH by lia. done. Qed.

Lemma stake_sdrop n s : stake n s +:+ sdrop n s = s.
Proof. revert s. induction n as [|n IH]; intros [|c s]; simpl; [done..|]. by rewrite app_String, IH. Qed.

(** The bytes of a file that a checkpoint remembers. *)
Definition between (a b : nat) (s : string) : string := stake (b - a) (sdrop a s).

Lemma between_grow a b s t : (a <= b <= String.length s)%nat -> between a b (s +:+ t) = between a b s.
Proof. intros Hab. unfold between. rewrite sdrop_app_le by lia. apply stake_app_le. rewrite sdrop_length. lia. Qed.

(** ** A checkpoint in a file *)

Definition offset (c : AccessCheckpoint) : nat := Z.to_nat (cp_offset c).

Definition anchored (c : AccessCheckpoint) (s : string) : Prop :=
  (0 <= cp_offset c <= Z.of_N (slen s))%Z /\
  (cp_offset c = 0%Z \/ cp_sha c = "" \/
   exists k, (0 < k <= 64)%nat /\ (k <= offset c)%nat /\ cp_anchor c = (cp_offset c - Z.of_nat k)%Z /\
     cp_sha c = sha256_hex (between (offset c - k) (offset c) s)).

Lemma anchored_grow c s t : anchored c s -> anchored c (s +:+ t).
Proof.
  intros [Ho Ha]. split; [rewrite slen_app; lia|]. destruct Ha as [?|[?|(k & Hk & Hk' & Hc & Hs)]]; [by left|by right; left|].
  right; right. exists k. split_and!; try done; try lia. rewrite between_grow; [done|].
  unfold offset, slen in *. lia.
Qed.

(** What is left of a file from the offset on. *)
Definition ahead (c : AccessCheckpoint) (s : string) : string := sdrop (offset c) s.

Lemma last_bytes_between p l : (1 <= String.length l)%nat ->
  exists k, (0 < k <= 64)%nat /\ (k <= String.length l)%nat /\ String.length (last_bytes l) = k /\
    last_bytes l = between (String.length (p +:+ l) - k) (String.length (p +:+ l)) (p +:+ l).
Proof.
  intros Hl. exists (Nat.min 64 (String.length l)). unfold between, last_bytes. rewrite sdrop_length.
  change (N.to_nat anchorBytes) with 64%nat. split_and!; [lia..|].
  rewrite slength_app. rewrite sdrop_app_ge by lia.
  replace (String.length p + String.length l - Nat.min 64 (String.length l) - String.length p)%nat
    with (String.length l - 64)%nat by lia.
  replace (String.length p + String.length l - (String.length p + String.length l - Nat.min 64 (String.length l)))%nat
    with (String.length (sdrop (String.length l - 64) l)) by (rewrite sdrop_length; lia).
  by rewrite stake_all.
Qed.

Lemma next_checkpoint_eq c line :
  next_checkpoint c line = MkCheckpoint (cp_device c) (cp_inode c) (cp_offset c + Z.of_N (slen line))
    (cp_offset c + Z.of_N (slen line) - Z.of_N (slen (last_bytes line))) (sha256_hex (last_bytes line)) (cp_init c).
Proof.
  unfold next_checkpoint, checkpointWithLineAnchor. rewrite (proj2 (N.ltb_ge _ _)); [done|].
  unfold slen, last_bytes, anchorBytes. rewrite sdrop_length. lia.
Qed.

Lemma anchored_next c line rest s : anchored c s -> (1 <= String.length line)%nat -> ahead c s = line +:+ rest ->
  anchored (next_checkpoint c line) s /\ ahead (next_checkpoint c line) s = rest.
Proof.
  intros [Ho _] Hl Ha. unfold ahead in Ha. set (p := stake (offset c) s).
  assert (s = p +:+ line +:+ rest) as Es by (unfold p; by rewrite <- Ha, stake_sdrop).
  assert (String.length p = offset c) as Hp by (apply stake_exact; unfold offset, slen in *; lia).
  assert (offset (next_checkpoint c line) = String.length (p +:+ line)) as Ho'.
  { unfold offset. rewrite next_checkpoint_offset, slength_app, Hp. unfold offset, slen in *. lia. }
  split; [|unfold ahead; rewrite Ho', Es, <- sapp_assoc; apply sdrop_app].
  destruct (last_bytes_between p line Hl) as (k & Hk & Hk' & Hlen & Hb).
  split.
  { rewrite next_checkpoint_offset. rewrite Es, !slen_app. unfold offset, slen in *. lia. }
  right; right. exists k. split; [done|]. rewrite Ho', next_checkpoint_eq.
  cbn [cp_anchor cp_offset cp_sha].
  split; [rewrite slength_app; lia|]. split; [unfold slen; rewrite Hlen; lia|].
  rewrite Hb, Es, <- sapp_assoc. rewrite (between_grow _ _ (p +:+ line) rest); [done|lia].
Qed.

Lemma anchored_past c ls rest s : Forall is_line ls -> anchored c s -> ahead c s = text_of ls +:+ rest ->
  anchored (foldl next_checkpoint c ls) s /\ ahead (foldl next_checkpoint c ls) s = rest.
Proof.
  intros Hl. revert c. induction Hl as [|l ls Hl _ IH]; intros c Ha Hr; [done|].
  cbn [text_of foldr] in Hr. rewrite sapp_assoc in Hr.
  assert (1 <= String.length l)%nat as Hlen by (destruct Hl as (x & -> & _); rewrite slength_app; simpl; lia).
  destruct (anchored_next c l _ s Ha Hlen Hr) as [Ha' Hr']. by apply IH.
Qed.

Definition names (c : AccessCheckpoint) (id : fileID) : Prop := MkID (cp_device c) (cp_inode c) = id.

Lemma names_past c ls id : names c id -> names (foldl next_checkpoint c ls) id.
Proof. revert c. induction ls as [|l ls IH]; intros c Hn; [done|]. apply IH. rewrite next_checkpoint_eq. done. Qed.

(** ** What a pass sees *)

(** Opening fails, or delivers the file, or its first bytes and an error. *)
Definition opens (r : result LogFile) (s : string) : Prop :=
  match r with
  | Err _ => True
  | Ok f => match lf_err f with None => lf_bytes f = s | Some _ => exists x, s = lf_bytes f +:+ x end
  end.

Lemma hex_diff_eq a b : String.length a = String.length b -> (hex_diff a b = 0%N <-> a = b).
Proof.
  revert b. induction a as [|x a IH]; intros [|y b] Hl; try done. simpl in Hl. injection Hl as Hl.
  cbn [hex_diff]. rewrite N.lor_eq_0_iff, N.lxor_eq_0_iff, IH by done. split; [|by intros [= -> ->]].
  intros [Hc ->]. f_equal. rewrite <- (chr_code x), <- (chr_code y). by rewrite Hc.
Qed.

Lemma subtleHexEqual_eq a b : subtleHexEqual a b = bool_decide (a = b).
Proof.
  unfold subtleHexEqual. destruct (N.eqb_spec (slen a) (slen b)) as [E|E].
  - cbn [negb]. assert (String.length a = String.length b) as Hl by (unfold slen in E; lia).
    apply eq_true_iff_eq. rewrite N.eqb_eq, bool_decide_eq_true. by apply hex_diff_eq.
  - rewrite bool_decide_false; [done|]. by intros ->.
Qed.

(** The anchor of a checkpoint that belongs to the file is found there. *)
Lemma anchor_matches c s opened : anchored c s -> opens opened s ->
  checkpointAnchorMatches opened c = Ok true \/
  exists e, checkpointAnchorMatches opened c = Err e /\ ~ (exists f, opened = Ok f /\ lf_err f = None).
Proof.
  intros [Ho Ha] Hf. unfold checkpointAnchorMatches.
  destruct (Z.eqb_spec (cp_offset c) 0) as [|Hne]; [by left|]. case_bool_decide as Hsha; [by left|].
  destruct Ha as [?|[?|(k & Hk & Hk' & Hc & Hs)]]; [done..|]. rewrite Hc.
  cbn [orb]. replace (cp_offset c - (cp_offset c - Z.of_nat k))%Z with (Z.of_nat k) by lia.
  destruct (Z.leb_spec (Z.of_nat k) 0); [lia|].
  destruct (Z.ltb_spec (Z.of_N anchorBytes) (Z.of_nat k)); [unfold anchorBytes in *; lia|]. cbn [orb].
  destruct opened as [f|e]; [|right; exists e; split; [done|]; by intros (f & [=] & _)]. cbn [rbind].
  unfold ReadAt. unfold offset in *. destruct (Z.ltb_spec (cp_offset c - Z.of_nat k) 0); [lia|].
  assert (exists x, s = lf_bytes f +:+ x /\ (lf_err f = None -> x = "")) as (x & -> & Hx).
  { simpl in Hf. destruct (lf_err f); [destruct Hf as [x ->]; by exists x|]. exists "". by rewrite sapp_nil_r. }
  replace (Z.to_nat (cp_offset c - Z.of_nat k)) with (Z.to_nat (cp_offset c) - k)%nat by lia.
  replace (N.to_nat (Z.to_N (Z.of_nat k))) with (Z.to_nat (cp_offset c) - (Z.to_nat (cp_offset c) - k))%nat by lia.
  fold (between (Z.to_nat (cp_offset c) - k) (Z.to_nat (cp_offset c)) (lf_bytes f)).
  destruct (N.eqb_spec (slen (between (Z.to_nat (cp_offset c) - k) (Z.to_nat (cp_offset c)) (lf_bytes f))) (Z.to_N (Z.of_nat k))) as [El|El].
  - left. f_equal. rewrite subtleHexEqual_eq. apply bool_decide_eq_true. rewrite Hs. f_equal.
    apply between_grow. unfold between, slen in El.
    destruct (le_gt_dec (Z.to_nat (cp_offset c)) (String.length (lf_bytes f))) as [|Hgt]; [lia|]. exfalso.
    assert (String.length (stake (Z.to_nat (cp_offset c) - (Z.to_nat (cp_offset c) - k))
      (sdrop (Z.to_nat (cp_offset c) - k) (lf_bytes f))) <= String.length (sdrop (Z.to_nat (cp_offset c) - k) (lf_bytes f)))%nat as Hle.
    { rewrite <- (stake_sdrop (Z.to_nat (cp_offset c) - (Z.to_nat (cp_offset c) - k)) (sdrop _ _)) at 2.
      rewrite slength_app. lia. }
    rewrite sdrop_length in Hle. lia.
  - destruct (lf_err f) as [e|] eqn:Ef;
      [right; exists e; split; [done|]; intros (f' & [= <-] & Hn); congruence|]. rewrite Hx, sapp_nil_r in * by done. exfalso. apply El.
    unfold between, slen in *. rewrite stake_exact; [lia|]. rewrite sdrop_length. lia.
Qed.

(** ** One file *)

Lemma lines_none s : no_char newline s -> lines s = ([], s).
Proof.
  intros Hs. rewrite lines_cut. pose proof (cut_first_spec newline s) as Hc.
  destruct (cut_first newline s) as [[b r]|]; [|done]. destruct Hc as [-> _].
  apply no_char_app in Hs as [_ [Hn _]%no_char_cons]. done.
Qed.

Lemma lines_tail a s : (lines (a +:+ s)).2 = "" -> (lines s).2 = "".
Proof.
  induction a as [|c a IH]; [by rewrite app_Empty|]. rewrite app_String. cbn [lines].
  destruct (lines (a +:+ s)) as [ls tail]. case_bool_decide; [done|]. by destruct ls.
Qed.

Lemma length_lines s : (length (lines s).1 <= String.length s)%nat.
Proof.
  pose proof (lines_is_line s) as [Hl _]. destruct (text_of_length (lines s).1) as [H|H]; [|done].
  rewrite (lines_text s) at 2. rewrite slength_app. fold (text_of (lines s).1). lia.
Qed.

(** Nothing goes wrong with a file and its context. *)
Definition calm_file (opened : result LogFile) (ctx : nat -> option error) : Prop :=
  (exists f, opened = Ok f /\ lf_err f = None /\ lf_seek f = None) /\ forall i, ctx i = None.

Section files.
Context `{BL : BoltLaws} `{UT : UnicodeTables}.
Variables (st : Store) (location : Location) (path : string).
Hypothesis Hzone : zone_ok location.

(** The line that stands in the way. *)
Definition blocked (rest : string) : Prop :=
exists line db x, head (lines rest).1 = Some line /\ line_event location line = Some x /\ refused st db x.

Lemma drain_good ps p s c db db0 sp0 h :
  opens (ps_open ps p) s -> anchored c s -> stands st db0 sp0 h c db -> is_i64 (Z.of_N (slen s)) ->
  is_u64 (next sp0 + N.of_nat (length h) + N.of_nat (length (lines (ahead c s)).1) + 1) ->
  let '(db', r) := drain st location ps p c db in
  exists past rest evs, ahead c s = text_of past +:+ rest /\ Forall is_line past /\
    stands st db0 sp0 (h ++ evs) (foldl next_checkpoint c past) db' /\
    content <$> evs = omap (line_event location) past /\
    match r with
    | Ok b => (lines rest).1 = [] /\ b = bool_decide (rest = "")
    | Err e => ~ BoltLive \/ ~ calm_file (ps_open ps p) (ps_ctx ps p) \/ blocked rest
    end.
Proof.
  intros Hf Ha Hs Hi Hu. unfold drain.
  assert (forall e : error, ~ calm_file (ps_open ps p) (ps_ctx ps p) ->
    exists past rest evs, ahead c s = text_of past +:+ rest /\ Forall is_line past /\
    stands st db0 sp0 (h ++ evs) (foldl next_checkpoint c past) db /\
    content <$> evs = omap (line_event location) past /\
    (~ BoltLive \/ ~ calm_file (ps_open ps p) (ps_ctx ps p) \/ blocked rest)) as Hno.
  { intros _ Hc. exists [], (ahead c s), []. rewrite app_nil_r. split_and!; auto. }
  destruct (ps_open ps p) as [f|e] eqn:Eo; [|apply (Hno e); by intros [(f & [=] & _) _]].
  destruct (lf_seek f) as [e|] eqn:Ek; [apply (Hno e); intros [(f' & [= <-] & _ & Hk) _]; congruence|].
  destruct Ha as [Ho _]. destruct (Z.ltb_spec (cp_offset c) 0) as [|_]; [lia|].
  fold (offset c). set (rest0 := sdrop (offset c) (lf_bytes f)).
  assert (exists x, ahead c s = rest0 +:+ x /\ (lf_err f = None -> x = "")) as (x & Hx & Hx0).
  { unfold rest0, ahead. cbn [opens] in Hf. destruct (lf_err f) as [e|]; [|exists ""; split; [by rewrite Hf, sapp_nil_r|done]].
    destruct Hf as [x ->]. destruct (le_gt_dec (offset c) (String.length (lf_bytes f))) as [Hle|Hgt].
    - exists x. by rewrite sdrop_app_le.
    - exists (sdrop (offset c) (lf_bytes f +:+ x)). split; [|done]. assert (sdrop (offset c) (lf_bytes f) = "") as ->; [|done].
      pose proof (sdrop_length (offset c) (lf_bytes f)) as Hl. destruct (sdrop _ (lf_bytes f)); [done|simpl in Hl; lia]. }
  assert (exists more, (lines (ahead c s)).1 = (lines rest0).1 ++ more) as [more Hmore].
  { assert (rest0 +:+ x = text_of (lines rest0).1 +:+ ((lines rest0).2 +:+ x)) as E
      by (rewrite <- sapp_assoc; f_equal; apply lines_text).
    rewrite Hx, E, lines_lines by apply lines_is_line. by eexists. }
  rewrite Hmore, length_app in Hu.
  pose proof (drain_lines_stands st location Hzone (S (String.length rest0)) 0 (ps_ctx ps p) (ps_clock ps p) (lf_err f) rest0 c db db0 sp0 h) as Hd.
  destruct (drain_lines _ _ _ _ _ _ _ _ _ _) as [db' r].
  destruct Hd as (past & todo & evs & Hl & Hs' & Hev & Hr); [lia|unfold is_u64 in *; lia|done| |].
  { apply (f_equal slen) in Hx. rewrite slen_app in Hx. unfold ahead, slen in *. rewrite sdrop_length in Hx.
    unfold offset, is_i64 in *. lia. }
  destruct (lines_split rest0 past todo Hl) as [Hpast Etext].
  exists past, (text_of todo +:+ (lines rest0).2 +:+ x), evs.
  split; [rewrite Hx, <- !sapp_assoc; f_equal; by rewrite sapp_assoc|]. split; [done|]. split; [done|]. split; [done|].
  destruct r as [b|e].
  - destruct Hr as (-> & He & ->). rewrite Hx0, sapp_nil_r by done. cbn [text_of foldr]. rewrite app_Empty.
    rewrite lines_none by apply lines_is_line. done.
  - destruct Hr as [[i Hi']|[He|[Hb|(line & db1 & y & Hh & Hy & Hr)]]].
    + right; left. intros [_ Hc]. by rewrite Hc in Hi'.
    + right; left. intros [(f' & [= <-] & Hn & _) _]. congruence.
    + by left.
    + right; right. exists line, db1, y. split; [|done].
      assert (Forall is_line todo) as Htodo by (pose proof (lines_is_line rest0) as [Hall _]; rewrite Hl in Hall; by apply Forall_app in Hall as [_ Hall]).
      rewrite lines_lines by done. cbn [fst]. destruct todo; [done|]. done.
Qed.

(** ** The log and the spool *)

(** The file that was rotated away last, the file at the path, all that was
    written from the first checkpoint on, the events other producers had
    accepted, and the database of the spool. *)
Record world : Type := World {
  w_old : option (fileID * string);
  w_id : fileID;
  w_bytes : string;
  w_text : string;
  w_others : nat;
  w_db : DB
}.

Definition id_ok (id : fileID) : Prop := is_u64 (fi_device id) /\ is_u64 (fi_inode id).

(** What the calls of a pass find: the file at the path, and the rotated file
    as long as the checkpoint names it. *)
Record sees (w : world) (ps : Pass) : Prop := Sees {
  se_stat size id : ps_stat ps = Ok (size, Ok id) -> id = w_id w /\ size = Z.of_N (slen (w_bytes w));
  se_anchor : opens (ps_anchor ps path) (w_bytes w);
  se_open : opens (ps_open ps path) (w_bytes w);
  se_old id s c es : w_old w = Some (id, s) -> Checkpoint accessCheckpointKey (w_db w) = Ok c -> names c id ->
    ps_readDir ps = Ok es ->
    exists r, find_entry (Dir path) id es = r /\ r <> "" /\ opens (ps_anchor ps r) s /\ opens (ps_open ps r) s
}.

(** What happens between two passes.  A rotation is one that the collector can
    follow: its checkpoint names the file at the path, so that the rotated file
    is the only one it has to look for, and that file ends with a whole line. *)
Inductive step : world -> world -> Prop :=
| step_write w x : is_i64 (Z.of_N (slen (w_bytes w +:+ x))) ->
    step w (World (w_old w) (w_id w) (w_bytes w +:+ x) (w_text w +:+ x) (w_others w) (w_db w))
| step_rotate w c id : Checkpoint accessCheckpointKey (w_db w) = Ok c -> names c (w_id w) ->
    (lines (w_bytes w)).2 = "" -> id <> w_id w -> id_ok id ->
    step w (World (Some (w_id w, w_bytes w)) id "" (w_text w) (w_others w) (w_db w))
| step_pass w ps : sees w ps ->
    step w (World (w_old w) (w_id w) (w_bytes w) (w_text w) (w_others w) (collect_access st location path ps (w_db w)))
| step_others w h db : run st (w_db w) h db -> Forall (fun e => ev_kind e <> EventKindAccess) h ->
    Checkpoint accessCheckpointKey db = Checkpoint accessCheckpointKey (w_db w) ->
    step w (World (w_old w) (w_id w) (w_bytes w) (w_text w) (w_others w + length h) db).

(** The events of the access log among all. *)
Definition access_events (h : list Event) : list (string * Z * string) :=
content <$> filter (fun e => ev_kind e = EventKindAccess) h.

(** Where the checkpoint stands, and what is still to be read. *)
Inductive placed (w : world) (c : AccessCheckpoint) : string -> Prop :=
| on_current : names c (w_id w) -> anchored c (w_bytes w) -> placed w c (ahead c (w_bytes w))
| on_old id s : w_old w = Some (id, s) -> id <> w_id w -> names c id -> anchored c s ->
    is_i64 (Z.of_N (slen s)) -> (lines (ahead c s)).2 = "" -> placed w c (ahead c s +:+ w_bytes w).

(** Sizes and identities fit their types. *)
Definition sized (w : world) : Prop := is_i64 (Z.of_N (slen (w_bytes w))) /\ id_ok (w_id w).

Lemma run_app db0 h db1 h' db2 : run st db0 h db1 -> run st db1 h' db2 -> run st db0 (h ++ h') db2.
Proof.
  intros H1 H2. induction H2; rewrite ?app_nil_r, ?app_assoc; eauto using @run.
Qed.

Lemma access_events_app h h' : access_events (h ++ h') = access_events h ++ access_events h'.
Proof. unfold access_events. by rewrite filter_app, fmap_app. Qed.

Lemma filter_Forall {A} (P : A -> Prop) `{!forall x, Decision (P x)} l : Forall P l -> filter P l = l.
Proof. induction 1 as [|x l Hx _ IH]; [done|]. by rewrite filter_cons_True, IH. Qed.

Lemma length_omap_le {A B} (f : A -> option B) l : (length (omap f l) <= length l)%nat.
Proof.
  induction l as [|x l IH]; [done|].
  change (omap f (x :: l)) with (match f x with Some y => y :: omap f l | None => omap f l end).
  destruct (f x); simpl; lia.
Qed.

Lemma line_events_access ls evs : content <$> evs = omap (line_event location) ls ->
  access_events evs = omap (line_event location) ls /\ (length evs <= length ls)%nat.
Proof.
  intros E. split.
  - rewrite <- E. unfold access_events. f_equal. apply filter_Forall, Forall_forall.
    intros e Hi. assert (content e ∈ omap (line_event location) ls) as Hx.
    { rewrite <- E. apply list_elem_of_fmap. by exists e. }
    apply list_elem_of_omap in Hx as (l & _ & Hl). unfold line_event in Hl. destruct (maxAccessLineBytes <? _)%Z; [done|].
    destruct (parseAccessLine _ _) as [[p|]|]; [|done..]. by injection Hl as <- _ _.
  - rewrite <- (length_fmap content), E. apply length_omap_le.
Qed.

(** The text so far is the lines collected, each with its event, and the rest. *)
Definition state (db0 : DB) (sp0 : spool) (w : world) (h : list Event) (c : AccessCheckpoint)
  (past : list string) (rest : string) : Prop :=
stands st db0 sp0 h c (w_db w) /\ placed w c rest /\
w_text w = text_of past +:+ rest /\ Forall is_line past /\
access_events h = omap (line_event location) past /\ (length h <= w_others w + length past)%nat /\ sized w.

Definition with_db (w : world) (db : DB) : world :=
World (w_old w) (w_id w) (w_bytes w) (w_text w) (w_others w) db.

(** The sequence numbers do not run out. *)
Definition room (sp0 : spool) (w : world) : Prop :=
is_u64 (next sp0 + N.of_nat (w_others w) + N.of_nat (length (lines (w_text w)).1) + 1).

Lemma room_state db0 sp0 w h c past rest : room sp0 w -> state db0 sp0 w h c past rest ->
  is_u64 (next sp0 + N.of_nat (length h) + N.of_nat (length (lines rest).1) + 1).
Proof.
  intros Hroom (_ & _ & Ht & Hp & _ & Hl & _). unfold room in Hroom. rewrite Ht, lines_lines in Hroom by done.
  cbn [fst] in Hroom. rewrite length_app in Hroom. unfold is_u64 in *. lia.
Qed.

(** More lines collected, from the file the checkpoint names. *)
Lemma state_more db0 sp0 w h c past rest db' evs c' past' rest' :
  state db0 sp0 w h c past rest -> rest = text_of past' +:+ rest' -> Forall is_line past' ->
  stands st db0 sp0 (h ++ evs) c' db' -> content <$> evs = omap (line_event location) past' ->
  placed (with_db w db') c' rest' ->
  state db0 sp0 (with_db w db') (h ++ evs) c' (past ++ past') rest'.
Proof.
  intros (_ & _ & Ht & Hp & He & Hl & Hi) -> Hp' Hs Hev Hpl. apply line_events_access in Hev as [Hev Hlen].
  refine (conj Hs (conj Hpl (conj _ (conj _ (conj _ (conj _ Hi)))))).
  - by rewrite text_of_app, sapp_assoc.
  - by apply Forall_app.
  - by rewrite access_events_app, omap_app, He, Hev.
  - rewrite !length_app. cbn [with_db w_others]. lia.
Qed.

(** The same with another database. *)
Lemma state_db db0 sp0 w h c past rest db' : state db0 sp0 w h c past rest ->
  stands st db0 sp0 h c db' -> state db0 sp0 (with_db w db') h c past rest.
Proof.
  intros (_ & Hpl & Ht & Hp & He & Hl & Hi) Hs. refine (conj Hs (conj _ (conj Ht (conj Hp (conj He (conj Hl Hi)))))).
  destruct Hpl as [Hn Ha|id s Ho Hid Hn Ha Hi' Hls]; [exact (on_current (with_db w db') c Hn Ha)|].
  exact (on_old (with_db w db') c id s Ho Hid Hn Ha Hi' Hls).
Qed.

(** Nothing goes wrong outside the spool during a pass. *)
Definition calm_pass (ps : Pass) : Prop :=
(exists size id, ps_stat ps = Ok (size, Ok id)) /\ (exists es, ps_readDir ps = Ok es) /\
forall p, p = path \/ (exists es id, ps_readDir ps = Ok es /\ p = find_entry (Dir path) id es) ->
  (exists f, ps_anchor ps p = Ok f /\ lf_err f = None) /\ calm_file (ps_open ps p) (ps_ctx ps p).

Definition outcome_of (ps : Pass) (rest : string) (r : result unit) : Prop :=
match r with
| Ok _ => (lines rest).1 = []
| Err _ => ~ BoltLive \/ ~ calm_pass ps \/ blocked rest
end.

Lemma blocked_app a b : blocked a -> blocked (a +:+ b).
Proof.
  intros (line & db & x & Hh & Hx). exists line, db, x. split; [|done].
  assert (a +:+ b = text_of (lines a).1 +:+ ((lines a).2 +:+ b)) as ->
    by (rewrite <- sapp_assoc; f_equal; apply lines_text).
  rewrite lines_lines by apply lines_is_line. cbn [fst]. by destruct (lines a).1.
Qed.

(** The file at the path is read on from the checkpoint. *)
Lemma drain_current ps db0 sp0 w h c past rest :
  room sp0 w -> state db0 sp0 w h c past rest -> opens (ps_open ps path) (w_bytes w) ->
  names c (w_id w) -> anchored c (w_bytes w) -> rest = ahead c (w_bytes w) ->
  let '(db', r) := drained (drain st location ps path c (w_db w)) in
  exists h' c' past' rest', state db0 sp0 (with_db w db') h' c' past' rest' /\ outcome_of ps rest' r.
Proof.
  intros Hroom Hst Ho Hn Ha Er. pose proof (room_state _ _ _ _ _ _ _ Hroom Hst) as Hu. rewrite Er in Hu.
  pose proof Hst as (Hs & _ & _ & _ & _ & _ & Hi & _).
  pose proof (drain_good ps path (w_bytes w) c (w_db w) db0 sp0 h Ho Ha Hs Hi Hu) as Hd.
  destruct (drain _ _ _ _ _ _) as [db' r]. destruct Hd as (past' & rest' & evs & E & Hl & Hs' & Hev & Hr).
  destruct (anchored_past c past' rest' (w_bytes w) Hl Ha E) as [Ha' E'].
  assert (state db0 sp0 (with_db w db') (h ++ evs) (foldl next_checkpoint c past') (past ++ past') rest') as Hst'.
  { eapply state_more; [exact Hst|by rewrite Er|done..|].
    rewrite <- E'. apply (on_current (with_db w db')); [by apply names_past|done]. }
  destruct r as [b|e]; cbn [drained]; eexists _, _, _, _; (split; [exact Hst'|]).
  - apply Hr.
  - destruct Hr as [?|[Hc|?]]; [by left|right; left|by right; right].
    intros (_ & _ & Hcalm). apply Hc, Hcalm. by left.
Qed.

Lemma room_more db0 sp0 w h c past rest : room sp0 w -> state db0 sp0 w h c past rest ->
  is_u64 (next sp0 + N.of_nat (length h) + 1).
Proof. intros Hroom Hst. pose proof (room_state _ _ _ _ _ _ _ Hroom Hst). unfold is_u64 in *. lia. Qed.

(** A pass over the file that the checkpoint names. *)
Lemma same_file ps db0 sp0 w h c past rest size :
  room sp0 w -> state db0 sp0 w h c past rest -> sees w ps -> names c (w_id w) ->
  size = Z.of_N (slen (w_bytes w)) ->
  let '(db', r) := sameFile st location path ps size c (w_db w) in
  exists h' c' past' rest', state db0 sp0 (with_db w db') h' c' past' rest' /\ outcome_of ps rest' r.
Proof.
  intros Hroom Hst Hsee Hn ->.
  assert (anchored c (w_bytes w) /\ rest = ahead c (w_bytes w)) as [Ha Er].
  { destruct Hst as (_ & Hpl & _). destruct Hpl as [|id s Ho Hid Hn']; [done|]. unfold names in *. congruence. }
  unfold sameFile. destruct (anchor_matches c (w_bytes w) (ps_anchor ps path) Ha (se_anchor _ _ Hsee)) as [Hm|(e & He & Hno)].
  - rewrite Hm. pose proof (proj1 Ha) as Ho. destruct (Z.ltb_spec (Z.of_N (slen (w_bytes w))) (cp_offset c)); [lia|].
    cbn [orb negb]. by apply (drain_current ps db0 sp0 w h c past rest Hroom Hst (se_open _ _ Hsee)).
  - rewrite He. exists h, c, past, rest. split; [apply (state_db _ _ w); [done|apply Hst]|].
    right; left. intros (_ & _ & Hc). apply Hno, Hc. by left.
Qed.

(** A pass that finds another file at the path. *)
Lemma switch_file ps db0 sp0 w h c past id s :
  room sp0 w -> state db0 sp0 w h c past (w_bytes w) -> opens (ps_open ps path) (w_bytes w) ->
  w_old w = Some (id, s) -> id <> w_id w -> names c id -> anchored c s -> is_i64 (Z.of_N (slen s)) -> ahead c s = "" ->
  let '(db', r) :=
    match SetCheckpoint accessCheckpointKey (MkCheckpoint (fi_device (w_id w)) (fi_inode (w_id w)) 0 0 "" true) (w_db w) with
    | (db, Err e) => (db, Err e)
    | (db, Ok _) => drained (drain st location ps path
        (MkCheckpoint (fi_device (w_id w)) (fi_inode (w_id w)) 0 0 "" true) db)
    end in
  exists h' c' past' rest', state db0 sp0 (with_db w db') h' c' past' rest' /\ outcome_of ps rest' r.
Proof.
  intros Hroom Hst Hopen Ho Hid Hn Ha Hi Hend. set (c2 := MkCheckpoint _ _ _ _ _ _).
  pose proof (room_more _ _ _ _ _ _ _ Hroom Hst) as Hu.
  pose proof Hst as (Hs & _ & Ht & Hp & He & Hl & Hi' & Hd & Hn').
  destruct (stands_spool _ _ _ _ _ _ Hu Hs) as (sp & Hr & _).
  assert (checkpoint_ok c2) as Hc2 by by split_and!.
  assert (names c2 (w_id w)) as Hname by (unfold names, c2; simpl; by destruct (w_id w)).
  assert (anchored c2 (w_bytes w)) as Ha2 by (split; [simpl; lia|by left]).
  pose proof (stands_set st db0 sp0 h c c2 (w_db w) Hu Hs Hc2) as Hset.
  pose proof (SetCheckpoint_live accessCheckpointKey c2 sp (w_db w)) as Hlive.
  destruct (SetCheckpoint _ _ _) as [db1 [[]|e]]; specialize (Hset ltac:(done)).
  - assert (state db0 sp0 (with_db w db1) h c2 past (ahead c2 (w_bytes w))) as Hst1.
    { refine (conj Hset (conj _ (conj Ht (conj Hp (conj He (conj Hl (conj Hi' (conj Hd Hn')))))))).
      by apply (on_current (with_db w db1)). }
    by apply (drain_current ps db0 sp0 (with_db w db1) h c2 past _ Hroom Hst1).
  - exists h, c, past, (w_bytes w). split; [by apply (state_db _ _ w)|]. left. intros Hb.
    destruct Hlive as [db2 [=]]; [done|done|by vm_compute|done].
Qed.

Lemma after_rotation ps db0 sp0 w h c past rest :
  room sp0 w -> state db0 sp0 w h c past rest -> sees w ps -> ~ names c (w_id w) ->
  let '(db', r) := afterRotation st location path ps (w_id w) c (w_db w) in
  exists h' c' past' rest', state db0 sp0 (with_db w db') h' c' past' rest' /\ outcome_of ps rest' r.
Proof.
  intros Hroom Hst Hsee Hother. pose proof Hst as (Hs & Hpl & _).
  destruct Hpl as [Hn _|id s Ho Hid Hn Ha Hi Htail]; [done|].
  assert (forall e : error, ~ calm_pass ps ->
    exists h' c' past' rest', state db0 sp0 (with_db w (w_db w)) h' c' past' rest' /\ outcome_of ps rest' (Err e)) as Hno.
  { intros e Hc. exists h, c, past, (ahead c s +:+ w_bytes w). split; [by apply (state_db _ _ w)|by right; left]. }
  unfold afterRotation, rotatedFile, findFileByIdentity. unfold names in Hn. rewrite Hn.
  destruct (ps_readDir ps) as [es|e] eqn:Ed; cbn [rbind]; [|apply Hno; by intros (_ & (es & Hes) & _); congruence].
  destruct (se_old _ _ Hsee id s c es Ho (proj1 (proj2 (proj2 (proj2 Hs)))) Hn Ed) as (r & Er & Hr & Hra & Hro).
  rewrite Er, bool_decide_false by done.
  destruct (anchor_matches c s (ps_anchor ps r) Ha Hra) as [Hm|(e & He & Hcalm)].
  2: { rewrite He. apply Hno. intros (_ & _ & Hc). apply Hcalm, Hc. right. exists es, id. by rewrite Er. }
  rewrite Hm, bool_decide_false by done.
  pose proof (room_state _ _ _ _ _ _ _ Hroom Hst) as Hu.
  assert (is_u64 (next sp0 + N.of_nat (length h) + N.of_nat (length (lines (ahead c s)).1) + 1)) as Hu'.
  { assert (ahead c s +:+ w_bytes w = text_of (lines (ahead c s)).1 +:+ ((lines (ahead c s)).2 +:+ w_bytes w)) as E
      by (rewrite <- sapp_assoc; f_equal; apply lines_text).
    rewrite E, lines_lines in Hu by apply lines_is_line. cbn [fst] in Hu. rewrite length_app in Hu. unfold is_u64 in *. lia. }
  pose proof (drain_good ps r s c (w_db w) db0 sp0 h Hro Ha Hs Hi Hu') as Hd.
  destruct (drain _ _ _ _ _ _) as [db' dr]. destruct Hd as (past' & rest' & evs & E & Hl & Hs' & Hev & Hrr).
  destruct (anchored_past c past' rest' s Hl Ha E) as [Ha' E'].
  assert ((lines rest').2 = "") as Htail' by (apply (lines_tail (text_of past')); by rewrite <- E).
  assert (state db0 sp0 (with_db w db') (h ++ evs) (foldl next_checkpoint c past') (past ++ past') (rest' +:+ w_bytes w)) as Hst'.
  { eapply state_more; [exact Hst| |done..|]; [by rewrite E, sapp_assoc|].
    rewrite <- E'. apply (on_old (with_db w db') _ id s); try done; [by apply names_past|by rewrite E']. }
  destruct dr as [b|e].
  - destruct Hrr as [Hnil ->]. assert (rest' = "") as ->.
    { rewrite (lines_text rest'), Hnil, Htail'. done. }
    rewrite app_Empty in Hst'.
    apply (switch_file ps db0 sp0 (with_db w db') (h ++ evs) (foldl next_checkpoint c past') (past ++ past') id s);
      try done; [apply Hsee|by apply names_past].
  - eexists _, _, _, _. split; [exact Hst'|]. destruct Hrr as [?|[Hc|Hb]]; [by left|right; left|right; right; by apply blocked_app].
    intros (_ & _ & Hcalm). apply Hc, Hcalm. right. exists es, id. by rewrite Er.
Qed.

Lemma collectOnce_good ps db0 sp0 w h c past rest :
  room sp0 w -> state db0 sp0 w h c past rest -> sees w ps ->
  let '(db', r) := collectOnce st location path ps (w_db w) in
  exists h' c' past' rest', state db0 sp0 (with_db w db') h' c' past' rest' /\ outcome_of ps rest' r.
Proof.
  intros Hroom Hst Hsee. pose proof Hst as (Hs & _).
  assert (forall e : error, ~ calm_pass ps ->
    exists h' c' past' rest', state db0 sp0 (with_db w (w_db w)) h' c' past' rest' /\ outcome_of ps rest' (Err e)) as Hno.
  { intros e Hc. exists h, c, past, rest. split; [by apply (state_db _ _ w)|by right; left]. }
  unfold collectOnce. destruct (ps_stat ps) as [[size [id|e]]|e] eqn:Es;
    [|apply Hno; intros ((? & ? & ?) & _); congruence..].
  destruct (se_stat _ _ Hsee size id Es) as [-> Hsize].
  rewrite (proj1 (proj2 (proj2 (proj2 Hs)))). case_bool_decide as Hn.
  - by apply (same_file ps db0 sp0 w h c past rest).
  - by apply (after_rotation ps db0 sp0 w h c past rest).
Qed.

Definition good (db0 : DB) (sp0 : spool) (w : world) : Prop :=
exists h c past rest, state db0 sp0 w h c past rest.

Lemma pass_good ps db0 sp0 w : room sp0 w -> good db0 sp0 w -> sees w ps ->
  good db0 sp0 (with_db w (collect_access st location path ps (w_db w))).
Proof.
  intros Hroom (h & c & past & rest & Hst) Hsee.
  pose proof (collectOnce_good ps db0 sp0 w h c past rest Hroom Hst Hsee) as Hc. unfold collect_access.
  destruct (collectOnce _ _ _ _ _) as [db' r]. destruct Hc as (h' & c' & past' & rest' & Hst' & _).
  exists h', c', past', rest'. destruct r as [u|e]; [done|]. destruct (_ && _); [|done].
  apply (state_db _ _ (with_db w db')); [done|]. apply stands_error; [|apply Hst'].
  by apply (room_more db0 sp0 (with_db w db') h' c' past' rest').
Qed.

Lemma step_room sp0 w w' : step w w' -> room sp0 w' -> room sp0 w.
Proof.
  unfold room. destruct 1 as [w x|w c id|w ps|w h db]; cbn [w_others w_text]; try done; intros Hu.
  - assert (w_text w +:+ x = text_of (lines (w_text w)).1 +:+ ((lines (w_text w)).2 +:+ x)) as E
      by (rewrite <- sapp_assoc; f_equal; apply lines_text).
    rewrite E, lines_lines in Hu by apply lines_is_line. cbn [fst] in Hu. rewrite length_app in Hu.
    unfold is_u64 in *. lia.
  - unfold is_u64 in *. lia.
Qed.

Lemma ahead_grow c s x : anchored c s -> ahead c (s +:+ x) = ahead c s +:+ x.
Proof. intros [Ho _]. unfold ahead. rewrite sdrop_app_le; [done|]. unfold offset, slen in *. lia. Qed.

Lemma step_good db0 sp0 w w' : step w w' -> room sp0 w' -> good db0 sp0 w -> good db0 sp0 w'.
Proof.
  intros Hstep Hroom'. pose proof (step_room sp0 w w' Hstep Hroom') as Hroom.
  destruct Hstep as [w x Hx|w c0 id Hc0 Hn0 Htail Hid Hidok|w ps Hsee|w h2 db Hrun Hk Hcp]; [..|intros Hg; by apply pass_good|].
  - intros (h & c & past & rest & Hs & Hpl & Ht & Hp & He & Hl & Hi & Hido).
    exists h, c, past, (rest +:+ x). refine (conj Hs (conj _ (conj _ (conj Hp (conj He (conj Hl (conj Hx Hido))))))).
    + destruct Hpl as [Hn Ha|oid s Ho Hid Hn Ha Hi' Hls].
      * rewrite <- ahead_grow by done. apply on_current; [done|]. by apply anchored_grow.
      * rewrite sapp_assoc. by apply (on_old (World (w_old w) (w_id w) (w_bytes w +:+ x) (w_text w +:+ x) (w_others w) (w_db w)) c oid s).
    + cbn [w_text]. by rewrite Ht, sapp_assoc.
  - intros (h & c & past & rest & Hs & Hpl & Ht & Hp & He & Hl & Hi & Hido).
    pose proof (proj1 (proj2 (proj2 (proj2 Hs)))) as Hc. rewrite Hc0 in Hc. injection Hc as ->.
    destruct Hpl as [Hn Ha|oid s Ho Hoid Hn Ha]; [|unfold names in *; congruence].
    exists h, c, past, (ahead c (w_bytes w)).
    refine (conj Hs (conj _ (conj Ht (conj Hp (conj He (conj Hl (conj _ Hidok))))))); [|done].
    rewrite <- (sapp_nil_r (ahead c (w_bytes w))) at 1.
    apply (on_old (World (Some (w_id w, w_bytes w)) id "" (w_text w) (w_others w) (w_db w)) c (w_id w) (w_bytes w)); try done.
    apply (lines_tail (stake (offset c) (w_bytes w))). unfold ahead. by rewrite stake_sdrop.
  - intros (h & c & past & rest & Hs & Hpl & Ht & Hp & He & Hl & Hi).
    exists (h ++ h2), c, past, rest. destruct Hs as (Hr & Hr0 & Hst0 & Hc & Hok).
    refine (conj (conj (run_app _ _ _ _ _ Hr Hrun) (conj Hr0 (conj Hst0 (conj _ Hok)))) (conj _ (conj Ht (conj Hp (conj _ (conj _ Hi)))))).
    + cbn [w_db]. by rewrite Hcp.
    + destruct Hpl as [Hn Ha|oid s Ho Hoid Hn Ha Hi' Hls].
      { exact (on_current (World (w_old w) (w_id w) (w_bytes w) (w_text w) (w_others w + length h2) db) c Hn Ha). }
      by apply (on_old (World (w_old w) (w_id w) (w_bytes w) (w_text w) (w_others w + length h2) db) c oid s).
    + rewrite access_events_app, He. assert (access_events h2 = []) as ->; [|apply app_nil_r].
      unfold access_events. clear - Hk. induction Hk as [|e l He _ IH]; [done|]. by rewrite filter_cons_False.
    + rewrite length_app. cbn [w_others]. lia.
Qed.

Lemma steps_room sp0 w w' : rtc step w w' -> room sp0 w' -> room sp0 w.
Proof. induction 1 as [w|w w1 w' Hs _ IH]; [done|]. intros Hroom. by eapply step_room, IH. Qed.

Lemma steps_good db0 sp0 w w' : rtc step w w' -> room sp0 w' -> good db0 sp0 w -> good db0 sp0 w'.
Proof.
  induction 1 as [w|w w1 w' Hs Hrest IH]; [done|]. intros Hroom Hg. apply IH; [done|].
  eapply step_good; [exact Hs|by eapply steps_room|done].
Qed.

(** The collector has stored a checkpoint in the file at the path. *)
Definition begins (db0 : DB) (sp0 : spool) (w : world) : Prop :=
represents (stored db0) sp0 /\ store_ok st sp0 /\ w_db w = db0 /\ w_others w = 0%nat /\ sized w /\
exists c, Checkpoint accessCheckpointKey db0 = Ok c /\ checkpoint_ok c /\ names c (w_id w) /\
  anchored c (w_bytes w) /\ w_text w = ahead c (w_bytes w).

Lemma begins_good db0 sp0 w : begins db0 sp0 w -> good db0 sp0 w.
Proof.
  intros (Hr & Hst & <- & Hw & Hsz & c & Hc & Hok & Hn & Ha & Ht).
  exists [], c, [], (ahead c (w_bytes w)).
  refine (conj (conj (run_nil _ _) (conj Hr (conj Hst (conj Hc (conj Hok (proj1 (proj1 Ha))))))) (conj (on_current w c Hn Ha) (conj Ht (conj _ (conj eq_refl (conj _ Hsz)))))).
  - done.
  - simpl. lia.
Qed.

(** C31: over any history of writes, rotations and passes in which the log is
    rotated only at the end of a line and while the collector's checkpoint
    names the file being rotated, with failures of any call and other producers
    at work, the access events accepted are those of the lines written since
    the first checkpoint, once each and in order, up to the point that the
    collector has reached; and the spool still delivers them. *)
Theorem access_exactly_once db0 sp0 w0 w :
  begins db0 sp0 w0 -> rtc step w0 w -> room sp0 w ->
  exists h sp past rest, represents (stored (w_db w)) sp /\ delivers sp0 h sp /\
    (lines (w_text w)).1 = past ++ (lines rest).1 /\ w_text w = text_of past +:+ rest /\
    access_events h = omap (line_event location) past.
Proof.
  intros Hb Hsteps Hroom. pose proof (begins_good _ _ _ Hb) as Hg.
  destruct (steps_good _ _ _ _ Hsteps Hroom Hg) as (h & c & past & rest & Hst).
  pose proof (room_more _ _ _ _ _ _ _ Hroom Hst) as Hu. destruct Hst as (Hs & _ & Ht & Hp & He & _).
  destruct Hs as (Hrun & Hr & Hstore & _). destruct (run_queue st sp0 db0 h (w_db w) Hr Hstore Hu Hrun) as (sp & Hr' & Hd).
  exists h, sp, past, rest. split_and!; try done. by rewrite Ht, lines_lines.
Qed.

(** C32: after any such history (the log is rotated only at the end of a line
    and while the collector's checkpoint names the file being rotated), a pass
    that no failure outside the spool disturbs, over a working database, ends
    at the last line of the log, or at a line whose event the spool does not
    take: its time is not after 1970, or it is too large, or the spool is full. *)
Theorem access_completes db0 sp0 w0 w ps :
  BoltLive -> begins db0 sp0 w0 -> rtc step w0 w -> room sp0 w -> sees w ps -> calm_pass ps ->
  exists h past rest, run st db0 h (collect_access st location path ps (w_db w)) /\
    w_text w = text_of past +:+ rest /\ Forall is_line past /\
    access_events h = omap (line_event location) past /\ ((lines rest).1 = [] \/ blocked rest).
Proof.
  intros Hlive Hb Hsteps Hroom Hsee Hcalm. pose proof (begins_good _ _ _ Hb) as Hg.
  destruct (steps_good _ _ _ _ Hsteps Hroom Hg) as (h & c & past & rest & Hst).
  pose proof (collectOnce_good ps db0 sp0 w h c past rest Hroom Hst Hsee) as Hc. unfold collect_access.
  destruct (collectOnce _ _ _ _ _) as [db' r]. destruct Hc as (h' & c' & past' & rest' & Hst' & Ho).
  pose proof (room_more db0 sp0 (with_db w db') h' c' past' rest' Hroom Hst') as Hu.
  destruct Hst' as (Hs & _ & Ht & Hp & He & _). destruct Hs as (Hrun & Hs).
  exists h', past', rest'. destruct r as [u|e].
  - split_and!; try done. by left.
  - assert (blocked rest') as Hbl by (by destruct Ho as [?|[?|?]]).
    split_and!; try done; [|by right]. destruct (_ && _); [by apply run_error|done].
Qed.
End files.
