(* ===== verification/AccessTheorems.v ===== *)
(** * The access collector: lines that stop it, and an example run

    Two situations in which a pass never gets further, and a run of the
    collector with the database in memory: a line is written and collected. *)

From stdpp Require Import base gmap strings list fin_maps.
From Stdlib Require Import ZArith NArith Ascii.
From S2P Require Import Prelude.
From S2P Require Import GoStrings.
From S2P Require Import Bolt.
From S2P Require Import Events.
From S2P Require Import EventSpool.
From S2P Require Import SpoolProofs.
From S2P Require Import SpoolTheorems.
From S2P Require Import Net.
From S2P Require Import Fields.
From S2P Require Import AccessLine.
From S2P Require Import Access.
From S2P Require Import AccessProofs.
From S2P Require Import AccessHistory.

Section stuck.
Context `{BL : BoltLaws} `{UT : UnicodeTables}.
Variables (st : Store) (location : Location) (path : string).

(** A complete line with a time that is not after the start of 1970 is never
    passed: the spool refuses its event, the checkpoint stays before it. *)
Lemma old_line_blocks fuel ctx clock err before after p c db :
  ctx 0%nat = None -> no_char newline before ->
  (Z.of_N (slen (before +:+ String newline "")) <= maxAccessLineBytes)%Z ->
  parseAccessLine location before = Ok (Some p) -> (UnixMilli (pa_at p) <= 0)%Z ->
  drain_lines st location (S fuel) 0 ctx clock err (before +:+ String newline after) c db
  = (db, Err (errorsNew "event observed time is required")).
Proof.
  intros Hctx Hb Hlen Hp Ht. cbn [drain_lines]. rewrite Hctx, read_line. unfold line_spec.
  rewrite cut_first_app by done. cbn [the_line bl_complete negb]. unfold store_line.
  unfold the_line. cbn [bl_tooLong bl_data]. rewrite (proj2 (Z.ltb_ge _ _) Hlen), TrimSuffix_app, Hp.
  unfold EnqueueWithCheckpoint, enqueue. cbn [negb validKind]. rewrite (proj2 (Z.leb_le _ _) Ht), orb_true_r. done.
Qed.

(** A rotated file that does not end with a newline holds the collector for as
    long as it is there: the pass succeeds and changes nothing. *)
Lemma partial_line_blocks ps current c db r s es :
  ps_readDir ps = Ok es -> find_entry (Dir path) (MkID (cp_device c) (cp_inode c)) es = r -> r <> "" ->
  checkpointAnchorMatches (ps_anchor ps r) c = Ok true ->
  ps_open ps r = Ok (MkFile s None None) -> (0 <= cp_offset c)%Z -> ps_ctx ps r 0%nat = None ->
  no_char newline (ahead c s) -> ahead c s <> "" ->
  afterRotation st location path ps current c db = (db, Ok tt).
Proof.
  intros Hd Hf Hr Hm Ho Hoff Hctx Hn Hne. unfold afterRotation, rotatedFile, findFileByIdentity.
  rewrite Hd. cbn [rbind]. rewrite Hf, bool_decide_false, Hm, bool_decide_false by done.
  unfold drain. rewrite Ho. cbn [lf_seek lf_bytes lf_err].
  rewrite (proj2 (Z.ltb_ge _ _) Hoff). fold (offset c). fold (ahead c s). cbn [drain_lines].
  rewrite Hctx, read_line. unfold line_spec. pose proof (cut_first_spec newline (ahead c s)) as Hc.
  destruct (cut_first newline (ahead c s)) as [[b a]|].
  { destruct Hc as [E _]. rewrite E in Hn. apply no_char_app in Hn as [_ [Hx _]%no_char_cons]. done. }
  cbn [the_line bl_complete negb bl_read]. by destruct (ahead c s).
Qed.
End stuck.

(** ** A run *)

Definition log_path : string := "/var/log/xray/access.log".
Definition log_id : fileID := MkID 1 2.
Definition log_store : Store := MkStore ex_node 100000 100.
Definition log_line : string :=
  "2026/08/01 10:20:30.123456 from 192.0.2.10:43123 accepted tcp:Example.COM:443 [in-443 -> direct] email: alice@example.com"
  +:+ String newline "".
Definition log_start : AccessCheckpoint := MkCheckpoint 1 2 0 0 "" true.
Definition log_db0 : @DB mem_bolt := (@SetCheckpoint mem_bolt accessCheckpointKey log_start ex_db0).1.

Definition log_world0 : @world mem_bolt := @World mem_bolt None log_id "" "" 0 log_db0.
Definition log_world1 : @world mem_bolt := @World mem_bolt None log_id log_line log_line 0 log_db0.
Definition log_pass : Pass :=
  MkPass (Ok (Z.of_N (slen log_line), Ok log_id)) (Ok [])
    (fun _ => Ok (MkFile log_line None None)) (fun _ => Ok (MkFile log_line None None))
    (fun _ _ => None) (fun _ _ => 0%Z) (0%Z, 0%Z) 0%Z.
Definition log_collect : @DB mem_bolt -> @DB mem_bolt :=
  @collect_access mem_bolt ascii_tables log_store utc log_path log_pass.
Definition log_world2 : @world mem_bolt := @World mem_bolt None log_id log_line log_line 0 (log_collect log_db0).

Lemma utc_ok : zone_ok utc.
Proof. intros t. simpl. lia. Qed.

Lemma log_store_ok : store_ok log_store ex_spool0.
Proof. by split; vm_compute. Qed.

Lemma log_begins : @begins mem_bolt mem_bolt_laws log_store log_db0 ex_spool0 log_world0.
Proof.
  split; [apply (@SetCheckpoint_keeps mem_bolt mem_bolt_laws), ex_represents0|].
  split; [apply log_store_ok|]. split; [done|]. split; [done|]. split; [by split; vm_compute|].
  exists log_start. split; [vm_compute; reflexivity|]. split; [by split_and!; vm_compute|].
  split; [done|]. split; [|done]. split; [simpl; lia|by left].
Qed.

Lemma log_sees : @sees mem_bolt log_path log_world1 log_pass.
Proof. split; try done. intros size id [= <- <-]. done. Qed.

Lemma log_room (w : @world mem_bolt) : w_text w = log_line -> w_others w = 0%nat -> @room mem_bolt ex_spool0 w.
Proof. intros Ht Ho. unfold room. rewrite Ht, Ho. by vm_compute. Qed.

Lemma log_written : rtc (@step mem_bolt ascii_tables log_store utc log_path) log_world0 log_world1.
Proof.
  apply rtc_once. change log_world1 with (@World mem_bolt (w_old log_world0) (w_id log_world0)
    (w_bytes log_world0 +:+ log_line) (w_text log_world0 +:+ log_line) (w_others log_world0) (w_db log_world0)).
  constructor. by vm_compute.
Qed.

Lemma log_collected : rtc (@step mem_bolt ascii_tables log_store utc log_path) log_world0 log_world2.
Proof.
  eapply rtc_r; [exact log_written|].
  change log_world2 with (@World mem_bolt (w_old log_world1) (w_id log_world1) (w_bytes log_world1) (w_text log_world1)
    (w_others log_world1) (log_collect (w_db log_world1))).
  apply (@step_pass mem_bolt ascii_tables log_store utc log_path log_world1 log_pass). apply log_sees.
Qed.

(** The line is in the queue. *)
Example log_queued : match @Batch mem_bolt 10 100000 (w_db log_world2) with
                     | Ok b => content <$> bt_events b = omap (@line_event ascii_tables utc) [log_line]
                     | Err _ => False
                     end.
Proof. vm_compute. reflexivity. Qed.

Lemma access_exactly_once_witness :
  exists h sp past rest, @represents (@stored mem_bolt mem_bolt_laws (w_db log_world2)) sp /\
    delivers ex_spool0 h sp /\ (lines log_line).1 = past ++ (lines rest).1 /\ log_line = text_of past +:+ rest /\
    access_events h = omap (@line_event ascii_tables utc) past.
Proof.
  exact (@access_exactly_once mem_bolt mem_bolt_laws ascii_tables log_store utc log_path utc_ok log_db0 ex_spool0
    log_world0 log_world2 log_begins log_collected (log_room log_world2 eq_refl eq_refl)).
Defined.

Lemma log_calm : calm_pass log_path log_pass.
Proof.
  split; [by eexists _, _|]. split; [by eexists|]. intros p _. split; [by eexists|]. split; [by eexists|]. done.
Qed.

Lemma access_completes_witness :
  exists h past rest, @run mem_bolt log_store log_db0 h (log_collect log_db0) /\
    log_line = text_of past +:+ rest /\ Forall is_line past /\
    access_events h = omap (@line_event ascii_tables utc) past /\
    ((lines rest).1 = [] \/ @blocked mem_bolt mem_bolt_laws ascii_tables log_store utc rest).
Proof.
  exact (@access_completes mem_bolt mem_bolt_laws ascii_tables log_store utc log_path utc_ok log_db0 ex_spool0
    log_world0 log_world1 log_pass mem_bolt_live log_begins log_written (log_room log_world1 eq_refl eq_refl)
    log_sees log_calm).
Defined.
