(* ===== verification/Route.v ===== *)
(** * The route webhook (internal/telemetry/route.go)

    Xray posts its routing decisions to the agent: [handle] authenticates the
    request, decodes and normalises the payload and queues the event; its
    answer tells Xray what became of it. *)

From stdpp Require Import base gmap strings list.
From Stdlib Require Import ZArith NArith Ascii.
From S2P Require Import Prelude.
From S2P Require Import GoStrings.
From S2P Require Import Sha256.
From S2P Require Import Json.
From S2P Require Import Bolt.
From S2P Require Import Events.
From S2P Require Import EventSpool.
From S2P Require Import SpoolProofs.
From S2P Require Import SpoolTheorems.
From S2P Require Import Fields.

Definition maxRouteWebhookBytes : N := 65536.
Definition RouteWebhookTokenHeader : string := "X-XUI-Webhook-Token".

(** ** The payload *)

Record xrayRoutePayload : Set := MkPayload {
  rp_email : option string;
  rp_level : option N;
  rp_protocol : option string;
  rp_network : option string;
  rp_source : option string;
  rp_destination : option string;
  rp_originalTarget : option string;
  rp_routeTarget : option string;
  rp_inboundTag : option string;
  rp_inboundName : option string;
  rp_inboundLocal : option string;
  rp_outboundTag : option string;
  rp_ts : Z
}.

Definition zero_payload : xrayRoutePayload :=
  MkPayload None None None None None None None None None None None None 0.

Definition route_fields : list (string * setter xrayRoutePayload) :=
  [("email", ptr dec_string (fun v '(MkPayload _ l p n s d o r t i c b z) => MkPayload v l p n s d o r t i c b z));
   ("level", ptr (dec_uint 32) (fun v '(MkPayload e _ p n s d o r t i c b z) => MkPayload e v p n s d o r t i c b z));
   ("protocol", ptr dec_string (fun v '(MkPayload e l _ n s d o r t i c b z) => MkPayload e l v n s d o r t i c b z));
   ("network", ptr dec_string (fun v '(MkPayload e l p _ s d o r t i c b z) => MkPayload e l p v s d o r t i c b z));
   ("source", ptr dec_string (fun v '(MkPayload e l p n _ d o r t i c b z) => MkPayload e l p n v d o r t i c b z));
   ("destination", ptr dec_string (fun v '(MkPayload e l p n s _ o r t i c b z) => MkPayload e l p n s v o r t i c b z));
   ("originalTarget", ptr dec_string (fun v '(MkPayload e l p n s d _ r t i c b z) => MkPayload e l p n s d v r t i c b z));
   ("routeTarget", ptr dec_string (fun v '(MkPayload e l p n s d o _ t i c b z) => MkPayload e l p n s d o v t i c b z));
   ("inboundTag", ptr dec_string (fun v '(MkPayload e l p n s d o r _ i c b z) => MkPayload e l p n s d o r v i c b z));
   ("inboundName", ptr dec_string (fun v '(MkPayload e l p n s d o r t _ c b z) => MkPayload e l p n s d o r t v c b z));
   ("inboundLocal", ptr dec_string (fun v '(MkPayload e l p n s d o r t i _ b z) => MkPayload e l p n s d o r t i v b z));
   ("outboundTag", ptr dec_string (fun v '(MkPayload e l p n s d o r t i c _ z) => MkPayload e l p n s d o r t i c v z));
   ("ts", fld dec_int (fun v '(MkPayload e l p n s d o r t i c b _) => MkPayload e l p n s d o r t i c b v))].

(** ** The event *)

Record RouteEvent : Set := MkRoute {
  rt_email : string;
  rt_protocol : string;
  rt_network : string;
  rt_destinationHost : string;
  rt_destinationPort : N;
  rt_originalHost : string;
  rt_originalPort : N;
  rt_routeHost : string;
  rt_routePort : N;
  rt_outbound : string
}.

(** An [omitempty] number. *)
Definition opt_number (k : string) (n : N) : list (string * string) :=
  if (n =? 0)%N then [] else [(k, FormatUint n)].

Definition route_members (e : RouteEvent) : list (string * string) :=
  opt_member "email" (rt_email e) ++ opt_member "protocol" (rt_protocol e) ++ opt_member "network" (rt_network e)
  ++ opt_member "destinationHost" (rt_destinationHost e) ++ opt_number "destinationPort" (rt_destinationPort e)
  ++ opt_member "originalHost" (rt_originalHost e) ++ opt_number "originalPort" (rt_originalPort e)
  ++ opt_member "routeHost" (rt_routeHost e) ++ opt_number "routePort" (rt_routePort e)
  ++ opt_member "outboundTag" (rt_outbound e).

Definition marshal_route (e : RouteEvent) : result string := Ok (obj (route_members e)).

(** time.Unix(seconds, 0): only the milliseconds of the time are used later, in
    a product of 64 bits. *)
Definition wrap64 (z : Z) : Z := int64_of_u64 (u64_of_int64 z).
Definition Unix (seconds : Z) : Z := wrap64 (seconds * 1000) * 1000000.

Section route.
Context `{UnicodeTables}.

Definition cleanOptional (value : option string) (max : N) : result string :=
match value with
| None => Ok ""
| Some value => cleanToken value max true
end.

Definition splitOptionalTarget (value : option string) : result (string * N) :=
match value with
| None => Ok ("", 0%N)
| Some value => if bool_decide (TrimSpace value = "") then Ok ("", 0%N) else splitXrayTarget value
end.

Definition normalizeRoute (raw : xrayRoutePayload) : result (RouteEvent * Z) :=
let? _ := guard_err (rp_ts raw <=? 0)%Z "route timestamp is required" in
let? email := cleanOptional (rp_email raw) 254 in
let? protocol := cleanOptional (rp_protocol raw) 32 in
let? network := cleanOptional (rp_network raw) 8 in
let? _ := guard_err (negb (bool_decide (network = "")) && negb (bool_decide (network = "tcp"))
            && negb (bool_decide (network = "udp"))) "invalid route network" in
let? outbound := cleanOptional (rp_outboundTag raw) 128 in
let? destination := splitOptionalTarget (rp_destination raw) in
let? original := splitOptionalTarget (rp_originalTarget raw) in
let? route := splitOptionalTarget (rp_routeTarget raw) in
Ok (MkRoute email protocol network destination.1 destination.2 original.1 original.2 route.1 route.2 outbound,
    Unix (rp_ts raw)).
End route.

(** ** Requests *)

Definition zero_sep : string := String (chr 0) "".

Definition RouteWebhookToken (credential : string) : string :=
  sha256_hex ("xui-route-webhook-v1" +:+ zero_sep +:+ sha256_hex credential).

(** A request: its path and method, the value of the token header, and the body
    with the error that reading it meets, if any. *)
Record Request : Set := MkRequest {
  rq_path : string;
  rq_method : string;
  rq_token : string;
  rq_body : string;
  rq_err : option error
}.

(** How a body that is read through MaxBytesReader ends. *)
Inductive body_end : Set := EndOfBody | TooLarge | BodyError.

Definition limited_body (r : Request) : string * body_end :=
  if (maxRouteWebhookBytes <? slen (rq_body r))%N then (stake (N.to_nat maxRouteWebhookBytes) (rq_body r), TooLarge)
  else (rq_body r, match rq_err r with None => EndOfBody | Some _ => BodyError end).

(** The value a json.Decoder takes off the front of a body: the end of a string,
    a number or a literal is only seen with what follows. *)
Definition first_value (body : string) (last : body_end) : option (string * string) :=
  match first_text body with
  | None => None
  | Some (raw, rest) =>
      let closed := match raw with String c _ => eqc c "{" || eqc c "[" | "" => false end in
      if closed || negb (bool_decide (rest = "")) || match last with EndOfBody => true | _ => false end
      then Some (raw, rest) else None
  end.

Definition StatusNotFound : N := 404.
Definition StatusUnauthorized : N := 401.
Definition StatusRequestEntityTooLarge : N := 413.
Definition StatusBadRequest : N := 400.
Definition StatusInsufficientStorage : N := 507.
Definition StatusInternalServerError : N := 500.
Definition StatusNoContent : N := 204.

Section server.
Context `{Bolt} `{UnicodeTables}.
(** Whether the scanner of encoding/json takes all of a text that holds no
    complete value without an error. *)
Variable unfinished : string -> bool.
Variables (st : Store) (token : string).

(** routeDecodeStatus of the error of the first Decode. *)
Definition routeDecodeStatus (body : string) (last : body_end) : N :=
match first_value body last, last with
| None, TooLarge => if unfinished body then StatusRequestEntityTooLarge else StatusBadRequest
| _, _ => StatusBadRequest
end.

(** The two calls of Decode: one value of the right shape, and the end. *)
Definition decodeRoute (body : string) (last : body_end) : xrayRoutePayload + N :=
match first_value body last with
| None => inr (routeDecodeStatus body last)
| Some (raw, rest) =>
    match decode_obj true route_fields zero_payload raw with
    | None => inr (routeDecodeStatus body last)
    | Some payload =>
        if bool_decide (skip_ws rest = "") && match last with EndOfBody => true | _ => false end
        then inl payload else inr StatusBadRequest
    end
end.

Definition handle (r : Request) (now : Z) (db : DB) : DB * N :=
if negb (bool_decide (rq_path r = "/xray-route")) || negb (bool_decide (rq_method r = "POST")) then (db, StatusNotFound)
else if negb (bool_decide (rq_token r = token)) then (db, StatusUnauthorized)
else
  let '(body, last) := limited_body r in
  match decodeRoute body last with
  | inr status => (db, status)
  | inl raw =>
      match normalizeRoute raw with
      | Err _ => (db, StatusBadRequest)
      | Ok (event, observedAt) =>
          match Enqueue st EventKindRoute observedAt (marshal_route event) db with
          | (db, Ok _) => (db, StatusNoContent)
          | (db, Err e) =>
              if errorsIs e SFull then ((RecordDrop EventKindRoute now db).1, StatusInsufficientStorage)
              else ((RecordError "route_spool_failed" now db).1, StatusInternalServerError)
          end
      end
  end.
End server.

(** ** What is queued *)

Definition route_ok (e : RouteEvent) : Prop :=
  clean_text 254 (rt_email e) /\ clean_text 32 (rt_protocol e) /\
  (rt_network e = "" \/ rt_network e = "tcp" \/ rt_network e = "udp") /\ clean_text 128 (rt_outbound e) /\
  target_ok (rt_destinationHost e) (rt_destinationPort e) /\
  target_ok (rt_originalHost e) (rt_originalPort e) /\ target_ok (rt_routeHost e) (rt_routePort e).

Lemma clean_empty max : clean_text max "".
Proof. split_and!; [done|unfold slen; simpl; lia|constructor]. Qed.

Section routes.
Context `{UT : UnicodeTables}.

Lemma cleanOptional_ok value max s : cleanOptional value max = Ok s -> clean_text max s.
Proof.
  destruct value as [v|]; simpl; [|intros [= <-]; apply clean_empty]. by intros (_ & Hc & _)%cleanToken_ok.
Qed.

Lemma splitOptionalTarget_ok value s p : splitOptionalTarget value = Ok (s, p) -> target_ok s p.
Proof.
  destruct value as [v|]; simpl; [|intros [= <- <-]; by left].
  case_bool_decide; [intros [= <- <-]; by left|]. apply splitXrayTarget_ok.
Qed.

Lemma wrap64_i64 z : is_i64 (wrap64 z).
Proof.
  unfold wrap64, u64_of_int64. pose proof (Z.mod_pos_bound z (Z.of_N two64)) as Hb.
  unfold int64_of_u64, is_i64. change (Z.of_N two64) with 18446744073709551616%Z in *. specialize (Hb ltac:(lia)).
  destruct (N.ltb_spec (Z.to_N (z mod 18446744073709551616)) 9223372036854775808); lia.
Qed.

Lemma Unix_milli s : UnixMilli (Unix s) = wrap64 (s * 1000).
Proof. unfold UnixMilli, Unix. by rewrite Z.div_mul. Qed.

Lemma wrap64_small z : is_i64 z -> wrap64 z = z.
Proof. apply int64_u64_roundtrip. Qed.

Lemma normalized_ok raw e at_ : normalizeRoute raw = Ok (e, at_) ->
  route_ok e /\ (0 < rp_ts raw)%Z /\ is_i64 (UnixMilli at_) /\
  (is_i64 (rp_ts raw * 1000) -> UnixMilli at_ = (rp_ts raw * 1000)%Z).
Proof.
  unfold normalizeRoute. intros (u & Hts%guard_err_Ok%Z.leb_gt & Hr)%rbind_Ok.
  apply rbind_Ok in Hr as (email & Hemail & Hr). apply rbind_Ok in Hr as (protocol & Hprotocol & Hr).
  apply rbind_Ok in Hr as (network & Hnetwork & Hr). apply rbind_Ok in Hr as (v & Hn%guard_err_Ok & Hr).
  apply rbind_Ok in Hr as (outbound & Hout & Hr). apply rbind_Ok in Hr as ([dh dp] & Hd & Hr).
  apply rbind_Ok in Hr as ([oh op] & Ho & Hr). apply rbind_Ok in Hr as ([rh rp] & Hrt & [= <- <-]).
  split; [|split; [lia|rewrite Unix_milli; split; [apply wrap64_i64|apply wrap64_small]]].
  unfold route_ok. simpl. split_and!; try (by eapply cleanOptional_ok); try (by eapply splitOptionalTarget_ok).
  destruct (bool_decide (network = "")) eqn:E1; [apply bool_decide_eq_true in E1; auto|].
  destruct (bool_decide (network = "tcp")) eqn:E2; [apply bool_decide_eq_true in E2; auto|].
  destruct (bool_decide (network = "udp")) eqn:E3; [apply bool_decide_eq_true in E3; auto|done].
Qed.

(** An event made of a webhook payload is well formed, and its time is the
    payload's in milliseconds as long as that fits 64 bits. *)
Theorem normalizeRoute_ok raw e at_ : normalizeRoute raw = Ok (e, at_) ->
  route_ok e /\ (0 < rp_ts raw)%Z /\ is_i64 (UnixMilli at_) /\
  (is_i64 (rp_ts raw * 1000) -> UnixMilli at_ = (rp_ts raw * 1000)%Z).
Proof. apply normalized_ok. Qed.
End routes.

Lemma opt_number_ok k n : is_ascii k = true -> Forall member_ok (opt_number k n).
Proof. intros Hk. unfold opt_number. case_match; constructor; [|done]. split; [done|apply jv_uint]. Qed.

Lemma opt_member_compacted k v : Forall (fun kv => compacted (snd kv)) (opt_member k v).
Proof. unfold opt_member. case_bool_decide; constructor; [apply compacted_quote|done]. Qed.

Lemma opt_number_compacted k n : Forall (fun kv => compacted (snd kv)) (opt_number k n).
Proof. unfold opt_number. case_match; constructor; [apply compacted_uint|done]. Qed.

Lemma marshalled_route e : marshalled (marshal_route e).
Proof.
  split.
  - apply jv_object. unfold route_members. repeat apply Forall_app_2; apply opt_member_ok || apply opt_number_ok; done.
  - apply compacted_compact, compacted_obj. unfold route_members.
    repeat apply Forall_app_2; apply opt_member_compacted || apply opt_number_compacted.
Qed.

Section answers.
Context `{BL : BoltLaws} `{UT : UnicodeTables}.
Variables (unfinished : string -> bool) (st : Store) (token : string).

(** C35: the answer tells what happened: 204 exactly when the event of an
    authenticated, well-formed request has become the last of the queue; with
    any other answer the queue is as before, and a request that is not
    authenticated leaves the whole database alone. *)
Theorem handle_exact sp r now db :
  represents (stored db) sp -> store_ok st sp -> is_u64 (next sp + 1) ->
  let '(db', status) := handle unfinished st token r now db in
  (rq_token r <> token -> db' = db /\ (status = StatusUnauthorized \/ status = StatusNotFound)) /\
  (status = StatusNoContent ->
    exists raw event at_ e, decodeRoute unfinished (limited_body r).1 (limited_body r).2 = inl raw /\
      normalizeRoute raw = Ok (event, at_) /\ route_ok event /\
      ev_kind e = EventKindRoute /\ ev_at e = UnixMilli at_ /\ ev_payload e = obj (route_members event) /\
      represents (stored db') (append e sp)) /\
  (status <> StatusNoContent -> represents (stored db') sp).
Proof.
  intros Hr Hst Hn. unfold handle. destruct (_ || _).
  { split_and!; [by auto|done|done]. }
  case_bool_decide as Ht; cbn [negb]; [|by split_and!; auto].
  destruct (limited_body r) as [body last]. cbn [fst snd].
  destruct (decodeRoute unfinished body last) as [raw|status] eqn:Ed.
  2: { assert (status <> StatusNoContent) as Hne; [|by split_and!].
       unfold decodeRoute, routeDecodeStatus in Ed. intros ->. repeat case_match; done. }
  destruct (normalizeRoute raw) as [[event at_]|e] eqn:En; [|by split_and!].
  assert (is_i64 (UnixMilli at_) /\ route_ok event) as [Hat Hok].
  { pose proof (normalized_ok raw event at_ En) as (Hok & _ & Hi & _). done. }
  pose proof (enqueue_step st sp EventKindRoute at_ (marshal_route event) _ _ (fun _ => True) _ db Hr Hst Hn Hat
    (marshalled_route event) (tame_none (fun _ => True))) as Ho.
  unfold Enqueue. destruct (enqueue _ _ _ _ _ _) as [db' [e|err]].
  - destruct Ho as (Hr' & _ & raw' & [= <-] & ->). split; [done|]. split; [intros _|done].
    exists raw, event, at_. eexists. split; [done|]. split; [done|]. split; [exact Hok|].
    split; [|split; [|split; [|exact Hr']]]; done.
  - assert (represents (stored db') sp) as Hr' by by rewrite Ho.
    destruct (errorsIs err SFull); split_and!; try done; intros _; [by apply RecordDrop_keeps|by apply RecordError_keeps].
Qed.
End answers.

(** ** Witnesses *)

#[local] Instance ascii_hosts : UnicodeTables := { unicode_lower r := r }.

Definition log_spool : Store := MkStore ex_node 100000 100.
Definition ex_quoted (s : string) : string := String dq (s +:+ String dq "").
Definition ex_body : string :=
  "{" +:+ ex_quoted "email" +:+ ":" +:+ ex_quoted "alice@example.com" +:+ "," +:+ ex_quoted "network" +:+ ":"
  +:+ ex_quoted "tcp" +:+ "," +:+ ex_quoted "destination" +:+ ":" +:+ ex_quoted "tcp:Example.com:443" +:+ ","
  +:+ ex_quoted "outboundTag" +:+ ":" +:+ ex_quoted "direct" +:+ "," +:+ ex_quoted "ts" +:+ ":1700000000}".
Definition ex_request : Request := MkRequest "/xray-route" "POST" (RouteWebhookToken "secret") ex_body None.
Definition ex_route : RouteEvent := MkRoute "alice@example.com" "" "tcp" "example.com" 443 "" 0 "" 0 "direct".
Definition ex_raw : xrayRoutePayload :=
  MkPayload (Some "alice@example.com") None None (Some "tcp") None (Some "tcp:Example.com:443") None None None None None
    (Some "direct") 1700000000.

Example ex_decoded : decodeRoute (fun _ => true) ex_body EndOfBody = inl ex_raw.
Proof. vm_compute. reflexivity. Qed.
Example ex_trailing : decodeRoute (fun _ => true) (ex_body +:+ "x") EndOfBody = inr StatusBadRequest.
Proof. vm_compute. reflexivity. Qed.
Example ex_too_large : decodeRoute (fun _ => true) "{" TooLarge = inr StatusRequestEntityTooLarge.
Proof. vm_compute. reflexivity. Qed.

Lemma normalizeRoute_ok_witness : route_ok ex_route /\ (0 < 1700000000)%Z.
Proof.
  destruct (normalizeRoute_ok ex_raw ex_route (Unix 1700000000)) as (Hok & Hts & _); [vm_compute; reflexivity|].
  exact (conj Hok Hts).
Defined.

Lemma handle_exact_witness :
  exists e, @represents (@stored mem_bolt mem_bolt_laws
      (handle (fun _ => true) log_spool (RouteWebhookToken "secret") ex_request 0 ex_db0).1) (append e ex_spool0) /\
    ev_payload e = obj (route_members ex_route).
Proof.
  assert (store_ok log_spool ex_spool0) as Hst by (by split; vm_compute).
  assert (is_u64 (next ex_spool0 + 1)) as Hn by by vm_compute.
  pose proof (@handle_exact mem_bolt mem_bolt_laws ascii_hosts (fun _ => true) log_spool (RouteWebhookToken "secret")
    ex_spool0 ex_request 0 ex_db0 ex_represents0 Hst Hn) as Hh.
  assert ((@handle mem_bolt ascii_hosts (fun _ => true) log_spool (RouteWebhookToken "secret") ex_request 0 ex_db0).2 = StatusNoContent) as Hs
    by (vm_compute; reflexivity).
  destruct (handle _ _ _ _ _ _) as [db' status]. simpl in Hs. destruct Hh as (_ & Hh & _).
  destruct (Hh Hs) as (raw & event & at_ & e & Hd & He & _ & _ & _ & Hp & Hr). exists e. split; [exact Hr|].
  rewrite Hp. 
  assert (decodeRoute (fun _ => true) (limited_body ex_request).1 (limited_body ex_request).2 = inl ex_raw) as E0
    by (vm_compute; reflexivity).
  rewrite E0 in Hd. injection Hd as <-.
  assert (normalizeRoute ex_raw = Ok (ex_route, Unix 1700000000)) as E by (vm_compute; reflexivity).
  rewrite E in He. by injection He as <- _.
Defined.
