(* ===== verification/XrayStats.v ===== *)
(** * Traffic, online users and heartbeats (internal/telemetry/xray.go, runtime.go)

    [XrayCollector] asks the running Xray for its counters and its online users
    and queues one snapshot of each; a counter that went back, or another
    process, starts a new epoch.  [emitHeartbeat] queues the agent's own state. *)

From stdpp Require Import base gmap strings list fin_maps sorting.
From Stdlib Require Import ZArith NArith Ascii.
From S2P Require Import Prelude.
From S2P Require Import GoStrings.
From S2P Require Import Json.
From S2P Require Import Bolt.
From S2P Require Import Events.
From S2P Require Import EventSpool.
From S2P Require Import Fields.

(** ** The output of a command *)

Definition maxXrayAPIOutputBytes : Z := 4194304.

Record limitedBuffer : Set := MkBuffer { lb_data : string; lb_limit : Z; lb_exceeded : bool }.

Definition buffer_len (b : limitedBuffer) : Z := Z.of_N (slen (lb_data b)).

(** Write always reports all of [p] as written. *)
Definition Write (b : limitedBuffer) (p : string) : limitedBuffer * N :=
  let original := slen p in
  let remaining := (lb_limit b - buffer_len b)%Z in
  if (remaining <=? 0)%Z then (MkBuffer (lb_data b) (lb_limit b) true, original)
  else if (remaining <? Z.of_N (slen p))%Z
  then (MkBuffer (lb_data b +:+ stake (Z.to_nat remaining) p) (lb_limit b) true, original)
  else (MkBuffer (lb_data b +:+ p) (lb_limit b) (lb_exceeded b), original).

(** What the command writes to its output, piece by piece, and how it ends. *)
Record CommandRun : Set := MkRun { cr_output : list string; cr_end : result unit }.

Definition runXrayCommand (r : CommandRun) : result string :=
  let output := foldl (fun b p => (Write b p).1) (MkBuffer "" maxXrayAPIOutputBytes false) (cr_output r) in
  match cr_end r with
  | Err _ => Err (errorsNew "Xray API command failed")
  | Ok _ => if lb_exceeded output then Err (errorsNew "Xray API response exceeds limit") else Ok (lb_data output)
  end.

(** ** Numbers of protobuf's JSON *)

Definition quote_mark (c : ascii) : bool := eqc c dq.

Definition parseProtoUint64 (raw : string) : option N := ParseUint (TrimSet quote_mark raw) 64.
Definition parseProtoInt64 (raw : string) : option Z := ParseInt (TrimSet quote_mark raw).

(** ** Traffic *)

Record stat_entry : Set := MkStat { se_name : string; se_value : string }.

Definition stat_fields : list (string * setter stat_entry) :=
  [("name", fld dec_string (fun v e => MkStat v (se_value e)));
   ("value", raw_fld (fun v e => MkStat (se_name e) v))].

Definition stats_fields : list (string * setter (list stat_entry)) :=
  [("stat", fld (dec_slice (decode_obj true stat_fields (MkStat "" ""))) (fun l _ => l))].

Record trafficPair : Set := MkPair { tp_up : N; tp_down : N }.

Definition userPrefix : string := "user>>>".
Definition uplink : string := ">>>traffic>>>uplink".
Definition downlink : string := ">>>traffic>>>downlink".

Fixpoint contains (sub s : string) : bool :=
  HasPrefix s sub || match s with String _ r => contains sub r | "" => false end.

(** One counter into the map of the users. *)
Definition add_stat (users : gmap string trafficPair) (stat : stat_entry) : result (gmap string trafficPair) :=
  let up := HasPrefix (se_name stat) userPrefix && HasSuffix (se_name stat) uplink in
  let down := HasPrefix (se_name stat) userPrefix && HasSuffix (se_name stat) downlink in
  if negb (up || down) then Ok users
  else
    let suffix := if up then uplink else downlink in
    match cleanToken (TrimSuffix (TrimPrefix (se_name stat) userPrefix) suffix) 254 false with
    | Err _ => Err (errorsNew "invalid Xray traffic user")
    | Ok email =>
        if contains ">>>" email then Err (errorsNew "invalid Xray traffic user")
        else match parseProtoUint64 (se_value stat) with
             | None => Err (errorsNew "invalid Xray traffic counter")
             | Some value =>
                 let pair := default (MkPair 0 0) (users !! email) in
                 Ok (<[email := if up then MkPair value (tp_down pair) else MkPair (tp_up pair) value]> users)
             end
    end.

Fixpoint add_stats (users : gmap string trafficPair) (stats : list stat_entry) : result (gmap string trafficPair) :=
  match stats with
  | [] => Ok users
  | stat :: rest => let? users := add_stat users stat in add_stats users rest
  end.

(** The first value of the output counts; what follows it is not read. *)
Definition parseTrafficStats (raw : string) : result (gmap string trafficPair) :=
  match first_text raw with
  | None => Err (errorsNew "invalid Xray traffic response")
  | Some (value, _) =>
      match decode_obj true stats_fields [] value with
      | None => Err (errorsNew "invalid Xray traffic response")
      | Some stats => add_stats ∅ stats
      end
  end.

Record TrafficUser : Set := MkTraffic { tu_email : string; tu_up : N; tu_down : N; tu_epoch : N }.

Definition traffic_members (u : TrafficUser) : list (string * string) :=
  [("email", quote (tu_email u)); ("upBytes", FormatUint (tu_up u)); ("downBytes", FormatUint (tu_down u));
   ("counterEpoch", FormatUint (tu_epoch u))].

(** A snapshot: the run of Xray and its users. *)
Definition snapshot (runtimeID : string) (users : list string) : result string :=
  Ok (obj [("runtimeId", quote runtimeID); ("users", arr users)]).

Definition marshal_traffic (runtimeID : string) (users : list TrafficUser) : result string :=
  snapshot runtimeID ((fun u => obj (traffic_members u)) <$> users).

(** ** Online users *)

Record online_ip : Set := MkIP { oi_ip : string; oi_lastSeen : string }.
Record online_entry : Set := MkOnline { oe_email : string; oe_ips : list online_ip }.

Definition ip_fields : list (string * setter online_ip) :=
  [("ip", fld dec_string (fun v e => MkIP v (oi_lastSeen e)));
   ("lastSeen", raw_fld (fun v e => MkIP (oi_ip e) v))].

Definition online_fields : list (string * setter online_entry) :=
  [("email", fld dec_string (fun v e => MkOnline v (oe_ips e)));
   ("ips", fld (dec_slice (decode_obj true ip_fields (MkIP "" ""))) (fun l e => MkOnline (oe_email e) l))].

Definition onlines_fields : list (string * setter (list online_entry)) :=
  [("users", fld (dec_slice (decode_obj true online_fields (MkOnline "" []))) (fun l _ => l))].

Record OnlineUser : Set := MkUser { ou_email : string; ou_ipCount : N; ou_lastSeen : Z }.

Definition online_members (u : OnlineUser) : list (string * string) :=
  [("email", quote (ou_email u)); ("ipCount", FormatUint (ou_ipCount u)); ("lastSeenAt", FormatInt (ou_lastSeen u))].

Definition marshal_online (runtimeID : string) (users : list OnlineUser) : result string :=
  snapshot runtimeID ((fun u => obj (online_members u)) <$> users).

(** The latest time an address was seen, from [seen] on. *)
Fixpoint last_seen (seen : Z) (ips : list online_ip) : result Z :=
  match ips with
  | [] => Ok seen
  | entry :: rest =>
      match parseProtoInt64 (oi_lastSeen entry) with
      | None => Err (errorsNew "invalid Xray online timestamp")
      | Some value => last_seen (if (seen <? value)%Z then value else seen) rest
      end
  end.

Definition uint32 (n : N) : N := (n mod 4294967296)%N.

Definition online_user (entry : online_entry) : result OnlineUser :=
  match cleanToken (oe_email entry) 254 false with
  | Err _ => Err (errorsNew "invalid Xray online user")
  | Ok email =>
      let? lastSeen := last_seen 0 (oe_ips entry) in
      Ok (MkUser email (uint32 (N.of_nat (length (oe_ips entry)))) lastSeen)
  end.

Fixpoint online_users (entries : list online_entry) : result (list OnlineUser) :=
  match entries with
  | [] => Ok []
  | entry :: rest => let? user := online_user entry in let? users := online_users rest in Ok (user :: users)
  end.

(** sort.Slice by email: the order of users with the same email is the
    algorithm's own. *)
Class SortSlice : Type := {
  sort_by_email : forall A : Type, (A -> string) -> list A -> list A
}.

(** Its contract: a rearrangement in which no email comes before a smaller one. *)
Class SortSliceLaws `{SortSlice} : Prop := {
  sort_permutes A (key : A -> string) l : sort_by_email A key l ≡ₚ l;
  sort_sorted A (key : A -> string) l i j x y : (i < j)%nat ->
    sort_by_email A key l !! i = Some x -> sort_by_email A key l !! j = Some y -> slt (key y) (key x) = false
}.

Section sorted.
Context `{SortSlice}.

Definition parseOnlineStats (raw : string) : result (list OnlineUser) :=
match first_text raw with
| None => Err (errorsNew "invalid Xray online response")
| Some (value, _) =>
    match decode_obj true onlines_fields [] value with
    | None => Err (errorsNew "invalid Xray online response")
    | Some entries => let? users := online_users entries in Ok (sort_by_email OnlineUser ou_email users)
    end
end.
End sorted.

(** ** The collector *)

Record XrayState : Set := MkState {
  xs_running : bool;
  xs_startedAt : Z;
  xs_configVersion : N
}.

Section collector.
Context `{Bolt} `{SortSlice}.
Variable st : Store.

(** The epoch of a user's counters after a reading. *)
Definition next_epoch (runtimeID : string) (previous : option TrafficCounter) (values : trafficPair) : N :=
match previous with
| Some p =>
    if bool_decide (tc_runtime p = runtimeID) then
      if (tp_up values <? tc_up p)%N || (tp_down values <? tc_down p)%N then u64_add (tc_epoch p) 1 else tc_epoch p
    else 0%N
| None => 0%N
end.

(** The users of a snapshot with their new counters, in the order of the map. *)
Fixpoint snapshot_users (runtimeID : string) (current : list (string * trafficPair)) (db : DB) :
  result (list (TrafficUser * TrafficCounter)) :=
match current with
| [] => Ok []
| (email, values) :: rest =>
    let? previous := TrafficCounterOf email db in
    let epoch := next_epoch runtimeID previous values in
    let? users := snapshot_users runtimeID rest db in
    Ok ((MkTraffic email (tp_up values) (tp_down values) epoch,
         MkCounter runtimeID (tp_up values) (tp_down values) epoch) :: users)
end.

Definition collectTraffic (answer : result string) (runtimeID : string) (observedAt : Z) (db : DB) : DB * result unit :=
match answer with
| Err e => (db, Err (errorW "query traffic: " e))
| Ok raw =>
    match parseTrafficStats raw with
    | Err e => (db, Err e)
    | Ok current =>
        match snapshot_users runtimeID (map_to_list current) db with
        | Err e => (db, Err e)
        | Ok users =>
            let sorted := sort_by_email TrafficUser tu_email users.*1 in
            let counters := (fun u : TrafficUser * TrafficCounter => (tu_email u.1, u.2)) <$> users in
            match EnqueueTrafficSnapshot st observedAt (marshal_traffic runtimeID sorted) counters db with
            | (db, Ok _) => (db, Ok tt)
            | (db, Err e) => (db, Err e)
            end
        end
    end
end.

Definition collectOnline (answer : result string) (runtimeID : string) (observedAt : Z) (db : DB) : DB * result unit :=
match answer with
| Err e => (db, Err (errorW "query online users: " e))
| Ok raw =>
    match parseOnlineStats raw with
    | Err e => (db, Err e)
    | Ok users =>
        match Enqueue st EventKindOnlineSnapshot observedAt (marshal_online runtimeID users) db with
        | (db, Ok _) => (db, Ok tt)
        | (db, Err e) => (db, Err e)
        end
    end
end.

Definition recordCollectionError (r : DB * result unit) (now : Z) : DB :=
match r with
| (db, Ok _) => db
| (db, Err e) => if errorsIs e SFull then (RecordDrop EventKindTrafficSnapshot now db).1
                 else (RecordError "xray_telemetry_failed" now db).1
end.

(** One tick; [traffic] and [online] are what the two commands do. *)
Definition collect_stats (state : XrayState) (traffic online : CommandRun) (now : Z) (db : DB) : DB :=
if negb (xs_running state) || (xs_startedAt state <=? 0)%Z then db
else
  let runtimeID := FormatInt (xs_startedAt state) in
  let db := recordCollectionError (collectTraffic (runXrayCommand traffic) runtimeID now db) now in
  recordCollectionError (collectOnline (runXrayCommand online) runtimeID now db) now.

(** ** Heartbeats (runtime.go) *)

Definition RuntimeInfo (now : Z) (db : DB) : EventQueueInfo :=
match Info db with
| Ok info => info
| Err _ => MkInfo true "" 0 0 0 0 0 0 0 0 0 (UnixMilli now) "event_spool_status_failed" 0 0 0
end.

Definition heartbeat_members (startedAt : Z) (xray : XrayState) (info : EventQueueInfo) : list (string * string) :=
[("agentStartedAt", FormatInt startedAt); ("xrayRunning", if xs_running xray then "true" else "false");
 ("xrayStartedAt", FormatInt (xs_startedAt xray)); ("xrayConfigVersion", FormatUint (xs_configVersion xray));
 ("queueEvents", FormatUint (qi_pending_events info)); ("queueBytes", FormatUint (qi_pending_bytes info));
 ("oldestQueuedAt", FormatInt (qi_oldest info)); ("droppedRoute", FormatUint (qi_dropped_route info));
 ("droppedTelemetry", FormatUint (qi_dropped_telemetry info)); ("lastDropAt", FormatInt (qi_drop_at info))].

Definition emitHeartbeat (startedAt : Z) (xray : XrayState) (now : Z) (db : DB) : DB :=
match Enqueue st EventKindHeartbeat now (Ok (obj (heartbeat_members startedAt xray (RuntimeInfo now db)))) db with
| (db, Ok _) => db
| (db, Err e) => if errorsIs e SFull then (RecordDrop EventKindHeartbeat now db).1
                 else (RecordError "event_heartbeat_failed" now db).1
end.
End collector.
