(* ===== verification/XrayStatsProofs.v ===== *)
(** * What the snapshots of the Xray counters guarantee

    The output of a command is taken whole or not at all; a traffic snapshot
    that is queued has moved every counter it reports, and no other, in the same
    transaction, with an epoch in which no counter goes back. *)

From stdpp Require Import base gmap strings list fin_maps sorting.
From Stdlib Require Import ZArith NArith Ascii.
From S2P Require Import Prelude.
From S2P Require Import GoStrings.
From S2P Require Import Json.
From S2P Require Import Decoded.
From S2P Require Import Bolt.
From S2P Require Import Events.
From S2P Require Import EventSpool.
From S2P Require Import SpoolProofs.
From S2P Require Import SpoolTheorems.
From S2P Require Import Fields.
From S2P Require Import AccessHistory.
From S2P Require Import XrayStats.

(** ** The output of a command *)

Definition joined (l : list string) : string := foldr String.append "" l.

Lemma joined_snoc l p : joined (l ++ [p]) = joined l +:+ p.
Proof. induction l as [|x l IH]; simpl; [by rewrite sapp_nil_r|]. by rewrite IH, sapp_assoc. Qed.

Lemma stake_app_min n s t : stake n (s +:+ t) = stake n s +:+ stake (n - String.length s) t.
Proof.
  revert s. induction n as [|n IH]; intros [|c s]; simpl; try done. by rewrite IH.
Qed.

Lemma stake_le n s : (String.length s <= n)%nat -> stake n s = s.
Proof. revert n. induction s as [|c s IH]; intros [|n] Hn; simpl in *; try done; [lia|]. rewrite IH by lia. done. Qed.

(** The buffer after some writes: the first bytes, and whether there were more. *)
Lemma writes_joined limit l : Forall (fun p => p <> "") l ->
  foldl (fun b p => (Write b p).1) (MkBuffer "" (Z.of_N limit) false) l
  = MkBuffer (stake (N.to_nat limit) (joined l)) (Z.of_N limit) (limit <? slen (joined l))%N.
Proof.
  induction l as [|p l IH] using rev_ind; intros Hl.
  - simpl. f_equal; [by destruct (N.to_nat limit)|]. symmetry. apply N.ltb_ge. unfold slen. simpl. lia.
  - apply Forall_app in Hl as [Hl [Hp _]%Forall_cons]. rewrite foldl_app, IH by done. cbn [foldl].
    rewrite joined_snoc, stake_app_min. set (t := joined l). unfold Write, buffer_len. cbn [lb_data lb_limit lb_exceeded].
    assert (1 <= String.length p)%nat as Hp1 by (destruct p; [done|simpl; lia]).
    unfold slen. rewrite slength_app.
    destruct (le_gt_dec (N.to_nat limit) (String.length t)) as [Hle|Hgt].
    + rewrite stake_exact by done. rewrite (proj2 (Z.leb_le _ _)) by lia.
      rewrite (proj2 (N.ltb_lt _ _)) by lia.
      replace (N.to_nat limit - String.length t)%nat with 0%nat by lia. simpl. by rewrite sapp_nil_r.
    + rewrite (stake_le _ t) by lia. rewrite (proj2 (Z.leb_gt _ _)) by lia.
      destruct (Z.ltb_spec (Z.of_N limit - Z.of_N (N.of_nat (String.length t))) (Z.of_N (N.of_nat (String.length p)))) as [Hlt|Hge].
      * cbn [fst]. rewrite (proj2 (N.ltb_lt _ _)) by lia. f_equal. f_equal. f_equal. lia.
      * cbn [fst]. rewrite (stake_le _ p) by lia. f_equal.
        rewrite (proj2 (N.ltb_ge limit _)) by lia. symmetry. apply N.ltb_ge. lia.
Qed.

(** The output of an Xray command is used as a whole, all the pieces in
    order, and only if it stays within the limit. *)
Theorem runXrayCommand_exact r out : Forall (fun p => p <> "") (cr_output r) ->
  runXrayCommand r = Ok out <->
  is_ok (cr_end r) = true /\ out = joined (cr_output r) /\ (Z.of_N (slen out) <= maxXrayAPIOutputBytes)%Z.
Proof.
  intros Hne. unfold runXrayCommand. change maxXrayAPIOutputBytes with (Z.of_N 4194304).
  rewrite writes_joined by done. cbn [lb_exceeded lb_data].
  destruct (cr_end r) as [u|e]; cbn [is_ok]; [|naive_solver].
  destruct (N.ltb_spec 4194304 (slen (joined (cr_output r)))) as [Hlt|Hge].
  - split; [done|]. intros (_ & -> & Hl). lia.
  - rewrite stake_le by (unfold slen in *; lia). split; [intros [= <-]; split_and!; [done..|lia]|].
    by intros (_ & -> & _).
Qed.

Lemma runXrayCommand_exact_witness :
  runXrayCommand (MkRun ["ab"; "c"] (Ok tt)) = Ok "abc".
Proof.
  apply (runXrayCommand_exact (MkRun ["ab"; "c"] (Ok tt)) "abc"); [by repeat constructor|].
  split_and!; [done..|by vm_compute].
Defined.

(** ** What was decoded *)

Lemma decoded_epoch raw c : decode_counter raw = Ok c -> is_u64 (tc_epoch c).
Proof.
  unfold decode_counter. destruct (decode_text _ _ _ _) as [c'|] eqn:E; [|done]. intros [= <-].
  eapply (decode_text_keeps (fun c => is_u64 (tc_epoch c))), E; [|done]. unfold counter_fields. each_field.
  all: first [by eapply (fld_keeps _ (fun _ => True))|by eapply (fld_keeps _ is_u64); [apply (dec_uint_below 64)|]].
Qed.

(** The counters of a snapshot are words of 64 bits and belong to somebody. *)
Definition counted (email : string) (p : trafficPair) : Prop := email <> "" /\ is_u64 (tp_up p) /\ is_u64 (tp_down p).

Lemma add_stat_counted users stat users' :
  map_Forall counted users -> add_stat users stat = Ok users' -> map_Forall counted users'.
Proof.
  intros Hu. unfold add_stat. destruct (negb _); [by intros [= <-]|].
  destruct (cleanToken _ _ _) as [email|e] eqn:Ec; [|done]. destruct (contains _ email); [done|].
  destruct (parseProtoUint64 _) as [v|] eqn:Ev; [|done]. intros [= <-].
  apply cleanToken_ok in Ec as (_ & _ & Hne). apply ParseUint_bound in Ev.
  assert (is_u64 (tp_up (default (MkPair 0 0) (users !! email))) /\
          is_u64 (tp_down (default (MkPair 0 0) (users !! email)))) as [H1 H2].
  { destruct (users !! email) as [p|] eqn:E; [|done]. by destruct (Hu _ _ E) as (_ & ? & ?). }
  apply map_Forall_insert_2; [|done].
  match goal with |- counted _ (if ?b then _ else _) => destruct b end;
    (split; [exact (Hne eq_refl)|split; first [exact Ev|exact H1|exact H2]]).
Qed.

Lemma parsed_counted raw users : parseTrafficStats raw = Ok users -> map_Forall counted users.
Proof.
  unfold parseTrafficStats. destruct (first_text raw) as [[v r]|]; [|done].
  destruct (decode_obj _ _ _ _) as [stats|]; [|done].
  assert (forall l u u', map_Forall counted u -> add_stats u l = Ok u' -> map_Forall counted u') as Hl.
  { induction l as [|x l IH]; intros u u' Hu; cbn [add_stats]; [by intros [= <-]|].
    intros (u1 & H1 & H2)%rbind_Ok. eapply IH; [|exact H2]. by eapply add_stat_counted. }
  intros Hs. eapply Hl; [|exact Hs]. apply map_Forall_empty.
Qed.

(** ** Marshalled snapshots *)

Lemma snapshot_marshalled runtimeID users : Forall (fun u => jv u /\ compacted u) users ->
  marshalled (snapshot runtimeID users).
Proof.
  intros Hu. split.
  - apply jv_object. apply Forall_cons; split; [split; [done|apply jv_quote]|]. apply Forall_singleton.
    split; [done|]. apply jv_arr. eapply Forall_impl; [exact Hu|]. naive_solver.
  - apply compacted_compact, compacted_obj. apply Forall_cons; split; [apply compacted_quote|]. apply Forall_singleton.
    apply compacted_arr. eapply Forall_impl; [exact Hu|]. naive_solver.
Qed.

Lemma marshalled_traffic runtimeID users : marshalled (marshal_traffic runtimeID users).
Proof.
  apply snapshot_marshalled, Forall_fmap, Forall_true. intros u. split.
  - apply jv_obj; [done|]. unfold traffic_members. members_ok.
  - apply compacted_obj. unfold traffic_members. repeat constructor; simpl; apply compacted_quote || apply compacted_uint.
Qed.

Lemma marshalled_online runtimeID users : marshalled (marshal_online runtimeID users).
Proof.
  apply snapshot_marshalled, Forall_fmap, Forall_true. intros u. split.
  - apply jv_obj; [done|]. unfold online_members. members_ok.
  - apply compacted_obj. unfold online_members.
    repeat constructor; simpl; apply compacted_quote || apply compacted_uint || apply compacted_int.
Qed.

(** ** Counters in the database *)

Section counters.
Context `{BL : BoltLaws} `{SL : SortSliceLaws}.
Variable st : Store.

Lemma TrafficCounterOf_value email db ct : stored db !! bucketCounters = Some ct ->
  TrafficCounterOf email db = if (slen (get email ct) =? 0)%N then Ok None
                              else match decode_counter (get email ct) with Ok c => Ok (Some c) | Err e => Err e end.
Proof.
  intros Hct. unfold TrafficCounterOf, View, tbind, tget, tlift, tret. rewrite (get_law _ _ _ _ Hct). unfold get.
  destruct (slen _ =? 0)%N; [done|]. by destruct (decode_counter _).
Qed.

Lemma previous_epoch email db ct p : stored db !! bucketCounters = Some ct ->
  TrafficCounterOf email db = Ok (Some p) -> is_u64 (tc_epoch p).
Proof.
  intros Hct. rewrite (TrafficCounterOf_value _ _ _ Hct). destruct (slen _ =? 0)%N; [done|].
  destruct (decode_counter _) as [c|] eqn:E; [|done]. intros [= <-]. by eapply decoded_epoch.
Qed.

Lemma counter_writes_other counters email m : email ∉ counters.*1 ->
  counter_writes counters m !! email = m !! email.
Proof.
  revert m. induction counters as [|[k c] l IH]; intros m Hk; [done|].
  cbn [fmap list_fmap fst] in Hk. apply not_elem_of_cons in Hk as [Hne Hl].
  unfold counter_writes in *. cbn [foldl fst snd]. rewrite IH by done. by rewrite lookup_insert_ne.
Qed.

Lemma counter_writes_at counters email c m : NoDup counters.*1 -> (email, c) ∈ counters ->
  counter_writes counters m !! email = Some (encode_counter c).
Proof.
  revert m. induction counters as [|[k d] l IH]; intros m Hnd Hin; [by apply not_elem_of_nil in Hin|].
  cbn [fmap list_fmap fst] in Hnd. apply NoDup_cons in Hnd as [Hk Hnd]. unfold counter_writes in *. cbn [foldl fst snd].
  apply elem_of_cons in Hin as [[= -> ->]|Hin]; [|by apply IH].
  etrans; [exact (counter_writes_other l k _ Hk)|]. by rewrite lookup_insert_eq.
Qed.

(** The users that are written, one for each of the report. *)
Lemma snapshot_users_spec runtimeID current db users :
  snapshot_users runtimeID current db = Ok users ->
  Forall2 (fun kv u => exists previous, TrafficCounterOf kv.1 db = Ok previous /\
    u = (MkTraffic kv.1 (tp_up kv.2) (tp_down kv.2) (next_epoch runtimeID previous kv.2),
         MkCounter runtimeID (tp_up kv.2) (tp_down kv.2) (next_epoch runtimeID previous kv.2))) current users.
Proof.
  revert users. induction current as [|[email values] rest IH]; intros users Hu; simpl in Hu; [by injection Hu as <-|].
  apply rbind_Ok in Hu as (previous & Hp & (more & Hm & [= <-])%rbind_Ok). constructor; [by exists previous|by apply IH].
Qed.

(** A reading continues the stored counters, or starts another epoch. *)
Definition continues (runtimeID : string) (previous : option TrafficCounter) (c : TrafficCounter) : Prop :=
tc_runtime c = runtimeID /\
match previous with
| Some p => tc_runtime p = runtimeID ->
    tc_epoch c = tc_epoch p /\ (tc_up p <= tc_up c)%N /\ (tc_down p <= tc_down c)%N \/
    tc_epoch c = u64_add (tc_epoch p) 1 /\ ((tc_up c < tc_up p)%N \/ (tc_down c < tc_down p)%N)
| None => True
end.

Lemma next_epoch_continues runtimeID previous v :
  continues runtimeID previous (MkCounter runtimeID (tp_up v) (tp_down v) (next_epoch runtimeID previous v)).
Proof.
  split; [done|]. destruct previous as [p|]; [|done]. cbn [tc_runtime tc_up tc_down tc_epoch]. intros Hp.
  unfold next_epoch. rewrite bool_decide_true by done.
  destruct (N.ltb_spec (tp_up v) (tc_up p)), (N.ltb_spec (tp_down v) (tc_down p)); simpl; auto 6.
Qed.

Lemma next_epoch_u64 runtimeID previous v : (forall p, previous = Some p -> is_u64 (tc_epoch p)) ->
  is_u64 (next_epoch runtimeID previous v).
Proof.
  intros Hp. unfold next_epoch. destruct previous as [p|]; [|done]. specialize (Hp p eq_refl).
  repeat case_match; try done. apply u64_add_lt.
Qed.

Lemma FormatInt_valid z : ValidString (FormatInt z) = true.
Proof.
  apply is_ascii_ValidString. destruct z; [done|..]; [|apply andb_true_iff; split; [done|]].
  all: eapply sforall_impl; [|apply FormatUint_digits]; intros c; by destruct c as [[] [] [] [] [] [] [] []].
Qed.

(** The counters after a snapshot was queued. *)
Lemma stored_counters runtimeID current db db' ct users :
  ValidString runtimeID = true -> map_Forall counted current ->
  stored db !! bucketCounters = Some ct ->
  snapshot_users runtimeID (map_to_list current) db = Ok users ->
  stored db' !! bucketCounters = Some (counter_writes ((fun u : TrafficUser * TrafficCounter => (tu_email u.1, u.2)) <$> users) ct) ->
  forall email,
    match current !! email with
    | Some v => exists previous c, TrafficCounterOf email db = Ok previous /\ TrafficCounterOf email db' = Ok (Some c) /\
        tc_up c = tp_up v /\ tc_down c = tp_down v /\ continues runtimeID previous c
    | None => TrafficCounterOf email db' = TrafficCounterOf email db
    end.
Proof.
  intros Hv Hcur Hct Hu%snapshot_users_spec Hct' email.
  set (cs := (fun u : TrafficUser * TrafficCounter => (tu_email u.1, u.2)) <$> users) in *.
  assert (cs.*1 = (map_to_list current).*1) as Hkeys.
  { unfold cs. clear - Hu. induction Hu as [|[k v] u l l' (p & _ & ->) _ IH]; [done|].
    cbn [fmap list_fmap] in *. by f_equal. }
  rewrite (TrafficCounterOf_value _ _ _ Hct'). destruct (current !! email) as [v|] eqn:Ev.
  - apply elem_of_map_to_list in Ev as Hin. apply list_elem_of_lookup in Hin as [i Hi].
    destruct (Forall2_lookup_l _ _ _ _ _ Hu Hi) as (u & Hui & previous & Hprev & ->). cbn [fst snd] in *.
    destruct (Hcur _ _ Ev) as (Hne & H1 & H2).
    set (c := MkCounter runtimeID (tp_up v) (tp_down v) (next_epoch runtimeID previous v)).
    assert (counter_ok c) as Hc.
    { split_and!; [done..|]. apply next_epoch_u64. intros p ->. exact (previous_epoch _ _ _ _ Hct Hprev). }
    assert (get email (counter_writes cs ct) = encode_counter c) as Eg.
    { unfold get. rewrite (counter_writes_at cs email c); [done|rewrite Hkeys; apply NoDup_fst_map_to_list|].
      apply list_elem_of_lookup. exists i. unfold cs. by rewrite list_lookup_fmap, Hui. }
    exists previous, c. split; [done|]. split; [|split; [done|split; [done|apply next_epoch_continues]]].
    rewrite Eg, decode_encode_counter by done. unfold encode_counter. by rewrite obj_unfold.
  - rewrite (TrafficCounterOf_value _ _ _ Hct). assert (get email (counter_writes cs ct) = get email ct) as ->; [|done].
    unfold get. rewrite counter_writes_other; [done|]. rewrite Hkeys. intros Hin.
    apply list_elem_of_fmap in Hin as ([k v] & -> & Hin). apply elem_of_map_to_list in Hin. simpl in Ev. congruence.
Qed.

(** The users of the event: those of the report, with the counters stored. *)
Lemma reported_users runtimeID current db users u :
  snapshot_users runtimeID (map_to_list current) db = Ok users ->
  u ∈ sort_by_email TrafficUser tu_email users.*1 <->
  exists v previous, current !! tu_email u = Some v /\ TrafficCounterOf (tu_email u) db = Ok previous /\
    u = MkTraffic (tu_email u) (tp_up v) (tp_down v) (next_epoch runtimeID previous v).
Proof.
  intros Hu%snapshot_users_spec. rewrite (sort_permutes TrafficUser tu_email users.*1). split.
  - intros Hin. apply list_elem_of_fmap in Hin as ([u' c] & -> & Hin). apply list_elem_of_lookup in Hin as [i Hi].
    destruct (Forall2_lookup_r _ _ _ _ _ Hu Hi) as ([k v] & Hk & previous & Hp & [= -> ->]). cbn [fst snd tu_email] in *.
    exists v, previous. split; [|done]. apply elem_of_map_to_list, list_elem_of_lookup. by exists i.
  - intros (v & previous & Hv & Hp & E). apply elem_of_map_to_list, list_elem_of_lookup in Hv as [i Hi].
    destruct (Forall2_lookup_l _ _ _ _ _ Hu Hi) as ([u' c] & Hui & previous' & Hp' & [= E1 E2]). cbn [fst snd] in *.
    rewrite Hp in Hp'. injection Hp' as <-. apply list_elem_of_fmap. exists (u', c). split; [by rewrite E, E1|].
    apply list_elem_of_lookup. by exists i.
Qed.

(** C36: a traffic snapshot is all or nothing: when it succeeds its event is the
    last of the queue, with the users of the report sorted by email, and the
    stored counter of each of them, and of nobody else, is the reading, in the same epoch if no counter went back
    and in the next one otherwise; when it fails nothing has changed. *)
Theorem collectTraffic_exact answer runtimeID observedAt sp db :
  represents (stored db) sp -> store_ok st sp -> is_u64 (next sp + 1) -> is_i64 (UnixMilli observedAt) ->
  ValidString runtimeID = true ->
  match collectTraffic st answer runtimeID observedAt db with
  | (db', Ok _) => exists raw current users e, answer = Ok raw /\ parseTrafficStats raw = Ok current /\
      represents (stored db') (append e sp) /\ ev_kind e = EventKindTrafficSnapshot /\
      marshal_traffic runtimeID users = Ok (ev_payload e) /\
      (forall u, u ∈ users <-> exists v previous, current !! tu_email u = Some v /\
        TrafficCounterOf (tu_email u) db = Ok previous /\
        u = MkTraffic (tu_email u) (tp_up v) (tp_down v) (next_epoch runtimeID previous v)) /\
      (forall i j x y, (i < j)%nat -> users !! i = Some x -> users !! j = Some y ->
        slt (tu_email y) (tu_email x) = false) /\
      forall email,
        match current !! email with
        | Some v => exists previous c, TrafficCounterOf email db = Ok previous /\
            TrafficCounterOf email db' = Ok (Some c) /\
            tc_up c = tp_up v /\ tc_down c = tp_down v /\ continues runtimeID previous c
        | None => TrafficCounterOf email db' = TrafficCounterOf email db
        end
  | (db', Err _) => stored db' = stored db
  end.
Proof.
  intros Hr Hst Hn Hi Hv. unfold collectTraffic. destruct answer as [raw|e]; [|done].
  destruct (parseTrafficStats raw) as [current|e] eqn:Ep; [|done].
  destruct (snapshot_users _ _ _) as [users|e] eqn:Eu; [|done].
  set (sorted := sort_by_email _ _ _). set (cs := (fun u : TrafficUser * TrafficCounter => (tu_email u.1, u.2)) <$> users).
  pose proof (enqueue_step st sp EventKindTrafficSnapshot observedAt (marshal_traffic runtimeID sorted) bucketCounters
    (counter_writes cs) (fun _ => BoltLive -> exists c, ("", c) ∈ cs) (put_counters cs) db Hr Hst Hn Hi
    (marshalled_traffic _ _) (tame_counters cs)) as Ho.
  unfold EnqueueTrafficSnapshot. destruct (enqueue _ _ _ _ _ _) as [db' [e|err]]; [|done].
  destruct Ho as (Hr' & Hoth & raw' & Hm & ->). destruct (re_counters _ _ Hr) as [ct Hct].
  exists raw, current, sorted. eexists. split; [done|]. split; [done|]. split; [exact Hr'|]. split; [done|]. split; [exact Hm|].
  split; [intros u; by apply reported_users|]. split; [intros i j x y; apply sort_sorted|].
  eapply stored_counters; [done|by eapply parsed_counted|exact Hct|exact Eu|].
  rewrite Hoth by by right. by rewrite lookup_alter_eq, Hct.
Qed.
End counters.

(** ** Witnesses *)

(** Insertion by email keeps the contract of sort.Slice. *)
Fixpoint insert_by {A} (key : A -> string) (x : A) (l : list A) : list A :=
  match l with
  | [] => [x]
  | y :: r => if slt (key y) (key x) then y :: insert_by key x r else x :: l
  end.

#[local] Instance insertion_sort : SortSlice := {
  sort_by_email A key l := foldr (insert_by key) [] l
}.

Lemma insert_by_perm {A} (key : A -> string) x l : insert_by key x l ≡ₚ x :: l.
Proof.
  induction l as [|y r IH]; [done|]. simpl. destruct (slt _ _); [|done]. rewrite IH. apply Permutation_swap.
Qed.

Definition in_order {A} (key : A -> string) : list A -> Prop :=
  StronglySorted (fun x y => slt (key y) (key x) = false).

Lemma not_slt_trans a b c : slt a b = false -> slt b c = false -> slt a c = false.
Proof.
  intros H1 H2. apply not_true_is_false. intros H3. apply slt_le in H3 as [H3 Hne].
  assert (String.le b a) as Hba.
  { destruct (base.total String.le a b) as [Hab|Hba]; [|done]. destruct (decide (a = b)) as [->|Hn]; [done|].
    assert (slt a b = true) as Ht by (apply slt_le; done). congruence. }
  assert (String.le c b) as Hcb.
  { destruct (base.total String.le b c) as [Hbc|Hcb]; [|done]. destruct (decide (b = c)) as [->|Hn]; [done|].
    assert (slt b c = true) as Ht by (apply slt_le; done). congruence. }
  apply Hne. apply (anti_symm String.le); [done|]. by transitivity b.
Qed.

Lemma insert_by_sorted {A} (key : A -> string) x l : in_order key l -> in_order key (insert_by key x l).
Proof.
  unfold in_order. induction 1 as [|y r Hs IH Hy]; simpl; [repeat constructor|].
  destruct (slt (key y) (key x)) eqn:E.
  - constructor; [done|]. rewrite insert_by_perm. constructor; [by apply slt_asym|done].
  - constructor; [by constructor|]. constructor; [done|]. eapply Forall_impl; [exact Hy|].
    intros z Hz. by apply (not_slt_trans _ (key y)).
Qed.

#[local] Instance insertion_sort_laws : SortSliceLaws.
Proof.
  split.
  - intros A key l. induction l as [|x l IH]; [done|]. simpl in *. by rewrite insert_by_perm, IH.
  - intros A key l i j x y Hij Hi Hj.
    assert (in_order key (foldr (insert_by key) [] l)) as Hs.
    { clear. induction l as [|x l IH]; [constructor|]. by apply insert_by_sorted. }
    simpl in Hi, Hj. revert i j Hij Hi Hj. induction Hs as [|z r Hs IH Hz]; intros i j Hij Hi Hj; [done|].
    destruct j as [|j]; [lia|]. destruct i as [|i]; simpl in *.
    + injection Hi as ->. rewrite Forall_forall in Hz. apply Hz. by eapply list_elem_of_lookup_2.
    + apply (IH i j); [lia|done..].
Qed.

Definition q (s : string) : string := String dq (s +:+ String dq "").
Definition stats_raw : string :=
  "{" +:+ q "stat" +:+ ":[{" +:+ q "name" +:+ ":" +:+ q "user>>>alice>>>traffic>>>uplink" +:+ "," +:+ q "value" +:+ ":" +:+ q "7"
  +:+ "},{" +:+ q "name" +:+ ":" +:+ q "user>>>alice>>>traffic>>>downlink" +:+ "," +:+ q "value" +:+ ":9}]}".

Example stats_parsed : parseTrafficStats stats_raw = Ok {["alice" := MkPair 7 9]}.
Proof. vm_compute. reflexivity. Qed.

Definition stats_store : Store := MkStore ex_node 100000 100.

Lemma collectTraffic_exact_witness :
  exists c, @TrafficCounterOf mem_bolt "alice"
      (@collectTraffic mem_bolt insertion_sort stats_store (Ok stats_raw) "1700000000" ex_time ex_db0).1 = Ok (Some c) /\
    tc_up c = 7%N /\ tc_down c = 9%N /\ continues "1700000000" None c.
Proof.
  assert (store_ok stats_store ex_spool0) as Hst by (by split; vm_compute).
  assert (is_u64 (next ex_spool0 + 1)) as Hn by by vm_compute.
  assert (is_i64 (UnixMilli ex_time)) as Hi by by vm_compute.
  pose proof (@collectTraffic_exact mem_bolt mem_bolt_laws insertion_sort insertion_sort_laws stats_store (Ok stats_raw)
    "1700000000" ex_time ex_spool0 ex_db0 ex_represents0 Hst Hn Hi eq_refl) as Hc.
  assert (is_ok (@collectTraffic mem_bolt insertion_sort stats_store (Ok stats_raw) "1700000000" ex_time ex_db0).2 = true) as Hok
    by (vm_compute; reflexivity).
  destruct (collectTraffic _ _ _ _ _) as [db' [u|e]]; [|done].
  destruct Hc as (raw & current & users & e & [= <-] & Hp & _ & _ & _ & _ & _ & Hall).
  rewrite stats_parsed in Hp. injection Hp as <-. specialize (Hall "alice").
  rewrite lookup_singleton_eq in Hall. destruct Hall as (previous & c & Hprev & Hc & Hup & Hdown & Hcont).
  assert (@TrafficCounterOf mem_bolt "alice" ex_db0 = Ok None) as E by (vm_compute; reflexivity).
  rewrite E in Hprev. injection Hprev as <-. exists c. split; [exact Hc|]. split; [exact Hup|]. split; [exact Hdown|exact Hcont].
Defined.
