(* ===== verification/BundleExec.v ===== *)
(** * Running a candidate (internal/xrayupdate/manager.go, ExecRunner)

    The checks of a candidate binary start it as a child process.  What the child
    writes goes through a buffer that keeps the first 32 KiB; the operating
    system's part - starting it and what it writes - is a parameter. *)

From stdpp Require Import base gmap strings list fin_maps.
From Stdlib Require Import ZArith NArith Ascii Lia.
From S2P Require Import Prelude.
From S2P Require Import GoStrings.
From S2P Require Import Words.
From S2P Require Import Os.
From S2P Require Import AtomicFile.
From S2P Require Import XrayConfig.
From S2P Require Import XrayRuntime.
From S2P Require Import XrayRecover.
From S2P Require Import Manifest.
From S2P Require Import UpdateTypes.
From S2P Require Import XrayUpdate.
From S2P Require Import UpdateApply.
From S2P Require Import XrayStatsProofs.
From S2P Require Import AccessHistory.

(** ** The buffer *)

Definition output_limit : N := 32768.

Definition limited_write (limit : N) (buffer p : string) : string :=
  let remaining := (Z.of_N limit - Z.of_nat (String.length buffer))%Z in
  if (0 <? remaining)%Z then buffer +:+ (if (remaining <? Z.of_nat (String.length p))%Z then stake (Z.to_nat remaining) p else p)
  else buffer.

(** The buffer after the child's writes. *)
Definition buffered (limit : N) (writes : list string) : string := foldl (limited_write limit) "" writes.

(** ** The runner *)

(** The child: its writes to standard output and error, in their order, and how
    it ended. *)
Record child : Set := MkChild { ch_writes : list string; ch_end : exec_status }.

Class Spawn : Type := { spawn : string -> list string -> string -> io child }.

(** The child does not change the state directory. *)
Class SpawnLaws `{Env} `{Spawn} : Prop := {
  spawn_law binary args dir w :
    match spawn binary args dir w with
    | (w', Done _) => run_step w w'
    | (w', Crashed) => run_step w w' /\ ~ calm w
    end
}.

Definition reports_version (output version : string) : bool :=
  match Fields output with
  | first :: second :: _ => bool_decide (first = "Xray") && bool_decide (TrimPrefix second "v" = TrimPrefix version "v")
  | _ => false
  end.

Definition check_version (version : string) (c : child) : result unit :=
  match ch_end c with
  | ExecDeadline => Err (errorsNew "Xray version check timed out")
  | ExecFailed m => Err (errorsNew ("run Xray version check: " +:+ cleanError "" (errorsNew m)))
  | ExecOk => guard_err (negb (reports_version (buffered output_limit (ch_writes c)) version)) "Xray candidate reports a different version"
  end.

Definition check_config (c : child) : result unit :=
  match ch_end c with
  | ExecDeadline => Err (errorsNew "Xray candidate config validation timed out")
  | ExecFailed m => Err (errorsNew ("validate current config with Xray candidate: " +:+ cleanError "" (errorsNew m)))
  | ExecOk => Ok tt
  end.

Definition ExecRunner `{Spawn} : BundleRunner := {|
  ValidateVersion := fun binaryPath version =>
    let! c := spawn binaryPath ["version"] (Dir binaryPath) in ret (check_version version c);
  ValidateConfig := fun binaryPath configPath =>
    let! c := spawn binaryPath ["run"; "-test"; "-config"; configPath] (Dir binaryPath) in ret (check_config c)
|}.

(** ** What the buffer keeps *)

Lemma limited_write_spec limit x p : limited_write limit (stake (N.to_nat limit) x) p = stake (N.to_nat limit) (x +:+ p).
Proof.
  rewrite stake_app_min. destruct (decide (N.to_nat limit <= String.length x)%nat) as [Hx|Hx].
  - unfold limited_write. rewrite stake_exact by done. replace (N.to_nat limit - String.length x)%nat with 0%nat by lia.
    rewrite (proj2 (Z.ltb_ge 0 _)) by lia. by rewrite sapp_nil_r.
  - rewrite stake_le by lia. unfold limited_write. rewrite (proj2 (Z.ltb_lt 0 _)) by lia. f_equal.
    destruct (Z.ltb_spec (Z.of_N limit - Z.of_nat (String.length x)) (Z.of_nat (String.length p))); [f_equal; lia|].
    by rewrite stake_le by lia.
Qed.

(** It keeps the beginning of what was written, whatever the pieces. *)
Lemma buffered_spec limit writes : buffered limit writes = stake (N.to_nat limit) (joined writes).
Proof.
  unfold buffered. induction writes as [|p writes IH] using rev_ind; [simpl; by destruct (N.to_nat limit)|].
  by rewrite foldl_app, IH, joined_snoc; cbn [foldl]; rewrite limited_write_spec.
Qed.

#[local] Opaque output_limit.

Section runner.
Context `{Env} `{Spawn} `{!SpawnLaws}.

(** The interface the updates are verified against holds of it. *)
Lemma ExecRunner_laws : BundleRunnerLaws (H0 := ExecRunner).
Proof.
  split; intros b x w; cbn; unfold bind.
  - pose proof (spawn_law b ["version"] (Dir b) w) as Hl. by destruct (spawn _ _ _ w) as [w' [c|]].
  - pose proof (spawn_law b ["run"; "-test"; "-config"; x] (Dir b) w) as Hl. by destruct (spawn _ _ _ w) as [w' [c|]].
Qed.

(** A candidate passes exactly when it ended well and the first two words of the
    first 32 KiB it wrote are Xray and the version, an initial v apart. *)
Theorem version_checked binary version w w' :
  ValidateVersion (BundleRunner := ExecRunner) binary version w = (w', Done (Ok tt)) <->
  exists c second rest, spawn binary ["version"] (Dir binary) w = (w', Done c) /\ ch_end c = ExecOk /\
    Fields (stake (N.to_nat output_limit) (joined (ch_writes c))) = "Xray" :: second :: rest /\
    TrimPrefix second "v" = TrimPrefix version "v".
Proof.
  cbn. unfold bind, check_version. split.
  - destruct (spawn _ _ _ w) as [w1 [c|]] eqn:E; [|done]. intros [= <- Hc]. rewrite buffered_spec in Hc.
    destruct (ch_end c) eqn:Ee; try done. apply guard_err_Ok, negb_false_iff in Hc. unfold reports_version in Hc.
    destruct (Fields _) as [|first [|second rest]] eqn:Ef; try done.
    apply andb_true_iff in Hc as [->%bool_decide_eq_true Hv%bool_decide_eq_true]. by exists c, second, rest.
  - intros (c & second & rest & -> & He & Hf & Hv). rewrite He, buffered_spec. unfold reports_version. rewrite Hf.
    by rewrite !bool_decide_true.
Qed.
End runner.
