(* ===== verification/AgentUpdate.v ===== *)
(** * Updating the agent itself (internal/update/manager.go)

    A release of the agent is downloaded and checked like one of Xray; its
    executable is installed as versions/<version>-<digest>/xui-agent, tried out,
    and made current by switching a link.  update-pending.json then asks the
    supervising launcher (deploy/xui-agent-launcher) to go back to the previous
    version unless the new one confirms the update.  The store is the agent's
    state directory itself, "." here. *)

From stdpp Require Import base gmap strings list fin_maps sorting.
From Stdlib Require Import ZArith NArith Ascii.
From S2P Require Import Prelude.
From S2P Require Import GoStrings.
From S2P Require Import Sha256.
From S2P Require Import Json.
From S2P Require Import Indent.
From S2P Require Import Os.
From S2P Require Import AtomicFile.
From S2P Require Import Dirs.
From S2P Require Import Manifest.
From S2P Require Import Release.

Definition maxManifestBytes : Z := 1048576.
Definition maxArchiveBytes : Z := 134217728.
Definition maxBinaryBytes : Z := 67108864.
Definition maxRuntimeAssetBytes : Z := 1048576.
Definition retainedVersions : nat := 3.
Definition ManifestSchemaVersion : Z := 3.
Definition releaseBaseURL : string := "https://github.com".
Definition releaseRepository : string := "qqqasdwx/xui-agent".
Definition manifestAssetName : string := "manifest.json".

Definition runtimeAssetNames : list string :=
  ["uninstall.sh"; "xui-agent-launcher"; "xui-agent-xray-launcher"; "xui-agent.openrc"; "xui-agent-xray.openrc";
   "xui-agent-xray.path"; "xui-agent-xray.service"; "xui-agent.service"].

(** ** Paths *)

Definition stateDirectory : string := ".".
Definition versionsDirectory : string := "versions".
Definition currentPath : string := "current".
Definition previousPath : string := "previous".
Definition pendingPath : string := "update-pending.json".
Definition failedPath : string := "update-failed.json".

(** filepath.Rel of clean relative paths without leading dots *)
Definition path_parts (p : string) : list string := if bool_decide (p = ".") then [] else Split p slash.

Fixpoint rel_parts (base target : list string) : list string :=
  match base, target with
  | b :: base', t :: target' =>
      if bool_decide (b = t) then rel_parts base' target' else replicate (length base) ".." ++ target
  | [], _ => target
  | _, [] => replicate (length base) ".."
  end.

Definition Rel (base target : string) : string :=
  match rel_parts (path_parts base) (path_parts target) with [] => "." | l => sconcat "/" l end.

(** ** Data *)

Record Manifest : Set := MkManifest {
  am_schema : Z;
  am_version : string;
  am_published : string;
  am_assets : string;
  am_artifacts : list Artifact
}.

Record Request : Set := MkRequest { rq_command : string; rq_version : string }.

Record Pending : Set := MkPending {
  pd_command : string;
  pd_previous : string;
  pd_target : string;
  pd_version : string;
  pd_started : Z
}.

Definition pending_fields : list (string * setter Pending) :=
  [("commandId", fld dec_string (fun v p => MkPending v (pd_previous p) (pd_target p) (pd_version p) (pd_started p)));
   ("previousTarget", fld dec_string (fun v p => MkPending (pd_command p) v (pd_target p) (pd_version p) (pd_started p)));
   ("targetTarget", fld dec_string (fun v p => MkPending (pd_command p) (pd_previous p) v (pd_version p) (pd_started p)));
   ("targetVersion", fld dec_string (fun v p => MkPending (pd_command p) (pd_previous p) (pd_target p) v (pd_started p)));
   ("startedAt", fld dec_int (fun v p => MkPending (pd_command p) (pd_previous p) (pd_target p) (pd_version p) v))].

Definition pending_members (p : Pending) : list (string * string) :=
  [("commandId", quote (pd_command p)); ("previousTarget", quote (pd_previous p)); ("targetTarget", quote (pd_target p));
   ("targetVersion", quote (pd_version p)); ("startedAt", FormatInt (pd_started p))].

(** The text writeJSONAtomic stores. *)
Definition encode_pending (p : Pending) : string := obj_indent 0 (pending_members p) +:+ nl.

(** readState, after the file was read *)
Definition parse_state (state raw : string) : result Pending :=
  match decode_text false pending_fields (MkPending "" "" "" "" 0) raw with
  | None => Err (errorsNew ("decode " +:+ state +:+ " update"))
  | Some p =>
      let? _ := guard_err (bool_decide (pd_command p = "") || bool_decide (pd_previous p = "") || bool_decide (pd_target p = ""))
                  (state +:+ " update is incomplete") in
      Ok p
  end.

Definition validateVersion (version : string) : result unit :=
  let? _ := guard_err (bool_decide (version = "") || bool_decide (version = ".")
                       || bool_decide (version = "..") || (128 <? slen version)%N)
              "update version is invalid" in
  guard_err (negb (forallb (fun r => version_rune r.1) (runes version))) "update version is invalid".

Definition agentVersionDirectory (target : string) : result string :=
  let? _ := guard_err (bool_decide (target = "") || IsAbs target || negb (bool_decide (Clean target = target)))
              "agent version target is invalid" in
  match Split target slash with
  | [p0; p1; p2] =>
      if negb (bool_decide (p0 = "versions")) || bool_decide (p1 = "") || negb (bool_decide (p2 = "xui-agent"))
      then Err (errorsNew "agent version target is outside the versions directory")
      else Ok p1
  | _ => Err (errorsNew "agent version target is outside the versions directory")
  end.

(** ** Releases *)

Definition manifest_fields : list (string * setter Manifest) :=
  [("schemaVersion", fld dec_int (fun v m => MkManifest v (am_version m) (am_published m) (am_assets m) (am_artifacts m)));
   ("version", fld dec_string (fun v m => MkManifest (am_schema m) v (am_published m) (am_assets m) (am_artifacts m)));
   ("publishedAt", fld dec_string (fun v m => MkManifest (am_schema m) (am_version m) v (am_assets m) (am_artifacts m)));
   ("runtimeAssetsSha256", fld dec_string (fun v m => MkManifest (am_schema m) (am_version m) (am_published m) v (am_artifacts m)));
   ("artifacts", fun raw m =>
      (fun l => MkManifest (am_schema m) (am_version m) (am_published m) (am_assets m) l)
      <$> dec_slice (decode_obj true artifact_fields zero_artifact) raw)].

Definition decodeManifest (raw : string) : result Manifest :=
  match decode_text true manifest_fields (MkManifest 0 "" "" "" []) raw with
  | None => Err (errorsNew "decode update manifest")
  | Some m =>
      let? _ := guard_err (negb (am_schema m =? ManifestSchemaVersion)%Z || bool_decide (am_version m = "")
                           || match am_artifacts m with [] => true | _ => false end)
                  "update manifest is incomplete or unsupported" in
      let assets := ToLower (TrimSpace (am_assets m)) in
      let m := MkManifest (am_schema m) (am_version m) (am_published m) assets (am_artifacts m) in
      let? _ := guard_err (negb (bool_decide (slen assets = sha256_Size * 2)%N)) "update manifest runtime assets digest is invalid" in
      match DecodeString assets with
      | None => Err (errorsNew "update manifest runtime assets digest is invalid")
      | Some _ => let? _ := validateVersion (am_version m) in Ok m
      end
  end.

Section platform.
Context `{Platform}.

Fixpoint select_first (l : list Artifact) : result Artifact :=
  match l with
  | [] => Err (errorsNew ("manifest has no artifact for " +:+ GOOS +:+ "/" +:+ platform_arch))
  | a :: rest =>
      if for_platform a then
        if negb (bool_decide (slen (ar_sha256 a) = sha256_Size * 2)%N) || (ar_size a <=? 0)%Z
        then Err (errorsNew "update artifact metadata is invalid") else Ok a
      else select_first rest
  end.

Definition selectArtifact (m : Manifest) : result Artifact := select_first (am_artifacts m).
End platform.

(** An entry of a tar archive: the bytes that follow its header, and a failure
    at the end of them. *)
Record tar_entry : Set := TarEntry {
  te_name : string;
  te_regular : bool;
  te_size : Z;
  te_bytes : string;
  te_fail : option error
}.

(** compress/gzip and archive/tar: the entries of an archive and how it ends. *)
Class Tar : Type := { untar : string -> result (list tar_entry * option error) }.

Definition expected_entry (name : string) : bool := bool_decide (name = "xui-agent") || bool_decide (name ∈ runtimeAssetNames).

Definition entry_limit (name : string) : Z := if bool_decide (name = "xui-agent") then maxBinaryBytes else maxRuntimeAssetBytes.

(** io.ReadAll(io.LimitReader(reader, limit+1)) *)
Definition read_limited (limit : Z) (e : tar_entry) : result string :=
  if (Z.of_N (slen (te_bytes e)) <? limit + 1)%Z
  then match te_fail e with Some err => Err err | None => Ok (te_bytes e) end
  else Ok (stake (Z.to_nat (limit + 1)) (te_bytes e)).

(** The loop over the entries: the executable and the assets found so far. *)
Fixpoint collect_entries (binary : option string) (assets : gmap string string) (l : list tar_entry) :
  result (option string * gmap string string) :=
  match l with
  | [] => Ok (binary, assets)
  | e :: rest =>
      let name := te_name e in
      if negb (expected_entry name) then Err (errorsNew ("update archive contains unexpected entry " +:+ quote name))
      else
        let limit := entry_limit name in
        if negb (te_regular e) || (te_size e <=? 0)%Z || (limit <? te_size e)%Z
        then Err (errorsNew ("update archive has an invalid " +:+ name +:+ " entry"))
        else
          match read_limited limit e with
          | Err _ => Err (errorsNew ("read " +:+ name +:+ " from update archive"))
          | Ok content =>
              if negb (Z.of_N (slen content) =? te_size e)%Z then Err (errorsNew ("read " +:+ name +:+ " from update archive"))
              else if bool_decide (name = "xui-agent") then
                match binary with
                | Some _ => Err (errorsNew "update archive has duplicate xui-agent entries")
                | None => collect_entries (Some content) assets rest
                end
              else
                match assets !! name with
                | Some _ => Err (errorsNew ("update archive has duplicate " +:+ name +:+ " entries"))
                | None => collect_entries binary (<[name := content]> assets) rest
                end
          end
  end.

(** The line of an asset in the text that is digested. *)
Definition asset_line (name content : string) : string := sha256_hex content +:+ "  " +:+ name +:+ nl.

Fixpoint asset_lines (assets : gmap string string) (names : list string) : result string :=
  match names with
  | [] => Ok ""
  | name :: rest =>
      match assets !! name with
      | None => Err (errorsNew ("update archive does not contain " +:+ name))
      | Some content => let? lines := asset_lines assets rest in Ok (asset_line name content +:+ lines)
      end
  end.

Section archive.
Context `{Tar}.

Definition extractRelease (archive : string) : result (string * string) :=
  match untar archive with
  | Err e => Err (errorW "open update archive: " e)
  | Ok (entries, failure) =>
      let? found := collect_entries None ∅ entries in
      match failure with
      | Some e => Err (errorW "read update archive: " e)
      | None =>
          match found.1 with
          | None => Err (errorsNew "update archive does not contain xui-agent")
          | Some binary => let? lines := asset_lines found.2 runtimeAssetNames in Ok (binary, sha256_hex lines)
          end
      end
  end.

Definition RuntimeAssetsDigest (archive : string) : result string :=
  let? r := extractRelease archive in Ok r.2.
End archive.

(** ** The manager *)

Record Manager : Type := MkManager { mg_assetsPath : string; mg_releases : option Client }.

Definition NewManager `{UrlParser} (installedAssetsPath : string) : result Manager :=
  let? releases := NewClient releaseBaseURL false in Ok (MkManager installedAssetsPath (Some releases)).

Definition Enabled (m : Manager) : bool := match mg_releases m with Some _ => true | None => false end.

(** What a candidate executable prints when it runs with "-version". *)
Class Candidate : Type := { version_output : string -> result string }.

Section manager.
Context `{Env}.

(** *** Files *)

Definition atomicSymlink (target path : string) : io (result unit) := replaceLink target path (ret (Ok tt)).

(** writeJSONAtomic, the value already laid out *)
Definition writeJSONAtomic (path content : string) (mode : N) : io (result unit) :=
replaceFile (Dir path) ".update-" path content mode (ret (Ok tt)).

Definition readState (path state : string) : io (result Pending) :=
try! raw := ReadFile path in ret (parse_state state raw).

Definition loadPending : io (result Pending) := readState pendingPath "pending".
Definition loadFailed : io (result Pending) := readState failedPath "failed".

Definition Confirm (version : string) : io (result unit) :=
let! loaded := loadPending in
match loaded with
| Err e => if errorsIs e SNotExist then ret (Ok tt) else ret (Err e)
| Ok p =>
    if negb (bool_decide (pd_version p = version)) then
      ret (Err (errorsNew ("running version " +:+ quote version +:+ " does not match pending version " +:+ quote (pd_version p))))
    else
      let! removed := Remove pendingPath in
      match removed with
      | Err e => if errorsIs e SNotExist then syncDirectory stateDirectory else ret (Err (errorW "confirm update: " e))
      | Ok _ => syncDirectory stateDirectory
      end
end.

(** *** Garbage collection of versions *)

Fixpoint protectedVersions (names : list string) : io (result (list string)) :=
match names with
| [] => ret (Ok [])
| name :: rest =>
    let! link := Readlink name in
    match link with
    | Ok target =>
        match agentVersionDirectory target with
        | Err e => ret (Err e)
        | Ok dir => try! l := protectedVersions rest in ret (Ok (dir :: l))
        end
    | Err e => if errorsIs e SNotExist then protectedVersions rest else ret (Err e)
    end
end.

(** Whether a version directory holds an executable "xui-agent" and nothing else. *)
Definition holdsAgent (path : string) : io (result bool) :=
try! children := ReadDirEntries path in
match children with
| [(name, kind)] =>
    if negb (bool_decide (name = "xui-agent")) || match kind with KSymlink => true | _ => false end then ret (Ok false)
    else
      try! info := Lstat (Join path "xui-agent") in
      ret (Ok (IsRegular info && negb (N.land (fi_perm info) 73 =? 0)%N))
| _ => ret (Ok false)
end.

Fixpoint installedVersions (entries : list (string * file_kind)) : io (result (list (string * Z))) :=
match entries with
| [] => ret (Ok [])
| (name, kind) :: rest =>
    match kind with
    | KDir =>
        try! holds := holdsAgent (Join versionsDirectory name) in
        if holds then
          try! info := Lstat (Join versionsDirectory name) in
          try! l := installedVersions rest in
          ret (Ok ((name, fi_mtime info) :: l))
        else installedVersions rest
    | _ => installedVersions rest
    end
end.

(** Newest first; among equals the greater name first. *)
Definition newer (a b : string * Z) : Prop := (b.2 < a.2)%Z \/ (a.2 = b.2 /\ String.le b.1 a.1).

#[export] Instance newer_dec : RelDecision newer.
Proof. intros a b. unfold newer. apply _. Defined.

Definition removable (protected : list string) (index : nat) (name : string) : bool :=
negb (bool_decide (index < retainedVersions)%nat) && negb (bool_decide (name ∈ protected)).

Fixpoint removeVersions (protected : list string) (index : nat) (versions : list (string * Z)) (removed : bool) :
  io (result bool) :=
match versions with
| [] => ret (Ok removed)
| v :: rest =>
    if removable protected index v.1 then
      try! _ := Remove (Join (Join versionsDirectory v.1) "xui-agent") in
      try! _ := Remove (Join versionsDirectory v.1) in
      removeVersions protected (S index) rest true
    else removeVersions protected (S index) rest removed
end.

Definition pruneVersions : io (result unit) :=
let! entries := ReadDirEntries versionsDirectory in
match entries with
| Err e => if errorsIs e SNotExist then ret (Ok tt) else ret (Err e)
| Ok entries =>
    try! protected := protectedVersions [currentPath; previousPath] in
    try! versions := installedVersions entries in
    try! removed := removeVersions protected 0 (merge_sort newer versions) false in
    if removed then syncDirectory versionsDirectory else ret (Ok tt)
end.

(** *** Installing *)

(** filepath.EvalSymlinks of a path whose last component may be a link *)
Fixpoint resolve (fuel : nat) (f : fs) (p : string) : result string :=
match f !! p with
| Some (NLink t) => match fuel with O => Err errLoop | S n => resolve n f (Join (Dir p) t) end
| Some _ => Ok p
| None => Err errNotExist
end.

Definition EvalSymlinks (p : string) : io (result string) := sys_read (fun f => resolve max_links f p).

(** exec.Command(path, "run", "-version").CombinedOutput() *)
Definition runVersion `{Candidate} (path : string) : io (result string) :=
sys_read (fun f => match fs_readfile f path with Ok binary => version_output binary | Err e => Err e end).

Definition outside_versions (relative : string) : bool :=
bool_decide (relative = "..") || HasPrefix relative "../".

(** The links and the record of the update. *)
Definition switch (r : Request) (targetTarget previousTarget : string) : io (result string) :=
try! _ := atomicSymlink previousTarget previousPath
  catch e => ret (Err (errorW "record previous agent target: " e)) in
let! now := Now in
let p := MkPending (rq_command r) previousTarget targetTarget (rq_version r) (now / 1000000000) in
let! _ := Remove failedPath in
try! _ := writeJSONAtomic pendingPath (encode_pending p) 384 in
try! _ := atomicSymlink targetTarget currentPath
  catch e => (let! _ := Remove pendingPath in ret (Err (errorW "switch current agent target: " e))) in
try! _ := syncDirectory stateDirectory in
ret (Ok (rq_version r)).

Definition activate (r : Request) (targetBinary : string) : io (result string) :=
try! previousTarget := Readlink currentPath
  catch e => ret (Err (errorW "read current agent target: " e)) in
try! resolvedCurrent := EvalSymlinks currentPath
  catch e => ret (Err (errorW "resolve current agent target: " e)) in
if outside_versions (Rel versionsDirectory resolvedCurrent) then
  ret (Err (errorsNew "current agent target is outside the managed versions directory"))
else
  let targetTarget := Rel stateDirectory targetBinary in
  if bool_decide (previousTarget = targetTarget) then ret (Ok (rq_version r))
  else switch r targetTarget previousTarget.

Definition releaseDirectory (r : Request) (binary : string) : string := rq_version r +:+ "-" +:+ sha256_hex binary.

(** A temporary file with its content, closed, and what is done with it. *)
Definition fillTemporary {A} (temporary content : string) (mode : N) (k : io (result A)) : io (result A) :=
try! _ := Chmod temporary mode catch e => (let! _ := Close temporary in ret (Err e)) in
try! _ := Write temporary content
  catch e => (let! _ := Close temporary in ret (Err (errorW "write candidate binary: " e))) in
try! _ := Sync temporary
  catch e => (let! _ := Close temporary in ret (Err (errorW "sync candidate binary: " e))) in
try! _ := Close temporary in
k.

Definition installBinary `{Candidate} (r : Request) (binary targetDirectory temporary : string) : io (result string) :=
fillTemporary temporary binary 493 (
  try! output := runVersion temporary
    catch e => ret (Err (errorW "validate candidate binary: " e)) in
  if negb (bool_decide (output = rq_version r +:+ nl)) then ret (Err (errorsNew "candidate binary reports a different version"))
  else
    let targetBinary := Join targetDirectory "xui-agent" in
    try! _ := Rename temporary targetBinary
      catch e => ret (Err (errorW "activate candidate file: " e)) in
    try! _ := syncDirectory targetDirectory in
    activate r targetBinary).

Definition install `{Candidate} (r : Request) (binary : string) : io (result string) :=
let! loaded := loadPending in
match loaded with
| Ok _ => ret (Err (errorsNew "another agent update is pending"))
| Err e =>
    if negb (errorsIs e SNotExist) then ret (Err (errorW "read pending update state: " e))
    else
      try! _ := pruneVersions catch e => ret (Err (errorW "garbage collect agent versions: " e)) in
      let targetDirectory := Join versionsDirectory (releaseDirectory r binary) in
      try! _ := MkdirAll targetDirectory 448 catch e => ret (Err (errorW "create version directory: " e)) in
      try! temporary := CreateTemp targetDirectory ".xui-agent-"
        catch e => ret (Err (errorW "create candidate binary: " e)) in
      defer (Remove temporary) (installBinary r binary targetDirectory temporary)
end.

Definition InstallLocal `{Candidate} (r : Request) (binary : string) : io (result string) :=
if bool_decide (rq_command r = "") || (256 <? slen (rq_command r))%N then
  ret (Err (errorsNew "update command id is invalid"))
else match validateVersion (rq_version r) with
     | Err e => ret (Err e)
     | Ok _ =>
         if (slen binary =? 0)%N || (maxBinaryBytes <? Z.of_N (slen binary))%Z then
           ret (Err (errorsNew "candidate binary size is invalid"))
         else install r binary
     end.

(** *** Releases *)

Definition verifyInstalledRuntimeAssets (m : Manager) (want : string) : io (result unit) :=
if bool_decide (mg_assetsPath m = "") then
  ret (Err (errorsNew "runtime assets path is not configured; run the release installer"))
else
  let! raw := ReadFile (mg_assetsPath m) in
  match raw with
  | Err e =>
      if errorsIs e SNotExist then ret (Err (errorsNew "runtime assets are not registered; run the release installer"))
      else ret (Err (errorW "read installed runtime assets: " e))
  | Ok raw =>
      let got := ToLower (TrimSpace raw) in
      ret (guard_err (negb (bool_decide (slen got = sha256_Size * 2)%N) || negb (bool_decide (got = want)))
             "installed runtime assets do not match the update; run the release installer")
  end.

(** strings.EqualFold, one side being lower-case hex *)
Definition EqualFold (hex text : string) : bool := bool_decide (hex = ToLower text).

(** The manifest of the release a request asks for. *)
Definition resolveManifest `{UrlParser} (cl : Client) (net : string -> nat -> exchange) (version : string) : result Manifest :=
let? manifestURL := URL cl releaseRepository version manifestAssetName in
match Download cl manifestURL maxManifestBytes (net manifestURL) with
| Err e => Err (errorW "download update manifest: " e)
| Ok raw =>
    let? manifest := decodeManifest raw in
    let? _ := guard_err (negb (bool_decide (version = "")) && negb (bool_decide (am_version manifest = version)))
                ("manifest version " +:+ quote (am_version manifest) +:+ " does not match requested version " +:+ quote version) in
    Ok manifest
end.

(** The executable of a manifest's artifact. *)
Definition downloadBinary `{UrlParser} `{Platform} `{Tar} (cl : Client) (net : string -> nat -> exchange) (manifest : Manifest) :
  result string :=
let? artifact := selectArtifact manifest in
let? archiveURL := URL cl releaseRepository (am_version manifest) ("xui-agent-linux-" +:+ ar_arch artifact +:+ ".tar.gz") in
match Download cl archiveURL maxArchiveBytes (net archiveURL) with
| Err e => Err (errorW "download update archive: " e)
| Ok archive =>
    let? _ := guard_err ((ar_size artifact <=? 0)%Z || negb (Z.of_N (slen archive) =? ar_size artifact)%Z)
                "update archive size does not match the manifest" in
    let? _ := guard_err (negb (EqualFold (sha256_hex archive) (ar_sha256 artifact)))
                "update archive checksum does not match the manifest" in
    let? extracted := extractRelease archive in
    let? _ := guard_err (negb (bool_decide (extracted.2 = am_assets manifest)))
                "update archive runtime assets do not match the manifest" in
    Ok extracted.1
end.

Definition Apply `{UrlParser} `{Platform} `{Tar} `{Candidate} (m : Manager) (net : string -> nat -> exchange) (r : Request) :
  io (result string) :=
match mg_releases m with
| None => ret (Err (errorsNew "release updates are not configured"))
| Some cl =>
    if bool_decide (rq_command r = "") then ret (Err (errorsNew "update command id is required"))
    else match (if bool_decide (rq_version r = "") then Ok tt else validateVersion (rq_version r)) with
    | Err e => ret (Err e)
    | Ok _ =>
        match resolveManifest cl net (rq_version r) with
        | Err e => ret (Err e)
        | Ok manifest =>
            try! _ := verifyInstalledRuntimeAssets m (am_assets manifest) in
            match downloadBinary cl net manifest with
            | Err e => ret (Err e)
            | Ok binary => InstallLocal (MkRequest (rq_command r) (am_version manifest)) binary
            end
        end
    end
end.

(** ** The launcher (deploy/xui-agent-launcher)

    The agent ended and update-pending.json is there: back to the previous
    version.  The number is the launcher's process id. *)

Definition switch_link (target : string) (pid : N) : io (result unit) :=
let temporary := currentPath +:+ ".rollback-" +:+ FormatUint pid in
let! _ := Remove temporary in
try! _ := Symlink target temporary in
Rename temporary currentPath.

Definition launcher_rollback (pid : N) : io (result unit) :=
try! previous := Readlink previousPath in
try! _ := switch_link previous pid in
let! _ := Rename pendingPath failedPath in
ret (Ok tt).
End manager.
