(* ===== verification/AgentUpdateProofs.v ===== *)
(** * What the agent's own update guarantees

    [safe]: the current link names an installed version, one whose name carries
    the digest of its executable; and while an update is pending, the version
    to go back to is installed too and the link "previous" names it.  Every
    operation keeps that at every point where it may stop. *)

From stdpp Require Import base gmap strings list fin_maps sorting relations.
From Stdlib Require Import ZArith NArith Ascii.
From S2P Require Import Prelude.
From S2P Require Import GoStrings.
From S2P Require Import Sha256.
From S2P Require Import Json.
From S2P Require Import Indent.
From S2P Require Import Os.
From S2P Require Import AtomicFile.
From S2P Require Import Dirs.
From S2P Require Import FsLogic.
From S2P Require Import XrayTypes.
From S2P Require Import XraySteps.
From S2P Require Import XrayPrune.
From S2P Require Import Manifest.
From S2P Require Import Release.
From S2P Require Import UpdateTypes.
From S2P Require Import AgentUpdate.

(** ** Paths of versions *)

Definition version_dir (n : string) : string := "versions" +:+ String slash n.
Definition binary_path (n : string) : string := version_dir n +:+ String slash "xui-agent".

Lemma version_dir_app n x : version_dir n +:+ x = "versions" +:+ String slash (n +:+ x).
Proof. unfold version_dir. by rewrite sapp_assoc. Qed.

Lemma binary_path_eq n : binary_path n = "versions" +:+ String slash (n +:+ String slash "xui-agent").
Proof. apply version_dir_app. Qed.

Lemma Split_three a b c : no_char slash a -> no_char slash b -> no_char slash c ->
  Split (a +:+ String slash (b +:+ String slash c)) slash = [a; b; c].
Proof. intros. by rewrite !Split_app, Split_no_char. Qed.

Lemma Clean_three a b c : entry_name a -> entry_name b -> entry_name c ->
  Clean (a +:+ String slash (b +:+ String slash c)) = a +:+ String slash (b +:+ String slash c).
Proof.
  intros Ha Hb Hc. unfold Clean. rewrite bool_decide_false by (destruct Ha as (_ & ? & _); by destruct a).
  rewrite IsAbs_entry by done. rewrite Split_three by (apply Ha || apply Hb || apply Hc). simpl.
  rewrite !clean_step_entry by done. simpl. unfold sconcat. simpl.
  rewrite bool_decide_false; [done|]. destruct Ha as (_ & ? & _). by destruct a.
Qed.

Lemma entry_versions' : entry_name "versions".
Proof. by split_and!. Qed.
Lemma entry_agent : entry_name "xui-agent".
Proof. by split_and!. Qed.

#[local] Hint Resolve entry_versions' entry_agent : go.

Lemma Join_version n : entry_name n -> Join versionsDirectory n = version_dir n.
Proof. intros. by apply Join_entry; [apply entry_versions'|]. Qed.

Lemma Join_binary n : entry_name n -> Join (version_dir n) "xui-agent" = binary_path n.
Proof.
  intros Hn. unfold Join. rewrite !bool_decide_false by done.
  change (version_dir n +:+ "/" +:+ "xui-agent") with (version_dir n +:+ String slash "xui-agent").
  fold (binary_path n). rewrite binary_path_eq. apply Clean_three; auto with go.
Qed.

Lemma Dir_binary n x : entry_name n -> no_char slash x -> Dir (version_dir n +:+ String slash x) = version_dir n.
Proof.
  intros Hn Hx. rewrite Dir_app by done. rewrite version_dir_app.
  change (n +:+ "/") with (n +:+ String slash "").
  unfold Clean. rewrite bool_decide_false by done. rewrite IsAbs_entry by apply entry_versions'.
  rewrite Split_three by (done || apply Hn). simpl.
  rewrite (clean_step_entry _ _ "versions") by apply entry_versions'.
  rewrite (clean_step_entry _ _ n) by done. done.
Qed.

(** ** agentVersionDirectory *)

Lemma Split_three_inv t a b c : Split t slash = [a; b; c] ->
  t = a +:+ String slash (b +:+ String slash c) /\ no_char slash b.
Proof.
  intros E. split; [by rewrite <- (sconcat_Split slash t), E|].
  apply (Split_parts slash t). rewrite E. right. left.
Qed.

Lemma agentVersionDirectory_ok t n :
  agentVersionDirectory t = Ok n <-> entry_name n /\ t = binary_path n.
Proof.
  unfold agentVersionDirectory. split.
  - intros ([] & H1%guard_err_Ok & H2)%rbind_Ok.
    rewrite !orb_false_iff, negb_false_iff, !bool_decide_eq_true in H1. destruct H1 as [_ Hc].
    destruct (Split t slash) as [|p0 [|p1 [|p2 []]]] eqn:E; try done.
    apply Split_three_inv in E as (-> & Hs).
    destruct (_ || _) eqn:Eg; [done|]. injection H2 as <-.
    rewrite !orb_false_iff, !negb_false_iff, !bool_decide_eq_true, bool_decide_eq_false in Eg.
    destruct Eg as [[-> Hne] ->]. rewrite binary_path_eq. split; [|done].
    split_and!; [done|done|intros ->; by vm_compute in Hc..].
  - intros [Hn ->]. rewrite binary_path_eq. rewrite Clean_three by auto with go.
    rewrite IsAbs_entry by apply entry_versions'.
    rewrite bool_decide_false, (bool_decide_true (_ = _)) by done. cbn [orb negb guard_err rbind].
    rewrite Split_three by (done || apply Hn). rewrite bool_decide_true by done.
    rewrite bool_decide_false by apply Hn. done.
Qed.

(** ** Scratch paths *)

Lemma HasPrefix_versions p : HasPrefix ("versions" +:+ p) "versions/" = HasPrefix p "/".
Proof. reflexivity. Qed.

Lemma versions_scratch p : scratch ("versions" +:+ p) = temp_binary ("versions" +:+ p).
Proof. unfold scratch, temp_version. cbn. by rewrite orb_false_r. Qed.

Lemma version_dir_scratch n : no_char slash n -> scratch (version_dir n) = false.
Proof.
  intros Hn. unfold version_dir. rewrite versions_scratch. unfold temp_binary.
  by rewrite Split_app, Split_no_char, andb_false_r.
Qed.

Lemma in_version_scratch n x : no_char slash n -> no_char slash x ->
  scratch (version_dir n +:+ String slash x) = HasPrefix x ".xui-agent-".
Proof.
  intros Hn Hx. rewrite version_dir_app, versions_scratch. unfold temp_binary.
  by rewrite Split_three.
Qed.

Lemma binary_scratch n : no_char slash n -> scratch (binary_path n) = false.
Proof. intros Hn. unfold binary_path. by rewrite in_version_scratch. Qed.

Lemma temporary_scratch n k : no_char slash n -> scratch (version_dir n +:+ String slash (".xui-agent-" +:+ FormatUint k)) = true.
Proof.
  intros Hn. rewrite in_version_scratch; [done|done|]. apply no_char_app. split; [done|apply FormatUint_no_slash].
Qed.

(** ** The record of an update *)

Definition pending_ok (p : Pending) : Prop :=
  pd_command p <> "" /\ pd_previous p <> "" /\ pd_target p <> "" /\
  ValidString (pd_command p) = true /\ ValidString (pd_previous p) = true /\ ValidString (pd_target p) = true /\
  ValidString (pd_version p) = true /\ is_i64 (pd_started p).

Lemma agent_pending_members_ok p : Forall member_ok (pending_members p).
Proof. unfold pending_members. members_ok. Qed.

Lemma parse_encode_state s p : pending_ok p -> parse_state s (encode_pending p) = Ok p.
Proof.
  intros (H1 & H2 & H3 & V1 & V2 & V3 & V4 & Hz). unfold parse_state, encode_pending.
  rewrite decode_text_indent by apply agent_pending_members_ok.
  unfold pending_members, set_members, field_for. simpl.
  repeat first [rewrite fld_string by done | rewrite fld_int by done]. simpl.
  rewrite !bool_decide_false by done. by destruct p.
Qed.

(** ** The store *)

Definition own : list string := [currentPath; previousPath; pendingPath; failedPath].

Lemma own_facts p : p ∈ own ->
  scratch p = false /\ p <> versionsDirectory /\ (forall x, p <> version_dir x) /\ (forall n x, p <> version_dir n +:+ x).
Proof. revert p. apply Forall_forall. unfold own. repeat (apply Forall_cons_2; [by split_and!|]). apply Forall_nil_2. Qed.

Record layout (f : fs) : Prop := Layout {
  al_versions : is_dir f versionsDirectory = true;
  al_dirs : forall n, entry_name n -> dir_or_none f (version_dir n);
  al_dots : f !! version_dir "." = None /\ f !! version_dir ".." = None;
  al_binaries : forall n, entry_name n -> plain_file f (binary_path n);
  al_plain : Forall (plain_file f) own;
  al_links : no_link f pendingPath /\ no_link f failedPath
}.

(** A version, and its executable under the digest of its name. *)
Definition installed (f : fs) (n : string) : Prop :=
  entry_name n /\ is_ascii n = true /\
  exists v c m t, n = v +:+ "-" +:+ sha256_hex c /\ f !! binary_path n = Some (NFile c m t) /\ N.land m 73 <> 0%N.

Definition link_is (f : fs) (path n : string) : Prop := f !! path = Some (NLink (binary_path n)).

Definition booted (f : fs) : Prop := exists n, link_is f currentPath n /\ installed f n.

Definition pending_is (f : fs) (p : Pending) : Prop :=
  exists raw m t, f !! pendingPath = Some (NFile raw m t) /\ forall s, parse_state s raw = Ok p.

(** An update is on record: the versions it goes from and to are installed. *)
Definition from_to (f : fs) (p : Pending) (a b : string) : Prop :=
  a <> b /\ pd_previous p = binary_path a /\ pd_target p = binary_path b /\ installed f a /\ installed f b /\
  link_is f previousPath a /\ (link_is f currentPath a \/ link_is f currentPath b).

Definition updating (f : fs) (p : Pending) : Prop := pending_is f p /\ exists a b, from_to f p a b.

Definition safe (f : fs) : Prop :=
  layout f /\ booted f /\ (f !! pendingPath = None \/ exists p, updating f p).

(** *** Only the paths of the store count *)

Lemma plain_eq (f g : fs) p : g !! p = f !! p -> plain_file f p -> plain_file g p.
Proof. unfold plain_file. by intros ->. Qed.

Lemma layout_same f g :
  (forall p, p ∈ own -> g !! p = f !! p) -> g !! versionsDirectory = f !! versionsDirectory ->
  (forall n, no_char slash n -> g !! version_dir n = f !! version_dir n) ->
  (forall n, entry_name n -> g !! binary_path n = f !! binary_path n) -> layout f -> layout g.
Proof.
  intros Ho Hv Hd Hb [L1 L2 L3 L4 L5 L6]. split.
  - unfold is_dir in *. by rewrite Hv.
  - intros n Hn. unfold dir_or_none. rewrite Hd by apply Hn. by apply L2.
  - by rewrite !Hd by done.
  - intros n Hn. eapply plain_eq; [by apply Hb|by apply L4].
  - rewrite Forall_forall in *. intros p Hp. eapply plain_eq; [by apply Ho|by apply L5].
  - unfold no_link in *. rewrite !Ho by (unfold own; set_solver). done.
Qed.

Lemma installed_same f g n : (entry_name n -> g !! binary_path n = f !! binary_path n) -> installed f n -> installed g n.
Proof. intros Hg (Hn & Hv & v & c & m & t & E & Hf & Hm). split_and!; [done..|]. exists v, c, m, t. by rewrite Hg. Qed.

Lemma safe_same f g :
  (forall p, p ∈ own -> g !! p = f !! p) -> g !! versionsDirectory = f !! versionsDirectory ->
  (forall n, no_char slash n -> g !! version_dir n = f !! version_dir n) ->
  (forall n, entry_name n -> g !! binary_path n = f !! binary_path n) -> safe f -> safe g.
Proof.
  intros Ho Hv Hd Hb (Hl & (n & Hc & Hi) & Ht).
  assert (g !! currentPath = f !! currentPath /\ g !! previousPath = f !! previousPath /\
    g !! pendingPath = f !! pendingPath) as (E1 & E2 & E3) by (rewrite !Ho by (unfold own; set_solver); done).
  assert (forall k, installed f k -> installed g k) as Hk by (intros k; apply installed_same, Hb).
  split; [by eapply layout_same|]. split; [exists n; unfold link_is in *; rewrite E1; auto|].
  unfold updating, pending_is, from_to, link_is in *. rewrite E1, E2, E3. destruct Ht as [?|(p & Hp & a & b & Hab)]; [by left|right].
  exists p. split; [done|]. exists a, b. naive_solver.
Qed.

Lemma agent_safe_equiv f g : f ≡ g -> safe f -> safe g.
Proof.
  intros Hfg. apply safe_same.
  - intros p Hp. symmetry. apply Hfg. by apply own_facts.
  - symmetry. by apply Hfg.
  - intros n Hn. symmetry. by apply Hfg, version_dir_scratch.
  - intros n Hn. symmetry. apply Hfg, binary_scratch, Hn.
Qed.

Lemma layout_equiv' f g : f ≡ g -> layout f -> layout g.
Proof.
  intros Hfg. apply layout_same.
  - intros p Hp. symmetry. apply Hfg. by apply own_facts.
  - symmetry. by apply Hfg.
  - intros n Hn. symmetry. by apply Hfg, version_dir_scratch.
  - intros n Hn. symmetry. apply Hfg, binary_scratch, Hn.
Qed.

#[export] Instance safe_proper : Proper ((≡) ==> iff) safe.
Proof. intros f g Hfg. split; by apply agent_safe_equiv. Qed.

(** *** One path at a time *)

Lemma version_dir_inj n n' : version_dir n = version_dir n' -> n = n'.
Proof. unfold version_dir. intros E%sapp_inj_l. by injection E. Qed.

Lemma binary_path_inj n n' : binary_path n = binary_path n' -> n = n'.
Proof.
  rewrite !binary_path_eq. intros E%sapp_inj_l. injection E as E.
  apply (sapp_inj_len n n' (String slash "xui-agent") (String slash "xui-agent")); [|done].
  apply (f_equal String.length) in E. rewrite !slength_app in E. lia.
Qed.

Lemma dir_not_binary n n' : no_char slash n -> version_dir n <> binary_path n'.
Proof.
  intros Hn. rewrite binary_path_eq. unfold version_dir. intros E%sapp_inj_l. injection E as ->.
  apply no_char_app in Hn as [_ Hn]. by apply no_char_cons in Hn as [? _].
Qed.

Lemma versions_not_binary n : versionsDirectory <> binary_path n.
Proof. by rewrite binary_path_eq. Qed.

Lemma versions_not_dir n : versionsDirectory <> version_dir n.
Proof. done. Qed.

(** A file or a link of the store is written or removed. *)
Lemma layout_own f p (o : option node) :
  layout f -> p ∈ own -> match o with Some (NDir _ _) => False | Some (NLink _) => p ∈ [currentPath; previousPath] | _ => True end ->
  layout (partial_alter (fun _ => o) p f).
Proof.
  intros [L1 L2 L3 L4 L5 [L6 L7]] Hp Ho. pose proof (own_facts p Hp) as (_ & Hv & Hd & Hb).
  assert (forall q, q <> p -> partial_alter (fun _ => o) p f !! q = f !! q) as Hne.
  { intros q Hq. by apply lookup_partial_alter_ne. }
  assert (partial_alter (fun _ => o) p f !! p = o) as He by apply lookup_partial_alter_eq.
  split.
  - unfold is_dir in *. by rewrite Hne.
  - intros n Hn. unfold dir_or_none. rewrite Hne by (apply not_eq_sym, Hd). by apply L2.
  - by rewrite !Hne by (apply not_eq_sym, Hd).
  - intros n Hn. eapply plain_eq; [apply Hne, not_eq_sym, Hb|by apply L4].
  - rewrite Forall_forall in *. intros q Hq. destruct (decide (q = p)) as [->|Hn].
    + unfold plain_file. rewrite He. by destruct o as [[]|].
    + eapply plain_eq; [by apply Hne|by apply L5].
  - split; intros t; (destruct (decide (p = pendingPath)) as [->|H1]; [|destruct (decide (p = failedPath)) as [->|H2]]);
      try (rewrite Hne by done); try rewrite He; try apply L6; try apply L7;
      intros E; simplify_eq; set_solver.
Qed.

Lemma layout_insert_own f p n : layout f -> p ∈ own ->
  match n with NDir _ _ => False | NLink _ => p ∈ [currentPath; previousPath] | _ => True end -> layout (<[p := n]> f).
Proof. intros Hl Hp Hn. by apply (layout_own f p (Some n)). Qed.

Lemma layout_delete_own f p : layout f -> p ∈ own -> layout (delete p f).
Proof. intros Hl Hp. by apply (layout_own f p None). Qed.

Lemma installed_own f p (o : option node) n : p ∈ own -> installed f n -> installed (partial_alter (fun _ => o) p f) n.
Proof.
  intros Hp. apply installed_same. intros _. apply lookup_partial_alter_ne.
  pose proof (own_facts p Hp) as (_ & _ & _ & Hb). apply Hb.
Qed.

Lemma installed_insert f p x n : p ∈ own -> installed f n -> installed (<[p := x]> f) n.
Proof. apply (installed_own f p (Some x)). Qed.
Lemma installed_delete f p n : p ∈ own -> installed f n -> installed (delete p f) n.
Proof. apply (installed_own f p None). Qed.

Lemma link_insert f p x q n : p <> q -> link_is (<[p := x]> f) q n <-> link_is f q n.
Proof. intros Hp. unfold link_is. by rewrite lookup_insert_ne. Qed.
Lemma link_delete f p q n : p <> q -> link_is (delete p f) q n <-> link_is f q n.
Proof. intros Hp. unfold link_is. by rewrite lookup_delete_ne. Qed.

Lemma own_in : currentPath ∈ own /\ previousPath ∈ own /\ pendingPath ∈ own /\ failedPath ∈ own.
Proof. unfold own. set_solver. Qed.

(** *** The steps of an update *)

Definition idle (f : fs) : Prop := layout f /\ booted f /\ f !! pendingPath = None.

Lemma idle_safe f : idle f -> safe f.
Proof. intros (? & ? & ?). split_and!; [done..|by left]. Qed.

Lemma idle_same f g :
  (forall p, p ∈ own -> g !! p = f !! p) -> g !! versionsDirectory = f !! versionsDirectory ->
  (forall n, no_char slash n -> g !! version_dir n = f !! version_dir n) ->
  (forall n, entry_name n -> g !! binary_path n = f !! binary_path n) -> idle f -> idle g.
Proof.
  intros Ho Hv Hd Hb (Hl & Hboot & Hn).
  destruct (safe_same f g Ho Hv Hd Hb) as (Hl' & Hb' & _); [by split_and!; [| |left]|].
  split_and!; [done..|]. rewrite Ho; [done|apply own_in].
Qed.

Lemma idle_equiv f g : f ≡ g -> idle f -> idle g.
Proof.
  intros Hfg. apply idle_same.
  - intros p Hp. symmetry. apply Hfg. by apply own_facts.
  - symmetry. by apply Hfg.
  - intros n Hn. symmetry. by apply Hfg, version_dir_scratch.
  - intros n Hn. symmetry. apply Hfg, binary_scratch, Hn.
Qed.

(** A version directory is made. *)
Lemma agent_layout_mkdir f n m t : layout f -> entry_name n -> layout (<[version_dir n := NDir m t]> f).
Proof.
  intros [L1 L2 L3 L4 L5 L6] Hn.
  assert (forall p, p ∈ own -> version_dir n <> p) as Hown.
  { intros p Hp. apply not_eq_sym. by apply own_facts. }
  split.
  - unfold is_dir in *. by rewrite lookup_insert_ne by done.
  - intros k Hk. unfold dir_or_none. rewrite lookup_insert. case_decide; [done|]. by apply L2.
  - destruct Hn as (_ & _ & H1 & H2). by rewrite !lookup_insert_ne by (intros E%version_dir_inj; done).
  - intros k Hk. eapply plain_eq; [|by apply L4]. apply lookup_insert_ne, dir_not_binary, Hn.
  - rewrite Forall_forall in *. intros p Hp. eapply plain_eq; [|by apply L5]. apply lookup_insert_ne. by apply Hown.
  - unfold no_link in *. by rewrite !lookup_insert_ne by (apply Hown, own_in).
Qed.

(** The executable of a version is put in place. *)
Lemma layout_binary f n x : layout f -> entry_name n -> match x with NDir _ _ => False | _ => True end ->
  layout (<[binary_path n := x]> f).
Proof.
  intros [L1 L2 L3 L4 L5 L6] Hn Hx.
  assert (forall p, p ∈ own -> binary_path n <> p) as Hown.
  { intros p Hp. apply not_eq_sym. by apply own_facts. }
  assert (forall k, no_char slash k -> binary_path n <> version_dir k) as Hd.
  { intros k Hk. apply not_eq_sym. by apply dir_not_binary. }
  split.
  - unfold is_dir in *. by rewrite lookup_insert_ne by (apply not_eq_sym, versions_not_binary).
  - intros k Hk. unfold dir_or_none. rewrite lookup_insert_ne by apply Hd, Hk. by apply L2.
  - by rewrite !lookup_insert_ne by by apply Hd.
  - intros k Hk. unfold plain_file. rewrite lookup_insert. case_decide; [by destruct x|]. by apply L4.
  - rewrite Forall_forall in *. intros p Hp. eapply plain_eq; [|by apply L5]. apply lookup_insert_ne. by apply Hown.
  - unfold no_link in *. by rewrite !lookup_insert_ne by (apply Hown, own_in).
Qed.

Lemma installed_binary f n c m t v k : n = v +:+ "-" +:+ sha256_hex c -> N.land m 73 <> 0%N ->
  installed f k -> installed (<[binary_path n := NFile c m t]> f) k.
Proof.
  intros Hn Hm (Hk & Hv & v' & c' & m' & t' & E & Hf & Hm'). split_and!; [done..|].
  destruct (decide (n = k)) as [<-|Hne].
  - exists v, c, m, t. by rewrite lookup_insert_eq.
  - exists v', c', m', t'. rewrite lookup_insert_ne; [done|]. by intros ?%binary_path_inj.
Qed.

(** ** Garbage collection *)

Lemma fs_remove_cases f p : (fs_remove f p).1 = f \/ (fs_remove f p).1 = delete p f.
Proof. unfold fs_remove. destruct (f !! p) as [[]|]; try (by right); [|by left]. destruct (entry_names f p); [by right|by left]. Qed.

(** Versions outside [P] may have gone. *)
Definition pruned (P : list string) (f g : fs) : Prop :=
  layout g /\ (forall p, p ∈ own -> g !! p = f !! p) /\
  forall n, n ∈ P -> entry_name n -> g !! binary_path n = f !! binary_path n.

Lemma agent_pruned_refl P f : layout f -> pruned P f f.
Proof. by intros. Qed.

Lemma agent_pruned_trans P f g h : pruned P f g -> pruned P g h -> pruned P f h.
Proof.
  intros (_ & H1 & H2) (Hl & H3 & H4). split_and!; [done|intros p Hp; by rewrite H3, H1|intros n Hn He; by rewrite H4, H2].
Qed.

(** A version outside [P] loses its executable, or its directory. *)
Lemma pruned_gone P f n p : layout f -> entry_name n -> n ∉ P -> p = binary_path n \/ p = version_dir n ->
  pruned P f (fs_remove f p).1.
Proof.
  intros Hl Hn HP Hp. destruct (fs_remove_cases f p) as [-> | ->]; [by apply agent_pruned_refl|].
  assert (forall q, q ∈ own -> p <> q) as Hown.
  { intros q Hq. pose proof (own_facts q Hq) as (_ & _ & H1 & H2). destruct Hp as [-> | ->]; apply not_eq_sym; [apply H2|apply H1]. }
  split; [|split; [intros q Hq; apply lookup_delete_ne; by apply Hown|]].
  - destruct Hl as [L1 L2 L3 L4 L5 L6]. split.
    + unfold is_dir in *. rewrite lookup_delete_ne; [done|]. destruct Hp as [-> | ->]; [|done].
      apply not_eq_sym, versions_not_binary.
    + intros k Hk. unfold dir_or_none. rewrite lookup_delete. case_decide; [done|]. by apply L2.
    + destruct L3. rewrite !lookup_delete. split; by case_decide.
    + intros k Hk. unfold plain_file. rewrite lookup_delete. case_decide; [done|]. by apply L4.
    + rewrite Forall_forall in *. intros q Hq. eapply plain_eq; [|by apply L5]. apply lookup_delete_ne. by apply Hown.
    + unfold no_link in *. by rewrite !lookup_delete_ne by (apply Hown, own_in).
  - intros k Hk He. apply lookup_delete_ne. destruct Hp as [-> | ->].
    + intros ->%binary_path_inj. done.
    + by apply dir_not_binary, Hn.
Qed.

Section programs.
Context `{Env} (w0 : world).
Local Notation fwp := (fwp w0).

Lemma fwp_remove_gone P f0 f n p (Q : result unit -> fs -> Prop) C :
  pruned P f0 f -> entry_name n -> n ∉ P -> p = binary_path n \/ p = version_dir n ->
  (forall g, pruned P f0 g -> C g) -> (forall g r, pruned P f0 g -> Q r g) -> fwp (Remove p) Q C f.
Proof.
  intros Hf Hn HP Hp HC HQ. apply fwp_sys.
  - intros _. split; [by apply HC|]. intros m. by apply HQ.
  - intros _ _. apply HQ. eapply agent_pruned_trans; [exact Hf|]. eapply pruned_gone; [apply Hf|done..].
Qed.

Lemma fwp_removeVersions P f0 versions : forall index removed f (Q : result bool -> fs -> Prop) C,
  Forall (fun v => entry_name v.1) versions -> pruned P f0 f ->
  (forall g, pruned P f0 g -> C g) -> (forall g r, pruned P f0 g -> Q r g) ->
  fwp (removeVersions P index versions removed) Q C f.
Proof.
  induction versions as [|v versions IH]; intros index removed f Q C Hv Hf HC HQ; [by apply fwp_ret, HQ|].
  apply Forall_cons in Hv as [Hn Hv]. cbn [removeVersions]. unfold removable.
  destruct (bool_decide (index < retainedVersions)%nat); [by apply IH|].
  case_bool_decide as HP; [by apply IH|]. cbn [negb andb].
  rewrite Join_version, Join_binary by done.
  apply fwp_try, (fwp_remove_gone P f0 f v.1); [done|done|done|by left|done|].
  intros g [[]|e] Hg; [|by apply fwp_ret, HQ].
  apply fwp_try, (fwp_remove_gone P f0 g v.1); [done|done|done|by right|done|].
  intros g' [[]|e] Hg'; [|by apply fwp_ret, HQ]. by apply IH.
Qed.

(** Programs that only read, and what is known of their answer. *)
Definition looks {A} (m : io (result A)) (S : result A -> Prop) (f : fs) : Prop :=
  forall (Q : result A -> fs -> Prop) C, (~ calm w0 -> C f) -> (forall r, S r -> Q r f) -> fwp m Q C f.

Lemma looks_read {A} (op : fs -> result A) f : looks (sys_read op) (fun r => (exists m, r = Err (errorsNew m)) \/ r = op f) f.
Proof.
  intros Q C HC HQ. apply fwp_read; [|by apply HQ; right].
  intros Hc. split; [by apply HC|]. intros m. apply HQ. left. by exists m.
Qed.

Lemma looks_try {A B} (m : io (result A)) g (k : A -> io (result B)) S T f :
  looks m S f -> (forall e, T (Err e)) -> (forall a, S (Ok a) -> looks (k a) T f) ->
  looks (try m (fun e => ret (Err (g e))) k) T f.
Proof.
  intros Hm He Hk Q C HC HQ. apply fwp_try, Hm; [done|]. intros [a|e] Hs; [by eapply Hk|]. apply fwp_ret, HQ, He.
Qed.

Lemma looks_ret {A} (r : result A) (S : result A -> Prop) f : S r -> looks (ret r) S f.
Proof. intros Hr Q C _ HQ. by apply fwp_ret, HQ. Qed.

Lemma looks_mono {A} (m : io (result A)) (S T : result A -> Prop) f : looks m S f -> (forall r, S r -> T r) -> looks m T f.
Proof. intros Hm Hst Q C HC HQ. apply Hm; [done|]. intros r Hr. by apply HQ, Hst. Qed.

(** Every version that a link names is protected. *)
Definition protects (names : list string) (f : fs) (r : result (list string)) : Prop :=
  forall l, r = Ok l -> forall p n, p ∈ names -> link_is f p n -> entry_name n -> n ∈ l.

Lemma looks_protected names f : looks (protectedVersions names) (protects names f) f.
Proof.
  induction names as [|p names IH]; [apply looks_ret; unfold protects; set_solver|].
  intros Q C HC HQ. cbn [protectedVersions]. apply fwp_bind, looks_read; [done|]. intros r Hr.
  destruct r as [t|e].
  - destruct Hr as [[m Hm]|Hr]; [done|]. destruct (agentVersionDirectory t) as [d|e] eqn:Ed; [|by apply fwp_ret, HQ].
    apply fwp_try, IH; [done|]. intros [l|e] Hl; apply fwp_ret, HQ; [|done].
    intros l' [= <-] q n [->|Hq]%elem_of_cons Hlink Hn; [|right; by eapply Hl].
    unfold fs_readlink in Hr. unfold link_is in Hlink. rewrite Hlink in Hr. injection Hr as ->.
    assert (agentVersionDirectory (binary_path n) = Ok n) as E by (by apply agentVersionDirectory_ok).
    rewrite E in Ed. injection Ed as <-. left.
  - destruct (errorsIs e SNotExist) eqn:En; [|by apply fwp_ret, HQ].
    apply IH; [done|]. intros r Hl. apply HQ. intros l -> q n [->|Hq]%elem_of_cons Hlink Hn; [|by eapply Hl].
    destruct Hr as [[m Hm]|Hr].
    + injection Hm as ->. by vm_compute in En.
    + unfold fs_readlink in Hr. unfold link_is in Hlink. by rewrite Hlink in Hr.
Qed.

Lemma looks_any {A} (op : fs -> result A) f : looks (sys_read op) (fun _ => True) f.
Proof. eapply looks_mono; [apply looks_read|done]. Qed.

Lemma looks_holdsAgent path f : looks (holdsAgent path) (fun _ => True) f.
Proof.
  apply (looks_try _ (fun e => e) _ (fun _ => True)); [apply looks_any|done|].
  intros [|[name kind] []] _; try by apply looks_ret. destruct (_ || _); [by apply looks_ret|].
  apply (looks_try _ (fun e => e) _ (fun _ => True)); [apply looks_any|done|]. intros info _. by apply looks_ret.
Qed.

Definition among (entries : list (string * file_kind)) (r : result (list (string * Z))) : Prop :=
  forall l, r = Ok l -> Forall (fun v => v.1 ∈ entries.*1) l.

Lemma looks_installedVersions entries f : looks (installedVersions entries) (among entries) f.
Proof.
  induction entries as [|[name kind] entries IH]; [apply looks_ret; by intros l [= <-]|].
  assert (looks (installedVersions entries) (among ((name, kind) :: entries)) f) as IH'.
  { eapply looks_mono; [exact IH|]. intros r Hr l ->. eapply Forall_impl; [by apply Hr|]. intros v Hv. by right. }
  cbn [installedVersions]. destruct kind; [exact IH'| |exact IH'].
  apply (looks_try _ (fun e => e) _ (fun _ => True)); [apply looks_holdsAgent|done|]. intros [] _; [|exact IH'].
  apply (looks_try _ (fun e => e) _ (fun _ => True)); [apply looks_any|done|]. intros info _.
  apply (looks_try _ (fun e => e) _ (among entries)); [exact IH|done|]. intros l Hl. apply looks_ret.
  intros l' [= <-]. constructor; [left|]. eapply Forall_impl; [by apply Hl|]. intros v Hv. by right.
Qed.

Lemma entries_are_names f : layout f -> Forall (fun e => entry_name e.1) (entry_kinds f versionsDirectory).
Proof.
  intros Hl. apply Forall_forall. intros [n k]. unfold entry_kinds. intros (n' & Hin & E)%list_elem_of_omap.
  pose proof (entry_names_entry _ _ _ Hin) as [Hs He].
  change (versionsDirectory +:+ "/" +:+ n') with (version_dir n') in E.
  destruct (f !! version_dir n') as [x|] eqn:Ex; [|done]. injection E as -> _.
  pose proof (al_dots f Hl) as [H1 H2]. split_and!; [done|done|intros E; simpl in E; congruence|intros E; simpl in E; congruence].
Qed.

(** No version that is current or previous goes, however the collection ends. *)
Definition kept (f g : fs) : Prop :=
  layout g /\ (forall p, p ∈ own -> g !! p = f !! p) /\
  forall p n, p ∈ [currentPath; previousPath] -> link_is f p n -> entry_name n -> g !! binary_path n = f !! binary_path n.

Lemma kept_refl' f : layout f -> kept f f.
Proof. by intros. Qed.

Lemma pruned_kept P f g : protects [currentPath; previousPath] f (Ok P) -> pruned P f g -> kept f g.
Proof. intros HP (Hl & Ho & Hg). split; [done|]. split; [done|]. intros p n Hp Hlink Hn. apply Hg; [|done]. by eapply HP. Qed.

Lemma fwp_pruneVersions f (Q : result unit -> fs -> Prop) C :
  layout f -> (forall g, kept f g -> C g) -> (forall g r, kept f g -> Q r g) -> fwp pruneVersions Q C f.
Proof.
  intros Hl HC HQ. assert (kept f f) as Hf by by apply kept_refl'.
  assert (forall e, Q (Err e) f) as HE by (intros e; by apply HQ).
  unfold pruneVersions. apply fwp_bind, looks_read; [intros _; by apply HC|]. intros [entries|e] Hr.
  2:{ destruct (errorsIs e SNotExist); by apply fwp_ret, HQ. }
  destruct Hr as [[m Hm]|Hr]; [done|]. rewrite (al_versions f Hl) in Hr. injection Hr as ->.
  apply fwp_try, looks_protected; [intros _; by apply HC|]. intros [P|e] HP; [|by apply fwp_ret].
  apply fwp_try, looks_installedVersions; [intros _; by apply HC|]. intros [versions|e] Hv; [|by apply fwp_ret].
  apply fwp_try, (fwp_removeVersions P f).
  - specialize (Hv versions eq_refl). rewrite (merge_sort_Permutation newer versions).
    pose proof (entries_are_names f Hl) as Hn. rewrite Forall_forall in *. intros v Hin.
    apply Hv, list_elem_of_fmap in Hin as (e & -> & He). rewrite Forall_forall in Hn. by apply Hn.
  - by apply agent_pruned_refl.
  - intros g Hg. apply HC. by eapply pruned_kept.
  - intros g [[]|e] Hg; [|apply fwp_ret, HQ; by eapply pruned_kept|apply fwp_ret, HQ; by eapply pruned_kept].
    apply fwp_syncDirectory; [intros _; apply HC|intros r _; apply HQ]; by eapply pruned_kept.
Qed.

(** What is current and what an update goes back to survive a collection. *)
Lemma kept_idle f g : kept f g -> idle f -> idle g.
Proof.
  intros (Hl & Ho & Hg) (_ & (n & Hc & Hi) & Hn). pose proof Hi as (He & _). split; [done|].
  split; [|rewrite Ho; [done|apply own_in]]. exists n. split.
  - unfold link_is in *. rewrite Ho; [done|apply own_in].
  - eapply installed_same; [|exact Hi]. intros _. eapply Hg; [|exact Hc|done]. left.
Qed.
End programs.

(** ** Installing *)

Lemma Rel_state n : entry_name n -> Rel stateDirectory (binary_path n) = binary_path n.
Proof.
  intros Hn. unfold Rel, path_parts. rewrite bool_decide_true by done.
  rewrite (bool_decide_false (binary_path n = ".")) by by rewrite binary_path_eq.
  change (rel_parts [] ?x) with x. destruct (Split (binary_path n) slash) eqn:E; [by apply Split_length in E|].
  rewrite <- E. apply (sconcat_Split slash).
Qed.

(** Nothing but the record of the update is missing. *)
Record ready (f : fs) (a b : string) : Prop := Ready {
  rd_idle : idle f;
  rd_current : link_is f currentPath a;
  rd_from : installed f a;
  rd_to : installed f b;
  rd_ne : a <> b
}.

Lemma ready_own f p (o : option node) a b : p = previousPath \/ p = failedPath ->
  match o with Some (NDir _ _) => False | Some (NLink _) => p = previousPath | _ => True end ->
  ready f a b -> ready (partial_alter (fun _ => o) p f) a b.
Proof.
  intros Hp Ho [(Hl & (n & Hc & Hn) & Hpend) H2 H3 H4 H5].
  assert (p ∈ own) as Hown by (unfold own; set_solver).
  assert (forall q, q = currentPath \/ q = pendingPath -> partial_alter (fun _ => o) p f !! q = f !! q) as Hne.
  { intros q Hq. apply lookup_partial_alter_ne. by destruct Hp, Hq; subst. }
  assert (forall k, link_is f currentPath k -> link_is (partial_alter (fun _ => o) p f) currentPath k) as Hlink.
  { intros k. unfold link_is. by rewrite Hne by by left. }
  split; [split; [|split]| | | |done]; try by apply installed_own.
  - apply layout_own; [done|done|]. destruct o as [[]|]; try done. set_solver.
  - exists n. split; [by apply Hlink|by apply installed_own].
  - by rewrite Hne by by right.
  - by apply Hlink.
Qed.

Lemma link_equiv f g p n : f ≡ g -> p ∈ own -> link_is f p n -> link_is g p n.
Proof. intros Hfg Hp. unfold link_is. by rewrite (fs_equiv_lookup f g p Hfg (proj1 (own_facts p Hp))). Qed.

Lemma installed_equiv f g n : f ≡ g -> installed f n -> installed g n.
Proof. intros Hfg. apply installed_same. intros Hn. symmetry. apply Hfg, binary_scratch, Hn. Qed.

Lemma agent_ready_equiv f g a b : f ≡ g -> ready f a b -> ready g a b.
Proof.
  intros Hfg [H1 H2 H3 H4 H5]. split; [by eapply idle_equiv|eapply link_equiv; [done|apply own_in|done]| | |done];
    by eapply installed_equiv.
Qed.

Lemma ready_safe f a b : ready f a b -> safe f.
Proof. intros Hr. apply idle_safe, Hr. Qed.

(** The record is written, then the link switched. *)
Lemma begun_updating f p a b t : ready f a b -> link_is f previousPath a ->
  pd_previous p = binary_path a -> pd_target p = binary_path b -> pending_ok p ->
  from_to (<[pendingPath := NFile (encode_pending p) 384 t]> f) p a b /\
  updating (<[pendingPath := NFile (encode_pending p) 384 t]> f) p /\
  layout (<[pendingPath := NFile (encode_pending p) 384 t]> f).
Proof.
  intros [(Hl & _ & _) Hc Ha Hb Hne] Hpr Ep Et Hok. set (g := <[pendingPath := _]> f).
  assert (from_to g p a b) as Hft.
  { split_and!; [done..|by apply installed_insert; [apply own_in|]|by apply installed_insert; [apply own_in|]|by apply link_insert|].
    left. by apply link_insert. }
  split; [done|]. split; [|by apply layout_insert_own; [done|apply own_in|]]. split; [|by exists a, b].
  exists (encode_pending p), 384%N, t. split; [apply lookup_insert_eq|]. intros s. by apply parse_encode_state.
Qed.

Lemma updating_safe f p : layout f -> updating f p -> safe f.
Proof.
  intros Hl Hu. pose proof Hu as (_ & a & b & Hne & Ep & Et & Ha & Hb & Hpr & Hc). split; [done|]. split; [|right; by exists p].
  destruct Hc as [Hc|Hc]; [by exists a|by exists b].
Qed.

Lemma switched f p a b : layout f -> from_to f p a b -> pending_is f p ->
  layout (<[currentPath := NLink (binary_path b)]> f) /\ from_to (<[currentPath := NLink (binary_path b)]> f) p a b /\
  pending_is (<[currentPath := NLink (binary_path b)]> f) p.
Proof.
  intros Hl (Hne & Ep & Et & Ha & Hb & Hpr & Hc) (raw & m & t & Hr & Hp).
  split; [apply layout_insert_own; [done|apply own_in|set_solver]|]. split.
  - split_and!; [done..|by apply installed_insert; [apply own_in|]|by apply installed_insert; [apply own_in|]|by apply link_insert|].
    right. unfold link_is. apply lookup_insert_eq.
  - exists raw, m, t. by rewrite lookup_insert_ne.
Qed.

(** A record given up before the switch. *)
Lemma withdrawn f p a b : layout f -> from_to f p a b -> idle (delete pendingPath f).
Proof.
  intros Hl (_ & _ & _ & Ha & Hb & _ & Hc). split; [by apply layout_delete_own; [|apply own_in]|].
  split; [|apply lookup_delete_eq].
  destruct Hc as [Hc|Hc]; [exists a|exists b]; (split; [by apply link_delete|by apply installed_delete; [apply own_in|]]).
Qed.

Lemma updating_equiv f g p : f ≡ g -> updating f p -> updating g p.
Proof.
  intros Hfg ((raw & m & t & Hr & Hp) & a & b & Hne & Ep & Et & Ha & Hb & Hpr & Hc). split.
  - exists raw, m, t. by rewrite <- (fs_equiv_lookup f g pendingPath Hfg eq_refl).
  - exists a, b. split_and!; [done..|by eapply installed_equiv|by eapply installed_equiv|by eapply link_equiv; [|apply own_in|]|].
    destruct Hc; [left|right]; (by eapply link_equiv; [|apply own_in|]).
Qed.

Definition same_binaries (f g : fs) : Prop := forall n, entry_name n -> g !! binary_path n = f !! binary_path n.

Lemma same_binaries_trans f g h : same_binaries f g -> same_binaries g h -> same_binaries f h.
Proof. intros H1 H2 n Hn. by rewrite H2, H1. Qed.

Lemma same_binaries_equiv f g : f ≡ g -> same_binaries f g.
Proof. intros Hfg n Hn. symmetry. apply Hfg, binary_scratch, Hn. Qed.

Lemma same_binaries_own f p (o : option node) : p ∈ own -> same_binaries f (partial_alter (fun _ => o) p f).
Proof. intros Hp n Hn. apply lookup_partial_alter_ne. by apply (own_facts p Hp). Qed.

Lemma same_binaries_insert f p x : p ∈ own -> same_binaries f (<[p := x]> f).
Proof. apply (same_binaries_own f p (Some x)). Qed.

Lemma same_binaries_delete f p : p ∈ own -> same_binaries f (delete p f).
Proof. apply (same_binaries_own f p None). Qed.

Lemma binary_path_text n : is_ascii n = true -> ValidString (binary_path n) = true.
Proof.
  intros Hn. apply is_ascii_ValidString. rewrite binary_path_eq. unfold is_ascii in *.
  change (String slash ?x) with ("/" +:+ x). by rewrite !sforall_app, Hn.
Qed.

Section install.
Context `{Env} `{!ClockOk} (w0 : world).
Local Notation fwp := (fwp w0).

(** The update from [a] to [b] is on record. *)
Definition recorded (r : Request) (f g : fs) (a b : string) : Prop :=
  exists p, updating g p /\ from_to g p a b /\ pd_command p = rq_command r /\ pd_version p = rq_version r /\
    same_binaries f g.

Lemma recorded_safe r f g a b : layout g -> recorded r f g a b -> safe g.
Proof. intros Hl (p & Hu & _). by eapply updating_safe. Qed.

Lemma temp_link p z : p = currentPath \/ p = previousPath ->
  scratch (p +:+ ".tmp-" +:+ FormatInt z) = true /\ Dir (p +:+ ".tmp-" +:+ FormatInt z) = ".".
Proof.
  intros Hp. split; [by destruct Hp as [-> | ->]|]. unfold Dir. rewrite Split_no_char; [done|].
  rewrite !no_char_app. split; [by destruct Hp as [-> | ->]|]. split; [done|apply FormatInt_no_slash].
Qed.

Lemma temp_file k : scratch ("./.update-" +:+ FormatUint k) = true /\ Dir ("./.update-" +:+ FormatUint k) = ".".
Proof.
  split; [done|]. change ("./.update-" +:+ FormatUint k) with ("." +:+ String slash (".update-" +:+ FormatUint k)).
  rewrite Dir_app; [done|]. apply no_char_app. split; [done|apply FormatUint_no_slash].
Qed.

Lemma fwp_link target p f (Q : result unit -> fs -> Prop) C : layout f -> p = currentPath \/ p = previousPath ->
  (forall g, g ≡ f -> C g /\ forall e, Q (Err e) g) ->
  (forall g, g ≡ <[p := NLink target]> f -> C g /\ Q (Ok tt) g) ->
  fwp (atomicSymlink target p) Q C f.
Proof.
  intros Hl Hp HX HQ. assert (p ∈ own) as Hown by (unfold own; set_solver).
  apply (fwp_replaceLink w0 True _ _ "."); [done|by destruct Hp as [-> | ->]| |by apply own_facts| |apply ret_looks|..].
  - pose proof (al_plain f Hl) as Hpl. rewrite Forall_forall in Hpl. by apply Hpl.
  - intros z. by apply temp_link.
  - intros g _ Hg. by apply HX.
  - intros g _ Hg. by apply HQ.
  - intros g e Hg. by apply HX.
  - intros g r Hg Hr. rewrite Hr by done. by apply HQ.
Qed.

Lemma fwp_record content f (Q : result unit -> fs -> Prop) C : layout f ->
  (forall g, g ≡ f -> C g /\ forall e, Q (Err e) g) ->
  (forall g t, g ≡ <[pendingPath := NFile content 384 t]> f -> C g /\ forall r, Q r g) ->
  fwp (writeJSONAtomic pendingPath content 384) Q C f.
Proof.
  intros Hl HX HQ. unfold writeJSONAtomic. change (Dir pendingPath) with ".".
  apply (fwp_replaceFile w0 True); [done|done| |done|exact temp_file|apply ret_looks|..].
  - pose proof (al_plain f Hl) as Hpl. rewrite Forall_forall in Hpl. apply Hpl, own_in.
  - intros g _ Hg. by apply HX.
  - intros g t _ Hg. destruct (HQ _ _ Hg). by split.
  - intros g t Hg. by eapply HQ.
Qed.

(** The tree while the update is on record. *)
Definition on_record (f : fs) (p : Pending) (a b : string) (g : fs) : Prop :=
  layout g /\ pending_is g p /\ from_to g p a b /\ same_binaries f g.

Lemma on_record_equiv f p a b g h : g ≡ h -> on_record f p a b g -> on_record f p a b h.
Proof.
  intros Hgh (Hl & Hp & (? & ? & ? & Ha & Hb & Hlp & Hlc) & Hs). split; [by eapply layout_equiv'|].
  split; [|split].
  - destruct Hp as (raw & m & t & Hr & Hp). exists raw, m, t. by rewrite <- (fs_equiv_lookup g h pendingPath Hgh eq_refl).
  - split_and!; [done..|by eapply installed_equiv|by eapply installed_equiv|by eapply link_equiv; [done|apply own_in|]|].
    destruct Hlc; [left|right]; (by eapply link_equiv; [done|apply own_in|]).
  - eapply same_binaries_trans; [done|by apply same_binaries_equiv].
Qed.

Lemma on_record_safe f p a b g : on_record f p a b g -> safe g.
Proof. intros (Hl & Hp & Hft & _). apply (updating_safe g p); [done|]. split; [done|]. by exists a, b. Qed.

Lemma on_record_recorded r f p a b g : pd_command p = rq_command r -> pd_version p = rq_version r ->
  on_record f p a b g -> recorded r f g a b.
Proof. intros Hc Hv (Hl & Hp & Hft & Hs). exists p. split; [split; [done|by exists a, b]|done]. Qed.

Lemma on_record_switched f p a b g : on_record f p a b g -> on_record f p a b (<[currentPath := NLink (binary_path b)]> g).
Proof.
  intros (Hl & Hp & Hft & Hs). destruct (switched g p a b Hl Hft Hp) as (? & ? & ?). split_and!; try done.
  eapply same_binaries_trans; [done|apply same_binaries_insert, own_in].
Qed.

(** From the record on. *)
Lemma fwp_begin r f f2 a b p (Q : result string -> fs -> Prop) C :
  ready f2 a b -> link_is f2 previousPath a -> same_binaries f f2 -> pending_ok p ->
  pd_command p = rq_command r -> pd_version p = rq_version r -> pd_previous p = binary_path a -> pd_target p = binary_path b ->
  (forall g, safe g -> C g) ->
  (forall g, layout g -> recorded r f g a b -> link_is g currentPath b -> Q (Ok (rq_version r)) g) ->
  (forall e g, safe g -> link_is g currentPath a \/ recorded r f g a b -> Q (Err e) g) ->
  fwp (try! _ := writeJSONAtomic pendingPath (encode_pending p) 384 in
       try! _ := atomicSymlink (binary_path b) currentPath
         catch e => (let! _ := Remove pendingPath in ret (Err (errorW "switch current agent target: " e))) in
       try! _ := syncDirectory stateDirectory in
       ret (Ok (rq_version r))) Q C f2.
Proof.
  intros Hr Hpr Hb Hok Ec Ev Ep Et HC HQ HE. assert (layout f2) as Hl by apply Hr.
  assert (forall g, g ≡ f2 -> ready g a b) as Hrg by (intros g Hg; by eapply agent_ready_equiv; [symmetry|]).
  apply fwp_try, fwp_record; [done|..].
  { intros g Hg. split; [by eapply HC, ready_safe, Hrg|]. intros e. apply fwp_ret, HE; [by eapply ready_safe, Hrg|left; by apply Hrg]. }
  intros f3 t Hf3. destruct (begun_updating f2 p a b t Hr Hpr Ep Et Hok) as (Hft & Hu & Hl3). set (h := <[pendingPath := _]> f2) in *.
  assert (on_record f p a b f3) as H3.
  { apply (on_record_equiv _ _ _ _ h); [by symmetry|]. split; [done|]. split; [apply Hu|]. split; [done|].
    eapply same_binaries_trans; [exact Hb|apply same_binaries_insert, own_in]. }
  assert (link_is f3 currentPath a) as Hc3.
  { apply (link_equiv h); [by symmetry|apply own_in|]. apply link_insert; [done|apply Hr]. }
  split; [by eapply HC, on_record_safe|]. intros [[]|e]; [|apply fwp_ret, HE; [by eapply on_record_safe|by left]].
  apply fwp_try, fwp_link; [apply H3|by left|..].
  - intros g Hg. assert (on_record f p a b g) as Hgr by (by eapply on_record_equiv; [symmetry|]).
    assert (link_is g currentPath a) as Hgc by (by eapply link_equiv; [symmetry; done|apply own_in|]).
    split; [by eapply HC, on_record_safe|]. intros e.
    apply fwp_bind, fwp_sys.
    + intros _. split; [by eapply HC, on_record_safe|]. intros m. apply fwp_ret, HE; [by eapply on_record_safe|by left].
    + intros _ _. apply fwp_ret, HE; [|left].
      * destruct (fs_remove_cases g pendingPath) as [-> | ->]; [by eapply on_record_safe|].
        eapply idle_safe, withdrawn; apply Hgr.
      * destruct (fs_remove_cases g pendingPath) as [-> | ->]; [done|by apply link_delete].
  - intros g Hg. assert (on_record f p a b g) as Hgr.
    { eapply on_record_equiv; [by symmetry|]. by apply on_record_switched. }
    assert (link_is g currentPath b) as Hgc.
    { eapply link_equiv; [by symmetry|apply own_in|]. unfold link_is. apply lookup_insert_eq. }
    split; [by eapply HC, on_record_safe|]. apply fwp_try, fwp_syncDirectory; [intros _; by eapply HC, on_record_safe|].
    intros [[]|e] _; apply fwp_ret.
    + apply HQ; [apply Hgr|by eapply on_record_recorded|done].
    + apply HE; [by eapply on_record_safe|right; by eapply on_record_recorded].
Qed.

Lemma fwp_switch r f a b (Q : result string -> fs -> Prop) C :
  ready f a b -> rq_command r <> "" -> ValidString (rq_command r) = true -> ValidString (rq_version r) = true ->
  (forall g, safe g -> C g) ->
  (forall g, layout g -> recorded r f g a b -> link_is g currentPath b -> Q (Ok (rq_version r)) g) ->
  (forall e g, safe g -> link_is g currentPath a \/ recorded r f g a b -> Q (Err e) g) ->
  fwp (switch r (binary_path b) (binary_path a)) Q C f.
Proof.
  intros Hr Hc Hcv Hvv HC HQ HE. unfold switch.
  assert (forall g, ready g a b -> layout g) as Hlay by (intros g [[? _] _ _ _ _]; done).
  assert (forall g e, ready g a b -> Q (Err e) g) as HEr.
  { intros g e Hg. apply HE; [by eapply ready_safe|left; apply Hg]. }
  assert (forall g, ready g a b -> C g) as HCr by (intros g Hg; by eapply HC, ready_safe).
  apply fwp_try, fwp_link; [by apply Hlay|by right|..].
  { intros g Hg. assert (ready g a b) as Hrg by (by eapply agent_ready_equiv; [symmetry|]).
    split; [by apply HCr|]. intros e. by apply fwp_ret, HEr. }
  intros f1 Hf1. assert (ready f1 a b) as Hr1.
  { eapply agent_ready_equiv; [by symmetry|]. by apply (ready_own f previousPath (Some (NLink _))); [left|..]. }
  assert (link_is f1 previousPath a) as Hp1.
  { eapply link_equiv; [by symmetry|apply own_in|]. unfold link_is. apply lookup_insert_eq. }
  assert (same_binaries f f1) as Hb1.
  { eapply same_binaries_trans; [by apply (same_binaries_insert f previousPath), own_in|]. apply same_binaries_equiv. by symmetry. }
  split; [by apply HCr|]. apply fwp_bind, fwp_Now. intros n. set (p := MkPending _ _ _ _ _).
  assert (pending_ok p) as Hok.
  { destruct Hr1 as [_ _ (_ & Ha & _) (_ & Hb & _) _]. split_and!; simpl;
      [done|by rewrite binary_path_eq|by rewrite binary_path_eq|done|by apply binary_path_text|by apply binary_path_text|done|].
    apply clock_unix. }
  assert (forall g, g = f1 \/ g = delete failedPath f1 -> ready g a b /\ link_is g previousPath a /\ same_binaries f g) as Hg.
  { intros g [->| ->]; [done|]. split; [by apply (ready_own f1 failedPath None); [right|..]|].
    split; [by apply link_delete|]. eapply same_binaries_trans; [exact Hb1|]. apply same_binaries_delete, own_in. }
  apply fwp_bind, fwp_sys.
  - intros _. split; [by apply HCr|]. intros m. by apply (fwp_begin r f f1 a b p).
  - intros _ _. destruct (Hg (fs_remove f1 failedPath).1 (fs_remove_cases f1 failedPath)) as (H1 & H2 & H3).
    by apply (fwp_begin r f _ a b p).
Qed.

Lemma fwp_activate r a b f (Q : result string -> fs -> Prop) C :
  idle f -> link_is f currentPath a -> installed f a -> installed f b ->
  rq_command r <> "" -> ValidString (rq_command r) = true -> ValidString (rq_version r) = true ->
  (forall g, safe g -> C g) ->
  (a = b -> Q (Ok (rq_version r)) f) ->
  (forall g, a <> b -> layout g -> recorded r f g a b -> link_is g currentPath b -> Q (Ok (rq_version r)) g) ->
  (forall e g, safe g -> link_is g currentPath a \/ recorded r f g a b -> Q (Err e) g) ->
  fwp (activate r (binary_path b)) Q C f.
Proof.
  intros Hi Hc Ha Hb Hcmd Hcv Hvv HC HQ0 HQ HE. pose proof (idle_safe f Hi) as Hs.
  assert (forall e, Q (Err e) f) as HEf by (intros e; apply HE; [done|by left]).
  unfold activate. apply fwp_try, (looks_read w0); [intros _; by apply HC|]. intros [t|e] Ht; [|by apply fwp_ret].
  destruct Ht as [[m Hm]|Ht]; [done|]. unfold fs_readlink in Ht. rewrite Hc in Ht. injection Ht as ->.
  apply fwp_try, (looks_read w0); [intros _; by apply HC|]. intros [resolved|e] _; [|by apply fwp_ret].
  destruct (outside_versions _); [by apply fwp_ret|]. rewrite Rel_state by apply Hb.
  case_bool_decide as E.
  - apply binary_path_inj in E. by apply fwp_ret, HQ0.
  - assert (a <> b) as Hne by (by intros ->). apply fwp_switch; try done. intros g Hl. by apply HQ.
Qed.

(** Until the executable is in place, what runs is what ran. *)
Definition before (f f' : fs) : Prop :=
  idle f' /\ f' !! currentPath = f !! currentPath /\
  forall a, link_is f currentPath a -> entry_name a -> f' !! binary_path a = f !! binary_path a.

Lemma before_equiv f g h : g ≡ h -> before f g -> before f h.
Proof.
  intros Hgh (Hi & Hc & Hb). split; [by eapply idle_equiv|]. split.
  - by rewrite <- (fs_equiv_lookup g h currentPath Hgh eq_refl).
  - intros a Ha Hn. rewrite <- Hb by done. symmetry. apply Hgh, binary_scratch, Hn.
Qed.

(** What the end of an installation says: [f] is the tree it found. *)
Definition installed_or_not (r : Request) (binary : string) (f : fs) (res : result string) (g : fs) : Prop :=
  safe g /\
  match res with
  | Ok v => v = rq_version r /\
      (exists t, g !! binary_path (releaseDirectory r binary) = Some (NFile binary 493 t)) /\
      link_is g currentPath (releaseDirectory r binary) /\
      ((link_is f currentPath (releaseDirectory r binary) /\ g !! pendingPath = None) \/
       exists a p, link_is f currentPath a /\ updating g p /\ from_to g p a (releaseDirectory r binary) /\
         pd_command p = rq_command r /\ pd_version p = rq_version r /\ g !! binary_path a = f !! binary_path a)
  | Err _ =>
      g !! currentPath = f !! currentPath \/
      exists a p, link_is f currentPath a /\ updating g p /\ from_to g p a (releaseDirectory r binary) /\
        pd_command p = rq_command r /\ pd_version p = rq_version r
  end.

Lemma before_ends r binary f g e : before f g -> installed_or_not r binary f (Err e) g.
Proof. intros (Hi & Hc & _). split; [by apply idle_safe|]. by left. Qed.

Lemma outcome_equiv r binary f res g h : entry_name (releaseDirectory r binary) -> g ≡ h -> installed_or_not r binary f res g -> installed_or_not r binary f res h.
Proof.
  intros Hn Hgh (Hs & Hr).
  assert (forall n, entry_name n -> h !! binary_path n = g !! binary_path n) as Hb.
  { intros n He. symmetry. apply Hgh, binary_scratch, He. }
  assert (forall p a b, from_to g p a b -> from_to h p a b) as Hft.
  { intros p a b (? & ? & ? & Ha & Hb' & Hlp & Hlc).
    split_and!; [done..|by eapply installed_equiv|by eapply installed_equiv|by eapply link_equiv; [done|apply own_in|]|].
    destruct Hlc; [left|right]; (by eapply link_equiv; [done|apply own_in|]). }
  split; [by eapply agent_safe_equiv|]. destruct res as [v|e].
  - destruct Hr as (Hv & (t & Ht) & Hl & Hr). split; [done|]. split; [exists t; by rewrite Hb|].
    split; [by eapply link_equiv; [done|apply own_in|]|]. destruct Hr as [[H1 H2]|(a & p & Ha & Hu & Hp & Hc & Hver & Hba)].
    + left. split; [done|]. by rewrite <- (fs_equiv_lookup g h pendingPath Hgh eq_refl).
    + right. exists a, p. split; [done|]. split; [by eapply updating_equiv|]. split; [by apply Hft|].
      split; [done|]. split; [done|]. rewrite Hb; [done|]. apply Hp.
  - destruct Hr as [Hc|(a & p & Ha & Hu & Hp & Hrest)].
    + left. by rewrite <- (fs_equiv_lookup g h currentPath Hgh eq_refl).
    + right. exists a, p. split; [done|]. split; [by eapply updating_equiv|]. split; [by apply Hft|done].
Qed.

(** The name of an installed release. *)
Lemma release_entry r binary : validateVersion (rq_version r) = Ok tt ->
  entry_name (releaseDirectory r binary) /\ is_ascii (releaseDirectory r binary) = true.
Proof.
  intros Hv. assert (Manifest.validateVersion (rq_version r) = Ok tt) as Hm.
  { unfold AgentUpdate.validateVersion, Manifest.validateVersion in *. apply rbind_Ok in Hv as ([] & H1%guard_err_Ok & H2%guard_err_Ok).
    by rewrite H1, H2. }
  pose proof (validVersion_ascii _ Hm) as [Ha Hs]. pose proof (sha256_hex_digest binary) as Hd. split.
  - apply version_digest_entry; [done|apply Hd|]. apply digest_ok_decodes in Hd as [x Hx]. by eapply DecodeString_no_slash.
  - unfold releaseDirectory, is_ascii in *. change ("-" +:+ ?x) with ("-" +:+ x).
    rewrite !sforall_app, Ha. by apply (digest_ascii (sha256_hex binary)).
Qed.

Lemma fwp_close_err {A} p e f (Q : result A -> fs -> Prop) C : C f -> Q (Err e) f -> fwp (let! _ := Close p in ret (Err e)) Q C f.
Proof.
  intros HC HQ. apply fwp_bind, fwp_read; [|by apply fwp_ret].
  intros _. split; [done|]. intros m. by apply fwp_ret.
Qed.

Lemma fwp_fillTemporary {A} tmp content mode (k : io (result A)) f (Q : result A -> fs -> Prop) C :
  scratch tmp = true -> f !! tmp = None ->
  (forall g, g ≡ f -> C g /\ forall e, Q (Err e) g) -> (forall n, fwp k Q C (<[tmp := NFile content mode (time_at n)]> f)) ->
  forall t, fwp (fillTemporary tmp content mode k) Q C (<[tmp := NFile "" 384 t]> f).
Proof.
  intros Hs Hn HX HK t.
  assert (forall x, C (<[tmp := x]> f) /\ forall e, Q (Err e) (<[tmp := x]> f)) as HX'.
  { intros x. apply HX. by apply insert_scratch. }
  assert (forall x e, fwp (let! _ := Close tmp in ret (Err e)) Q C (<[tmp := x]> f)) as HE.
  { intros x e. apply fwp_close_err; apply HX'. }
  unfold fillTemporary. apply fwp_try, fwp_sys; [intros _; split; [apply HX'|intros m; apply HE]|].
  intros n1 r1. unfold fs_chmod. rewrite lookup_insert_eq, insert_insert_eq. cbn [fst snd].
  apply fwp_try, fwp_sys; [intros _; split; [apply HX'|intros m; apply HE]|].
  intros n2 r2. unfold fs_append. rewrite lookup_insert_eq, insert_insert_eq, app_Empty. cbn [fst snd].
  apply fwp_try, fwp_read; [intros _; split; [apply HX'|intros m; apply HE]|]. rewrite lookup_insert_eq.
  apply fwp_try, fwp_read; [intros _; split; [apply HX'|intros m; apply fwp_ret, HX']|]. apply HK.
Qed.

Lemma before_safe f g : before f g -> safe g.
Proof. intros [Hi _]. by apply idle_safe. Qed.

(** The executable, tried out, goes into its version. *)
Lemma fwp_installBinary `{Candidate} r binary f0 f tmp C :
  validateVersion (rq_version r) = Ok tt -> rq_command r <> "" -> ValidString (rq_command r) = true ->
  idle f0 -> before f0 f -> is_dir f (version_dir (releaseDirectory r binary)) = true ->
  scratch tmp = true -> f !! tmp = None -> (forall g, safe g -> C g) ->
  forall t, fwp (installBinary r binary (version_dir (releaseDirectory r binary)) tmp) (installed_or_not r binary f0) C
    (<[tmp := NFile "" 384 t]> f).
Proof.
  intros Hv Hc Hcv Hi0 Hb Hd Hs Hn HC t. destruct (release_entry r binary Hv) as [He Ha]. set (b := releaseDirectory r binary) in *.
  assert (forall g, g ≡ f -> C g /\ forall e, installed_or_not r binary f0 (Err e) g) as HX.
  { intros g Hg. assert (before f0 g) as Hbg by (by eapply before_equiv; [symmetry|]).
    split; [by eapply HC, before_safe|]. intros e. by apply before_ends. }
  apply fwp_fillTemporary; [done|done|done|]. intros n.
  assert (<[tmp := NFile binary 493 (time_at n)]> f ≡ f) as Htmp by by apply insert_scratch.
  apply fwp_try, (looks_read w0); [intros _; by apply HX|]. intros [out|e] _; [|by apply fwp_ret, HX].
  case_bool_decide; [|by apply fwp_ret, HX]. cbn [negb]. rewrite Join_binary by done.
  set (h := <[binary_path b := NFile binary 493 (time_at n)]> f).
  destruct Hb as ((Hl & (a & Hca & Hia) & Hpend) & Hcur & Hbin).
  assert (fs_rename (<[tmp := NFile binary 493 (time_at n)]> f) tmp (binary_path b) = (h, Ok tt)) as Er.
  { assert (tmp <> binary_path b) as Hne by (intros ->; rewrite binary_scratch in Hs; [done|apply He]).
    unfold fs_rename. rewrite lookup_insert_eq, lookup_insert_ne by done.
    assert (Dir (binary_path b) = version_dir b) as -> by (by apply Dir_binary).
    rewrite is_dir_insert by (done || by unfold plain_file; rewrite Hn). rewrite delete_insert_id by done.
    pose proof (al_binaries f Hl b He) as Hp. unfold plain_file in Hp. by destruct (f !! binary_path b) as [[]|]. }
  apply fwp_try, fwp_sys; [intros _; split; [by apply HX|intros m; by apply fwp_ret, HX]|].
  intros _ _. rewrite Er. cbn [fst snd].
  assert (forall k, installed f k -> installed h k) as Hkeep.
  { intros k. eapply (installed_binary _ _ _ _ _ (rq_version r)); [done|done]. }
  assert (forall p, p ∈ own -> h !! p = f !! p) as Hown.
  { intros p Hp. apply lookup_insert_ne. apply not_eq_sym. by apply own_facts. }
  assert (idle h) as Hih.
  { split; [by apply layout_binary|]. split; [|by rewrite Hown by apply own_in].
    exists a. split; [unfold link_is; by rewrite Hown by apply own_in|by apply Hkeep]. }
  assert (installed h b) as Hib.
  { split; [done|]. split; [done|]. exists (rq_version r), binary, 493%N, (time_at n).
    split; [done|]. split; [apply lookup_insert_eq|done]. }
  assert (h !! currentPath = f0 !! currentPath) as Hch by (by rewrite Hown by apply own_in).
  assert (link_is h currentPath a) as Hlh by (unfold link_is; by rewrite Hown by apply own_in).
  assert (link_is f0 currentPath a) as Hl0 by (unfold link_is in *; by rewrite <- Hch).
  assert (forall e, installed_or_not r binary f0 (Err e) h) as HEh by (intros e; split; [by apply idle_safe|by left]).
  apply fwp_try, fwp_syncDirectory; [intros _; by apply HC, idle_safe|]. intros [[]|e] _; [|by apply fwp_ret].
  assert (ValidString (rq_version r) = true) as Hvv.
  { apply is_ascii_ValidString. unfold b, releaseDirectory, is_ascii in Ha. rewrite sforall_app in Ha. by apply andb_true_iff in Ha as [? _]. }
  apply (fwp_activate r a b h); try done; [by apply Hkeep|..].
  - intros ->. split; [by apply idle_safe|]. split; [done|]. split; [exists (time_at n); apply lookup_insert_eq|].
    split; [done|]. left. split; [done|apply Hih].
  - intros g Hne Hlg (p & Hu & Hft & Hpc & Hpv & Hsb) Hlink. split; [by eapply updating_safe|].
    split; [done|]. split; [exists (time_at n); rewrite Hsb by done; apply lookup_insert_eq|]. split; [done|]. right.
    exists a, p. split_and!; try done. rewrite Hsb by apply Hia.
    unfold h. rewrite lookup_insert_ne by (by intros ->%binary_path_inj). by apply Hbin; [|apply Hia].
  - intros e g Hsg [Hlg|(p & Hu & Hft & Hpc & Hpv & Hsb)]; (split; [done|]).
    + left. unfold link_is in *. by rewrite Hlg, Hl0.
    + right. by exists a, p.
Qed.

Definition s_state (path state : string) (f : fs) : result Pending :=
  match fs_readfile f path with Ok raw => parse_state state raw | Err e => Err e end.

Lemma looks_state path state f :
  looks w0 (readState path state) (fun r => (exists m, r = Err (errorsNew m)) \/ r = s_state path state f) f.
Proof.
  unfold readState. intros Q C HC HQ. apply fwp_try, (looks_read w0); [done|].
  intros [raw|e] Hr; apply fwp_ret, HQ.
  - right. destruct Hr as [[m Hm]|Hr]; [done|]. unfold s_state. by rewrite <- Hr.
  - destruct Hr as [[m Hm]|Hr]; [left; exists m; congruence|right]. unfold s_state. by rewrite <- Hr.
Qed.

Lemma s_state_pending f p : pending_is f p -> forall s, s_state pendingPath s f = Ok p.
Proof. intros (raw & m & t & Hr & Hp) s. unfold s_state. by rewrite (fs_readfile_file _ _ _ _ _ Hr). Qed.

Lemma kept_before f g : idle f -> kept f g -> before f g.
Proof.
  intros Hi Hk. split; [by eapply kept_idle|]. destruct Hk as (_ & Ho & Hb). split; [by apply Ho, own_in|].
  intros a Ha Hn. eapply Hb; [|exact Ha|done]. left.
Qed.

Lemma before_mkdir f g b g' : before f g -> entry_name b -> dir_step (version_dir b) g g' -> before f g'.
Proof.
  intros Hb Hn [->|(m & t & ->)]; [done|]. destruct Hb as ((Hl & (a & Hc & Ha) & Hp) & Hcur & Hbin).
  assert (forall p, p ∈ own -> <[version_dir b := NDir m t]> g !! p = g !! p) as Ho.
  { intros p Hp'. apply lookup_insert_ne. apply not_eq_sym. by apply own_facts. }
  assert (forall k, <[version_dir b := NDir m t]> g !! binary_path k = g !! binary_path k) as Hk.
  { intros k. apply lookup_insert_ne, dir_not_binary, Hn. }
  split; [split; [by apply agent_layout_mkdir|split]|split].
  - exists a. split; [unfold link_is; by rewrite Ho by apply own_in|]. by eapply installed_same; [intros _; apply Hk|].
  - by rewrite Ho by apply own_in.
  - by rewrite Ho by apply own_in.
  - intros k Hk' Hkn. rewrite Hk. by apply Hbin.
Qed.

Lemma fwp_install `{Candidate} r binary f C :
  validateVersion (rq_version r) = Ok tt -> rq_command r <> "" -> ValidString (rq_command r) = true ->
  safe f -> (forall g, safe g -> C g) -> fwp (install r binary) (installed_or_not r binary f) C f.
Proof.
  intros Hv Hc Hcv Hs HC. destruct (release_entry r binary Hv) as [He _].
  assert (forall e, installed_or_not r binary f (Err e) f) as HEf by (intros e; split; [done|by left]).
  unfold install. apply fwp_bind, looks_state; [intros _; by apply HC|]. intros [p|e] Hr; [by apply fwp_ret|].
  destruct (errorsIs e SNotExist) eqn:En; cbn [negb]; [|by apply fwp_ret].
  assert (idle f) as Hi.
  { destruct Hs as (Hl & Hb & [Hn|(p & Hp & _)]); [done|]. exfalso. destruct Hr as [[m [= ->]]|Hr]; [by vm_compute in En|].
    by rewrite (s_state_pending f p Hp) in Hr. }
  apply fwp_try, fwp_pruneVersions; [apply Hi|intros g Hg; apply HC; eapply before_safe; by eapply kept_before|].
  intros g [[]|e'] Hg; apply (kept_before f g Hi) in Hg; [|by apply fwp_ret, before_ends].
  rewrite Join_version by done. set (d := version_dir (releaseDirectory r binary)).
  apply fwp_try, fwp_sys.
  { intros _. split; [by eapply HC, before_safe|]. intros m. by apply fwp_ret, before_ends. }
  intros n _.
  assert (Dir d = versionsDirectory) as Hdir by (apply Dir_two; [apply entry_versions'|apply He]).
  destruct (length (Split d slash)) as [|fuel] eqn:El; [destruct (Split d slash) eqn:Es; [by apply Split_length in Es|done]|].
  destruct (mkdirall_one g d 448 (time_at n) fuel) as (g1 & E & Hstep & Hd1); [done|by apply Hg|rewrite Hdir; by apply Hg|].
  rewrite E. cbn [fst snd]. assert (before f g1) as Hg1 by (by eapply before_mkdir).
  apply fwp_try, fwp_sys.
  { intros _. split; [by eapply HC, before_safe|]. intros m. by apply fwp_ret, before_ends. }
  intros n1 k. destruct (temp_name_Some g1 (d +:+ "/" +:+ ".xui-agent-") k) as (k' & Ek & Hnew). rewrite Ek.
  set (tmp := (d +:+ "/" +:+ ".xui-agent-") +:+ FormatUint k') in *.
  assert (tmp = d +:+ String slash (".xui-agent-" +:+ FormatUint k')) as Etmp by (unfold tmp; by rewrite !sapp_assoc).
  assert (scratch tmp = true) as Hts by (rewrite Etmp; apply temporary_scratch, He).
  assert (fs_create g1 tmp 384 (time_at n1) = (<[tmp := NFile "" 384 (time_at n1)]> g1, Ok tt)) as Ec.
  { unfold fs_create. rewrite Hnew. assert (Dir tmp = d) as ->; [|by rewrite Hd1].
    rewrite Etmp. apply Dir_binary; [done|]. apply no_char_app. split; [done|apply FormatUint_no_slash]. }
  rewrite Ec. cbn [fst snd]. apply fwp_defer. eapply fwp_mono; [by apply (fwp_installBinary r binary f g1 tmp C)| |done].
  intros res h Hres. apply fwp_remove_scratch; [done|..].
  - intros h' _ Hh. apply HC. eapply agent_safe_equiv; [by symmetry|apply Hres].
  - intros h' _ Hh. eapply outcome_equiv; [done|by symmetry|done].
Qed.

Lemma fwp_InstallLocal `{Candidate} r binary f C :
  ValidString (rq_command r) = true -> safe f -> (forall g, safe g -> C g) ->
  fwp (InstallLocal r binary) (installed_or_not r binary f) C f.
Proof.
  intros Hcv Hs HC. assert (forall e, installed_or_not r binary f (Err e) f) as HEf by (intros e; split; [done|by left]).
  unfold InstallLocal. destruct (bool_decide (rq_command r = "")) eqn:Ec; [by apply fwp_ret|].
  apply bool_decide_eq_false in Ec. destruct (_ <? _)%N; [by apply fwp_ret|]. cbn [orb].
  destruct (validateVersion _) as [[]|e] eqn:Ev; [|by apply fwp_ret]. destruct (_ || _); [by apply fwp_ret|].
  by apply fwp_install.
Qed.
End install.
