(* ===== verification/AgentUpdateTheorems.v ===== *)
(** * The agent's update from the command to the launcher

    The agent, the installer and the launcher as a transition system on the
    state directory: the invariant along every run, what a successful update
    has installed, and what the launcher restores. *)

From stdpp Require Import base gmap strings list fin_maps sorting relations.
From Stdlib Require Import ZArith NArith Ascii.
From S2P Require Import Prelude.
From S2P Require Import GoStrings.
From S2P Require Import Sha256.
From S2P Require Import Json.
From S2P Require Import Indent.
From S2P Require Import Os.
From S2P Require Import AtomicFile.
From S2P Require Import Dirs.
From S2P Require Import FsLogic.
From S2P Require Import XrayTypes.
From S2P Require Import XraySteps.
From S2P Require Import Manifest.
From S2P Require Import Release.
From S2P Require Import AgentUpdate.
From S2P Require Import AgentUpdateProofs.

Section programs.
Context `{Env} `{!ClockOk} (w0 : world).
Local Notation fwp := (fwp w0).

(** ** Confirming *)

(** The record is there no more, or all is as it was. *)
Definition confirmed_or_not (version : string) (f : fs) (res : result unit) (g : fs) : Prop :=
  safe g /\ g !! currentPath = f !! currentPath /\
  (res = Ok tt -> g !! pendingPath = None /\ forall p, pending_is f p -> pd_version p = version).

Lemma safe_confirmed f p : safe f -> pending_is f p -> safe (delete pendingPath f).
Proof.
  intros (Hl & _ & [Hn|(p' & _ & a & b & Hft)]) (raw & m & t & Hr & _); [congruence|].
  by eapply idle_safe, withdrawn.
Qed.

Lemma fwp_Confirm version f C : safe f -> (forall g, safe g -> C g) ->
  fwp (Confirm version) (confirmed_or_not version f) C f.
Proof.
  intros Hs HC. assert (forall e, confirmed_or_not version f (Err e) f) as HEf by (intros e; by split_and!).
  unfold Confirm. apply fwp_bind, looks_state; [intros _; by apply HC|]. intros [p|e] Hr.
  - destruct Hr as [[m Hm]|Hr]; [done|].
    assert (pending_is f p) as Hp.
    { destruct Hs as (_ & _ & [Hn|(p' & Hp' & _)]).
      - unfold s_state in Hr. by rewrite fs_readfile_none in Hr.
      - rewrite (s_state_pending f p' Hp') in Hr. by injection Hr as ->. }
    case_bool_decide as Ev; [|by apply fwp_ret]. cbn [negb].
    apply fwp_bind, fwp_sys; [intros _; split; [by apply HC|intros m; by apply fwp_ret]|]. intros _ _.
    assert (fs_remove f pendingPath = (delete pendingPath f, Ok tt)) as ->.
    { destruct Hp as (raw & m & t & E & _). unfold fs_remove. by rewrite E. }
    cbn [fst snd]. assert (safe (delete pendingPath f)) as Hd by by eapply safe_confirmed.
    apply fwp_syncDirectory; [intros _; by apply HC|]. intros r _. split; [done|]. split; [by apply lookup_delete_ne|].
    intros _. split; [apply lookup_delete_eq|]. intros p' (raw' & m' & t' & E' & Hp'). destruct Hp as (raw & m & t & E & Hp).
    rewrite E in E'. injection E' as <- _ _. specialize (Hp ""). rewrite Hp' in Hp. congruence.
  - destruct (errorsIs e SNotExist) eqn:En; [|by apply fwp_ret]. apply fwp_ret. split; [done|]. split; [done|]. intros _.
    destruct Hs as (_ & _ & [Hn|(p & Hp & _)]).
    + split; [done|]. intros p (raw & m & t & Hp & _). congruence.
    + exfalso. destruct Hr as [[m [= ->]]|Hr]; [by vm_compute in En|]. by rewrite (s_state_pending f p Hp) in Hr.
Qed.

(** ** The launcher *)

(** The record goes to the failed one. *)
Lemma launcher_moved f p a b : layout f -> from_to f p a b -> pending_is f p -> link_is f currentPath a ->
  exists g, fs_rename f pendingPath failedPath = (g, Ok tt) /\ idle g /\ link_is g currentPath a /\
    s_state failedPath "failed" g = Ok p /\ same_binaries f g.
Proof.
  intros Hl Hft (raw & m & t & Hr & Hp) Hc. set (g := <[failedPath := NFile raw m t]> (delete pendingPath f)).
  assert (plain_file f failedPath) as Hpl.
  { pose proof (al_plain f Hl) as Hpl. rewrite Forall_forall in Hpl. apply Hpl, own_in. }
  assert (idle (delete pendingPath f)) as (Hl' & (n & Hn & Hi) & Hpend) by by eapply withdrawn.
  exists g. split.
  { unfold fs_rename. rewrite Hr. unfold plain_file in Hpl. by destruct (f !! failedPath) as [[]|]. }
  split; [|split; [|split]].
  - split; [by apply layout_insert_own; [done|apply own_in|]|]. split; [|by unfold g; rewrite lookup_insert_ne].
    exists n. split; [by apply link_insert|by apply installed_insert; [apply own_in|]].
  - apply link_insert; [done|]. by apply link_delete.
  - unfold s_state. erewrite fs_readfile_file by apply lookup_insert_eq. apply Hp.
  - eapply same_binaries_trans; [by apply (same_binaries_delete f pendingPath), own_in|apply same_binaries_insert, own_in].
Qed.

Lemma temp_rollback pid :
  scratch ("current.rollback-" +:+ FormatUint pid) = true /\ Dir ("current.rollback-" +:+ FormatUint pid) = ".".
Proof.
  split; [done|]. unfold Dir. rewrite Split_no_char; [done|]. apply no_char_app. split; [done|apply FormatUint_no_slash].
Qed.

(** What the launcher leaves behind. *)
Definition restored_or_not (f : fs) (p : Pending) (a : string) (res : result unit) (g : fs) : Prop :=
  safe g /\ same_binaries f g /\
  (calm w0 -> res = Ok tt /\ idle g /\ link_is g currentPath a /\ s_state failedPath "failed" g = Ok p).

(** A temporary link left by an earlier launcher goes first. *)
Lemma remove_temporary f tmp : scratch tmp = true -> plain_file f tmp ->
  (fs_remove f tmp).1 ≡ f /\ (fs_remove f tmp).1 !! tmp = None.
Proof.
  intros Hs Hpl. unfold plain_file in Hpl. unfold fs_remove.
  destruct (f !! tmp) as [[]|] eqn:E; simpl; try done; (split; [by apply delete_scratch|apply lookup_delete_eq]).
Qed.

(** The temporary is linked and renamed over "current". *)
Lemma fwp_relink f g target tmp (Q : result unit -> fs -> Prop) C :
  scratch tmp = true -> Dir tmp = "." -> plain_file f currentPath -> g ≡ f -> (calm w0 -> g !! tmp = None) ->
  (forall h, ~ calm w0 -> h ≡ f -> C h) -> (forall h e, ~ calm w0 -> h ≡ f -> Q (Err e) h) ->
  (forall h, h ≡ <[currentPath := NLink target]> f -> Q (Ok tt) h) ->
  fwp (try! _ := Symlink target tmp in Rename tmp currentPath) Q C g.
Proof.
  intros Hs Hd Hpl Hg Hn HC HE HQ.
  apply fwp_try, fwp_sys; [intros Hc; split; [by apply HC|intros m; by apply fwp_ret, HE]|].
  intros _ _. unfold fs_symlink. destruct (g !! tmp) as [x|] eqn:Et.
  { apply fwp_ret, HE; [|done]. intros Hc. specialize (Hn Hc); congruence. }
  rewrite Hd. change (is_dir g ".") with true. cbn [fst snd].
  assert (<[tmp := NLink target]> g ≡ f) as Ht by (transitivity g; [by apply insert_scratch|done]).
  apply fwp_sys; [intros Hc; split; [by apply HC|intros m; by apply HE]|]. intros _ _.
  assert (tmp <> currentPath) as Hne by (intros ->; by vm_compute in Hs).
  assert (fs_rename (<[tmp := NLink target]> g) tmp currentPath = (<[currentPath := NLink target]> g, Ok tt)) as ->.
  { unfold fs_rename. rewrite lookup_insert_eq, lookup_insert_ne by done.
    rewrite (fs_equiv_lookup g f currentPath Hg eq_refl). change (is_dir ?h (Dir currentPath)) with true.
    rewrite delete_insert_id by done. unfold plain_file in Hpl. by destruct (f !! currentPath) as [[]|]. }
  apply HQ. by rewrite Hg.
Qed.

Lemma fwp_launcher pid f p a b C : layout f -> from_to f p a b -> pending_is f p ->
  plain_file f ("current.rollback-" +:+ FormatUint pid) -> (forall g, ~ calm w0 -> safe g -> C g) ->
  fwp (launcher_rollback pid) (restored_or_not f p a) C f.
Proof.
  intros Hl Hft Hp Hpl HC. set (tmp := "current.rollback-" +:+ FormatUint pid) in *. destruct (temp_rollback pid) as [Hts Htd].
  fold tmp in Hts, Htd. assert (on_record f p a b f) as Hf by by split_and!.
  assert (forall g, g ≡ f -> on_record f p a b g) as Hrec by (intros g Hg; by eapply on_record_equiv; [symmetry|]).
  assert (forall g e, ~ calm w0 -> g ≡ f -> restored_or_not f p a (Err e) g) as HE.
  { intros g e Hc Hg. apply Hrec in Hg. split; [by eapply on_record_safe|]. split; [apply Hg|done]. }
  assert (forall g, ~ calm w0 -> g ≡ f -> C g) as HCe by (intros g Hc Hg; by eapply HC, on_record_safe, Hrec).
  unfold launcher_rollback. apply fwp_try, fwp_read; [intros Hc; split; [by apply HCe|intros m; apply fwp_ret; by apply HE]|].
  assert (link_is f previousPath a) as Hpr by apply Hft. unfold fs_readlink. rewrite Hpr.
  apply fwp_try. unfold switch_link. change (currentPath +:+ ".rollback-" +:+ FormatUint pid) with tmp.
  assert (forall g, g ≡ f -> (calm w0 -> g !! tmp = None) ->
    fwp (try! _ := Symlink (binary_path a) tmp in Rename tmp currentPath)
      (fun r => match r with
                | Ok _ => fwp (let! _ := Rename pendingPath failedPath in ret (Ok tt)) (restored_or_not f p a) C
                | Err e => fwp (ret (Err e)) (restored_or_not f p a) C end) C g) as Hrest.
  { intros g Hg Hn. apply (fwp_relink f); try done.
    - pose proof (al_plain f Hl) as Hpf. rewrite Forall_forall in Hpf. apply Hpf, own_in.
    - intros h e Hc Hh. by apply fwp_ret, HE.
    - intros h Hh. set (h0 := <[currentPath := NLink (binary_path a)]> f) in *.
      assert (layout h0 /\ from_to h0 p a b /\ pending_is h0 p /\ link_is h0 currentPath a /\ same_binaries f h0) as (H1 & H2 & H3 & H4 & H5).
      { split; [by apply layout_insert_own; [|apply own_in|set_solver]|].
        destruct Hft as (? & ? & ? & ? & ? & ? & ?), Hp as (raw & m & t & Hr & Hpr').
        assert (link_is h0 currentPath a) by apply lookup_insert_eq.
        split; [|split; [exists raw, m, t; unfold h0; by rewrite lookup_insert_ne|split; [done|apply same_binaries_insert, own_in]]].
        split_and!; [done..|by apply installed_insert; [apply own_in|]|by apply installed_insert; [apply own_in|]|by apply link_insert|by left]. }
      assert (on_record f p a b h) as Hh' by (apply (on_record_equiv _ _ _ _ h0); [by symmetry|by split_and!]).
      assert (link_is h currentPath a) as Hhc by (eapply link_equiv; [by symmetry|apply own_in|done]).
      pose proof (on_record_safe _ _ _ _ _ Hh') as Hhs. destruct Hh' as (HL & HP & HF & HB).
      apply fwp_bind, fwp_sys; [intros Hc; split; [by apply HC|intros m; apply fwp_ret; by split_and!]|]. intros _ _.
      destruct (launcher_moved h p a b HL HF HP Hhc) as (k & -> & Hi & Hk & Hs & Hb). cbn [fst snd].
      apply fwp_ret. split; [by apply idle_safe|]. split; [by eapply same_binaries_trans|done]. }
  apply fwp_bind, fwp_sys.
  - intros Hc. split; [by apply HCe|]. intros m. by apply Hrest.
  - intros _ _. destruct (remove_temporary f tmp Hts Hpl) as [H1 H2]. by apply Hrest.
Qed.
End programs.

(** ** Release archives *)

(** An entry as a release has it, read to its end. *)
Definition entry_fine (e : tar_entry) : Prop :=
  expected_entry (te_name e) = true /\ te_regular e = true /\ (0 < te_size e <= entry_limit (te_name e))%Z /\
  Z.of_N (slen (te_bytes e)) = te_size e /\ te_fail e = None.

(** The bytes that entries give a name. *)
Definition gather (M : gmap string string) (l : list tar_entry) : gmap string string :=
  foldl (fun M e => <[te_name e := te_bytes e]> M) M l.

Lemma read_limited_fine e : (te_size e <= entry_limit (te_name e))%Z ->
  (exists c, read_limited (entry_limit (te_name e)) e = Ok c /\ Z.of_N (slen c) = te_size e) <->
  Z.of_N (slen (te_bytes e)) = te_size e /\ te_fail e = None.
Proof.
  intros Hl. unfold read_limited. destruct (Z.ltb_spec (Z.of_N (slen (te_bytes e))) (entry_limit (te_name e) + 1)).
  - destruct (te_fail e); [|naive_solver]. split; [by intros (c & ? & _)|by intros [_ ?]].
  - split; [|lia]. intros (c & [= <-] & Hc). exfalso. rewrite slen_stake in Hc. lia.
Qed.

(** One entry: it is fine and its name new, or the archive is refused. *)
Lemma collect_step e l M r :
  collect_entries (M !! "xui-agent") (delete "xui-agent" M) (e :: l) = Ok r <->
  entry_fine e /\ M !! te_name e = None /\
  collect_entries (<[te_name e := te_bytes e]> M !! "xui-agent") (delete "xui-agent" (<[te_name e := te_bytes e]> M)) l = Ok r.
Proof.
  cbn [collect_entries]. unfold entry_fine.
  destruct (expected_entry (te_name e)) eqn:E1; cbn [negb]; [|by split; [|intros ((? & _) & _)]].
  destruct (te_regular e) eqn:E2; cbn [negb orb]; [|by split; [|intros ((_ & ? & _) & _)]].
  destruct (Z.leb_spec (te_size e) 0); [split; [done|lia]|].
  destruct (Z.ltb_spec (entry_limit (te_name e)) (te_size e)) as [Hgt|Hle]; cbn [orb]; [split; [done|lia]|].
  pose proof (read_limited_fine e Hle) as Hread. destruct (read_limited _ e) as [c|err] eqn:Er.
  2:{ split; [done|]. intros ((_ & _ & _ & Hf) & _). apply Hread in Hf as (c & [=] & _). }
  destruct (Z.eqb_spec (Z.of_N (slen c)) (te_size e)) as [Hc|Hc]; cbn [negb].
  2:{ split; [done|]. intros ((_ & _ & _ & Hf) & _). apply Hread in Hf as (c' & [= <-] & Hc'). done. }
  assert (Z.of_N (slen (te_bytes e)) = te_size e /\ te_fail e = None) as Hfine by (apply Hread; by exists c).
  assert (c = te_bytes e) as ->.
  { unfold read_limited in Er. destruct Hfine as [Hl Hf]. rewrite Hf in Er. destruct (Z.ltb_spec (Z.of_N (slen (te_bytes e))) (entry_limit (te_name e) + 1)); [by injection Er as <-|lia]. }
  assert (forall P Q : Prop, (true = true /\ true = true /\ (0 < te_size e <= entry_limit (te_name e))%Z /\
    Z.of_N (slen (te_bytes e)) = te_size e /\ te_fail e = None) /\ P /\ Q <-> P /\ Q) as Hdrop by (intros; naive_solver lia).
  rewrite Hdrop. case_bool_decide as Ex.
  - rewrite Ex, lookup_insert_eq, delete_insert_eq. destruct (M !! "xui-agent"); naive_solver.
  - rewrite lookup_insert_ne, lookup_delete_ne, delete_insert_ne by done. destruct (M !! te_name e); naive_solver.
Qed.

Lemma collect_entries_ok l : forall M r,
  collect_entries (M !! "xui-agent") (delete "xui-agent" M) l = Ok r <->
  Forall entry_fine l /\ NoDup (te_name <$> l) /\ (forall e, e ∈ l -> M !! te_name e = None) /\
  r = (gather M l !! "xui-agent", delete "xui-agent" (gather M l)).
Proof.
  induction l as [|e l IH]; intros M r.
  { split; [|by intros (_ & _ & _ & ->)]. intros [= <-]. split_and!; [constructor|constructor|set_solver|done]. }
  rewrite collect_step, IH, Forall_cons, fmap_cons, NoDup_cons. change (gather M (e :: l)) with (gather (<[te_name e := te_bytes e]> M) l).
  split.
  - intros (Hf & Hn & Hl & Hnd & Hnone & ->). split_and!; try done.
    + intros (e' & Ee & Hin)%list_elem_of_fmap. specialize (Hnone e' Hin). by rewrite <- Ee, lookup_insert_eq in Hnone.
    + intros e' [->|Hin]%elem_of_cons; [done|]. specialize (Hnone e' Hin).
      by apply lookup_insert_None in Hnone as [? _].
  - intros ([Hf Hl] & [Hnin Hnd] & Hnone & ->). split_and!; try done; [apply Hnone; left|].
    intros e' Hin. apply lookup_insert_None. split; [apply Hnone; by right|].
    intros Ee. apply Hnin, list_elem_of_fmap. by exists e'.
Qed.

Lemma gather_lookup l : forall M n c, NoDup (te_name <$> l) ->
  gather M l !! n = Some c <->
  (exists e, e ∈ l /\ te_name e = n /\ te_bytes e = c) \/ (n ∉ te_name <$> l) /\ M !! n = Some c.
Proof.
  induction l as [|e l IH]; intros M n c Hnd; [set_solver|].
  rewrite fmap_cons, NoDup_cons in Hnd. destruct Hnd as [Hnin Hnd].
  change (gather M (e :: l)) with (gather (<[te_name e := te_bytes e]> M) l). rewrite IH by done.
  rewrite fmap_cons, lookup_insert_Some. split.
  - intros [(e' & Hin & Hc)|[Hn [[<- <-]|[Hne HM]]]]; [left; exists e'; set_solver|left; exists e; set_solver|right; set_solver].
  - intros [(e' & [->|Hin]%elem_of_cons & <- & <-)|[Hn HM]]; [|left; by exists e'|].
    + right. split; [done|by left].
    + right. split; [set_solver|]. right. set_solver.
Qed.

Definition text_of (lines : list string) : string := foldr (fun x rest => x +:+ rest) "" lines.

Lemma asset_lines_ok assets names : forall lines,
  asset_lines assets names = Ok lines <->
  exists contents, Forall2 (fun n c => assets !! n = Some c) names contents /\ lines = text_of (zip_with asset_line names contents).
Proof.
  induction names as [|n names IH]; intros lines; cbn [asset_lines].
  - split; [intros [= <-]; by exists []|]. intros (contents & Hc & ->). by apply Forall2_nil_inv_l in Hc as ->.
  - destruct (assets !! n) as [c|] eqn:E.
    + split.
      * intros (rest & (contents & Hc & ->)%IH & [= <-])%rbind_Ok. exists (c :: contents). split; [by constructor|done].
      * intros (contents & Hc & ->). apply Forall2_cons_inv_l in Hc as (c' & contents' & Ec & Hc & ->).
        apply rbind_Ok. exists (text_of (zip_with asset_line names contents')). split; [apply IH; by exists contents'|].
        rewrite E in Ec. injection Ec as ->. done.
    + split; [done|]. intros (contents & Hc & _). apply Forall2_cons_inv_l in Hc as (c' & contents' & Ec & _). congruence.
Qed.

Section archives.
Context `{Tar}.

(** The bytes an archive holds under a name. *)
Definition holds (entries : list tar_entry) (n c : string) : Prop := exists e, e ∈ entries /\ te_name e = n /\ te_bytes e = c.

(** C37: an archive is accepted exactly when it can be read to its end and holds
    the agent's executable and the eight runtime assets, each once and nothing
    else, as regular files that are not empty, within their limits and of the
    size in their header; the answer is the executable and the SHA-256 of the
    lines "<digest>  <name>" of the assets in their fixed order. *)
Theorem extractRelease_exact archive binary digest :
  extractRelease archive = Ok (binary, digest) <->
  exists entries contents, untar archive = Ok (entries, None) /\
    Forall entry_fine entries /\ NoDup (te_name <$> entries) /\ holds entries "xui-agent" binary /\
    Forall2 (holds entries) runtimeAssetNames contents /\
    digest = sha256_hex (text_of (zip_with asset_line runtimeAssetNames contents)).
Proof.
  assert (forall entries n c, NoDup (te_name <$> entries) -> gather ∅ entries !! n = Some c <-> holds entries n c) as Hh.
  { intros entries n c Hnd. rewrite gather_lookup by done. rewrite lookup_empty. unfold holds. naive_solver. }
  assert (Forall (fun n => "xui-agent" <> n) runtimeAssetNames) as Hne by (repeat constructor; discriminate).
  assert (forall entries contents, NoDup (te_name <$> entries) ->
    Forall2 (fun n c => delete "xui-agent" (gather ∅ entries) !! n = Some c) runtimeAssetNames contents <->
    Forall2 (holds entries) runtimeAssetNames contents) as Hall.
  { intros entries contents Hnd. revert Hne. generalize runtimeAssetNames. intros names Hne.
    split; intros Hc; revert Hne; induction Hc as [|n c names contents Hn _ IH]; intros Hne; constructor;
      apply Forall_cons in Hne as [Hn' Hne]; try by apply IH.
    - apply Hh; [done|]. by rewrite lookup_delete_ne in Hn.
    - rewrite lookup_delete_ne by done. by apply Hh. }
  unfold extractRelease. split.
  - destruct (untar archive) as [[entries failure]|]; [|done].
    intros ((b & assets) & Hc & Hr)%rbind_Ok. change (@None string) with ((∅ : gmap string string) !! "xui-agent") in Hc.
    rewrite <- (delete_empty "xui-agent") in Hc at 2. apply collect_entries_ok in Hc as (Hf & Hnd & _ & [= -> ->]).
    destruct failure; [done|]. cbn [fst snd] in Hr. destruct (gather ∅ entries !! "xui-agent") as [c|] eqn:Ex; [|done].
    apply rbind_Ok in Hr as (lines & (contents & Hcs & ->)%asset_lines_ok & [= <- <-]).
    exists entries, contents. rewrite <- Hall by done. rewrite <- Hh by done. done.
  - intros (entries & contents & -> & Hf & Hnd & Hx & Hcs & ->). apply rbind_Ok.
    exists (gather ∅ entries !! "xui-agent", delete "xui-agent" (gather ∅ entries)). split.
    + change (@None string) with ((∅ : gmap string string) !! "xui-agent"). rewrite <- (delete_empty "xui-agent") at 2.
      apply collect_entries_ok. split_and!; try done.
    + cbn [fst snd]. apply Hh in Hx; [|done]. rewrite Hx. apply rbind_Ok.
      exists (text_of (zip_with asset_line runtimeAssetNames contents)). split; [|done].
      apply asset_lines_ok. exists contents. split; [by apply Hall|done].
Qed.
End archives.

(** ** The agent and its launcher as a transition system *)

(** What is not the store of the agent's versions. *)
Definition store_same (f g : fs) : Prop :=
  (forall p, p ∈ own -> g !! p = f !! p) /\ forall x, g !! (versionsDirectory +:+ x) = f !! (versionsDirectory +:+ x).

Lemma store_same_safe f g : store_same f g -> safe f -> safe g.
Proof.
  intros [Ho Hv]. apply safe_same; [done|apply (Hv "")|intros n _; apply Hv|].
  intros n _. rewrite binary_path_eq. apply Hv.
Qed.

Section theorems.
Context `{Env} `{!ClockOk} `{UrlParser} `{Platform} `{Tar} `{Candidate}.

Inductive agent_step : world -> world -> Prop :=
  | agent_apply m net r w w' o :
      ValidString (rq_command r) = true -> Apply m net r w = (w', o) -> agent_step w w'
  | agent_install r binary w w' o :
      ValidString (rq_command r) = true -> InstallLocal r binary w = (w', o) -> agent_step w w'
  | agent_confirm version w w' o : Confirm version w = (w', o) -> agent_step w w'
  | agent_rollback pid w w' o :
      w_fs w !! pendingPath <> None -> plain_file (w_fs w) ("current.rollback-" +:+ FormatUint pid) ->
      launcher_rollback pid w = (w', o) -> agent_step w w'
  | agent_other g w : store_same (w_fs w) g -> agent_step w (set_fs g w).

(** A program that ends in a tree that satisfies [S], however it ends. *)
Lemma fwp_ends {A} (m : io A) (S : fs -> Prop) w w' o :
  fwp w m (fun _ => S) S (w_fs w) -> m w = (w', o) -> S (w_fs w').
Proof. intros Hm E. apply fwp_run in Hm. rewrite E in Hm. by destruct o. Qed.

Lemma fwp_done {A} (m : io A) (Q : A -> fs -> Prop) C w w' a :
  fwp w m Q C (w_fs w) -> m w = (w', Done a) -> Q a (w_fs w').
Proof. intros Hm E. apply fwp_run in Hm. by rewrite E in Hm. Qed.

(** Everything before the installation only reads. *)
Definition resolves (m : Manager) net (r : Request) (cl : Client) (manifest : Manifest) (binary : string) : Prop :=
  mg_releases m = Some cl /\ resolveManifest cl net (rq_version r) = Ok manifest /\ downloadBinary cl net manifest = Ok binary.

(** The registered runtime assets are the ones the manifest names. *)
Definition assets_registered (m : Manager) (f : fs) (manifest : Manifest) : Prop :=
  exists raw, fs_readfile f (mg_assetsPath m) = Ok raw /\ ToLower (TrimSpace raw) = am_assets manifest.

Lemma looks_assets w0 m want f :
  looks w0 (verifyInstalledRuntimeAssets m want)
    (fun r => r = Ok tt -> exists raw, fs_readfile f (mg_assetsPath m) = Ok raw /\ ToLower (TrimSpace raw) = want) f.
Proof.
  unfold verifyInstalledRuntimeAssets. case_bool_decide; [by apply looks_ret|].
  intros Q C HC HQ. apply fwp_bind, (looks_read w0); [done|]. intros [raw|e] Hr.
  - destruct Hr as [[k Hk]|Hr]; [done|]. apply fwp_ret, HQ. intros E%guard_err_Ok.
    apply orb_false_iff in E as [_ E]. rewrite negb_false_iff, bool_decide_eq_true in E. by exists raw.
  - destruct (errorsIs e SNotExist); by apply fwp_ret, HQ.
Qed.

Lemma fwp_Apply w0 m net r f (Q : result string -> fs -> Prop) C :
  ValidString (rq_command r) = true -> safe f -> (forall g, safe g -> C g) ->
  (forall e, Q (Err e) f) ->
  (forall cl manifest binary res g, resolves m net r cl manifest binary -> assets_registered m f manifest ->
     installed_or_not (MkRequest (rq_command r) (am_version manifest)) binary f res g -> Q res g) ->
  fwp w0 (Apply m net r) Q C f.
Proof.
  intros Hv Hs HC HE HQ. unfold Apply. destruct (mg_releases m) as [cl|] eqn:Ecl; [|by apply fwp_ret].
  case_bool_decide; [by apply fwp_ret|]. destruct (if bool_decide (rq_version r = "") then _ else _); [|by apply fwp_ret].
  destruct (resolveManifest _ _ _) as [manifest|e] eqn:Em; [|by apply fwp_ret].
  apply fwp_try, looks_assets; [intros _; by apply HC|]. intros [[]|e] Ha; [|by apply fwp_ret].
  destruct (downloadBinary _ _ _) as [binary|e] eqn:Eb; [|by apply fwp_ret].
  eapply fwp_mono; [by apply (fwp_InstallLocal w0 (MkRequest (rq_command r) (am_version manifest)) binary f C)| |done].
  intros res g Hres. eapply HQ; [by split_and!|by apply Ha|done].
Qed.

Lemma safe_updating f : safe f -> f !! pendingPath <> None -> exists p a b, pending_is f p /\ from_to f p a b.
Proof. intros (_ & _ & [?|(p & Hp & a & b & Hft)]) Hn; [done|]. by exists p, a, b. Qed.

Lemma update_agent_step_safe w w' : agent_step w w' -> safe (w_fs w) -> safe (w_fs w').
Proof.
  intros Hst Hs. destruct Hst as [m net r w w' o Hv E|r binary w w' o Hv E|version w w' o E|pid w w' o Hp Hpl E|g w Hg].
  - eapply fwp_ends, E. apply fwp_Apply; try done. by intros ????? _ _ [? _].
  - eapply fwp_ends, E. eapply fwp_mono; [by apply (fwp_InstallLocal w r binary _ safe)| |done]. by intros ?? [? _].
  - eapply fwp_ends, E. eapply fwp_mono; [by apply (fwp_Confirm w version _ safe)| |done]. by intros ?? [? _].
  - destruct (safe_updating _ Hs Hp) as (p & a & b & Hpd & Hft).
    eapply fwp_ends, E. eapply fwp_mono; [apply (fwp_launcher w pid _ p a b safe); try done; apply Hs| |done]. by intros ?? [? _].
  - by eapply store_same_safe.
Qed.

Lemma update_agent_steps_safe w w' : rtc agent_step w w' -> safe (w_fs w) -> safe (w_fs w').
Proof. induction 1 as [|w1 w2 w3 Hst _ IH]; [done|]. intros Hs. by eapply IH, update_agent_step_safe. Qed.

(** C7: in any sequence of updates from releases, local installations,
    confirmations, rollbacks of the launcher and changes elsewhere, with system
    calls failing and processes killed anywhere, the current link names a
    version whose executable has the digest in its name; and while an update is
    on record the version to go back to is installed, and "previous" names it. *)
Theorem agent_update_safe w w' : safe (w_fs w) -> rtc agent_step w w' -> safe (w_fs w').
Proof. intros Hs Hr. by apply (update_agent_steps_safe w w'). Qed.

(** From a safe store, when nothing fails. *)
Lemma launcher_restores pid w : safe (w_fs w) -> w_fs w !! pendingPath <> None ->
  plain_file (w_fs w) ("current.rollback-" +:+ FormatUint pid) -> calm w ->
  exists w' p a, launcher_rollback pid w = (w', Done (Ok tt)) /\
    pending_is (w_fs w) p /\ pd_previous p = binary_path a /\ installed (w_fs w') a /\
    idle (w_fs w') /\ link_is (w_fs w') currentPath a /\
    w_fs w' !! binary_path a = w_fs w !! binary_path a /\ s_state failedPath "failed" (w_fs w') = Ok p.
Proof.
  intros Hs Hp Hpl Hc. destruct (safe_updating _ Hs Hp) as (p & a & b & Hpd & Hft).
  assert (fwp w (launcher_rollback pid) (restored_or_not w (w_fs w) p a) (fun _ => False) (w_fs w)) as Hwp.
  { apply (fwp_launcher w pid _ p a b); [apply Hs|done..]. }
  apply fwp_run in Hwp. destruct (launcher_rollback pid w) as [w' [r|]]; [|done].
  destruct Hwp as (_ & Hb & Hok), (Hok Hc) as (-> & Hi & Hl & Hf). exists w', p, a.
  pose proof Hft as (_ & Ep & _ & Ha & _). assert (w_fs w' !! binary_path a = w_fs w !! binary_path a) as Ea by apply Hb, Ha.
  split; [done|]. split; [done|]. split; [done|]. split; [by apply (installed_same (w_fs w))|]. done.
Qed.

(** C8: whatever happened before, when the agent ends with an update on record
    and nothing fails any more, the launcher makes the version the update came
    from current again, with the executable it had, and moves the record to
    update-failed.json. *)
Theorem agent_launcher_restores pid w w' :
  safe (w_fs w) -> rtc agent_step w w' -> w_fs w' !! pendingPath <> None ->
  plain_file (w_fs w') ("current.rollback-" +:+ FormatUint pid) -> calm w' ->
  exists w'' p a, launcher_rollback pid w' = (w'', Done (Ok tt)) /\
    pending_is (w_fs w') p /\ pd_previous p = binary_path a /\ installed (w_fs w'') a /\
    idle (w_fs w'') /\ link_is (w_fs w'') currentPath a /\
    w_fs w'' !! binary_path a = w_fs w' !! binary_path a /\ s_state failedPath "failed" (w_fs w'') = Ok p.
Proof. intros Hs Hr Hp Hpl Hc. apply launcher_restores; try done. by apply (update_agent_steps_safe w w'). Qed.

(** What an installation leaves, however many system calls failed.  When
    it succeeds, the executable is in place under its version and digest with
    mode 0755, the current link names it, and either it was current before or
    the update from the version that was current, whose executable is as it
    was, is on record under this command.  When it fails, the current link is
    as before, or such an update is on record. *)
Theorem agent_install_outcome r binary w w' res :
  safe (w_fs w) -> ValidString (rq_command r) = true ->
  InstallLocal r binary w = (w', Done res) -> installed_or_not r binary (w_fs w) res (w_fs w').
Proof.
  intros Hs Hv E. eapply fwp_done, E. apply (fwp_InstallLocal w r binary _ (fun _ => True)); done.
Qed.

(** The executable of a release: out of an archive with the SHA-256 and the
    size of the manifest's artifact, with the runtime assets it names. *)
Lemma downloadBinary_ok cl net manifest binary : downloadBinary cl net manifest = Ok binary ->
  exists artifact url archive, selectArtifact manifest = Ok artifact /\
    URL cl releaseRepository (am_version manifest) ("xui-agent-linux-" +:+ ar_arch artifact +:+ ".tar.gz") = Ok url /\
    Download cl url maxArchiveBytes (net url) = Ok archive /\ Z.of_N (slen archive) = ar_size artifact /\
    sha256_hex archive = ToLower (ar_sha256 artifact) /\ extractRelease archive = Ok (binary, am_assets manifest).
Proof.
  intros (artifact & Ha & (url & Hu & Hd)%rbind_Ok)%rbind_Ok. destruct (Download _ _ _ _) as [archive|] eqn:Ed; [|done].
  apply rbind_Ok in Hd as ([] & Hsz%guard_err_Ok & ([] & Hsum%guard_err_Ok & ((b & d) & Hx & ([] & Hass%guard_err_Ok & [= <-])%rbind_Ok)%rbind_Ok)%rbind_Ok).
  apply orb_false_iff in Hsz as [_ Hsz]. unfold EqualFold in Hsum.
  rewrite negb_false_iff in Hsz, Hsum, Hass. apply Z.eqb_eq in Hsz. apply bool_decide_eq_true in Hsum, Hass. simpl in Hass. subst d.
  by exists artifact, url, archive.
Qed.

Lemma resolved_version cl net version manifest : resolveManifest cl net version = Ok manifest ->
  version = "" \/ am_version manifest = version.
Proof.
  intros (url & _ & Hd)%rbind_Ok. destruct (Download _ _ _ _); [|done].
  apply rbind_Ok in Hd as (mf & _ & ([] & Hg%guard_err_Ok & [= ->])%rbind_Ok).
  apply andb_false_iff in Hg. rewrite !negb_false_iff, !bool_decide_eq_true in Hg. done.
Qed.

Lemma Apply_outcome m net r w w' v :
  safe (w_fs w) -> ValidString (rq_command r) = true -> Apply m net r w = (w', Done (Ok v)) ->
  exists cl manifest binary, resolves m net r cl manifest binary /\ assets_registered m (w_fs w) manifest /\
    installed_or_not (MkRequest (rq_command r) (am_version manifest)) binary (w_fs w) (Ok v) (w_fs w').
Proof.
  intros Hs Hv E.
  assert (fwp w (Apply m net r) (fun res g => forall v, res = Ok v -> exists cl manifest binary,
    resolves m net r cl manifest binary /\ assets_registered m (w_fs w) manifest /\
    installed_or_not (MkRequest (rq_command r) (am_version manifest)) binary (w_fs w) (Ok v) g) (fun _ => True) (w_fs w)) as Hwp.
  { apply fwp_Apply; try done. intros cl manifest binary res g Hr Ha Hi v' ->. by exists cl, manifest, binary. }
  apply fwp_run in Hwp. rewrite E in Hwp. by apply Hwp.
Qed.

(** C14: an update that reports success has installed the release it was asked
    for: the version is the manifest's, which is the requested one when one was
    requested; the executable that is current now came out of an archive with
    the manifest's size and SHA-256 for this platform; and the runtime assets of
    that archive, of the manifest and of this host are the same. *)
Theorem agent_update_installed m net r w w' v :
  safe (w_fs w) -> ValidString (rq_command r) = true -> Apply m net r w = (w', Done (Ok v)) ->
  exists cl manifest artifact url archive binary,
    mg_releases m = Some cl /\ resolveManifest cl net (rq_version r) = Ok manifest /\
    v = am_version manifest /\ (rq_version r = "" \/ v = rq_version r) /\
    selectArtifact manifest = Ok artifact /\ Download cl url maxArchiveBytes (net url) = Ok archive /\
    Z.of_N (slen archive) = ar_size artifact /\ sha256_hex archive = ToLower (ar_sha256 artifact) /\
    extractRelease archive = Ok (binary, am_assets manifest) /\ assets_registered m (w_fs w) manifest /\
    link_is (w_fs w') currentPath (v +:+ "-" +:+ sha256_hex binary) /\
    exists t, w_fs w' !! binary_path (v +:+ "-" +:+ sha256_hex binary) = Some (NFile binary 493 t).
Proof.
  intros Hs Hv E.
  destruct (Apply_outcome m net r w w' v Hs Hv E) as (cl & manifest & binary & (Hcl & Hm & Hb) & Ha & _ & Hver & Hfile & Hlink & _).
  cbn [rq_version] in Hver. pose proof (resolved_version _ _ _ _ Hm) as Hreq.
  apply downloadBinary_ok in Hb as (artifact & url & archive & ?). exists cl, manifest, artifact, url, archive, binary.
  unfold releaseDirectory in Hfile, Hlink. cbn [rq_version] in Hfile, Hlink. subst v. naive_solver.
Qed.
End theorems.

(** ** Witnesses: the agent goes from "v1" to "v2" *)

(** An executable that prints its content. *)
Definition ex_candidate : Candidate := {| version_output := fun binary => Ok (binary +:+ nl) |}.

Definition ex_entry (n c : string) : tar_entry := TarEntry n true (Z.of_N (slen c)) c None.

Definition ex_entries : list tar_entry := ex_entry "xui-agent" "v2" :: ((fun n => ex_entry n "asset") <$> runtimeAssetNames).

Definition ex_tar : Tar := {| untar := fun _ => Ok (ex_entries, None) |}.

Definition ex_assets_digest : string := Eval vm_compute in
  sha256_hex (text_of (zip_with asset_line runtimeAssetNames ((fun _ => "asset") <$> runtimeAssetNames))).

Definition ex_archive_sum : string := Eval vm_compute in sha256_hex "archive 2".

Definition ex_release_manifest : string :=
  obj [("schemaVersion", "3"); ("version", quote "v2"); ("publishedAt", quote "2025-01-01T00:00:00Z");
       ("runtimeAssetsSha256", quote ex_assets_digest);
       ("artifacts", arr [obj [("os", quote "linux"); ("arch", quote "amd64"); ("sha256", quote ex_archive_sum); ("size", "9")]])].

Definition ex_host : Platform := {| GOOS := "linux"; GOARCH := "amd64" |}.
Definition ex_parser : UrlParser := {| parse_url := fun _ => Some (Url "https" "github.com" None "/x" "" "") |}.

Definition ex_server (u : string) (attempt : nat) : exchange :=
  Exchange [] (Responded 200 (if HasSuffix u manifestAssetName then ex_release_manifest else "archive 2") None) None.

Definition ex_name (version : string) : string := version +:+ "-" +:+ sha256_hex version.
Definition ex_from : string := Eval vm_compute in ex_name "v1".
Definition ex_to : string := Eval vm_compute in ex_name "v2".

Definition ex_store : fs :=
  list_to_map [(versionsDirectory, NDir 448 0); (version_dir ex_from, NDir 448 0);
               (binary_path ex_from, NFile "v1" 493 0); (currentPath, NLink (binary_path ex_from));
               ("assets", NFile ex_assets_digest 420 0)].

Definition ex_host_world : world := World ex_store 0 None.
Definition ex_agent : Manager := MkManager "assets" (Some (MkClient false "https://github.com")).
Definition ex_update : Request := MkRequest "cmd-2" "v2".

Definition ex_apply (E : Env) : world * outcome (result string) :=
  @Apply E ex_parser ex_host ex_tar ex_candidate ex_agent ex_server ex_update ex_host_world.

(** The runs below are evaluated once; what follows looks at their results. *)
Definition ex_updated : world := Eval vm_compute in (ex_apply calm_env).1.

Lemma ex_apply_ok : ex_apply calm_env = (ex_updated, Done (Ok "v2")).
Proof. by_evaluation. Qed.

Lemma ex_store_safe : safe ex_store.
Proof.
  assert (entry_name ex_from) as He by (split_and!; by vm_compute).
  assert (installed ex_store ex_from) as Hi.
  { split; [done|]. split; [by vm_compute|]. exists "v1", "v1", 493%N, 0%Z. by split_and!; vm_compute. }
  split; [split|split].
  - by vm_compute.
  - intros n (Hn & _). unfold dir_or_none, ex_store. simpl. rewrite !lookup_insert. repeat case_decide; try done.
    by destruct (dir_not_binary n ex_from).
  - by split; vm_compute.
  - intros n _. unfold plain_file, ex_store. simpl. rewrite !lookup_insert. repeat case_decide; try done.
    destruct (dir_not_binary ex_from n); [apply He|done].
  - repeat (apply Forall_cons_2; [by vm_compute|]). apply Forall_nil_2.
  - split; intros t; by vm_compute.
  - by exists ex_from.
  - by left.
Qed.

(** Killed after the switch to "v2"; then the new executable fails, and the
    launcher, process 42, goes back. *)
Definition ex_killed : world := Eval vm_compute in (ex_apply (crash_env 36)).1.

Lemma ex_agent_killed_run : ex_apply (crash_env 36) = (ex_killed, Crashed).
Proof. by_evaluation. Qed.

Definition ex_back : world * outcome (result unit) := @launcher_rollback (crash_env 36) 42 ex_killed.

Example ex_killed_link : w_fs ex_killed !! currentPath = Some (NLink (binary_path ex_to)).
Proof. vm_compute. reflexivity. Qed.

Lemma ex_switched_steps :
  rtc (@agent_step (crash_env 36) ex_parser ex_host ex_tar ex_candidate) ex_host_world ex_killed.
Proof.
  eapply rtc_once, (agent_apply ex_agent ex_server ex_update); [reflexivity|exact ex_agent_killed_run].
Qed.

Lemma ex_no_temporary : plain_file (w_fs ex_killed) ("current.rollback-" +:+ FormatUint 42).
Proof. vm_compute. exact I. Qed.

Lemma agent_update_safe_witness : is_Some (w_fs ex_killed !! pendingPath) /\ safe (w_fs ex_back.1).
Proof.
  split; [vm_compute; by eexists|].
  apply (@agent_update_safe (crash_env 36) calm_env_clock ex_parser ex_host ex_tar ex_candidate ex_host_world); [exact ex_store_safe|].
  eapply rtc_r; [exact ex_switched_steps|].
  apply (@agent_rollback (crash_env 36) ex_parser ex_host ex_tar ex_candidate 42 ex_killed ex_back.1 ex_back.2);
    [vm_compute; discriminate|exact ex_no_temporary|apply surjective_pairing].
Defined.

Lemma agent_launcher_restores_witness :
  exists w p a, ex_back = (w, Done (Ok tt)) /\ pending_is (w_fs ex_killed) p /\ pd_previous p = binary_path a /\ installed (w_fs w) a /\
    idle (w_fs w) /\ link_is (w_fs w) currentPath a /\ w_fs w !! binary_path a = w_fs ex_killed !! binary_path a /\
    s_state failedPath "failed" (w_fs w) = Ok p.
Proof.
  apply (@agent_launcher_restores (crash_env 36) calm_env_clock ex_parser ex_host ex_tar ex_candidate 42 ex_host_world ex_killed).
  - exact ex_store_safe.
  - exact ex_switched_steps.
  - vm_compute. discriminate.
  - exact ex_no_temporary.
  - intros n Hn. assert (w_pc ex_killed = 37%nat) as E by (vm_compute; reflexivity).
    rewrite E in Hn. unfold fault_at, crash_env. by destruct (Nat.eqb_spec n 36); [lia|].
Defined.

Lemma agent_update_installed_witness :
  exists cl manifest artifact url archive binary,
    mg_releases ex_agent = Some cl /\ @resolveManifest ex_parser cl ex_server "v2" = Ok manifest /\
    "v2" = am_version manifest /\ ("v2" = "" \/ "v2" = "v2") /\
    @selectArtifact ex_host manifest = Ok artifact /\ @Download ex_parser cl url maxArchiveBytes (ex_server url) = Ok archive /\
    Z.of_N (slen archive) = ar_size artifact /\ sha256_hex archive = ToLower (ar_sha256 artifact) /\
    @extractRelease ex_tar archive = Ok (binary, am_assets manifest) /\ assets_registered ex_agent ex_store manifest /\
    link_is (w_fs ex_updated) currentPath ("v2" +:+ "-" +:+ sha256_hex binary) /\
    exists t, w_fs ex_updated !! binary_path ("v2" +:+ "-" +:+ sha256_hex binary) = Some (NFile binary 493 t).
Proof.
  apply (@agent_update_installed calm_env calm_env_clock ex_parser ex_host ex_tar ex_candidate ex_agent ex_server ex_update ex_host_world).
  - exact ex_store_safe.
  - reflexivity.
  - exact ex_apply_ok.
Defined.
