(* ===== verification/ReleaseTool.v ===== *)
(** * Publishing a release (cmd/xui-agent-release/main.go)

    The tool that describes a release archive of the agent in a manifest.  The
    manifest it writes is the one the agents download: what it publishes is what
    they install. *)

From stdpp Require Import base gmap strings list fin_maps.
From Stdlib Require Import ZArith NArith Ascii Lia.
From S2P Require Import Prelude.
From S2P Require Import GoStrings.
From S2P Require Import Sha256.
From S2P Require Import Json.
From S2P Require Import Os.
From S2P Require Import Indent.
From S2P Require Import FsLogic.
From S2P Require Import Manifest.
From S2P Require Import XrayTypes.
From S2P Require Import UpdateTypes.
From S2P Require Import AgentUpdate.
From S2P Require Import AgentUpdateProofs.
From S2P Require Import AgentUpdateTheorems.

(** ** os.WriteFile *)

(** Where a path leads, over symbolic links in its last component. *)
Fixpoint resolve (fuel : nat) (f : fs) (p : string) : result string :=
  match f !! p with
  | Some (NLink t) => match fuel with O => Err errLoop | S n => resolve n f (Join (Dir p) t) end
  | _ => Ok p
  end.

(** Open for writing, created with the mode or emptied; the file that is open. *)
Definition fs_trunc (f : fs) (p : string) (mode : N) (t : Z) : fs * result string :=
  match resolve max_links f p with
  | Err e => (f, Err e)
  | Ok q =>
      match f !! q with
      | Some (NFile _ m _) => (<[q := NFile "" m t]> f, Ok q)
      | Some _ => (f, Err errIsDir)
      | None => if is_dir f (Dir q) then (<[q := NFile "" mode t]> f, Ok q) else (f, Err errNotExist)
      end
  end.

Section tool.
Context `{Env}.

Definition OpenTrunc (p : string) (mode : N) : io (result string) := sys (fun t _ f => fs_trunc f p mode t).

Definition WriteFile (p content : string) (mode : N) : io (result unit) :=
try! q := OpenTrunc p mode in
let! written := Write q content in
let! closed := Close q in
ret (match written with Ok _ => closed | Err e => Err e end).

(** ** The manifest *)

Definition artifact_members (a : Artifact) : list (string * string) :=
[("os", quote (ar_os a)); ("arch", quote (ar_arch a)); ("sha256", quote (ar_sha256 a)); ("size", FormatInt (ar_size a))].

Definition manifest_members (m : AgentUpdate.Manifest) : list (string * string) :=
[("schemaVersion", FormatInt (am_schema m)); ("version", quote (am_version m)); ("publishedAt", quote (am_published m));
 ("runtimeAssetsSha256", quote (am_assets m)); ("artifacts", arr_indent 1 (obj_indent 2 <$> (artifact_members <$> am_artifacts m)))].

Definition encode_manifest (m : AgentUpdate.Manifest) : string := obj_indent 0 (manifest_members m) +:+ nl.

(** Dates: whether a text is one in RFC 3339, and a time as one. *)
Class Dates : Type := { is_date : string -> bool; date_of : Z -> string }.
Class DatesLaws `{Dates} : Prop := { dates_ascii s : is_date s = true -> is_ascii s = true; date_of_ascii t : is_ascii (date_of t) = true }.

Context `{Dates} `{Tar}.

Definition archive_name (arch : string) : string := "xui-agent-linux-" +:+ arch +:+ ".tar.gz".

(** One archive more in the manifest. *)
Definition add_archive (dist arch : string) (m : AgentUpdate.Manifest) : io (result AgentUpdate.Manifest) :=
let path := Join dist (archive_name arch) in
try! raw := ReadFile path catch e => ret (Err (errorW ("read " +:+ path +:+ ": ") e)) in
match RuntimeAssetsDigest raw with
| Err e => ret (Err (errorW ("inspect runtime assets in " +:+ path +:+ ": ") e))
| Ok digest =>
    if negb (bool_decide (am_assets m = "")) && negb (bool_decide (am_assets m = digest)) then
      ret (Err (errorsNew "release archives contain different runtime assets"))
    else
      ret (Ok (MkManifest (am_schema m) (am_version m) (am_published m) digest
                 (am_artifacts m ++ [MkArtifact "linux" arch (sha256_hex raw) (Z.of_N (slen raw))])))
end.

Fixpoint add_archives (dist : string) (archs : list string) (m : AgentUpdate.Manifest) : io (result AgentUpdate.Manifest) :=
match archs with
| [] => ret (Ok m)
| arch :: rest => try! m := add_archive dist arch m in add_archives dist rest m
end.

Definition architectures : list string := ["amd64"].

(** When the release is published: now, or as given. *)
Definition publication (publishedAt : string) : io (result string) :=
if bool_decide (publishedAt = "") then let! now := Now in ret (Ok (date_of now))
else ret (if is_date publishedAt then Ok publishedAt else Err (errorsNew "published-at must be RFC3339")).

Definition createManifest (dist version publishedAt : string) : io (result unit) :=
if bool_decide (version = "") || contains_char slash version || contains_char "\"%char version
then ret (Err (errorsNew "version is required and must not contain path separators"))
else
  try! publishedAt := publication publishedAt in
  try! m := add_archives dist architectures (MkManifest ManifestSchemaVersion version publishedAt "" []) in
  WriteFile (Join dist "manifest.json") (encode_manifest m) 420.
End tool.

(** ** Reading what was written *)

Lemma resolve_end n f p q : resolve n f p = Ok q -> forall t, f !! q <> Some (NLink t).
Proof.
  revert p. induction n as [|n IH]; intros p; cbn [resolve]; destruct (f !! p) as [[c m z|m z|l]|] eqn:E; try done;
    try (intros [= <-] t; congruence). apply IH.
Qed.

Lemma follow_resolved n f p q x : resolve n f p = Ok q -> (forall t, x <> NLink t) -> follow n (<[q := x]> f) p = Ok x.
Proof.
  intros Hr Hx. pose proof (resolve_end n f p q Hr) as Hq. revert p Hr. induction n as [|n IH]; intros p; cbn [resolve follow].
  - destruct (decide (q = p)) as [->|Hne].
    + rewrite lookup_insert. rewrite decide_True by done. intros _. destruct x as [| |t]; [done|done|by destruct (Hx t)].
    + rewrite lookup_insert_ne by done. destruct (f !! p) as [[]|]; congruence.
  - destruct (decide (q = p)) as [->|Hne].
    + rewrite lookup_insert. rewrite decide_True by done. intros _. destruct x as [| |t]; [done|done|by destruct (Hx t)].
    + rewrite lookup_insert_ne by done. destruct (f !! p) as [[c m z|m z|l]|]; try congruence. intros Hr. by apply IH.
Qed.

(** ** The manifest is read as it was composed *)

Lemma artifact_members_ok a : Forall member_ok (artifact_members a).
Proof. unfold artifact_members. members_ok. Qed.

Lemma decode_artifact a : ValidString (ar_os a) = true -> ValidString (ar_arch a) = true -> ValidString (ar_sha256 a) = true -> is_i64 (ar_size a) ->
  decode_obj true artifact_fields zero_artifact (obj_indent 2 (artifact_members a)) = Some a.
Proof.
  intros Ho Ha Hs Hi. rewrite decode_obj_indent by apply artifact_members_ok.
  unfold artifact_members, set_members, field_for. simpl. rewrite !fld_string, fld_int by done. by destruct a.
Qed.

Lemma decode_encoded m a : am_artifacts m = [a] ->
  ValidString (am_version m) = true -> ValidString (am_published m) = true -> ValidString (am_assets m) = true -> is_i64 (am_schema m) ->
  decode_obj true artifact_fields zero_artifact (obj_indent 2 (artifact_members a)) = Some a ->
  decode_text true manifest_fields (MkManifest 0 "" "" "" []) (encode_manifest m) = Some m.
Proof.
  intros Ha Hv Hp Has Hsc Hd. assert (jv (obj_indent 2 (artifact_members a))) as Hj by apply jv_obj_indent, artifact_members_ok.
  pose proof (dec_slice_indent (decode_obj true artifact_fields zero_artifact) 1 _ Hj) as Hslice. cbn [mapM] in Hslice. rewrite Hd in Hslice.
  unfold encode_manifest, manifest_members. rewrite Ha. cbn [fmap list_fmap].
  assert (jv (arr_indent 1 [obj_indent 2 (artifact_members a)])) as Hja by by apply jv_arr_indent.
  revert Hslice Hja. generalize (arr_indent 1 [obj_indent 2 (artifact_members a)]). intros text Hslice Hja. rewrite decode_text_indent.
  2:{ members_ok. }
  unfold set_members, field_for. simpl. repeat first [rewrite fld_string by done | rewrite fld_int by done]. simpl.
  rewrite Hslice. simpl. destruct m. simpl in *. by subst.
Qed.

Lemma release_version_text v : validateVersion v = Ok tt -> is_ascii v = true.
Proof.
  unfold validateVersion. intros ([] & _ & Hr%guard_err_Ok%negb_false_iff%version_runes)%rbind_Ok.
  eapply sforall_impl; [|exact Hr]. intros c Hc. unfold version_char in Hc. by apply andb_true_iff in Hc as [-> _].
Qed.

(** ** What the tool leaves *)

Section publish.
Context `{Env} `{Dates} `{!DatesLaws} `{Tar} `{Platform}.

Lemma wp_WriteFile p content mode w0 f (Q : result unit -> world -> Prop) (C : world -> Prop) w :
  after w0 f w -> (forall w', C w') -> (forall e w', Q (Err e) w') ->
  (forall w', fs_readfile (w_fs w') p = Ok content -> Q (Ok tt) w') -> wp (WriteFile p content mode) Q C w.
Proof.
  intros Hw HC HE HQ. unfold WriteFile. apply wp_try, (wp_sys _ w0 f); [done|done|intros; by apply wp_ret|].
  intros n r w1 Hw1. unfold fs_trunc in *. destruct (resolve max_links f p) as [q|e] eqn:Hr; [|by apply wp_ret].
  assert (forall m z, after w0 (<[q := NFile "" m z]> f) w1 ->
    wp (let! written := Write q content in let! closed := Close q in ret (match written with Ok _ => closed | Err e => Err e end)) Q C w1) as Hrest.
  { intros m z Hw1'. apply wp_bind, (wp_sys _ w0 _ _ _ _ Hw1'); [done|intros m' w2 _ Hw2|intros n' r' w2 Hw2].
    - apply wp_bind, (wp_sys_read _ w0 _ _ _ _ Hw2); [done|intros; by apply wp_ret|intros; by apply wp_ret].
    - unfold fs_append in *. rewrite lookup_insert in *. rewrite decide_True in * by done. cbn [fst snd] in *.
      rewrite insert_insert in Hw2. rewrite decide_True in Hw2 by done. change ("" +:+ content) with content in Hw2.
      apply wp_bind, (wp_sys_read _ w0 _ _ _ _ Hw2); [done|intros; by apply wp_ret|]. intros w3 [Hw3 _]. apply wp_ret, HQ.
      rewrite Hw3. unfold fs_readfile. by rewrite (follow_resolved _ _ _ _ (NFile content m (time_at n')) Hr). }
  destruct (f !! q) as [[c m z|m z|t]|] eqn:Eq; [by eapply Hrest|by apply wp_ret|by apply wp_ret|].
  destruct (is_dir f (Dir q)); [by eapply Hrest|by apply wp_ret].
Qed.

Lemma RuntimeAssetsDigest_Ok archive d : RuntimeAssetsDigest archive = Ok d ->
  exists binary, extractRelease archive = Ok (binary, d) /\ exists lines, d = sha256_hex lines.
Proof.
  unfold RuntimeAssetsDigest. intros ([binary d'] & E & [= <-])%rbind_Ok. exists binary. split; [done|].
  unfold extractRelease in E. destruct (untar archive) as [[entries failure]|]; [|done].
  apply rbind_Ok in E as (found & _ & E). destruct failure; [done|]. destruct found.1; [|done].
  apply rbind_Ok in E as (lines & _ & [= _ <-]). by exists lines.
Qed.

(** The agents' own reading of a published manifest. *)
Definition published (archive version text : string) : Prop := exists binary m,
  extractRelease archive = Ok (binary, am_assets m) /\ decodeManifest text = Ok m /\ am_version m = version /\
  (archive <> "" -> GOOS = "linux" -> GOARCH = "amd64" ->
   selectArtifact m = Ok (MkArtifact "linux" "amd64" (sha256_hex archive) (Z.of_N (slen archive)))).

Lemma slen_pos s : s <> "" -> (0 < Z.of_N (slen s))%Z.
Proof. intros Hs. destruct s; [done|]. unfold slen. simpl. lia. Qed.

Lemma select_only arch digest size m : GOOS = "linux" -> GOARCH = "amd64" -> slen digest = 64%N -> (0 < size)%Z ->
  am_artifacts m = [MkArtifact "linux" arch digest size] -> arch = "amd64" -> selectArtifact m = Ok (MkArtifact "linux" arch digest size).
Proof.
  intros Ho Hg Hd Hs Ha ->. unfold selectArtifact. rewrite Ha. cbn [select_first]. unfold for_platform, platform_arch. cbn [ar_os ar_arch ar_sha256 ar_size].
  rewrite Ho, Hg, Hd. rewrite (proj2 (Z.leb_gt _ _)) by done. done.
Qed.

Lemma decode_valid m a lines : am_artifacts m = [a] -> validateVersion (am_version m) = Ok tt -> is_ascii (am_published m) = true ->
  am_assets m = sha256_hex lines -> am_schema m = ManifestSchemaVersion ->
  decode_obj true artifact_fields zero_artifact (obj_indent 2 (artifact_members a)) = Some a -> decodeManifest (encode_manifest m) = Ok m.
Proof.
  intros Ha Hv Hp Hd Hs Hdec. unfold decodeManifest. rewrite (decode_encoded m a); [|done|..|done].
  2:{ by apply is_ascii_ValidString, release_version_text. } 2:{ by apply is_ascii_ValidString. }
  2:{ rewrite Hd. eapply digest_valid, digest_ok_decodes, sha256_hex_digest. } 2:{ by rewrite Hs. }
  pose proof (sha256_hex_lower lines) as Hlow. rewrite Ha, Hs, Hd, TrimSpace_lower_hex, ToLower_lower_hex by done.
  rewrite bool_decide_false by (intros E; by rewrite E in Hv). cbn [negb orb].
  rewrite (bool_decide_true (slen (sha256_hex lines) = _)) by by rewrite sha256_hex_slen.
  destruct (digest_ok_decodes _ (sha256_hex_digest lines)) as [r ->]. cbn. rewrite Hv. cbn. destruct m. cbn in *. by subst.
Qed.

Lemma published_encoded archive version date binary d lines : validateVersion version = Ok tt -> is_ascii date = true ->
  is_i64 (Z.of_N (slen archive)) -> extractRelease archive = Ok (binary, d) -> d = sha256_hex lines ->
  published archive version (encode_manifest (MkManifest ManifestSchemaVersion version date d
    [MkArtifact "linux" "amd64" (sha256_hex archive) (Z.of_N (slen archive))])).
Proof.
  intros Hv Hdate Hlen He Hd. eexists binary, (MkManifest _ _ _ _ _). split; [exact He|]. split.
  - eapply decode_valid; [reflexivity|exact Hv|exact Hdate|exact Hd|reflexivity|]. apply decode_artifact; [done|done| |exact Hlen].
    eapply digest_valid, digest_ok_decodes, sha256_hex_digest.
  - split; [reflexivity|]. intros Hne Ho Hg.
    apply select_only; [exact Ho|exact Hg|apply sha256_hex_slen|by apply slen_pos|reflexivity|reflexivity].
Qed.

(** Nothing else is a manifest agents accept. *)
Lemma published_valid archive version text : published archive version text -> validateVersion version = Ok tt.
Proof.
  intros (binary & m & _ & Hd & <- & _). unfold decodeManifest in Hd. destruct (decode_text _ _ _ _) as [m'|]; [|done].
  apply rbind_Ok in Hd as (? & _ & Hd). apply rbind_Ok in Hd as (? & _ & Hd). destruct (DecodeString _); [|done].
  apply rbind_Ok in Hd as ([] & Hv & [= <-]). exact Hv.
Qed.

(** What was published is told by [published_encoded] and [published_valid] alone. *)
#[local] Opaque encode_manifest published.

(** C26: the manifest the release tool publishes for an archive is accepted by the
    agents, with the version, the digest of the archive's runtime assets and, on
    the platform of the archive, the archive's size and SHA-256, exactly when the
    version is one that agents allow; the tool itself does not check that. *)
Theorem createManifest_accepted dist version date archive w w' :
  fs_readfile (w_fs w) (Join dist (archive_name "amd64")) = Ok archive ->
  is_i64 (Z.of_N (slen archive)) -> createManifest dist version date w = (w', Done (Ok tt)) ->
  exists text, fs_readfile (w_fs w') (Join dist "manifest.json") = Ok text /\
    (published archive version text <-> validateVersion version = Ok tt).
Proof.
  intros Ha Hlen E.
  enough (wp (createManifest dist version date) (fun r w' => r = Ok tt -> exists text,
    fs_readfile (w_fs w') (Join dist "manifest.json") = Ok text /\ (published archive version text <-> validateVersion version = Ok tt)) (fun _ => True) w) as Hwp.
  { unfold wp in Hwp. rewrite E in Hwp. by apply Hwp. }
  unfold createManifest. destruct (_ || _ || _)%bool; [by apply wp_ret|].
  apply wp_try. assert (forall p w1, after w (w_fs w) w1 -> is_ascii p = true ->
    wp (try! m := add_archives dist architectures (MkManifest ManifestSchemaVersion version p "" []) in
        WriteFile (Join dist "manifest.json") (encode_manifest m) 420) (fun r w' => r = Ok tt -> exists text,
    fs_readfile (w_fs w') (Join dist "manifest.json") = Ok text /\ (published archive version text <-> validateVersion version = Ok tt)) (fun _ => True) w1) as Hrest.
  { intros p w1 Hw1 Hp. apply wp_try. unfold architectures. cbn [add_archives]. apply wp_try. unfold add_archive. cbv zeta.
    apply wp_try, (wp_sys_read _ w (w_fs w)); [done|done|intros; by apply wp_ret, wp_ret|]. intros w2 Hw2. rewrite Ha.
    destruct (RuntimeAssetsDigest archive) as [d|e] eqn:Ed; [|by apply wp_ret, wp_ret].
    apply RuntimeAssetsDigest_Ok in Ed as (binary & He & lines & Hd). cbn [am_assets andb negb]. rewrite bool_decide_true by done. cbn [negb andb].
    apply wp_ret, wp_ret. apply (wp_WriteFile _ _ _ w (w_fs w)); [done|done|done|]. intros w3 Hr _. eexists. split; [exact Hr|].
    split; [apply published_valid|intros Hv; by eapply published_encoded]. }
  unfold publication. case_bool_decide.
  - apply wp_bind, (wp_Now w (w_fs w)); [apply after_refl|]. intros w1 Hw1. apply wp_ret. apply Hrest; [done|apply date_of_ascii].
  - apply wp_ret. destruct (is_date date) eqn:Ed; [|by apply wp_ret]. apply Hrest; [apply after_refl|by apply dates_ascii].
Qed.
#[local] Transparent encode_manifest published.
End publish.

(** ** Witness *)

Definition ex_dates : Dates := {| is_date := fun s => bool_decide (s = "2025-01-01T00:00:00Z"); date_of := fun _ => "2025-01-01T00:00:00Z" |}.

Lemma ex_dates_laws : @DatesLaws ex_dates.
Proof. split; [|by intros]. intros s Hs%bool_decide_eq_true. by subst. Qed.

(** A directory with an archive, and with a manifest of another release. *)
Definition ex_dist : world := World (list_to_map [("dist", NDir 493 0); ("dist/xui-agent-linux-amd64.tar.gz", NFile "archive" 420 0);
  ("dist/manifest.json", NLink "latest.json"); ("dist/latest.json", NFile "{}" 384 0)]) 0 None.
Definition ex_publish : io (result unit) := @createManifest calm_env ex_dates ex_tar "dist" "v2" "".
Definition ex_released : world := Eval vm_compute in (ex_publish ex_dist).1.

Lemma ex_published_run : @createManifest calm_env ex_dates ex_tar "dist" "v2" "" ex_dist = (ex_released, Done (Ok tt)).
Proof. by_evaluation. Qed.

Lemma createManifest_accepted_witness :
  exists text, fs_readfile (w_fs ex_released) "dist/manifest.json" = Ok text /\ @published ex_tar ex_host "archive" "v2" text.
Proof.
  destruct (@createManifest_accepted calm_env ex_dates ex_dates_laws ex_tar ex_host "dist" "v2" "" "archive" ex_dist ex_released)
    as (text & Hr & [_ Hp]).
  - vm_compute. reflexivity.
  - vm_compute. by split.
  - exact ex_published_run.
  - exists text. split; [exact Hr|]. apply Hp. vm_compute. reflexivity.
Defined.

(** A version with a build number is published, and no agent takes it. *)
Definition ex_unusable : world := Eval vm_compute in (@createManifest calm_env ex_dates ex_tar "dist" "v1.2+b" "" ex_dist).1.

Lemma unusable_published :
  @createManifest calm_env ex_dates ex_tar "dist" "v1.2+b" "" ex_dist = (ex_unusable, Done (Ok tt)) /\
  (match fs_readfile (w_fs ex_unusable) "dist/manifest.json" with Ok text => is_ok (decodeManifest text) | Err _ => true end) = false.
Proof. split; by_evaluation. Qed.
