(* ===== verification/Identity.v ===== *)
(** * The node's identity (internal/identity/store.go)

    identity.json holds the node's number, name and credential; it is replaced
    as a whole and refused when other users could read it.  The store is the
    state directory, "." here. *)

From stdpp Require Import base gmap strings list fin_maps.
From Stdlib Require Import ZArith NArith Ascii.
From S2P Require Import Prelude.
From S2P Require Import GoStrings.
From S2P Require Import Json.
From S2P Require Import Indent.
From S2P Require Import Os.
From S2P Require Import AtomicFile.
From S2P Require Import FsLogic.

Record Identity : Set := MkIdentity { id_node : Z; id_name : string; id_credential : string }.

Definition identity_directory : string := ".".
Definition identity_path : string := "identity.json".

Definition identity_fields : list (string * setter Identity) :=
  [("nodeId", fld dec_int (fun v i => MkIdentity v (id_name i) (id_credential i)));
   ("nodeName", fld dec_string (fun v i => MkIdentity (id_node i) v (id_credential i)));
   ("credential", fld dec_string (fun v i => MkIdentity (id_node i) (id_name i) v))].

Definition identity_members (i : Identity) : list (string * string) :=
  [("nodeId", FormatInt (id_node i)); ("nodeName", quote (id_name i)); ("credential", quote (id_credential i))].

Definition encode_identity (i : Identity) : string := obj_indent 0 (identity_members i) +:+ nl.

Definition identity_complete (i : Identity) : bool := (0 <? id_node i)%Z && negb (bool_decide (id_credential i = "")).

(** Load, after the file was read *)
Definition parse_identity (raw : string) : result Identity :=
  match decode_text false identity_fields (MkIdentity 0 "" "") raw with
  | None => Err (errorsNew "decode identity")
  | Some i => if identity_complete i then Ok i else Err (errorsNew "identity is incomplete")
  end.

Section store.
Context `{Env}.

Definition LoadIdentity : io (result Identity) :=
try! info := Stat identity_path in
if negb (N.land (fi_perm info) 63 =? 0)%N then
  ret (Err (errorsNew ("identity file " +:+ identity_path +:+ " must not be accessible by group or others")))
else
  try! raw := ReadFile identity_path in
  ret (parse_identity raw).

Definition SaveIdentity (i : Identity) : io (result unit) :=
if negb (identity_complete i) then ret (Err (errorsNew "identity is incomplete"))
else
  try! _ := MkdirAll identity_directory 448 catch e => ret (Err (errorW "create state directory: " e)) in
  try! _ := Chmod identity_directory 448 catch e => ret (Err (errorW "secure state directory: " e)) in
  replaceFile identity_directory ".identity-" identity_path (encode_identity i) 384 (syncDirectory identity_directory).
End store.

(** ** Properties *)

(** An identity JSON can carry: valid UTF-8, a number in range. *)
Definition storable (i : Identity) : Prop :=
  is_i64 (id_node i) /\ ValidString (id_name i) = true /\ ValidString (id_credential i) = true.

Lemma identity_members_ok i : Forall member_ok (identity_members i).
Proof. unfold identity_members. members_ok. Qed.

Lemma parse_encode_identity i : storable i -> identity_complete i = true -> parse_identity (encode_identity i) = Ok i.
Proof.
  intros (Hz & Hn & Hc) Hok. unfold parse_identity, encode_identity.
  rewrite decode_text_indent by apply identity_members_ok.
  unfold identity_members, set_members, field_for. simpl.
  repeat first [rewrite fld_string by done | rewrite fld_int by done]. simpl. destruct i; simpl in *. by rewrite Hok.
Qed.

(** What Load answers on a tree. *)
Definition s_identity (f : fs) : result Identity :=
  match fs_stat f identity_path with
  | Err e => Err e
  | Ok info =>
      if negb (N.land (fi_perm info) 63 =? 0)%N then
        Err (errorsNew ("identity file " +:+ identity_path +:+ " must not be accessible by group or others"))
      else match fs_readfile f identity_path with Err e => Err e | Ok raw => parse_identity raw end
  end.

Section theorems.
Context `{Env}.

Lemma fwp_LoadIdentity w0 f (Q : result Identity -> fs -> Prop) C :
  (~ calm w0 -> C f /\ forall e, Q (Err e) f) -> Q (s_identity f) f -> fwp w0 LoadIdentity Q C f.
Proof.
  intros HX HQ. unfold LoadIdentity, s_identity in *.
  apply fwp_try, fwp_read; [intros Hc; split; [by apply HX|intros m; by apply fwp_ret, HX]|].
  destruct (fs_stat f identity_path) as [info|e]; [|by apply fwp_ret]. destruct (negb _); [by apply fwp_ret|].
  apply fwp_try, fwp_read; [intros Hc; split; [by apply HX|intros m; by apply fwp_ret, HX]|].
  destruct (fs_readfile f identity_path); by apply fwp_ret.
Qed.

(** The file is as it was, or holds the new identity for its owner alone. *)
Definition identity_kept (f g : fs) : Prop := g !! identity_path = f !! identity_path.
Definition identity_stored (i : Identity) (g : fs) : Prop :=
  exists t, g !! identity_path = Some (NFile (encode_identity i) 384 t).

Lemma identity_temp k :
  scratch ("." +:+ "/" +:+ ".identity-" +:+ FormatUint k) = true /\ Dir ("." +:+ "/" +:+ ".identity-" +:+ FormatUint k) = ".".
Proof.
  split; [done|]. change ("." +:+ "/" +:+ ".identity-" +:+ FormatUint k) with ("." +:+ String slash (".identity-" +:+ FormatUint k)).
  rewrite Dir_app; [done|]. apply no_char_app. split; [done|apply FormatUint_no_slash].
Qed.

Lemma kept_identity f g : g ≡ f -> identity_kept f g.
Proof. intros Hg. by apply fs_equiv_lookup. Qed.

Lemma stored_identity f i g t : g ≡ <[identity_path := NFile (encode_identity i) 384 t]> f -> identity_stored i g.
Proof. intros Hg. exists t. rewrite (fs_equiv_lookup _ _ _ Hg) by done. apply lookup_insert_eq. Qed.

(** The state directory is there and the path free of a directory. *)
Definition identity_ready (f : fs) : Prop := f !! "." = None /\ plain_file f identity_path.

Lemma fwp_SaveIdentity w0 i f (Q : result unit -> fs -> Prop) C :
  identity_ready f ->
  (forall g, ~ calm w0 -> identity_kept f g \/ identity_complete i = true /\ identity_stored i g -> C g /\ forall e, Q (Err e) g) ->
  (identity_complete i = false -> forall e, Q (Err e) f) ->
  (forall g, identity_complete i = true -> identity_stored i g -> Q (Ok tt) g) ->
  fwp w0 (SaveIdentity i) Q C f.
Proof.
  intros [Hroot Hpl] HX HE HQ. unfold SaveIdentity. destruct (identity_complete i) eqn:Ei; cbn [negb]; [|by apply fwp_ret, HE].
  assert (forall g e, ~ calm w0 -> g ≡ f -> C g /\ Q (Err e) g) as HX1.
  { intros g e Hc Hg. destruct (HX g Hc) as [? ?]; [left; by apply kept_identity|done]. }
  assert (~ calm w0 -> C f) as HC by (intros Hc; by apply (HX1 f (errorsNew ""))).
  apply fwp_try, fwp_sys; [intros Hc; split; [by apply HC|intros m; by apply fwp_ret, HX1]|]. intros n r.
  change (fs_mkdirall _ f identity_directory 448 (time_at n)) with (f, Ok tt : result unit). cbn [fst snd].
  apply fwp_try, fwp_sys; [intros Hc; split; [by apply HC|intros m; by apply fwp_ret, HX1]|]. intros n' r'.
  unfold fs_chmod, identity_directory. rewrite Hroot, bool_decide_true by done. cbn [fst snd].
  apply (fwp_replaceFile w0 False); [done|done|done|done|exact identity_temp|apply syncDirectory_looks|..].
  - intros g Hc Hg. split; [by apply (HX1 g (errorsNew ""))|]. intros e. by apply HX1.
  - intros g t Hc Hg. apply HX; [done|right]. split; [done|by eapply stored_identity].
  - intros g t Hg. apply HQ; [done|by eapply stored_identity].
Qed.

Lemma s_identity_stored i g : storable i -> identity_complete i = true -> identity_stored i g -> s_identity g = Ok i.
Proof.
  intros Hi Hok [t Ht]. unfold s_identity. rewrite (fs_stat_node _ _ _ Ht) by done. simpl.
  by rewrite (fs_readfile_file _ _ _ _ _ Ht), parse_encode_identity.
Qed.

(** C20: saving an identity is atomic: whatever fails and wherever the agent is
    killed, identity.json is as it was or holds the complete new identity,
    readable by its owner alone; a save that succeeds has stored it, one of an
    incomplete identity has left the file alone; and when nothing fails a
    complete identity is saved. *)
Theorem SaveIdentity_atomic i w w' o :
  identity_ready (w_fs w) -> SaveIdentity i w = (w', o) ->
  (identity_kept (w_fs w) (w_fs w') \/ identity_complete i = true /\ identity_stored i (w_fs w')) /\
  (o = Done (Ok tt) -> identity_complete i = true /\ identity_stored i (w_fs w')) /\
  (calm w -> identity_complete i = true -> o = Done (Ok tt)).
Proof.
  intros Hr E.
  assert (fwp w (SaveIdentity i)
    (fun res g => (identity_kept (w_fs w) g \/ identity_complete i = true /\ identity_stored i g) /\
       (res = Ok tt -> identity_complete i = true /\ identity_stored i g) /\
       (calm w -> identity_complete i = true -> res = Ok tt))
    (fun g => ~ calm w /\ (identity_kept (w_fs w) g \/ identity_complete i = true /\ identity_stored i g)) (w_fs w)) as Hwp.
  { apply fwp_SaveIdentity; [done|..].
    - intros g Hc Hg. split; [done|]. intros e. split_and!; [done|done|by intros ?].
    - intros Hi e. split_and!; [by left|done|]. intros _. by rewrite Hi.
    - intros g Hi Hg. split; [by right|done]. }
  apply fwp_run in Hwp. rewrite E in Hwp. destruct o as [res|].
  - destruct Hwp as (H1 & H2 & H3). split; [done|]. split; [intros [= ->]; by apply H2|]. intros Hc Hi. by rewrite H3.
  - destruct Hwp as [Hc H1]. split; [done|]. split; [done|by intros ?].
Qed.

(** Saved and loaded by the next start of the agent. *)
Definition saved_and_loaded (i : Identity) : io (result Identity) :=
  try! _ := SaveIdentity i in LoadIdentity.

(** An identity that was saved is loaded as it was, whatever fails on the
    way; and when nothing fails it is saved and loaded. *)
Theorem identity_roundtrip i w :
  identity_ready (w_fs w) -> storable i -> identity_complete i = true ->
  (forall w' j, saved_and_loaded i w = (w', Done (Ok j)) -> j = i) /\
  (calm w -> exists w', saved_and_loaded i w = (w', Done (Ok i))).
Proof.
  intros Hr Hi Hok.
  assert (fwp w (saved_and_loaded i) (fun res _ => (exists e, ~ calm w /\ res = Err e) \/ res = Ok i) (fun _ => ~ calm w) (w_fs w)) as Hwp.
  { apply fwp_try, fwp_SaveIdentity; [done|..].
    - intros g Hc _. split; [done|]. intros e. apply fwp_ret. left. by exists e.
    - by rewrite Hok.
    - intros g _ Hg. apply fwp_LoadIdentity; [intros Hc; split; [done|intros e; left; by exists e]|].
      right. by apply s_identity_stored. }
  apply fwp_run in Hwp. split.
  - intros w' j E. rewrite E in Hwp. destruct Hwp as [(e & _ & [=])|[= ->]]. done.
  - intros Hc. destruct (saved_and_loaded i w) as [w' [res|]]; [|done].
    destruct Hwp as [(e & Hn & _)| ->]; [done|]. by exists w'.
Qed.
End theorems.

(** ** Witnesses *)

Definition ex_identity : Identity := MkIdentity 7 "node-7" "secret".
Definition ex_start : world := World ∅ 0 None.
Definition ex_save (E : Env) : world * outcome (result unit) := @SaveIdentity E ex_identity ex_start.

Lemma ex_start_ready : identity_ready (w_fs ex_start).
Proof. by split. Qed.

Example ex_saved : (ex_save calm_env).2 = Done (Ok tt).
Proof. vm_compute. reflexivity. Qed.

Lemma SaveIdentity_atomic_witness :
  ((ex_save (crash_env 6)).2 = Crashed /\
   (identity_kept ∅ (w_fs (ex_save (crash_env 6)).1) \/
    identity_complete ex_identity = true /\ identity_stored ex_identity (w_fs (ex_save (crash_env 6)).1))) /\
  identity_stored ex_identity (w_fs (ex_save calm_env).1).
Proof.
  split; [split; [vm_compute; reflexivity|]|].
  - apply (@SaveIdentity_atomic (crash_env 6) ex_identity ex_start (ex_save (crash_env 6)).1 (ex_save (crash_env 6)).2);
      [exact ex_start_ready|apply surjective_pairing].
  - apply (@SaveIdentity_atomic calm_env ex_identity ex_start (ex_save calm_env).1 (Done (Ok tt)));
      [exact ex_start_ready|apply (run_done (ex_save calm_env)); vm_compute; reflexivity|reflexivity].
Defined.

Lemma identity_roundtrip_witness :
  exists w, @saved_and_loaded calm_env ex_identity ex_start = (w, Done (Ok ex_identity)).
Proof.
  apply (@identity_roundtrip calm_env ex_identity ex_start); [exact ex_start_ready| |reflexivity|apply calm_env_calm].
  split; [done|]. split; vm_compute; reflexivity.
Defined.
