(* ===== verification/Config.v ===== *)
(** * The agent's configuration (internal/config/config.go)

    Reading, defaulting, checking and writing config.json.  net/url and the
    time zone database are parameters, and so is the order in which a map is
    ranged over: it only decides which of several errors is reported. *)

From stdpp Require Import base gmap strings list fin_maps.
From Stdlib Require Import ZArith NArith Ascii.
From S2P Require Import Prelude.
From S2P Require Import GoStrings.
From S2P Require Import Json.
From S2P Require Import Indent.
From S2P Require Import Os.
From S2P Require Import AtomicFile.
From S2P Require Import FsLogic.
From S2P Require Import Release.
From S2P Require Import Net.

Definition XrayModeObserve : string := "observe".
Definition XrayModeManaged : string := "managed".
Definition DefaultRuntimeAssetsPath : string := "/etc/xui-agent/runtime-assets.sha256".
Definition DefaultEventSpoolName : string := "events.db".
Definition DefaultAccessLogName : string := "logs/access.log".
Definition DefaultRouteListen : string := "127.0.0.1:8687".
Definition DefaultXrayAPIAddress : string := "127.0.0.1:62789".

(** ** Data *)

Record XrayConfig : Set := MkXray { xc_mode : string; xc_binary : string; xc_config : string; xc_pid : string }.

Record UpdateConfig : Set := MkUpdate { uc_key : string; uc_assets : string }.

Record TelemetryConfig : Set := MkTelemetry {
  tl_enabled : option bool;
  tl_access : string;
  tl_spool : string;
  tl_route : string;
  tl_api : string;
  tl_zone : string;
  tl_poll : Z;
  tl_sample : Z;
  tl_heartbeat : Z;
  tl_bytes : N;
  tl_events : N
}.

Record Config : Set := MkConfig {
  cf_server : string;
  cf_state : string;
  cf_insecure : bool;
  cf_cert : string;
  cf_xray : XrayConfig;
  cf_update : UpdateConfig;
  cf_telemetry : TelemetryConfig
}.

Definition zero_xray : XrayConfig := MkXray "" "" "" "".
Definition zero_update : UpdateConfig := MkUpdate "" "".
Definition zero_telemetry : TelemetryConfig := MkTelemetry None "" "" "" "" "" 0 0 0 0 0.
Definition zero_config : Config := MkConfig "" "" false "" zero_xray zero_update zero_telemetry.

Definition Managed (c : XrayConfig) : bool := bool_decide (xc_mode c = XrayModeManaged).

Definition TelemetryEnabled (c : Config) : bool :=
  match tl_enabled (cf_telemetry c) with Some b => b | None => Managed (cf_xray c) end.

(** *** Decoding *)

(** A struct inside a struct: its members go over the ones it has. *)
Definition nested {T S} (fs : list (string * setter S)) (get : T -> S) (upd : S -> T -> T) : setter T :=
  fun raw t => (fun s => upd s t) <$> decode_obj true fs (get t) raw.

Definition xray_fields : list (string * setter XrayConfig) :=
  [("mode", fld dec_string (fun v x => MkXray v (xc_binary x) (xc_config x) (xc_pid x)));
   ("binaryPath", fld dec_string (fun v x => MkXray (xc_mode x) v (xc_config x) (xc_pid x)));
   ("configPath", fld dec_string (fun v x => MkXray (xc_mode x) (xc_binary x) v (xc_pid x)));
   ("pidFile", fld dec_string (fun v x => MkXray (xc_mode x) (xc_binary x) (xc_config x) v))].

Definition update_fields : list (string * setter UpdateConfig) :=
  [("publicKey", fld dec_string (fun v u => MkUpdate v (uc_assets u)));
   ("runtimeAssetsPath", fld dec_string (fun v u => MkUpdate (uc_key u) v))].

Definition telemetry_fields : list (string * setter TelemetryConfig) :=
  [("enabled", ptr dec_bool (fun v t => MkTelemetry v (tl_access t) (tl_spool t) (tl_route t) (tl_api t) (tl_zone t) (tl_poll t) (tl_sample t) (tl_heartbeat t) (tl_bytes t) (tl_events t)));
   ("accessPath", fld dec_string (fun v t => MkTelemetry (tl_enabled t) v (tl_spool t) (tl_route t) (tl_api t) (tl_zone t) (tl_poll t) (tl_sample t) (tl_heartbeat t) (tl_bytes t) (tl_events t)));
   ("spoolPath", fld dec_string (fun v t => MkTelemetry (tl_enabled t) (tl_access t) v (tl_route t) (tl_api t) (tl_zone t) (tl_poll t) (tl_sample t) (tl_heartbeat t) (tl_bytes t) (tl_events t)));
   ("routeListen", fld dec_string (fun v t => MkTelemetry (tl_enabled t) (tl_access t) (tl_spool t) v (tl_api t) (tl_zone t) (tl_poll t) (tl_sample t) (tl_heartbeat t) (tl_bytes t) (tl_events t)));
   ("xrayApiAddress", fld dec_string (fun v t => MkTelemetry (tl_enabled t) (tl_access t) (tl_spool t) (tl_route t) v (tl_zone t) (tl_poll t) (tl_sample t) (tl_heartbeat t) (tl_bytes t) (tl_events t)));
   ("logTimezone", fld dec_string (fun v t => MkTelemetry (tl_enabled t) (tl_access t) (tl_spool t) (tl_route t) (tl_api t) v (tl_poll t) (tl_sample t) (tl_heartbeat t) (tl_bytes t) (tl_events t)));
   ("pollIntervalSeconds", fld dec_int (fun v t => MkTelemetry (tl_enabled t) (tl_access t) (tl_spool t) (tl_route t) (tl_api t) (tl_zone t) v (tl_sample t) (tl_heartbeat t) (tl_bytes t) (tl_events t)));
   ("sampleIntervalSeconds", fld dec_int (fun v t => MkTelemetry (tl_enabled t) (tl_access t) (tl_spool t) (tl_route t) (tl_api t) (tl_zone t) (tl_poll t) v (tl_heartbeat t) (tl_bytes t) (tl_events t)));
   ("heartbeatIntervalSeconds", fld dec_int (fun v t => MkTelemetry (tl_enabled t) (tl_access t) (tl_spool t) (tl_route t) (tl_api t) (tl_zone t) (tl_poll t) (tl_sample t) v (tl_bytes t) (tl_events t)));
   ("queueMaxBytes", fld (dec_uint 64) (fun v t => MkTelemetry (tl_enabled t) (tl_access t) (tl_spool t) (tl_route t) (tl_api t) (tl_zone t) (tl_poll t) (tl_sample t) (tl_heartbeat t) v (tl_events t)));
   ("queueMaxEvents", fld (dec_uint 64) (fun v t => MkTelemetry (tl_enabled t) (tl_access t) (tl_spool t) (tl_route t) (tl_api t) (tl_zone t) (tl_poll t) (tl_sample t) (tl_heartbeat t) (tl_bytes t) v))].

Definition config_fields : list (string * setter Config) :=
  [("serverUrl", fld dec_string (fun v c => MkConfig v (cf_state c) (cf_insecure c) (cf_cert c) (cf_xray c) (cf_update c) (cf_telemetry c)));
   ("stateDirectory", fld dec_string (fun v c => MkConfig (cf_server c) v (cf_insecure c) (cf_cert c) (cf_xray c) (cf_update c) (cf_telemetry c)));
   ("allowInsecure", fld dec_bool (fun v c => MkConfig (cf_server c) (cf_state c) v (cf_cert c) (cf_xray c) (cf_update c) (cf_telemetry c)));
   ("serverCertSha256", fld dec_string (fun v c => MkConfig (cf_server c) (cf_state c) (cf_insecure c) v (cf_xray c) (cf_update c) (cf_telemetry c)));
   ("xray", nested xray_fields cf_xray (fun v c => MkConfig (cf_server c) (cf_state c) (cf_insecure c) (cf_cert c) v (cf_update c) (cf_telemetry c)));
   ("update", nested update_fields cf_update (fun v c => MkConfig (cf_server c) (cf_state c) (cf_insecure c) (cf_cert c) (cf_xray c) v (cf_telemetry c)));
   ("telemetry", nested telemetry_fields cf_telemetry (fun v c => MkConfig (cf_server c) (cf_state c) (cf_insecure c) (cf_cert c) (cf_xray c) (cf_update c) v))].

(** *** Encoding *)

(** Numbers and pointers with ",omitempty"; [opt_member] is the one for strings. *)
Definition omit_int (key : string) (value : Z) : list (string * string) :=
  if bool_decide (value = 0%Z) then [] else [(key, FormatInt value)].
Definition omit_uint (key : string) (value : N) : list (string * string) :=
  if bool_decide (value = 0%N) then [] else [(key, FormatUint value)].
Definition bool_text (b : bool) : string := if b then "true" else "false".
Definition omit_bool (key : string) (value : option bool) : list (string * string) :=
  match value with Some b => [(key, bool_text b)] | None => [] end.

Definition xray_members (x : XrayConfig) : list (string * string) :=
  opt_member "mode" (xc_mode x)
  ++ [("binaryPath", quote (xc_binary x)); ("configPath", quote (xc_config x)); ("pidFile", quote (xc_pid x))].

Definition update_members (u : UpdateConfig) : list (string * string) :=
  opt_member "publicKey" (uc_key u) ++ opt_member "runtimeAssetsPath" (uc_assets u).

Definition telemetry_members (t : TelemetryConfig) : list (string * string) :=
  omit_bool "enabled" (tl_enabled t) ++ opt_member "accessPath" (tl_access t) ++ opt_member "spoolPath" (tl_spool t)
  ++ opt_member "routeListen" (tl_route t) ++ opt_member "xrayApiAddress" (tl_api t) ++ opt_member "logTimezone" (tl_zone t)
  ++ omit_int "pollIntervalSeconds" (tl_poll t) ++ omit_int "sampleIntervalSeconds" (tl_sample t)
  ++ omit_int "heartbeatIntervalSeconds" (tl_heartbeat t) ++ omit_uint "queueMaxBytes" (tl_bytes t) ++ omit_uint "queueMaxEvents" (tl_events t).

(** ",omitempty" has no effect on a struct. *)
Definition config_members (c : Config) : list (string * string) :=
  [("serverUrl", quote (cf_server c)); ("stateDirectory", quote (cf_state c)); ("allowInsecure", bool_text (cf_insecure c))]
  ++ opt_member "serverCertSha256" (cf_cert c)
  ++ [("xray", obj_indent 1 (xray_members (cf_xray c))); ("update", obj_indent 1 (update_members (cf_update c)));
      ("telemetry", obj_indent 1 (telemetry_members (cf_telemetry c)))].

Definition encode_config (c : Config) : string := obj_indent 0 (config_members c) +:+ nl.

(** ** Defaults *)

Definition default (value fallback : string) : string := if bool_decide (value = "") then fallback else value.
Definition default_Z (value fallback : Z) : Z := if bool_decide (value = 0%Z) then fallback else value.
Definition default_N (value fallback : N) : N := if bool_decide (value = 0%N) then fallback else value.

Definition normalizeTelemetry (stateDirectory : string) (t : TelemetryConfig) : TelemetryConfig := {|
  tl_enabled := tl_enabled t;
  tl_access := default (tl_access t) (Join stateDirectory DefaultAccessLogName);
  tl_spool := default (tl_spool t) (Join stateDirectory DefaultEventSpoolName);
  tl_route := default (tl_route t) DefaultRouteListen;
  tl_api := default (tl_api t) DefaultXrayAPIAddress;
  tl_zone := default (tl_zone t) "Local";
  tl_poll := default_Z (tl_poll t) 1;
  tl_sample := default_Z (tl_sample t) 300;
  tl_heartbeat := default_Z (tl_heartbeat t) 300;
  tl_bytes := default_N (tl_bytes t) 268435456;
  tl_events := default_N (tl_events t) 100000
|}.

(** What Load makes of a decoded configuration. *)
Definition withDefaults (c : Config) : Config :=
  let state := default (cf_state c) "/var/lib/xui-agent" in
  let x := cf_xray c in
  MkConfig (cf_server c) state (cf_insecure c) (cf_cert c)
    (MkXray (default (xc_mode x) XrayModeObserve) (xc_binary x) (xc_config x) (xc_pid x))
    (MkUpdate (uc_key (cf_update c)) (default (uc_assets (cf_update c)) DefaultRuntimeAssetsPath))
    (normalizeTelemetry state (cf_telemetry c)).

(** ** Checks *)

(** net.ParseIP: no zone *)
Definition ParseIP (s : string) : option Addr :=
  match ParseAddr s with
  | Some (Addr6 groups zone) => if bool_decide (zone = "") then Some (Addr6 groups zone) else None
  | a => a
  end.

Definition IsLoopback (a : Addr) : bool :=
  match Unmap a with
  | Addr4 (octet :: _) => (octet =? 127)%N
  | Addr4 [] => false
  | Addr6 groups _ => bool_decide (groups = [0; 0; 0; 0; 0; 0; 0; 1]%N)
  end.

Definition validateLoopbackAddress (name value : string) : result unit :=
  match SplitHostPort value with
  | None => Err (errorsNew (name +:+ " must be a loopback host and port"))
  | Some (host, port) =>
      let? _ := guard_err (bool_decide (port = "")) (name +:+ " must be a loopback host and port") in
      match ParseIP host with
      | Some ip => guard_err (negb (IsLoopback ip)) (name +:+ " must bind to a loopback IP")
      | None => Err (errorsNew (name +:+ " must bind to a loopback IP"))
      end
  end.

(** time.LoadLocation succeeds. *)
Class Zones : Set := { known_zone : string -> bool }.

(** The order of [range] over a map. *)
Class MapRange : Type := { range : list (string * string) -> list (string * string) }.
Class MapRangeLaws `{MapRange} : Prop := { range_perm : forall l, range l ≡ₚ l }.

Section checks.
Context `{UrlParser} `{Zones} `{MapRange}.

Definition validateServer (c : Config) : result unit :=
  match parse_url (TrimSpace (cf_server c)) with
  | None => Err (errorsNew "serverUrl must be an absolute URL")
  | Some u =>
      let? _ := guard_err (bool_decide (u_host u = "")) "serverUrl must be an absolute URL" in
      let? _ := guard_err (negb (bool_decide (u_query u = "")) || negb (bool_decide (u_fragment u = "")))
                  "serverUrl must not contain a query or fragment" in
      let? _ := guard_err (match u_user u with Some _ => true | None => false end) "serverUrl must not contain credentials" in
      if bool_decide (u_scheme u = "https") then Ok tt
      else if bool_decide (u_scheme u = "http") then guard_err (negb (cf_insecure c)) "plain HTTP requires allowInsecure=true"
      else Err (errorsNew "serverUrl scheme must be https")
  end.

(** The range over the three paths. *)
Fixpoint absolute_paths (l : list (string * string)) : result unit :=
  match l with
  | [] => Ok tt
  | (name, value) :: rest =>
      let? _ := guard_err (negb (bool_decide (value = "")) && negb (IsAbs value)) (name +:+ " must be an absolute path") in
      absolute_paths rest
  end.

Definition validateXray (x : XrayConfig) : result unit :=
  let xrayMode := default (xc_mode x) XrayModeObserve in
  let? _ := guard_err (negb (bool_decide (xrayMode = XrayModeObserve)) && negb (bool_decide (xrayMode = XrayModeManaged)))
              "xray.mode must be observe or managed" in
  let? _ := absolute_paths (range [("xray.binaryPath", xc_binary x); ("xray.configPath", xc_config x); ("xray.pidFile", xc_pid x)]) in
  if bool_decide (xrayMode = XrayModeManaged) then
    let? _ := guard_err (bool_decide (xc_binary x = "")) "xray.binaryPath is required in managed mode" in
    guard_err (negb (bool_decide (xc_config x = "")) || negb (bool_decide (xc_pid x = "")))
      "xray.configPath and xray.pidFile must be empty in managed mode"
  else Ok tt.

Definition outside_Z (low high value : Z) : bool := (value <? low)%Z || (high <? value)%Z.
Definition outside_N (low high value : N) : bool := (value <? low)%N || (high <? value)%N.

Definition validateTelemetry (t : TelemetryConfig) : result unit :=
  let? _ := guard_err (negb (IsAbs (tl_access t)) || negb (IsAbs (tl_spool t))) "telemetry accessPath and spoolPath must be absolute paths" in
  let? _ := guard_err (negb (known_zone (tl_zone t))) "telemetry.logTimezone must be a valid IANA timezone or Local" in
  let? _ := validateLoopbackAddress "telemetry.routeListen" (tl_route t) in
  let? _ := validateLoopbackAddress "telemetry.xrayApiAddress" (tl_api t) in
  let? _ := guard_err (outside_Z 1 60 (tl_poll t)) "telemetry.pollIntervalSeconds must be between 1 and 60" in
  let? _ := guard_err (outside_Z 30 3600 (tl_sample t)) "telemetry.sampleIntervalSeconds must be between 30 and 3600" in
  let? _ := guard_err (outside_Z 30 3600 (tl_heartbeat t)) "telemetry.heartbeatIntervalSeconds must be between 30 and 3600" in
  let? _ := guard_err (outside_N 1048576 4294967296 (tl_bytes t)) "telemetry.queueMaxBytes must be between 1 MiB and 4 GiB" in
  guard_err (outside_N 100 10000000 (tl_events t)) "telemetry.queueMaxEvents must be between 100 and 10000000".

Definition Validate (c : Config) : result unit :=
  let? _ := validateServer c in
  let? _ := guard_err (negb (IsAbs (cf_state c))) "stateDirectory must be an absolute path" in
  let? _ := validateXray (cf_xray c) in
  let? _ := guard_err (negb (bool_decide (uc_assets (cf_update c) = "")) && negb (IsAbs (uc_assets (cf_update c))))
              "update.runtimeAssetsPath must be an absolute path" in
  if TelemetryEnabled c then validateTelemetry (normalizeTelemetry (cf_state c) (cf_telemetry c)) else Ok tt.

(** Load, after the file was read *)
Definition parse_config (path raw : string) : result Config :=
  match decode_text true config_fields zero_config raw with
  | None => Err (errorsNew ("decode config " +:+ path))
  | Some c => let? _ := Validate (withDefaults c) in Ok (withDefaults c)
  end.

(** ** Files *)

Context `{Env}.

Definition LoadConfig (path : string) : io (result Config) :=
try! raw := ReadFile path catch e => ret (Err (errorW ("read config " +:+ path +:+ ": ") e)) in
ret (parse_config path raw).

(** An existing file is only replaced on request. *)
Definition checkOverwrite (path : string) (overwrite : bool) : io (result unit) :=
if overwrite then ret (Ok tt)
else
  let! info := Stat path in
  match info with
  | Ok _ => ret (Err (errorsNew ("config " +:+ path +:+ " already exists")))
  | Err e => if errorsIs e SNotExist then ret (Ok tt) else ret (Err (errorW ("inspect config " +:+ path +:+ ": ") e))
  end.

Definition WriteConfig (path : string) (c : Config) (overwrite : bool) : io (result unit) :=
match Validate c with
| Err e => ret (Err e)
| Ok _ =>
    try! _ := MkdirAll (Dir path) 488 catch e => ret (Err (errorW "create config directory: " e)) in
    try! _ := checkOverwrite path overwrite in
    replaceFile (Dir path) ".config-" path (encode_config c) 416 (ret (Ok tt))
end.
End checks.
