(* ===== verification/ConfigProofs.v ===== *)
(** * What a loaded configuration satisfies

    The checks accept exactly the configurations of a declarative
    specification, and a configuration that was written is loaded again with
    its defaults filled in. *)

From stdpp Require Import base gmap strings list fin_maps.
From Stdlib Require Import ZArith NArith Ascii.
From S2P Require Import Prelude.
From S2P Require Import GoStrings.
From S2P Require Import Json.
From S2P Require Import Indent.
From S2P Require Import Os.
From S2P Require Import AtomicFile.
From S2P Require Import FsLogic.
From S2P Require Import Release.
From S2P Require Import Net.
From S2P Require Import Config.

(** ** The specification of a configuration *)

Definition absolute (p : string) : Prop := IsAbs p = true.

Definition loopback (value : string) : Prop :=
  exists host port ip, SplitHostPort value = Some (host, port) /\ port <> "" /\ ParseIP host = Some ip /\ IsLoopback ip = true.

Definition observing (x : XrayConfig) : Prop := xc_mode x = "" \/ xc_mode x = XrayModeObserve.
Definition managing (x : XrayConfig) : Prop := xc_mode x = XrayModeManaged /\ xc_binary x <> "" /\ xc_config x = "" /\ xc_pid x = "".

Record xray_ok (x : XrayConfig) : Prop := XrayOk {
  xo_mode : observing x \/ managing x;
  xo_paths : forall p, p ∈ [xc_binary x; xc_config x; xc_pid x] -> p = "" \/ absolute p
}.

Section specification.
Context `{UrlParser} `{Zones}.

Record server_ok (c : Config) (u : url) : Prop := ServerOk {
  so_parsed : parse_url (TrimSpace (cf_server c)) = Some u;
  so_host : u_host u <> "";
  so_query : u_query u = "" /\ u_fragment u = "";
  so_user : u_user u = None;
  so_scheme : u_scheme u = "https" \/ u_scheme u = "http" /\ cf_insecure c = true
}.

Record telemetry_ok (t : TelemetryConfig) : Prop := TelemetryOk {
  to_paths : absolute (tl_access t) /\ absolute (tl_spool t);
  to_zone : known_zone (tl_zone t) = true;
  to_listen : loopback (tl_route t) /\ loopback (tl_api t);
  to_poll : (1 <= tl_poll t <= 60)%Z;
  to_sample : (30 <= tl_sample t <= 3600)%Z;
  to_heartbeat : (30 <= tl_heartbeat t <= 3600)%Z;
  to_bytes : (1048576 <= tl_bytes t <= 4294967296)%N;
  to_events : (100 <= tl_events t <= 10000000)%N
}.

Record config_ok (c : Config) : Prop := ConfigOk {
  co_server : exists u, server_ok c u;
  co_state : absolute (cf_state c);
  co_xray : xray_ok (cf_xray c);
  co_assets : uc_assets (cf_update c) = "" \/ absolute (uc_assets (cf_update c));
  co_telemetry : TelemetryEnabled c = true -> telemetry_ok (normalizeTelemetry (cf_state c) (cf_telemetry c))
}.
End specification.

(** ** The checks *)

Lemma guard_ok b m : guard_err b m = Ok tt <-> b = false.
Proof. by destruct b. Qed.

Lemma rbind_tt {A} (m : result unit) (k : result A) a : rbind m (fun _ => k) = Ok a <-> m = Ok tt /\ k = Ok a.
Proof. destruct m as [[]|]; simpl; naive_solver. Qed.

Lemma outside_Z_false low high v : outside_Z low high v = false <-> (low <= v <= high)%Z.
Proof. unfold outside_Z. rewrite orb_false_iff, !Z.ltb_ge. lia. Qed.

Lemma outside_N_false low high v : outside_N low high v = false <-> (low <= v <= high)%N.
Proof. unfold outside_N. rewrite orb_false_iff, !N.ltb_ge. lia. Qed.

Lemma validateLoopbackAddress_ok name value : validateLoopbackAddress name value = Ok tt <-> loopback value.
Proof.
  unfold validateLoopbackAddress, loopback. destruct (SplitHostPort value) as [[host port]|]; [|naive_solver].
  rewrite rbind_tt, guard_ok, bool_decide_eq_false. destruct (ParseIP host) as [ip|] eqn:E.
  - rewrite guard_ok, negb_false_iff. naive_solver.
  - naive_solver.
Qed.

Lemma absolute_paths_ok l : absolute_paths l = Ok tt <-> forall kv, kv ∈ l -> kv.2 = "" \/ absolute kv.2.
Proof.
  induction l as [|[name value] l IH]; cbn [absolute_paths]; [set_solver|].
  rewrite rbind_tt, guard_ok, andb_false_iff, !negb_false_iff, bool_decide_eq_true, IH. unfold absolute. split.
  - intros [Hv Hl] kv [->|Hin]%elem_of_cons; [done|by apply Hl].
  - intros Hl. split; [apply (Hl (name, value)); left|intros kv Hin; apply Hl; by right].
Qed.

Section checks.
Context `{UrlParser} `{Zones} `{MapRange} `{!MapRangeLaws}.

Lemma validateServer_ok c : validateServer c = Ok tt <-> exists u, server_ok c u.
Proof.
  unfold validateServer. destruct (parse_url _) as [u|] eqn:Eu.
  - rewrite !rbind_tt, !guard_ok, orb_false_iff, !negb_false_iff, bool_decide_eq_false, !bool_decide_eq_true.
    assert ((exists v, server_ok c v) <-> server_ok c u) as ->.
    { split; [|by exists u]. intros [v Hv]. pose proof (so_parsed c v Hv) as Ev. rewrite Eu in Ev. by injection Ev as ->. }
    split.
    + intros (H1' & H2' & H3' & H4'). split; try done; [by destruct (u_user u)|].
      case_bool_decide; [by left|]. case_bool_decide; [|done]. right. apply guard_ok, negb_false_iff in H4'. done.
    + intros [_ H1' H2' H3' H4']. split; [done|]. split; [done|]. split; [by rewrite H3'|].
      destruct H4' as [->|[-> ->]]; done.
  - split; [done|]. intros [u [Hu]]. congruence.
Qed.

Lemma validateXray_ok x : validateXray x = Ok tt <-> xray_ok x.
Proof.
  unfold validateXray. rewrite !rbind_tt, guard_ok, absolute_paths_ok.
  assert ((forall kv, kv ∈ range [("xray.binaryPath", xc_binary x); ("xray.configPath", xc_config x); ("xray.pidFile", xc_pid x)] ->
    kv.2 = "" \/ absolute kv.2) <-> forall p, p ∈ [xc_binary x; xc_config x; xc_pid x] -> p = "" \/ absolute p) as ->.
  { setoid_rewrite range_perm. split.
    - intros Hl p Hp. set_unfold in Hp. destruct Hp as [->|[->|[->|[]]]];
        [apply (Hl ("xray.binaryPath", xc_binary x))|apply (Hl ("xray.configPath", xc_config x))|apply (Hl ("xray.pidFile", xc_pid x))]; set_solver.
    - intros Hl kv Hkv. apply Hl. set_unfold in Hkv. destruct Hkv as [->|[->|[->|[]]]]; set_solver. }
  rewrite andb_false_iff, !negb_false_iff, !bool_decide_eq_true. unfold default. split.
  - intros (Hm & Hp & Hmode). split; [|done]. unfold observing, managing.
    destruct (decide (xc_mode x = "")) as [E|E]; [by left; left|]. rewrite (bool_decide_false (xc_mode x = "")) in Hm, Hmode by done.
    destruct Hm as [Hm|Hm]; [by left; right|right].
    rewrite bool_decide_true in Hmode by done. rewrite rbind_tt, !guard_ok, orb_false_iff, !negb_false_iff, bool_decide_eq_false, !bool_decide_eq_true in Hmode.
    tauto.
  - intros [Hm Hp]. split; [|split; [done|]].
    + destruct Hm as [[->| ->]|[-> _]]; [by left|by left|by right].
    + destruct Hm as [[->| ->]|(-> & H1' & H2' & H3')]; [done|done|].
      rewrite bool_decide_true by done. rewrite rbind_tt, !guard_ok, orb_false_iff, !negb_false_iff, bool_decide_eq_false, !bool_decide_eq_true. done.
Qed.

Lemma validateTelemetry_ok t : validateTelemetry t = Ok tt <-> telemetry_ok t.
Proof.
  unfold validateTelemetry. rewrite !rbind_tt, !guard_ok, !validateLoopbackAddress_ok, !outside_Z_false, !outside_N_false.
  rewrite orb_false_iff, !negb_false_iff. split; [|intros []; tauto]. intros (? & ? & ? & ? & ? & ? & ? & ? & ?). by split.
Qed.

Lemma Validate_ok c : Validate c = Ok tt <-> config_ok c.
Proof.
  unfold Validate. rewrite !rbind_tt, !guard_ok, validateServer_ok, validateXray_ok, andb_false_iff, !negb_false_iff, bool_decide_eq_true.
  assert ((if TelemetryEnabled c then validateTelemetry (normalizeTelemetry (cf_state c) (cf_telemetry c)) else Ok tt) = Ok tt <->
    (TelemetryEnabled c = true -> telemetry_ok (normalizeTelemetry (cf_state c) (cf_telemetry c)))) as ->.
  { rewrite <- validateTelemetry_ok. by destruct (TelemetryEnabled c); naive_solver. }
  split; [intros (? & ? & ? & ? & ?); by split|intros []; tauto].
Qed.

(** C38: the checks accept exactly the configurations that meet the
    specification: an https server (http on request) without credentials, query
    or fragment, an absolute state directory, the paths of the Xray mode
    absolute and only those that the mode uses, and, when telemetry is enabled,
    absolute files, a known time zone, loopback addresses and numbers within
    their bounds, all after the defaults. *)
Theorem Validate_exact c : Validate c = Ok tt <-> config_ok c.
Proof. apply Validate_ok. Qed.
End checks.

(** ** Encoding and decoding *)

Section members.
Context {T : Type} (strict : bool) (fs : list (string * setter T)).

Lemma set_omit_int k v (upd : Z -> T -> T) t l :
  field_for fs k = Some (fld dec_int upd) -> is_i64 v -> upd 0%Z t = t ->
  set_members strict fs (omit_int k v ++ l) t = set_members strict fs l (upd v t).
Proof. intros Hf Hv Hu. unfold omit_int. case_bool_decide as E; simpl; [by rewrite E, Hu|]. by rewrite Hf, fld_int. Qed.

Lemma set_omit_uint k v (upd : N -> T -> T) t l :
  field_for fs k = Some (fld (dec_uint 64) upd) -> (v < 2 ^ 64)%N -> upd 0%N t = t ->
  set_members strict fs (omit_uint k v ++ l) t = set_members strict fs l (upd v t).
Proof. intros Hf Hv Hu. unfold omit_uint. case_bool_decide as E; simpl; [by rewrite E, Hu|]. by rewrite Hf, fld_uint. Qed.

Lemma set_omit_bool k v (upd : option bool -> T -> T) t l :
  field_for fs k = Some (ptr dec_bool upd) -> upd None t = t ->
  set_members strict fs (omit_bool k v ++ l) t = set_members strict fs l (upd v t).
Proof. intros Hf Hu. destruct v as [b|]; simpl; [|by rewrite Hu]. rewrite Hf. by destruct b. Qed.
End members.

Lemma omit_int_ok k v : is_ascii k = true -> Forall member_ok (omit_int k v).
Proof. intros Hk. unfold omit_int. case_bool_decide; constructor; [|done]. split; [done|apply jv_int]. Qed.

Lemma omit_uint_ok k v : is_ascii k = true -> Forall member_ok (omit_uint k v).
Proof. intros Hk. unfold omit_uint. case_bool_decide; constructor; [|done]. split; [done|apply jv_uint]. Qed.

Lemma omit_bool_ok k v : is_ascii k = true -> Forall member_ok (omit_bool k v).
Proof. intros Hk. destruct v as [b|]; [|constructor]. constructor; [|done]. split; [done|]. apply (jv_bool b). Qed.

(** A configuration JSON can carry. *)
Definition xray_texts (x : XrayConfig) : Prop :=
  ValidString (xc_mode x) = true /\ ValidString (xc_binary x) = true /\ ValidString (xc_config x) = true /\ ValidString (xc_pid x) = true.

Definition update_texts (u : UpdateConfig) : Prop := ValidString (uc_key u) = true /\ ValidString (uc_assets u) = true.

Definition telemetry_values (t : TelemetryConfig) : Prop :=
  (ValidString (tl_access t) = true /\ ValidString (tl_spool t) = true /\ ValidString (tl_route t) = true /\
   ValidString (tl_api t) = true /\ ValidString (tl_zone t) = true) /\
  (is_i64 (tl_poll t) /\ is_i64 (tl_sample t) /\ is_i64 (tl_heartbeat t)) /\ (tl_bytes t < 2 ^ 64)%N /\ (tl_events t < 2 ^ 64)%N.

Definition encodable (c : Config) : Prop :=
  (ValidString (cf_server c) = true /\ ValidString (cf_state c) = true /\ ValidString (cf_cert c) = true) /\
  xray_texts (cf_xray c) /\ update_texts (cf_update c) /\ telemetry_values (cf_telemetry c).

Lemma xray_members_ok x : Forall member_ok (xray_members x).
Proof. unfold xray_members. members_ok. Qed.

Lemma update_members_ok u : Forall member_ok (update_members u).
Proof. unfold update_members. members_ok. Qed.

Lemma telemetry_members_ok t : Forall member_ok (telemetry_members t).
Proof.
  unfold telemetry_members.
  repeat first [apply Forall_app_2 | apply omit_int_ok; reflexivity | apply omit_uint_ok; reflexivity
               | apply omit_bool_ok; reflexivity | apply opt_member_ok; reflexivity].
Qed.

Lemma config_members_ok c : Forall member_ok (config_members c).
Proof.
  unfold config_members. members_ok; try (split; [reflexivity|]; cbn [snd]).
  - apply (jv_bool (cf_insecure c)).
  - apply jv_obj_indent, xray_members_ok.
  - apply jv_obj_indent, update_members_ok.
  - apply jv_obj_indent, telemetry_members_ok.
Qed.

Lemma set_xray x : xray_texts x -> set_members true xray_fields (xray_members x) zero_xray = Some x.
Proof.
  intros (H1 & H2 & H3 & H4). unfold xray_members.
  erewrite set_opt_member by (reflexivity || done).
  do 3 erewrite set_member by (reflexivity || by apply fld_string). by destruct x.
Qed.

Lemma set_update u : update_texts u -> set_members true update_fields (update_members u) zero_update = Some u.
Proof.
  intros (H1 & H2). unfold update_members. rewrite <- (app_nil_r (opt_member "runtimeAssetsPath" _)).
  do 2 erewrite set_opt_member by (reflexivity || done). by destruct u.
Qed.

(** The struct so far, its fields looked up. *)
Ltac settle :=
  cbn [tl_enabled tl_access tl_spool tl_route tl_api tl_zone tl_poll tl_sample tl_heartbeat tl_bytes tl_events zero_telemetry].

Lemma set_telemetry t : telemetry_values t -> set_members true telemetry_fields (telemetry_members t) zero_telemetry = Some t.
Proof.
  intros ((H1 & H2 & H3 & H4 & H5) & (Z1 & Z2 & Z3) & N1 & N2). unfold telemetry_members.
  rewrite <- (app_nil_r (omit_uint "queueMaxEvents" _)).
  erewrite set_omit_bool by (reflexivity || done). settle.
  do 5 (erewrite set_opt_member by (reflexivity || done); settle).
  do 3 (erewrite set_omit_int by (assumption || reflexivity); settle).
  do 2 (erewrite set_omit_uint by (assumption || reflexivity); settle). by destruct t.
Qed.

Lemma nested_indent {T S} (fs : list (string * setter S)) (get : T -> S) (upd : S -> T -> T) l t s :
  Forall member_ok l -> set_members true fs l (get t) = Some s -> nested fs get upd (obj_indent 1 l) t = Some (upd s t).
Proof. intros Hl Hs. unfold nested. by rewrite decode_obj_indent, Hs. Qed.

Lemma decode_encode_config c : encodable c -> decode_text true config_fields zero_config (encode_config c) = Some c.
Proof.
  intros ((H1 & H2 & H3) & Hx & Hu & Ht). unfold encode_config. rewrite decode_text_indent by apply config_members_ok.
  unfold config_members. cbn [app].
  do 2 erewrite set_member by (reflexivity || by apply fld_string).
  erewrite set_member by (reflexivity || apply (fld_bool _ (cf_insecure c))).
  erewrite set_opt_member by (reflexivity || done).
  erewrite set_member by (reflexivity || by apply nested_indent; [apply xray_members_ok|apply set_xray]).
  erewrite set_member by (reflexivity || by apply nested_indent; [apply update_members_ok|apply set_update]).
  erewrite set_member by (reflexivity || by apply nested_indent; [apply telemetry_members_ok|apply set_telemetry]).
  by destruct c.
Qed.

(** ** Defaults *)

Lemma default_idem v x : default (default v x) x = default v x.
Proof. unfold default. by repeat case_bool_decide. Qed.
Lemma default_Z_idem v x : default_Z (default_Z v x) x = default_Z v x.
Proof. unfold default_Z. by repeat case_bool_decide. Qed.
Lemma default_N_idem v x : default_N (default_N v x) x = default_N v x.
Proof. unfold default_N. by repeat case_bool_decide. Qed.

Lemma normalizeTelemetry_idem d t : normalizeTelemetry d (normalizeTelemetry d t) = normalizeTelemetry d t.
Proof. unfold normalizeTelemetry. cbn. by rewrite !default_idem, !default_Z_idem, !default_N_idem. Qed.

Lemma default_some v x : v <> "" -> default v x = v.
Proof. intros Hv. unfold default. by rewrite bool_decide_false. Qed.

Lemma absolute_some p : absolute p -> p <> "".
Proof. by intros Hp ->. Qed.

Lemma TelemetryEnabled_defaults c : TelemetryEnabled (withDefaults c) = TelemetryEnabled c.
Proof.
  unfold TelemetryEnabled, Managed. simpl. destruct (tl_enabled _); [done|]. unfold default. destruct (bool_decide_reflect (xc_mode (cf_xray c) = "")) as [E|E]; [by rewrite E|done].
Qed.

(** Every field that has a default has a value. *)
Record filled (c : Config) : Prop := Filled {
  fi_state : cf_state c <> "";
  fi_mode : xc_mode (cf_xray c) = XrayModeObserve \/ xc_mode (cf_xray c) = XrayModeManaged;
  fi_assets : absolute (uc_assets (cf_update c));
  fi_telemetry : normalizeTelemetry (cf_state c) (cf_telemetry c) = cf_telemetry c
}.

(** *** What is loaded, field by field *)

(** The value that was given, or the fallback where none was. *)
Definition given_or {A} (unset value fallback loaded : A) : Prop :=
  (value <> unset -> loaded = value) /\ (value = unset -> loaded = fallback).

Record telemetry_loaded (state : string) (t u : TelemetryConfig) : Prop := TelemetryLoaded {
  tu_enabled : tl_enabled u = tl_enabled t;
  tu_access : given_or "" (tl_access t) (Join state "logs/access.log") (tl_access u);
  tu_spool : given_or "" (tl_spool t) (Join state "events.db") (tl_spool u);
  tu_route : given_or "" (tl_route t) "127.0.0.1:8687" (tl_route u);
  tu_api : given_or "" (tl_api t) "127.0.0.1:62789" (tl_api u);
  tu_zone : given_or "" (tl_zone t) "Local" (tl_zone u);
  tu_poll : given_or 0%Z (tl_poll t) 1%Z (tl_poll u);
  tu_sample : given_or 0%Z (tl_sample t) 300%Z (tl_sample u);
  tu_heartbeat : given_or 0%Z (tl_heartbeat t) 300%Z (tl_heartbeat u);
  tu_bytes : given_or 0%N (tl_bytes t) (256 * 1024 * 1024)%N (tl_bytes u);
  tu_events : given_or 0%N (tl_events t) 100000%N (tl_events u)
}.

(** [d] is what the agent works with when [c] was written. *)
Record loaded_as (c d : Config) : Prop := LoadedAs {
  la_server : cf_server d = cf_server c;
  la_state : given_or "" (cf_state c) "/var/lib/xui-agent" (cf_state d);
  la_insecure : cf_insecure d = cf_insecure c;
  la_cert : cf_cert d = cf_cert c;
  la_mode : given_or "" (xc_mode (cf_xray c)) "observe" (xc_mode (cf_xray d));
  la_binary : xc_binary (cf_xray d) = xc_binary (cf_xray c);
  la_config : xc_config (cf_xray d) = xc_config (cf_xray c);
  la_pid : xc_pid (cf_xray d) = xc_pid (cf_xray c);
  la_key : uc_key (cf_update d) = uc_key (cf_update c);
  la_assets : given_or "" (uc_assets (cf_update c)) "/etc/xui-agent/runtime-assets.sha256" (uc_assets (cf_update d));
  la_telemetry : telemetry_loaded (cf_state d) (cf_telemetry c) (cf_telemetry d)
}.

Lemma default_given v x : given_or "" v x (default v x).
Proof. unfold given_or, default. by case_bool_decide. Qed.
Lemma default_Z_given v x : given_or 0%Z v x (default_Z v x).
Proof. unfold given_or, default_Z. by case_bool_decide. Qed.
Lemma default_N_given v x : given_or 0%N v x (default_N v x).
Proof. unfold given_or, default_N. by case_bool_decide. Qed.

Lemma normalizeTelemetry_loaded state t : telemetry_loaded state t (normalizeTelemetry state t).
Proof. split; first [done|apply default_given|apply default_Z_given|apply default_N_given]. Qed.

Lemma withDefaults_loaded c : loaded_as c (withDefaults c).
Proof. split; first [done|apply default_given|apply normalizeTelemetry_loaded]. Qed.

Section defaults.
Context `{UrlParser} `{Zones}.

Lemma xray_ok_defaults x : xray_ok x ->
  xray_ok (MkXray (default (xc_mode x) XrayModeObserve) (xc_binary x) (xc_config x) (xc_pid x)).
Proof.
  intros [Hm Hp]. split; [|done]. destruct Hm as [Hm|Hm]; [left; right|right].
  - simpl. by destruct Hm as [-> | ->].
  - unfold managing in *. simpl. destruct Hm as (-> & ? & ? & ?). done.
Qed.

Lemma config_ok_defaults c : config_ok c -> config_ok (withDefaults c).
Proof.
  intros [[u Hu] Hs Hx Ha Ht]. assert (default (cf_state c) "/var/lib/xui-agent" = cf_state c) as Es by (by apply default_some, absolute_some).
  split.
  - exists u. destruct Hu. by split.
  - simpl. by rewrite Es.
  - by apply xray_ok_defaults.
  - right. simpl. unfold default. case_bool_decide; [done|]. by destruct Ha.
  - rewrite TelemetryEnabled_defaults. simpl. rewrite Es, normalizeTelemetry_idem. exact Ht.
Qed.

Lemma filled_defaults c : config_ok (withDefaults c) -> filled (withDefaults c).
Proof.
  intros [_ Hs [Hm _] Ha _]. split.
  - by apply absolute_some.
  - destruct Hm as [[Hm|Hm]|[Hm _]]; [|by left|by right]. exfalso. simpl in Hm. unfold default in Hm. by case_bool_decide.
  - destruct Ha as [Ha|Ha]; [|done]. exfalso. simpl in Ha. unfold default in Ha. by case_bool_decide.
  - apply normalizeTelemetry_idem.
Qed.
End defaults.

(** ** Files *)

Section files.
Context `{UrlParser} `{Zones} `{MapRange} `{!MapRangeLaws} `{Env}.

Lemma parse_config_ok path raw c : parse_config path raw = Ok c -> config_ok c /\ filled c.
Proof.
  unfold parse_config. destruct (decode_text _ _ _ raw) as [d|]; [|done].
  intros [Hv [= <-]]%rbind_tt. apply Validate_ok in Hv. split; [done|by apply filled_defaults].
Qed.

Definition s_config (path : string) (f : fs) : result Config :=
  match fs_readfile f path with
  | Ok raw => parse_config path raw
  | Err e => Err (errorW ("read config " +:+ path +:+ ": ") e)
  end.

Lemma fwp_LoadConfig w0 path f (Q : result Config -> fs -> Prop) C :
  (~ calm w0 -> C f /\ forall e, Q (Err e) f) -> Q (s_config path f) f -> fwp w0 (LoadConfig path) Q C f.
Proof.
  intros HX HQ. unfold LoadConfig, s_config in *.
  apply fwp_try, fwp_read; [intros Hc; split; [by apply HX|intros m; by apply fwp_ret, HX]|].
  destruct (fs_readfile f path); by apply fwp_ret.
Qed.

(** A configuration that loads meets the specification, has a value in
    every field with a default, and loading has changed nothing. *)
Theorem LoadConfig_valid path w w' c :
  LoadConfig path w = (w', Done (Ok c)) -> config_ok c /\ filled c /\ w_fs w' = w_fs w.
Proof.
  intros E.
  assert (fwp w (LoadConfig path) (fun res g => g = w_fs w /\ forall c, res = Ok c -> config_ok c /\ filled c) (fun _ => True) (w_fs w)) as Hwp.
  { apply fwp_LoadConfig; [by intros _; split; [|intros e; split]|]. split; [done|]. intros d. unfold s_config.
    destruct (fs_readfile _ _); [|done]. apply parse_config_ok. }
  apply fwp_run in Hwp. rewrite E in Hwp. destruct Hwp as [Hf Hc]. destruct (Hc c eq_refl). done.
Qed.

(** A path of one component, and its temporaries. *)
Definition config_place (path : string) (f : fs) : Prop :=
  entry_name path /\ scratch path = false /\ plain_file f path.

Lemma Dir_entry path : entry_name path -> Dir path = ".".
Proof. intros (Hs & _). unfold Dir. by rewrite Split_no_char. Qed.

Lemma config_temp k :
  scratch ("." +:+ "/" +:+ ".config-" +:+ FormatUint k) = true /\ Dir ("." +:+ "/" +:+ ".config-" +:+ FormatUint k) = ".".
Proof.
  split; [done|]. change ("." +:+ "/" +:+ ".config-" +:+ FormatUint k) with ("." +:+ String slash (".config-" +:+ FormatUint k)).
  rewrite Dir_app; [done|]. apply no_char_app. split; [done|apply FormatUint_no_slash].
Qed.

Definition config_kept (path : string) (f g : fs) : Prop := g !! path = f !! path.
Definition config_stored (path : string) (c : Config) (g : fs) : Prop :=
  exists t, g !! path = Some (NFile (encode_config c) 416 t).

(** Nothing is there, or it may be replaced. *)
Definition may_write (path : string) (overwrite : bool) (f : fs) : bool :=
  overwrite || match fs_stat f path with Ok _ => false | Err e => errorsIs e SNotExist end.

Lemma fwp_checkOverwrite w0 path overwrite f (Q : result unit -> fs -> Prop) C :
  (~ calm w0 -> C f /\ forall e, Q (Err e) f) ->
  (may_write path overwrite f = true -> Q (Ok tt) f) -> (may_write path overwrite f = false -> forall e, Q (Err e) f) ->
  fwp w0 (checkOverwrite path overwrite) Q C f.
Proof.
  intros HX HQ HE. unfold checkOverwrite, may_write in *. destruct overwrite; [by apply fwp_ret, HQ|]. cbn [orb] in *.
  apply fwp_bind, fwp_read; [intros Hc; split; [by apply HX|intros m]|].
  - assert (errorsIs (errorsNew m) SNotExist = false) as -> by reflexivity. by apply fwp_ret, HX.
  - destruct (fs_stat f path) as [i|e]; [by apply fwp_ret, HE|]. destruct (errorsIs e SNotExist); apply fwp_ret; [by apply HQ|by apply HE].
Qed.

Lemma fwp_WriteConfig w0 path c overwrite f (Q : result unit -> fs -> Prop) C :
  config_place path f ->
  (forall g, ~ calm w0 -> config_kept path f g \/ Validate c = Ok tt /\ may_write path overwrite f = true /\ config_stored path c g ->
     C g /\ forall e, Q (Err e) g) ->
  (forall e, Validate c <> Ok tt \/ may_write path overwrite f = false -> Q (Err e) f) ->
  (forall g, Validate c = Ok tt -> may_write path overwrite f = true -> config_stored path c g -> Q (Ok tt) g) ->
  fwp w0 (WriteConfig path c overwrite) Q C f.
Proof.
  intros (Hn & Hs & Hpl) HX HE HQ. unfold WriteConfig. destruct (Validate c) as [[]|e] eqn:Ev; [|apply fwp_ret, HE; by left].
  rewrite Dir_entry by done.
  assert (forall g e, ~ calm w0 -> g ≡ f -> C g /\ Q (Err e) g) as HX1.
  { intros g e Hc Hg. destruct (HX g Hc) as [? ?]; [left; by apply fs_equiv_lookup|done]. }
  assert (~ calm w0 -> C f) as HC by (intros Hc; by apply (HX1 f (errorsNew ""))).
  apply fwp_try, fwp_sys; [intros Hc; split; [by apply HC|intros m; by apply fwp_ret, HX1]|]. intros n r.
  change (fs_mkdirall _ f "." 488 (time_at n)) with (f, Ok tt : result unit). cbn [fst snd].
  apply fwp_try, fwp_checkOverwrite; [intros Hc; split; [by apply HC|intros e; by apply fwp_ret, HX1]| |intros Hm e; apply fwp_ret, HE; by right].
  intros Hm. assert (forall g t, g ≡ <[path := NFile (encode_config c) 416 t]> f -> config_stored path c g) as Hst.
  { intros g t Hg. exists t. rewrite (fs_equiv_lookup _ _ _ Hg) by done. apply lookup_insert_eq. }
  apply (fwp_replaceFile w0 True); [done|by apply Dir_entry|done|done|exact config_temp|apply ret_looks|..].
  - intros g Hc Hg. split; [by apply (HX1 g (errorsNew ""))|]. intros e. by apply HX1.
  - intros g t Hc Hg. apply HX; [done|right]. split; [done|]. split; [done|by eapply Hst].
  - intros g t Hg. apply HQ; [done|done|by eapply Hst].
Qed.

(** Writing a configuration is atomic: whatever fails and wherever the
    program is killed, the file is as it was or complete; it is left alone when
    the configuration does not meet the specification, or when something is
    there already and may not be replaced; otherwise, when nothing fails, it is
    written. *)
Theorem WriteConfig_atomic path c overwrite w w' o :
  config_place path (w_fs w) -> WriteConfig path c overwrite w = (w', o) ->
  (config_kept path (w_fs w) (w_fs w') \/
   config_ok c /\ may_write path overwrite (w_fs w) = true /\ config_stored path c (w_fs w')) /\
  (o = Done (Ok tt) -> config_ok c /\ may_write path overwrite (w_fs w) = true /\ config_stored path c (w_fs w')) /\
  (calm w -> config_ok c -> may_write path overwrite (w_fs w) = true -> o = Done (Ok tt)).
Proof.
  intros Hp E. rewrite <- (Validate_ok c).
  set (stored := fun g => Validate c = Ok tt /\ may_write path overwrite (w_fs w) = true /\ config_stored path c g).
  assert (fwp w (WriteConfig path c overwrite)
    (fun res g => (config_kept path (w_fs w) g \/ stored g) /\ (res = Ok tt -> stored g) /\
       (calm w -> Validate c = Ok tt -> may_write path overwrite (w_fs w) = true -> res = Ok tt))
    (fun g => ~ calm w /\ (config_kept path (w_fs w) g \/ stored g)) (w_fs w)) as Hwp.
  { apply fwp_WriteConfig; [done|..].
    - intros g Hc Hg. split; [by split|]. intros e. split; [done|]. by split.
    - intros e Hno. split; [by left|]. split; [done|]. intros _ Hv Hm. destruct Hno as [?|Hno]; [done|congruence].
    - intros g Hv Hm Hg. split; [by right|]. split; [done|]. done. }
  apply fwp_run in Hwp. rewrite E in Hwp. destruct o as [res|].
  - destruct Hwp as (H1' & H2' & H3'). split; [done|]. split; [intros [= ->]; by apply H2'|]. intros Hc Hv Hm. by rewrite H3'.
  - destruct Hwp as [Hc H1']. split; [done|]. split; [done|by intros ?].
Qed.

(** Written by the installer and loaded by the agent. *)
Definition written_and_loaded (path : string) (c : Config) (overwrite : bool) : io (result Config) :=
  try! _ := WriteConfig path c overwrite in LoadConfig path.

(** C21: a configuration that was written is loaded as it was written, field by
    field, whatever fails on the way; only the fields that were left out have
    their documented values. When nothing fails it is written and loaded. *)
Theorem config_roundtrip path c overwrite w :
  config_place path (w_fs w) -> encodable c -> config_ok c -> may_write path overwrite (w_fs w) = true ->
  (forall w' d, written_and_loaded path c overwrite w = (w', Done (Ok d)) -> loaded_as c d) /\
  (calm w -> exists w' d, written_and_loaded path c overwrite w = (w', Done (Ok d)) /\ loaded_as c d).
Proof.
  intros Hp He Hok Hm.
  assert (parse_config path (encode_config c) = Ok (withDefaults c)) as Hparse.
  { unfold parse_config. rewrite decode_encode_config by done. apply rbind_tt. split; [|done].
    by apply Validate_ok, config_ok_defaults. }
  assert (fwp w (written_and_loaded path c overwrite)
    (fun res _ => (exists e, ~ calm w /\ res = Err e) \/ res = Ok (withDefaults c)) (fun _ => ~ calm w) (w_fs w)) as Hwp.
  { apply fwp_try, fwp_WriteConfig; [done|..].
    - intros g Hc _. split; [done|]. intros e. apply fwp_ret. left. by exists e.
    - intros e [Hno|Hno]; [by apply Validate_ok in Hok|congruence].
    - intros g _ _ [t Ht]. apply fwp_LoadConfig; [intros Hc; split; [done|intros e; left; by exists e]|].
      right. unfold s_config. by rewrite (fs_readfile_file _ _ _ _ _ Ht). }
  apply fwp_run in Hwp. split.
  - intros w' d E. rewrite E in Hwp. destruct Hwp as [(e & _ & [=])|[= ->]]. apply withDefaults_loaded.
  - intros Hc. destruct (written_and_loaded path c overwrite w) as [w' [res|]]; [|done].
    destruct Hwp as [(e & Hn & _)| ->]; [done|]. exists w', (withDefaults c). split; [done|apply withDefaults_loaded].
Qed.
End files.

(** ** Witnesses *)

Definition ex_url : UrlParser := {| parse_url := fun _ => Some (Url "https" "panel.example" None "" "" "") |}.
Definition ex_zones : Zones := {| known_zone := fun _ => true |}.
Definition ex_range : MapRange := {| range := fun l => l |}.

Lemma ex_range_laws : @MapRangeLaws ex_range.
Proof. by split. Qed.

Definition ex_config : Config :=
  MkConfig "https://panel.example" "/var/lib/xui-agent" false "" (MkXray "managed" "/usr/bin/xray" "" "") zero_update zero_telemetry.
Definition ex_place : world := World ∅ 0 None.

Lemma ex_config_ok : @config_ok ex_url ex_zones ex_config.
Proof. apply (@Validate_ok ex_url ex_zones ex_range ex_range_laws). vm_compute. reflexivity. Qed.

Lemma ex_config_place : config_place "config.json" (w_fs ex_place).
Proof. split; [by split_and!|by split]. Qed.

Definition ex_roundtrip : world * outcome (result Config) :=
  @written_and_loaded ex_url ex_zones ex_range calm_env "config.json" ex_config false ex_place.

(** A configuration with a pinned certificate and an interval of its own. *)
Definition ex_pinned : Config :=
  MkConfig "https://panel.example" "/srv/agent" false "00112233445566778899aabbccddeeff00112233445566778899aabbccddeeff"
    (MkXray "managed" "/usr/bin/xray" "" "") zero_update (MkTelemetry None "" "" "" "" "" 0 60 0 0 0).

Lemma ex_pinned_ok : @config_ok ex_url ex_zones ex_pinned.
Proof. apply (@Validate_ok ex_url ex_zones ex_range ex_range_laws). vm_compute. reflexivity. Qed.

Definition ex_pinned_run : world * outcome (result Config) :=
  @written_and_loaded ex_url ex_zones ex_range calm_env "config.json" ex_pinned false ex_place.

Lemma config_roundtrip_witness :
  exists w d, ex_pinned_run = (w, Done (Ok d)) /\ loaded_as ex_pinned d.
Proof.
  apply (@config_roundtrip ex_url ex_zones ex_range ex_range_laws calm_env "config.json" ex_pinned false ex_place).
  - exact ex_config_place.
  - split_and!; by vm_compute.
  - exact ex_pinned_ok.
  - vm_compute. reflexivity.
  - apply calm_env_calm.
Defined.

(** The pin and the interval that was given are kept, the other is the default. *)
Example ex_pinned_loaded : exists w d, ex_pinned_run = (w, Done (Ok d)) /\ cf_cert d = cf_cert ex_pinned /\
  tl_sample (cf_telemetry d) = 60%Z /\ tl_heartbeat (cf_telemetry d) = 300%Z /\ tl_access (cf_telemetry d) = "/srv/agent/logs/access.log".
Proof. do 2 eexists. split; [apply run_done; vm_compute; reflexivity|]. by split_and!. Qed.

Lemma Validate_exact_witness : @Validate ex_url ex_zones ex_range ex_config = Ok tt /\ @config_ok ex_url ex_zones ex_config.
Proof.
  assert (@Validate ex_url ex_zones ex_range ex_config = Ok tt) as Hv by (vm_compute; reflexivity).
  split; [exact Hv|]. apply (@Validate_exact ex_url ex_zones ex_range ex_range_laws ex_config). exact Hv.
Defined.

Lemma LoadConfig_valid_witness : @config_ok ex_url ex_zones (withDefaults ex_config) /\ filled (withDefaults ex_config).
Proof.
  split; apply (@LoadConfig_valid ex_url ex_zones ex_range ex_range_laws calm_env "config.json" ex_roundtrip.1
    (@LoadConfig ex_url ex_zones ex_range calm_env "config.json" ex_roundtrip.1).1 (withDefaults ex_config));
    apply run_done; vm_compute; reflexivity.
Defined.

Definition ex_write (E : Env) : world * outcome (result unit) :=
  @WriteConfig ex_url ex_zones ex_range E "config.json" ex_config false ex_place.

Lemma WriteConfig_atomic_witness :
  (ex_write (crash_env 7)).2 = Crashed /\
  (config_kept "config.json" ∅ (w_fs (ex_write (crash_env 7)).1) \/
   @config_ok ex_url ex_zones ex_config /\ may_write "config.json" false ∅ = true /\
   config_stored "config.json" ex_config (w_fs (ex_write (crash_env 7)).1)).
Proof.
  split; [vm_compute; reflexivity|].
  apply (@WriteConfig_atomic ex_url ex_zones ex_range ex_range_laws (crash_env 7) "config.json" ex_config false ex_place
    (ex_write (crash_env 7)).1 (ex_write (crash_env 7)).2); [exact ex_config_place|apply surjective_pairing].
Defined.
