(* ===== verification/Protocol.v ===== *)
(** * The messages of the control session (protocol/v1/types.go)

    The server answers each heartbeat; an answer may carry one command, whose
    result the agent reports.  Messages travel in an envelope. *)

From stdpp Require Import base strings list.
From Stdlib Require Import ZArith NArith Ascii.
From S2P Require Import Prelude.
From S2P Require Import GoStrings.
From S2P Require Import Json.
From S2P Require Import Events.

Definition Version : string := "1".
Definition CapabilityObserve : string := "observe".
Definition CapabilitySelfUpdate : string := "self_update".
Definition CapabilityConfigValidate : string := "config_validate".
Definition CapabilityConfigApply : string := "config_apply".
Definition CapabilityXrayUpdate : string := "xray_update".
Definition CapabilityEventUpload : string := "event_upload".
Definition MessageHelloAck : string := "hello_ack".
Definition MessageHeartbeat : string := "heartbeat".
Definition MessageHeartbeatAck : string := "heartbeat_ack".
Definition MessageCommandResult : string := "command_result".
Definition MessageCommandResultAck : string := "command_result_ack".
Definition MessageProtocolError : string := "error".
Definition CommandAgentUpdate : string := "agent_update".
Definition CommandValidateConfig : string := "validate_config".
Definition CommandApplyConfig : string := "apply_config".
Definition CommandXrayUpdate : string := "xray_update".

(** ** Data *)

Record EnrollRequest : Set := MkEnroll {
  er_token : string;
  er_protocol : string;
  er_version : string;
  er_hostname : string;
  er_os : string;
  er_arch : string;
  er_capabilities : list string
}.

Record EnrollResponse : Set := MkEnrolled { es_node : Z; es_name : string; es_credential : string }.

Record Envelope : Set := MkEnvelope {
  en_version : string;
  en_type : string;
  en_id : string;
  en_sent : Z;
  en_payload : string
}.

Record HelloAck : Set := MkHello { ha_session : string; ha_interval : Z; ha_time : Z }.

Record Command : Set := MkCommand {
  cm_id : string;
  cm_type : string;
  cm_issued : Z;
  cm_expires : Z;
  cm_payload : string
}.

Record HeartbeatAck : Set := MkAck { ak_message : string; ak_time : Z; ak_command : option Command }.

(** AgentUpdateCommand and XrayUpdateCommand *)
Record VersionCommand : Set := MkVersionCommand { vc_version : string }.

(** ValidateConfigCommand and ApplyConfigCommand *)
Record ConfigCommand : Set := MkConfigCommand { cc_version : N; cc_digest : string; cc_config : string }.

Record CommandResult : Set := MkCommandResult {
  cr_command : string;
  cr_success : bool;
  cr_status : string;
  cr_version : string;
  cr_config : N;
  cr_digest : string;
  cr_error : string;
  cr_code : string;
  cr_recovery : string
}.

Record ProtocolError : Set := MkProtocolError { pe_code : string; pe_message : string }.

(** ** Decoding *)

Definition enrolled_fields : list (string * setter EnrollResponse) :=
  [("nodeId", fld dec_int (fun v r => MkEnrolled v (es_name r) (es_credential r)));
   ("nodeName", fld dec_string (fun v r => MkEnrolled (es_node r) v (es_credential r)));
   ("credential", fld dec_string (fun v r => MkEnrolled (es_node r) (es_name r) v))].

Definition error_fields : list (string * setter string) := [("error", fld dec_string (fun v _ => v))].

Definition envelope_fields : list (string * setter Envelope) :=
  [("version", fld dec_string (fun v e => MkEnvelope v (en_type e) (en_id e) (en_sent e) (en_payload e)));
   ("type", fld dec_string (fun v e => MkEnvelope (en_version e) v (en_id e) (en_sent e) (en_payload e)));
   ("id", fld dec_string (fun v e => MkEnvelope (en_version e) (en_type e) v (en_sent e) (en_payload e)));
   ("sentAt", fld dec_int (fun v e => MkEnvelope (en_version e) (en_type e) (en_id e) v (en_payload e)));
   ("payload", raw_fld (fun v e => MkEnvelope (en_version e) (en_type e) (en_id e) (en_sent e) v))].

Definition zero_envelope : Envelope := MkEnvelope "" "" "" 0 "".

Definition hello_fields : list (string * setter HelloAck) :=
  [("sessionId", fld dec_string (fun v h => MkHello v (ha_interval h) (ha_time h)));
   ("heartbeatIntervalSeconds", fld dec_int (fun v h => MkHello (ha_session h) v (ha_time h)));
   ("serverTime", fld dec_int (fun v h => MkHello (ha_session h) (ha_interval h) v))].

Definition command_fields : list (string * setter Command) :=
  [("id", fld dec_string (fun v c => MkCommand v (cm_type c) (cm_issued c) (cm_expires c) (cm_payload c)));
   ("type", fld dec_string (fun v c => MkCommand (cm_id c) v (cm_issued c) (cm_expires c) (cm_payload c)));
   ("issuedAt", fld dec_int (fun v c => MkCommand (cm_id c) (cm_type c) v (cm_expires c) (cm_payload c)));
   ("expiresAt", fld dec_int (fun v c => MkCommand (cm_id c) (cm_type c) (cm_issued c) v (cm_payload c)));
   ("payload", raw_fld (fun v c => MkCommand (cm_id c) (cm_type c) (cm_issued c) (cm_expires c) v))].

Definition zero_command : Command := MkCommand "" "" 0 0 "".

(** A pointer to a struct: null is nil, an object fills the struct it points to. *)
Definition set_command (raw : string) (a : HeartbeatAck) : option HeartbeatAck :=
  if is_null raw then Some (MkAck (ak_message a) (ak_time a) None)
  else (fun c => MkAck (ak_message a) (ak_time a) (Some c)) <$> decode_obj false command_fields (default zero_command (ak_command a)) raw.

Definition ack_fields : list (string * setter HeartbeatAck) :=
  [("messageId", fld dec_string (fun v a => MkAck v (ak_time a) (ak_command a)));
   ("serverTime", fld dec_int (fun v a => MkAck (ak_message a) v (ak_command a)));
   ("command", set_command)].

Definition version_fields : list (string * setter VersionCommand) := [("version", fld dec_string (fun v _ => MkVersionCommand v))].

Definition config_command_fields : list (string * setter ConfigCommand) :=
  [("configVersion", fld (dec_uint 64) (fun v c => MkConfigCommand v (cc_digest c) (cc_config c)));
   ("configDigest", fld dec_string (fun v c => MkConfigCommand (cc_version c) v (cc_config c)));
   ("config", raw_fld (fun v c => MkConfigCommand (cc_version c) (cc_digest c) v))].

Definition protocol_error_fields : list (string * setter ProtocolError) :=
  [("code", fld dec_string (fun v e => MkProtocolError v (pe_message e)));
   ("message", fld dec_string (fun v e => MkProtocolError (pe_code e) v))].

Definition result_ack_fields : list (string * setter string) := [("commandId", fld dec_string (fun v _ => v))].

(** conn.ReadJSON: the first value of a message; what follows it is ignored. *)
Definition ReadEnvelope (message : string) : option Envelope :=
  match first_text message with
  | Some (raw, _) => decode_obj false envelope_fields zero_envelope raw
  | None => None
  end.

Definition DecodePayload {T} (fields : list (string * setter T)) (zero : T) (e : Envelope) : result T :=
  match decode_text false fields zero (en_payload e) with
  | Some p => Ok p
  | None => Err (errorsNew ("decode " +:+ en_type e +:+ " payload"))
  end.

Definition DecodeCommandPayload {T} (fields : list (string * setter T)) (zero : T) (c : Command) : result T :=
  match decode_text false fields zero (cm_payload c) with
  | Some p => Ok p
  | None => Err (errorsNew ("decode " +:+ cm_type c +:+ " command payload"))
  end.

Definition decode_version (c : Command) : result VersionCommand := DecodeCommandPayload version_fields (MkVersionCommand "") c.
Definition decode_config (c : Command) : result ConfigCommand := DecodeCommandPayload config_command_fields (MkConfigCommand 0 "" "") c.

(** ** Encoding *)

Definition enroll_members (r : EnrollRequest) : list (string * string) :=
  [("token", quote (er_token r)); ("protocolVersion", quote (er_protocol r)); ("agentVersion", quote (er_version r));
   ("hostname", quote (er_hostname r)); ("os", quote (er_os r)); ("arch", quote (er_arch r));
   ("capabilities", arr (quote <$> er_capabilities r))].

Definition bool_value (b : bool) : string := if b then "true" else "false".

Definition command_result_members (r : CommandResult) : list (string * string) :=
  [("commandId", quote (cr_command r)); ("success", bool_value (cr_success r)); ("status", quote (cr_status r))]
  ++ opt_member "version" (cr_version r)
  ++ (if bool_decide (cr_config r = 0%N) then [] else [("configVersion", FormatUint (cr_config r))])
  ++ opt_member "configDigest" (cr_digest r) ++ opt_member "error" (cr_error r)
  ++ opt_member "errorCode" (cr_code r) ++ opt_member "recoveryStatus" (cr_recovery r).

(** NewEnvelope, the payload marshalled; the time in nanoseconds *)
Definition NewEnvelope (messageType id payload : string) (now : Z) : Envelope :=
  MkEnvelope Version messageType id (now / 1000000) payload.

Definition envelope_members (e : Envelope) : list (string * string) :=
  [("version", quote (en_version e)); ("type", quote (en_type e)); ("id", quote (en_id e)); ("sentAt", FormatInt (en_sent e))]
  ++ (if bool_decide (en_payload e = "") then [] else [("payload", en_payload e)]).

(** NewCommand, the payload marshalled; the times in seconds *)
Definition NewCommand (id commandType payload : string) (issuedAt expiresAt : Z) : Command :=
  MkCommand id commandType issuedAt expiresAt payload.

Definition version_members (v : VersionCommand) : list (string * string) := [("version", quote (vc_version v))].

(** conn.WriteJSON *)
Definition WriteEnvelope (e : Envelope) : string := obj (envelope_members e) +:+ nl.

(** ** Round trips *)

Definition result_fields : list (string * setter CommandResult) :=
  [("commandId", fld dec_string (fun v r => MkCommandResult v (cr_success r) (cr_status r) (cr_version r) (cr_config r) (cr_digest r) (cr_error r) (cr_code r) (cr_recovery r)));
   ("success", fld dec_bool (fun v r => MkCommandResult (cr_command r) v (cr_status r) (cr_version r) (cr_config r) (cr_digest r) (cr_error r) (cr_code r) (cr_recovery r)));
   ("status", fld dec_string (fun v r => MkCommandResult (cr_command r) (cr_success r) v (cr_version r) (cr_config r) (cr_digest r) (cr_error r) (cr_code r) (cr_recovery r)));
   ("version", fld dec_string (fun v r => MkCommandResult (cr_command r) (cr_success r) (cr_status r) v (cr_config r) (cr_digest r) (cr_error r) (cr_code r) (cr_recovery r)));
   ("configVersion", fld (dec_uint 64) (fun v r => MkCommandResult (cr_command r) (cr_success r) (cr_status r) (cr_version r) v (cr_digest r) (cr_error r) (cr_code r) (cr_recovery r)));
   ("configDigest", fld dec_string (fun v r => MkCommandResult (cr_command r) (cr_success r) (cr_status r) (cr_version r) (cr_config r) v (cr_error r) (cr_code r) (cr_recovery r)));
   ("error", fld dec_string (fun v r => MkCommandResult (cr_command r) (cr_success r) (cr_status r) (cr_version r) (cr_config r) (cr_digest r) v (cr_code r) (cr_recovery r)));
   ("errorCode", fld dec_string (fun v r => MkCommandResult (cr_command r) (cr_success r) (cr_status r) (cr_version r) (cr_config r) (cr_digest r) (cr_error r) v (cr_recovery r)));
   ("recoveryStatus", fld dec_string (fun v r => MkCommandResult (cr_command r) (cr_success r) (cr_status r) (cr_version r) (cr_config r) (cr_digest r) (cr_error r) (cr_code r) v))].

Definition zero_result : CommandResult := MkCommandResult "" false "" "" 0 "" "" "" "".

Definition texts_ok (r : CommandResult) : Prop :=
  Forall (fun s => ValidString s = true) [cr_command r; cr_status r; cr_version r; cr_digest r; cr_error r; cr_code r; cr_recovery r] /\
  (cr_config r < 2 ^ 64)%N.

Lemma command_result_members_ok r : Forall member_ok (command_result_members r).
Proof.
  unfold command_result_members. members_ok; try (split; [reflexivity|]; cbn [snd]).
  - apply (jv_bool (cr_success r)).
  - case_bool_decide; [constructor|]. constructor; [|constructor]. split; [reflexivity|apply jv_uint].
Qed.

Lemma set_command_result r : texts_ok r -> set_members false result_fields (command_result_members r) zero_result = Some r.
Proof.
  intros [Ht Hn]. rewrite !Forall_cons in Ht. destruct Ht as (H1 & H2 & H3 & H4 & H5 & H6 & H7 & _).
  unfold command_result_members. cbn [app].
  erewrite set_member by (reflexivity || by apply fld_string).
  erewrite set_member by (reflexivity || apply (fld_bool _ (cr_success r))).
  erewrite set_member by (reflexivity || by apply fld_string).
  erewrite set_opt_member by (reflexivity || done).
  destruct r as [c s st v n d e k rc]. simpl in *.
  destruct (bool_decide_reflect (n = 0%N)) as [->|Hn0]; cbn [app].
  - rewrite <- (app_nil_r (opt_member "recoveryStatus" _)). do 4 erewrite set_opt_member by (reflexivity || done). done.
  - erewrite set_member by (reflexivity || by apply fld_uint).
    rewrite <- (app_nil_r (opt_member "recoveryStatus" _)). do 4 erewrite set_opt_member by (reflexivity || done). done.
Qed.
