(* ===== verification/Client.v ===== *)
(** * The agent's control client (internal/agent/client.go)

    It owns the managers: it recovers them at the start, loads or obtains the
    node's identity, holds the session with the server, and executes the
    commands the server sends.  The connection is a script of what the other
    side does; the content of a heartbeat and the texts of network errors are
    parameters. *)

From stdpp Require Import base gmap strings list fin_maps.
From Stdlib Require Import ZArith NArith Ascii.
From S2P Require Import Prelude.
From S2P Require Import GoStrings.
From S2P Require Import Sha256.
From S2P Require Import Json.
From S2P Require Import Os.
From S2P Require Import AtomicFile.
From S2P Require Import XrayConfig.
From S2P Require Import XrayTypes.
From S2P Require Import XrayRuntime.
From S2P Require Import Manifest.
From S2P Require Import UpdateTypes.
From S2P Require Import XrayUpdate.
From S2P Require Import Release.
From S2P Require Import AgentUpdate.
From S2P Require Import Identity.
From S2P Require Import Config.
From S2P Require Import Protocol.

Definition maxResponseBytes : N := 65536.
Definition updateHealthTimeout : Z := 120000000000.

(** update.ErrRestartRequired *)
Definition ErrRestartRequired : error := MkError "agent restart required to activate the update" [SRestart] None.

(** ** The client *)

Record Client : Type := MkClient {
  ct_cfg : Config.Config;
  ct_version : string;
  ct_updater : AgentUpdate.Manager;
  ct_validator : XrayConfig.Manager;
  ct_applier : option XrayConfig.Manager;
  ct_xray : option XrayUpdate.Manager;
  ct_events : bool
}.

(** *** The server's certificate *)

(** strings.ReplaceAll(s, ":", "") *)
Fixpoint strip_colons (s : string) : string :=
  match s with
  | "" => ""
  | String c r => if bool_decide (c = ":"%char) then strip_colons r else String c (strip_colons r)
  end.

(** The pinned digest, if any. *)
Definition tlsConfigFor (cfg : Config.Config) : result (option string) :=
  let pin := ToLower (strip_colons (TrimSpace (cf_cert cfg))) in
  if bool_decide (pin = "") then Ok None
  else match DecodeString pin with
       | Some want => if bool_decide (slen want = sha256_Size) then Ok (Some want)
                      else Err (errorsNew "serverCertSha256 must be a SHA-256 hex digest")
       | None => Err (errorsNew "serverCertSha256 must be a SHA-256 hex digest")
       end.

(** tls.Config.VerifyConnection, on the raw peer certificates *)
Definition VerifyConnection (pin : option string) (peers : list string) : result unit :=
  match pin with
  | None => Ok tt
  | Some want =>
      match peers with
      | [] => Err (errorsNew "server did not present a certificate")
      | leaf :: _ => guard_err (negb (bool_decide (Sha256.Sum256 leaf = want))) "server certificate fingerprint mismatch"
      end
  end.

(** *** Addresses *)

(** strings.TrimRight(s, "/") and strings.TrimLeft(s, "/") *)
Fixpoint trim_left_slash (s : string) : string :=
  match s with
  | String c r => if bool_decide (c = slash) then trim_left_slash r else s
  | "" => ""
  end.

Fixpoint trim_right_slash (s : string) : string :=
  match s with
  | "" => ""
  | String c r =>
      match trim_right_slash r with
      | "" => if bool_decide (c = slash) then "" else String c ""
      | r' => String c r'
      end
  end.

Definition endpointURL (cfg : Config.Config) (endpoint : string) : string :=
  trim_right_slash (cf_server cfg) +:+ "/" +:+ trim_left_slash endpoint.

(** *** Capabilities *)

Definition when (b : bool) (capability : string) : list string := if b then [capability] else [].

Definition capabilities (c : Client) : list string :=
  [CapabilityObserve]
  ++ when (AgentUpdate.Enabled (ct_updater c)) CapabilitySelfUpdate
  ++ when (XrayConfig.Enabled (ct_validator c)) CapabilityConfigValidate
  ++ when (match ct_applier c with Some m => XrayConfig.Enabled m | None => false end) CapabilityConfigApply
  ++ when (match ct_xray c with Some m => XrayUpdate.Enabled m | None => false end) CapabilityXrayUpdate
  ++ when (ct_events c) CapabilityEventUpload.

(** *** Results *)

Definition failed_result (c : Command) : CommandResult := MkCommandResult (cm_id c) false "failed" "" 0 "" "" "" "".

Definition with_status (status : string) (r : CommandResult) : CommandResult :=
  MkCommandResult (cr_command r) (cr_success r) status (cr_version r) (cr_config r) (cr_digest r) (cr_error r) (cr_code r) (cr_recovery r).
Definition with_version (version : string) (r : CommandResult) : CommandResult :=
  MkCommandResult (cr_command r) (cr_success r) (cr_status r) version (cr_config r) (cr_digest r) (cr_error r) (cr_code r) (cr_recovery r).
Definition with_config (version : N) (digest : string) (r : CommandResult) : CommandResult :=
  MkCommandResult (cr_command r) (cr_success r) (cr_status r) (cr_version r) version digest (cr_error r) (cr_code r) (cr_recovery r).
Definition with_error (message : string) (r : CommandResult) : CommandResult :=
  MkCommandResult (cr_command r) (cr_success r) (cr_status r) (cr_version r) (cr_config r) (cr_digest r) message (cr_code r) (cr_recovery r).
Definition with_class (code recovery : string) (r : CommandResult) : CommandResult :=
  MkCommandResult (cr_command r) (cr_success r) (cr_status r) (cr_version r) (cr_config r) (cr_digest r) (cr_error r) code recovery.
Definition with_success (b : bool) (r : CommandResult) : CommandResult :=
  MkCommandResult (cr_command r) b (cr_status r) (cr_version r) (cr_config r) (cr_digest r) (cr_error r) (cr_code r) (cr_recovery r).

Definition safeUpdateError (e : error) : string :=
  let message := TrimSpace (err_text e) in
  if (512 <? slen message)%N then stake 512 message else message.

Definition rejectedCommandResult (c : Command) (message errorCode : string) : CommandResult :=
  let r := with_class errorCode "" (with_error message (failed_result c)) in
  let echo_config r := match decode_config c with Ok p => with_config (cc_version p) (cc_digest p) r | Err _ => r end in
  if bool_decide (cm_type c = CommandValidateConfig) then
    echo_config (with_status XrayConfig.StatusFailed r)
  else if bool_decide (cm_type c = CommandApplyConfig) then
    echo_config (with_class errorCode XrayTypes.RecoveryStatusNotRequired (with_status StatusApplyFailed r))
  else if bool_decide (cm_type c = CommandXrayUpdate) then
    let r := with_class errorCode UpdateTypes.RecoveryStatusNotRequired (with_status StatusInstallFailed r) in
    match decode_version c with Ok p => with_version (vc_version p) r | Err _ => r end
  else r.

(** What the client asks of its collector: a heartbeat's content, for the agent's
    version, its capabilities and the time.  It only reads. *)
Class Collector : Type := { heartbeat_payload : string -> list string -> Z -> io string }.
Class CollectorLaws `{Collector} : Prop := {
  payload_reads version capabilities now w :
    match heartbeat_payload version capabilities now w with
    | (w', _) => w_fs w' = w_fs w /\ w_run w' = w_run w /\ (w_pc w <= w_pc w')%nat
    end
}.

(** What the servers answer to downloads. *)
Record Downloads : Type := MkDownloads { dl_agent : string -> nat -> exchange; dl_xray : string -> nat -> exchange }.

Section client.
Context `{Env} `{Runner} `{Controller} `{BundleRunner} `{Zip} `{Platform} `{UrlParser} `{Tar} `{Candidate} `{Collector}.

(** rand.Uint64() *)
Definition RandUint64 : io N := fun w => (tick w, Done (rand_at (w_pc w) mod two64)%N).

(** *** NewClient *)

Definition release_base : string := "https://github.com".

Definition NewXrayUpdater (tempDir : string) : result XrayUpdate.Manager :=
  let? cl := NewClient release_base false in Ok (XrayUpdate.MkManager (Some cl) true true tempDir).

Definition assemble (cfg : Config.Config) (version : string) (updater : AgentUpdate.Manager) (tempDir : string) : result Client :=
  let binary := xc_binary (cf_xray cfg) in
  if Managed (cf_xray cfg) then
    let validator := NewManagedManager binary in
    let? xray := NewXrayUpdater tempDir in
    Ok (MkClient cfg version updater validator (Some validator) (Some xray) false)
  else Ok (MkClient cfg version updater (XrayConfig.NewManager binary) None None false).

(** The client, and whether the update it runs from waits for its confirmation. *)
Definition NewAgentClient (cfg : Config.Config) (version tempDir : string) : io (result (Client * bool)) :=
match tlsConfigFor cfg with
| Err e => ret (Err e)
| Ok _ =>
    match AgentUpdate.NewManager (uc_assets (cf_update cfg)) with
    | Err e => ret (Err e)
    | Ok updater =>
        let! pending := AgentUpdate.loadPending in
        match pending with
        | Ok p =>
            if negb (bool_decide (pd_version p = version)) then
              ret (Err (errorsNew ("pending update targets " +:+ quote (pd_version p) +:+ " but running version is " +:+ quote version)))
            else ret (let? c := assemble cfg version updater tempDir in Ok (c, true))
        | Err e =>
            if negb (errorsIs e SNotExist) then ret (Err e)
            else ret (let? c := assemble cfg version updater tempDir in Ok (c, false))
        end
    end
end.

(** *** Commands *)

Definition executeXrayUpdate (c : Client) (dl : Downloads) (cm : Command) (r : CommandResult) : io CommandResult :=
let r := with_status StatusInstallFailed r in
let refuse message := ret (with_class UpdateTypes.ErrorCodePreparationFailed UpdateTypes.RecoveryStatusNotRequired (with_error message r)) in
match ct_xray c with
| None => refuse "managed Xray updates are not configured"
| Some m =>
    if negb (XrayUpdate.Enabled m) then refuse "managed Xray updates are not configured"
    else match decode_version cm with
    | Err _ => refuse "invalid Xray update command"
    | Ok p =>
        let r := with_version (vc_version p) r in
        let! applied := XrayUpdate.Apply m (dl_xray dl) (UpdateTypes.MkRequest (cm_id cm) (vc_version p)) in
        match applied with
        | Err e => let d := UpdateTypes.ErrorDetails e in ret (with_class d.1 d.2 (with_error (safeUpdateError e) r))
        | Ok a =>
            ret (MkCommandResult (cr_command r) (UpdateTypes.Success a) (UpdateTypes.r_status a) (UpdateTypes.r_version a)
                   (cr_config r) (cr_digest r) (UpdateTypes.r_error a) (UpdateTypes.r_code a) (UpdateTypes.r_recovery a))
        end
    end
end.

Definition executeConfigApply (c : Client) (cm : Command) (r : CommandResult) : io CommandResult :=
let r := with_status StatusApplyFailed r in
let refuse message := ret (with_class XrayTypes.ErrorCodePreparationFailed XrayTypes.RecoveryStatusNotRequired (with_error message r)) in
match ct_applier c with
| None => refuse "managed Xray runtime is not configured"
| Some m =>
    if negb (XrayConfig.Enabled m) then refuse "managed Xray runtime is not configured"
    else match decode_config cm with
    | Err _ => refuse "invalid config apply command"
    | Ok p =>
        let r := with_config (cc_version p) (cc_digest p) r in
        let! applied := XrayRuntime.Apply m (XrayTypes.MkRequest (cc_version p) (cc_digest p) (cc_config p)) in
        match applied with
        | Err e => let d := XrayTypes.ErrorDetails e in ret (with_class d.1 d.2 (with_error (safeUpdateError e) r))
        | Ok a =>
            ret (MkCommandResult (cr_command r) (XrayTypes.Success a) (XrayTypes.r_status a) (cr_version r)
                   (XrayTypes.r_version a) (XrayTypes.r_digest a) (XrayTypes.r_error a) (XrayTypes.r_code a) (XrayTypes.r_recovery a))
        end
    end
end.

Definition executeConfigValidation (c : Client) (cm : Command) (r : CommandResult) : io CommandResult :=
let r := with_status XrayConfig.StatusFailed r in
match decode_config cm with
| Err _ => ret (with_error "invalid config validation command" r)
| Ok p =>
    let r := with_config (cc_version p) (cc_digest p) r in
    let! validated := XrayConfig.Validate (ct_validator c) (XrayConfig.MkRequest (cc_version p) (cc_digest p) (cc_config p)) in
    match validated with
    | Err e => ret (with_error (safeUpdateError e) r)
    | Ok v =>
        ret (MkCommandResult (cr_command r) (XrayConfig.Success v) (rs_status v) (cr_version r)
               (rs_version v) (rs_digest v) (rs_error v) (cr_code r) (cr_recovery r))
    end
end.

Definition restarting (version : string) (r : CommandResult) : CommandResult :=
  with_version version (with_status "restarting" (with_success true r)).

(** The download and installation, when this command was not tried before. *)
Definition applyAgentUpdate (c : Client) (dl : Downloads) (cm : Command) (version : string) (r : CommandResult) : io (CommandResult * bool) :=
let! applied := AgentUpdate.Apply (ct_updater c) (dl_agent dl) (AgentUpdate.MkRequest (cm_id cm) version) in
match applied with
| Err e => ret (with_error (safeUpdateError e) r, false)
| Ok v => ret (restarting v r, true)
end.

Definition checkFailedUpdate (c : Client) (dl : Downloads) (cm : Command) (version : string) (r : CommandResult) : io (CommandResult * bool) :=
let! failed := AgentUpdate.loadFailed in
match failed with
| Ok p =>
    if bool_decide (pd_command p = cm_id cm) then
      ret (with_error "the previous update attempt failed health validation and was rolled back" r, false)
    else applyAgentUpdate c dl cm version r
| Err e =>
    if negb (errorsIs e SNotExist) then ret (with_error (safeUpdateError (errorW "read failed update state: " e)) r, false)
    else applyAgentUpdate c dl cm version r
end.

Definition executeAgentUpdate (c : Client) (dl : Downloads) (cm : Command) (r : CommandResult) : io (CommandResult * bool) :=
match decode_version cm with
| Err _ => ret (with_error "invalid update command" r, false)
| Ok payload =>
    let! pending := AgentUpdate.loadPending in
    match pending with
    | Ok p =>
        if bool_decide (pd_command p = cm_id cm) then ret (restarting (pd_version p) r, true)
        else checkFailedUpdate c dl cm (vc_version payload) r
    | Err e =>
        if negb (errorsIs e SNotExist) then ret (with_error (safeUpdateError (errorW "read pending update state: " e)) r, false)
        else checkFailedUpdate c dl cm (vc_version payload) r
    end
end.

(** The clock is in nanoseconds; [int64] additions wrap around. *)
Definition wrap_i64 (z : Z) : Z := int64_of_u64 (u64_of_int64 z).

Definition expired (cm : Command) (now : Z) : bool := (cm_expires cm <=? now)%Z || (wrap_i64 (now + 60) <? cm_issued cm)%Z.

Definition dispatch (c : Client) (dl : Downloads) (cm : Command) (r : CommandResult) : io (CommandResult * bool) :=
let final m := (let! r := m in ret (r, false)) in
if bool_decide (cm_type cm = CommandAgentUpdate) then executeAgentUpdate c dl cm r
else if bool_decide (cm_type cm = CommandValidateConfig) then final (executeConfigValidation c cm r)
else if bool_decide (cm_type cm = CommandApplyConfig) then final (executeConfigApply c cm r)
else if bool_decide (cm_type cm = CommandXrayUpdate) then final (executeXrayUpdate c dl cm r)
else ret (with_error "unsupported command" r, false).

Definition executeCommand (c : Client) (dl : Downloads) (cm : Command) : io (CommandResult * bool) :=
let r := failed_result cm in
if bool_decide (cm_id cm = "") then ret (with_error "unsupported command" r, false)
else
  let! now := Now in
  if expired cm (now / 1000000000) then
    ret (rejectedCommandResult cm "command is expired or not yet valid" "command_expired", false)
  else dispatch c dl cm r.

(** ** The session

    What the other side does in one turn: the fate of the heartbeat and of the
    command's result on the connection (deadlines included), the two answers,
    and whether the session is cancelled while the agent waits. *)

Record turn : Type := MkTurn {
  tn_write : result unit;
  tn_reply : result string;
  tn_result_write : result unit;
  tn_result_reply : result string;
  tn_cancelled : bool
}.

(** Whether the update still waits for its confirmation, whether a heartbeat was
    acknowledged, and what was sent. *)
Record session : Type := MkSession { ss_pending : bool; ss_stable : bool; ss_sent : list string }.

Definition sends (text : string) (s : session) : session := MkSession (ss_pending s) (ss_stable s) (ss_sent s ++ [text]).

Definition message_id : io (Z * string) :=
let! now := Now in
let! r := RandUint64 in
ret (now, FormatInt (now / 1000000) +:+ "-" +:+ FormatUint r).

(** The id of the heartbeat and its text. *)
Definition heartbeat (c : Client) : io (string * string) :=
let! sent := message_id in
let! payload := heartbeat_payload (ct_version c) (capabilities c) sent.1 in
ret (sent.2, WriteEnvelope (NewEnvelope MessageHeartbeat sent.2 payload sent.1)).

(** conn.ReadJSON *)
Definition read_envelope (reply : result string) : result Envelope :=
let? message := reply in
match ReadEnvelope message with
| Some e => Ok e
| None => Err (errorsNew "message is not JSON")
end.

Definition zero_ack : HeartbeatAck := MkAck "" 0 None.

(** The answer to the heartbeat [id]: the command it carries. *)
Definition checkAck (id : string) (reply : result string) : result (option Command) :=
let? e := read_envelope reply in
let? _ := guard_err (negb (bool_decide (en_version e = Version))) "received incompatible protocol version" in
if bool_decide (en_type e = MessageProtocolError) then
  let? failure := DecodePayload protocol_error_fields (MkProtocolError "" "") e in
  Err (errorsNew ("server rejected heartbeat: " +:+ pe_code failure +:+ ": " +:+ pe_message failure))
else
  let? _ := guard_err (negb (bool_decide (en_type e = MessageHeartbeatAck))) ("unexpected server message " +:+ quote (en_type e)) in
  let? ack := DecodePayload ack_fields zero_ack e in
  let? _ := guard_err (negb (bool_decide (ak_message ack = id))) "heartbeat acknowledgement does not match the sent message" in
  Ok (ak_command ack).

Definition checkResultAck (command : string) (reply : result string) : result unit :=
match read_envelope reply with
| Err e => Err (errorW "read command result acknowledgement: " e)
| Ok e =>
    let? _ := guard_err (negb (bool_decide (en_version e = Version)) || negb (bool_decide (en_type e = MessageCommandResultAck)))
                "server returned an invalid command result acknowledgement" in
    let? acknowledged := DecodePayload result_ack_fields "" e in
    guard_err (negb (bool_decide (acknowledged = command))) "command result acknowledgement does not match the command"
end.

Definition result_text (r : CommandResult) (id : string) (now : Z) : string :=
WriteEnvelope (NewEnvelope MessageCommandResult id (obj (command_result_members r)) now).

Definition writeCommandResult (t : turn) (r : CommandResult) (s : session) : io (session * result unit) :=
let! sent := message_id in
match tn_result_write t with
| Err e => ret (s, Err e)
| Ok _ => ret (sends (result_text r sent.2 sent.1) s, checkResultAck (cr_command r) (tn_result_reply t))
end.

(** The end of a turn: the wait for the next heartbeat, or the end of the session. *)
Definition wait (t : turn) (s : session) : session * option (result unit) :=
(s, if tn_cancelled t then Some (Ok tt) else None).

Definition run_command (c : Client) (dl : Downloads) (t : turn) (command : option Command) (s : session) : io (session * option (result unit)) :=
match command with
| None => ret (wait t s)
| Some cm =>
    let! executed := executeCommand c dl cm in
    let! written := writeCommandResult t executed.1 s in
    match written.2 with
    | Err e => ret (written.1, Some (Err e))
    | Ok _ => if executed.2 then ret (written.1, Some (Err ErrRestartRequired)) else ret (wait t written.1)
    end
end.

(** The update that runs is healthy. *)
Definition confirm (c : Client) (s : session) : io (session * result unit) :=
if ss_pending s then
  let! confirmed := AgentUpdate.Confirm (ct_version c) in
  match confirmed with
  | Err e => ret (s, Err (errorW "confirm updated agent health: " e))
  | Ok _ => ret (MkSession false (ss_stable s) (ss_sent s), Ok tt)
  end
else ret (s, Ok tt).

Definition session_turn (c : Client) (dl : Downloads) (t : turn) (s : session) : io (session * option (result unit)) :=
let! sent := heartbeat c in
match tn_write t with
| Err e => ret (s, Some (Err e))
| Ok _ =>
    let s := sends sent.2 s in
    match checkAck sent.1 (tn_reply t) with
    | Err e => ret (s, Some (Err e))
    | Ok command =>
        let! confirmed := confirm c s in
        match confirmed.2 with
        | Err e => ret (confirmed.1, Some (Err e))
        | Ok _ => run_command c dl t command (MkSession (ss_pending confirmed.1) true (ss_sent confirmed.1))
        end
    end
end.

Fixpoint turns (c : Client) (dl : Downloads) (l : list turn) (s : session) : io (session * result unit) :=
match l with
| [] => ret (s, Err (errorsNew "connection closed"))
| t :: rest =>
    let! after := session_turn c dl t s in
    match after.2 with
    | Some r => ret (after.1, r)
    | None => turns c dl rest after.1
    end
end.

(** The connection, the server's first message and its turns. *)
Record connection : Type := MkConnection { cn_dial : result unit; cn_hello : result string; cn_turns : list turn }.

Definition checkHello (reply : result string) : result HelloAck :=
match read_envelope reply with
| Err e => Err (errorW "read hello: " e)
| Ok e =>
    let? _ := guard_err (negb (bool_decide (en_version e = Version)) || negb (bool_decide (en_type e = MessageHelloAck)))
                "server returned an incompatible hello" in
    let? hello := DecodePayload hello_fields (MkHello "" 0 0) e in
    let period := wrap_i64 (ha_interval hello * 1000000000) in
    let? _ := guard_err ((period <? 5000000000)%Z || (300000000000 <? period)%Z) "server returned an invalid heartbeat interval" in
    Ok hello
end.

Definition runSession (c : Client) (dl : Downloads) (cn : connection) (pending : bool) : io (session * result unit) :=
let s := MkSession pending false [] in
match cn_dial cn with
| Err e => ret (s, Err (errorW "connect websocket: " e))
| Ok _ =>
    match checkHello (cn_hello cn) with
    | Err e => ret (s, Err e)
    | Ok _ => turns c dl (cn_turns cn) s
    end
end.

(** ** Enrolment and start *)

(** An HTTP exchange of the enrolment: the status and the body, and whether it
    could be read to its end. *)
Record answer : Type := MkAnswer { an_status : Z; an_body : string; an_fail : option error }.

(** http.StatusText *)
Context (StatusText : Z -> string).
(** os.Hostname *)
Context (hostname : string).

Definition enroll_request (c : Client) (token : string) : string :=
obj (enroll_members (MkEnroll token Version (ct_version c) hostname GOOS GOARCH (capabilities c))).

(** io.ReadAll(io.LimitReader(body, limit+1)) *)
Definition limited_body (a : answer) : result string :=
if (slen (an_body a) <? maxResponseBytes + 1)%N
then match an_fail a with Some e => Err (errorW "read enroll response: " e) | None => Ok (an_body a) end
else Err (errorsNew "enroll response is too large").

Definition enroll_answer (a : answer) : result Identity :=
let? body := limited_body a in
if negb (bool_decide (an_status a = 201%Z)) then
  let failure := from_option id "" (decode_text false error_fields "" body) in
  Err (errorsNew ("enroll failed: " +:+ (if bool_decide (failure = "") then StatusText (an_status a) else failure)))
else
  match decode_text false enrolled_fields (MkEnrolled 0 "" "") body with
  | None => Err (errorsNew "decode enroll response")
  | Some e => Ok (MkIdentity (es_node e) (es_name e) (es_credential e))
  end.

(** [http url body] is what a POST to [url] ends with. *)
Definition Enroll (c : Client) (http : string -> string -> result answer) (token : string) : io (result Identity) :=
let token := TrimSpace token in
if bool_decide (token = "") then ret (Err (errorsNew "set XUI_AGENT_ENROLLMENT_TOKEN to a one-time enrollment token"))
else match (let? a := http (endpointURL (ct_cfg c) "agent/v1/enroll") (enroll_request c token) in enroll_answer a) with
     | Err e => ret (Err e)
     | Ok i => try! _ := SaveIdentity i in ret (Ok i)
     end.

Definition recoverXray `{Owner} (c : Client) : io (result unit) :=
match ct_xray c with
| Some m => try! r := XrayUpdate.Recover m catch e => ret (Err (errorW "recover managed Xray binary: " e)) in ret (Ok tt)
| None => ret (Ok tt)
end.

Definition recoverConfig (c : Client) : io (result unit) :=
match ct_applier c with
| Some m => try! r := XrayRuntime.Recover m catch e => ret (Err (errorW "recover managed Xray config: " e)) in ret (Ok tt)
| None => ret (Ok tt)
end.

(** The node's identity, obtained with the token of the environment at the first
    start. *)
Definition obtainIdentity (c : Client) (http : string -> string -> result answer) (token : string) : io (result Identity) :=
let! loaded := LoadIdentity in
match loaded with
| Ok i => ret (Ok i)
| Err e =>
    if negb (errorsIs e SNotExist) then ret (Err (errorW "load identity: " e))
    else
      let token := TrimSpace token in
      if bool_decide (token = "") then
        ret (Err (errorsNew "agent is not enrolled; set XUI_AGENT_ENROLLMENT_TOKEN for the first start"))
      else Enroll c http token
end.

Definition start `{Owner} (c : Client) (http : string -> string -> result answer) (token : string) : io (result Identity) :=
try! _ := recoverXray c in
try! _ := recoverConfig c in
obtainIdentity c http token.

(** ** The control loop

    One attempt: whether the agent is cancelled before, after and while it
    waits, whether the event workers have stopped, and the connection. *)

Record attempt : Type := MkAttempt {
  at_cancelled : bool;
  at_events : option (option error);
  at_connection : connection;
  at_downloads : Downloads;
  at_cancelled_after : bool;
  at_cancelled_wait : bool
}.

(** controlFailureReason, the words for errors of the network libraries *)
Context (controlFailureReason : result unit -> string).

(** How the loop goes on after a session: it ends, or waits this long. *)
Definition after_session (c : Client) (a : attempt) (r : result unit) (backoff : Z) : io (option (result unit) * Z) :=
if at_cancelled_after a then ret (Some (Ok tt), 0%Z)
else if match r with Err e => errorsIs e SRestart | Ok _ => false end then ret (Some r, 0%Z)
else
  let! pending := AgentUpdate.loadPending in
  if match pending with Ok p => negb (bool_decide (pd_version p = ct_version c)) | Err _ => false end then
    ret (Some (Err (errorsNew ("updated agent activation was not acknowledged: " +:+ controlFailureReason r))), 0%Z)
  else
    let! n := RandUint64 in
    ret (if at_cancelled_wait a then Some (Ok tt) else None, (backoff + Z.of_N n mod (backoff / 2 + 1))%Z).

Definition before_session (c : Client) (a : attempt) (startedAt now : Z) (pending : bool) : option (result unit) :=
if at_cancelled a then Some (Ok tt)
else match (if ct_events c then at_events a else None) with
     | Some None => Some (Err (errorsNew "event telemetry stopped unexpectedly"))
     | Some (Some e) => Some (Err (errorW "event telemetry stopped: " e))
     | None =>
         if pending && (updateHealthTimeout <=? now - startedAt)%Z then
           Some (Err (errorsNew "updated agent did not establish a healthy control session before the deadline"))
         else None
     end.

Definition next_backoff (backoff : Z) : Z := if (60000000000 <? backoff * 2)%Z then 60000000000%Z else (backoff * 2)%Z.

(** The loop over the attempts: the times waited, and how it ended, if it did. *)
Fixpoint control (c : Client) (startedAt : Z) (l : list attempt) (backoff : Z) (pending : bool) : io (list Z * option (result unit)) :=
match l with
| [] => ret ([], None)
| a :: rest =>
    let! now := Now in
    match before_session c a startedAt now pending with
    | Some r => ret ([], Some r)
    | None =>
        let! ended := runSession c (at_downloads a) (at_connection a) pending in
        let backoff := if ss_stable ended.1 then 1000000000%Z else backoff in
        let! next := after_session c a ended.2 backoff in
        match next.1 with
        | Some r => ret ([], Some r)
        | None =>
            let! more := control c startedAt rest (next_backoff backoff) (ss_pending ended.1) in
            ret (next.2 :: more.1, more.2)
        end
    end
end.

(** The event runtime, once it is created. *)
Definition with_events (c : Client) : Client :=
MkClient (ct_cfg c) (ct_version c) (ct_updater c) (ct_validator c) (ct_applier c) (ct_xray c) true.

(** [telemetry] is what creating the event runtime ends with. *)
Definition Run `{Owner} (c : Client) (http : string -> string -> result answer) (token : string) (telemetry : Identity -> result unit)
  (startedAt : Z) (l : list attempt) (pending : bool) : io (list Z * option (result unit)) :=
let! started := start c http token in
match started with
| Err e => ret ([], Some (Err e))
| Ok id =>
    if TelemetryEnabled (ct_cfg c) then
      match telemetry id with
      | Err e => ret ([], Some (Err (errorW "initialize event telemetry: " e)))
      | Ok _ => control (with_events c) startedAt l 1000000000 pending
      end
    else control c startedAt l 1000000000 pending
end.
End client.
