(* ===== verification/ClientTheorems.v ===== *)
(** * What the control client guarantees

    Its answers to commands, what a session may change and when, the pinned
    certificate, the waits between sessions. *)

From stdpp Require Import base gmap strings list fin_maps relations.
From Stdlib Require Import ZArith NArith Ascii.
From S2P Require Import Prelude.
From S2P Require Import GoStrings.
From S2P Require Import Sha256.
From S2P Require Import Json.
From S2P Require Import Os.
From S2P Require Import AtomicFile.
From S2P Require Import Dirs.
From S2P Require Import FsLogic.
From S2P Require Import XrayConfig.
From S2P Require Import XrayTypes.
From S2P Require Import XrayRuntime.
From S2P Require XrayTheorems.
From S2P Require Import Manifest.
From S2P Require Import Release.
From S2P Require Import UpdateTypes.
From S2P Require Import XrayUpdate.
From S2P Require UpdateTheorems.
From S2P Require Import AgentUpdate.
From S2P Require Import AgentUpdateProofs.
From S2P Require Import AgentUpdateTheorems.
From S2P Require Import Identity.
From S2P Require Import Config.
From S2P Require Import Events.
From S2P Require Import Protocol.
From S2P Require Import Client.

(** ** What a program returns *)

Definition returns {A} (m : io A) (P : A -> Prop) : Prop := forall w w' a, m w = (w', Done a) -> P a.

Lemma returns_ret {A} (a : A) (P : A -> Prop) : P a -> returns (ret a) P.
Proof. by intros HP w w' b [= _ <-]. Qed.

Lemma returns_bind {A B} (m : io A) (k : A -> io B) (P : A -> Prop) (Q : B -> Prop) :
  returns m P -> (forall a, P a -> returns (k a) Q) -> returns (bind m k) Q.
Proof.
  intros Hm Hk w w' b. unfold bind. destruct (m w) as [w1 [a|]] eqn:E; [|done].
  apply Hk. by eapply Hm.
Qed.

Lemma returns_any {A B} (m : io A) (k : A -> io B) (Q : B -> Prop) :
  (forall a, returns (k a) Q) -> returns (bind m k) Q.
Proof. intros Hk. apply (returns_bind _ _ (fun _ => True)); [by intros w w' a _|]. intros a _. apply Hk. Qed.

Lemma returns_mono {A} (m : io A) (P Q : A -> Prop) : returns m P -> (forall a, P a -> Q a) -> returns m Q.
Proof. intros Hm HPQ w w' a E. by eapply HPQ, Hm. Qed.

(** A program that leaves the tree and the supervised process alone. *)
Definition inert {A} (m : io A) (P : world -> A -> Prop) (w : world) : Prop :=
  match m w with
  | (w', o) => w_fs w' = w_fs w /\ w_run w' = w_run w /\ (w_pc w <= w_pc w')%nat /\
      match o with Done a => P w' a | Crashed => True end
  end.

Lemma inert_ret {A} (a : A) (P : world -> A -> Prop) w : P w a -> inert (ret a) P w.
Proof. intros HP. by split_and!. Qed.

Lemma inert_bind {A B} (m : io A) (k : A -> io B) P Q w :
  inert m P w -> (forall a w', w_fs w' = w_fs w -> (w_pc w <= w_pc w')%nat -> P w' a -> inert (k a) Q w') -> inert (bind m k) Q w.
Proof.
  intros Hm Hk. unfold inert, bind in *. destruct (m w) as [w1 [a|]]; [|done]. destruct Hm as (H1 & H2 & H3 & HP).
  specialize (Hk a w1 H1 H3 HP). destruct (k a w1) as [w2 o]. destruct Hk as (K1 & K2 & K3 & K4).
  split_and!; [by rewrite K1|by rewrite K2|lia|done].
Qed.

Lemma inert_mono {A} (m : io A) (P Q : world -> A -> Prop) w :
  inert m P w -> (forall w' a, w_fs w' = w_fs w -> P w' a -> Q w' a) -> inert m Q w.
Proof.
  unfold inert. destruct (m w) as [w' o]. intros (H1 & H2 & H3 & HP) HPQ. split_and!; [done..|]. destruct o; [|done]. by apply HPQ.
Qed.

Section system.
Context `{Env}.

Lemma inert_Now w : inert Now (fun _ _ => True) w.
Proof. split_and!; try done. simpl. lia. Qed.

Lemma inert_RandUint64 w : inert RandUint64 (fun _ _ => True) w.
Proof. split_and!; try done. simpl. lia. Qed.

(** A call that looks: the environment's failure, or what it saw. *)
Lemma inert_read {A} (op : fs -> result A) w :
  inert (sys_read op) (fun w' r => (exists m, r = Err (errorsNew m)) \/ r = op (w_fs w')) w.
Proof.
  unfold inert, sys_read, sys. destruct (fault_at (w_pc w)); simpl; (split_and!; [done|done|lia|]); [by right|left; by eexists|done].
Qed.

(** The record of an update, if it could be read. *)
Definition read_or_failed (path state : string) (w : world) (r : result Pending) : Prop :=
  (exists m, r = Err (errorsNew m)) \/ r = s_state path state (w_fs w).

Lemma inert_state path state w : inert (readState path state) (read_or_failed path state) w.
Proof.
  unfold readState, try. eapply inert_bind; [apply inert_read|]. intros [raw|e] w' Hf _ Hr; apply inert_ret; unfold read_or_failed, s_state.
  - destruct Hr as [[m Hm]|Hr]; [done|]. right. by rewrite <- Hr.
  - destruct Hr as [[m Hm]|Hr]; [left; exists m; congruence|right]. by rewrite <- Hr.
Qed.



Lemma inert_message_id w : inert message_id (fun _ _ => True) w.
Proof.
  eapply inert_bind; [apply inert_Now|]. intros now w1 _ _ _. eapply inert_bind; [apply inert_RandUint64|].
  intros r w2 _ _ _. by apply inert_ret.
Qed.
End system.

(** ** Commands *)

Section commands.
Context `{Env} `{Runner} `{Controller} `{BundleRunner} `{Zip} `{Platform} `{UrlParser} `{Tar} `{Candidate} `{Collector}.

(** The status of a success, by type of command. *)
Definition success_status (commandType : string) : string :=
  if bool_decide (commandType = CommandAgentUpdate) then "restarting"
  else if bool_decide (commandType = CommandValidateConfig) then XrayConfig.StatusValidated
  else if bool_decide (commandType = CommandApplyConfig) then StatusApplied
  else StatusInstalled.

(** A result that answers [cm]. *)
Definition answers (cm : Command) (x : CommandResult * bool) : Prop :=
  cr_command x.1 = cm_id cm /\
  (cr_success x.1 = true -> cr_status x.1 = success_status (cm_type cm)) /\
  (x.2 = true -> cm_type cm = CommandAgentUpdate /\ cm_id cm <> "" /\ cr_success x.1 = true).

Definition refuses (cm : Command) (x : CommandResult * bool) : Prop :=
  cr_command x.1 = cm_id cm /\ cr_success x.1 = false /\ x.2 = false.

Lemma refuses_answers cm x : refuses cm x -> answers cm x.
Proof. intros (K1 & K2 & K3). unfold answers. rewrite K2, K3. by split_and!. Qed.

Lemma rejected_refuses cm message code : refuses cm (rejectedCommandResult cm message code, false).
Proof.
  unfold rejectedCommandResult. repeat case_bool_decide; try done.
  1,2: by destruct (decode_config cm). by destruct (decode_version cm).
Qed.

Lemma executeConfigValidation_answers c cm r : cr_command r = cm_id cm -> cr_success r = false -> cm_type cm = CommandValidateConfig ->
  returns (executeConfigValidation c cm r) (fun r' => answers cm (r', false)).
Proof.
  intros Hr Hf Ht. unfold executeConfigValidation. destruct (decode_config cm) as [p|e].
  - apply returns_any. intros [v|e]; apply returns_ret.
    + split; [done|]. split; [|done]. cbn. unfold XrayConfig.Success. rewrite bool_decide_eq_true. by rewrite Ht.
    + by apply refuses_answers.
  - by apply returns_ret, refuses_answers.
Qed.

Lemma executeConfigApply_answers c cm r : cr_command r = cm_id cm -> cr_success r = false -> cm_type cm = CommandApplyConfig ->
  returns (executeConfigApply c cm r) (fun r' => answers cm (r', false)).
Proof.
  intros Hr Hf Ht. unfold executeConfigApply. destruct (ct_applier c) as [m|]; [|by apply returns_ret, refuses_answers].
  destruct (negb _); [by apply returns_ret, refuses_answers|].
  destruct (decode_config cm) as [p|e]; [|by apply returns_ret, refuses_answers].
  apply returns_any. intros [v|e]; apply returns_ret; [|by apply refuses_answers].
  split; [done|]. split; [|done]. cbn. unfold XrayTypes.Success. rewrite bool_decide_eq_true. by rewrite Ht.
Qed.

Lemma executeXrayUpdate_answers c dl cm r : cr_command r = cm_id cm -> cr_success r = false -> cm_type cm = CommandXrayUpdate ->
  returns (executeXrayUpdate c dl cm r) (fun r' => answers cm (r', false)).
Proof.
  intros Hr Hf Ht. unfold executeXrayUpdate. destruct (ct_xray c) as [m|]; [|by apply returns_ret, refuses_answers].
  destruct (negb _); [by apply returns_ret, refuses_answers|].
  destruct (decode_version cm) as [p|e]; [|by apply returns_ret, refuses_answers].
  apply returns_any. intros [v|e]; apply returns_ret; [|by apply refuses_answers].
  split; [done|]. split; [|done]. cbn. unfold UpdateTypes.Success. rewrite bool_decide_eq_true. by rewrite Ht.
Qed.

Lemma executeAgentUpdate_answers c dl cm r : cr_command r = cm_id cm -> cr_success r = false -> cm_type cm = CommandAgentUpdate ->
  cm_id cm <> "" -> returns (executeAgentUpdate c dl cm r) (answers cm).
Proof.
  intros Hr Hf Ht Hid.
  assert (forall v, answers cm (restarting v r, true)) as Hre by (intros v; unfold answers; cbn; rewrite Ht; by split_and!).
  assert (forall e, answers cm (with_error e r, false)) as Her by (intros e; by apply refuses_answers).
  assert (forall v, returns (applyAgentUpdate c dl cm v r) (answers cm)) as Ha.
  { intros v. unfold applyAgentUpdate. apply returns_any. intros [v'|e]; by apply returns_ret. }
  assert (forall v, returns (checkFailedUpdate c dl cm v r) (answers cm)) as Hc.
  { intros v. unfold checkFailedUpdate. apply returns_any. intros [p|e]; [case_bool_decide|destruct (negb _)]; by (apply returns_ret || apply Ha). }
  unfold executeAgentUpdate. destruct (decode_version cm) as [p|e]; [|by apply returns_ret].
  apply returns_any. intros [q|e]; [case_bool_decide|destruct (negb _)]; by (apply returns_ret || apply Hc).
Qed.

Lemma dispatch_answers c dl cm : cm_id cm <> "" -> returns (dispatch c dl cm (failed_result cm)) (answers cm).
Proof.
  intros Hid. unfold dispatch.
  assert (forall m, returns m (fun r' => answers cm (r', false)) -> returns (let! r := m in ret (r, false))%go (answers cm)) as Hfin.
  { intros m Hm. eapply returns_bind; [exact Hm|]. intros a Ha. by apply returns_ret. }
  destruct (bool_decide_reflect (cm_type cm = CommandAgentUpdate)); [by apply executeAgentUpdate_answers|].
  destruct (bool_decide_reflect (cm_type cm = CommandValidateConfig)); [by apply Hfin, executeConfigValidation_answers|].
  destruct (bool_decide_reflect (cm_type cm = CommandApplyConfig)); [by apply Hfin, executeConfigApply_answers|].
  destruct (bool_decide_reflect (cm_type cm = CommandXrayUpdate)); [by apply Hfin, executeXrayUpdate_answers|].
  by apply returns_ret, refuses_answers.
Qed.

Lemma executeCommand_answers c dl cm : returns (executeCommand c dl cm) (answers cm).
Proof.
  unfold executeCommand. case_bool_decide; [by apply returns_ret, refuses_answers|].
  apply returns_any. intros now. destruct (expired cm _); [by apply returns_ret, refuses_answers, rejected_refuses|].
  by apply dispatch_answers.
Qed.

(** Every answer to a command carries the command's identifier; it claims
    success only with the status of a success of that type; and the agent is
    asked to restart only by an update of the agent that succeeded. *)
Theorem executeCommand_identified c dl cm w w' r restart :
  executeCommand c dl cm w = (w', Done (r, restart)) ->
  cr_command r = cm_id cm /\
  (cr_success r = true -> cr_status r = success_status (cm_type cm)) /\
  (restart = true -> cm_type cm = CommandAgentUpdate /\ cm_id cm <> "" /\ cr_success r = true).
Proof. intros E. by apply (executeCommand_answers c dl cm w w' (r, restart)). Qed.

(** *** Refusals *)

(** Whether the agent acts on a command, at a time in seconds. *)
Definition acceptable (c : Client) (cm : Command) (now : Z) : bool :=
  negb (bool_decide (cm_id cm = "")) && negb (expired cm now) &&
  (if bool_decide (cm_type cm = CommandAgentUpdate) then is_ok (decode_version cm)
   else if bool_decide (cm_type cm = CommandValidateConfig) then is_ok (decode_config cm)
   else if bool_decide (cm_type cm = CommandApplyConfig) then
     match ct_applier c with Some m => XrayConfig.Enabled m && is_ok (decode_config cm) | None => false end
   else if bool_decide (cm_type cm = CommandXrayUpdate) then
     match ct_xray c with Some m => XrayUpdate.Enabled m && is_ok (decode_version cm) | None => false end
   else false).

Local Ltac refused := split; [|by eexists]; unfold inert; cbn; split_and!; [done|done|lia|by split_and!|done].

Lemma dispatch_refuses c dl cm w : cm_id cm <> "" -> (forall now, expired cm now = false -> acceptable c cm now = false) ->
  (exists now, expired cm now = false) ->
  inert (dispatch c dl cm (failed_result cm)) (fun _ x => refuses cm x /\ cr_error x.1 <> "") w /\
  exists x, (dispatch c dl cm (failed_result cm) w).2 = Done x.
Proof.
  intros Hid Hno [now Hx]. specialize (Hno now Hx). unfold acceptable in Hno. rewrite bool_decide_false, Hx in Hno by done. cbn [negb andb] in Hno.
  unfold dispatch, executeAgentUpdate, executeConfigValidation, executeConfigApply, executeXrayUpdate.
  repeat case_bool_decide.
  - destruct (decode_version cm); [done|]. by refused.
  - destruct (decode_config cm); [done|]. by refused.
  - destruct (ct_applier c) as [m|]; [|by refused]. destruct (XrayConfig.Enabled m); [|by refused].
    destruct (decode_config cm); [done|]. by refused.
  - destruct (ct_xray c) as [m|]; [|by refused]. destruct (XrayUpdate.Enabled m); [|by refused].
    destruct (decode_version cm); [done|]. by refused.
  - by refused.
Qed.

(** C17: a command without an identifier, outside its validity, of an unknown
    type, for a manager this agent does not run, or with a payload that does not
    decode is answered with a failure and an explanation; nothing on disk and
    no process is touched. *)
Theorem executeCommand_refuses c dl cm w :
  acceptable c cm (time_at (w_pc w) / 1000000000) = false ->
  exists w' r, executeCommand c dl cm w = (w', Done (r, false)) /\ w_fs w' = w_fs w /\ w_run w' = w_run w /\
    cr_command r = cm_id cm /\ cr_success r = false /\ cr_error r <> "".
Proof.
  intros Hno. unfold executeCommand. case_bool_decide as Hid; [by repeat eexists|].
  unfold bind at 1. cbn [Now]. destruct (expired cm _) eqn:Hx.
  { destruct (rejected_refuses cm "command is expired or not yet valid" "command_expired") as (K1 & K2 & _). do 2 eexists.
    split_and!; try done. unfold rejectedCommandResult. repeat case_bool_decide; try done.
    1,2: by destruct (decode_config cm). by destruct (decode_version cm). }
  destruct (dispatch_refuses c dl cm (tick w) Hid) as [Hi [x Hd]]; [|by eexists|].
  - intros now Hn. unfold acceptable in *. rewrite Hx in Hno. by rewrite Hn.
  - unfold inert in Hi. destruct (dispatch _ _ _ _ _) as [w' o]. simpl in Hd. subst o. destruct Hi as (Hf & Hr & _ & (K1 & K2 & K3) & He).
    destruct x as [r b]. simpl in *. subst b. by exists w', r.
Qed.

(** *** An update of the agent is tried once *)








End commands.

(** ** The pinned certificate *)





(** ** Results on the wire *)

Lemma first_text_nl raw : jv raw -> first_text (raw +:+ nl) = Some (raw, nl).
Proof.
  intros Hj. unfold first_text. rewrite skip_ws_jv by done. destruct Hj as [_ Hj].
  rewrite Hj; [|done|unfold fuel_for; rewrite slength_app; lia]. f_equal. f_equal. apply slice_app.
Qed.

Lemma read_written e : ValidString (en_version e) = true -> ValidString (en_type e) = true -> ValidString (en_id e) = true ->
  is_i64 (en_sent e) -> jv (en_payload e) -> ReadEnvelope (WriteEnvelope e) = Some e.
Proof.
  intros V1 V2 V3 Hz Hp. assert (en_payload e <> "") as Hne by (intros E; rewrite E in Hp; destruct (jv_head _ Hp) as (c & r & [=] & _)).
  unfold ReadEnvelope, WriteEnvelope, envelope_members. rewrite bool_decide_false by done. cbn [app].
  set (l := [_; _; _; _; _]). assert (Forall member_ok l) as Hl by (unfold l; members_ok).
  rewrite first_text_nl by (apply jv_obj; done). rewrite decode_obj_obj by done.
  unfold l, set_members, field_for. simpl. rewrite !fld_string by done. rewrite fld_int by done. by destruct e.
Qed.

(** The server reads the result that the agent sends exactly as the agent
    composed it, in an envelope of this protocol. *)
Theorem result_roundtrip r id now :
  texts_ok r -> ValidString id = true -> is_i64 (now / 1000000) ->
  exists e, ReadEnvelope (result_text r id now) = Some e /\
    en_version e = Version /\ en_type e = MessageCommandResult /\ en_id e = id /\ en_sent e = (now / 1000000)%Z /\
    DecodePayload result_fields zero_result e = Ok r.
Proof.
  intros Hr Hid Hn. pose proof (command_result_members_ok r) as Hm.
  exists (NewEnvelope MessageCommandResult id (obj (command_result_members r)) now). split.
  { unfold result_text. apply read_written; try done. by apply jv_object. }
  split_and!; try done. unfold DecodePayload. cbn [en_payload NewEnvelope].
  rewrite decode_text_obj' by done. by rewrite set_command_result.
Qed.

(** ** Sessions *)

Section sessions.
Context `{Env} `{Runner} `{Controller} `{BundleRunner} `{Zip} `{Platform} `{UrlParser} `{Tar} `{Candidate} `{Collector} `{!CollectorLaws}.

(** The server answers a heartbeat of this turn. *)
Definition acknowledges (t : turn) : Prop := exists id command, checkAck id (tn_reply t) = Ok command.

Definition deaf (cn : connection) : Prop := forall t, t ∈ cn_turns cn -> ~ acknowledges t.

(** What a session without an acknowledgement ends with. *)
Definition unstable (pending : bool) (_ : world) (x : session * result unit) : Prop :=
  ss_pending x.1 = pending /\ ss_stable x.1 = false /\ is_ok x.2 = false.

Lemma inert_payload version capabilities now w : inert (heartbeat_payload version capabilities now) (fun _ _ => True) w.
Proof.
  unfold inert. pose proof (payload_reads version capabilities now w) as Hp.
  destruct (heartbeat_payload version capabilities now w) as [w' o]. destruct Hp as (? & ? & ?). split_and!; [done..|by destruct o].
Qed.

Lemma inert_heartbeat c w : inert (heartbeat c) (fun _ _ => True) w.
Proof.
  eapply inert_bind; [apply inert_message_id|]. intros sent w1 _ _ _.
  eapply inert_bind; [apply inert_payload|]. intros payload w2 _ _ _. by apply inert_ret.
Qed.

Lemma session_turn_deaf c dl t s w : ~ acknowledges t ->
  inert (session_turn c dl t s) (fun _ x => ss_pending x.1 = ss_pending s /\ ss_stable x.1 = ss_stable s /\ exists e, x.2 = Some (Err e)) w.
Proof.
  intros Hno. unfold session_turn. eapply inert_bind; [apply inert_heartbeat|]. intros sent w1 _ _ _.
  destruct (tn_write t) as [_|e]; [|by apply inert_ret; eauto].
  destruct (checkAck sent.1 (tn_reply t)) as [command|e] eqn:Ea; [|by apply inert_ret; eauto].
  destruct Hno. by exists sent.1, command.
Qed.

Lemma turns_deaf c dl l s w : (forall t, t ∈ l -> ~ acknowledges t) -> ss_stable s = false ->
  inert (turns c dl l s) (unstable (ss_pending s)) w.
Proof.
  intros Hno Hs. destruct l as [|t l]; [by apply inert_ret|]. cbn [turns].
  eapply inert_bind; [apply session_turn_deaf, Hno; left|]. intros x w1 _ _ (Hp & Hst & e & He).
  rewrite He. apply inert_ret. unfold unstable. cbn. by rewrite Hst.
Qed.

Lemma runSession_deaf c dl cn pending w : deaf cn -> inert (runSession c dl cn pending) (unstable pending) w.
Proof.
  intros Hno. unfold runSession. destruct (cn_dial cn); [|by apply inert_ret].
  destruct (checkHello (cn_hello cn)); [|by apply inert_ret]. by apply (turns_deaf c dl _ (MkSession pending false [])).
Qed.

(** *** Restarts *)

(** An error that does not ask for a restart. *)
Definition plain {A} (r : result A) : Prop := match r with Err e => errorsIs e SRestart = false | Ok _ => True end.

Lemma returns_sys {A} (op : Z -> N -> fs -> fs * result A) : (forall t n f, plain (op t n f).2) -> returns (sys op) plain.
Proof.
  intros Hop w w' r. unfold sys. destruct (fault_at (w_pc w)); [|by intros [= _ <-]|done].
  specialize (Hop (time_at (w_pc w)) (rand_at (w_pc w)) (w_fs w)). destruct (op _ _ _) as [f r']. by intros [= _ <-].
Qed.

Lemma plain_follow f : forall n p, plain (follow n f p).
Proof. induction n as [|n IH]; intros p; cbn [follow]; destruct (f !! p) as [[]|]; done. Qed.

Lemma plain_readfile f p : plain (fs_readfile f p).
Proof. unfold fs_readfile. pose proof (plain_follow f max_links p) as Hp. by destruct (follow _ _ _) as [[]|]. Qed.

Lemma plain_remove f p : plain (fs_remove f p).2.
Proof. unfold fs_remove. destruct (f !! p) as [[]|]; try done. by destruct (entry_names f p). Qed.

Lemma plain_parse_state state raw : plain (parse_state state raw).
Proof. unfold parse_state. destruct (decode_text _ _ _ _); [|done]. cbn. by destruct (_ || _). Qed.

Lemma returns_loadPending : returns loadPending plain.
Proof.
  unfold loadPending, readState. eapply returns_bind; [apply returns_sys; intros; apply plain_readfile|].
  intros [raw|e] Hp; apply returns_ret; [apply plain_parse_state|done].
Qed.

Lemma returns_syncDirectory p : returns (syncDirectory p) plain.
Proof.
  unfold syncDirectory. eapply returns_bind; [apply returns_sys; intros; cbn; by destruct (is_dir _ _)|].
  intros [[]|e] Hp; [|by apply returns_ret].
  by apply returns_sys.
Qed.

Lemma returns_Confirm version : returns (Confirm version) plain.
Proof.
  unfold Confirm. eapply returns_bind; [apply returns_loadPending|]. intros [p|e] Hp.
  - destruct (negb _); [by apply returns_ret|].
    eapply returns_bind; [apply returns_sys; intros; apply plain_remove|].
    intros [[]|e] He; [apply returns_syncDirectory|]. destruct (errorsIs e SNotExist); [apply returns_syncDirectory|by apply returns_ret].
  - destruct (errorsIs e SNotExist); by apply returns_ret.
Qed.

(** The errors of the connection are those of the network and of codecs. *)
Record plain_turn (t : turn) : Prop := PlainTurn {
  pt_write : plain (tn_write t);
  pt_reply : plain (tn_reply t);
  pt_result_write : plain (tn_result_write t);
  pt_result_reply : plain (tn_result_reply t)
}.

Lemma plain_rbind {A B} (m : result A) (k : A -> result B) : plain m -> (forall a, plain (k a)) -> plain (rbind m k).
Proof. intros Hm Hk. destruct m; [apply Hk|done]. Qed.

Lemma plain_guard b message : plain (guard_err b message).
Proof. by destruct b. Qed.

Lemma plain_envelope reply : plain reply -> plain (read_envelope reply).
Proof. intros Hr. apply plain_rbind; [done|]. intros m. by destruct (ReadEnvelope m). Qed.

Lemma plain_payload {T} (fields : list (string * setter T)) zero e : plain (DecodePayload fields zero e).
Proof. unfold DecodePayload. by destruct (decode_text _ _ _ _). Qed.

#[local] Hint Resolve plain_guard plain_payload plain_envelope : go.

Lemma plain_checkAck id reply : plain reply -> plain (checkAck id reply).
Proof.
  intros Hr. unfold checkAck. apply plain_rbind; [auto with go|]. intros e. apply plain_rbind; [auto with go|]. intros _.
  case_bool_decide; [by apply plain_rbind; [auto with go|]|].
  apply plain_rbind; [auto with go|]. intros _. apply plain_rbind; [auto with go|]. intros ack. by apply plain_rbind; [auto with go|].
Qed.

Lemma plain_checkResultAck command reply : plain reply -> plain (checkResultAck command reply).
Proof.
  intros Hr. unfold checkResultAck. pose proof (plain_envelope reply Hr) as He. destruct (read_envelope reply) as [e|e]; [|done].
  apply plain_rbind; [auto with go|]. intros _. apply plain_rbind; [auto with go|]. auto with go.
Qed.

Lemma plain_checkHello reply : plain reply -> plain (checkHello reply).
Proof.
  intros Hr. unfold checkHello. pose proof (plain_envelope reply Hr) as He. destruct (read_envelope reply) as [e|e]; [|done].
  apply plain_rbind; [auto with go|]. intros _. apply plain_rbind; [auto with go|]. intros hello. by apply plain_rbind; [auto with go|].
Qed.

(** The turn carried an update of the agent whose success the server has
    acknowledged. *)
Definition restart_turn (t : turn) : Prop := exists id cm,
  checkAck id (tn_reply t) = Ok (Some cm) /\ cm_type cm = CommandAgentUpdate /\ checkResultAck (cm_id cm) (tn_result_reply t) = Ok tt.

(** What a turn may end with. *)
Definition restart_or_plain (t : turn) (x : session * option (result unit)) : Prop :=
  match x.2 with Some r => plain r \/ restart_turn t | None => True end.

Lemma returns_confirm c s : returns (confirm c s) (fun x => plain x.2).
Proof.
  unfold confirm. destruct (ss_pending s); [|by apply returns_ret].
  eapply returns_bind; [apply returns_Confirm|]. intros [[]|e] Hp; by apply returns_ret.
Qed.

Lemma run_command_restart c dl t id command s : plain_turn t -> checkAck id (tn_reply t) = Ok command ->
  returns (run_command c dl t command s) (restart_or_plain t).
Proof.
  intros Ht Ha. assert (forall s', restart_or_plain t (wait t s')) as Hw.
  { intros s'. unfold restart_or_plain, wait. cbn. destruct (tn_cancelled t); [by left|done]. }
  destruct command as [cm|]; [|by apply returns_ret]. cbn [run_command].
  eapply returns_bind; [apply executeCommand_answers|]. intros [r restart] (Hid & _ & Hre). cbn [fst snd] in *.
  apply (returns_bind _ _ (fun x => plain x.2 /\ (x.2 = Ok tt -> checkResultAck (cm_id cm) (tn_result_reply t) = Ok tt))).
  { unfold writeCommandResult. apply returns_any. intros sent. pose proof (pt_result_write t Ht) as Hp.
    destruct (tn_result_write t) as [u|e]; apply returns_ret; [|by split]. cbn. rewrite Hid. split; [|done].
    apply plain_checkResultAck, Ht. }
  intros [s' [[]|e]] [Hp Hack]; cbn [fst snd] in *; [|by apply returns_ret; left].
  destruct restart; [|by apply returns_ret]. apply returns_ret. right. exists id, cm.
  split; [done|]. split; [by apply Hre|by apply Hack].
Qed.

Lemma session_turn_restart c dl t s : plain_turn t -> returns (session_turn c dl t s) (restart_or_plain t).
Proof.
  intros Ht. unfold session_turn. apply returns_any. intros sent. pose proof (pt_write t Ht) as Hw.
  destruct (tn_write t) as [u|e]; [|by apply returns_ret; left].
  pose proof (plain_checkAck sent.1 (tn_reply t) (pt_reply t Ht)) as Hp.
  destruct (checkAck sent.1 (tn_reply t)) as [command|e] eqn:Ea; [|by apply returns_ret; left].
  eapply returns_bind; [apply returns_confirm|]. intros [s' [[]|e]] Hc; cbn [fst snd] in *; [|by apply returns_ret; left].
  by eapply run_command_restart.
Qed.

Lemma turns_restart c dl l : forall s, Forall plain_turn l ->
  returns (turns c dl l s) (fun x => plain x.2 \/ exists t, t ∈ l /\ restart_turn t).
Proof.
  induction l as [|t l IH]; intros s Hl; [by apply returns_ret; left|].
  apply Forall_cons in Hl as [Ht Hl]. cbn [turns]. eapply returns_bind; [by apply session_turn_restart|].
  intros [s' [r|]] Hr; cbn [fst snd] in *.
  - apply returns_ret. destruct Hr as [Hr|Hr]; [by left|]. right. exists t. split; [left|done].
  - eapply returns_mono; [by apply IH|]. intros x [Hx|(t' & Ht' & Hx)]; [by left|]. right. exists t'. split; [by right|done].
Qed.

(** C16: a session asks for the restart of the agent only after an answer to one
    of its heartbeats carried an update of the agent and the server acknowledged
    the result of that very command. *)
Theorem restart_acknowledged c dl cn pending w w' s e :
  plain (cn_dial cn) -> plain (cn_hello cn) -> Forall plain_turn (cn_turns cn) ->
  runSession c dl cn pending w = (w', Done (s, Err e)) -> errorsIs e SRestart = true ->
  exists t id cm, t ∈ cn_turns cn /\ checkAck id (tn_reply t) = Ok (Some cm) /\
    cm_type cm = CommandAgentUpdate /\ checkResultAck (cm_id cm) (tn_result_reply t) = Ok tt.
Proof.
  intros Hd Hh Ht E He.
  assert (returns (runSession c dl cn pending) (fun x => plain x.2 \/ exists t, t ∈ cn_turns cn /\ restart_turn t)) as Hr.
  { unfold runSession. destruct (cn_dial cn); [|by apply returns_ret; left]. pose proof (plain_checkHello _ Hh) as Hph.
    destruct (checkHello (cn_hello cn)); [|by apply returns_ret; left]. by apply turns_restart. }
  destruct (Hr _ _ _ E) as [Hp|(t & Hin & id & cm & Hcm)]; [cbn in Hp; congruence|]. by exists t, id, cm.
Qed.

(** ** The control loop *)

Context (controlFailureReason : result unit -> string).
Local Notation control := (control controlFailureReason).
Local Notation after_session := (after_session controlFailureReason).

Lemma inert_after_session c a r backoff w : inert (after_session c a r backoff) (fun _ x =>
  x.1 = None -> (0 <= backoff)%Z -> exists n, (0 <= n <= backoff / 2)%Z /\ x.2 = (backoff + n)%Z) w.
Proof.
  unfold after_session. destruct (at_cancelled_after a); [by apply inert_ret|]. destruct (match r with Err e => _ | _ => _ end); [by apply inert_ret|].
  eapply inert_bind; [apply inert_state|]. intros p w1 _ _ _. destruct (match p with Ok p => _ | Err _ => _ end); [by apply inert_ret|].
  eapply inert_bind; [apply inert_RandUint64|]. intros n w2 _ _ _. apply inert_ret. intros _ Hb.
  exists (Z.of_N n mod (backoff / 2 + 1))%Z. split; [|done].
  assert (0 < backoff / 2 + 1)%Z as Hpos by (Z.div_mod_to_equations; lia). pose proof (Z.mod_pos_bound (Z.of_N n) _ Hpos). lia.
Qed.

(** Between one second and a minute; with the jitter, a minute and a half. *)
Definition backoff_ok (b : Z) : Prop := (1000000000 <= b <= 60000000000)%Z.
Definition wait_ok (b : Z) : Prop := (1000000000 <= b <= 90000000000)%Z.

Lemma next_backoff_ok b : backoff_ok b -> backoff_ok (next_backoff b).
Proof. unfold backoff_ok, next_backoff. destruct (Z.ltb_spec 60000000000 (b * 2)); lia. Qed.

Lemma control_waits_ok c startedAt l : forall backoff pending, backoff_ok backoff ->
  returns (control c startedAt l backoff pending) (fun x => Forall wait_ok x.1).
Proof.
  induction l as [|a l IH]; intros backoff pending Hb; [by apply returns_ret|]. cbn [Client.control].
  apply returns_any. intros now. destruct (before_session _ _ _ _ _); [by apply returns_ret|].
  apply returns_any. intros [s r]. cbn [fst snd]. set (b := if ss_stable s then 1000000000%Z else backoff).
  assert (backoff_ok b) as Hb' by (unfold b; destruct (ss_stable s); [unfold backoff_ok; lia|done]).
  apply (returns_bind _ _ (fun x => x.1 = None -> wait_ok x.2)).
  { intros w w' x E. pose proof (inert_after_session c a r b w) as Hi. unfold inert in Hi. rewrite E in Hi.
    destruct Hi as (_ & _ & _ & Hx). intros Hn. unfold wait_ok, backoff_ok in *. destruct (Hx Hn) as (n & Hr & ->); [lia|]. Z.div_mod_to_equations; lia. }
  intros [[r'|] v] Hv; cbn [fst snd] in *; [by apply returns_ret|].
  eapply returns_bind; [by apply IH, next_backoff_ok|]. intros x Hx. apply returns_ret. constructor; [by apply Hv|done].
Qed.

(** C40: the agent waits between a second and a minute and a half before it
    connects again, however often it failed. *)
Theorem control_waits_bounded c startedAt l pending w w' waits ended :
  control c startedAt l 1000000000 pending w = (w', Done (waits, ended)) ->
  Forall (fun v => 1000000000 <= v <= 90000000000)%Z waits.
Proof. intros E. by apply (control_waits_ok c startedAt l 1000000000 pending) in E. Qed.

(** *** An update that is never healthy *)

Lemma control_deaf c startedAt l : forall backoff pending w,
  Forall (fun a => deaf (at_connection a)) l -> inert (control c startedAt l backoff pending) (fun _ _ => True) w.
Proof.
  induction l as [|a l IH]; intros backoff pending w Hl; [by apply inert_ret|].
  apply Forall_cons in Hl as [Ha Hl]. cbn [Client.control]. eapply inert_bind; [apply inert_Now|]. intros now w1 _ _ _.
  destruct (before_session _ _ _ _ _); [by apply inert_ret|].
  eapply inert_bind; [by apply runSession_deaf|]. intros [s r] w2 _ _ _. cbn [fst snd].
  eapply inert_bind; [apply inert_after_session|]. intros [[r'|] v] w3 _ _ _; cbn [fst snd]; [by apply inert_ret|].
  eapply inert_bind; [by apply IH|]. intros x w4 _ _ _. by apply inert_ret.
Qed.

(** After sessions without an acknowledgement the loop goes on from where they
    left it, the confirmation still due. *)
Lemma control_resume c startedAt l1 : forall backoff w w1 waits,
  Forall (fun a => deaf (at_connection a)) l1 -> control c startedAt l1 backoff true w = (w1, Done (waits, None)) ->
  exists b, forall l2, control c startedAt (l1 ++ l2) backoff true w =
    bind (control c startedAt l2 b true) (fun more => ret (waits ++ more.1, more.2)) w1.
Proof.
  induction l1 as [|a l1 IH]; intros backoff w w1 waits Hl E.
  - injection E as <- <-. exists backoff. intros l2. unfold bind. cbn [app]. by destruct (control _ _ _ _ _ _) as [w2 [[]|]].
  - apply Forall_cons in Hl as [Ha Hl]. cbn [Client.control app] in *. unfold bind at 1 in E. cbn [Now] in E.
    destruct (before_session _ _ _ _ _) eqn:Eb; [done|]. unfold bind at 1 in E.
    pose proof (runSession_deaf c (at_downloads a) (at_connection a) true (tick w) Ha) as Hi. unfold inert in Hi.
    destruct (runSession _ _ _ _ (tick w)) as [w2 [[s r]|]] eqn:Es; [|done]. destruct Hi as (_ & _ & _ & Hp & _ & _).
    cbn [fst snd] in *. unfold bind at 1 in E. destruct (after_session _ _ _ _ _) as [w3 [[[r'|] v]|]] eqn:Ea; [done| |done].
    cbn [fst snd] in E. unfold bind at 1 in E. rewrite Hp in E.
    destruct (control c startedAt l1 _ true w3) as [w4 [[m ended]|]] eqn:Ec; [|done]. injection E as -> <- ->.
    destruct (IH _ _ _ _ Hl Ec) as [b Hb]. exists b. intros l2. unfold bind at 1. cbn [Now]. rewrite Eb. unfold bind at 1.
    rewrite Es. cbn [fst snd]. unfold bind at 1. rewrite Ea. cbn [fst snd]. unfold bind at 1. rewrite Hp, Hb. unfold bind.
    by destruct (control c startedAt l2 b true w1) as [w5 [[]|]].
Qed.

(** Once the time for the confirmation is over, the agent ends. *)
Lemma control_deadline c startedAt a l backoff w :
  (updateHealthTimeout <= time_at (w_pc w) - startedAt)%Z ->
  exists r, control c startedAt (a :: l) backoff true w = (tick w, Done ([], Some r)) /\ (r = Ok tt -> at_cancelled a = true).
Proof.
  intros Hlate. cbn [Client.control]. unfold bind at 1. cbn [Now].
  assert (exists r, before_session c a startedAt (time_at (w_pc w)) true = Some r /\ (r = Ok tt -> at_cancelled a = true))
    as (r & -> & Hr); [|by exists r].
  unfold before_session. destruct (at_cancelled a); [by eexists|].
  destruct (if ct_events c then at_events a else None) as [[e|]|]; [by eexists; split; [|intros [=]]..|].
  apply Z.leb_le in Hlate. rewrite Hlate. eexists. by split; [|intros [=]].
Qed.

(** C9: an update of the agent that the server never acknowledges is undone:
    however many sessions the updated agent tries and whatever fails meanwhile,
    it leaves the record of the update in place and changes nothing. As soon as
    the two minutes are over, however many sessions failed before, it starts no
    other session and ends, with an error unless it was told to stop; and the
    launcher then makes the version the update came from current again. *)
Theorem unhealthy_update_undone `{!ClockOk} pid c startedAt l backoff w w' o :
  AgentUpdateProofs.safe (w_fs w) -> w_fs w !! pendingPath <> None ->
  plain_file (w_fs w) ("current.rollback-" +:+ FormatUint pid) ->
  Forall (fun a => deaf (at_connection a)) l -> control c startedAt l backoff true w = (w', o) -> calm w' ->
  w_fs w' = w_fs w /\
  (forall l1 a l2 w1 waits, l = l1 ++ a :: l2 -> control c startedAt l1 backoff true w = (w1, Done (waits, None)) ->
     (updateHealthTimeout <= time_at (w_pc w1) - startedAt)%Z ->
     exists r, o = Done (waits, Some r) /\ (r = Ok tt -> at_cancelled a = true)) /\
  exists w'' p a, launcher_rollback pid w' = (w'', Done (Ok tt)) /\ pending_is (w_fs w) p /\ pd_previous p = binary_path a /\
    AgentUpdateProofs.installed (w_fs w'') a /\ link_is (w_fs w'') AgentUpdate.currentPath a /\
    s_state AgentUpdate.failedPath "failed" (w_fs w'') = Ok p.
Proof.
  intros Hs Hp Hpl Hl E Hc. pose proof (control_deaf c startedAt l backoff true w Hl) as Hi. unfold inert in Hi. rewrite E in Hi.
  destruct Hi as (Hf & _). split; [done|]. split.
  - intros l1 a l2 w1 waits -> E1 Hlate. apply Forall_app in Hl as [Hl1 _].
    destruct (control_resume c startedAt l1 _ _ _ _ Hl1 E1) as [b Hb]. rewrite Hb in E. unfold bind in E.
    destruct (control_deadline c startedAt a l2 b w1 Hlate) as (r & Hr & Hok). rewrite Hr in E. cbn in E. rewrite app_nil_r in E.
    injection E as _ <-. by exists r.
  - destruct (launcher_restores pid w') as (w'' & p & a & Hr & Hpd & Hpp & Ha & _ & Hlk & _ & Hst); rewrite ?Hf; try done.
    exists w'', p, a. by rewrite Hf in Hpd.
Qed.
End sessions.

(** ** Witnesses: the agent of AgentUpdateTheorems is told to go to "v2" *)

Definition ex_cfg : Config.Config := MkConfig "https://panel.example/" "/var/lib/xui-agent" false "" zero_xray zero_update zero_telemetry.
Definition ex_client (version : string) : Client :=
  MkClient ex_cfg version ex_agent (XrayConfig.NewManager "") None None false.
Definition ex_downloads : Downloads := MkDownloads ex_server (fun _ _ => Exchange [] (Responded 404 "" None) None).
Definition ex_collector : Collector := {| heartbeat_payload := fun _ _ _ => ret (obj []) |}.

Lemma ex_collector_laws : @CollectorLaws ex_collector.
Proof. split. by intros. Qed.

Definition ex_version_payload (version : string) : string := obj [("version", quote version)].
Definition ex_command : Command := NewCommand "cmd-2" CommandAgentUpdate (ex_version_payload "v2") 0 99999999999.
Definition ex_late_command : Command := NewCommand "cmd-1" CommandAgentUpdate (ex_version_payload "v2") 0 1.

Definition ex_execute (E : Env) (cm : Command) (w : world) : world * outcome (CommandResult * bool) :=
  @executeCommand E ok_runner XrayTheorems.ex_controller UpdateTheorems.ex_updates UpdateTheorems.ex_zip ex_host ex_parser ex_tar ex_candidate
    (ex_client "v1") ex_downloads cm w.

Definition ex_done : world := Eval vm_compute in (ex_execute calm_env ex_command ex_host_world).1.
Definition ex_restarting : CommandResult := restarting "v2" (failed_result ex_command).

Lemma ex_first_ok : ex_execute calm_env ex_command ex_host_world = (ex_done, Done (ex_restarting, true)).
Proof. by_evaluation. Qed.

Lemma executeCommand_identified_witness :
  cr_command ex_restarting = cm_id ex_command /\
  (cr_success ex_restarting = true -> cr_status ex_restarting = success_status (cm_type ex_command)) /\
  (true = true -> cm_type ex_command = CommandAgentUpdate /\ cm_id ex_command <> "" /\ cr_success ex_restarting = true).
Proof.
  apply (@executeCommand_identified calm_env ok_runner XrayTheorems.ex_controller UpdateTheorems.ex_updates UpdateTheorems.ex_zip ex_host ex_parser
    ex_tar ex_candidate (ex_client "v1") ex_downloads ex_command ex_host_world ex_done).
  exact ex_first_ok.
Defined.

Lemma executeCommand_refuses_witness :
  exists w' r, ex_execute calm_env ex_late_command ex_host_world = (w', Done (r, false)) /\ w_fs w' = w_fs ex_host_world /\
    w_run w' = w_run ex_host_world /\ cr_command r = cm_id ex_late_command /\ cr_success r = false /\ cr_error r <> "".
Proof.
  apply (@executeCommand_refuses calm_env ok_runner XrayTheorems.ex_controller UpdateTheorems.ex_updates UpdateTheorems.ex_zip ex_host ex_parser
    ex_tar ex_candidate (ex_client "v1") ex_downloads). vm_compute. reflexivity.
Defined.





Lemma result_roundtrip_witness :
  exists e, ReadEnvelope (result_text ex_restarting "1-2" 1700000000000000000) = Some e /\
    en_version e = Version /\ en_type e = MessageCommandResult /\ en_id e = "1-2" /\ en_sent e = (1700000000000000000 / 1000000)%Z /\
    DecodePayload result_fields zero_result e = Ok ex_restarting.
Proof.
  apply (result_roundtrip ex_restarting "1-2" 1700000000000000000).
  - split; [|done]. repeat (apply Forall_cons_2; [vm_compute; reflexivity|]). apply Forall_nil_2.
  - reflexivity.
  - vm_compute. split; [discriminate|reflexivity].
Defined.

(** A session in which the server sends the update and acknowledges its result. *)
Definition ex_message (type payload : string) : result string := Ok (WriteEnvelope (NewEnvelope type "s" payload 0)).
Definition ex_hello : result string :=
  ex_message MessageHelloAck (obj [("sessionId", quote "s"); ("heartbeatIntervalSeconds", "30"); ("serverTime", "0")]).
Definition ex_heartbeat_id : string := Eval vm_compute in match @message_id calm_env ex_host_world with (_, Done s) => s.2 | _ => "" end.
Definition ex_command_text : string :=
  obj [("id", quote "cmd-2"); ("type", quote CommandAgentUpdate); ("issuedAt", "0"); ("expiresAt", "99999999999");
       ("payload", ex_version_payload "v2")].
Definition ex_ack : result string :=
  ex_message MessageHeartbeatAck (obj [("messageId", quote ex_heartbeat_id); ("serverTime", "0"); ("command", ex_command_text)]).
Definition ex_result_ack : result string := ex_message MessageCommandResultAck (obj [("commandId", quote "cmd-2")]).
Definition ex_turn : turn := MkTurn (Ok tt) ex_ack (Ok tt) ex_result_ack false.
Definition ex_connection : connection := MkConnection (Ok tt) ex_hello [ex_turn].

Definition ex_session : world * outcome (session * result unit) :=
  @runSession calm_env ok_runner XrayTheorems.ex_controller UpdateTheorems.ex_updates UpdateTheorems.ex_zip ex_host ex_parser ex_tar ex_candidate
    ex_collector (ex_client "v1") ex_downloads ex_connection false ex_host_world.
Definition session_of (o : outcome (session * result unit)) : session :=
  match o with Done (s, _) => s | Crashed => MkSession true false [] end.
Definition ex_session_world : world := Eval vm_compute in ex_session.1.
Definition ex_session_end : session := Eval vm_compute in session_of ex_session.2.

Lemma ex_session_run :
  @runSession calm_env ok_runner XrayTheorems.ex_controller UpdateTheorems.ex_updates UpdateTheorems.ex_zip ex_host ex_parser ex_tar ex_candidate
    ex_collector (ex_client "v1") ex_downloads ex_connection false ex_host_world =
  (ex_session_world, Done (ex_session_end, Err ErrRestartRequired)).
Proof. by_evaluation. Qed.

Lemma restart_acknowledged_witness :
  exists t id cm, t ∈ cn_turns ex_connection /\ checkAck id (tn_reply t) = Ok (Some cm) /\
    cm_type cm = CommandAgentUpdate /\ checkResultAck (cm_id cm) (tn_result_reply t) = Ok tt.
Proof.
  apply (@restart_acknowledged calm_env ok_runner XrayTheorems.ex_controller UpdateTheorems.ex_updates UpdateTheorems.ex_zip ex_host ex_parser
    ex_tar ex_candidate ex_collector (ex_client "v1") ex_downloads ex_connection false ex_host_world ex_session_world ex_session_end ErrRestartRequired).
  - exact I.
  - exact I.
  - apply Forall_cons_2; [by split|apply Forall_nil_2].
  - exact ex_session_run.
  - reflexivity.
Defined.

(** The agent is killed during its update; the new one never reaches the server. *)
Definition ex_offline : connection := MkConnection (Err (errorsNew "connection refused")) (Ok "") [].
Definition ex_attempt (last : bool) : attempt := MkAttempt false None ex_offline ex_downloads false last.
Definition ex_reason : result unit -> string := fun _ => "control transport I/O failure".
Definition ex_control : world * outcome (list Z * option (result unit)) :=
  @control (crash_env 36) ok_runner XrayTheorems.ex_controller UpdateTheorems.ex_updates UpdateTheorems.ex_zip ex_host ex_parser ex_tar ex_candidate
    ex_collector ex_reason (ex_client "v2") 1700000000000000000 [ex_attempt false; ex_attempt true] 1000000000 true ex_killed.
Definition waits_of (o : outcome (list Z * option (result unit))) : list Z :=
  match o with Done (l, _) => l | Crashed => [] end.
Definition ex_control_world : world := Eval vm_compute in ex_control.1.
Definition ex_waits : list Z := Eval vm_compute in waits_of ex_control.2.

Lemma ex_control_run :
  @control (crash_env 36) ok_runner XrayTheorems.ex_controller UpdateTheorems.ex_updates UpdateTheorems.ex_zip ex_host ex_parser ex_tar ex_candidate
    ex_collector ex_reason (ex_client "v2") 1700000000000000000 [ex_attempt false; ex_attempt true] 1000000000 true ex_killed =
  (ex_control_world, Done (ex_waits, Some (Ok tt))).
Proof. by_evaluation. Qed.

Lemma control_waits_bounded_witness : length ex_waits = 1%nat /\ Forall (fun v => 1000000000 <= v <= 90000000000)%Z ex_waits.
Proof.
  split; [vm_compute; reflexivity|].
  apply (@control_waits_bounded (crash_env 36) ok_runner XrayTheorems.ex_controller UpdateTheorems.ex_updates UpdateTheorems.ex_zip ex_host ex_parser
    ex_tar ex_candidate ex_collector ex_reason (ex_client "v2") 1700000000000000000 [ex_attempt false; ex_attempt true] true ex_killed ex_control_world
    ex_waits (Some (Ok tt))).
  exact ex_control_run.
Defined.

(** The same, with a clock that moves on by five minutes during the first wait. *)
Definition late_time (n : nat) : Z := if (n <? 40)%nat then time_at (Env := calm_env) n else time_at (Env := calm_env) n + 300000000000.
Definition late_env : Env := {| fault_at := fault_at (Env := crash_env 36); time_at := late_time; rand_at := rand_at (Env := calm_env) |}.

Lemma late_env_clock : ClockOk (H := late_env).
Proof. intros n. cbn. unfold late_time. pose proof (calm_env_time n). destruct (_ <? _)%nat; lia. Qed.

Definition ex_late (l : list attempt) : world * outcome (list Z * option (result unit)) :=
  @control late_env ok_runner XrayTheorems.ex_controller UpdateTheorems.ex_updates UpdateTheorems.ex_zip ex_host ex_parser ex_tar ex_candidate
    ex_collector ex_reason (ex_client "v2") 1700000000000000000 l 1000000000 true ex_killed.
Definition ex_late_once : world := Eval vm_compute in (ex_late [ex_attempt false]).1.
Definition ex_late_world : world := Eval vm_compute in (ex_late [ex_attempt false; ex_attempt false; ex_attempt false]).1.
Definition ex_late_waits : list Z := Eval vm_compute in waits_of (ex_late [ex_attempt false]).2.
Definition ex_late_end : outcome (list Z * option (result unit)) :=
  Eval vm_compute in (ex_late [ex_attempt false; ex_attempt false; ex_attempt false]).2.
Lemma ex_attempts_deaf : Forall (fun a => deaf (at_connection a)) [ex_attempt false; ex_attempt false; ex_attempt false].
Proof. repeat (apply Forall_cons_2; [intros t Ht; change (t ∈ []) in Ht; set_solver|]). apply Forall_nil_2. Qed.

Lemma ex_updated_killed_safe : AgentUpdateProofs.safe (w_fs ex_killed).
Proof. apply (@update_agent_steps_safe (crash_env 36) calm_env_clock ex_parser ex_host ex_tar ex_candidate ex_host_world); [exact ex_switched_steps|exact ex_store_safe]. Qed.

Lemma ex_late_calm : @calm late_env ex_late_world.
Proof.
  intros n Hn. assert (36 < w_pc ex_late_world)%nat as E by (vm_compute; lia).
  cbn [fault_at late_env crash_env]. destruct (Nat.eqb_spec n 36); [lia|done].
Qed.

Lemma ex_late_first :
  @control late_env ok_runner XrayTheorems.ex_controller UpdateTheorems.ex_updates UpdateTheorems.ex_zip ex_host ex_parser ex_tar ex_candidate
    ex_collector ex_reason (ex_client "v2") 1700000000000000000 [ex_attempt false] 1000000000 true ex_killed =
  (ex_late_once, Done (ex_late_waits, None)).
Proof. by_evaluation. Qed.

Lemma ex_late_whole :
  @control late_env ok_runner XrayTheorems.ex_controller UpdateTheorems.ex_updates UpdateTheorems.ex_zip ex_host ex_parser ex_tar ex_candidate
    ex_collector ex_reason (ex_client "v2") 1700000000000000000 [ex_attempt false; ex_attempt false; ex_attempt false] 1000000000 true ex_killed =
  (ex_late_world, ex_late_end).
Proof. by_evaluation. Qed.

Lemma ex_killed_pending : w_fs ex_killed !! pendingPath <> None.
Proof. vm_compute. discriminate. Qed.

Lemma unhealthy_update_undone_witness :
  w_fs ex_late_world = w_fs ex_killed /\
  (exists r, ex_late_end = Done (ex_late_waits, Some r) /\ (r = Ok tt -> at_cancelled (ex_attempt false) = true)) /\
  exists w'' p a, @launcher_rollback late_env 42 ex_late_world = (w'', Done (Ok tt)) /\ pending_is (w_fs ex_killed) p /\
    pd_previous p = binary_path a /\ AgentUpdateProofs.installed (w_fs w'') a /\ link_is (w_fs w'') AgentUpdate.currentPath a /\
    s_state AgentUpdate.failedPath "failed" (w_fs w'') = Ok p.
Proof.
  destruct (@unhealthy_update_undone late_env ok_runner XrayTheorems.ex_controller UpdateTheorems.ex_updates UpdateTheorems.ex_zip ex_host ex_parser
    ex_tar ex_candidate ex_collector ex_collector_laws ex_reason late_env_clock 42 (ex_client "v2") 1700000000000000000
    [ex_attempt false; ex_attempt false; ex_attempt false] 1000000000 ex_killed ex_late_world ex_late_end
    ex_updated_killed_safe ex_killed_pending ex_no_temporary ex_attempts_deaf ex_late_whole ex_late_calm) as (Hf & Hd & Hl).
  split; [exact Hf|]. split; [|exact Hl].
  apply (Hd [ex_attempt false] (ex_attempt false) [ex_attempt false] ex_late_once ex_late_waits eq_refl ex_late_first).
  vm_compute. discriminate.
Defined.
