(* ===== verification/Status.v ===== *)
(** * What the agent reports of its host (internal/status/collector.go)

    A heartbeat describes the machine and Xray: the memory and the disk, the
    executable and its version, the configuration and its digest, the states
    the managers have stored, and the running process.  /proc, signals, statfs,
    the resolution of paths outside the model's tree and the execution of
    "xray version" are questions to the machine, which may change between any
    two of them. *)

From stdpp Require Import base gmap strings list fin_maps.
From Stdlib Require Import ZArith NArith Ascii.
From S2P Require Import Prelude.
From S2P Require Import GoStrings.
From S2P Require Import Words.
From S2P Require Import Sha256.
From S2P Require Import Json.
From S2P Require Import Os.
From S2P Require Import XrayConfig.
From S2P Require Import XrayTypes.
From S2P Require Import XrayRuntime.
From S2P Require Import Controller.
From S2P Require Import Manifest.
From S2P Require Import UpdateTypes.
From S2P Require Import XrayUpdate.
From S2P Require Import Identity.
From S2P Require Import Config.
From S2P Require Import Events.
From S2P Require Import Protocol.
From S2P Require Import Client.

(** ** Text *)

(** strings.LastIndexByte(s, c): what follows the last [c] *)
Fixpoint after_last (c : ascii) (s : string) : option string :=
  match s with
  | "" => None
  | String a r =>
      match after_last c r with
      | Some t => Some t
      | None => if bool_decide (a = c) then Some r else None
      end
  end.

(** strings.Cut(s, c): what precedes the first [c] *)
Fixpoint before_first (c : ascii) (s : string) : string :=
  match s with
  | "" => ""
  | String a r => if bool_decide (a = c) then "" else String a (before_first c r)
  end.

(** bufio.Scanner with its default buffer: lines without their end, up to one
    that does not fit. *)
Definition MaxScanTokenSize : N := 65536.

Definition drop_cr (line : string) : string := TrimSuffix line (String (chr 13) "").

Fixpoint scan_lines (lines : list string) : list string :=
  match lines with
  | [] => []
  | [last] => if bool_decide (last = "") || (MaxScanTokenSize <=? slen last)%N then [] else [drop_cr last]
  | line :: rest => if (MaxScanTokenSize <=? slen line)%N then [] else drop_cr line :: scan_lines rest
  end.

Definition newline : ascii := chr 10.

(** ** /proc *)

Definition mem_entry (values : gmap string N) (line : string) : gmap string N :=
  match Fields line with
  | name :: number :: _ =>
      match ParseUint number 64 with
      | Some value => <[TrimSuffix name ":" := value]> values
      | None => values
      end
  | _ => values
  end.

Definition parseMemInfo (raw : string) : gmap string N := foldl mem_entry ∅ (scan_lines (Split raw newline)).

(** The field of /proc/<pid>/stat, counted after the command's name, that holds
    the time the process started. *)
Definition startTimeIndexAfterCommand : nat := 19.

Definition parseProcessStartTicks (raw : string) : result N :=
  match after_last ")"%char raw with
  | None => Err (errorsNew "process stat has no command terminator")
  | Some rest =>
      match Fields rest !! startTimeIndexAfterCommand with
      | None => Err (errorsNew "process stat is missing start time")
      | Some ticks =>
          match ParseUint ticks 64 with
          | Some n => Ok n
          | None => Err (errorsNew "process stat start time is invalid")
          end
      end
  end.

Fixpoint find_btime (lines : list string) : result Z :=
  match lines with
  | [] => Err (errorsNew "system boot time is missing")
  | line :: rest =>
      match Fields line with
      | [name; number] =>
          if negb (bool_decide (name = "btime")) then find_btime rest
          else match ParseInt number with
               | Some t => if (t <=? 0)%Z then Err (errorsNew "system boot time is invalid") else Ok t
               | None => Err (errorsNew "system boot time is invalid")
               end
      | _ => find_btime rest
      end
  end.

Definition parseBootTime (raw : string) : result Z := find_btime (Split raw newline).

Definition linuxUserHZ : N := 100.
Definition maxInt64Seconds : N := 9223372036854775807.

(** The subtraction and the sum wrap around. *)
Definition start_time (ticks : N) (bootTime : Z) : result Z :=
  let startSeconds := (ticks / linuxUserHZ)%N in
  if ((maxInt64Seconds + two64 - u64_of_int64 bootTime) mod two64 <? startSeconds)%N
  then Err (errorsNew "process start time overflows Unix time")
  else Ok (wrap_i64 (bootTime + int64_of_u64 startSeconds)).

(** ** The machine *)

Class Machine : Type := {
  (* files and links of /proc, by path *)
  proc_read : nat -> string -> result string;
  proc_link : nat -> string -> result string;
  proc_entries : nat -> result (list string);
  (* /proc/uptime as fmt.Fscan reads it, in whole seconds *)
  proc_uptime : nat -> option N;
  (* kill(pid, 0) *)
  signal0 : nat -> Z -> result unit;
  (* statfs: blocks, blocks available and their size *)
  statfs : nat -> string -> result (N * N * N);
  (* stat and EvalSymlinks of any path, given the state directory *)
  stat_any : nat -> fs -> string -> result FileInfo;
  eval_links : nat -> fs -> string -> result string;
  (* what a binary prints for "version" *)
  run_version : nat -> string -> result string
}.

Definition ask {A} (question : nat -> fs -> A) : io A := fun w => (tick w, Done (question (w_pc w) (w_fs w))).

(** ** Data *)

Record SystemInfo : Set := MkSystem {
  si_uptime : N;
  si_memory : N;
  si_used : N;
  si_disk : N;
  si_available : N
}.

Record XrayInfo : Set := MkXrayInfo {
  xi_present : bool;
  xi_version : string;
  xi_managed : string;
  xi_running : bool;
  xi_started : Z;
  xi_config : N;
  xi_digest : string;
  xi_recovery : string;
  xi_recovery_code : string;
  xi_binary_recovery : string;
  xi_binary_code : string;
  xi_error : string
}.

Definition zero_xray_info : XrayInfo := MkXrayInfo false "" "" false 0 0 "" "" "" "" "" "".

Definition appendError (existing next : string) : string :=
  if bool_decide (existing = "") then next else existing +:+ "; " +:+ next.

Definition xi_err (message : string) (o : XrayInfo) : XrayInfo :=
  MkXrayInfo (xi_present o) (xi_version o) (xi_managed o) (xi_running o) (xi_started o) (xi_config o) (xi_digest o)
    (xi_recovery o) (xi_recovery_code o) (xi_binary_recovery o) (xi_binary_code o) (appendError (xi_error o) message).

(** An error that is not the absence of a file is reported. *)
Definition xi_fail (prefix : string) (e : error) (o : XrayInfo) : XrayInfo :=
  if errorsIs e SNotExist then o else xi_err (prefix +:+ err_text e) o.

(** *** Their JSON *)

Definition system_members (s : SystemInfo) : list (string * string) :=
  [("uptimeSeconds", FormatUint (si_uptime s)); ("memoryTotal", FormatUint (si_memory s)); ("memoryUsed", FormatUint (si_used s));
   ("diskTotal", FormatUint (si_disk s)); ("diskAvailable", FormatUint (si_available s))].

Definition xray_info_members (x : XrayInfo) : list (string * string) :=
  [("present", bool_value (xi_present x)); ("version", quote (xi_version x))] ++ opt_member "managedVersion" (xi_managed x)
  ++ [("running", bool_value (xi_running x)); ("startedAt", FormatInt (xi_started x)); ("configVersion", FormatUint (xi_config x));
      ("configDigest", quote (xi_digest x))]
  ++ opt_member "recoveryStatus" (xi_recovery x) ++ opt_member "recoveryErrorCode" (xi_recovery_code x)
  ++ opt_member "binaryRecoveryStatus" (xi_binary_recovery x) ++ opt_member "binaryRecoveryErrorCode" (xi_binary_code x)
  ++ opt_member "error" (xi_error x).

Section collector.
Context `{Env} `{Machine}.

(** ** The system *)

Definition kilobytes (values : gmap string N) (name : string) : N := (from_option id 0 (values !! name) * 1024 mod two64)%N.

Definition memory (raw : result string) : N * N :=
  match raw with
  | Ok raw =>
      let values := parseMemInfo raw in
      let total := kilobytes values "MemTotal" in
      let available := kilobytes values "MemAvailable" in
      (total, if (available <=? total)%N then (total - available)%N else 0%N)
  | Err _ => (0%N, 0%N)
  end.

Definition disk (answer : result (N * N * N)) : N * N :=
  match answer with
  | Ok (blocks, available, size) => ((blocks * size mod two64)%N, (available * size mod two64)%N)
  | Err _ => (0%N, 0%N)
  end.

Definition collectSystemInfo (diskPath : string) : io SystemInfo :=
let! uptime := ask (fun n _ => proc_uptime n) in
let! meminfo := ask (fun n _ => proc_read n "/proc/meminfo") in
let diskPath := if bool_decide (diskPath = "") then "/" else diskPath in
let! there := ask (fun n f => stat_any n f diskPath) in
let! answer := ask (fun n _ => statfs n (if is_ok there then diskPath else "/")) in
ret (MkSystem (from_option id 0%N uptime) (memory meminfo).1 (memory meminfo).2 (disk answer).1 (disk answer).2).

(** ** Processes *)

Definition proc_path (pid : Z) (name : string) : string := "/proc/" +:+ FormatInt pid +:+ "/" +:+ name.

Definition processCommandMatches (cmdlinePath want : string) : io (result bool) :=
try! raw := ask (fun n _ => proc_read n cmdlinePath) in
let arg0 := before_first (chr 0) raw in
if bool_decide (arg0 = "") || negb (IsAbs arg0) then ret (Ok false)
else
  try! got := ask (fun n f => eval_links n f arg0) in
  ret (Ok (bool_decide (Clean got = Clean want))).

Definition processExecutableMatches (pid : Z) (binaryPath : string) : io (result bool) :=
try! want := ask (fun n f => eval_links n f binaryPath) in
let! link := ask (fun n _ => proc_link n (proc_path pid "exe")) in
match link with
| Err e => if negb (errorsIs e SPermission) then ret (Err e) else processCommandMatches (proc_path pid "cmdline") want
| Ok got => ret (Ok (bool_decide (Clean (TrimSuffix got " (deleted)") = Clean want)))
end.

Definition processStartedAt (pid : Z) : io (result Z) :=
try! processRaw := ask (fun n _ => proc_read n (proc_path pid "stat")) in
match parseProcessStartTicks processRaw with
| Err e => ret (Err e)
| Ok ticks =>
    try! bootRaw := ask (fun n _ => proc_read n "/proc/stat") in
    ret (let? bootTime := parseBootTime bootRaw in start_time ticks bootTime)
end.

(** Running, since when, and an error: the three values are independent. *)
Definition status : Type := bool * Z * option error.

Definition not_running : status := (false, 0%Z, None).
Definition unknown (e : error) : status := (false, 0%Z, Some e).

(** strconv.Atoi of a positive number *)
Definition parse_pid (text : string) : option Z :=
match ParseInt text with
| Some pid => if (pid <=? 0)%Z then None else Some pid
| None => None
end.

Fixpoint find_in (entries : list string) (binaryPath : string) : io status :=
match entries with
| [] => ret not_running
| name :: rest =>
    match parse_pid name with
    | None => find_in rest binaryPath
    | Some pid =>
        let! matches := processExecutableMatches pid binaryPath in
        match matches with
        | Ok true =>
            let! started := processStartedAt pid in
            match started with
            | Err e => if errorsIs e SNotExist then find_in rest binaryPath else ret (true, 0%Z, Some e)
            | Ok t => ret (true, t, None)
            end
        | _ => find_in rest binaryPath
        end
    end
end.

Definition findProcessByExecutable (binaryPath : string) : io status :=
if bool_decide (binaryPath = "") then ret not_running
else
  let! entries := ask (fun n _ => proc_entries n) in
  match entries with
  | Err e => ret (unknown e)
  | Ok entries => find_in entries binaryPath
  end.

(** The process is there: since when. *)
Definition startedStatus (pid : Z) : io status :=
let! started := processStartedAt pid in
match started with
| Err e => ret (if errorsIs e SNotExist then not_running else (true, 0%Z, Some e))
| Ok t => ret (true, t, None)
end.

Definition checkExecutable (pid : Z) (binaryPath : string) : io status :=
if bool_decide (binaryPath = "") then startedStatus pid
else
  let! matches := processExecutableMatches pid binaryPath in
  match matches with
  | Err e => ret (unknown e)
  | Ok false => ret (unknown (errorsNew "pid file points to a different executable"))
  | Ok true => startedStatus pid
  end.

Definition processStatus (pidFile binaryPath : string) : io status :=
if bool_decide (pidFile = "") then findProcessByExecutable binaryPath
else
  let! raw := ReadFile pidFile in
  match raw with
  | Err e => ret (unknown e)
  | Ok raw =>
      match parse_pid (TrimSpace raw) with
      | None => ret (unknown (errorsNew "invalid pid file"))
      | Some pid =>
          let! alive := ask (fun n _ => signal0 n pid) in
          match alive with
          | Err e =>
              if errorsIs e SNoProcess then ret not_running
              else if negb (errorsIs e SNotPermitted) then ret (unknown e)
              else checkExecutable pid binaryPath
          | Ok _ => checkExecutable pid binaryPath
          end
      end
  end.

(** ** Xray *)

(** The collector: its part of the configuration, when the agent started, and the
    version of the executable it asked last. *)
Record Collector : Type := MkCollector {
  co_cfg : Config.XrayConfig;
  co_started : Z;
  co_cache : string * string
}.

Definition NewCollector (cfg : Config.XrayConfig) (startedAt : Z) : Collector := MkCollector cfg startedAt ("", "").

Definition binaryPath (c : Collector) : io string :=
if Managed (co_cfg c) then ActivePath (xc_binary (co_cfg c)) else ret (xc_binary (co_cfg c)).

Definition configPath (c : Collector) : string :=
if Managed (co_cfg c) then XrayRuntime.currentPath else xc_config (co_cfg c).

(** The version, asked once per executable: it and the collector's new cache. *)
Definition xrayVersion (c : Collector) (selectedPath : string) : io (string * (string * string)) :=
let! resolved := ask (fun n f => eval_links n f selectedPath) in
let path := match resolved with Ok p => p | Err _ => Clean selectedPath end in
if negb (bool_decide ((co_cache c).2 = "")) && bool_decide ((co_cache c).1 = path) then ret ((co_cache c).2, co_cache c)
else
  let! output := ask (fun n _ => run_version n path) in
  match output with
  | Err _ => ret ("", co_cache c)
  | Ok raw => let version := TrimSpace (before_first newline (TrimSpace raw)) in ret (version, (path, version))
  end.

Definition fileSHA256 (path : string) : io (result string) :=
try! raw := ReadFile path in ret (Ok (sha256_hex raw)).

Definition inspectBinary (c : Collector) (path : string) : io (XrayInfo * (string * string)) :=
if bool_decide (path = "") then ret (zero_xray_info, co_cache c)
else
  let! info := ask (fun n f => stat_any n f path) in
  match info with
  | Ok info =>
      if IsDir info then ret (zero_xray_info, co_cache c)
      else
        let! version := xrayVersion c path in
        ret (MkXrayInfo true version.1 "" false 0 0 "" "" "" "" "" "", version.2)
  | Err e => ret (xi_fail "inspect xray binary: " e zero_xray_info, co_cache c)
  end.

Definition with_digest (digest : string) (o : XrayInfo) : XrayInfo :=
  MkXrayInfo (xi_present o) (xi_version o) (xi_managed o) (xi_running o) (xi_started o) (xi_config o) digest
    (xi_recovery o) (xi_recovery_code o) (xi_binary_recovery o) (xi_binary_code o) (xi_error o).

Definition inspectConfig (path : string) (o : XrayInfo) : io XrayInfo :=
if bool_decide (path = "") then ret o
else
  let! digest := fileSHA256 path in
  ret (match digest with Ok d => with_digest d o | Err e => xi_fail "inspect xray config: " e o end).

(** *** The states the managers have stored *)

Definition with_managed (version : string) (o : XrayInfo) : XrayInfo :=
  MkXrayInfo (xi_present o) (xi_version o) version (xi_running o) (xi_started o) (xi_config o) (xi_digest o)
    (xi_recovery o) (xi_recovery_code o) (xi_binary_recovery o) (xi_binary_code o) (xi_error o).
Definition with_binary_failure (status code : string) (o : XrayInfo) : XrayInfo :=
  MkXrayInfo (xi_present o) (xi_version o) (xi_managed o) (xi_running o) (xi_started o) (xi_config o) (xi_digest o)
    (xi_recovery o) (xi_recovery_code o) status code (xi_error o).
Definition with_version_of_config (version : N) (o : XrayInfo) : XrayInfo :=
  MkXrayInfo (xi_present o) (xi_version o) (xi_managed o) (xi_running o) (xi_started o) version (xi_digest o)
    (xi_recovery o) (xi_recovery_code o) (xi_binary_recovery o) (xi_binary_code o) (xi_error o).
Definition with_failure (status code : string) (o : XrayInfo) : XrayInfo :=
  MkXrayInfo (xi_present o) (xi_version o) (xi_managed o) (xi_running o) (xi_started o) (xi_config o) (xi_digest o)
    status code (xi_binary_recovery o) (xi_binary_code o) (xi_error o).
Definition with_process (s : status) (o : XrayInfo) : XrayInfo :=
  let o := MkXrayInfo (xi_present o) (xi_version o) (xi_managed o) s.1.1 s.1.2 (xi_config o) (xi_digest o)
    (xi_recovery o) (xi_recovery_code o) (xi_binary_recovery o) (xi_binary_code o) (xi_error o) in
  match s.2 with Some e => xi_fail "inspect xray process: " e o | None => o end.

Definition checkApplied (applied : result XrayTypes.AppliedState) (o : XrayInfo) : XrayInfo :=
match applied with
| Ok a =>
    if negb (bool_decide (xi_digest o = XrayTypes.a_digest a)) then xi_err "managed Xray config differs from applied state" o
    else with_version_of_config (XrayTypes.a_version a) o
| Err e => xi_fail "inspect applied Xray config: " e o
end.

Definition inspectManaged (o : XrayInfo) : io XrayInfo :=
let! binary := XrayUpdate.Current in
let o := match binary with Ok a => with_managed (UpdateTypes.a_version a) o | Err e => xi_fail "inspect applied Xray binary: " e o end in
let! binaryFailure := XrayUpdate.LoadFailureState in
let o := match binaryFailure with
         | Ok r => with_binary_failure (UpdateTypes.r_recovery r) (UpdateTypes.r_code r) o
         | Err e => xi_fail "inspect failed Xray binary update: " e o end in
let! applied := XrayRuntime.Current in
let o := checkApplied applied o in
let! failure := XrayRuntime.LoadFailureState in
ret (match failure with
     | Ok r => with_failure (XrayTypes.r_recovery r) (XrayTypes.r_code r) o
     | Err e => xi_fail "inspect failed Xray config state: " e o end).

(** collectXray: what is reported, and the new cache. *)
Definition collectXray (c : Collector) : io (XrayInfo * (string * string)) :=
let! path := binaryPath c in
let! binary := inspectBinary c path in
let! o := inspectConfig (configPath c) binary.1 in
let! o := if Managed (co_cfg c) then inspectManaged o else ret o in
let pidFile := if Managed (co_cfg c) then PIDPath else xc_pid (co_cfg c) in
if bool_decide (pidFile = "") && bool_decide (path = "") then ret (o, binary.2)
else
  let! s := processStatus pidFile path in
  ret (with_process s o, binary.2).

(** ** Heartbeats *)

Record Heartbeat : Type := MkHeartbeat {
  hb_version : string;
  hb_hostname : string;
  hb_started : Z;
  hb_clock : Z;
  hb_system : SystemInfo;
  hb_xray : XrayInfo;
  hb_events : EventQueueInfo;
  hb_capabilities : list string
}.

(** What the event runtime says of itself; without one, nothing. *)
Definition no_events : EventQueueInfo := MkInfo false "" 0 0 0 0 0 0 0 0 0 0 "" 0 0 0.

(** The times in nanoseconds *)
Definition collect (hostname : string) (c : Collector) (agentVersion : string) (now : Z) : io (Heartbeat * (string * string)) :=
let! system := collectSystemInfo (configPath c) in
let! xray := collectXray c in
ret (MkHeartbeat agentVersion hostname (co_started c / 1000000000) (now / 1000000) system xray.1 no_events [CapabilityObserve], xray.2).

(** The collector's own heartbeat, completed by the client. *)
Definition with_events (events : EventQueueInfo) (capabilities : list string) (h : Heartbeat) : Heartbeat :=
MkHeartbeat (hb_version h) (hb_hostname h) (hb_started h) (hb_clock h) (hb_system h) (hb_xray h) events capabilities.

Context `{Platform}.

Definition event_members (q : EventQueueInfo) : list (string * string) :=
[("enabled", bool_value (qi_enabled q))] ++ opt_member "streamId" (qi_stream q)
++ [("pendingEvents", FormatUint (qi_pending_events q)); ("pendingBytes", FormatUint (qi_pending_bytes q));
    ("highestAckedSequence", FormatUint (qi_acked q)); ("oldestQueuedAt", FormatInt (qi_oldest q)); ("lastReceivedAt", FormatInt (qi_received q));
    ("lastAccessAt", FormatInt (qi_access q)); ("lastRouteAt", FormatInt (qi_route q)); ("lastTrafficAt", FormatInt (qi_traffic q));
    ("lastOnlineAt", FormatInt (qi_online q)); ("lastErrorAt", FormatInt (qi_error_at q))]
++ opt_member "lastErrorCode" (qi_error_code q)
++ [("droppedRoute", FormatUint (qi_dropped_route q)); ("droppedTelemetry", FormatUint (qi_dropped_telemetry q));
    ("lastDropAt", FormatInt (qi_drop_at q))].

Definition heartbeat_members (h : Heartbeat) : list (string * string) :=
[("protocolVersion", quote Version); ("agentVersion", quote (hb_version h)); ("hostname", quote (hb_hostname h)); ("os", quote GOOS);
 ("arch", quote GOARCH); ("agentStartedAt", FormatInt (hb_started h)); ("clockUnixMilli", FormatInt (hb_clock h));
 ("system", obj (system_members (hb_system h))); ("xray", obj (xray_info_members (hb_xray h))); ("events", obj (event_members (hb_events h)));
 ("capabilities", arr (quote <$> hb_capabilities h))].

(** The payload of the client's heartbeats. *)
Definition payload (hostname : string) (c : Collector) (events : EventQueueInfo) (agentVersion : string) (capabilities : list string) (now : Z) :
  io string :=
let! h := collect hostname c agentVersion now in
ret (obj (heartbeat_members (with_events events capabilities h.1))).

(** ** The client's Status *)

Record LocalStatus : Type := MkLocal { ls_enrolled : bool; ls_node : Z; ls_name : string; ls_agent : Heartbeat }.

Definition Status (hostname : string) (co : Collector) (c : Client) : io (result LocalStatus) :=
let! now := Now in
let! h := collect hostname co (ct_version c) now in
let agent := with_events no_events (capabilities c) h.1 in
let! loaded := LoadIdentity in
ret (match loaded with
     | Ok i => Ok (MkLocal true (id_node i) (id_name i) agent)
     | Err e => if errorsIs e SNotExist then Ok (MkLocal false 0 "" agent) else Err (errorW "load identity: " e)
     end).

Definition local_members (s : LocalStatus) : list (string * string) :=
[("enrolled", bool_value (ls_enrolled s))] ++ (if bool_decide (ls_node s = 0%Z) then [] else [("nodeId", FormatInt (ls_node s))])
++ opt_member "nodeName" (ls_name s) ++ [("agent", obj (heartbeat_members (ls_agent s)))].
End collector.
