(* ===== verification/StatusTheorems.v ===== *)
(** * What a heartbeat may be believed for

    The collector only looks.  A configuration version is reported when the
    configuration in place is the applied one, a running process when its
    executable is the one reported, and its start exactly as the kernel's
    counters say. *)

From stdpp Require Import base gmap strings list fin_maps.
From Stdlib Require Import ZArith NArith Ascii Lia.
From S2P Require Import Prelude.
From S2P Require Import GoStrings.
From S2P Require Import Words.
From S2P Require Import Sha256.
From S2P Require Import Json.
From S2P Require Import Decoded.
From S2P Require Import Os.
From S2P Require Import AtomicFile.
From S2P Require Import XrayConfig.
From S2P Require Import XrayTypes.
From S2P Require Import XrayRuntime.
From S2P Require Import Controller.
From S2P Require Import XraySteps.
From S2P Require Import Manifest.
From S2P Require Import UpdateTypes.
From S2P Require Import XrayUpdate.
From S2P Require Import UpdateSteps.
From S2P Require Import UpdateStart.
From S2P Require XrayTheorems.
From S2P Require Import Identity.
From S2P Require Import Config.
From S2P Require Import Protocol.
From S2P Require Import Client.
From S2P Require Import Status.

(** ** The line of a process *)

Lemma after_last_none c s : no_char c s -> after_last c s = None.
Proof.
  induction s as [|a s IH]; [done|]. intros [Ha Hs]%no_char_cons. cbn [after_last]. rewrite IH by done. by rewrite bool_decide_false.
Qed.

Lemma after_last_app c s t : no_char c t -> after_last c (s +:+ String c t) = Some t.
Proof.
  intros Ht. induction s as [|a s IH].
  - change ("" +:+ String c t) with (String c t). cbn [after_last]. by rewrite after_last_none, bool_decide_true.
  - change (String a s +:+ String c t) with (String a (s +:+ String c t)). cbn [after_last]. by rewrite IH.
Qed.

(** The line of a process in /proc: its number, its name in parentheses, and the
    fields that follow. *)
Definition stat_line (pid : Z) (comm : string) (fields : list string) : string :=
  FormatInt pid +:+ " (" +:+ comm +:+ String ")" (line_of fields).

Lemma line_no_paren fields : Forall (no_char ")"%char) fields -> no_char ")"%char (line_of fields).
Proof.
  induction 1 as [|f fields Hf _ IH]; [reflexivity|]. cbn [line_of foldr]. fold (line_of fields).
  rewrite !no_char_app. by split_and!.
Qed.

(** The time a process started is found in its line of /proc whatever its
    name, which may hold blanks and parentheses. *)
Theorem parseProcessStartTicks_line pid comm fields ticks :
  Forall word fields -> Forall (no_char ")"%char) fields ->
  fields !! startTimeIndexAfterCommand = Some (FormatUint ticks) -> is_u64 ticks ->
  parseProcessStartTicks (stat_line pid comm fields) = Ok ticks.
Proof.
  intros Hw Hn Hf Ht. unfold parseProcessStartTicks, stat_line.
  change (String ")" (line_of fields)) with (String ")"%char (line_of fields)).
  assert (forall a b c d, a +:+ b +:+ c +:+ d = (a +:+ b +:+ c) +:+ d) as -> by (intros; by rewrite !sapp_assoc).
  rewrite after_last_app by by apply line_no_paren. rewrite Fields_line, Hf by done. by rewrite ParseUint_FormatUint.
Qed.

(** The start in seconds: exact, or refused. *)
Definition max_time : Z := 9223372036854775807.

Definition started_exactly (ticks : N) (boot : Z) : result Z :=
  let t := (boot + Z.of_N (ticks / 100))%Z in
  if (t <=? max_time)%Z then Ok t else Err (errorsNew "process start time overflows Unix time").

Lemma start_time_exact ticks boot : is_u64 ticks -> (0 < boot <= max_time)%Z -> start_time ticks boot = started_exactly ticks boot.
Proof.
  intros Ht Hb. unfold start_time, started_exactly, linuxUserHZ, maxInt64Seconds, max_time, is_u64, two64 in *.
  assert (u64_of_int64 boot = Z.to_N boot) as -> by (unfold u64_of_int64, two64; rewrite Z.mod_small by lia; done).
  assert ((9223372036854775807 + 18446744073709551616 - Z.to_N boot) mod 18446744073709551616 = 9223372036854775807 - Z.to_N boot)%N as ->.
  { replace (9223372036854775807 + 18446744073709551616 - Z.to_N boot)%N
      with ((9223372036854775807 - Z.to_N boot) + 1 * 18446744073709551616)%N by lia. rewrite N.Div0.mod_add. apply N.mod_small. lia. }
  assert (ticks / 100 < 9223372036854775808)%N as Hq by (apply N.Div0.div_lt_upper_bound; lia).
  revert Hq. generalize (ticks / 100)%N. intros q Hq.
  destruct (N.ltb_spec (9223372036854775807 - Z.to_N boot) q); destruct (Z.leb_spec (boot + Z.of_N q) 9223372036854775807); try lia; [done|].
  f_equal. unfold int64_of_u64, two64. rewrite (proj2 (N.ltb_lt q 9223372036854775808)) by done.
  unfold wrap_i64, u64_of_int64, int64_of_u64, two64. rewrite Z.mod_small by lia. rewrite (proj2 (N.ltb_lt _ _)) by lia. lia.
Qed.

(** ** Programs that only look

    [sees f m P]: run at the tree [f], [m] leaves the tree and the processes as
    they are, and what it returns satisfies [P]. *)

Definition sees {A} (f : fs) (m : io A) (P : A -> Prop) : Prop := forall w, w_fs w = f ->
  match m w with
  | (w', o) => after w f w' /\ match o with Done a => P a | Crashed => True end
  end.

Section sees.
Context (f : fs).
Local Notation any := (fun _ => True).

Lemma sees_mono {A} (m : io A) (P Q : A -> Prop) : sees f m P -> (forall a, P a -> Q a) -> sees f m Q.
Proof. intros Hm HPQ w Hw. specialize (Hm w Hw). destruct (m w) as [w' [a|]]; naive_solver. Qed.

Lemma sees_ret {A} (a : A) (P : A -> Prop) : P a -> sees f (ret a) P.
Proof. intros HP w Hw. split; [|done]. split; [done|]. split; [done|]. apply Nat.le_refl. Qed.

Lemma sees_bind {A B} (m : io A) (k : A -> io B) P Q : sees f m P -> (forall a, P a -> sees f (k a) Q) -> sees f (bind m k) Q.
Proof.
  intros Hm Hk w Hw. specialize (Hm w Hw). unfold bind. destruct (m w) as [w1 [a|]]; [|done]. destruct Hm as [(Hw1 & Hr1 & Hp1) HP].
  specialize (Hk a HP w1 Hw1). destruct (k a w1) as [w2 o]. destruct Hk as [(Hw2 & Hr2 & Hp2) Ho]. split; [|done].
  split; [done|]. split; [congruence|lia].
Qed.

Lemma sees_any {A B} (m : io A) (k : A -> io B) Q : sees f m any -> (forall a, sees f (k a) Q) -> sees f (bind m k) Q.
Proof. intros Hm Hk. eapply sees_bind; [exact Hm|]. intros a _. apply Hk. Qed.

Lemma sees_try {A B} (m : io (result A)) (h : error -> io B) (k : A -> io B) (P : A -> Prop) Q :
  sees f m (fun r => forall a, r = Ok a -> P a) -> (forall a, P a -> sees f (k a) Q) -> (forall e, sees f (h e) Q) -> sees f (try m h k) Q.
Proof. intros Hm Hk Hh. eapply sees_bind; [exact Hm|]. intros [a|e] HP; [by apply Hk, HP|apply Hh]. Qed.

Lemma sees_ask {A} (q : nat -> fs -> A) : sees f (ask q) (fun a => exists n, a = q n f).
Proof. intros w Hw. unfold ask. rewrite Hw. split; [|by eexists]. split; [done|]. split; [done|]. cbn. lia. Qed.

Context `{Env}.

Lemma sees_look {A} (op : fs -> result A) : sees f (sys_read op) (fun r => r = op f \/ exists e, r = Err e).
Proof.
  intros w Hw. unfold sys_read, sys. rewrite Hw. destruct (fault_at (w_pc w));
    (split; [split; [done|split; [done|cbn; lia]]|]); [by left|by right; eexists|done].
Qed.

Lemma sees_reads {A} (m : io (result A)) spec : reads m spec -> sees f m (fun r => r = spec f \/ exists e, r = Err e).
Proof.
  intros Hm w Hw. subst f.
  pose proof (Hm w (w_fs w) (fun r w' => after w (w_fs w) w' /\ (r = spec (w_fs w) \/ exists e, r = Err e)) (fun w' => after w (w_fs w) w') w
    (after_refl w)) as Hwp.
  unfold wp in Hwp. destruct (m w) as [w' [r|]].
  - apply Hwp; [|by auto]. intros w1 _ H1. split; [done|]. intros e _. split; [done|right]. by exists e.
  - split; [|done]. apply Hwp; [|by auto]. intros w1 _ H1. split; [done|]. intros e _. split; [done|right]. by exists e.
Qed.

Lemma sees_now : sees f Now any.
Proof. intros w Hw. split; [|done]. split; [done|]. split; [done|]. cbn. lia. Qed.
End sees.

Section machine.
Context `{Env} `{Machine}.
Local Notation any := (fun _ => True).

(** ** Processes *)

(** The process [pid] executes [binary]: by its link, or, when that may not be
    read, by the first word of its command line. *)
Definition by_link (f : fs) (pid : Z) (want : string) : Prop := exists n got,
  proc_link n (proc_path pid "exe") = Ok got /\ Clean (TrimSuffix got " (deleted)") = Clean want.

Definition by_command (f : fs) (pid : Z) (want : string) : Prop := exists n e n' raw n'' got,
  proc_link n (proc_path pid "exe") = Err e /\ errorsIs e SPermission = true /\
  proc_read n' (proc_path pid "cmdline") = Ok raw /\ IsAbs (before_first (chr 0) raw) = true /\
  eval_links n'' f (before_first (chr 0) raw) = Ok got /\ Clean got = Clean want.

Definition executes (f : fs) (pid : Z) (binary : string) : Prop :=
  exists n want, eval_links n f binary = Ok want /\ (by_link f pid want \/ by_command f pid want).

(** It started [t] seconds after 1970, by the kernel's counters. *)
Definition started_at (pid : Z) (t : Z) : Prop := exists n raw ticks n' boot b,
  proc_read n (proc_path pid "stat") = Ok raw /\ parseProcessStartTicks raw = Ok ticks /\
  proc_read n' "/proc/stat" = Ok boot /\ parseBootTime boot = Ok b /\
  t = (b + Z.of_N (ticks / 100))%Z /\ (0 < b <= t)%Z /\ (t <= max_time)%Z.

Lemma parse_ticks_u64 raw ticks : parseProcessStartTicks raw = Ok ticks -> is_u64 ticks.
Proof.
  unfold parseProcessStartTicks. destruct (after_last _ _); [|done]. destruct (Fields _ !! _); [|done].
  destruct (ParseUint _ 64) eqn:E; [|done]. intros [= <-]. by eapply (ParseUint_bound _ 64).
Qed.

Lemma ParseInt_below s z : ParseInt s = Some z -> (z <= max_time)%Z.
Proof.
  assert (forall r, match ParseUint r 64 with Some n => if (n <? 9223372036854775808)%N then Some (Z.of_N n) else None | None => None end = Some z ->
    (z <= max_time)%Z) as Hpos.
  { intros r. destruct (ParseUint r 64) as [n|]; [|done]. destruct (N.ltb_spec n 9223372036854775808); [|done]. intros [= <-]. unfold max_time. lia. }
  unfold ParseInt. destruct s as [|c r]; [apply Hpos|].
  destruct (decide (c = "-"%char)) as [->|Hc].
  { destruct (ParseUint r 64) as [n|]; [|done]. destruct (n <=? _)%N; [|done]. intros [= <-]. unfold max_time. lia. }
  destruct c as [[] [] [] [] [] [] [] []]; try apply Hpos; by destruct Hc.
Qed.

Lemma find_btime_bounds l b : find_btime l = Ok b -> (0 < b <= max_time)%Z.
Proof.
  induction l as [|line l IH]; [done|]. cbn [find_btime]. destruct (Fields line) as [|name [|number [|]]]; try done.
  destruct (negb _); [done|]. destruct (ParseInt number) as [t|] eqn:E; [|done]. destruct (Z.leb_spec t 0); [done|]. intros [= <-].
  apply ParseInt_below in E. lia.
Qed.

Lemma sees_started f pid : sees f (processStartedAt pid) (fun r => forall t, r = Ok t -> started_at pid t).
Proof.
  apply (sees_try f _ _ _ (fun raw => exists n, proc_read n (proc_path pid "stat") = Ok raw)).
  { eapply sees_mono; [apply sees_ask|]. intros r [n ->] raw E. by exists n. }
  2:{ intros e. apply sees_ret. by intros t. }
  intros raw [n Hraw]. destruct (parseProcessStartTicks raw) as [ticks|e] eqn:Et; [|apply sees_ret; by intros t].
  apply (sees_try f _ _ _ (fun boot => exists n, proc_read n "/proc/stat" = Ok boot)).
  { eapply sees_mono; [apply sees_ask|]. intros r [n' ->] boot E. by exists n'. }
  2:{ intros e. apply sees_ret. by intros t. }
  intros boot [n' Hboot]. apply sees_ret. intros t. destruct (parseBootTime boot) as [b|] eqn:Eb; [|done]. cbn [rbind].
  pose proof (parse_ticks_u64 _ _ Et) as Hu. pose proof (find_btime_bounds _ _ Eb) as Hb.
  rewrite start_time_exact by done. unfold started_exactly. destruct (Z.leb_spec (b + Z.of_N (ticks / 100)) max_time); [|done].
  intros [= <-]. exists n, raw, ticks, n', boot, b. do 5 (split; [done|]). pose proof (N2Z.is_nonneg (ticks / 100)). lia.
Qed.

Lemma sees_matches f pid binary : sees f (processExecutableMatches pid binary) (fun r => r = Ok true -> executes f pid binary).
Proof.
  apply (sees_try f _ _ _ (fun want => exists n, eval_links n f binary = Ok want)).
  { eapply sees_mono; [apply sees_ask|]. intros r [n ->] want E. by exists n. }
  2:{ intros e. by apply sees_ret. }
  intros want [n Hwant]. eapply sees_bind; [apply sees_ask|]. intros link [n1 ->].
  destruct (proc_link n1 _) as [got|e] eqn:El.
  - apply sees_ret. intros [= Hc%bool_decide_eq_true]. exists n, want. split; [done|left]. by exists n1, got.
  - destruct (errorsIs e SPermission) eqn:Ee; cbn [negb]; [|by apply sees_ret].
    apply (sees_try f _ _ _ (fun raw => exists n', proc_read n' (proc_path pid "cmdline") = Ok raw)).
    { eapply sees_mono; [apply sees_ask|]. intros r [n' ->] raw E. by exists n'. }
    2:{ intros e'. by apply sees_ret. }
    intros raw [n2 Hraw]. cbv zeta. destruct (bool_decide _ || negb (IsAbs _)) eqn:Ea; [by apply sees_ret|].
    apply orb_false_iff in Ea as [_ Habs%negb_false_iff].
    apply (sees_try f _ _ _ (fun got => exists n', eval_links n' f (before_first (chr 0) raw) = Ok got)).
    { eapply sees_mono; [apply sees_ask|]. intros r [n' ->] got E. by exists n'. }
    2:{ intros e'. by apply sees_ret. }
    intros got [n3 Hgot]. apply sees_ret. intros [= Hc%bool_decide_eq_true]. exists n, want. split; [done|right].
    by exists n1, e, n2, raw, n3, got.
Qed.

(** What a status that says "running" rests on. *)
Definition running_since (f : fs) (binary : string) (pid : Z) (s : status) : Prop :=
  (0 < pid)%Z /\ (binary <> "" -> executes f pid binary) /\ (s.1.2 <> 0%Z -> started_at pid s.1.2).

Lemma parse_pid_positive text pid : parse_pid text = Some pid -> (0 < pid)%Z.
Proof. unfold parse_pid. destruct (ParseInt text) as [p|]; [|done]. destruct (Z.leb_spec p 0); [done|]. by intros [= <-]. Qed.

Lemma sees_startedStatus f binary pid : (0 < pid)%Z -> (binary <> "" -> executes f pid binary) ->
  sees f (startedStatus pid) (fun s => s.1.1 = true -> running_since f binary pid s).
Proof.
  intros Hp He. eapply sees_bind; [apply sees_started|]. intros [t|e] Hs; apply sees_ret.
  - intros _. split; [done|]. split; [done|]. intros _. by apply Hs.
  - destruct (errorsIs e SNotExist); [by intros|]. intros _. by split_and!.
Qed.

Lemma sees_find f binary entries :
  sees f (find_in entries binary) (fun s => s.1.1 = true -> exists pid, running_since f binary pid s).
Proof.
  induction entries as [|name rest IH]; [by apply sees_ret|]. cbn [find_in].
  destruct (parse_pid name) as [pid|] eqn:Ep; [|done]. apply parse_pid_positive in Ep.
  eapply sees_bind; [apply sees_matches|]. intros [[]|e] Hm; try done. specialize (Hm eq_refl).
  eapply sees_bind; [apply sees_started|]. intros [t|e] Hs.
  - apply sees_ret. intros _. exists pid. split; [done|]. split; [done|]. intros _. by apply Hs.
  - destruct (errorsIs e SNotExist); [done|]. apply sees_ret. intros _. exists pid. by split_and!.
Qed.

Lemma sees_check f binary pid : (0 < pid)%Z ->
  sees f (checkExecutable pid binary) (fun s => s.1.1 = true -> running_since f binary pid s).
Proof.
  intros Hp. unfold checkExecutable. case_bool_decide as Hb; [by apply sees_startedStatus|].
  eapply sees_bind; [apply sees_matches|]. intros [[]|e] Hm; [|by apply sees_ret..].
  apply sees_startedStatus; [done|intros _; by apply Hm].
Qed.

(** The process named by the file, when there is one. *)
Definition named_by (f : fs) (pidFile : string) (pid : Z) : Prop :=
  pidFile <> "" -> exists raw, fs_readfile f pidFile = Ok raw /\ parse_pid (TrimSpace raw) = Some pid.

Lemma sees_status f pidFile binary :
  sees f (processStatus pidFile binary)
    (fun s => s.1.1 = true -> exists pid, named_by f pidFile pid /\ running_since f binary pid s).
Proof.
  unfold processStatus. case_bool_decide as Hf.
  - unfold findProcessByExecutable. case_bool_decide; [by apply sees_ret|].
    eapply sees_bind; [apply sees_ask|]. intros [entries|e] _; [|by apply sees_ret].
    eapply sees_mono; [apply sees_find|]. intros s Hs Hr. destruct (Hs Hr) as [pid Hp]. exists pid. split; [by intros ?|done].
  - eapply sees_bind; [apply sees_look|]. intros [raw|e] Hraw; [|by apply sees_ret].
    destruct (parse_pid _) as [pid|] eqn:Ep; [|by apply sees_ret]. pose proof (parse_pid_positive _ _ Ep) as Hp.
    assert (named_by f pidFile pid) as Hn.
    { intros _. exists raw. split; [|done]. destruct Hraw as [Hr|[e [=]]]. by symmetry. }
    assert (sees f (checkExecutable pid binary) (fun s => s.1.1 = true -> exists pid, named_by f pidFile pid /\ running_since f binary pid s)) as Hc.
    { eapply sees_mono; [by apply sees_check|]. intros s Hs Hr. exists pid. split; [done|by apply Hs]. }
    eapply sees_bind; [apply sees_ask|]. intros [u|e] _; [exact Hc|].
    destruct (errorsIs e SNoProcess); [by apply sees_ret|]. destruct (negb _); [by apply sees_ret|exact Hc].
Qed.

(** ** The configuration and the binary *)

(** The digest is that of the configuration in place. *)
Definition digest_of (f : fs) (path : string) (x : XrayInfo) : Prop :=
  xi_digest x <> "" -> exists raw, fs_readfile f path = Ok raw /\ xi_digest x = sha256_hex raw.

(** A version is that of the applied configuration, which is the one in place and
    has the digest. *)
Definition config_claim (f : fs) (x : XrayInfo) : Prop := xi_config x <> 0%N -> exists a raw,
  XraySteps.s_applied f = Ok a /\ XraySteps.s_verifyApplied a f = Ok tt /\
  fs_readfile f XrayRuntime.currentPath = Ok raw /\ sha256_hex raw = XrayTypes.a_digest a /\
  xi_config x = XrayTypes.a_version a /\ xi_digest x = XrayTypes.a_digest a.

(** A managed version is the applied one, whose files are intact. *)
Definition binary_claim (f : fs) (x : XrayInfo) : Prop := xi_managed x <> "" -> exists a,
  UpdateSteps.s_applied f = Ok a /\ UpdateSteps.s_verifyApplied a f = Ok tt /\ xi_managed x = UpdateTypes.a_version a.

(** Nothing is said yet. *)
Definition silent (x : XrayInfo) : Prop := xi_config x = 0%N /\ xi_managed x = "" /\ xi_running x = false.

Lemma silent_fail prefix e o : silent o -> silent (xi_fail prefix e o).
Proof. unfold xi_fail. by destruct (errorsIs e SNotExist). Qed.

Lemma fail_digest prefix e o : xi_digest (xi_fail prefix e o) = xi_digest o.
Proof. unfold xi_fail. by destruct (errorsIs e SNotExist). Qed.

Lemma sees_version f co path : sees f (xrayVersion co path) any.
Proof.
  eapply sees_bind; [apply sees_ask|]. intros resolved _. cbv zeta. destruct (_ && _)%bool; [by apply sees_ret|].
  eapply sees_bind; [apply sees_ask|]. intros [raw|e] _; by apply sees_ret.
Qed.

Lemma sees_inspectBinary f co path : sees f (inspectBinary co path) (fun r => silent r.1 /\ xi_digest r.1 = "").
Proof.
  unfold inspectBinary. case_bool_decide; [by apply sees_ret|]. eapply sees_bind; [apply sees_ask|]. intros [info|e] _.
  - destruct (IsDir info); [by apply sees_ret|]. apply (sees_any f); [apply sees_version|]. intros v. by apply sees_ret.
  - apply sees_ret. cbn [fst]. split; [by apply silent_fail|by rewrite fail_digest].
Qed.

Lemma sees_inspectConfig f path o : silent o -> xi_digest o = "" ->
  sees f (inspectConfig path o) (fun x => silent x /\ digest_of f path x).
Proof.
  intros Hs Hd. unfold inspectConfig. case_bool_decide; [apply sees_ret; split; [done|by intros ?]|].
  apply (sees_bind f _ _ (fun r => forall d, r = Ok d -> exists raw, fs_readfile f path = Ok raw /\ d = sha256_hex raw)).
  - apply (sees_try f _ _ _ (fun raw => fs_readfile f path = Ok raw)).
    + eapply sees_mono; [apply sees_look|]. intros r [->|[e ->]] raw E; [done|by discriminate].
    + intros raw Hr. apply sees_ret. intros d [= <-]. by exists raw.
    + intros e. apply sees_ret. by intros d.
  - intros [d|e] Hr; apply sees_ret.
    + destruct (Hr d eq_refl) as (raw & Hraw & ->). split; [done|]. intros _. by exists raw.
    + split; [by apply silent_fail|]. unfold digest_of. rewrite fail_digest, Hd. by intros ?.
Qed.

(** What the stored states add. *)
Definition claims (f : fs) (x : XrayInfo) : Prop := config_claim f x /\ binary_claim f x /\ xi_running x = false.

Lemma fail_claims f prefix e o : claims f o -> claims f (xi_fail prefix e o).
Proof. unfold xi_fail. by destruct (errorsIs e SNotExist). Qed.

Lemma verified_digest f a : XraySteps.s_verifyApplied a f = Ok tt -> XrayTypes.a_digest a <> "".
Proof.
  intros [_ (_ & _ & (c & t & _ & Hd))]%XraySteps.s_verifyApplied_ok E. rewrite <- Hd in E.
  pose proof (sha256_hex_length c) as Hl. by rewrite E in Hl.
Qed.

Lemma checkApplied_claims f r o : binary_claim f o -> xi_running o = false ->
  digest_of f XrayRuntime.currentPath o ->
  (forall a, r = Ok a -> XraySteps.s_applied f = Ok a /\ XraySteps.s_verifyApplied a f = Ok tt) -> xi_config o = 0%N ->
  claims f (checkApplied r o).
Proof.
  intros Hb Hrun Hd Hr Hz. assert (claims f o) as Ho by (split; [by intros ?|done]). unfold checkApplied.
  destruct r as [a|e]; [|by apply fail_claims]. destruct (Hr a eq_refl) as [Ha Hv]. case_bool_decide as E; cbn [negb]; [|done].
  split; [|done]. intros _. pose proof (verified_digest f a Hv) as Hne. rewrite <- E in Hne.
  destruct (Hd Hne) as (raw & Hraw & Hx). exists a, raw. split_and!; try done. congruence.
Qed.

Lemma sees_binaryCurrent f :
  sees f XrayUpdate.Current (fun r => forall a, r = Ok a -> UpdateSteps.s_applied f = Ok a /\ UpdateSteps.s_verifyApplied a f = Ok tt).
Proof.
  apply (sees_try f _ _ _ (fun a => UpdateSteps.s_applied f = Ok a)).
  { eapply sees_mono; [apply (sees_reads f _ _ u_reads_loadApplied)|]. intros r [->|[e ->]] a E; [done|by discriminate]. }
  2:{ intros e. apply sees_ret. by intros a. }
  intros a Ha. apply (sees_try f _ _ _ (fun _ => UpdateSteps.s_verifyApplied a f = Ok tt)).
  { eapply sees_mono; [apply (sees_reads f _ _ (u_reads_verifyApplied a))|]. intros r [->|[e ->]] [] E; [done|by discriminate]. }
  2:{ intros e. apply sees_ret. by intros b. }
  intros _ Hv. apply sees_ret. by intros b [= <-].
Qed.

Lemma sees_configCurrent f :
  sees f XrayRuntime.Current (fun r => forall a, r = Ok a -> XraySteps.s_applied f = Ok a /\ XraySteps.s_verifyApplied a f = Ok tt).
Proof.
  eapply sees_mono; [apply (sees_reads f _ _ reads_config)|]. intros r [->|[e ->]] a E; [|by discriminate].
  unfold s_config in E. destruct (XraySteps.s_applied f) as [b|]; [|done].
  destruct (XraySteps.s_verifyApplied b f) as [[]|] eqn:Ev; [|done]. by injection E as <-.
Qed.

Lemma sees_parsed {A} f path (parse : string -> result A) : sees f (try! raw := ReadFile path in ret (parse raw)) any.
Proof.
  apply (sees_try f _ _ _ any); [eapply sees_mono; [apply sees_look|done]| |]; intros; by apply sees_ret.
Qed.

Lemma sees_inspectManaged f o : silent o -> digest_of f XrayRuntime.currentPath o -> sees f (inspectManaged o) (claims f).
Proof.
  intros (Hz & Hm & Hrun) Hd. unfold inspectManaged.
  eapply sees_bind; [apply sees_binaryCurrent|]. intros binary Hbin.
  set (o1 := match binary with Ok a => _ | Err e => _ end).
  assert (binary_claim f o1 /\ xi_running o1 = false /\ xi_config o1 = 0%N /\ digest_of f XrayRuntime.currentPath o1) as Ho1.
  { unfold o1. destruct binary as [a|e].
    - destruct (Hbin a eq_refl). split_and!; try done. intros _. by exists a.
    - unfold xi_fail. destruct (errorsIs e SNotExist); (split_and!; try done); intros Hne; by destruct Hne. }
  clearbody o1. clear Hbin. apply (sees_any f); [apply sees_parsed|]. intros failure. cbv zeta.
  set (o2 := match failure with Ok r => _ | Err e => _ end).
  assert (binary_claim f o2 /\ xi_running o2 = false /\ xi_config o2 = 0%N /\ digest_of f XrayRuntime.currentPath o2) as (Hb2 & Hr2 & Hz2 & Hd2).
  { unfold o2. destruct failure as [r|e]; [done|]. unfold xi_fail. by destruct (errorsIs e SNotExist). }
  clearbody o2. clear Ho1 o1. eapply sees_bind; [apply sees_configCurrent|]. intros applied Hap.
  apply (sees_any f); [apply sees_parsed|]. intros last. apply sees_ret.
  assert (claims f (checkApplied applied o2)) as Hc by by apply checkApplied_claims.
  destruct last as [r|e]; [done|by apply fail_claims].
Qed.

Lemma sees_ActivePath f b : sees f (ActivePath b) (fun p => p = ManagedPath \/ p = b).
Proof.
  assert (forall path, sees f (existsOrUnknown path) any) as Hex.
  { intros path. eapply sees_bind; [apply sees_look|]. intros r _. by apply sees_ret. }
  apply (sees_any f); [apply Hex|]. intros []; [apply sees_ret; by left|].
  apply (sees_any f); [apply Hex|]. intros []; apply sees_ret; auto.
Qed.

(** ** Heartbeats *)

Definition pid_file (co : Status.Collector) : string := if Managed (co_cfg co) then PIDPath else xc_pid (co_cfg co).

(** A running process is one that executes the binary, is the one the file names
    when there is a file, and started when it is said to have. *)
Definition running_claim (f : fs) (co : Status.Collector) (x : XrayInfo) : Prop := xi_running x = true -> exists pid path,
  (path = ManagedPath \/ path = xc_binary (co_cfg co)) /\ named_by f (pid_file co) pid /\ (0 < pid)%Z /\ (path <> "" -> executes f pid path) /\
  (xi_started x <> 0%Z -> started_at pid (xi_started x)).

Definition truthful (f : fs) (co : Status.Collector) (x : XrayInfo) : Prop := config_claim f x /\ binary_claim f x /\ running_claim f co x.

Lemma process_truthful f co path s o : (path = ManagedPath \/ path = xc_binary (co_cfg co)) -> claims f o ->
  (s.1.1 = true -> exists pid, named_by f (pid_file co) pid /\ running_since f path pid s) -> truthful f co (with_process s o).
Proof.
  intros Hp (Hc & Hb & _) Hs. unfold with_process. cbv zeta. set (o' := MkXrayInfo _ _ _ s.1.1 s.1.2 _ _ _ _ _ _ _).
  assert (truthful f co o') as Ho.
  { split; [exact Hc|split; [exact Hb|]]. intros Hr. destruct (Hs Hr) as (pid & Hn & Hpos & He & Ht). by exists pid, path. }
  destruct s.2 as [e|]; [|done]. unfold xi_fail. by destruct (errorsIs e SNotExist).
Qed.

Lemma sees_binaryPath f co : sees f (binaryPath co) (fun p => p = ManagedPath \/ p = xc_binary (co_cfg co)).
Proof. unfold binaryPath. destruct (Managed _); [apply sees_ActivePath|]. apply sees_ret. by right. Qed.

Lemma sees_xray f co : sees f (collectXray co) (fun r => truthful f co r.1).
Proof.
  unfold collectXray. eapply sees_bind; [apply sees_binaryPath|]. intros path Hpath.
  eapply sees_bind; [apply sees_inspectBinary|]. intros binary [Hs Hd].
  eapply sees_bind; [by apply sees_inspectConfig|]. intros o [Hso Hdo].
  apply (sees_bind f _ _ (claims f)).
  { unfold configPath in Hdo. destruct (Managed _); [exact (sees_inspectManaged f o Hso Hdo)|]. apply sees_ret. destruct Hso as (Hz & Hm & Hr).
    split; [by intros ?|split; [by intros ?|done]]. }
  intros o' Ho'. cbv zeta. fold (pid_file co). destruct (_ && _)%bool.
  { apply sees_ret. destruct Ho' as (Hc & Hb & Hr). split; [done|split; [done|]]. intros Hr'. cbn [fst] in Hr'. congruence. }
  eapply sees_bind; [apply sees_status|]. intros s Hst. apply sees_ret. exact (process_truthful f co path s o' Hpath Ho' Hst).
Qed.

Lemma sees_system f path : sees f (collectSystemInfo path) any.
Proof.
  apply (sees_any f); [eapply sees_mono; [apply sees_ask|done]|]. intros uptime.
  apply (sees_any f); [eapply sees_mono; [apply sees_ask|done]|]. intros meminfo. cbv zeta.
  apply (sees_any f); [eapply sees_mono; [apply sees_ask|done]|]. intros there.
  apply (sees_any f); [eapply sees_mono; [apply sees_ask|done]|]. intros answer. by apply sees_ret.
Qed.

Lemma sees_collect f host co version now :
  sees f (collect host co version now) (fun r => truthful f co (hb_xray r.1)).
Proof.
  apply (sees_any f); [apply sees_system|]. intros system.
  eapply sees_bind; [apply sees_xray|]. intros x Hx. by apply sees_ret.
Qed.

(** C19: collecting a heartbeat changes nothing, and what it says holds: a
    configuration version is that of the applied configuration, which is the one
    in place and has the digest that is reported; a managed version is the
    applied one and its files are intact; and when Xray is reported as running
    there is a process that executes the binary, when one is configured - the
    process the PID file names, when there is a file - and its start, when it is reported, is the one the
    kernel's counters give, in seconds and without wrapping around. *)
Theorem heartbeat_truthful host co version now w w' h cache :
  collect host co version now w = (w', Done (h, cache)) ->
  after w (w_fs w) w' /\ truthful (w_fs w) co (hb_xray h).
Proof. intros E. pose proof (sees_collect (w_fs w) host co version now w eq_refl) as Hs. by rewrite E in Hs. Qed.
End machine.

(** ** The client's collector *)

Section client.
Context `{Env} `{Machine} `{Platform}.

Definition agent_collector (host : string) (co : Status.Collector) (events : Events.EventQueueInfo) : Client.Collector :=
  {| heartbeat_payload := payload host co events |}.

(** What the client relies on holds of its collector. *)
Lemma agent_collector_laws host co events : @CollectorLaws (agent_collector host co events).
Proof.
  split. intros version capabilities now w. cbn [heartbeat_payload agent_collector].
  assert (sees (w_fs w) (payload host co events version capabilities now) (fun _ => True)) as Hs.
  { apply (sees_any (w_fs w)); [eapply sees_mono; [apply sees_collect|done]|]. intros h. by apply sees_ret. }
  specialize (Hs w eq_refl). destruct (payload _ _ _ _ _ _ w) as [w' o]. destruct Hs as [(Hf & Hr & Hp) _]. by split_and!.
Qed.
End client.

(** ** Witnesses *)

Definition ex_fields : list string := ["S"; "1"; "42"; "42"; "0"; "-1"; "4194560"; "100"; "0"; "0"; "0"; "7"; "3"; "0"; "0"; "20"; "0"; "5"; "0"; "123456"; "0"].
Definition ex_line : string := stat_line 42 "xray) S (a" ex_fields.

Lemma parseProcessStartTicks_line_witness : parseProcessStartTicks ex_line = Ok 123456%N.
Proof.
  apply (parseProcessStartTicks_line 42 "xray) S (a" ex_fields 123456).
  - repeat (apply Forall_cons_2; [split; [discriminate|vm_compute; reflexivity]|]). apply Forall_nil_2.
  - repeat (apply Forall_cons_2; [vm_compute; reflexivity|]). apply Forall_nil_2.
  - vm_compute. reflexivity.
  - vm_compute. reflexivity.
Defined.

(** A managed Xray that was replaced while it ran. *)
Definition ex_xray : string := "/usr/bin/xray".
Definition ex_machine : Machine := {|
  proc_read := fun _ p => if bool_decide (p = "/proc/42/stat") then Ok (ex_line)
    else if bool_decide (p = "/proc/stat") then Ok ("cpu 1 2 3" +:+ nl +:+ "btime 1700000000" +:+ nl)
    else if bool_decide (p = "/proc/meminfo") then Ok ("MemTotal: 2048 kB" +:+ nl +:+ "MemAvailable: 1024 kB" +:+ nl) else Err errNotExist;
  proc_link := fun _ p => if bool_decide (p = "/proc/42/exe") then Ok (ex_xray +:+ " (deleted)") else Err errNotExist;
  proc_entries := fun _ => Ok ["1"; "42"; "self"];
  proc_uptime := fun _ => Some 3600%N;
  signal0 := fun _ _ => Err (MkError "operation not permitted" [SNotPermitted] None);
  Status.statfs := fun _ _ => Ok (1000, 400, 4096)%N;
  stat_any := fun _ _ p => if bool_decide (p = ex_xray) then Ok (info_of (NFile "xray" 493 0)) else Err errNotExist;
  eval_links := fun _ _ p => Ok p;
  run_version := fun _ _ => Ok ("Xray 25.1.1 (go1.23)" +:+ nl +:+ "A unified platform" +:+ nl)
|}.

Definition ex_place : world := Eval vm_compute in
  set_fs (<[PIDPath := NFile ("42" +:+ nl) 420 0]> (w_fs XrayTheorems.ex_applied)) XrayTheorems.ex_applied.
Definition ex_collected : Status.Collector := NewCollector (MkXray "managed" ex_xray "" "") 1700000000000000000.
Definition heartbeat_of (o : outcome (Heartbeat * (string * string))) : Heartbeat :=
  match o with Done (h, _) => h | Crashed => MkHeartbeat "" "" 0 0 (MkSystem 0 0 0 0 0) zero_xray_info no_events [] end.

Definition ex_collect : io (Heartbeat * (string * string)) := @collect calm_env ex_machine "host" ex_collected "v1" 1700000001000000000.
Definition ex_collected_heartbeat : Heartbeat := Eval vm_compute in heartbeat_of (ex_collect ex_place).2.
Definition ex_seen : world := Eval vm_compute in (ex_collect ex_place).1.

Lemma ex_heartbeat_run : @collect calm_env ex_machine "host" ex_collected "v1" 1700000001000000000 ex_place =
  (ex_seen, Done (ex_collected_heartbeat, (ex_xray, "Xray 25.1.1 (go1.23)"))).
Proof. by_evaluation. Qed.

Lemma heartbeat_truthful_witness :
  xi_config (hb_xray ex_collected_heartbeat) = 7%N /\ xi_running (hb_xray ex_collected_heartbeat) = true /\
  xi_started (hb_xray ex_collected_heartbeat) = 1700001234%Z /\
  @truthful ex_machine (w_fs ex_place) ex_collected (hb_xray ex_collected_heartbeat).
Proof.
  split; [reflexivity|]. split; [reflexivity|]. split; [reflexivity|].
  apply (@heartbeat_truthful calm_env ex_machine "host" ex_collected "v1" 1700000001000000000 ex_place ex_seen
    ex_collected_heartbeat (ex_xray, "Xray 25.1.1 (go1.23)") ex_heartbeat_run).
Defined.
