(* ===== verification/FrameAgent.v ===== *)
(** * The agent's own files

    The agent's update, its confirmation, the launcher's way back and the node's
    identity change nothing in the directories of Xray's stores; and what they
    rely on lies outside those directories. *)

From stdpp Require Import base gmap strings list fin_maps sorting.
From Stdlib Require Import ZArith NArith Ascii.
From S2P Require Import Prelude.
From S2P Require Import GoStrings.
From S2P Require Import Os.
From S2P Require Import AtomicFile.
From S2P Require Import Dirs.
From S2P Require Import Frames.
From S2P Require Import XrayTypes.
From S2P Require Import Manifest.
From S2P Require Import Release.
From S2P Require Import AgentUpdate.
From S2P Require Import AgentUpdateProofs.
From S2P Require Import AgentUpdateTheorems.
From S2P Require Import Identity.
From S2P Require Import FrameConfig.
From S2P Require Import FrameUpdate.

Definition agent_area : area := fun p => negb (Frames.in_dir "xray-config" p) && negb (Frames.in_dir "xray-runtime" p).

Lemma agent_version n : agent_area (version_dir n) = true.
Proof. reflexivity. Qed.

Lemma agent_in_version n x : agent_area (version_dir n +:+ x) = true.
Proof. rewrite version_dir_app. reflexivity. Qed.

#[export] Hint Resolve agent_version agent_in_version : frame.

Section agent.
Context `{Env}.
Local Notation inside m := (within agent_area m (fun _ => True)).

Lemma inside_a_symlink t p : p ∈ [currentPath; previousPath] -> inside (AgentUpdate.atomicSymlink t p).
Proof. intros Hp. unfold AgentUpdate.atomicSymlink. set_unfold in Hp. destruct Hp as [-> |[-> |[]]]; frame. Qed.

Lemma inside_a_write p c m : p ∈ [pendingPath; failedPath] -> inside (writeJSONAtomic p c m).
Proof. intros Hp. unfold writeJSONAtomic. set_unfold in Hp. destruct Hp as [-> |[-> |[]]]; frame. Qed.

#[local] Hint Extern 1 (within _ (AgentUpdate.atomicSymlink _ _) _) => apply inside_a_symlink; set_solver : frame.
#[local] Hint Extern 1 (within _ (writeJSONAtomic _ _ _) _) => apply inside_a_write; set_solver : frame.

Lemma inside_Confirm version : inside (Confirm version).
Proof. unfold Confirm, loadPending, readState. frame. Qed.

(** ** Garbage collection *)

Lemma inside_a_protected names : inside (protectedVersions names).
Proof. induction names; cbn [protectedVersions]; frame. Qed.

Lemma inside_a_removeVersions P versions : forall index removed, Forall (fun v => no_char slash v.1) versions ->
  inside (removeVersions P index versions removed).
Proof.
  induction versions as [|v versions IH]; intros index removed Hv; [by apply steps_ret|].
  apply Forall_cons in Hv as [Hn Hv]. cbn [removeVersions]. destruct (removable _ _ _); [|by apply IH].
  assert (agent_area (Join versionsDirectory v.1) = true /\ agent_area (Join (Join versionsDirectory v.1) "xui-agent") = true) as [Hd Hb].
  { apply name_cases in Hn as [->|[->|[->|Hn]]]; [by split|by split|by split|].
    rewrite Join_version, Join_binary by done. split; [done|apply agent_in_version]. }
  apply steps_tryany; [by apply within_Remove|intros _|frame].
  apply steps_tryany; [by apply within_Remove|by intros _; apply IH|frame].
Qed.

Lemma inside_a_installedVersions entries : Forall (fun x => no_char slash x.1) entries ->
  within agent_area (installedVersions entries) (fun r => forall l, r = Ok l -> Forall (fun v => no_char slash v.1) l).
Proof.
  induction 1 as [|[name kind] entries Hn _ IH]; [apply steps_ret; by intros l [= <-]|]. cbn [installedVersions].
  destruct kind; [done| |done]. apply steps_tryany; [unfold holdsAgent; frame|intros holds|by intros; apply steps_ret].
  destruct holds; [|done]. apply steps_tryany; [frame|intros info|by intros; apply steps_ret].
  apply (steps_try _ _ _ _ (Forall (fun v => no_char slash v.1))); [done|intros l Hl|by intros; apply steps_ret].
  apply steps_ret. intros l' [= <-]. by constructor.
Qed.

Lemma inside_a_prune : inside pruneVersions.
Proof.
  unfold pruneVersions. eapply steps_bind; [apply within_ReadDirEntries|]. intros [entries|e] Hn; [|frame].
  apply steps_tryany; [apply inside_a_protected|intros P|frame].
  apply (steps_try _ _ _ _ (Forall (fun v => no_char slash v.1))); [by apply inside_a_installedVersions, Hn|intros l Hl|frame].
  apply steps_tryany; [|frame|frame]. apply inside_a_removeVersions. by rewrite merge_sort_Permutation.
Qed.

(** ** Installing *)

Lemma version_dirs n : entry_name n -> dirs_ok agent_area (length (Split (version_dir n) slash)) (version_dir n) = true.
Proof.
  intros Hn. unfold version_dir at 1. rewrite Split_app, Split_no_char by (done || apply Hn). cbn [length dirs_ok].
  assert (Dir (version_dir n) = "versions") as -> by (apply Dir_two; [apply entry_versions'|apply Hn]).
  rewrite agent_version. apply orb_true_r.
Qed.

Lemma inside_a_activate r b : inside (activate r b).
Proof. unfold activate, switch, EvalSymlinks. frame. Qed.

#[local] Hint Resolve inside_a_activate : frame.

Lemma inside_a_installBinary `{Candidate} r binary d tmp : agent_area tmp = true -> agent_area (Join d "xui-agent") = true ->
  inside (installBinary r binary d tmp).
Proof. intros Ht Hb. unfold installBinary, fillTemporary, runVersion. frame. Qed.

Lemma inside_a_install `{Candidate} r binary : validateVersion (rq_version r) = Ok tt -> inside (install r binary).
Proof.
  intros Hv. destruct (release_entry r binary Hv) as [He _]. unfold install, loadPending, readState.
  apply steps_any; [frame|]. intros [p|e]; [frame|]. destruct (negb _); [frame|].
  apply steps_tryany; [apply inside_a_prune|intros _|frame]. cbv zeta. rewrite Join_version by done.
  apply steps_tryany; [by apply within_MkdirAll, version_dirs|intros _|frame].
  apply (steps_try _ _ _ _ (fun p => agent_area p = true)); [|intros tmp Ht|frame].
  { eapply steps_mono; [apply within_CreateTemp; intros k; rewrite version_dir_app; reflexivity|].
    intros res Hr p E. destruct (Hr p E) as [k ->]. rewrite version_dir_app. reflexivity. }
  apply steps_defer; [|by apply within_Remove]. apply inside_a_installBinary; [done|].
  rewrite Join_binary by done. apply agent_in_version.
Qed.

Lemma inside_InstallLocal `{Candidate} r binary : inside (InstallLocal r binary).
Proof.
  unfold InstallLocal. destruct (_ || _); [frame|]. destruct (validateVersion _) as [[]|e] eqn:Ev; [|frame].
  destruct (_ || _); [frame|by apply inside_a_install].
Qed.

#[local] Hint Resolve inside_InstallLocal : frame.

Lemma inside_a_Apply `{UrlParser} `{Platform} `{Tar} `{Candidate} m net r : inside (Apply m net r).
Proof. unfold Apply, verifyInstalledRuntimeAssets. frame. Qed.

(** ** The launcher and the identity *)

Lemma inside_rollback pid : inside (launcher_rollback pid).
Proof. unfold launcher_rollback, switch_link. frame. Qed.

Lemma inside_SaveIdentity i : inside (SaveIdentity i).
Proof. unfold SaveIdentity, identity_directory, identity_path. frame. Qed.
End agent.

(** ** What the agent's invariant reads *)

Lemma agent_own p : p ∈ own -> config_area p = false /\ update_area p = false.
Proof. revert p. apply Forall_forall. unfold own. repeat (apply Forall_cons_2; [by split|]). apply Forall_nil_2. Qed.

Lemma agent_same (S : area) f g : (forall p, p ∈ own -> S p = false) -> (forall x, S (versionsDirectory +:+ x) = false) ->
  same_off S f g -> AgentUpdateProofs.safe f -> AgentUpdateProofs.safe g.
Proof. intros Ho Hv Hs. apply store_same_safe. split; [intros p Hp; by apply Hs, Ho|intros x; apply Hs, Hv]. Qed.
