(* ===== verification/Main.v ===== *)
(** * The commands of the executable (cmd/xui-agent/main.go)

    A command loads the configuration, makes the client and hands over to it;
    the flags are already parsed here, the build's version is an argument. *)

From stdpp Require Import base gmap strings list fin_maps.
From Stdlib Require Import ZArith NArith Ascii.
From S2P Require Import Prelude.
From S2P Require Import GoStrings.
From S2P Require Import Os.
From S2P Require Import XrayConfig.
From S2P Require Import XrayTypes.
From S2P Require Import XrayRuntime.
From S2P Require Import Manifest.
From S2P Require Import UpdateTypes.
From S2P Require Import XrayUpdate.
From S2P Require Import Release.
From S2P Require Import AgentUpdate.
From S2P Require Import Identity.
From S2P Require Import Config.
From S2P Require Import Protocol.
From S2P Require Import Client.
From S2P Require Import Json.
From S2P Require Controller.
From S2P Require Status.

(** ** Which command, and how it ends *)

(** The first argument names the command unless it is a flag. *)
Definition command_of (args : list string) : string * list string :=
  match args with
  | String c name :: rest => if bool_decide (c = "-"%char) then ("run", args) else (String c name, rest)
  | _ => ("run", args)
  end.

Definition commands : list string := ["run"; "enroll"; "status"; "init-config"; "xray-run"; "version"; "prepare-update"].

Definition exit_status (r : result unit) : Z :=
  match r with
  | Ok _ => 0
  | Err e => if errorsIs e SRestart then 75 else 1
  end.

(** The configuration that init-config writes, from its flags. *)
Definition ManagedXrayBinaryPath (stateDirectory : string) : string := Join stateDirectory ManagedPath.

Definition init_config (server state : string) (insecure : bool) (cert mode binary config pid : string) : Config :=
  let x := MkXray mode binary config pid in
  let x := if Managed x then MkXray mode (ManagedXrayBinaryPath state) "" "" else x in
  MkConfig server state insecure cert x zero_update zero_telemetry.

Section main.
Context `{Env} `{Runner} `{Controller} `{BundleRunner} `{Zip} `{Platform} `{UrlParser} `{Tar} `{Candidate} `{Collector} `{Owner}.
Context `{Zones} `{MapRange}.
Context (StatusText : Z -> string) (hostname : string) (controlFailureReason : result unit -> string).

(** The system's directory for temporary files and the enrolment token of the
    environment. *)
Record surroundings : Type := MkSurroundings {
  sr_temp : string;
  sr_token : string;
  sr_http : string -> string -> result answer
}.

Definition runAgent (path version : string) (s : surroundings) (telemetry : Identity -> result unit) (startedAt : Z) (l : list attempt) :
  io (list Z * option (result unit)) :=
let! loaded := LoadConfig path in
match loaded with
| Err e => ret ([], Some (Err e))
| Ok cfg =>
    let! created := NewAgentClient cfg version (sr_temp s) in
    match created with
    | Err e => ret ([], Some (Err e))
    | Ok (c, pending) => Run StatusText hostname controlFailureReason c (sr_http s) (sr_token s) telemetry startedAt l pending
    end
end.

Definition enrollAgent (path version : string) (s : surroundings) : io (result Identity) :=
try! cfg := LoadConfig path in
try! created := NewAgentClient cfg version (sr_temp s) in
Enroll StatusText hostname created.1 (sr_http s) (sr_token s).

(** prepare-update: the executable installs itself. *)
Definition prepareUpdate (stateDirectory commandID version binary : string) : io (result string) :=
if negb (IsAbs stateDirectory) then ret (Err (errorsNew "state-directory must be an absolute path"))
else InstallLocal (AgentUpdate.MkRequest commandID version) binary.

(** xray-run *)
Definition runManagedXray (path : string) (start : Controller.command -> io (result N)) (fate : Controller.run_end) : io (result unit) :=
try! cfg := LoadConfig path in
if negb (Managed (cf_xray cfg)) then ret (Err (errorsNew "xray-run requires xray.mode=managed"))
else Controller.RunManagedProcess (xc_binary (cf_xray cfg)) start fate.

(** status: what is printed, not yet indented.  [startedAt] is when the client was
    made. *)
Definition printStatus `{Status.Machine} (path version : string) (s : surroundings) (startedAt : Z) : io (result string) :=
try! cfg := LoadConfig path in
try! created := NewAgentClient cfg version (sr_temp s) in
try! local := Status.Status hostname (Status.NewCollector (cf_xray cfg) startedAt) created.1 in
ret (Ok (obj (Status.local_members local))).

Definition initConfig (path : string) (c : Config) (force : bool) : io (result unit) := WriteConfig path c force.
End main.
