(* ===== verification/Agent.v ===== *)
(** * The agent as a whole

    Everything the executable does between two commands of the server, and
    everything that happens around it, keeps the invariants of its three stores
    at once: Xray's configurations, Xray's binaries and the agent's versions.
    Each component keeps its own invariant; that it keeps the other two follows
    from what it may touch. *)

From stdpp Require Import base gmap strings list fin_maps relations.
From Stdlib Require Import ZArith NArith Ascii.
From S2P Require Import Prelude.
From S2P Require Import GoStrings.
From S2P Require Import Json.
From S2P Require Import Decoded.
From S2P Require Import Os.
From S2P Require Import AtomicFile.
From S2P Require Import FsLogic.
From S2P Require Import Dirs.
From S2P Require Import Frames.
From S2P Require Import XrayConfig.
From S2P Require Import XrayTypes.
From S2P Require Import XrayRuntime.
From S2P Require Import XraySteps.
From S2P Require Import XrayInv.
From S2P Require Import XrayRecover.
From S2P Require Import XrayTheorems.
From S2P Require Import Manifest.
From S2P Require Import Release.
From S2P Require Import UpdateTypes.
From S2P Require Import XrayUpdate.
From S2P Require Import UpdateInv.
From S2P Require Import UpdateStart.
From S2P Require Import UpdateApply.
From S2P Require Import UpdateEntry.
From S2P Require Import UpdateTheorems.
From S2P Require Import AgentUpdate.
From S2P Require Import AgentUpdateProofs.
From S2P Require Import AgentUpdateTheorems.
From S2P Require Import Identity.
From S2P Require Import Config.
From S2P Require Import Protocol.
From S2P Require Import Client.
From S2P Require Import Main.
From S2P Require Import FrameConfig.
From S2P Require Import FrameUpdate.
From S2P Require Import FrameAgent.

(** ** The stores *)

Record stores (f : fs) : Prop := Stores {
  st_config : XrayInv.safe f;
  st_binaries : UpdateInv.safe f;
  st_agent : AgentUpdateProofs.safe f
}.

(** Control files may change under a configuration store. *)
Lemma scratch_merge (f g : fs) : exists h : fs, h ≡ g /\ forall p, scratch p = true -> h !! p = f !! p.
Proof.
  exists (filter (fun x => scratch x.1 = true) f ∪ filter (fun x => scratch x.1 = false) g). split.
  - intros p Hp. rewrite lookup_union_r; [|apply map_lookup_filter_None; right; intros x _; cbn; by rewrite Hp].
    rewrite map_lookup_filter. destruct (g !! p); [|done]. simpl. by rewrite option_guard_True.
  - intros p Hp. rewrite lookup_union_l.
    + rewrite map_lookup_filter. destruct (f !! p); [|done]. simpl. by rewrite option_guard_True.
    + apply map_lookup_filter_None. right. intros x _. cbn. by rewrite Hp.
Qed.

Lemma config_stays (f g : fs) : (forall p, config_area p = true -> scratch p = false -> g !! p = f !! p) -> XrayInv.safe f -> XrayInv.safe g.
Proof.
  intros Hs Hf. destruct (scratch_merge f g) as (h & Hg & Hh). rewrite <- Hg. eapply config_safe, Hf. intros p Hp.
  destruct (scratch p) eqn:E; [by apply Hh|]. rewrite (Hg p E). by apply Hs.
Qed.

Lemma binaries_stay (f g : fs) : (forall p, Frames.in_dir "xray-runtime" p = true -> g !! p = f !! p) -> UpdateInv.safe f -> UpdateInv.safe g.
Proof. intros Hs. apply outside_safe. intros p [x Hx]. apply Hs. unfold Frames.in_dir. change XrayUpdate.directory with "xray-runtime" in Hx. by rewrite Hx. Qed.

(** ** The components' directories are apart *)

Lemma in_dir_inv d p : Frames.in_dir d p = true -> p = d \/ exists x, p = d +:+ String slash x.
Proof.
  unfold Frames.in_dir. destruct (under d p) as [x|] eqn:E; [intros _|done].
  apply under_Some in E as [-> [->|[y ->]]]; [left; apply sapp_nil_r|right; eauto].
Qed.

Lemma config_apart p : config_area p = true ->
  Frames.in_dir "xray-runtime" p = false /\ agent_area p = false /\ (scratch p = false -> update_area p = false).
Proof.
  intros [->|[x ->]]%in_dir_inv; (split; [done|split; [done|]]); intros Hs%ctl_scratch_scratch; unfold update_area; by rewrite Hs.
Qed.

Lemma runtime_apart p : Frames.in_dir "xray-runtime" p = true -> config_area p = false /\ agent_area p = false.
Proof. intros [->|[x ->]]%in_dir_inv; by split. Qed.

(** What a component may do to the stores: its own area, its own invariant. *)

Lemma config_only f g : same_off config_area f g -> XrayInv.safe g -> stores f -> stores g.
Proof.
  intros Hs Hg [_ Hu Ha]. split; [done|eapply binaries_stay, Hu|eapply (agent_same config_area), Ha; [|done|done]].
  - intros p Hp. apply Hs. by apply runtime_apart.
  - intros p Hp. by apply agent_own.
Qed.

Lemma binaries_only f g : same_off update_area f g -> UpdateInv.safe g -> stores f -> stores g.
Proof.
  intros Hs Hg [Hc _ Ha]. split; [eapply config_stays, Hc|done|eapply (agent_same update_area), Ha; [|done|done]].
  - intros p Hp Hn. apply Hs. by apply config_apart.
  - intros p Hp. by apply agent_own.
Qed.

Lemma agent_only f g : same_off agent_area f g -> AgentUpdateProofs.safe g -> stores f -> stores g.
Proof.
  intros Hs Hg [Hc Hu _]. split; [eapply config_stays, Hc|eapply binaries_stay, Hu|done].
  - intros p Hp _. apply Hs. by apply config_apart.
  - intros p Hp. apply Hs. by apply runtime_apart.
Qed.

(** ** Programs that keep the stores *)

Definition keeping : Frames.rel := Frames.Rel (fun f g => stores f -> stores g) (fun f Hf => Hf) (fun f g h Hfg Hgh Hf => Hgh (Hfg Hf)).

Abbreviation keeps := (steps keeping).

Lemma keeps_only {A} (S : area) (I : fs -> Prop) (m : io A) :
  (forall f g, same_off S f g -> I g -> stores f -> stores g) -> (forall f, stores f -> I f) ->
  within S m (fun _ => True) -> (forall w w' o, I (w_fs w) -> m w = (w', o) -> I (w_fs w')) -> keeps m (fun _ => True).
Proof.
  intros Honly Hst Hw Hm w. specialize (Hw w). destruct (m w) as [w' o] eqn:E. destruct Hw as [Hs _].
  split; [|by destruct o]. intros Hf. eapply Honly; [exact Hs| |exact Hf]. eapply Hm; [by apply Hst|exact E].
Qed.

(** The node's identity. *)
Definition identity_area : area := fun p => bool_decide (p = identity_path) || bool_decide (p = ".") || HasPrefix p "./".

Lemma identity_own p : p ∈ own -> identity_area p = false.
Proof. revert p. apply Forall_forall. unfold own. repeat (apply Forall_cons_2; [done|]). apply Forall_nil_2. Qed.

Lemma identity_outside f g : same_off identity_area f g -> stores f -> stores g.
Proof.
  intros Hs Hf. apply (agent_only f g); [|eapply (agent_same identity_area), Hf; [exact identity_own|done|done]|done].
  intros p Hp. apply Hs. unfold agent_area in Hp. apply andb_false_iff in Hp.
  destruct Hp as [[->|[x ->]]%negb_false_iff%in_dir_inv|[->|[x ->]]%negb_false_iff%in_dir_inv]; done.
Qed.

(** ** The client's operations *)

(** The system's directory for temporary files is not in the state directory. *)
Definition temp_outside (dir : string) : Prop := dir = "" \/
  forall n, HasPrefix n legacyTempPrefix = true -> no_char slash n -> HasPrefix (Join dir n) "../" = true.

Definition client_ok (c : Client) : Prop := forall m, ct_xray c = Some m -> temp_outside (legacyTempDir m).

Section client.
Context `{Env} `{RU : !Runner} `{!RunnerLaws} `{Controller} `{!ControllerLaws} `{BundleRunner} `{!BundleRunnerLaws} `{!ClockOk}.
Context `{Zip} `{Platform} `{UrlParser} `{Tar} `{Candidate} `{Collector} `{!CollectorLaws} `{Owner}.
Local Notation ok m := (keeps m (fun _ => True)).

(** What the server's release answers may not be called. *)
Definition downloads_ok (c : Client) (dl : Downloads) : Prop := forall m cl version,
  ct_xray c = Some m -> releases m = Some cl -> net_ok cl (dl_xray dl) version.

Lemma ok_validate m r : ok (XrayConfig.Validate m r).
Proof.
  apply (keeps_only config_area XrayInv.safe); [exact config_only|apply st_config|eapply steps_True, inside_Validate|].
  intros w w' o. apply validate_safe.
Qed.

Lemma ok_config_apply m r : is_u64 (XrayTypes.rq_version r) -> ok (XrayRuntime.Apply m r).
Proof.
  intros Hu. apply (keeps_only config_area XrayInv.safe); [exact config_only|apply st_config|by apply inside_Apply|].
  intros w w' o Hs. by apply apply_safe.
Qed.

Lemma ok_config_recover m : ok (XrayRuntime.Recover m).
Proof.
  apply (keeps_only config_area XrayInv.safe); [exact config_only|apply st_config|apply inside_Recover|].
  intros w w' o Hs E. destruct (XrayConfig.Enabled m) eqn:En; [by eapply recover_safe|].
  unfold XrayRuntime.Recover in E. rewrite En in E. by injection E as <- _.
Qed.

Lemma ok_xray_apply m net r : ValidString (UpdateTypes.rq_command r) = true ->
  (forall cl, releases m = Some cl -> net_ok cl net (UpdateTypes.rq_version r)) -> ok (XrayUpdate.Apply m net r).
Proof.
  intros Hv Hn. apply (keeps_only update_area UpdateInv.safe); [exact binaries_only|apply st_binaries|by apply inside_u_Apply|].
  intros w w' o Hs. by apply u_apply_safe.
Qed.

Lemma ok_xray_recover m : temp_outside (legacyTempDir m) -> ok (XrayUpdate.Recover m).
Proof.
  intros Hl. apply (keeps_only update_area UpdateInv.safe); [exact binaries_only|apply st_binaries|by apply inside_u_Recover|].
  intros w w' o Hs E. destruct (has_controller m) eqn:En; [by eapply u_recover_safe|].
  unfold XrayUpdate.Recover in E. rewrite En in E. by injection E as <- _.
Qed.

Lemma ok_agent {A} (m : io A) : within agent_area m (fun _ => True) -> (forall w, agent_step w (m w).1) -> ok m.
Proof.
  intros Hi Hm. apply (keeps_only agent_area AgentUpdateProofs.safe); [exact agent_only|apply st_agent|done|].
  intros w w' o Hs E. eapply update_agent_step_safe, Hs. specialize (Hm w). by rewrite E in Hm.
Qed.

Lemma ok_agent_apply m net r : ValidString (rq_command r) = true -> ok (Apply m net r).
Proof. intros Hv. apply ok_agent; [apply inside_a_Apply|]. intros w. eapply agent_apply, surjective_pairing. done. Qed.

Lemma ok_prepare r binary : ValidString (rq_command r) = true -> ok (InstallLocal r binary).
Proof. intros Hv. apply ok_agent; [apply inside_InstallLocal|]. intros w. eapply agent_install, surjective_pairing. done. Qed.

Lemma ok_confirm version : ok (Confirm version).
Proof. apply ok_agent; [apply inside_Confirm|]. intros w. eapply agent_confirm, surjective_pairing. Qed.

Lemma inside_save i : within identity_area (SaveIdentity i) (fun _ => True).
Proof. unfold SaveIdentity, identity_directory, identity_path. frame. Qed.

Lemma ok_save i : ok (SaveIdentity i).
Proof. apply (keeps_only identity_area (fun _ => True)); [intros f g Hs _; by apply identity_outside|done|apply inside_save|done]. Qed.

Lemma inside_obtain status host c http token : within identity_area (obtainIdentity status host c http token) (fun _ => True).
Proof.
  unfold obtainIdentity, LoadIdentity, Enroll. pose proof inside_save. frame.
Qed.

Lemma ok_read {A} (op : fs -> result A) : ok (sys_read op).
Proof. apply steps_reads. intros w. unfold sys_read, sys. by destruct (fault_at (w_pc w)). Qed.

Lemma ok_now : ok Now.
Proof. apply steps_reads. by intros w. Qed.

Lemma ok_rand : ok RandUint64.
Proof. apply steps_reads. by intros w. Qed.

Lemma ok_payload version capabilities now : ok (heartbeat_payload version capabilities now).
Proof.
  apply steps_reads. intros w. pose proof (payload_reads version capabilities now w) as Hp.
  destruct (heartbeat_payload version capabilities now w) as [w1 o]. apply Hp.
Qed.

#[local] Hint Resolve ok_now ok_rand ok_payload : frame.
#[local] Hint Resolve ok_validate ok_config_apply ok_config_recover ok_xray_apply ok_xray_recover ok_agent_apply ok_confirm ok_save ok_read : frame.
#[local] Hint Extern 1 (steps keeping (ReadFile _) _) => apply ok_read : frame.
#[local] Hint Extern 1 (steps keeping (Stat _) _) => apply ok_read : frame.

Lemma ok_load path state : ok (readState path state).
Proof. unfold readState. frame. Qed.

#[local] Hint Extern 1 (steps keeping loadPending _) => apply ok_load : frame.
#[local] Hint Extern 1 (steps keeping loadFailed _) => apply ok_load : frame.

(** *** Commands *)

(** The server's texts are valid when they have been decoded. *)
Definition command_ok (cm : Command) : Prop := ValidString (cm_id cm) = true.

Lemma command_setters : Forall (setter_keeps command_ok) command_fields.*2.
Proof.
  unfold command_fields. each_field.
  1: eapply (fld_keeps _ (fun s => ValidString s = true)); [apply unquote_valid|by intros].
  4: by intros raw t t' Ht [= <-].
  all: by eapply (fld_keeps _ (fun _ => True)).
Qed.

Lemma ack_command id reply cm : checkAck id reply = Ok (Some cm) -> command_ok cm.
Proof.
  intros (e & _ & ([] & _ & Hk)%rbind_Ok)%rbind_Ok. destruct (bool_decide _); [by apply rbind_Ok in Hk as (x & _ & [=])|].
  apply rbind_Ok in Hk as ([] & _ & (ack & Ha & ([] & _ & [= Hc])%rbind_Ok)%rbind_Ok).
  unfold DecodePayload in Ha. destruct (decode_text _ _ _ _) as [a|] eqn:Ed; [|done]. injection Ha as ->.
  assert (forall c, ak_command ack = Some c -> command_ok c) as Hok; [|by apply Hok].
  eapply (decode_text_keeps (fun a => forall c, ak_command a = Some c -> command_ok c)), Ed; [|by intros c [=]].
  unfold ack_fields. each_field.
  1-2: by eapply (fld_keeps _ (fun _ => True)).
  intros raw t t' Ht. unfold set_command. destruct (is_null raw); [by intros [= <-] c [=]|].
  destruct (decode_obj _ _ _ _) as [c'|] eqn:E; [|done]. intros [= <-] c [= <-].
  eapply (decode_obj_keeps command_ok), E; [apply command_setters|].
  destruct (ak_command t) as [c0|]; [by apply Ht|done].
Qed.

Lemma config_command_u64 cm p : decode_config cm = Ok p -> is_u64 (cc_version p).
Proof.
  unfold decode_config, DecodeCommandPayload. destruct (decode_text _ _ _ _) as [c|] eqn:E; [|done]. intros [= <-].
  eapply (decode_text_keeps (fun c => is_u64 (cc_version c))), E; [|by vm_compute].
  unfold config_command_fields. each_field.
  - eapply (fld_keeps _ is_u64); [apply (dec_uint_below 64)|done].
  - by eapply (fld_keeps _ (fun _ => True)).
  - by intros raw t t' Ht [= <-].
Qed.

Lemma ok_execute c dl cm : command_ok cm -> downloads_ok c dl -> ok (executeCommand c dl cm).
Proof.
  intros Hc Hd. unfold executeCommand, dispatch. destruct (bool_decide _); [frame|]. apply steps_any; [frame|intros now].
  destruct (expired _ _); [frame|]. destruct (bool_decide _).
  { unfold executeAgentUpdate, checkFailedUpdate, applyAgentUpdate. frame. all: by apply ok_agent_apply. }
  destruct (bool_decide _); [unfold executeConfigValidation; frame|].
  destruct (bool_decide _).
  { unfold executeConfigApply. destruct (ct_applier c); [|frame]. destruct (negb _); [frame|].
    destruct (decode_config cm) as [p|] eqn:E; [|frame]. apply config_command_u64 in E. apply steps_any; [|frame].
    apply steps_any; [by apply ok_config_apply|frame]. }
  destruct (bool_decide _); [|frame]. unfold executeXrayUpdate. destruct (ct_xray c) as [m|] eqn:Em; [|frame]. destruct (negb _); [frame|].
  destruct (decode_version cm) as [p|]; [|frame]. apply steps_any; [|frame]. apply steps_any; [|frame].
  apply ok_xray_apply; [done|]. intros cl Hcl. by eapply Hd.
Qed.

#[local] Hint Resolve ok_execute : frame.

(** *** Sessions *)

Lemma ok_turn c dl t s : downloads_ok c dl -> ok (session_turn c dl t s).
Proof.
  intros Hd. unfold session_turn, heartbeat, message_id. apply steps_any; [frame|intros sent].
  destruct (tn_write t); [|frame]. destruct (checkAck _ _) as [[cm|]|e] eqn:Ea; [| |frame].
  - apply ack_command in Ea. apply steps_any; [unfold confirm; frame|intros confirmed].
    destruct (snd _); [|frame]. unfold run_command, writeCommandResult, message_id. frame.
  - apply steps_any; [unfold confirm; frame|intros confirmed]. unfold run_command. frame.
Qed.

Lemma ok_turns c dl l : forall s, downloads_ok c dl -> ok (turns c dl l s).
Proof.
  induction l as [|t l IH]; intros s Hd; cbn [turns]; [frame|].
  apply steps_any; [by apply ok_turn|intros after]. destruct (snd after); [frame|by apply IH].
Qed.

Lemma ok_session c dl cn pending : downloads_ok c dl -> ok (runSession c dl cn pending).
Proof. intros Hd. unfold runSession. destruct (cn_dial cn); [|frame]. destruct (checkHello _); [|frame]. by apply ok_turns. Qed.

Lemma ok_control reason c startedAt l : forall backoff pending, Forall (fun a => downloads_ok c (at_downloads a)) l ->
  ok (control reason c startedAt l backoff pending).
Proof.
  induction l as [|a l IH]; intros backoff pending Hd; cbn [control]; [frame|]. apply Forall_cons in Hd as [Ha Hd].
  apply steps_any; [frame|intros now]. destruct (before_session _ _ _ _ _); [frame|].
  apply steps_any; [by apply ok_session|intros ended]. cbv zeta. apply steps_any; [unfold after_session; frame|intros next].
  destruct (fst next); [frame|]. apply steps_any; [by apply IH|frame].
Qed.

(** *** Starting *)

Lemma ok_enroll status host c http token : ok (Enroll status host c http token).
Proof. unfold Enroll. cbv zeta. destruct (bool_decide _); [frame|]. destruct (rbind _ _); [|frame]. frame. Qed.

#[local] Hint Resolve ok_enroll : frame.

Lemma ok_start status host c http token : client_ok c -> ok (start status host c http token).
Proof.
  intros Hc. unfold start, recoverXray, recoverConfig, obtainIdentity, LoadIdentity.
  apply steps_tryany; [|intros _|frame]; [|frame].
  destruct (ct_xray c) as [m|] eqn:Em; [|frame]. apply steps_tryany; [by apply ok_xray_recover, Hc|frame|frame].
Qed.

Lemma ok_run status host reason c http token telemetry startedAt l pending : client_ok c ->
  Forall (fun a => downloads_ok c (at_downloads a)) l -> ok (Run status host reason c http token telemetry startedAt l pending).
Proof.
  intros Hc Hd. unfold Run. apply steps_any; [by apply ok_start|intros [id|e]]; [|frame].
  destruct (TelemetryEnabled _); [|by apply ok_control]. destruct (telemetry id); [|frame]. by apply ok_control.
Qed.

(** ** The commands of the executable *)

Context `{Zones} `{MapRange}.

(** A client uses the download client it is made with. *)
Definition release_ok (dl : Downloads) : Prop := forall cl version, NewClient release_base false = Ok cl -> net_ok cl (dl_xray dl) version.

Definition made (temp : string) (r : result (Client * bool)) : Prop := forall c pending, r = Ok (c, pending) ->
  forall m, ct_xray c = Some m -> legacyTempDir m = temp /\ exists cl, NewClient release_base false = Ok cl /\ releases m = Some cl.

Lemma made_assemble cfg version u temp pending : made temp (let? c := assemble cfg version u temp in Ok (c, pending)).
Proof.
  intros c pending' (c' & Hc & [= -> <-])%rbind_Ok m Hm. unfold assemble, NewXrayUpdater in Hc.
  destruct (Managed _); [|by injection Hc as <-]. destruct (NewClient release_base false) as [cl|]; [|done].
  injection Hc as <-. injection Hm as <-. split; [done|by exists cl].
Qed.

Lemma ok_client cfg version temp : keeps (NewAgentClient cfg version temp) (made temp).
Proof.
  unfold NewAgentClient. destruct (tlsConfigFor cfg); [|by apply steps_ret]. destruct (NewManager _); [|by apply steps_ret].
  apply steps_any; [frame|intros [p|e]]; (destruct (negb _); [by apply steps_ret|]); apply steps_ret, made_assemble.
Qed.

Lemma ok_runAgent status host reason path version sr telemetry startedAt l : temp_outside (sr_temp sr) ->
  Forall (fun a => release_ok (at_downloads a)) l -> ok (runAgent status host reason path version sr telemetry startedAt l).
Proof.
  intros Ht Hl. unfold runAgent, LoadConfig. apply steps_any; [frame|intros [cfg|e]]; [|frame].
  eapply steps_bind; [apply ok_client|]. intros [[c pending]|e] Hm; [|frame]. specialize (Hm c pending eq_refl).
  apply ok_run; [by intros m [-> _]%Hm|]. eapply Forall_impl; [exact Hl|].
  intros a Ha m cl v [_ (cl' & Hcl & Hr)]%Hm Hr'. rewrite Hr in Hr'. injection Hr' as <-. by apply Ha.
Qed.

Lemma ok_enrollAgent status host path version sr : ok (enrollAgent status host path version sr).
Proof.
  unfold enrollAgent, LoadConfig. apply steps_tryany; [frame|intros cfg|frame].
  apply steps_tryany; [eapply steps_True, ok_client|frame|frame].
Qed.

Lemma ok_prepareUpdate state id version binary : ValidString id = true -> ok (prepareUpdate state id version binary).
Proof. intros Hv. unfold prepareUpdate. destruct (negb _); [frame|]. by apply ok_prepare. Qed.

(** *** The life of an installation *)

(** What lies outside the stores: the control files, the temporary ones, the
    logs, the spool, the configuration and whatever else is there. *)
Definition watched (p : string) : bool :=
  negb (scratch p) && config_area p || Frames.in_dir "xray-runtime" p || bool_decide (p ∈ own) || HasPrefix p "versions".

Definition elsewhere (f g : fs) : Prop := forall p, watched p = true -> g !! p = f !! p.

Lemma stores_elsewhere f g : elsewhere f g -> stores f -> stores g.
Proof.
  intros He [Hc Hu Ha]. split.
  - eapply config_stays, Hc. intros p Hp Hs. apply He. unfold watched. by rewrite Hp, Hs.
  - eapply binaries_stay, Hu. intros p Hp. apply He. unfold watched. by rewrite Hp, orb_true_r.
  - eapply store_same_safe, Ha. split.
    + intros p Hp. apply He. unfold watched. rewrite (bool_decide_true (p ∈ own)) by done. by rewrite orb_true_r.
    + intros x. apply He. unfold watched. by rewrite !orb_true_iff; right.
Qed.

(** The commands of the executable, the launcher after one that ended, what
    processes do, and changes elsewhere. *)
Inductive life : world -> world -> Prop :=
  | life_run status host reason path version sr telemetry startedAt l w w' o :
      temp_outside (sr_temp sr) -> Forall (fun a => release_ok (at_downloads a)) l ->
      runAgent status host reason path version sr telemetry startedAt l w = (w', o) -> life w w'
  | life_enroll status host path version sr w w' o :
      enrollAgent status host path version sr w = (w', o) -> life w w'
  | life_prepare state id version binary w w' o : ValidString id = true ->
      prepareUpdate state id version binary w = (w', o) -> life w w'
  | life_launcher pid w w' o :
      w_fs w !! pendingPath <> None -> plain_file (w_fs w) ("current.rollback-" +:+ FormatUint pid) ->
      launcher_rollback pid w = (w', o) -> life w w'
  | life_process x w : life w (set_run x w)
  | life_elsewhere g w : elsewhere (w_fs w) g -> life w (set_fs g w).

Lemma kept {A} (m : io A) w w' o : ok m -> m w = (w', o) -> stores (w_fs w) -> stores (w_fs w').
Proof. intros Hm E. specialize (Hm w). rewrite E in Hm. apply Hm. Qed.

Lemma life_step w w' : life w w' -> stores (w_fs w) -> stores (w_fs w').
Proof.
  intros Hl Hs. destruct Hl as [status host reason path version sr telemetry startedAt l w w' o Ht Hl E|status host path version sr w w' o E
    |state id version binary w w' o Hv E|pid w w' o Hp Hpl E|x w|g w Hg].
  - eapply kept, Hs; [|exact E]. by apply ok_runAgent.
  - eapply kept, Hs; [|exact E]. apply ok_enrollAgent.
  - eapply kept, Hs; [|exact E]. by apply ok_prepareUpdate.
  - eapply (agent_only (w_fs w)); [|eapply update_agent_step_safe, Hs; by eapply agent_rollback|done].
    pose proof (inside_rollback pid w) as Hi. rewrite E in Hi. apply Hi.
  - done.
  - by eapply stores_elsewhere.
Qed.

Lemma life_steps w w' : rtc life w w' -> stores (w_fs w) -> stores (w_fs w').
Proof. induction 1 as [|w1 w2 w3 Hst _ IH]; [done|]. intros Hs. by eapply IH, life_step. Qed.

(** C1: whatever an installation goes through - runs of the agent with any
    server, any sessions, commands and downloads, enrolments, locally prepared
    updates, the launcher's way back, its processes' control files and any change
    outside the stores, with system calls failing and processes killed at any
    point - its three stores keep their invariants together: the configurations
    and the binaries are stable or have an update on record that can be undone,
    and the current link names an installed version of the agent. *)
Theorem agent_life_safe w w' : stores (w_fs w) -> rtc life w w' -> stores (w_fs w').
Proof. intros Hs Hl. by apply (life_steps w w'). Qed.

(** *** Starting again *)

(** The agent's version is installed and nothing is pending in Xray's stores. *)
Definition settled (f : fs) : Prop := XrayInv.stable f /\ UpdateInv.stable f /\ AgentUpdateProofs.safe f.

Lemma config_settled f : XrayInv.safe f -> f !! XrayRuntime.pendingPath = None -> XrayInv.stable f.
Proof. intros [Hs|[p Hp]] Hn; [done|]. destruct Hp as (_ & _ & [(raw & m & t & E & _) _] & _). congruence. Qed.

Lemma binaries_settled f : UpdateInv.safe f -> f !! XrayUpdate.pendingPath = None -> UpdateInv.stable f.
Proof. intros [Hs|[p Hp]] Hn; [done|]. destruct Hp as (_ & _ & [(raw & m & t & E & _) _] & _). congruence. Qed.

Lemma settled_stores f : settled f <-> stores f /\ f !! XrayRuntime.pendingPath = None /\ f !! XrayUpdate.pendingPath = None.
Proof.
  split.
  - intros (Hc & Hu & Ha). split_and!; [split; [by left|by left|done]|apply Hc|apply Hu].
  - intros ([Hc Hu Ha] & Hpc & Hpu). split_and!; [by apply config_settled|by apply binaries_settled|done].
Qed.

Lemma unchanged {A} (S : area) (m : io A) w w' o p : within S m (fun _ => True) -> m w = (w', o) -> S p = false -> w_fs w' !! p = w_fs w !! p.
Proof. intros Hm E Hp. specialize (Hm w). rewrite E in Hm. by apply Hm. Qed.

(** A client that manages Xray. *)
Definition manages (c : Client) (m : XrayUpdate.Manager) (a : XrayConfig.Manager) : Prop :=
  ct_xray c = Some m /\ has_controller m = true /\ temp_outside (legacyTempDir m) /\
  ct_applier c = Some a /\ XrayConfig.Enabled a = true.

(** Nothing fails any more, Xray can be restarted, what lies in the download
    directory are files, no temporary link is in the way, and not both stores
    have something pending. *)
Definition start_live (w : world) : Prop :=
  calm w /\ controller_live /\ UpdateStart.downloads_ok (w_fs w) /\
  link_fresh w XrayRuntime.currentPath (w_fs w) /\ link_fresh w XrayUpdate.currentPath (w_fs w) /\
  (w_fs w !! XrayRuntime.pendingPath = None \/ w_fs w !! XrayUpdate.pendingPath = None).

Lemma recover_both c m a w : stores (w_fs w) -> manages c m a -> start_live w ->
  exists w1 w2, recoverXray c w = (w1, Done (Ok tt)) /\ recoverConfig c w1 = (w2, Done (Ok tt)) /\ settled (w_fs w2).
Proof.
  intros Hs (Hm & Hcon & Htemp & Ha & Hen) (Hcalm & Hlive & Hd & Hfc & Hfu & Hor).
  destruct (u_recover_settles m w) as (w1 & E1 & Hst1 & Hpc1); [apply Hs|done|done|..].
  { split; [done|split; [done|]]. intros Hp. destruct Hor as [Hn|?]; [|done]. split_and!; [|done|done].
    by apply config_settled; [apply Hs|]. }
  pose proof (fun p => unchanged _ _ _ _ _ p (inside_u_Recover m Htemp) E1) as Hoff.
  assert (stores (w_fs w1)) as Hs1 by (eapply kept, Hs; [|exact E1]; by apply ok_xray_recover).
  destruct (recover_settles a w1) as (w2 & E2 & Hst2 & _); [apply Hs1|done| |done| |].
  { intros n Hn. apply Hcalm. by etrans. }
  { intros n Hn. rewrite Hoff by reflexivity. apply Hfc. by etrans. }
  exists w1, w2. split_and!.
  - unfold recoverXray, try, bind. by rewrite Hm, E1.
  - unfold recoverConfig, try, bind. by rewrite Ha, E2.
  - assert (stores (w_fs w2)) as Hs2 by (eapply kept, Hs1; [|exact E2]; apply ok_config_recover).
    apply settled_stores. split_and!; [done|apply Hst2|].
    rewrite (unchanged _ _ _ _ _ _ (inside_Recover a) E2) by reflexivity. apply Hst1.
Qed.

(** C2: whatever an installation went through, when nothing fails any more a start
    of the agent recovers both of Xray's stores and goes on to the node's
    identity; and wherever it then stops, nothing is pending: every store is
    settled. *)
Theorem agent_start_recovers status host c m a http token w w' :
  stores (w_fs w) -> rtc life w w' -> manages c m a -> start_live w' ->
  exists w2, start status host c http token w' = obtainIdentity status host c http token w2 /\
    settled (w_fs w2) /\ settled (w_fs (start status host c http token w').1).
Proof.
  intros Hs Hl Hc Hlive. destruct (recover_both c m a w') as (w1 & w2 & E1 & E2 & Hst); [by eapply life_steps|done..|].
  assert (start status host c http token w' = obtainIdentity status host c http token w2) as E.
  { unfold start, try, bind at 1. rewrite E1. unfold bind at 1. by rewrite E2. }
  exists w2. split_and!; [done|done|]. rewrite E.
  destruct (obtainIdentity status host c http token w2) as [w3 o] eqn:E3.
  pose proof (inside_obtain status host c http token) as Hi. apply settled_stores in Hst as (Hst & Hpc & Hpu).
  apply settled_stores. split_and!.
  - eapply identity_outside, Hst. specialize (Hi w2). rewrite E3 in Hi. apply Hi.
  - by rewrite (unchanged _ _ _ _ _ _ Hi E3).
  - by rewrite (unchanged _ _ _ _ _ _ Hi E3).
Qed.
End client.
