(* ===== verification/StartOrder.v ===== *)
(** * A start that cannot succeed

    The start recovers the store of binaries before that of configurations,
    and the former's recovery reads the applied configuration.  When both have
    something pending and the configuration's link is already switched, every
    start stops before the recovery that would help. *)

From stdpp Require Import base gmap strings list fin_maps relations.
From Stdlib Require Import ZArith NArith Ascii Lia.
From S2P Require Import Prelude.
From S2P Require Import GoStrings.
From S2P Require Import Os.
From S2P Require Import AtomicFile.
From S2P Require Import Dirs.
From S2P Require Import XrayConfig.
From S2P Require Import XrayTypes.
From S2P Require Import XrayRuntime.
From S2P Require Import XraySteps.
From S2P Require Import XrayInv.
From S2P Require Import XrayRecover.
From S2P Require Import Manifest.
From S2P Require Import UpdateTypes.
From S2P Require Import XrayUpdate.
From S2P Require Import UpdateSteps.
From S2P Require Import UpdateInv.
From S2P Require Import UpdateRecover.
From S2P Require Import UpdateStart.
From S2P Require Import UpdateTheorems.
From S2P Require Import Release.
From S2P Require Import AgentUpdate.
From S2P Require Import Identity.
From S2P Require Import Config.
From S2P Require Import Client.
From S2P Require Import Agent.

(** An update of the binary that was not recorded as applied is pending. *)
Definition binary_open (p : UpdateTypes.pendingState) (f : fs) : Prop :=
  UpdateInv.prog p f /\ forall a, UpdateInv.applied_is f a -> matches_pending a p = false.

(** The configuration's link is not where the applied one is. *)
Definition config_switched (f : fs) : Prop := exists a t,
  XrayInv.holds XrayRuntime.appliedPath XrayTypes.parse_applied f a /\ f !! XrayRuntime.currentPath = Some (NLink t) /\
  XrayTypes.validateTarget t = Ok tt /\ t <> XrayTypes.a_target a.

Definition stuck (f : fs) : Prop := (exists p, binary_open p f) /\ config_switched f.

Lemma switched_path f : config_switched f -> exists e, s_configPath f = Err e.
Proof.
  intros (a & t & (raw & m & z & Ha & Hp) & Hl & Hv & Hne). unfold s_configPath, s_config, XraySteps.s_applied, XraySteps.s_parsed, XraySteps.s_verifyApplied.
  rewrite (fs_readfile_file _ _ _ _ _ Ha), Hp, (proj2 (XraySteps.s_link_ok XrayRuntime.currentPath f t)) by done.
  rewrite bool_decide_false by done. by eexists.
Qed.

Lemma cleaned_stuck f g : cleaned f g -> stuck f -> stuck g.
Proof.
  intros Hc [(p & Hp & Hm) (a & t & (raw & m & z & Ha & Hr) & Hl & Hv)]. split.
  - exists p. split; [by eapply cleaned_prog|]. intros b [(raw' & m' & z' & Hb & Hr') Hok]. apply Hm. split; [|done].
    exists raw', m', z'. by rewrite <- (cleaned_lookup f g).
  - exists a, t. rewrite (cleaned_lookup f g) by done. split; [|done]. exists raw, m, z. by rewrite (cleaned_lookup f g).
Qed.

Lemma stuck_safe f : stuck f -> UpdateInv.safe f.
Proof. intros [(p & Hp & _) _]. right. by exists p. Qed.

Section order.
Context `{Env} `{RU : !Runner} `{!RunnerLaws} `{Controller} `{!ControllerLaws} `{BundleRunner} `{!BundleRunnerLaws} `{!ClockOk}.
Context `{Zip} `{Platform} `{UrlParser} `{Tar} `{Candidate} `{Collector} `{!CollectorLaws} `{Owner}.

(** Without a configuration to take along the update is not undone. *)
Lemma wp_recoverPending_stuck p g w (Q : result unit -> world -> Prop) (C : world -> Prop) :
  binary_open p g -> config_switched g -> w_fs w = g ->
  (forall w', w_fs w' = g -> C w') -> (forall e w', w_fs w' = g -> Q (Err e) w') -> wp (recoverPending p) Q C w.
Proof.
  intros [Hp Hm] Hsw Hw HC HQ. unfold recoverPending.
  assert (since w g w) as Hs0 by (split; [done|lia]).
  assert (forall w', since w g w' -> wp (try! config := appliedConfigPath in undo p config.1) Q C w') as Hundo.
  { intros w' Hw'. apply wp_try, (s_reads _ _ w g _ _ _ reads_configPath Hw').
    { intros w2 _ [[Hw2 _] _]. split; [by apply HC|]. intros e _. by apply wp_ret, HQ. }
    intros w2 [[Hw2 _] _]. destruct (switched_path g Hsw) as [e ->]. by apply wp_ret, HQ. }
  apply wp_bind, (s_reads _ _ w g _ _ _ u_reads_loadApplied Hs0).
  { intros w' _ [[Hw' _] _]. split; [by apply HC|]. intros e He. cbn [confirmedUpdate]. apply wp_bind, wp_ret. rewrite He. by apply wp_ret, HQ. }
  intros w1 [Hw1 _]. pose proof (u_tracked_applied p g Hp) as Hta.
  destruct (UpdateSteps.s_applied g) as [a|e]; cbn [confirmedUpdate].
  - destruct Hta as [Ha _]. rewrite (Hm a Ha). apply wp_bind, wp_ret. by apply Hundo.
  - apply wp_bind, wp_ret. rewrite Hta. by apply Hundo.
Qed.

Lemma wp_recover_stuck m w (Q : result unit -> world -> Prop) (C : world -> Prop) :
  has_controller m = true -> temp_outside (legacyTempDir m) -> stuck (w_fs w) ->
  (forall w', stuck (w_fs w') -> C w') -> (forall e w', stuck (w_fs w') -> Q (Err e) w') -> wp (XrayUpdate.Recover m) Q C w.
Proof.
  intros Hm Ht Hs HC HQ. unfold XrayUpdate.Recover. rewrite Hm. cbn [negb].
  apply wp_try, (wp_cleanupStale m w (w_fs w)).
  { apply after_refl. } { by apply u_safe_layout, stuck_safe. } { done. }
  { intros g w' _ [Hg _] Hc. apply HC. rewrite Hg. by eapply cleaned_stuck. }
  { intros e g w' _ [Hg _] Hc. apply wp_ret, HQ. rewrite Hg. by eapply cleaned_stuck. }
  intros g w1 (Hg & _ & Hpc) [Hcl _]. pose proof (cleaned_stuck _ _ Hcl Hs) as [(p & Hp) Hsw].
  assert (since w1 g w1) as Hs1 by (split; [done|lia]).
  assert (forall w', w_fs w' = g -> stuck (w_fs w')) as Hst by (intros w' ->; split; [by exists p|done]).
  apply wp_bind, (s_reads _ _ w1 g _ _ _ u_reads_loadPending Hs1).
  { intros w' _ [[Hw' _] _]. split; [by apply HC, Hst|]. intros e He. rewrite He. by apply wp_ret, HQ, Hst. }
  intros w2 [[Hw2 _] _]. rewrite (u_holds_pending g p) by (eapply u_prog_layout || apply Hp; apply Hp).
  apply (wp_recoverPending_stuck p g); auto.
Qed.

(** C18: a start of the agent whose binary store has an open update pending while
    the configuration's link is switched but not recorded never succeeds,
    whatever fails or does not, and leaves the installation in such a state:
    recovering the binary needs the applied configuration intact, and the
    recovery of the configuration, which would restore it, comes second. *)
Theorem start_blocked status host c m a http token w w' o :
  manages c m a -> stuck (w_fs w) -> start status host c http token w = (w', o) ->
  stuck (w_fs w') /\ forall i, o <> Done (Ok i).
Proof.
  intros (Hm & Hcon & Ht & _) Hs E.
  enough (wp (start status host c http token) (fun r w' => stuck (w_fs w') /\ forall i, r <> Ok i) (fun w' => stuck (w_fs w')) w) as Hwp.
  { unfold wp in Hwp. rewrite E in Hwp. destruct o as [r|]; [|done]. destruct Hwp as [? Hr]. split; [done|]. intros i [= ->]. by destruct (Hr i). }
  unfold start. apply wp_try. unfold recoverXray. rewrite Hm. apply wp_try, wp_recover_stuck; [done|done|done|done|].
  intros e w1 Hs1. by do 2 apply wp_ret.
Qed.
End order.
