(* ===== verification/Installation.v ===== *)
(** * An installation

    An agent that manages Xray is started and told to apply a configuration, to
    update the binary and to apply another configuration: the theorems about the
    whole agent at concrete states of it. *)

From stdpp Require Import base gmap strings list fin_maps relations.
From Stdlib Require Import ZArith NArith Ascii Lia.
From S2P Require Import Prelude.
From S2P Require Import GoStrings.
From S2P Require Import Sha256.
From S2P Require Import Json.
From S2P Require Import Os.
From S2P Require Import AtomicFile.
From S2P Require Import FsLogic.
From S2P Require Import Dirs.
From S2P Require Import XrayConfig.
From S2P Require Import XrayTypes.
From S2P Require Import XrayRuntime.
From S2P Require Import XrayInv.
From S2P Require Import XrayTheorems.
From S2P Require Import Manifest.
From S2P Require Import Release.
From S2P Require Import UpdateTypes.
From S2P Require Import XrayUpdate.
From S2P Require Import UpdateInv.
From S2P Require Import UpdateStart.
From S2P Require Import UpdateBuild.
From S2P Require Import UpdateEntry.
From S2P Require Import UpdateTheorems.
From S2P Require Import AgentUpdate.
From S2P Require Import AgentUpdateProofs.
From S2P Require Import AgentUpdateTheorems.
From S2P Require Import Identity.
From S2P Require Import Config.
From S2P Require Import ConfigProofs.
From S2P Require Import Protocol.
From S2P Require Import Client.
From S2P Require Import ClientTheorems.
From S2P Require Import Main.
From S2P Require Import Agent.
From S2P Require Import StartOrder.

(** ** The environment: one call fails, one kills *)

Definition killed_at (killing n : nat) : fault := if (n =? killing)%nat then Crash else NoFault.

Definition one_then (failing killing n : nat) : fault :=
  if (n =? failing)%nat then FailWith "I/O error" else if (n =? killing)%nat then Crash else NoFault.

Definition fixed_env (faults : nat -> fault) : Env :=
  {| fault_at := faults; time_at := fun _ => 1700000000000000000%Z; rand_at := fun _ => 7%N |}.

Lemma fixed_env_clock faults : @ClockOk (fixed_env faults).
Proof. by split. Qed.

Definition in_urls : UrlParser := {| parse_url := fun s =>
  Some (Url "https" (if HasPrefix s "https://github.com" then "github.com" else "panel.example") None
    (if bool_decide (s = "https://github.com") then "" else "/x") "" "") |}.

(** ** The state directory *)

Definition in_config : string :=
  obj [("serverUrl", quote "https://panel.example/"); ("xray", obj [("mode", quote "managed"); ("binaryPath", quote "/usr/bin/xray")]);
       ("telemetry", obj [("enabled", "false")])].
Definition in_files : fs :=
  <["agent.json" := NFile in_config 416 0]> (<[identity_path := NFile (encode_identity (MkIdentity 1 "node" "secret")) 384 0]> ex_store).
Definition in_start : world := World in_files 0 None.

Lemma in_stores : stores in_files.
Proof.
  split.
  - left. apply no_config_stable. vm_compute. reflexivity.
  - apply (outside_safe (w_fs ex_empty)); [|exact empty_safe]. intros p [x Hx].
    apply under_Some in Hx as [-> [->|[y ->]]].
    + vm_compute. reflexivity.
    + change (in_files !! ("xray-runtime" +:+ String slash y) = None). apply (nothing_below_lookup "xray-runtime"). vm_compute. reflexivity.
  - apply (store_same_safe ex_store); [|exact ex_store_safe]. split; [|intros x; reflexivity].
    assert ("agent.json" ∉ own /\ identity_path ∉ own) as [Ha Hi] by (split; apply (bool_decide_eq_true _); vm_compute; reflexivity).
    intros p Hp. unfold in_files. rewrite !lookup_insert_ne; [done|by intros <-..].
Qed.

(** ** What the server says *)

Definition in_downloads : Downloads := MkDownloads ex_server ex_releases.
Definition in_message : string := "1700000000000-7".
Definition in_tell (id type payload : string) : turn :=
  MkTurn (Ok tt) (ex_message MessageHeartbeatAck (obj [("messageId", quote in_message); ("serverTime", "0");
    ("command", obj [("id", quote id); ("type", quote type); ("issuedAt", "0"); ("expiresAt", "99999999999"); ("payload", payload)])]))
    (Ok tt) (ex_message MessageCommandResultAck (obj [("commandId", quote id)])) false.
Definition in_text (n : N) : string := obj [("log", obj []); ("n", FormatUint n)].
Definition in_apply (n : N) : string :=
  obj [("configVersion", FormatUint n); ("configDigest", quote (sha256_hex (in_text n))); ("config", in_text n)].
Definition in_attempt (l : list turn) : attempt := MkAttempt false None (MkConnection (Ok tt) ex_hello l) in_downloads true true.
Definition in_host : surroundings := MkSurroundings "" "" (fun _ _ => Err (errorsNew "offline")).

Definition in_run (f : nat -> fault) (l : list attempt) (w : world) : world * outcome (list Z * option (result unit)) :=
  @runAgent (fixed_env f) ok_runner XrayTheorems.ex_controller UpdateTheorems.ex_updates UpdateTheorems.ex_zip ex_host in_urls ex_tar ex_candidate
    ex_collector ex_owner ex_zones ex_range (fun _ => "") "host" (fun _ => "failed") "agent.json" "v1" in_host (fun _ => Ok tt)
    1700000000000000000 l w.

Definition in_talk : list attempt := [in_attempt
  [in_tell "c1" CommandApplyConfig (in_apply 6); in_tell "c2" CommandXrayUpdate (ex_version_payload "v2");
   in_tell "c3" CommandApplyConfig (in_apply 7)]].

Lemma ex_releases_body (U : UrlParser) c url limit raw : Download c url limit (ex_releases url) = Ok raw ->
  raw = ex_manifest "v2" ex_archive_digest \/ raw = "archive 1".
Proof.
  unfold Download, downloadWithRetry. destruct (Z.leb_spec limit 0); [done|]. destruct (parse_url url); [|done]. destruct (is_ok _); [|done].
  destruct (attempts _ _ _ _ _ _ _ _) as [out [n|]] eqn:E; [|done]. intros [= <-].
  apply attempts_deliver in E as (i & _ & (_ & [= <-] & _) & _); [|lia|done|done]. destruct (HasSuffix _ _); auto.
Qed.

Definition version_of (r : result Manifest.Manifest) : string := match r with Ok m => Manifest.mf_version m | Err _ => "" end.

Lemma ex_releases_ok cl version : @net_ok ex_host in_urls cl ex_releases version.
Proof.
  intros m a url. unfold resolveRelease. destruct (Release.URL cl _ _ _) as [u|]; [|by intros [=]].
  destruct (@Release.Download in_urls cl u Manifest.maxManifestBytes (ex_releases u)) as [raw|] eqn:E; [|by intros [=]]. apply ex_releases_body in E as [-> | ->]; cbn [rbind].
  - destruct (Manifest.decodeManifest _) as [m'|] eqn:Em; [|by intros [=]]. assert (Manifest.mf_version m' = "v2") as Hv.
    { change (version_of (Ok m') = "v2"). rewrite <- Em. vm_compute. reflexivity. }
    cbn [rbind]. intros Hr. assert (m' = m) as <-; [|by rewrite Hv].
    destruct (guard_err _ _); [|done]. destruct (Manifest.selectArtifact m'); [|done]. cbn [rbind] in Hr. destruct (URL cl _ _ _); [|done]. by injection Hr.
  - vm_compute. done.
Qed.

Lemma in_release : Forall (fun a => @release_ok ex_host in_urls (at_downloads a)) in_talk.
Proof. apply Forall_cons_2; [|apply Forall_nil_2]. intros cl version _. apply ex_releases_ok. Qed.

(** ** Killed in the midst of the second command *)

Definition in_killed : world := Eval vm_compute in (in_run (killed_at 180) in_talk in_start).1.

Lemma in_killed_run : in_run (killed_at 180) in_talk in_start = (in_killed, Crashed).
Proof. by_evaluation. Qed.

(** ** A failure, and killed in the midst of the third *)

Definition in_stuck : world := Eval vm_compute in (in_run (one_then 174 250) in_talk in_start).1.

Lemma in_stuck_run : in_run (one_then 174 250) in_talk in_start = (in_stuck, Crashed).
Proof. by_evaluation. Qed.

(** ** The theorems there *)

(** The client made from the configuration. *)
Definition in_manager : XrayUpdate.Manager := XrayUpdate.MkManager (Some (Release.MkClient false "https://github.com")) true true "".
Definition in_applier : XrayConfig.Manager := NewManagedManager "/usr/bin/xray".
Definition in_client : Client :=
  Client.MkClient (MkConfig "https://panel.example/" "" false "" (MkXray "managed" "/usr/bin/xray" "" "") zero_update zero_telemetry) "v1"
    (AgentUpdate.MkManager "" None) in_applier (Some in_applier) (Some in_manager) false.

Lemma in_manages : manages in_client in_manager in_applier.
Proof. split_and!; [done|done|by left|done|done]. Qed.

Lemma in_life f w w' o : in_run f in_talk w = (w', o) ->
  @life (fixed_env f) ok_runner XrayTheorems.ex_controller UpdateTheorems.ex_updates UpdateTheorems.ex_zip ex_host in_urls ex_tar ex_candidate
    ex_collector ex_owner ex_zones ex_range w w'.
Proof. intros E. eapply life_run; [| |exact E]; [by left|exact in_release]. Qed.

Lemma agent_life_safe_witness : w_fs in_killed !! XrayUpdate.pendingPath <> None /\ stores (w_fs in_killed).
Proof.
  split; [vm_compute; discriminate|].
  apply (@agent_life_safe (fixed_env (killed_at 180)) ok_runner (ok_runner_laws _) XrayTheorems.ex_controller (ex_controller_laws _)
    UpdateTheorems.ex_updates (ex_updates_laws _) (fixed_env_clock _) UpdateTheorems.ex_zip ex_host in_urls ex_tar ex_candidate ex_collector
    ex_collector_laws ex_owner ex_zones ex_range in_start); [exact in_stores|].
  eapply rtc_once, in_life. exact in_killed_run.
Defined.

Lemma in_stuck_life : rtc (@life (fixed_env (one_then 174 250)) ok_runner XrayTheorems.ex_controller UpdateTheorems.ex_updates UpdateTheorems.ex_zip
  ex_host in_urls ex_tar ex_candidate ex_collector ex_owner ex_zones ex_range) in_start in_stuck.
Proof. eapply rtc_once, in_life. exact in_stuck_run. Qed.

Lemma in_stuck_stores : stores (w_fs in_stuck).
Proof.
  apply (@life_steps (fixed_env (one_then 174 250)) ok_runner (ok_runner_laws _) XrayTheorems.ex_controller (ex_controller_laws _)
    UpdateTheorems.ex_updates (ex_updates_laws _) (fixed_env_clock _) UpdateTheorems.ex_zip ex_host in_urls ex_tar ex_candidate ex_collector
    ex_collector_laws ex_owner ex_zones ex_range in_start); [exact in_stuck_life|exact in_stores].
Qed.

Definition in_target (n : N) : string := XrayTypes.version_target n (sha256_hex (in_text n)).
Definition in_applied : XrayTypes.AppliedState := XrayTypes.MkApplied 6 (sha256_hex (in_text 6)) (in_target 6) 1700000000.
Definition in_applied_text : string := XrayTypes.encode_applied in_applied.

Lemma in_is_stuck : stuck (w_fs in_stuck).
Proof.
  split.
  - destruct (st_binaries _ in_stuck_stores) as [(_ & E & _)|[p Hp]]; [exfalso; revert E; vm_compute; discriminate|].
    exists p. split; [exact Hp|]. intros a [(raw & m & t & E & _) _]. exfalso. revert E. vm_compute. discriminate.
  - exists in_applied, (in_target 7). split; [exists in_applied_text, 384%N, 1700000000000000000%Z; split; vm_compute; reflexivity|].
    split; [vm_compute; reflexivity|]. split; [vm_compute; reflexivity|vm_compute; discriminate].
Qed.

(** The next start, when nothing fails any more. *)
Definition in_again (f : nat -> fault) (w : world) : world * outcome (result Identity.Identity) :=
  @start (fixed_env f) XrayTheorems.ex_controller ex_host (fun _ => "") "host" ex_owner in_client (fun _ _ => Err (errorsNew "offline")) "" w.

Definition in_still_stuck : world := Eval vm_compute in (in_again (one_then 174 250) in_stuck).1.
Definition in_refusal : string := Eval vm_compute in match (in_again (one_then 174 250) in_stuck).2 with Done (Err e) => err_text e | _ => "" end.

Lemma in_refused : in_again (one_then 174 250) in_stuck = (in_still_stuck, Done (Err (errorsNew in_refusal))).
Proof. by_evaluation. Qed.

Lemma start_blocked_witness :
  stores in_files /\
  rtc (@life (fixed_env (one_then 174 250)) ok_runner XrayTheorems.ex_controller UpdateTheorems.ex_updates UpdateTheorems.ex_zip ex_host in_urls
    ex_tar ex_candidate ex_collector ex_owner ex_zones ex_range) in_start in_stuck /\
  (in_again (one_then 174 250) in_stuck).2 = Done (Err (errorsNew in_refusal)) /\ stuck (w_fs in_still_stuck).
Proof.
  split; [exact in_stores|]. split; [exact in_stuck_life|].
  pose proof in_refused as E. split; [by rewrite E|]. unfold in_again in E.
  apply (@start_blocked (fixed_env (one_then 174 250)) XrayTheorems.ex_controller ex_host ex_owner (fun _ => "") "host" in_client in_manager
    in_applier (fun _ _ => Err (errorsNew "offline")) "" in_stuck in_still_stuck _ in_manages in_is_stuck E).
Defined.

(** A start after the first run, which was killed with the update pending. *)
Lemma in_killed_live : @start_live (fixed_env (killed_at 180)) XrayTheorems.ex_controller in_killed.
Proof.
  split; [|split; [|split; [|split; [|split]]]].
  - intros n Hn. assert (w_pc in_killed = 181%nat) as E by (vm_compute; reflexivity). rewrite E in Hn.
    unfold fault_at, fixed_env, killed_at. by destruct (Nat.eqb_spec n 180); [lia|].
  - intros w. split; by eexists.
  - apply clean_downloads_ok; vm_compute; reflexivity || exact I.
  - apply no_stale_link_fresh. vm_compute. reflexivity.
  - apply no_stale_link_fresh. vm_compute. reflexivity.
  - left. vm_compute. reflexivity.
Qed.

Definition in_recovered : world := Eval vm_compute in (in_again (killed_at 180) in_killed).1.

Lemma in_recovered_run : in_again (killed_at 180) in_killed = (in_recovered, Done (Ok (MkIdentity 1 "node" "secret"))).
Proof. by_evaluation. Qed.

Lemma agent_start_recovers_witness :
  w_fs in_killed !! XrayUpdate.pendingPath <> None /\
  in_again (killed_at 180) in_killed = (in_recovered, Done (Ok (MkIdentity 1 "node" "secret"))) /\ settled (w_fs in_recovered).
Proof.
  split; [vm_compute; discriminate|].
  split; [exact in_recovered_run|].
  destruct (@agent_start_recovers (fixed_env (killed_at 180)) ok_runner (ok_runner_laws _) XrayTheorems.ex_controller (ex_controller_laws _)
    UpdateTheorems.ex_updates (ex_updates_laws _) (fixed_env_clock _) UpdateTheorems.ex_zip ex_host in_urls ex_tar ex_candidate ex_collector
    ex_collector_laws ex_owner ex_zones ex_range (fun _ => "") "host" in_client in_manager in_applier (fun _ _ => Err (errorsNew "offline")) ""
    in_start in_killed) as (w2 & _ & _ & Hs).
  - exact in_stores.
  - eapply rtc_once, in_life. exact in_killed_run.
  - exact in_manages.
  - exact in_killed_live.
  - pose proof in_recovered_run as E. unfold in_again in E. rewrite E in Hs. exact Hs.
Defined.

(** ** The binary alone: the configuration is taken along *)

Definition in_binary : world := Eval vm_compute in
  (@XrayUpdate.Recover (fixed_env (killed_at 180)) XrayTheorems.ex_controller ex_owner in_manager in_killed).1.

Lemma in_binary_run :
  @XrayUpdate.Recover (fixed_env (killed_at 180)) XrayTheorems.ex_controller ex_owner in_manager in_killed = (in_binary, Done (Ok tt)).
Proof. by_evaluation. Qed.

Lemma in_killed_stores : stores (w_fs in_killed).
Proof.
  apply (@life_steps (fixed_env (killed_at 180)) ok_runner (ok_runner_laws _) XrayTheorems.ex_controller (ex_controller_laws _)
    UpdateTheorems.ex_updates (ex_updates_laws _) (fixed_env_clock _) UpdateTheorems.ex_zip ex_host in_urls ex_tar ex_candidate ex_collector
    ex_collector_laws ex_owner ex_zones ex_range in_start); [eapply rtc_once, in_life; exact in_killed_run|exact in_stores].
Qed.

(** Version 6 of the configuration is applied there. *)
Lemma in_killed_config : exists c, XrayInv.consistent (w_fs in_killed) c.
Proof.
  destruct (st_config _ in_killed_stores) as [(_ & _ & [[Hn _]|Hc])|(p & _ & _ & [(raw & m & t & E & _) _] & _)]; [|done|];
    exfalso; [revert Hn|revert E]; vm_compute; discriminate.
Qed.

Lemma update_recover_outcome_witness :
  exists p c, UpdateInv.prog p (w_fs in_killed) /\ XrayInv.consistent (w_fs in_killed) c /\ UpdateInv.stable (w_fs in_binary) /\
    UpdateRecover.reverted p (w_fs in_binary) /\
    UpdateRecover.u_failure_recorded p recover_message UpdateTypes.ErrorCodePreparationFailed (w_fs in_binary) /\ XrayRecover.runs c in_binary.
Proof.
  destruct in_killed_config as [c Hc].
  destruct (st_binaries _ in_killed_stores) as [(_ & E & _)|[p Hp]]; [exfalso; revert E; vm_compute; discriminate|].
  destruct (@update_recover_outcome (fixed_env (killed_at 180)) XrayTheorems.ex_controller (ex_controller_laws _) UpdateTheorems.ex_updates (ex_updates_laws _) ex_owner
    in_manager p in_killed in_binary Hp eq_refl (or_introl eq_refl) in_binary_run) as (Hst & [(a & [[(raw & m & t & E & _) _] _] & _)|(Hr & Hf & Hc')]).
  - exfalso. revert E. vm_compute. discriminate.
  - exists p, c. split; [exact Hp|]. split; [exact Hc|]. split; [exact Hst|]. split; [exact Hr|]. split; [exact Hf|exact (Hc' c Hc)].
Defined.
